(* ===== verification/_CoqProject ===== *)
-Q . S2P
Prelude.v
Classification.v
Fence.v
FenceProps.v
GoTime.v
Types.v
GoParse.v
Dedup.v
Sha256.v
Base64.v
GT06.v
GT06Props.v
GoFloat.v
Validate.v
Effects.v
Store.v
StoreProps.v
Sign.v
Jws.v
Auth.v
Http.v
Devices.v
DeviceSign.v
DeviceStore.v
DeviceVerify.v
DeviceApi.v
DeviceSpec.v
DeviceProps.v
DeviceTrust.v
Decode.v
Hub.v
HubProps.v
Pipeline.v
PipelineProps.v
Connectors.v
ConnectorProps.v
AppStore.v
AppReports.v
AppProps.v
Congestion.v
Track.v
GeoStore.v
GeoProps.v
GeoServer.v
GeoV2.v
GeoApiProps.v
Transit.v
Eta.v
GtfsStatic.v
GtfsFeed.v
RealtimeProps.v
TransitSeed.v
TransitProps.v
FeedsApi.v
TransitSamples.v
SeedZones.v
Recommend.v
Metrics.v
Migrate.v
SafetyRows.v
Safety.v
SafetySpec.v
SafetyProps.v
SafetyEvidence.v
SafetyApi.v
SafetyApiProps.v
Mrv.v
MrvProps.v
MrvEstimate.v
MrvRows.v
MrvService.v
MrvApi.v
MrvSpec.v
MrvWorkflow.v
MrvIntake.v
MrvApiProps.v
MrvOutbox.v
Mux.v
Routes.v
Config.v
