(* ===== verification/Prelude.v ===== *)
(** * Verification of the blueeconomy geo service

    Two services of a maritime administration, written in Go.  The geo service ingests
    vessel positions (AIS feeds, GSM trackers, app reports), checks and stores them,
    evaluates geofences, signs events and streams them to cleared readers, and serves the
    vessel picture, the safety-compliance workflows, the transit feeds and the device
    registry.  The MRV service keeps the monitoring, reporting and verification of
    emissions.  This library models the code under [src/internal/] and [src/cmd/] as
    executable definitions and proves what makes it correct.

    ** How the program is put together

    A connector turns bytes, rows or requests into an [IngestPosition] and calls
    [Pipeline.HandlePosition].  The pipeline runs the static checks and the
    consecutive-fix check ([validate]), absorbs duplicates through Redis ([dedup]), stores
    the position and the latest row in Postgres ([store]), evaluates the stored zones and
    the in-memory fence engine ([fence]), builds signed envelopes ([sign]), writes them to
    Kafka ([bus]) and hands them to the realtime hub ([realtime]), which delivers to every
    subscriber whose clearance covers the label.  The HTTP interface ([api]) authenticates
    ([auth]), asks for a role per route and calls the stores; mutations publish through the
    pipeline.  The device plane ([devices]) authenticates signed telemetry and forwards it.
    The MRV service ([mrv]) is a second process over the same database, whose events leave
    through an outbox.

    ** Files, in dependency order

    - [Prelude]: results, machine integers with their wrap-around, instants and durations,
      byte strings and trimming, decimal text, sorting, tactics.  [GoTime], [GoParse],
      [GoFloat]: civil dates and RFC 3339, number parsing, binary64 arithmetic on
      [SpecFloat].  [Sha256], [Base64]: executable, checked on the standards' vectors.
      [Effects]: a state and error monad in which every external call meets a fault (none,
      failure before it took effect, failure after) read from a list, and transactions.
      [Http]: answers, bodies, parameters.  [Mux]: [http.ServeMux].
    - [Classification]: [sign/classification.go], [clearedLabels], [validatedClearance].
    - [Fence] (modules [Geometry], [Zone], [Engine]), [FenceProps]: [fence/engine.go],
      [fence/zone_category.go].  [SeedZones]: [fence/geojson.go] and the boot loader.
    - [Types], [Dedup], [Validate]: position records, [dedup/dedup.go], [validate/].
    - [GT06], [GT06Props]: [connectors/gt06.go], one connection as a function from its byte
      stream to its actions and the way it ends.  [Decode], [Connectors],
      [ConnectorProps]: [decode/decode.go], the NMEA, AIS stream, PCS and replay connectors.
    - [Store], [StoreProps]: positions, zones and static rows.  [AppStore], [AppReports],
      [AppProps]: app reports and distress alerts.  [GeoStore], [GeoProps]: vessel, zone,
      fence and queue queries and writes.
    - [Sign], [Jws]: envelopes, payloads, keys, signatures.  [Auth]: both authenticators.
    - [Hub], [HubProps]: [realtime/hub.go] as a transition system over interleavings.
    - [Pipeline], [PipelineProps]: [connectors/pipeline.go], [connectors/fencev2.go], the
      producer of [bus/producer.go].
    - [Devices], [DeviceSign], [DeviceStore], [DeviceVerify], [DeviceApi], [DeviceSpec],
      [DeviceProps], [DeviceTrust]: [devices/] with migration 0010.
    - [Congestion], [Track]: the forecaster and the track windows.
    - [GeoServer], [GeoV2], [GeoApiProps]: [api/server.go], [api/geo_v2.go],
      [api/density.go].
    - [Transit], [TransitSeed], [TransitProps], [TransitSamples]: the transit registry and
      its seed with migration 0009.  [Eta], [GtfsStatic], [GtfsFeed], [RealtimeProps],
      [FeedsApi]: [gtfsrt/], [gtfs/] and [api/feeds.go].
    - [Recommend]: [mlstack/client.go], [api/recommend.go] and the log of migration 0018.
      [Metrics]: [metrics/metrics.go].  [Migrate]: [store/migrate.go].
    - [SafetyRows], [Safety], [SafetySpec], [SafetyProps], [SafetyEvidence], [SafetyApi],
      [SafetyApiProps]: [store/safety.go] with migration 0016 and [api/safety.go].
    - [Mrv], [MrvProps], [MrvEstimate]: factors, products, windows, intensity, activity.
      [MrvRows], [MrvService], [MrvSpec], [MrvWorkflow], [MrvIntake], [MrvOutbox],
      [MrvApi], [MrvApiProps]: the workflow with migration 0012, its outbox and handlers.
    - [Routes]: the route trees of both services, the split between the planes, the request
      log, the event stream, the capability document.  [Config]: [config/config.go], the
      settings of the clients, and what [cmd/geo-service] and [cmd/mrv-api] build.

    Each component has a record for its state (for the stores the tables, keyed as the
    migrations key them), one definition per method or handler under the name of the source,
    and explicit parameters for what is outside.  Files with [Props], [Spec] or [Trust] in
    their names hold theorems; the other files hold definitions, and smaller components
    their theorems too.

    ** What the theorems show

    - Ingest: every report reported as handled is stored, quarantined or a duplicate;
      everything on the event topic, whichever connector or handler asked for it, is signed
      and labelled, the SOS and safety families at RESTRICTED or above; imported rows are not
      lost; all under arbitrary faults.
    - Fences: containment agrees with exact arithmetic on validated rings, events follow the
      stays of a vessel.  Tracker frames round-trip.
    - Readers: the hub delivers the cleared events in order without loss; tenants do not see
      each other's safety rows; an accepted token is signed by a key of one recent answer of
      the realm; a signature cannot be moved to an envelope that says something else; device
      signatures are checked as documented; revocation is final; activation secrets work
      once.
    - Workflows: the safety and MRV code refine abstract lifecycles whose steps fix every
      column of the rows they enter; every committed row satisfies its table's constraints; detention, release, zones and statements of
      compliance take different people in different roles; the routes that publish announce
      what they answer; the outbox delivers at least once and, when the broker recovers,
      everything; the fuel of a report is shared out among voyages without double counting.
    - Transit: the registry keeps its references under every sequence of operations; the
      static archive, unzipped and read by column names, holds the registry's rows and
      resolves its own references; the vehicle feed is exactly
      the fresh, cleared and assigned positions; predictions come from observed speeds;
      loading a seed twice changes nothing.
    - Platform: migrations are applied as a prefix whatever fails; no counter update is lost
      under any interleaving; served suggestions are logged; every handler of both trees is
      reached only through its roles, and every route reaches its handler; a service that
      starts is completely configured.
    - Some theorems and examples state behaviour that contradicts a comment or loses data;
      they are named for what they show (for example [late_lock_breaks_chain],
      [no_frame_is_flushed], [device_list_unreachable], [mrv_proxy_identity_optional]).

    ** Bounds and fuel

    [trim_left] uses the length of its string, each removal taking a byte; [show_dec] the
    binary logarithm, an upper bound on the number of digits; the GT06 loop the length of
    the stream, each frame consuming bytes ([serve_terminates] shows the fuel is never
    exhausted); the producer's attempts are the constant of the code; SHA-256 processes the
    blocks of the padded message; the loops of the forecaster return a value for an index
    out of range or a slice too large to make, which is shown not to occur below stated
    bounds.  All other recursion is structural.

    ** Parameters

    Postgres, Redis, Kafka and the policy service are tables, classes or replies with
    injected faults.  PostGIS predicates, whether a role is subject to row security, the
    order of collations, what Postgres reads as a uuid or JSON, Ed25519, RSA, the
    transcendental functions of [math], time zones, the AIS decoder, the zip, protobuf and
    JSON encoders, [strconv.ParseFloat], [time.ParseDuration], [url.Parse],
    [net.ParseCIDR] and Unicode case mapping are parameters, with the laws the code relies
    on where a theorem needs them.

    ** What is not modelled

    Sockets, listeners, timers, goroutines around the modelled functions and the shutdown;
    spans, exporters and build durations; the layout of JSON answers and the texts of
    wrapped errors; that pgx refuses a query while rows of another are open; the seed and
    fixture commands, which print or load data.  The order of equal keys in an unstable sort
    is taken as stable.  A uuid column is compared as the text it was given and a JSONB
    column holds the text it was given, without the normalisation of Postgres.  A
    subscription draws its number and enters the hub in one step. *)
From stdpp Require Export base gmap strings list sorting fin_maps.
From Stdlib Require Export ZArith Lia.

#[global] Set Default Goal Selector "!".
#[global] Open Scope Z_scope.

(** ** Results: Go's [(value, error)] pairs *)

(** A fallible Go function returns either a value or an error; the error
    type is chosen per component. *)
Inductive result (E A : Type) : Type :=
| Ok (a : A)
| Err (e : E).
Arguments Ok {E A} a.
Arguments Err {E A} e.

#[export] Instance result_eq_dec {E A} `{EqDecision E} `{EqDecision A} :
  EqDecision (result E A).
Proof. solve_decision. Defined.

#[export] Instance result_ret {E} : MRet (result E) := λ A a, Ok a.
#[export] Instance result_bind {E} : MBind (result E) := λ A B f r,
  match r with Ok a => f a | Err e => Err e end.
#[export] Instance result_fmap {E} : FMap (result E) := λ A B f r,
  match r with Ok a => Ok (f a) | Err e => Err e end.

(** [guard_err b e] is the early return [if !b { return e }]. *)
Definition guard_err {E} (b : bool) (e : E) : result E unit :=
  if b then Ok tt else Err e.

Lemma bind_Ok {E A B} (r : result E A) (f : A → result E B) b :
  r ≫= f = Ok b ↔ ∃ a, r = Ok a ∧ f a = Ok b.
Proof. destruct r; naive_solver. Qed.

Lemma guard_err_Ok {E} b (e : E) u : guard_err b e = Ok u ↔ b = true.
Proof. destruct b, u; naive_solver. Qed.

(** ** Machine integers

    A Go integer of a given width is a [Z] inside its range; the conversions
    below are Go's conversions, which keep the low bits. *)
Definition int32 (z : Z) : Z := (z + 2 ^ 31) mod 2 ^ 32 - 2 ^ 31.
Definition int64 (z : Z) : Z := (z + 2 ^ 63) mod 2 ^ 64 - 2 ^ 63.
Definition uint16 (z : Z) : Z := z mod 2 ^ 16.
Definition uint32 (z : Z) : Z := z mod 2 ^ 32.
Definition uint64 (z : Z) : Z := z mod 2 ^ 64.

Definition is_int32 (z : Z) : Prop := - 2 ^ 31 ≤ z < 2 ^ 31.
Definition is_int64 (z : Z) : Prop := - 2 ^ 63 ≤ z < 2 ^ 63.
Definition is_uint32 (z : Z) : Prop := 0 ≤ z < 2 ^ 32.
Definition is_uint64 (z : Z) : Prop := 0 ≤ z < 2 ^ 64.

#[export] Instance is_int32_dec z : Decision (is_int32 z).
Proof. unfold is_int32. apply _. Defined.
#[export] Instance is_uint64_dec z : Decision (is_uint64 z).
Proof. unfold is_uint64. apply _. Defined.

Lemma int32_id z : is_int32 z → int32 z = z.
Proof. unfold is_int32, int32. intros. rewrite Z.mod_small by lia. lia. Qed.
Lemma int64_id z : is_int64 z → int64 z = z.
Proof. unfold is_int64, int64. intros. rewrite Z.mod_small by lia. lia. Qed.
Lemma int64_add a b : int64 (int64 a + b) = int64 (a + b).
Proof.
  unfold int64. f_equal.
  replace ((a + 2 ^ 63) mod 2 ^ 64 - 2 ^ 63 + b + 2 ^ 63) with ((a + 2 ^ 63) mod 2 ^ 64 + b) by lia.
  rewrite Zplus_mod_idemp_l. f_equal. lia.
Qed.
Lemma uint32_id z : is_uint32 z → uint32 z = z.
Proof. unfold is_uint32, uint32. intros. by rewrite Z.mod_small by lia. Qed.
Lemma uint64_id z : is_uint64 z → uint64 z = z.
Proof. unfold is_uint64, uint64. intros. by rewrite Z.mod_small by lia. Qed.
Lemma int32_range z : is_int32 (int32 z).
Proof. unfold is_int32, int32. pose proof (Z.mod_pos_bound (z + 2^31) (2^32)). lia. Qed.
Lemma uint64_range z : is_uint64 (uint64 z).
Proof. unfold is_uint64, uint64. apply Z.mod_pos_bound. lia. Qed.
Lemma uint32_range z : is_uint32 (uint32 z).
Proof. unfold is_uint32, uint32. apply Z.mod_pos_bound. lia. Qed.

(** ** Time: instants and durations in nanoseconds

    A [time.Time] is its instant in nanoseconds since the Unix epoch (its
    location never matters: the code converts to UTC before formatting).
    [time.Sub] saturates at the limits of an int64 duration. *)
Definition time_Sub (a b : Z) : Z :=
  Z.max (- 2 ^ 63) (Z.min (2 ^ 63 - 1) (a - b)).
Definition second : Z := 1000000000.
Definition hour : Z := 3600 * second.
(** [Unix()]: whole seconds, rounded down. *)
Definition time_Unix (t : Z) : Z := t / second.
(** The zero [time.Time], 0001-01-01 00:00 UTC. *)
Definition zero_time : Z := - 62135596800 * second.
Definition time_IsZero (t : Z) : bool := t =? zero_time.

Lemma time_Sub_pos a b : 0 < time_Sub a b ↔ b < a.
Proof. unfold time_Sub. lia. Qed.

(** ** Byte strings

    A Go string is a byte sequence: a Stdlib [string] of 8-bit characters. *)
Abbreviation char := Ascii.ascii.

Definition byte_of (c : char) : Z := Z.of_N (Ascii.N_of_ascii c).
Definition char_of (z : Z) : char := Ascii.ascii_of_N (Z.to_N (z mod 256)).

Lemma byte_of_range c : 0 ≤ byte_of c < 256.
Proof. unfold byte_of. pose proof (Ascii.N_ascii_bounded c). lia. Qed.

Lemma char_of_byte_of c : char_of (byte_of c) = c.
Proof.
  unfold char_of. rewrite Z.mod_small by apply byte_of_range.
  unfold byte_of. rewrite N2Z.id. apply Ascii.ascii_N_embedding.
Qed.

Lemma byte_of_char_of z : 0 ≤ z < 256 → byte_of (char_of z) = z.
Proof.
  intros. unfold byte_of, char_of. rewrite Z.mod_small by done.
  rewrite Ascii.N_ascii_embedding by lia. lia.
Qed.

(** The UTF-8 encodings of the code points for which [unicode.IsSpace]
    holds. *)
Definition bytes_string (l : list Z) : string :=
  fold_right (λ z s, String (char_of z) s) EmptyString l.
Definition unicode_spaces : list string :=
  bytes_string <$>
  ([[9]; [10]; [11]; [12]; [13]; [32]; [194; 133]; [194; 160]; [225; 154; 128];
    [226; 128; 168]; [226; 128; 169]; [226; 128; 175]; [226; 129; 159]; [227; 128; 128]]
   ++ ((λ k, [226; 128; 128 + k]) <$> [0;1;2;3;4;5;6;7;8;9;10])).

(** [strip_prefix p s] removes [p] from the front of [s]. *)
Fixpoint strip_prefix (p s : string) : option string :=
  match p, s with
  | EmptyString, _ => Some s
  | String a p', String b s' => if Ascii.eqb a b then strip_prefix p' s' else None
  | String _ _, EmptyString => None
  end.

Fixpoint strip_any (ps : list string) (s : string) : option string :=
  match ps with
  | [] => None
  | p :: ps' => match strip_prefix p s with Some s' => Some s' | None => strip_any ps' s end
  end.

(** Repeatedly removes one of [ps] from the front; the length of the string
    bounds the number of removals, each of which takes at least a byte. *)
Fixpoint trim_left_fuel (fuel : nat) (ps : list string) (s : string) : string :=
  match fuel with
  | O => s
  | S n => match strip_any ps s with Some s' => trim_left_fuel n ps s' | None => s end
  end.
Definition trim_left (ps : list string) (s : string) : string :=
  trim_left_fuel (String.length s) ps s.
Definition trim_right (ps : list string) (s : string) : string :=
  String.rev (trim_left (String.rev <$> ps) (String.rev s)).

(** [strings.TrimSpace]. *)
Definition TrimSpace (s : string) : string :=
  trim_right unicode_spaces (trim_left unicode_spaces s).

(** [strings.TrimSpace(s) == ""]. *)
Definition blank (s : string) : bool := String.eqb (TrimSpace s) "".

(** [strings.HasPrefix]. *)
Definition HasPrefix (s p : string) : bool :=
  match strip_prefix p s with Some _ => true | None => false end.

Definition is_digit (c : char) : bool := (48 <=? byte_of c) && (byte_of c <=? 57).
Fixpoint all_chars (p : char → bool) (s : string) : bool :=
  match s with EmptyString => true | String c s' => p c && all_chars p s' end.

(** ** Cutting and comparing texts *)

(** [strings.Split] on one character. *)
Fixpoint split_on (c : char) (s : string) : list string :=
  match s with
  | EmptyString => [""]
  | String a s' =>
      if Ascii.eqb a c then "" :: split_on c s'
      else match split_on c s' with
           | [] => [String a ""]
           | p :: ps => String a p :: ps
           end
  end.
(** [s] before and after the last [c]: [strings.LastIndex]. *)
Fixpoint cut_last (c : char) (s : string) : option (string * string) :=
  match s with
  | EmptyString => None
  | String a s' =>
      match cut_last c s' with
      | Some (before, after) => Some (String a before, after)
      | None => if Ascii.eqb a c then Some ("", s') else None
      end
  end.
(** [strings.EqualFold] with a text of letters that have no other fold. *)
Definition lower (c : char) : char := if (65 <=? byte_of c) && (byte_of c <=? 90) then char_of (byte_of c + 32) else c.
Fixpoint EqualFold (s t : string) : bool :=
  match s, t with
  | EmptyString, EmptyString => true
  | String a s', String b t' => Ascii.eqb (lower a) (lower b) && EqualFold s' t'
  | _, _ => false
  end.
(** [strings.SplitN(s, " ", 2)] when there is a space. *)
Fixpoint cut_first (c : char) (s : string) : option (string * string) :=
  match s with
  | EmptyString => None
  | String a s' => if Ascii.eqb a c then Some ("", s')
                   else match cut_first c s' with Some (x, y) => Some (String a x, y) | None => None end
  end.

(** A regular expression [^[0-9]{n}$], or the equivalent loop. *)
Definition digits_exactly (n : nat) (s : string) : bool :=
  Nat.eqb (String.length s) n && all_chars is_digit s.

(** ** Decimal text *)

Definition digit_char (d : Z) : char := char_of (48 + d).

(** [%d] of a non-negative integer: the binary logarithm bounds the number of
    decimal digits. *)
Fixpoint show_dec_fuel (fuel : nat) (z : Z) : string :=
  match fuel with
  | O => ""
  | S n => if z <? 10 then String (digit_char z) ""
           else show_dec_fuel n (z / 10) +:+ String (digit_char (z mod 10)) ""
  end.
Definition show_dec (z : Z) : string := show_dec_fuel (S (Z.to_nat (Z.log2 z))) z.
(** [%d]. *)
Definition show_Z (z : Z) : string := if z <? 0 then "-" +:+ show_dec (- z) else show_dec z.
(** [%0nd] of a non-negative value below [10^n]: exactly [n] digits. *)
Fixpoint show_pad (n : nat) (z : Z) : string :=
  match n with
  | O => ""
  | S n' => show_pad n' (z / 10) +:+ String (digit_char (z mod 10)) ""
  end.

(** The value of a string of digits. *)
Fixpoint dec_value_from (acc : Z) (s : string) : Z :=
  match s with
  | EmptyString => acc
  | String c s' => dec_value_from (acc * 10 + (byte_of c - 48)) s'
  end.
Definition dec_value (s : string) : Z := dec_value_from 0 s.

Lemma dec_value_from_snoc acc s c :
  dec_value_from acc (s +:+ String c "") = dec_value_from acc s * 10 + (byte_of c - 48).
Proof. revert acc. induction s as [|d s IH]; intros acc; simpl; [done|apply IH]. Qed.

Lemma byte_of_digit d : 0 ≤ d < 10 → byte_of (digit_char d) = 48 + d.
Proof. intros. unfold digit_char. apply byte_of_char_of. lia. Qed.

Lemma is_digit_digit_char d : 0 ≤ d < 10 → is_digit (digit_char d) = true.
Proof. intros. unfold is_digit. rewrite byte_of_digit by done. apply andb_true_iff. lia. Qed.

Lemma all_chars_app p s1 s2 : all_chars p (s1 +:+ s2) = all_chars p s1 && all_chars p s2.
Proof. induction s1 as [|c s1 IH]; simpl; [done|]. by rewrite IH, andb_assoc. Qed.

Lemma string_length_app s1 s2 : String.length (s1 +:+ s2) = (String.length s1 + String.length s2)%nat.
Proof. induction s1 as [|c s1 IH]; simpl; [done|]. by rewrite IH. Qed.

Lemma show_dec_fuel_spec fuel z :
  0 ≤ z < 10 ^ Z.of_nat fuel → (0 < fuel)%nat →
  dec_value (show_dec_fuel fuel z) = z ∧ all_chars is_digit (show_dec_fuel fuel z) = true.
Proof.
  revert z. induction fuel as [|n IH]; intros z Hz Hf; [lia|]. cbn [show_dec_fuel].
  destruct (z <? 10) eqn:E.
  - apply Z.ltb_lt in E. unfold dec_value. simpl. rewrite byte_of_digit by lia.
    split; [lia|]. by rewrite is_digit_digit_char by lia.
  - apply Z.ltb_ge in E.
    assert (0 ≤ z mod 10 < 10) by (apply Z.mod_pos_bound; lia).
    rewrite Nat2Z.inj_succ, Z.pow_succ_r in Hz by lia.
    assert (0 ≤ z / 10 < 10 ^ Z.of_nat n) as Hq.
    { split; [apply Z.div_pos; lia|apply Z.div_lt_upper_bound; lia]. }
    destruct n as [|n]; [simpl in Hq; pose proof (Z.div_le_lower_bound z 10 1); lia|].
    destruct (IH (z / 10) Hq ltac:(lia)) as [Hv Hd]. unfold dec_value in *.
    rewrite dec_value_from_snoc, Hv, byte_of_digit by done. split.
    + pose proof (Z.div_mod z 10). lia.
    + rewrite all_chars_app, Hd. simpl. by rewrite is_digit_digit_char.
Qed.

Lemma show_dec_spec z :
  0 ≤ z → dec_value (show_dec z) = z ∧ all_chars is_digit (show_dec z) = true.
Proof.
  intros Hz. apply show_dec_fuel_spec; [|lia]. split; [done|].
  destruct (decide (z = 0)) as [->|]; [simpl; lia|].
  pose proof (Z.log2_spec z ltac:(lia)) as [_ Hl]. pose proof (Z.log2_nonneg z).
  eapply Z.lt_le_trans; [exact Hl|].
  rewrite Nat2Z.inj_succ, Z2Nat.id by lia. apply Z.pow_le_mono_l. lia.
Qed.

Lemma show_pad_spec n z :
  0 ≤ z < 10 ^ Z.of_nat n →
  dec_value (show_pad n z) = z ∧ all_chars is_digit (show_pad n z) = true ∧
  String.length (show_pad n z) = n.
Proof.
  revert z. induction n as [|n IH]; intros z Hz; cbn [show_pad]; [simpl in *; unfold dec_value; simpl; lia|].
  assert (0 ≤ z mod 10 < 10) by (apply Z.mod_pos_bound; lia).
  rewrite Nat2Z.inj_succ, Z.pow_succ_r in Hz by lia.
  destruct (IH (z / 10)) as (Hv & Hd & Hl).
  { split; [apply Z.div_pos; lia|apply Z.div_lt_upper_bound; lia]. }
  unfold dec_value in *. rewrite dec_value_from_snoc, Hv, byte_of_digit by done.
  rewrite all_chars_app, Hd, string_length_app, Hl. simpl. rewrite is_digit_digit_char by done.
  pose proof (Z.div_mod z 10). split_and!; [lia|done|lia].
Qed.

Lemma show_dec_nonempty z : show_dec z ≠ "".
Proof.
  unfold show_dec. cbn [show_dec_fuel]. destruct (z <? 10); [done|].
  by destruct (show_dec_fuel _ _).
Qed.

Lemma digits_no_minus w s : all_chars is_digit w = true → w ≠ "" → strip_prefix "-" (w +:+ s) = None.
Proof.
  destruct w as [|c w]; [done|]. intros [Hc _]%andb_true_iff _.
  by destruct c as [[] [] [] [] [] [] [] []].
Qed.

(** ** Trimming *)

Lemma string_app_assoc s1 s2 s3 : s1 +:+ (s2 +:+ s3) = (s1 +:+ s2) +:+ s3.
Proof. induction s1 as [|c s1 IH]; [done|]. exact (f_equal (String c) IH). Qed.

Lemma string_app_nil_r s : s +:+ "" = s.
Proof. induction s as [|c s IH]; [done|]. exact (f_equal (String c) IH). Qed.

Lemma rev_app_spec s t : String.rev_app s t = String.rev s +:+ t.
Proof.
  unfold String.rev. revert t. induction s as [|c s IH]; intros t; simpl; [done|].
  rewrite (IH (String c t)), (IH (String c "")), <- string_app_assoc. done.
Qed.

Lemma rev_snoc s c : String.rev (s +:+ String c "") = String c (String.rev s).
Proof.
  assert (∀ t, String.rev_app (s +:+ String c "") t = String c (String.rev_app s t)) as H; [|apply H].
  induction s as [|d s IH]; intros t; simpl; [done|]. apply IH.
Qed.

Lemma rev_involutive_string s : String.rev (String.rev s) = s.
Proof.
  induction s as [|c s IH]; [done|]. unfold String.rev at 2. cbn [String.rev_app].
  rewrite rev_app_spec, rev_snoc, IH. done.
Qed.

Lemma trim_left_none ps s : strip_any ps s = None → trim_left ps s = s.
Proof. intros H. unfold trim_left. destruct (String.length s); [done|]. simpl. by rewrite H. Qed.

(** A visible ASCII character. *)
Definition solid (c : char) : bool := (33 <=? byte_of c) && (byte_of c <=? 126).
Lemma digit_solid c : is_digit c = true → solid c = true.
Proof. unfold is_digit, solid. rewrite !andb_true_iff, !Z.leb_le. lia. Qed.
(** No space starts with a visible character, forwards or backwards. *)
Lemma strip_any_solid ps c s :
  forallb (λ p, match p with String a _ => negb (solid a) | EmptyString => false end) ps = true →
  solid c = true → strip_any ps (String c s) = None.
Proof.
  intros Hps Hc. induction ps as [|[|a p] ps IH]; [done|done|]. simpl in *.
  apply andb_true_iff in Hps as [Ha Hps]. destruct (Ascii.eqb a c) eqn:E; [|by apply IH].
  apply Ascii.eqb_eq in E as ->. by rewrite Hc in Ha.
Qed.
(** A text that starts and ends with visible characters has nothing to trim. *)
Lemma TrimSpace_solid c s d m :
  solid c = true → solid d = true → String c s = m +:+ String d "" → TrimSpace (String c s) = String c s.
Proof.
  intros Hc Hd Hs. unfold TrimSpace, trim_right.
  rewrite (trim_left_none unicode_spaces) by (by apply strip_any_solid).
  rewrite Hs, rev_snoc, trim_left_none by (by apply strip_any_solid).
  by rewrite <- rev_snoc, rev_involutive_string.
Qed.
Lemma string_snoc c s : ∃ m d, String c s = m +:+ String d "".
Proof.
  revert c. induction s as [|c' s IH]; intros c; [by exists "", c|].
  destruct (IH c') as (m & d & ->). by exists (String c m), d.
Qed.
Lemma TrimSpace_all_solid s : all_chars solid s = true → TrimSpace s = s.
Proof.
  destruct s as [|c s]; [done|]. destruct (string_snoc c s) as (m & d & E). intros H.
  eapply TrimSpace_solid; [| |exact E].
  - by apply andb_true_iff in H as [? _].
  - rewrite E, all_chars_app in H. apply andb_true_iff in H as [_ H]. simpl in H. by rewrite andb_true_r in H.
Qed.

(** ** Sorting by a string key, as [sort.Slice] with [<] on the key *)

Lemma Ascii_compare_lt_trans a b c :
  Ascii.compare a b = Lt → Ascii.compare b c = Lt → Ascii.compare a c = Lt.
Proof. unfold Ascii.compare. rewrite !N.compare_lt_iff. lia. Qed.

Lemma Ascii_compare_refl a : Ascii.compare a a = Eq.
Proof. unfold Ascii.compare. apply N.compare_refl. Qed.

Lemma string_compare_refl s : String.compare s s = Eq.
Proof. induction s as [|c s IH]; simpl; [done|]. by rewrite Ascii_compare_refl. Qed.

Lemma string_compare_lt_trans s1 s2 s3 :
  String.compare s1 s2 = Lt → String.compare s2 s3 = Lt → String.compare s1 s3 = Lt.
Proof.
  revert s2 s3; induction s1 as [|a s1 IH]; intros [|b s2] [|c s3]; simpl; try done.
  destruct (Ascii.compare a b) eqn:E1, (Ascii.compare b c) eqn:E2; try done;
    intros H1 H2.
  - apply Ascii.compare_eq_iff in E1 as ->. rewrite E2. eauto.
  - apply Ascii.compare_eq_iff in E1 as ->. by rewrite E2.
  - apply Ascii.compare_eq_iff in E2 as ->. by rewrite E1.
  - by rewrite (Ascii_compare_lt_trans _ _ _ E1 E2).
Qed.

Definition str_le (s1 s2 : string) : Prop := String.leb s1 s2 = true.
#[export] Instance str_le_dec s1 s2 : Decision (str_le s1 s2).
Proof. unfold str_le. apply _. Defined.

#[export] Instance str_le_total : Total str_le.
Proof. intros s1 s2. unfold str_le. apply String.leb_total. Qed.
#[export] Instance str_le_antisym : AntiSymm (=) str_le.
Proof. intros s1 s2. apply String.leb_antisym. Qed.
#[export] Instance str_le_trans : Transitive str_le.
Proof.
  intros s1 s2 s3. unfold str_le, String.leb.
  destruct (String.compare s1 s2) eqn:E1; try done;
    destruct (String.compare s2 s3) eqn:E2; try done; intros _ _.
  - apply String.compare_eq_iff in E1, E2. subst. by rewrite string_compare_refl.
  - apply String.compare_eq_iff in E1. subst. by rewrite E2.
  - apply String.compare_eq_iff in E2. subst. by rewrite E1.
  - by rewrite (string_compare_lt_trans _ _ _ E1 E2).
Qed.

Section sort_by.
Context {A : Type} (key : A → string).

Definition key_le (a b : A) : Prop := str_le (key a) (key b).
#[export] Instance key_le_dec a b : Decision (key_le a b).
Proof. unfold key_le. apply _. Defined.
#[local] Instance key_le_total : Total key_le.
Proof. intros a b. apply (total str_le). Qed.
#[local] Instance key_le_trans : Transitive key_le.
Proof. intros a b c. apply (transitivity (R := str_le)). Qed.

(** [sort.Slice(l, key(l[i]) < key(l[j]))]. Go's sort is not stable; on
    distinct keys every sorted permutation is this list ([sort_by_unique]). *)
Definition sort_by (l : list A) : list A := merge_sort key_le l.

Lemma sort_by_perm l : sort_by l ≡ₚ l.
Proof. apply merge_sort_Permutation. Qed.

Lemma sort_by_sorted l : StronglySorted key_le (sort_by l).
Proof. apply (StronglySorted_merge_sort _). Qed.

Lemma key_inj_perm l l' :
  NoDup (key <$> l) → l ≡ₚ l' → ∀ x y, x ∈ l → y ∈ l' → key x = key y → x = y.
Proof.
  intros Hnd Hp x y Hx Hy Hk. rewrite <- Hp in Hy.
  apply list_elem_of_lookup in Hx as [i Hi], Hy as [j Hj].
  assert (i = j) as <-; [|congruence].
  apply (NoDup_lookup (key <$> l) i j (key x)); [done| |];
    rewrite list_lookup_fmap; [by rewrite Hi|by rewrite Hj, Hk].
Qed.

Lemma sort_by_unique l l' :
  NoDup (key <$> l) → l' ≡ₚ l → StronglySorted key_le l' → l' = sort_by l.
Proof.
  intros Hnd Hp Hs.
  eapply (StronglySorted_unique_strong key_le); [|done|apply sort_by_sorted|].
  - intros x y Hx Hy Hxy Hyx.
    eapply (key_inj_perm l l); [done|done|by rewrite <- Hp|by rewrite <- (sort_by_perm l)|].
    by apply (anti_symm str_le).
  - by rewrite sort_by_perm.
Qed.
End sort_by.

(** ORDER BY an instant, ascending or descending; the order of equal instants is
    not specified by the statements. *)
Definition at_le {A} (at_ : A → Z) (a b : A) : Prop := at_ a ≤ at_ b.
#[export] Instance at_le_dec {A} (at_ : A → Z) a b : Decision (at_le at_ a b).
Proof. unfold at_le. apply _. Defined.
Definition oldest_first {A} (at_ : A → Z) (l : list A) : list A := merge_sort (at_le at_) l.
Definition newest_first {A} (at_ : A → Z) (l : list A) : list A :=
  merge_sort (at_le (λ r, - at_ r)) l.

(** ** Tables

    [carried R m m']: every row of [m] is in [m'], in a form that [R] allows. *)
Section carried.
Context `{Countable K} {A : Type} (R : relation A).
Implicit Types (m : gmap K A).

Definition carried m m' : Prop := ∀ k a, m !! k = Some a → ∃ a', m' !! k = Some a' ∧ R a a'.

Lemma carried_refl `{!Reflexive R} m : carried m m.
Proof. intros k a Ha. by exists a. Qed.
Lemma carried_trans `{!Transitive R} m1 m2 m3 : carried m1 m2 → carried m2 m3 → carried m1 m3.
Proof. intros H1 H2 k a (a' & (a'' & ? & ?)%H2 & ?)%H1. exists a''. split; [done|by transitivity a']. Qed.
#[export] Instance carried_pre `{!PreOrder R} : PreOrder carried.
Proof. split; [intros m; apply carried_refl|intros m1 m2 m3; apply carried_trans]. Qed.
Lemma carried_insert `{!Reflexive R} m k a : (∀ a0, m !! k = Some a0 → R a0 a) → carried m (<[k := a]> m).
Proof.
  intros Hk k' a' Ha. destruct (decide (k' = k)) as [->|].
  - exists a. rewrite lookup_insert_eq. auto.
  - exists a'. by rewrite lookup_insert_ne.
Qed.
Lemma carried_alter `{!Reflexive R} m k f : (∀ a, m !! k = Some a → R a (f a)) → carried m (alter f k m).
Proof.
  intros Hf k' a Ha. destruct (decide (k' = k)) as [->|].
  - exists (f a). rewrite lookup_alter_eq, Ha. auto.
  - exists a. by rewrite lookup_alter_ne.
Qed.
Lemma carried_fmap m f : (∀ k a, m !! k = Some a → R a (f a)) → carried m (f <$> m).
Proof. intros Hf k a Ha. exists (f a). rewrite lookup_fmap, Ha. eauto. Qed.
End carried.

(** ** Lists *)

Lemma filter_none {A} (P : A → Prop) `{∀ x, Decision (P x)} (l : list A) :
  Forall (λ x, ¬ P x) l → filter P l = [].
Proof. induction 1; [done|]. by rewrite filter_cons_False. Qed.

(** ** Tactics *)

(** Splits the innermost [match] or [if] of the goal or of a hypothesis,
    keeping the equation. *)
Ltac case_goal :=
  match goal with
  | |- context [match ?x with _ => _ end] =>
      lazymatch x with context [match _ with _ => _ end] => fail | _ => destruct x eqn:? end
  end.
Ltac case_hyp H :=
  match type of H with
  | context [match ?x with _ => _ end] =>
      lazymatch x with context [match _ with _ => _ end] => fail | _ => destruct x eqn:? end
  end.
(** Explores every branch of the definition that [H] evaluates. *)
Ltac branches H := repeat (case_hyp H; simplify_eq/=; try done); simplify_eq/=; try done.

(** Turns boolean tests on integers into propositions for [lia]. *)
Ltac bool_to_prop :=
  repeat match goal with
  | H : (_ && _)%bool = true |- _ => apply andb_true_iff in H as [? ?]
  | H : (_ || _)%bool = false |- _ => apply orb_false_iff in H as [? ?]
  | H : negb _ = true |- _ => apply negb_true_iff in H
  | H : negb _ = false |- _ => apply negb_false_iff in H
  | H : (_ <? _) = true |- _ => apply Z.ltb_lt in H
  | H : (_ <? _) = false |- _ => apply Z.ltb_ge in H
  | H : (_ <=? _) = true |- _ => apply Z.leb_le in H
  | H : (_ <=? _) = false |- _ => apply Z.leb_gt in H
  | H : (_ =? _) = true |- _ => apply Z.eqb_eq in H
  | H : (_ =? _) = false |- _ => apply Z.eqb_neq in H
  | H : String.eqb _ _ = true |- _ => apply String.eqb_eq in H
  | H : String.eqb _ _ = false |- _ => apply String.eqb_neq in H
  end.
