(* ===== verification/Classification.v ===== *)
(** * The clearance ladder

    [internal/sign/classification.go] (labels, ranks, coverage), the clearance
    check of [internal/auth/auth.go] and the label list the API derives from a
    principal's clearance ([internal/api/server.go]).  A label is a Go string
    type, so unknown labels are values of it too. *)
From S2P Require Import Prelude.

Definition ClassificationPublic : string := "PUBLIC".
Definition ClassificationInternal : string := "INTERNAL".
Definition ClassificationRestricted : string := "RESTRICTED".
Definition ClassificationConfidential : string := "CONFIDENTIAL".
Definition ClassificationSecret : string := "SECRET".

(** The ladder, least sensitive first. *)
Definition ladder : list string :=
  [ClassificationPublic; ClassificationInternal; ClassificationRestricted;
   ClassificationConfidential; ClassificationSecret].

Inductive class_error := ErrInvalidClassification.

Definition ParseClassification (raw : string) : result class_error string :=
  let label := TrimSpace raw in
  if bool_decide (label ∈ ladder) then Ok label else Err ErrInvalidClassification.

Definition Rank (label : string) : Z :=
  if String.eqb label ClassificationPublic then 0
  else if String.eqb label ClassificationInternal then 1
  else if String.eqb label ClassificationRestricted then 2
  else if String.eqb label ClassificationConfidential then 3
  else 4.

Definition Covers (label event : string) : bool :=
  match ParseClassification label with
  | Err _ => false
  | Ok _ =>
      match ParseClassification event with
      | Err _ => false
      | Ok _ => Rank event <=? Rank label
      end
  end.

Definition MaxClassification (a b : string) : string :=
  if Rank b <=? Rank a then a else b.

(** [MustClassification] panics ([None]) on a label outside the ladder. *)
Definition MustClassification (value : string) : option string :=
  match ParseClassification value with Err _ => None | Ok _ => Some value end.

(** The labels a clearance may read ([api/server.go], and the same loop in
    [mrv/server.go]); a candidate is a ladder constant, so the panic branch of
    [MustClassification] selects nothing. *)
Definition clearedLabels (clearance : string) : list string :=
  match ParseClassification clearance with
  | Err _ => []
  | Ok label =>
      List.filter (λ candidate,
        match MustClassification candidate with
        | Some c => Covers label c
        | None => false
        end) ladder
  end.

(** [auth.validatedClearance]: absent means PUBLIC, unknown is an error. *)
Definition validatedClearance (value : string) : result class_error string :=
  let clearance := TrimSpace value in
  if String.eqb clearance "" then Ok ClassificationPublic
  else if bool_decide (clearance ∈ ladder) then Ok clearance
  else Err ErrInvalidClassification.

(** ** Lemmas *)

Lemma ladder_cases (P : string → Prop) :
  P ClassificationPublic → P ClassificationInternal → P ClassificationRestricted →
  P ClassificationConfidential → P ClassificationSecret → ∀ l, l ∈ ladder → P l.
Proof. intros ????? l Hl. unfold ladder in Hl. apply list_elem_of_In in Hl. simpl in Hl. naive_solver. Qed.

Lemma ladder_trim l : l ∈ ladder → TrimSpace l = l.
Proof. revert l. by apply ladder_cases. Qed.

Lemma ParseClassification_ladder l : l ∈ ladder → ParseClassification l = Ok l.
Proof.
  intros Hl. unfold ParseClassification. rewrite ladder_trim by done.
  by rewrite bool_decide_eq_true_2.
Qed.

Lemma ParseClassification_Ok raw l :
  ParseClassification raw = Ok l → l ∈ ladder ∧ l = TrimSpace raw.
Proof. unfold ParseClassification. case_bool_decide; naive_solver. Qed.

Lemma Covers_ladder a b : a ∈ ladder → b ∈ ladder → Covers a b = (Rank b <=? Rank a).
Proof.
  intros Ha Hb. unfold Covers. by rewrite !ParseClassification_ladder.
Qed.

Lemma Rank_inj a b : a ∈ ladder → b ∈ ladder → Rank a = Rank b → a = b.
Proof.
  intros Ha Hb. revert a Ha b Hb.
  apply (ladder_cases (λ a, ∀ b, b ∈ ladder → Rank a = Rank b → a = b));
    apply (ladder_cases (λ b, Rank _ = Rank b → _ = b)); done.
Qed.

Lemma validatedClearance_ladder v c : validatedClearance v = Ok c → c ∈ ladder.
Proof.
  unfold validatedClearance. case_match; [|case_bool_decide; naive_solver].
  intros [= <-]. apply list_elem_of_In. by left.
Qed.

Lemma elem_of_clearedLabels c x :
  x ∈ clearedLabels c ↔
  ∃ l, ParseClassification c = Ok l ∧ x ∈ ladder ∧ Rank x ≤ Rank l.
Proof.
  unfold clearedLabels. destruct (ParseClassification c) as [l|] eqn:Hc; [|set_solver].
  apply ParseClassification_Ok in Hc as [Hl _].
  rewrite list_elem_of_In, filter_In, <- list_elem_of_In. unfold MustClassification.
  split.
  - intros [Hx Hm]. rewrite ParseClassification_ladder in Hm by done.
    rewrite Covers_ladder in Hm by done. exists l. split_and!; [done|done|lia].
  - intros (l' & [= <-] & Hx & Hr). split; [done|].
    rewrite ParseClassification_ladder, Covers_ladder by done. lia.
Qed.

(** ** Properties *)

(** The labels a reader may see are decided by the ladder alone: for the
    clearance that authentication admits, a row label is in the list the API
    queries with exactly when it is a ladder label of rank at most the
    clearance's, PUBLIC is always among them, and a higher clearance never sees
    less. *)
Theorem clearance_reads_down (value clearance : string)
  (Hv : validatedClearance value = Ok clearance) :
  (∀ x, x ∈ clearedLabels clearance ↔ x ∈ ladder ∧ Rank x ≤ Rank clearance) ∧
  ClassificationPublic ∈ clearedLabels clearance ∧
  (∀ higher, higher ∈ ladder → Rank clearance ≤ Rank higher →
     ∀ x, x ∈ clearedLabels clearance → x ∈ clearedLabels higher).
Proof.
  apply validatedClearance_ladder in Hv.
  assert (∀ c, c ∈ ladder → ∀ x, x ∈ clearedLabels c ↔ x ∈ ladder ∧ Rank x ≤ Rank c) as Hc.
  { intros c Hl x. rewrite elem_of_clearedLabels, ParseClassification_ladder by done.
    naive_solver. }
  split_and!.
  - by apply Hc.
  - apply Hc; [done|]. split; [apply list_elem_of_In; by left|].
    revert clearance Hv. by apply ladder_cases.
  - intros higher Hh Hr x. rewrite !Hc by done. intros [??]. split; [done|lia].
Qed.

Lemma clearance_reads_down_witness :
  validatedClearance " RESTRICTED " = Ok ClassificationRestricted ∧
  clearedLabels ClassificationRestricted =
    [ClassificationPublic; ClassificationInternal; ClassificationRestricted] ∧
  ClassificationPublic ∈ clearedLabels ClassificationRestricted.
Proof.
  assert (H : validatedClearance " RESTRICTED " = Ok ClassificationRestricted) by (vm_compute; reflexivity).
  split; [exact H|]. split; [vm_compute; reflexivity|].
  exact (proj1 (proj2 (clearance_reads_down _ _ H))).
Defined.

(** Coverage on ladder labels is a total order (reflexive, transitive,
    antisymmetric, any two labels comparable), the more sensitive of two labels
    covers both, and a label outside the ladder neither covers nor is covered. *)
Theorem Covers_total_order :
  (∀ a, a ∈ ladder → Covers a a = true) ∧
  (∀ a b c, Covers a b = true → Covers b c = true →
     a ∈ ladder → b ∈ ladder → c ∈ ladder → Covers a c = true) ∧
  (∀ a b, a ∈ ladder → b ∈ ladder → Covers a b = true → Covers b a = true → a = b) ∧
  (∀ a b, a ∈ ladder → b ∈ ladder → Covers (MaxClassification a b) a = true ∧
                                    Covers (MaxClassification a b) b = true) ∧
  (∀ a b, TrimSpace a ∉ ladder → Covers a b = false ∧ Covers b a = false).
Proof.
  split_and!.
  - intros a Ha. rewrite Covers_ladder by done. lia.
  - intros a b c H1 H2 Ha Hb Hc. rewrite Covers_ladder in * by done. lia.
  - intros a b Ha Hb H1 H2. rewrite Covers_ladder in * by done. apply Rank_inj; [done..|lia].
  - intros a b Ha Hb. unfold MaxClassification.
    case_match eqn:E; rewrite !Covers_ladder by done; lia.
  - intros a b Ha.
    assert (ParseClassification a = Err ErrInvalidClassification) as Hp.
    { unfold ParseClassification. by rewrite bool_decide_eq_false_2. }
    unfold Covers. rewrite Hp. by destruct (ParseClassification b).
Qed.

(** A label that is valid only after trimming keeps its raw spelling in
    the rank comparison, where it is unknown and ranks as SECRET: a padded
    PUBLIC clearance covers SECRET material. *)
Theorem Covers_padded_escalates :
  ParseClassification " PUBLIC" = Ok ClassificationPublic ∧
  Covers ClassificationPublic ClassificationSecret = false ∧
  Covers " PUBLIC" ClassificationSecret = true.
Proof. vm_compute. done. Qed.
