(* ===== verification/Fence.v ===== *)
(** * The geofence transition engine

    [internal/fence/engine.go] and [internal/fence/zone_category.go]: ring
    validation, the integer point-in-polygon test, the per-(vessel, fence)
    membership memory and the ENTER/EXIT/DWELL transitions, the zone
    categories and the alert rule. *)
From S2P Require Import Prelude.

(** ** Geometry *)
Module Geometry.

Record Point := mkPoint { LatMicros : Z; LonMicros : Z }.
#[export] Instance Point_eq_dec : EqDecision Point.
Proof. solve_decision. Defined.

Inductive geometry_error :=
| TooFewVertices (n : nat)
| LatitudeOutOfRange (i : nat) (lat : Z)
| LongitudeOutOfRange (i : nat) (lon : Z)
| RingNotClosed.

(** The coordinate loop of [ValidateGeometry]: the first bad vertex. *)
Fixpoint check_vertices (i : nat) (vs : list Point) : result geometry_error unit :=
  match vs with
  | [] => Ok tt
  | v :: vs' =>
      if (LatMicros v <? -90000000) || (90000000 <? LatMicros v)
      then Err (LatitudeOutOfRange i (LatMicros v))
      else if (LonMicros v <? -180000000) || (180000000 <? LonMicros v)
      then Err (LongitudeOutOfRange i (LonMicros v))
      else check_vertices (S i) vs'
  end.

Definition ValidateGeometry (vertices : list Point) : result geometry_error unit :=
  if (length vertices <? 4)%nat then Err (TooFewVertices (length vertices))
  else match check_vertices 0 vertices with
       | Err e => Err e
       | Ok _ => if bool_decide (head vertices = last vertices) then Ok tt
                 else Err RingNotClosed
       end.

Definition min32 (a b : Z) : Z := if a <? b then a else b.
Definition max32 (a b : Z) : Z := if b <? a then a else b.

(** int32 subtraction and int64 multiplication, as the source evaluates them. *)
Definition sub32 (a b : Z) : Z := int32 (a - b).

Definition onSegment (a b p : Point) : bool :=
  let cross := int64 (int64 (sub32 (LonMicros b) (LonMicros a) * sub32 (LatMicros p) (LatMicros a))
                    - int64 (sub32 (LatMicros b) (LatMicros a) * sub32 (LonMicros p) (LonMicros a))) in
  if negb (cross =? 0) then false
  else (min32 (LonMicros a) (LonMicros b) <=? LonMicros p) && (LonMicros p <=? max32 (LonMicros a) (LonMicros b))
    && (min32 (LatMicros a) (LatMicros b) <=? LatMicros p) && (LatMicros p <=? max32 (LatMicros a) (LatMicros b)).

(** The body of the ray cast for one edge: whether the edge flips [inside]. *)
Definition edge_flips (vi vj p : Point) : bool :=
  if xorb (LatMicros p <? LatMicros vi) (LatMicros p <? LatMicros vj) then
    let num := int64 (sub32 (LatMicros p) (LatMicros vi) * sub32 (LonMicros vj) (LonMicros vi)) in
    let den := sub32 (LatMicros vj) (LatMicros vi) in
    let x := if 0 <? den
             then int64 (LonMicros vi + Z.quot (int64 (num + Z.quot den 2)) den)
             else int64 (LonMicros vi + Z.quot (int64 (num - Z.quot den 2)) den) in
    LonMicros p <? x
  else false.

(** The loop [for i, j := 0, n-1; i < n; j, i = i, i+1], with [vj] the vertex
    before [vs]. *)
Fixpoint contains_loop (vj : Point) (vs : list Point) (p : Point) (inside : bool) : bool :=
  match vs with
  | [] => inside
  | vi :: vs' =>
      if onSegment vj vi p then true
      else contains_loop vi vs' p (if edge_flips vi vj p then negb inside else inside)
  end.

Definition Contains (vertices : list Point) (p : Point) : bool :=
  if (length vertices <? 4)%nat then false
  else match last vertices with
       | Some vl => contains_loop vl vertices p false
       | None => false
       end.

(** ** The exact point-in-polygon test, over the integers *)

Definition cross_Z (a b p : Point) : Z :=
  (LonMicros b - LonMicros a) * (LatMicros p - LatMicros a)
  - (LatMicros b - LatMicros a) * (LonMicros p - LonMicros a).

(** [p] lies on the closed segment from [a] to [b]. *)
Definition on_edge (a b p : Point) : Prop :=
  cross_Z a b p = 0 ∧
  Z.min (LonMicros a) (LonMicros b) ≤ LonMicros p ≤ Z.max (LonMicros a) (LonMicros b) ∧
  Z.min (LatMicros a) (LatMicros b) ≤ LatMicros p ≤ Z.max (LatMicros a) (LatMicros b).
#[export] Instance on_edge_dec a b p : Decision (on_edge a b p).
Proof. unfold on_edge. apply _. Defined.

(** The edge straddles the latitude of [p]. *)
Definition straddles (vi vj p : Point) : Prop :=
  (LatMicros p < LatMicros vi ↔ LatMicros vj ≤ LatMicros p).
#[export] Instance straddles_dec vi vj p : Decision (straddles vi vj p).
Proof. unfold straddles. apply _. Defined.

(** The edge crosses the ray that leaves [p] towards larger longitudes: it
    straddles the latitude and meets it strictly beyond [p].  The meeting point
    is [cross_Z vi vj p / (LatMicros vj - LatMicros vi)] beyond [p]; the sign of
    that quotient is the sign of the product. *)
Definition crosses_ray (vi vj p : Point) : Prop :=
  straddles vi vj p ∧ 0 < cross_Z vi vj p * (LatMicros vj - LatMicros vi).
#[export] Instance crosses_ray_dec vi vj p : Decision (crosses_ray vi vj p).
Proof. unfold crosses_ray. apply _. Defined.

(** Even-odd rule on exact crossings; the boundary counts as inside. *)
Fixpoint inside_exact_loop (vj : Point) (vs : list Point) (p : Point) (inside : bool) : bool :=
  match vs with
  | [] => inside
  | vi :: vs' =>
      if decide (on_edge vj vi p) then true
      else inside_exact_loop vi vs' p (if decide (crosses_ray vi vj p) then negb inside else inside)
  end.
Definition inside_exact (vertices : list Point) (p : Point) : bool :=
  if (length vertices <? 4)%nat then false
  else match last vertices with
       | Some vl => inside_exact_loop vl vertices p false
       | None => false
       end.

(** The horizontal distance from [p] to a straddling edge is at least 3/2
    micro-degree (times the latitude extent, to stay in the integers). *)
Definition clear_of_edge (vi vj p : Point) : Prop :=
  straddles vi vj p → 3 * Z.abs (LatMicros vj - LatMicros vi) ≤ 2 * Z.abs (cross_Z vi vj p).
#[export] Instance clear_of_edge_dec vi vj p : Decision (clear_of_edge vi vj p).
Proof. unfold clear_of_edge. apply _. Defined.

Fixpoint clear_of_ring (vj : Point) (vs : list Point) (p : Point) : Prop :=
  match vs with
  | [] => True
  | vi :: vs' => clear_of_edge vi vj p ∧ clear_of_ring vi vs' p
  end.
#[export] Instance clear_of_ring_dec vj vs p : Decision (clear_of_ring vj vs p).
Proof. revert vj; induction vs as [|vi vs IH]; intros vj; simpl; apply _. Defined.

(** A position inside the physical bounds. *)
Definition valid_point (p : Point) : Prop :=
  - 90000000 ≤ LatMicros p ≤ 90000000 ∧ - 180000000 ≤ LonMicros p ≤ 180000000.
#[export] Instance valid_point_dec p : Decision (valid_point p).
Proof. unfold valid_point. apply _. Defined.

Lemma check_vertices_Ok i vs u : check_vertices i vs = Ok u ↔ Forall valid_point vs.
Proof.
  destruct u. revert i. induction vs as [|v vs IH]; intros i; simpl.
  { split; [constructor|done]. }
  rewrite Forall_cons. unfold valid_point.
  destruct (LatMicros v <? -90000000) eqn:?, (90000000 <? LatMicros v) eqn:?; simpl;
    destruct (LonMicros v <? -180000000) eqn:?, (180000000 <? LonMicros v) eqn:?; simpl;
    bool_to_prop; try (split; [done|lia]).
  rewrite IH. split; [intros; split; [lia|done]|naive_solver].
Qed.

Lemma ValidateGeometry_Ok vs u :
  ValidateGeometry vs = Ok u ↔
  (4 ≤ length vs)%nat ∧ Forall valid_point vs ∧ head vs = last vs.
Proof.
  destruct u. unfold ValidateGeometry.
  destruct (Nat.ltb_spec (length vs) 4); [split; [done|lia]|].
  destruct (check_vertices 0 vs) as [u|e] eqn:Hc.
  - apply check_vertices_Ok in Hc. case_bool_decide; naive_solver.
  - split; [done|]. intros (_ & Hv & _). apply (check_vertices_Ok 0 vs tt) in Hv. congruence.
Qed.

(** *** No machine arithmetic in [Contains] overflows on valid points *)

Lemma sub32_lat a b : valid_point a → valid_point b →
  sub32 (LatMicros a) (LatMicros b) = LatMicros a - LatMicros b.
Proof. unfold valid_point, sub32. intros. apply int32_id. unfold is_int32. lia. Qed.
Lemma sub32_lon a b : valid_point a → valid_point b →
  sub32 (LonMicros a) (LonMicros b) = LonMicros a - LonMicros b.
Proof. unfold valid_point, sub32. intros. apply int32_id. unfold is_int32. lia. Qed.

(** The product of a latitude and a longitude difference fits in 57 bits. *)
Lemma product_bound a b c d :
  valid_point a → valid_point b → valid_point c → valid_point d →
  - 2 ^ 57 ≤ (LatMicros a - LatMicros b) * (LonMicros c - LonMicros d) ≤ 2 ^ 57.
Proof.
  unfold valid_point. intros.
  set (x := LatMicros a - LatMicros b). set (y := LonMicros c - LonMicros d).
  assert (-180000000 ≤ x ≤ 180000000) by lia.
  assert (-360000000 ≤ y ≤ 360000000) by lia.
  assert (2 ^ 57 = 144115188075855872) as -> by reflexivity. nia.
Qed.

Lemma onSegment_exact a b p : valid_point a → valid_point b → valid_point p →
  onSegment a b p = bool_decide (on_edge a b p).
Proof.
  intros Ha Hb Hp. unfold onSegment.
  rewrite !sub32_lat, !sub32_lon by done.
  pose proof (product_bound p a b a Hp Ha Hb Ha).
  pose proof (product_bound b a p a Hb Ha Hp Ha).
  rewrite !int64_id by (unfold is_int64; rewrite ?int64_id; unfold is_int64; lia).
  unfold on_edge, cross_Z, min32, max32.
  repeat case_bool_decide; repeat case_match; bool_to_prop; try done; try lia.
Qed.

Lemma straddles_xorb vi vj p :
  xorb (LatMicros p <? LatMicros vi) (LatMicros p <? LatMicros vj) =
  bool_decide (straddles vi vj p).
Proof.
  unfold straddles. case_bool_decide;
    destruct (LatMicros p <? LatMicros vi) eqn:?, (LatMicros p <? LatMicros vj) eqn:?;
    bool_to_prop; simpl; try done; lia.
Qed.

(** The rounded division of the source is within 3/2 of the exact quotient. *)
Lemma rounded_quot_bound num den q :
  den ≠ 0 →
  q = (if 0 <? den then Z.quot (num + Z.quot den 2) den else Z.quot (num - Z.quot den 2) den) →
  2 * Z.abs (q * den - num) < 3 * Z.abs den.
Proof.
  intros Hden ->. destruct (0 <? den) eqn:E; bool_to_prop.
  - pose proof (Z.quot_rem' (num + Z.quot den 2) den) as Hq.
    pose proof (Z.rem_bound_abs (num + Z.quot den 2) den Hden).
    pose proof (Z.quot_rem' den 2). pose proof (Z.rem_bound_abs den 2 ltac:(lia)). lia.
  - pose proof (Z.quot_rem' (num - Z.quot den 2) den) as Hq.
    pose proof (Z.rem_bound_abs (num - Z.quot den 2) den Hden).
    pose proof (Z.quot_rem' den 2). pose proof (Z.rem_bound_abs den 2 ltac:(lia)). lia.
Qed.

Lemma edge_flips_exact vi vj p :
  valid_point vi → valid_point vj → valid_point p → clear_of_edge vi vj p →
  edge_flips vi vj p = bool_decide (crosses_ray vi vj p).
Proof.
  intros Hi Hj Hp Hclear. unfold edge_flips. rewrite straddles_xorb.
  case_bool_decide as Hs.
  2:{ rewrite bool_decide_eq_false_2; [done|]. unfold crosses_ray. tauto. }
  specialize (Hclear Hs).
  rewrite !sub32_lat, !sub32_lon by done.
  pose proof (product_bound p vi vj vi Hp Hi Hj Hi) as Hnum.
  set (num := (LatMicros p - LatMicros vi) * (LonMicros vj - LonMicros vi)) in *.
  set (den := LatMicros vj - LatMicros vi) in *.
  assert (Hden : den ≠ 0) by (unfold straddles in Hs; lia).
  assert (Hrange : - 180000000 ≤ den ≤ 180000000) by (unfold valid_point in *; lia).
  rewrite (int64_id num) by (unfold is_int64; lia).
  remember (if 0 <? den then Z.quot (num + Z.quot den 2) den
            else Z.quot (num - Z.quot den 2) den) as q eqn:Heq.
  pose proof (rounded_quot_bound num den q Hden Heq) as Hround.
  assert (Hq : - 2 ^ 58 ≤ q ≤ 2 ^ 58).
  { assert (Z.abs (q * den) ≤ 2 ^ 58) by lia. nia. }
  assert (Hx : (if 0 <? den then int64 (LonMicros vi + Z.quot (int64 (num + Z.quot den 2)) den)
                else int64 (LonMicros vi + Z.quot (int64 (num - Z.quot den 2)) den)) = LonMicros vi + q).
  { pose proof (Z.quot_rem' den 2). pose proof (Z.rem_bound_abs den 2 ltac:(lia)).
    destruct (0 <? den);
      [rewrite (int64_id (num + _))|rewrite (int64_id (num - _))]; try (unfold is_int64; lia);
      rewrite <- Heq, int64_id; unfold is_int64, valid_point in *; lia. }
  rewrite Hx. clear Hx.
  assert (Hc : cross_Z vi vj p = num - den * (LonMicros p - LonMicros vi)) by (unfold cross_Z; lia).
  clear Heq. clearbody num. unfold crosses_ray. fold den. rewrite Hc in *.
  set (d := LonMicros p - LonMicros vi) in *.
  assert ((LonMicros p <? LonMicros vi + q) = (d <? q)) as -> by lia.
  apply Bool.eq_iff_eq_true. rewrite bool_decide_eq_true, Z.ltb_lt.
  destruct (decide (0 < den)).
  - split; [intros; split; [done|nia]|]. intros [_ H]. nia.
  - split; [intros; split; [done|nia]|]. intros [_ H]. nia.
Qed.

Lemma contains_loop_exact vj vs p b :
  valid_point vj → Forall valid_point vs → valid_point p → clear_of_ring vj vs p →
  contains_loop vj vs p b = inside_exact_loop vj vs p b.
Proof.
  revert vj b. induction vs as [|vi vs IH]; intros vj b Hj Hvs Hp Hc; simpl; [done|].
  apply Forall_cons in Hvs as [Hi Hvs]. destruct Hc as [He Hc].
  rewrite onSegment_exact, edge_flips_exact by done.
  rewrite <- !decide_bool_decide. case_decide; [done|].
  rewrite IH by done. by case_decide.
Qed.
End Geometry.

(** ** Zone categories *)
Module Zone.
Inductive EventType := EventEnter | EventExit | EventDwell.
#[export] Instance EventType_eq_dec : EqDecision EventType.
Proof. solve_decision. Defined.

Definition CategoryGeneral : string := "general".
Definition CategoryMPA : string := "mpa".
Definition CategoryEEZRestricted : string := "eez_restricted".
Definition CategoryTrafficSeparation : string := "traffic_separation".
Definition CategoryFishingClosure : string := "fishing_closure".
Definition CategoryAnchorage : string := "anchorage".

Definition AdmittedZoneCategory (category : string) : bool :=
  bool_decide (category ∈ [CategoryGeneral; CategoryMPA; CategoryEEZRestricted;
                           CategoryTrafficSeparation; CategoryFishingClosure; CategoryAnchorage]).

(** [None] is Go's [("", false)]. *)
Definition NormalizeZoneCategory (category : string) : option string :=
  if String.eqb category "" then Some CategoryGeneral
  else if AdmittedZoneCategory category then Some category else None.

Definition protectedCategory (category : string) : bool :=
  bool_decide (category ∈ [CategoryMPA; CategoryEEZRestricted;
                           CategoryTrafficSeparation; CategoryFishingClosure]).

Definition ZoneAlert (category : string) (eventType : EventType) : string :=
  if protectedCategory category then
    match eventType with
    | EventEnter => "PROTECTED_ZONE_ENTRY"
    | EventExit => "PROTECTED_ZONE_EXIT"
    | EventDwell => ""
    end
  else "".
End Zone.

(** ** The transition engine *)
Module Engine.
Import Geometry Zone.

Record Fence := mkFence {
  GeofenceID : string;
  Version : Z;
  Vertices : list Point;
  DwellThresholdSeconds : Z;
  DwellSpeedGateMilliknots : Z;
}.

Record Event := mkEvent {
  ev_GeofenceID : string;
  ev_Version : Z;
  ev_Type : EventType;
  ev_OccurredAtUnix : Z;
}.

Record vesselFenceState := mkState {
  inside : bool;
  enteredAt : Z;
  dwellEmitted : bool;
  slowSince : Z;
}.
(** [&vesselFenceState{}]. *)
Definition zero_state : vesselFenceState := mkState false 0 false 0.

Record t := mkEngine {
  eng_state : gmap string (gmap string vesselFenceState);
  eng_last : gmap string Z;
}.
Definition NewEngine : t := mkEngine ∅ ∅.

(** The [switch]: ENTER and EXIT. *)
Definition membership_step (f : Fence) (now_inside : bool) (atUnix : Z) (st : vesselFenceState) :
  list Event * vesselFenceState :=
  if now_inside && negb (inside st) then
    ([mkEvent (GeofenceID f) (Version f) EventEnter atUnix], mkState true atUnix false 0)
  else if negb now_inside && inside st then
    ([mkEvent (GeofenceID f) (Version f) EventExit atUnix],
     mkState false (enteredAt st) (dwellEmitted st) 0)
  else ([], st).

(** The dwell clock that follows it. *)
Definition dwell_step (f : Fence) (now_inside : bool) (speed atUnix : Z) (st : vesselFenceState) :
  list Event * vesselFenceState :=
  if now_inside && (0 <? DwellThresholdSeconds f) && negb (dwellEmitted st)
     && (0 <=? speed) && (speed <=? DwellSpeedGateMilliknots f) then
    let slow := if slowSince st =? 0 then atUnix else slowSince st in
    if DwellThresholdSeconds f <=? atUnix - slow then
      ([mkEvent (GeofenceID f) (Version f) EventDwell atUnix],
       mkState (inside st) (enteredAt st) true slow)
    else ([], mkState (inside st) (enteredAt st) (dwellEmitted st) slow)
  else if now_inside && (DwellSpeedGateMilliknots f <? speed) && (0 <=? speed) then
    ([], mkState (inside st) (enteredAt st) (dwellEmitted st) 0)
  else ([], st).

(** One iteration of the loop over the fences. *)
Definition fence_step (f : Fence) (p : Point) (speed atUnix : Z) (st : vesselFenceState) :
  list Event * vesselFenceState :=
  let now_inside := Contains (Vertices f) p in
  let '(e1, st1) := membership_step f now_inside atUnix st in
  let '(e2, st2) := dwell_step f now_inside speed atUnix st1 in
  (e1 ++ e2, st2).

Fixpoint observe_fences (fs : list Fence) (p : Point) (speed atUnix : Z)
  (perVessel : gmap string vesselFenceState) : gmap string vesselFenceState * list Event :=
  match fs with
  | [] => (perVessel, [])
  | f :: fs' =>
      let '(evs, st') := fence_step f p speed atUnix (default zero_state (perVessel !! GeofenceID f)) in
      let '(m, rest) := observe_fences fs' p speed atUnix (<[GeofenceID f := st']> perVessel) in
      (m, evs ++ rest)
  end.

Definition Observe (engine : t) (vesselKey : string) (p : Point) (speed atUnix : Z)
  (fences : list Fence) : t * list Event :=
  let vesselKey := TrimSpace vesselKey in
  if String.eqb vesselKey "" || (atUnix <=? 0) then (engine, [])
  else if bool_decide (is_Some (eng_last engine !! vesselKey)) && (atUnix <? default 0 (eng_last engine !! vesselKey))
  then (engine, [])
  else
    let perVessel := default ∅ (eng_state engine !! vesselKey) in
    let '(perVessel', events) := observe_fences (sort_by GeofenceID fences) p speed atUnix perVessel in
    (mkEngine (<[vesselKey := perVessel']> (eng_state engine)) (<[vesselKey := atUnix]> (eng_last engine)), events).

(** A run: the observations in order, with the events each one returned. *)
Record obs := mkObs {
  o_key : string; o_point : Point; o_speed : Z; o_at : Z; o_fences : list Fence }.

Definition observe1 (engine : t) (o : obs) : t * list Event :=
  Observe engine (o_key o) (o_point o) (o_speed o) (o_at o) (o_fences o).

Fixpoint run (engine : t) (os : list obs) : t * list (obs * list Event) :=
  match os with
  | [] => (engine, [])
  | o :: os' =>
      let '(engine1, evs) := observe1 engine o in
      let '(engine2, log) := run engine1 os' in
      (engine2, (o, evs) :: log)
  end.
End Engine.
