(* ===== verification/FenceProps.v ===== *)
(** * Properties of the geofence engine

    The point-in-polygon test against the exact test, and the event streams of
    the engine against the stay automaton. *)
From S2P Require Import Prelude Fence.
Import Geometry Zone Engine.

(** ** Point in polygon *)

Lemma contains_loop_boundary vj vs p b i x y :
  valid_point vj → Forall valid_point vs → valid_point p →
  (vj :: vs) !! i = Some x → vs !! i = Some y → on_edge x y p →
  contains_loop vj vs p b = true.
Proof.
  revert vj b i. induction vs as [|vi vs IH]; intros vj b i Hj Hvs Hp Hx Hy He; [done|].
  apply Forall_cons in Hvs as [Hi Hvs]. simpl. rewrite onSegment_exact by done.
  case_bool_decide as Hn; [done|].
  destruct i as [|i]; simplify_eq/=; [done|]. by eapply IH.
Qed.

(** C35: For a validated ring and a position in the physical bounds, no machine
    integer of the ray cast overflows and its rounded division decides the same
    as the exact even-odd test, for every position at least 3/2 micro-degree
    (about 17 cm) away from each edge it is level with. *)
Theorem Contains_exact (vs : list Point) (p vl : Point)
  (Hring : ValidateGeometry vs = Ok tt) (Hp : valid_point p)
  (Hl : last vs = Some vl) (Hclear : clear_of_ring vl vs p) :
  Contains vs p = inside_exact vs p.
Proof.
  apply ValidateGeometry_Ok in Hring as (Hn & Hvs & _).
  unfold Contains, inside_exact. rewrite Hl.
  case_match; [done|]. apply contains_loop_exact; try done.
  apply last_Some in Hl as [l ->]. rewrite Forall_app in Hvs. destruct Hvs as [_ Hv].
  by inversion Hv.
Qed.

Definition unit_square : list Point :=
  [mkPoint 0 0; mkPoint 0 1000; mkPoint 1000 1000; mkPoint 1000 0; mkPoint 0 0].

Lemma Contains_exact_witness :
  Contains unit_square (mkPoint 500 400) = inside_exact unit_square (mkPoint 500 400) ∧
  inside_exact unit_square (mkPoint 500 400) = true.
Proof.
  split; [|vm_compute; reflexivity].
  apply (Contains_exact _ _ (mkPoint 0 0)).
  - vm_compute. reflexivity.
  - unfold valid_point. simpl. lia.
  - reflexivity.
  - apply (bool_decide_unpack _). vm_compute. exact I.
Defined.

(** Every position on an edge of a validated ring is inside it: the boundary
    test never misses, whatever the other edges do to the parity. *)
Theorem Contains_boundary (vs : list Point) (p a b : Point) (i : nat)
  (Hring : ValidateGeometry vs = Ok tt) (Hp : valid_point p)
  (Ha : vs !! i = Some a) (Hb : vs !! S i = Some b) (He : on_edge a b p) :
  Contains vs p = true.
Proof.
  apply ValidateGeometry_Ok in Hring as (Hn & Hvs & _).
  unfold Contains. case_match eqn:E; [apply Nat.ltb_lt in E; lia|].
  destruct (last vs) as [vl|] eqn:Hl.
  - eapply (contains_loop_boundary _ _ _ _ (S i)); try done.
    apply last_Some in Hl as [l ->]. rewrite Forall_app in Hvs. destruct Hvs as [_ Hv].
    by inversion Hv.
  - apply last_None in Hl as ->. done.
Qed.

Lemma Contains_boundary_witness : Contains unit_square (mkPoint 1000 700) = true.
Proof.
  apply (Contains_boundary _ _ (mkPoint 1000 1000) (mkPoint 1000 0) 2).
  - vm_compute. reflexivity.
  - unfold valid_point. simpl. lia.
  - reflexivity.
  - reflexivity.
  - apply (bool_decide_unpack _). vm_compute. exact I.
Defined.

(** A validated ring with a slanted edge, and the same ring traversed the
    other way round. *)
Definition slanted_ring : list Point :=
  [mkPoint 0 (-20); mkPoint 0 14; mkPoint 10 0; mkPoint 10 (-20); mkPoint 0 (-20)].

(** Within 3/2 micro-degree of a slanted edge the rounded division decides
    wrongly, and it depends on the direction in which the ring was drawn: the
    position (9, 1) is strictly inside this validated ring, the engine places it
    outside, and places it inside when the same ring is reversed. *)
Theorem Contains_depends_on_winding :
  ValidateGeometry slanted_ring = Ok tt ∧ ValidateGeometry (reverse slanted_ring) = Ok tt ∧
  inside_exact slanted_ring (mkPoint 9 1) = true ∧
  inside_exact (reverse slanted_ring) (mkPoint 9 1) = true ∧
  Contains slanted_ring (mkPoint 9 1) = false ∧
  Contains (reverse slanted_ring) (mkPoint 9 1) = true.
Proof. vm_compute. done. Qed.

(** ** The stay automaton: what consumers of the event stream rely on *)

Inductive stay := Away | Staying (dwelled : bool).

Definition stay_step (s : stay) (e : EventType) : option stay :=
  match s, e with
  | Away, EventEnter => Some (Staying false)
  | Staying _, EventExit => Some Away
  | Staying false, EventDwell => Some (Staying true)
  | _, _ => None
  end.

Fixpoint stay_run (s : stay) (es : list EventType) : option stay :=
  match es with
  | [] => Some s
  | e :: es' => stay_step s e ≫= λ s', stay_run s' es'
  end.

Definition stay_of (st : vesselFenceState) : stay :=
  if inside st then Staying (dwellEmitted st) else Away.

Lemma stay_run_app s es1 es2 :
  stay_run s (es1 ++ es2) = stay_run s es1 ≫= λ s', stay_run s' es2.
Proof.
  revert s. induction es1 as [|e es1 IH]; intros s; simpl; [done|].
  destruct (stay_step s e); simpl; auto.
Qed.

(** The events of one fence, and of one (vessel, fence) pair in a run. *)
Definition of_fence (g : string) (evs : list Event) : list Event :=
  filter (λ e, ev_GeofenceID e = g) evs.
Definition of_vessel (v : string) (log : list (obs * list Event)) : list (obs * list Event) :=
  filter (λ le, TrimSpace (o_key le.1) = v) log.
Definition pair_events (v g : string) (log : list (obs * list Event)) : list Event :=
  of_fence g (concat (snd <$> of_vessel v log)).

Definition memory (engine : t) (v g : string) : vesselFenceState :=
  default zero_state (default ∅ (eng_state engine !! v) !! g).

Lemma of_fence_app g l1 l2 : of_fence g (l1 ++ l2) = of_fence g l1 ++ of_fence g l2.
Proof. apply filter_app. Qed.

Lemma fence_step_stay f p speed at_ st evs st' :
  fence_step f p speed at_ st = (evs, st') →
  Forall (λ e, ev_GeofenceID e = GeofenceID f ∧ ev_OccurredAtUnix e = at_) evs ∧
  stay_run (stay_of st) (ev_Type <$> evs) = Some (stay_of st').
Proof.
  unfold fence_step, membership_step, dwell_step, stay_of.
  destruct (Contains (Vertices f) p), st as [[] ? [] ?]; simpl;
    rewrite ?andb_false_r; simpl; intros H; branches H;
    (split; [repeat constructor|done]).
Qed.

Lemma fence_step_of_fence f p speed at_ st evs st' g :
  fence_step f p speed at_ st = (evs, st') →
  of_fence g evs = if decide (GeofenceID f = g) then evs else [].
Proof.
  intros [H _]%fence_step_stay. unfold of_fence.
  induction H as [|e evs [He _] _ IH]; [by case_decide|].
  rewrite filter_cons, IH. rewrite He. by case_decide.
Qed.

Lemma observe_fences_stay fs p speed at_ m m' evs g :
  observe_fences fs p speed at_ m = (m', evs) →
  stay_run (stay_of (default zero_state (m !! g))) (ev_Type <$> of_fence g evs) =
  Some (stay_of (default zero_state (m' !! g))).
Proof.
  revert m m' evs. induction fs as [|f fs IH]; intros m m' evs; simpl; [by intros [= <- <-]|].
  destruct (fence_step _ _ _ _ _) as [e1 st'] eqn:Hf.
  destruct (observe_fences fs _ _ _ _) as [m2 rest] eqn:Hr. intros [= <- <-].
  rewrite of_fence_app, fmap_app, stay_run_app.
  rewrite (fence_step_of_fence _ _ _ _ _ _ _ g Hf).
  specialize (IH _ _ _ Hr). case_decide as Hg.
  - subst g. apply fence_step_stay in Hf as [_ ->]. simpl.
    by rewrite lookup_insert_eq in IH.
  - simpl. by rewrite lookup_insert_ne in IH.
Qed.

Lemma Observe_cases engine key p speed at_ fs engine' evs :
  Observe engine key p speed at_ fs = (engine', evs) →
  (engine' = engine ∧ evs = []) ∨
  ∃ m', TrimSpace key ≠ "" ∧ 0 < at_ ∧
    (∀ l, eng_last engine !! TrimSpace key = Some l → l ≤ at_) ∧
    observe_fences (sort_by GeofenceID fs) p speed at_
      (default ∅ (eng_state engine !! TrimSpace key)) = (m', evs) ∧
    engine' = mkEngine (<[TrimSpace key := m']> (eng_state engine))
                       (<[TrimSpace key := at_]> (eng_last engine)).
Proof.
  unfold Observe. case_match eqn:E1; [intros [= <- <-]; by left|].
  case_match eqn:E2; [intros [= <- <-]; by left|].
  case_match eqn:E3. intros [= <- <-]. right. bool_to_prop.
  eexists. split_and!; [done|lia| |done|done].
  intros seen Hl. rewrite Hl in E2. simpl in E2.
  bool_to_prop. lia.
Qed.

Lemma observe1_memory engine o engine' evs v g :
  observe1 engine o = (engine', evs) →
  stay_run (stay_of (memory engine v g))
    (ev_Type <$> (if decide (TrimSpace (o_key o) = v) then of_fence g evs else [])) =
  Some (stay_of (memory engine' v g)).
Proof.
  intros [[-> ->]|(m' & _ & _ & _ & Hobs & ->)]%Observe_cases; [by case_decide|].
  unfold memory; simpl. case_decide as Hv.
  - subst v. rewrite lookup_insert_eq. simpl. by eapply observe_fences_stay.
  - by rewrite lookup_insert_ne by done.
Qed.

Lemma pair_events_cons v g o evs log :
  pair_events v g ((o, evs) :: log) =
  (if decide (TrimSpace (o_key o) = v) then of_fence g evs else []) ++ pair_events v g log.
Proof.
  unfold pair_events, of_vessel. rewrite filter_cons. simpl.
  case_decide; [|done]. rewrite fmap_cons. simpl. by rewrite of_fence_app.
Qed.

Lemma run_memory engine os engine' log v g :
  run engine os = (engine', log) →
  stay_run (stay_of (memory engine v g)) (ev_Type <$> pair_events v g log) =
  Some (stay_of (memory engine' v g)).
Proof.
  revert engine engine' log. induction os as [|o os IH]; intros engine engine' log; simpl.
  { by intros [= <- <-]. }
  destruct (observe1 engine o) as [e1 evs] eqn:H1.
  destruct (run e1 os) as [e2 log'] eqn:H2. intros [= <- <-].
  rewrite pair_events_cons, fmap_app, stay_run_app.
  rewrite (observe1_memory _ _ _ _ v g H1). simpl. by apply IH.
Qed.

(** C34: For every vessel and every fence, whatever the interleaving of reports,
    out-of-order timestamps, fence edits and duplicate fence rows, the events the
    engine has emitted form a word of the stay automaton: they alternate ENTER and
    EXIT starting with ENTER, a DWELL occurs only inside a stay and at most once
    per stay, and the automaton ends in the engine's own memory of the pair. *)
Theorem events_follow_stays (os : list obs) (v g : string) :
  let '(engine', log) := run NewEngine os in
  stay_run Away (ev_Type <$> pair_events v g log) = Some (stay_of (memory engine' v g)).
Proof.
  destruct (run NewEngine os) as [engine' log] eqn:H.
  by apply (run_memory _ _ _ _ v g) in H.
Qed.

(** ** Isolation, ordering and time *)

(** Two engines agree on a vessel. *)
Definition agree (v : string) (e1 e2 : t) : Prop :=
  eng_state e1 !! v = eng_state e2 !! v ∧ eng_last e1 !! v = eng_last e2 !! v.

Lemma observe1_other engine o engine' evs v :
  observe1 engine o = (engine', evs) → TrimSpace (o_key o) ≠ v → agree v engine' engine.
Proof.
  intros [[-> ->]|(m' & _ & _ & _ & _ & ->)]%Observe_cases Hv; split; simpl; try done;
    by rewrite lookup_insert_ne.
Qed.

Lemma observe1_same e1 e2 o v e1' evs1 e2' evs2 :
  agree v e1 e2 → TrimSpace (o_key o) = v →
  observe1 e1 o = (e1', evs1) → observe1 e2 o = (e2', evs2) →
  agree v e1' e2' ∧ evs1 = evs2.
Proof.
  intros [Hs Hl] <-. unfold observe1, Observe. rewrite Hs, Hl.
  repeat case_match; intros; simplify_eq/=; split; try done;
    split; simpl; try done; by rewrite !lookup_insert_eq.
Qed.

Lemma run_isolated e1 e2 os v :
  agree v e1 e2 →
  let r1 := run e1 os in
  let r2 := run e2 (filter (λ o, TrimSpace (o_key o) = v) os) in
  agree v r1.1 r2.1 ∧ of_vessel v r1.2 = r2.2.
Proof.
  revert e1 e2. induction os as [|o os IH]; intros e1 e2 Ha; simpl; [done|].
  rewrite filter_cons. destruct (observe1 e1 o) as [e1' evs] eqn:H1.
  case_decide as Hv.
  - simpl. destruct (observe1 e2 o) as [e2' evs2] eqn:H2.
    destruct (observe1_same _ _ _ _ _ _ _ _ Ha Hv H1 H2) as [Ha' ->].
    specialize (IH _ _ Ha'). destruct (run e1' os), (run e2' _); simpl in *.
    unfold of_vessel. rewrite filter_cons_True by done.
    destruct IH as [? ?]. split; [done|]. by f_equal.
  - apply (observe1_other _ _ _ _ v) in H1; [|done].
    assert (agree v e1' e2) as Ha' by (destruct Ha, H1; split; congruence).
    specialize (IH _ _ Ha'). destruct (run e1' os); simpl in *.
    unfold of_vessel. by rewrite filter_cons_False by done.
Qed.

(** Vessels do not interfere: the events a vessel's reports produce, and the
    engine's memory of it, are those of a run in which only that vessel reports. *)
Theorem vessels_isolated (os : list obs) (v : string) :
  let r := run NewEngine os in
  let own := run NewEngine (filter (λ o, TrimSpace (o_key o) = v) os) in
  agree v r.1 own.1 ∧ of_vessel v r.2 = own.2.
Proof. by apply run_isolated. Qed.

Lemma observe_fences_sorted fs p speed at_ m m' evs :
  observe_fences fs p speed at_ m = (m', evs) →
  StronglySorted (key_le GeofenceID) fs →
  StronglySorted (key_le ev_GeofenceID) evs ∧
  Forall (λ e, ev_OccurredAtUnix e = at_ ∧ ∃ f, f ∈ fs ∧ ev_GeofenceID e = GeofenceID f) evs.
Proof.
  revert m m' evs. induction fs as [|f fs IH]; intros m m' evs; simpl.
  { intros [= <- <-]. by repeat constructor. }
  destruct (fence_step _ _ _ _ _) as [e1 st'] eqn:Hf.
  destruct (observe_fences fs _ _ _ _) as [m2 rest] eqn:Hr. intros [= <- <-] Hs.
  apply StronglySorted_inv in Hs as [Hs Hle].
  destruct (IH _ _ _ Hr Hs) as [IHs IHf].
  apply fence_step_stay in Hf as [Hf _].
  assert (Forall (λ e, key_le ev_GeofenceID e = λ e', str_le (GeofenceID f) (ev_GeofenceID e')) e1) as Hk.
  { eapply Forall_impl; [exact Hf|]. intros e [He _]. unfold key_le. by rewrite He. }
  split.
  - induction Hf as [|e e1 [He _] Hf IHe]; simpl; [done|].
    apply Forall_cons in Hk as [_ Hk]. constructor; [by apply IHe|].
    rewrite Forall_app. split.
    + eapply Forall_impl; [exact Hf|]. intros e' [He' _]. unfold key_le.
      rewrite He, He'. by destruct (total str_le (GeofenceID f) (GeofenceID f)).
    + eapply Forall_impl; [exact IHf|]. intros e' (_ & f' & Hf' & He'). unfold key_le.
      rewrite He, He'. rewrite Forall_forall in Hle. by apply Hle.
  - rewrite Forall_app. split.
    + eapply Forall_impl; [exact Hf|]. intros e [He Ht]. split; [done|]. exists f.
      split; [by left|done].
    + eapply Forall_impl; [exact IHf|]. intros e (Ht & f' & Hf' & He). split; [done|].
      exists f'. split; [by right|done].
Qed.

(** A report's events come out sorted by fence id and do not depend on the
    order in which the active fences (one version per id) were listed. *)
Theorem events_ordered (engine : t) (v : string) (p : Point) (speed at_ : Z) (fs fs' : list Fence)
  (Hnd : NoDup (GeofenceID <$> fs)) (Hperm : fs' ≡ₚ fs) :
  Observe engine v p speed at_ fs' = Observe engine v p speed at_ fs ∧
  StronglySorted (key_le ev_GeofenceID) (Observe engine v p speed at_ fs).2.
Proof.
  assert (sort_by GeofenceID fs' = sort_by GeofenceID fs) as Heq.
  { apply sort_by_unique; [done|by rewrite sort_by_perm|apply sort_by_sorted]. }
  split; [unfold Observe; by rewrite Heq|].
  destruct (Observe engine v p speed at_ fs) as [e' evs] eqn:H.
  apply Observe_cases in H as [[-> ->]|(m' & _ & _ & _ & Hobs & _)]; [constructor|].
  by apply observe_fences_sorted in Hobs as [? _]; [|apply sort_by_sorted].
Qed.

Definition port : Fence := mkFence "port" 1 unit_square 3600 500.
Definition anchorage : Fence := mkFence "anchorage" 2 unit_square 0 0.

Lemma events_ordered_witness :
  (Observe NewEngine "657000001" (mkPoint 5 5) 100 60 [port; anchorage]).2 =
    [mkEvent "anchorage" 2 EventEnter 60; mkEvent "port" 1 EventEnter 60] ∧
  Observe NewEngine "657000001" (mkPoint 5 5) 100 60 [anchorage; port] =
  Observe NewEngine "657000001" (mkPoint 5 5) 100 60 [port; anchorage].
Proof.
  split; [vm_compute; reflexivity|].
  apply events_ordered.
  - apply (bool_decide_unpack _). vm_compute. exact I.
  - apply perm_swap.
Defined.

Definition vessel_times (v : string) (log : list (obs * list Event)) : list Z :=
  ev_OccurredAtUnix <$> concat (snd <$> of_vessel v log).

Lemma run_times engine os v :
  let ts := vessel_times v (run engine os).2 in
  Forall (λ x, default 0 (eng_last engine !! v) ≤ x) ts ∧ StronglySorted Z.le ts.
Proof.
  revert engine. induction os as [|o os IH]; intros engine; simpl; [by repeat constructor|].
  destruct (observe1 engine o) as [e' evs] eqn:H1. specialize (IH e').
  destruct (run e' os) as [e2 log]; simpl in *. destruct IH as [IHf IHs].
  unfold vessel_times, of_vessel. rewrite filter_cons. simpl.
  case_decide as Hv.
  2:{ apply (observe1_other _ _ _ _ v) in H1 as [_ <-]; done. }
  rewrite fmap_cons. simpl. rewrite fmap_app.
  apply Observe_cases in H1 as [[-> ->]|(m' & _ & Hpos & Hle & Hobs & ->)]; [done|].
  apply observe_fences_sorted in Hobs as [_ Hat]; [|apply sort_by_sorted].
  rewrite Hv in *. simpl in *. rewrite lookup_insert_eq in IHf. simpl in IHf.
  assert (Forall (eq (o_at o)) (ev_OccurredAtUnix <$> evs)) as Heq.
  { apply Forall_fmap. eapply Forall_impl; [exact Hat|]. by intros e [? _]. }
  assert (default 0 (eng_last engine !! v) ≤ o_at o) as Hold.
  { destruct (eng_last engine !! v) eqn:E; simpl; [by apply Hle|lia]. }
  split.
  - rewrite Forall_app. split; (eapply Forall_impl; [eassumption|]; simpl; intros; lia).
  - clear Hat Hold. induction Heq as [|x l <- Heq IHl]; simpl; [done|].
    constructor; [done|]. rewrite Forall_app.
    split; (eapply Forall_impl; [eassumption|]; simpl; intros; lia).
Qed.

(** Time never runs backwards in a vessel's event stream: reports that predate
    the latest accepted one emit nothing, so the occurrence times of all the
    events of a vessel, over all fences, are non-decreasing and positive. *)
Theorem event_times_monotone (os : list obs) (v : string) :
  let ts := vessel_times v (run NewEngine os).2 in
  StronglySorted Z.le ts ∧ Forall (λ x, 0 ≤ x) ts.
Proof. destruct (run_times NewEngine os v) as [H1 H2]. by split. Qed.

(** ** Dwell *)

Definition slow (f : Fence) (o : obs) : Prop := 0 ≤ o_speed o ≤ DwellSpeedGateMilliknots f.
Definition fast (f : Fence) (o : obs) : Prop := 0 ≤ o_speed o ∧ DwellSpeedGateMilliknots f < o_speed o.
Definition within (f : Fence) (o : obs) : Prop := Contains (Vertices f) (o_point o) = true.

Definition fence_obs (f : Fence) (st : vesselFenceState) (o : obs) : list Event * vesselFenceState :=
  fence_step f (o_point o) (o_speed o) (o_at o) st.
Definition fence_fold (f : Fence) (os : list obs) : vesselFenceState :=
  foldl (λ st o, (fence_obs f st o).2) zero_state os.

(** A stretch of reports inside the fence that starts slow and has no report
    known to be above the gate. *)
Definition slow_stretch (f : Fence) (os : list obs) (start : Z) : Prop :=
  ∃ pre o0 mid, os = pre ++ o0 :: mid ∧ o_at o0 = start ∧ within f o0 ∧ slow f o0 ∧
    Forall (λ o, within f o ∧ ¬ fast f o) mid.

Lemma fence_fold_snoc f os o : fence_fold f (os ++ [o]) = (fence_obs f (fence_fold f os) o).2.
Proof. unfold fence_fold. by rewrite foldl_app. Qed.

Lemma slow_stretch_snoc f os o start :
  slow_stretch f os start → within f o → ¬ fast f o → slow_stretch f (os ++ [o]) start.
Proof.
  intros (pre & o0 & mid & -> & ? & ? & ? & Hm) Hw Hf. exists pre, o0, (mid ++ [o]).
  rewrite <- app_assoc. split_and!; try done. rewrite Forall_app, Forall_singleton. done.
Qed.

Lemma slow_stretch_start f os o :
  within f o → slow f o → slow_stretch f (os ++ [o]) (o_at o).
Proof. intros. exists os, o, []. split_and!; done || by apply Forall_nil. Qed.

Lemma fence_fold_slow f os :
  Forall (λ o, 0 < o_at o) os →
  let st := fence_fold f os in
  (inside st = false → slowSince st = 0) ∧
  (slowSince st ≠ 0 → slow_stretch f os (slowSince st)).
Proof.
  induction os as [|o os IH] using rev_ind; [done|].
  rewrite Forall_app, Forall_singleton. intros [Hos Hat].
  rewrite fence_fold_snoc. specialize (IH Hos). simpl in *.
  destruct (fence_fold f os) as [ins ent dw ss] eqn:Est; simpl in *. destruct IH as [IH1 IH2].
  pose proof (slow_stretch_snoc f os o ss) as Hsn.
  pose proof (slow_stretch_start f os o) as Hst.
  unfold within, slow, fast in *.
  unfold fence_obs, fence_step, membership_step, dwell_step; simpl.
  destruct (Contains (Vertices f) (o_point o)), ins; simpl; repeat case_match; simplify_eq/=;
    bool_to_prop; split; intros; try done; try lia;
    try (apply Hsn; [by apply IH2|done|lia]); try (apply Hst; [done|lia]);
    try (apply IH1; done).
Qed.

Lemma fence_untouched fs p speed at_ m m' evs g :
  g ∉ GeofenceID <$> fs → observe_fences fs p speed at_ m = (m', evs) →
  m' !! g = m !! g ∧ of_fence g evs = [].
Proof.
  revert m m' evs. induction fs as [|f fs IH]; intros m m' evs Hg; simpl; [by intros [= <- <-]|].
  destruct (fence_step f _ _ _ _) as [e1 st1] eqn:Hs.
  destruct (observe_fences fs _ _ _ _) as [m2 rest] eqn:Hr. intros [= <- <-].
  rewrite fmap_cons, not_elem_of_cons in Hg. destruct Hg as [Hne Hg].
  rewrite of_fence_app, (fence_step_of_fence _ _ _ _ _ _ _ g Hs), decide_False by done.
  destruct (IH _ _ _ Hg Hr) as [-> ->]. by rewrite lookup_insert_ne.
Qed.

Lemma observe_fences_single fs f p speed at_ m m' evs :
  NoDup (GeofenceID <$> fs) → f ∈ fs → observe_fences fs p speed at_ m = (m', evs) →
  let '(fe, st') := fence_step f p speed at_ (default zero_state (m !! GeofenceID f)) in
  m' !! GeofenceID f = Some st' ∧ of_fence (GeofenceID f) evs = fe.
Proof.
  revert m m' evs. induction fs as [|f1 fs IH]; intros m m' evs Hnd Hf; [set_solver|]; simpl.
  destruct (fence_step f1 _ _ _ _) as [e1 st1] eqn:Hs.
  destruct (observe_fences fs _ _ _ _) as [m2 rest] eqn:Hr. intros [= <- <-].
  rewrite fmap_cons, NoDup_cons in Hnd. destruct Hnd as [Hni Hnd].
  pose proof (fence_step_of_fence _ _ _ _ _ _ _ (GeofenceID f) Hs) as He1.
  rewrite of_fence_app, He1.
  apply list_elem_of_In in Hf as [<-|Hf].
  - rewrite Hs, decide_True by done.
    destruct (fence_untouched _ _ _ _ _ _ _ _ Hni Hr) as [-> ->].
    rewrite lookup_insert_eq, app_nil_r. done.
  - apply list_elem_of_In in Hf.
    assert (GeofenceID f1 ≠ GeofenceID f) as Hg.
    { intros Hg. apply Hni. rewrite Hg. by apply list_elem_of_fmap_2. }
    rewrite decide_False by done. simpl. specialize (IH _ _ _ Hnd Hf Hr).
    by rewrite lookup_insert_ne in IH.
Qed.

Section dwell.
Context (v : string) (fs : list Fence) (f : Fence).
Context (Hv : TrimSpace v = v) (Hv0 : v ≠ "") (Hnd : NoDup (GeofenceID <$> fs)) (Hf : f ∈ fs).

(** A report of [v] against the active set [fs]. *)
Definition ours (o : obs) : Prop := o_key o = v ∧ o_fences o = fs ∧ 0 < o_at o.

Lemma observe1_ours engine o :
  ours o → (∀ l, eng_last engine !! v = Some l → l ≤ o_at o) →
  let '(engine', evs) := observe1 engine o in
  memory engine' v (GeofenceID f) = (fence_obs f (memory engine v (GeofenceID f)) o).2 ∧
  of_fence (GeofenceID f) evs = (fence_obs f (memory engine v (GeofenceID f)) o).1 ∧
  eng_last engine' !! v = Some (o_at o).
Proof using Hv Hv0 Hnd Hf.
  intros (Hk & Hfs & Hat) Hl. unfold observe1, Observe. rewrite Hk, Hfs, Hv.
  apply String.eqb_neq in Hv0. rewrite Hv0. simpl.
  destruct (o_at o <=? 0) eqn:E; [lia|].
  replace (_ && _)%bool with false.
  2:{ destruct (eng_last engine !! v) as [l|]; simpl; [|done]. specialize (Hl l eq_refl). lia. }
  destruct (observe_fences _ _ _ _ _) as [m' evs] eqn:Ho.
  apply (observe_fences_single _ f) in Ho.
  - unfold memory, fence_obs. simpl. rewrite !lookup_insert_eq. simpl.
    destruct (fence_step _ _ _ _ _) as [fe st']. destruct Ho as [-> ->]. done.
  - by rewrite sort_by_perm.
  - by rewrite sort_by_perm.
Qed.

Lemma run_ours engine os :
  Forall ours os → StronglySorted Z.le (o_at <$> os) →
  (∀ l o, eng_last engine !! v = Some l → o ∈ os → l ≤ o_at o) →
  memory (run engine os).1 v (GeofenceID f) =
    foldl (λ st o, (fence_obs f st o).2) (memory engine v (GeofenceID f)) os ∧
  (∀ l, eng_last (run engine os).1 !! v = Some l →
     eng_last engine !! v = Some l ∨ ∃ o, o ∈ os ∧ o_at o = l).
Proof using Hv Hv0 Hnd Hf.
  revert engine. induction os as [|o os IH]; intros engine Ho Hs Hl; simpl; [auto|].
  apply Forall_cons in Ho as [Ho Hos].
  rewrite fmap_cons in Hs. apply StronglySorted_inv in Hs as [Hs Hle].
  pose proof (observe1_ours engine o Ho) as H1.
  destruct (observe1 engine o) as [e' evs].
  destruct H1 as (Hm & _ & Hlast); [intros l Hl'; eapply Hl; [done|by left]|].
  specialize (IH e' Hos Hs). destruct (run e' os) as [e2 log]. simpl in *.
  destruct IH as [IH1 IH2].
  { intros l o' Hl' Ho'. rewrite Hlast in Hl'. simplify_eq.
    rewrite Forall_fmap, Forall_forall in Hle. by apply Hle. }
  rewrite IH1, Hm. split; [done|]. intros l Hl'. right.
  destruct (IH2 l Hl') as [Hx|(o' & ? & ?)]; [|exists o'; split; [by right|done]].
  rewrite Hlast in Hx. simplify_eq. exists o. split; [by left|done].
Qed.
End dwell.

(** A DWELL means what it says up to unknown speeds: when the last report of a
    vessel emits DWELL for a fence of the active set, the vessel has been inside
    since an earlier report at least the threshold before, that report and the last
    one are at or below the gate speed, and no report in between was outside or
    known to be above the gate. *)
Theorem dwell_sound (v : string) (fs : list Fence) (f : Fence) (os : list obs) (o : obs)
  (Hv : TrimSpace v = v) (Hv0 : v ≠ "") (Hnd : NoDup (GeofenceID <$> fs)) (Hf : f ∈ fs)
  (Hours : Forall (ours v fs) (os ++ [o])) (Htime : StronglySorted Z.le (o_at <$> os ++ [o]))
  (e : Event) (He : e ∈ (observe1 (run NewEngine os).1 o).2)
  (Hg : ev_GeofenceID e = GeofenceID f) (Hd : ev_Type e = EventDwell) :
  within f o ∧ slow f o ∧
  ∃ start, slow_stretch f os start ∧ DwellThresholdSeconds f ≤ o_at o - start.
Proof.
  rewrite Forall_app, Forall_singleton in Hours. destruct Hours as [Hos Ho].
  rewrite fmap_app in Htime.
  assert (StronglySorted Z.le (o_at <$> os) ∧ ∀ o', o' ∈ os → o_at o' ≤ o_at o) as [Hs Hle].
  { apply StronglySorted_app in Htime as (H1 & H2 & _). split; [done|].
    intros o' Ho'. apply H1; [by apply list_elem_of_fmap_2|by left]. }
  destruct (run_ours v fs f Hv Hv0 Hnd Hf NewEngine os Hos Hs ltac:(done)) as [Hm Hl].
  pose proof (observe1_ours v fs f Hv Hv0 Hnd Hf (run NewEngine os).1 o Ho) as H1.
  destruct (observe1 _ o) as [e' evs]. destruct H1 as (_ & H1 & _).
  { intros l Hl'. destruct (Hl l Hl') as [?|(o' & Ho' & <-)]; [done|by apply Hle]. }
  rewrite Hm in H1. change (memory NewEngine v (GeofenceID f)) with zero_state in H1.
  fold (fence_fold f os) in H1.
  assert (Hin : e ∈ (fence_obs f (fence_fold f os) o).1).
  { rewrite <- H1. apply list_elem_of_filter. done. }
  assert (Forall (λ o, 0 < o_at o) os) as Hpos.
  { eapply Forall_impl; [exact Hos|]. by intros ? (_ & _ & ?). }
  destruct (fence_fold_slow f os Hpos) as [_ Hslow].
  destruct (fence_fold f os) as [ins ent dw ss]; simpl in *. clear -Hin Hd Hslow.
  unfold fence_obs, fence_step, membership_step, dwell_step in Hin; simpl in Hin.
  unfold within, slow.
  destruct (Contains (Vertices f) (o_point o)), ins; simpl in *; repeat case_match; simplify_eq/=;
    bool_to_prop; set_unfold in Hin; destruct_or?; simplify_eq/=; try done; try lia.
  split_and!; [done|lia|lia|]. exists ss. split; [apply Hslow; lia|lia].
Qed.

Definition moored (at_ speed : Z) : obs := mkObs "657000001" (mkPoint 500 400) speed at_ [port].

Lemma dwell_sound_witness :
  (observe1 (run NewEngine [moored 1000 100; moored 2000 200]).1 (moored 4700 0)).2 =
    [mkEvent "port" 1 EventDwell 4700] ∧
  ∃ start, slow_stretch port [moored 1000 100; moored 2000 200] start ∧
           DwellThresholdSeconds port ≤ o_at (moored 4700 0) - start.
Proof.
  split; [vm_compute; reflexivity|].
  apply (dwell_sound "657000001" [port] port [moored 1000 100; moored 2000 200] (moored 4700 0))
    with (e := mkEvent "port" 1 EventDwell 4700).
  - vm_compute. reflexivity.
  - discriminate.
  - apply (bool_decide_unpack _). vm_compute. exact I.
  - by left.
  - repeat constructor; vm_compute; reflexivity.
  - repeat constructor; vm_compute; discriminate.
  - vm_compute. by left.
  - reflexivity.
  - reflexivity.
Defined.

(** Unknown speed counts toward dwell: with every report between the first and
    the last carrying no speed, the DWELL is still emitted; and the event carries
    the time of the report that revealed it, not the moment the threshold was
    reached (here 4600). *)
Theorem unknown_speed_counts_toward_dwell :
  (run NewEngine [moored 1000 100; moored 2000 (-1); moored 3000 (-1); moored 9000 100]).2.*2 =
  [[mkEvent "port" 1 EventEnter 1000]; []; []; [mkEvent "port" 1 EventDwell 9000]] ∧
  DwellThresholdSeconds port = 3600.
Proof. vm_compute. done. Qed.
