(* ===== verification/GoTime.v ===== *)
(** * Calendar dates and their texts

    What the code uses of package [time] on UTC instants: the civil date of an
    instant and the instant of a date ([time.Date], days and months out of range
    carried over), the layouts [2006-01-02] and RFC 3339, and [time.Parse] of the
    layout [01-02].  An instant is a number of nanoseconds since the epoch, as in
    [Prelude]. *)
From S2P Require Import Prelude.

Definition day : Z := 24 * hour.

(** ** The proleptic Gregorian calendar *)

Record civil := mkCivil { c_year : Z; c_month : Z; c_day : Z }.

(** Days from 1970-01-01 to the date; years begin in March, so that the leap day
    is the last of its year, and an era is 400 years. *)
Definition days_from_civil (y m d : Z) : Z :=
  let y' := if m <=? 2 then y - 1 else y in
  let era := y' / 400 in
  let yoe := y' mod 400 in
  let doy := (153 * ((m + 9) mod 12) + 2) / 5 + d - 1 in
  era * 146097 + (yoe * 365 + yoe / 4 - yoe / 100 + doy) - 719468.

Definition civil_of_era_day (doe : Z) : Z * Z * Z :=
  let yoe := (doe - doe / 1460 + doe / 36524 - doe / 146096) / 365 in
  let doy := doe - (365 * yoe + yoe / 4 - yoe / 100) in
  let mp := (5 * doy + 2) / 153 in
  (yoe, if mp <? 10 then mp + 3 else mp - 9, doy - (153 * mp + 2) / 5 + 1).

Definition civil_from_days (z : Z) : civil :=
  let n := z + 719468 in
  let '(yoe, m, d) := civil_of_era_day (n mod 146097) in
  let y := yoe + n / 146097 * 400 in
  mkCivil (if m <=? 2 then y + 1 else y) m d.

(** [time.Date(y, m, d, 0, 0, 0, 0, time.UTC)]: the month is brought into the
    year first, the day is an offset. *)
Definition time_Date (y m d : Z) : Z :=
  let y' := y + (m - 1) / 12 in
  let m' := (m - 1) mod 12 + 1 in
  (days_from_civil y' m' 1 + (d - 1)) * day.

Definition date_of_instant (t : Z) : civil := civil_from_days (t / day).
Definition time_Year (t : Z) : Z := c_year (date_of_instant t).

Definition leap (y : Z) : bool := (y mod 4 =? 0) && (negb (y mod 100 =? 0) || (y mod 400 =? 0)).
Definition days_in (m y : Z) : Z :=
  if m =? 2 then (if leap y then 29 else 28)
  else if (m =? 4) || (m =? 6) || (m =? 9) || (m =? 11) then 30 else 31.

(** ** Texts *)

(** A year is printed with at least four digits. *)
Definition show_year (y : Z) : string :=
  if y <? 0 then "-" +:+ (if - y <? 10000 then show_pad 4 (- y) else show_dec (- y))
  else if y <? 10000 then show_pad 4 y else show_dec y.

(** [t.UTC().Format("2006-01-02")]. *)
Definition format_date (t : Z) : string :=
  let c := date_of_instant t in
  show_year (c_year c) +:+ "-" +:+ show_pad 2 (c_month c) +:+ "-" +:+ show_pad 2 (c_day c).

(** [t.UTC().Format(time.RFC3339)]: whole seconds, the rest is cut off. *)
Definition format_rfc3339 (t : Z) : string :=
  let s := t mod day / second in
  format_date t +:+ "T" +:+ show_pad 2 (s / 3600) +:+ ":" +:+ show_pad 2 (s / 60 mod 60)
    +:+ ":" +:+ show_pad 2 (s mod 60) +:+ "Z".

(** [t.UTC().Format(time.RFC3339Nano)]: the fraction without its trailing zeros. *)
Definition fraction (t : Z) : string :=
  let n := t mod second in
  if n =? 0 then "" else "." +:+ trim_right ["0"] (show_pad 9 n).
Definition format_rfc3339nano (t : Z) : string :=
  let s := t mod day / second in
  format_date t +:+ "T" +:+ show_pad 2 (s / 3600) +:+ ":" +:+ show_pad 2 (s / 60 mod 60)
    +:+ ":" +:+ show_pad 2 (s mod 60) +:+ fraction t +:+ "Z".
Example format_rfc3339nano_ex : format_rfc3339nano (1787994861 * second + 120000) = "2026-08-29T09:14:21.00012Z".
Proof. vm_compute. reflexivity. Qed.

(** [time.Parse("01-02", s)]: two digits, a hyphen, two digits, a day of the
    month in the year 0, which is a leap year. *)
Definition parse_mm_dd (s : string) : option (Z * Z) :=
  match s with
  | String a (String b (String h (String c (String e EmptyString)))) =>
      if is_digit a && is_digit b && (byte_of h =? 45) && is_digit c && is_digit e then
        let m := 10 * (byte_of a - 48) + (byte_of b - 48) in
        let d := 10 * (byte_of c - 48) + (byte_of e - 48) in
        if (1 <=? m) && (m <=? 12) && (1 <=? d) && (d <=? days_in m 0) then Some (m, d) else None
      else None
  | _ => None
  end.
(** [parsed.Format("01-02")]. *)
Definition format_mm_dd (md : Z * Z) : string := show_pad 2 md.1 +:+ "-" +:+ show_pad 2 md.2.

(** ** Properties *)

(** The conversions agree on one era, by evaluation; eras repeat. *)
Fixpoint all_from (p : Z → bool) (n : nat) (z : Z) : bool :=
  match n with O => true | S n' => if p z then all_from p n' (z + 1) else false end.
Lemma all_from_spec p n z0 z : all_from p n z0 = true → z0 ≤ z < z0 + Z.of_nat n → p z = true.
Proof.
  revert z0. induction n as [|n IH]; intros z0; simpl; [lia|]. destruct (p z0) eqn:Hp; [|done].
  intros H Hz. destruct (decide (z = z0)) as [->|]; [done|]. apply (IH (z0 + 1)); [done|lia].
Qed.

Definition era_day_ok (doe : Z) : bool :=
  let '(yoe, m, d) := civil_of_era_day doe in
  (0 <=? yoe) && (yoe <? 400) && (1 <=? m) && (m <=? 12) && (1 <=? d)
  && (yoe * 365 + yoe / 4 - yoe / 100 + ((153 * ((m + 9) mod 12) + 2) / 5 + d - 1) =? doe)
  && (d <=? days_in m (if m <=? 2 then yoe + 1 else yoe)).
Lemma era_days_ok : all_from era_day_ok (Z.to_nat 146097) 0 = true.
Proof. vm_compute. reflexivity. Qed.

Lemma leap_era y k : leap (y + k * 400) = leap y.
Proof.
  unfold leap. replace (y + k * 400) with (y + k * 100 * 4) at 1 by lia. rewrite Z_mod_plus_full.
  replace (y + k * 400) with (y + k * 4 * 100) at 1 by lia. rewrite Z_mod_plus_full.
  by rewrite Z_mod_plus_full.
Qed.

Lemma civil_of_era_day_ok doe : 0 ≤ doe < 146097 → era_day_ok doe = true.
Proof. intros H. eapply all_from_spec; [apply era_days_ok|]. lia. Qed.

Lemma civil_from_days_spec z :
  let c := civil_from_days z in
  days_from_civil (c_year c) (c_month c) (c_day c) = z ∧
  1 ≤ c_month c ≤ 12 ∧ 1 ≤ c_day c ≤ days_in (c_month c) (c_year c).
Proof.
  unfold civil_from_days.
  assert (0 ≤ (z + 719468) mod 146097 < 146097) as Hr by (apply Z.mod_pos_bound; lia).
  pose proof (Z.div_mod (z + 719468) 146097 ltac:(lia)) as Hd.
  pose proof (civil_of_era_day_ok _ Hr) as Hok. unfold era_day_ok in Hok.
  destruct (civil_of_era_day _) as [[yoe m] d].
  set (q := (z + 719468) / 146097) in *. set (r := (z + 719468) mod 146097) in *.
  rewrite !andb_true_iff, !Z.leb_le, Z.ltb_lt, Z.eqb_eq in Hok. simpl.
  destruct Hok as [[[[[[H1 H2] H3] H4] H5] H6] H7].
  unfold days_in in *. rewrite <- (leap_era _ q) in H7.
  assert (∀ b : bool, (if b then yoe + q * 400 + 1 else yoe + q * 400) = (if b then yoe + 1 else yoe) + q * 400) as Hy
    by (intros []; lia).
  rewrite Hy. split; [|split; [lia|]].
  2: { destruct (m =? 2); [|lia]. destruct (leap _); lia. }
  unfold days_from_civil.
  assert ((if m <=? 2 then (if m <=? 2 then yoe + 1 else yoe) + q * 400 - 1
           else (if m <=? 2 then yoe + 1 else yoe) + q * 400) = yoe + q * 400) as ->
    by (destruct (m <=? 2); lia).
  rewrite Z.div_add, Z_mod_plus_full, Z.div_small, Z.mod_small by lia. lia.
Qed.

Lemma days_from_civil_day y m d d' : days_from_civil y m d - d = days_from_civil y m d' - d'.
Proof. unfold days_from_civil. lia. Qed.

(** The date of an instant gives back the instant's midnight. *)
Lemma time_Date_of_instant t :
  let c := date_of_instant t in time_Date (c_year c) (c_month c) (c_day c) = t / day * day.
Proof.
  unfold date_of_instant, time_Date. cbv zeta.
  destruct (civil_from_days_spec (t / day)) as (H1 & H2 & H3).
  destruct (civil_from_days (t / day)) as [y m d]. cbn [c_year c_month c_day] in *.
  rewrite (Z.div_small (m - 1) 12), (Z.mod_small (m - 1) 12) by lia.
  replace (y + 0) with y by lia. replace (m - 1 + 1) with m by lia.
  pose proof (days_from_civil_day y m 1 d). f_equal. lia.
Qed.

(** Days and years are in order. *)
Lemma days_from_civil_year y : days_from_civil (y + 1) 1 1 - days_from_civil y 1 1 = if leap y then 366 else 365.
Proof.
  unfold days_from_civil, leap. simpl.
  replace ((153 * ((1 + 9) mod 12) + 2) / 5) with 306 by reflexivity.
  replace (y + 1 - 1) with y by lia.
  destruct (Z.eqb_spec (y mod 4) 0), (Z.eqb_spec (y mod 100) 0), (Z.eqb_spec (y mod 400) 0); simpl;
    Z.to_euclidean_division_equations; lia.
Qed.

Example format_examples :
  format_rfc3339 (1700000000 * second + 5) = "2023-11-14T22:13:20Z" ∧ format_date 0 = "1970-01-01" ∧
  time_Date 2023 2 30 = time_Date 2023 3 2 ∧ parse_mm_dd "02-29" = Some (2, 29) ∧ parse_mm_dd "2-28" = None.
Proof. vm_compute. done. Qed.
