(* ===== verification/Types.v ===== *)
(** * Records shared by the ingest path

    [store.Position] ([internal/store/store.go]), [connectors.IngestPosition]
    and the UTC calendar arithmetic of [time.Date]. *)
From S2P Require Import Prelude GoTime.

Record Position := mkPosition {
  PositionReportID : string;
  MMSI : string;
  VesselRef : string;
  SourceClass : string;
  LatitudeMicros : Z;
  LongitudeMicros : Z;
  SpeedOverGroundMilliknots : option Z;
  CourseOverGroundMillidegrees : option Z;
  HeadingMillidegrees : option Z;
  NavStatus : option Z;
  PositionAccuracy : string;
  ReceiverID : string;
  AISMessageType : option Z;
  IMO : string;
  Callsign : string;
  ShipName : string;
  Classification : string;
  ObservedAt : Z;
}.

Record IngestPosition := mkIngest {
  ip_Position : Position;
  ip_PayloadKey : string;
}.

(** Source classes and the unspecified accuracy ([internal/sign/payload.go]). *)
Definition SourceAIS : string := "AIS".
Definition SourceGSMTracker : string := "GSM_TRACKER".
Definition SourceSatTracker : string := "SAT_TRACKER".
Definition SourceAppReport : string := "APP_REPORT".
Definition AccuracyUnspecified : string := "UNSPECIFIED".

Definition derefUint32 (value : option Z) : Z := default 0 value.
Definition derefInt32 (value : option Z) : Z := default 0 value.

(** [time.Date(y, m, d, h, mi, s, 0, time.UTC)]. *)
Definition time_Date_at (y m d h mi s : Z) : Z := time_Date y m d + (h * 3600 + mi * 60 + s) * second.

Example time_Date_epoch : time_Date_at 1970 1 1 0 0 0 = 0.
Proof. reflexivity. Qed.
Example time_Date_2026 : time_Date_at 2026 8 29 9 14 21 = 1787994861 * second.
Proof. reflexivity. Qed.
Example time_Date_normalizes : time_Date_at 2026 2 31 0 0 0 = time_Date_at 2026 3 3 0 0 0.
Proof. reflexivity. Qed.
