(* ===== verification/GoParse.v ===== *)
(** * Numbers and instants read from texts

    What the code uses of [strconv] and of [time.Parse] with the layout RFC 3339.
    The general parser of package [time] is translated; its fast path accepts a
    subset of the texts with the same instants. *)
From S2P Require Import Prelude GoTime Types.

(** TIMESTAMPTZ holds microseconds; [Truncate(time.Microsecond)] gives the same. *)
Definition pg_time (t : Z) : Z := t / 1000 * 1000.

(** The number of characters of a UTF-8 text: bytes that do not continue one. *)
Fixpoint char_count (s : string) : Z :=
  match s with
  | EmptyString => 0
  | String c s' => (if (128 <=? byte_of c) && (byte_of c <? 192) then 0 else 1) + char_count s'
  end.

(** The identifiers of the contract: [^[A-Za-z0-9][A-Za-z0-9._:-]{0,n}$]. *)
Definition id_start (c : char) : bool :=
  let b := byte_of c in
  ((65 <=? b) && (b <=? 90)) || ((97 <=? b) && (b <=? 122)) || ((48 <=? b) && (b <=? 57)).
Definition id_char (c : char) : bool :=
  let b := byte_of c in id_start c || (b =? 46) || (b =? 95) || (b =? 58) || (b =? 45).
Definition identifier (n : nat) (s : string) : bool :=
  match s with
  | EmptyString => false
  | String c rest => id_start c && all_chars id_char rest && (String.length rest <=? n)%nat
  end.

(** ** Integers *)

(** [strconv.ParseInt(s, 10, bits)]. *)
Definition ParseInt (bits : Z) (s : string) : option Z :=
  let '(negative, digits) :=
    match s with
    | String c rest => if byte_of c =? 45 then (true, rest) else if byte_of c =? 43 then (false, rest) else (false, s)
    | EmptyString => (false, s)
    end in
  if String.eqb digits "" || negb (all_chars is_digit digits) then None
  else
    let v := if negative : bool then - dec_value digits else dec_value digits in
    if (- 2 ^ (bits - 1) <=? v) && (v <? 2 ^ (bits - 1)) then Some v else None.
(** [strconv.Atoi] on a 64-bit platform. *)
Definition Atoi (s : string) : option Z := ParseInt 64 s.

(** ** Instants *)

Definition digit_value (c : char) : Z := byte_of c - 48.
(** [getnum]: two digits, or one when the ranged is not fixed. *)
Definition getnum (fixed : bool) (s : string) : option (Z * string) :=
  match s with
  | String a s1 =>
      if negb (is_digit a) then None
      else match s1 with
           | String b s2 =>
               if is_digit b then Some (digit_value a * 10 + digit_value b, s2)
               else if fixed then None else Some (digit_value a, s1)
           | EmptyString => if fixed then None else Some (digit_value a, s1)
           end
  | EmptyString => None
  end.
Definition four_digits (s : string) : option (Z * string) :=
  '(h, s1) ← getnum true s; '(l, s2) ← getnum true s1; Some (h * 100 + l, s2).
(** A ranged within its range. *)
Definition ranged (fixed : bool) (lo hi : Z) (s : string) : option (Z * string) :=
  '(v, rest) ← getnum fixed s; if (lo <=? v) && (v <=? hi) then Some (v, rest) else None.

(** The digits at the front of a text. *)
Fixpoint take_digits (s : string) : string * string :=
  match s with
  | String c s' => if is_digit c then let '(d, rest) := take_digits s' in (String c d, rest) else ("", s)
  | EmptyString => ("", "")
  end.
(** The fraction of a second after a period or a comma, cut to nanoseconds. *)
Definition nanoseconds (s : string) : Z * string :=
  match s with
  | String p s1 =>
      if (byte_of p =? 46) || (byte_of p =? 44) then
        let '(d, rest) := take_digits s1 in
        if String.eqb d "" then (0, s)
        else let d9 := String.substring 0 9 d in
             (dec_value d9 * 10 ^ (9 - Z.of_nat (String.length d9)), rest)
      else (0, s)
  | EmptyString => (0, s)
  end.
(** [Z] or an offset, in seconds; 24 hours and 60 minutes are let through. *)
Definition zone_offset (s : string) : option (Z * string) :=
  match strip_prefix "Z" s with
  | Some rest => Some (0, rest)
  | None =>
      match s with
      | String sign s1 =>
          '(hr, s2) ← ranged true 0 24 s1;
          s3 ← strip_prefix ":" s2;
          '(mm, s4) ← ranged true 0 60 s3;
          let offset := (hr * 60 + mm) * 60 in
          if byte_of sign =? 43 then Some (offset, s4) else if byte_of sign =? 45 then Some (- offset, s4) else None
      | EmptyString => None
      end
  end.
(** [time.Parse(time.RFC3339, s)]. *)
Definition parse_rfc3339 (s : string) : option Z :=
  '(year, s) ← four_digits s;
  s ← strip_prefix "-" s;
  '(month, s) ← ranged true 1 12 s;
  s ← strip_prefix "-" s;
  '(d, s) ← getnum true s;
  s ← strip_prefix "T" s;
  '(h, s) ← ranged false 0 23 s;
  s ← strip_prefix ":" s;
  '(mi, s) ← ranged true 0 59 s;
  s ← strip_prefix ":" s;
  '(sec, s) ← ranged true 0 59 s;
  let '(ns, s) := nanoseconds s in
  '(offset, s) ← zone_offset s;
  if negb (String.eqb s "") then None
  else if (d <? 1) || (days_in month year <? d) then None
  else Some (time_Date_at year month d h mi sec + ns - offset * second).

Example parse_examples :
  parse_rfc3339 "2026-08-29T10:14:21.5+01:00" = Some (1787994861 * second + 500000000) ∧
  parse_rfc3339 "2026-02-29T10:14:21Z" = None ∧ parse_rfc3339 "2026-08-29 10:14:21Z" = None ∧
  parse_rfc3339 "2026-08-29T9:14:21Z" = Some (1787994861 * second) ∧
  ParseInt 32 "-180000000" = Some (-180000000) ∧ ParseInt 32 "2147483648" = None ∧ Atoi "+7" = Some 7.
Proof. vm_compute. done. Qed.

(** ** What is printed is read back *)

Lemma digit_value_char d : 0 ≤ d < 10 → digit_value (digit_char d) = d.
Proof. intros. unfold digit_value. rewrite byte_of_digit by done. lia. Qed.
Lemma getnum_show_pad fixed z s : 0 ≤ z < 100 → getnum fixed (show_pad 2 z +:+ s) = Some (z, s).
Proof.
  intros Hz. unfold show_pad, getnum. cbv beta iota fix delta [show_pad getnum String.append].
  assert (0 ≤ z / 10 < 10) by (split; [apply Z.div_pos; lia|apply Z.div_lt_upper_bound; lia]).
  assert (0 ≤ z mod 10 < 10) by (apply Z.mod_pos_bound; lia).
  rewrite (Z.mod_small (z / 10)) by lia. rewrite !is_digit_digit_char by done. cbn [negb]. rewrite !digit_value_char by done.
  do 2 f_equal. pose proof (Z.div_mod z 10). lia.
Qed.
Lemma ranged_show_pad fixed lo hi z s :
  0 ≤ lo → hi < 100 → lo ≤ z ≤ hi → ranged fixed lo hi (show_pad 2 z +:+ s) = Some (z, s).
Proof.
  intros Hlo Hhi Hz. unfold ranged. rewrite getnum_show_pad by lia. cbn.
  by rewrite (proj2 (Z.leb_le lo z)), (proj2 (Z.leb_le z hi)) by lia.
Qed.
Lemma four_digits_show_pad z s : 0 ≤ z < 10000 → four_digits (show_pad 4 z +:+ s) = Some (z, s).
Proof.
  intros Hz. unfold four_digits.
  assert (show_pad 4 z = show_pad 2 (z / 100) +:+ show_pad 2 (z mod 100)) as ->.
  { cbv beta iota fix delta [show_pad String.append]. rewrite !Z.div_div by lia. change (10 * 10) with 100. change (100 * 10) with 1000.
    replace (z / 10) with (z mod 100 / 10 + z / 100 * 10) by (Z.to_euclidean_division_equations; lia).
    replace (z mod 10) with (z mod 100 mod 10); [by rewrite Z_mod_plus_full|].
    rewrite (Z.div_mod z 100) at 2 by lia. replace (100 * (z / 100) + z mod 100) with (z mod 100 + z / 100 * 10 * 10) by lia.
    by rewrite Z_mod_plus_full. }
  rewrite <- string_app_assoc.
  assert (0 ≤ z / 100 < 100) by (split; [apply Z.div_pos; lia|apply Z.div_lt_upper_bound; lia]).
  assert (0 ≤ z mod 100 < 100) by (apply Z.mod_pos_bound; lia).
  rewrite getnum_show_pad by done. cbn -[show_pad getnum]. rewrite getnum_show_pad by done. cbn.
  do 2 f_equal. pose proof (Z.div_mod z 100). lia.
Qed.

Lemma strip_literal c s : strip_prefix (String c "") (String c "" +:+ s) = Some s.
Proof. cbv beta iota fix delta [strip_prefix String.append]. by rewrite Ascii.eqb_refl. Qed.
(** Steps over the literal of the layout that comes next. *)
Ltac literal := cbn [mbind option_bind]; rewrite ?strip_literal; cbn [mbind option_bind].

(** The hours, minutes and seconds of a day. *)
Lemma seconds_split s : 0 ≤ s < 86400 → 0 ≤ s / 3600 ≤ 23 ∧ 0 ≤ s / 60 mod 60 ≤ 59 ∧ 0 ≤ s mod 60 ≤ 59 ∧
  s / 3600 * 3600 + s / 60 mod 60 * 60 + s mod 60 = s.
Proof. intros. Z.to_euclidean_division_equations. lia. Qed.

(** An instant printed in RFC 3339 is read back: for every instant of the years
    0 to 9999, [time.Parse] of its text gives the instant, cut to whole seconds. *)
Theorem rfc3339_round_trip (t : Z) :
  0 ≤ time_Year t < 10000 → parse_rfc3339 (format_rfc3339 t) = Some (t / second * second).
Proof.
  intros Hy. unfold parse_rfc3339, format_rfc3339, format_date, show_year. unfold time_Year in Hy.
  pose proof (time_Date_of_instant t) as Hdate. unfold date_of_instant in *.
  pose proof (civil_from_days_spec (t / day)) as (_ & Hm & Hd). cbv zeta in *.
  destruct (civil_from_days (t / day)) as [y m d]. cbn [c_year c_month c_day] in *.
  rewrite (proj2 (Z.ltb_ge y 0)), (proj2 (Z.ltb_lt y 10000)) by lia.
  assert (0 ≤ t mod day / second < 86400) as Hs.
  { pose proof (Z.mod_pos_bound t day ltac:(done)). split; [apply Z.div_pos; [lia|done]|].
    apply Z.div_lt_upper_bound; [done|]. unfold day, hour, second in *. lia. }
  destruct (seconds_split _ Hs) as (Hh & Hmi & Hsec & Hsum).
  assert (days_in m y ≤ 31) by (unfold days_in; repeat case_match; lia).
  rewrite <- !string_app_assoc, four_digits_show_pad by lia. literal.
  rewrite ranged_show_pad by lia. literal. rewrite getnum_show_pad by lia. literal.
  do 2 (rewrite ranged_show_pad by lia; literal). rewrite ranged_show_pad by lia. cbn -[time_Date_at Z.div Z.modulo].
  rewrite (proj2 (Z.ltb_ge d 1)), (proj2 (Z.ltb_ge (days_in m y) d)) by lia. cbn [orb].
  unfold time_Date_at. rewrite Hdate.
  assert (t / second = t / day * 86400 + t mod day / second) as ->.
  { unfold day, hour, second in *. Z.to_euclidean_division_equations. lia. }
  rewrite Hsum. change (byte_of _ =? 46) with false. change (byte_of _ =? 44) with false. cbn -[Z.div Z.modulo].
  f_equal. change day with (86400 * second). lia.
Qed.
Lemma rfc3339_round_trip_witness :
  parse_rfc3339 (format_rfc3339 (1787994861 * second + 7)) = Some ((1787994861 * second + 7) / second * second).
Proof. apply (rfc3339_round_trip (1787994861 * second + 7)). split; [by vm_compute|by vm_compute]. Defined.
