(* ===== verification/Dedup.v ===== *)
(** * Deduplication

    [internal/dedup/dedup.go]: the payload encoding and its hash, the window
    bounds and the SETNX test.  SHA-256 is a parameter; the Redis server is an
    interface with the documented behaviour of SET NX with a TTL as its laws. *)
From S2P Require Import Prelude.

(** ** Big-endian encodings and hexadecimal *)

(** [n] bytes of [z], most significant first. *)
Fixpoint be_bytes (n : nat) (z : Z) : list Z :=
  match n with
  | O => []
  | S n' => be_bytes n' (z / 256) ++ [z mod 256]
  end.

Fixpoint be_value (l : list Z) : Z :=
  match l with
  | [] => 0
  | b :: l' => b * 256 ^ Z.of_nat (length l') + be_value l'
  end.

Definition is_byte (z : Z) : Prop := 0 ≤ z < 256.

Lemma be_value_app l1 l2 :
  be_value (l1 ++ l2) = be_value l1 * 256 ^ Z.of_nat (length l2) + be_value l2.
Proof.
  induction l1 as [|b l1 IH]; simpl; [lia|].
  rewrite IH, length_app, Nat2Z.inj_add, Z.pow_add_r by lia. lia.
Qed.

Lemma length_be_bytes n z : length (be_bytes n z) = n.
Proof. revert z. induction n; intros z; simpl; [done|]. rewrite length_app, IHn. simpl. lia. Qed.

Lemma be_value_bytes n z : be_value (be_bytes n z) = z mod 256 ^ Z.of_nat n.
Proof.
  revert z. induction n as [|n IH]; intros z; [by rewrite Z.mod_1_r|].
  cbn [be_bytes]. rewrite be_value_app, IH. cbn [be_value length].
  replace (256 ^ Z.of_nat (S n)) with (256 * 256 ^ Z.of_nat n)
    by (rewrite Nat2Z.inj_succ, Z.pow_succ_r by lia; done).
  rewrite Z.rem_mul_r by lia. simpl (Z.of_nat 1). simpl (Z.of_nat 0). lia.
Qed.

Lemma be_bytes_is_byte n z : Forall is_byte (be_bytes n z).
Proof.
  revert z. induction n as [|n IH]; intros z; simpl; [constructor|].
  rewrite Forall_app, Forall_singleton. split; [done|]. apply Z.mod_pos_bound. lia.
Qed.

Lemma be_bytes_value n l :
  Forall is_byte l → length l = n → be_bytes n (be_value l) = l.
Proof.
  intros Hl <-. induction l as [|b l IH] using rev_ind; [done|].
  rewrite Forall_app, Forall_singleton in Hl. destruct Hl as [Hl Hb]. unfold is_byte in Hb.
  assert (be_value (l ++ [b]) = b + be_value l * 256) as Hv.
  { rewrite be_value_app. cbn [be_value length]. lia. }
  rewrite Hv, length_app, Nat.add_comm. cbn [length Nat.add be_bytes].
  rewrite Z.div_add, Z.mod_add, (Z.div_small b), (Z.mod_small b), Z.add_0_l by lia.
  by rewrite IH.
Qed.

Lemma be_bytes_inj n a b :
  0 ≤ a < 256 ^ Z.of_nat n → 0 ≤ b < 256 ^ Z.of_nat n → be_bytes n a = be_bytes n b → a = b.
Proof.
  intros Ha Hb H. apply (f_equal be_value) in H. rewrite !be_value_bytes in H.
  by rewrite !Z.mod_small in H.
Qed.

Definition hex_digit (d : Z) : char := char_of (if d <? 10 then 48 + d else 87 + d).
(** [hex.EncodeToString]. *)
Fixpoint hex_encode (l : list Z) : string :=
  match l with
  | [] => ""
  | b :: l' => String (hex_digit (b / 16)) (String (hex_digit (b mod 16)) (hex_encode l'))
  end.

(** The bytes of a string. *)
Fixpoint string_bytes (s : string) : list Z :=
  match s with EmptyString => [] | String c s' => byte_of c :: string_bytes s' end.

Lemma string_bytes_inj s1 s2 : string_bytes s1 = string_bytes s2 → s1 = s2.
Proof.
  revert s2. induction s1 as [|c s1 IH]; intros [|d s2]; simpl; try done.
  intros [= Hc Hs]. rewrite (IH _ Hs). f_equal.
  rewrite <- (char_of_byte_of c), <- (char_of_byte_of d). by rewrite Hc.
Qed.

(** ** The payload hash *)

(** The hashed buffer: the identity, a zero byte, five 32-bit words and the
    64-bit Unix second. *)
Definition payload_bytes (mmsi : string) (messageType latitudeMicros longitudeMicros
  speedMilliknots courseMillidegrees observedAt : Z) : list Z :=
  string_bytes mmsi ++ [0]
  ++ be_bytes 4 (uint32 messageType) ++ be_bytes 4 (uint32 latitudeMicros)
  ++ be_bytes 4 (uint32 longitudeMicros) ++ be_bytes 4 speedMilliknots
  ++ be_bytes 4 courseMillidegrees ++ be_bytes 8 (uint64 (time_Unix observedAt)).

Definition PayloadHash (sha256 : list Z → list Z) (mmsi : string)
  (messageType latitudeMicros longitudeMicros speedMilliknots courseMillidegrees observedAt : Z) : string :=
  hex_encode (take 16 (sha256 (payload_bytes mmsi messageType latitudeMicros longitudeMicros
                                 speedMilliknots courseMillidegrees observedAt))).

(** [connectors.dedupKey]. *)
Definition dedupKey := PayloadHash.

(** ** Redis *)

Inductive redis_error := RedisUnavailable.

(** A Redis server: its keyspace, and SET NX with a TTL at an instant.  The view
    [expires r k] is the instant at which [k] expires, when it is set. *)
Class Redis (R : Type) := {
  expires : R → string → option Z;
  setnx : R → Z → string → Z → R * result redis_error bool;
}.

(** What SET NX EX promises: it answers true and sets the key when the key is
    absent or has expired, answers false and changes nothing when it is alive;
    after an error the write may or may not have happened. *)
Definition live (o : option Z) (now : Z) : Prop := ∃ t, o = Some t ∧ now < t.

Class RedisLaws (R : Type) `{Redis R} := {
  setnx_true r now k ttl r' : setnx r now k ttl = (r', Ok true) →
    ¬ live (expires r k) now ∧ expires r' k = Some (now + ttl) ∧
    ∀ k', k' ≠ k → expires r' k' = expires r k';
  setnx_false r now k ttl r' : setnx r now k ttl = (r', Ok false) →
    live (expires r k) now ∧ ∀ k', expires r' k' = expires r k';
  setnx_err r now k ttl r' e : setnx r now k ttl = (r', Err e) →
    (∀ k', expires r' k' = expires r k') ∨
    (expires r' k = Some (now + ttl) ∧ ∀ k', k' ≠ k → expires r' k' = expires r k');
}.

(** A server that never fails. *)
Definition MemRedis : Type := gmap string Z.
#[export] Instance mem_redis : Redis MemRedis := {
  expires r k := (r : gmap string Z) !! k;
  setnx r now k ttl :=
    match (r : gmap string Z) !! k with
    | Some t => if now <? t then (r, Ok false) else (<[k := now + ttl]> (r : gmap string Z), Ok true)
    | None => (<[k := now + ttl]> (r : gmap string Z), Ok true)
    end;
}.

#[export] Instance mem_redis_laws : RedisLaws MemRedis.
Proof.
  split; simpl; intros; destruct ((r : gmap string Z) !! k) as [t|] eqn:E; simpl in *;
    try case_match eqn:Et; simplify_eq; bool_to_prop; unfold live;
    split_and?; intros; rewrite ?lookup_insert_eq, ?lookup_insert_ne by done; naive_solver lia.
Qed.

(** ** The checker *)

Definition MinWindow : Z := 10 * second.
Definition MaxWindow : Z := 30 * second.
Definition keyPrefix : string := "geo:dedup:".

Record Checker := mkChecker { window : Z }.

Inductive dedup_error := ClientRequired | WindowOutOfRange (w : Z).

Definition NewChecker (client_present : bool) (w : Z) : result dedup_error Checker :=
  if negb client_present then Err ClientRequired
  else if (w <? MinWindow) || (MaxWindow <? w) then Err (WindowOutOfRange w)
  else Ok (mkChecker w).

(** [fmt.Sprintf("%s%s:%d:%s", keyPrefix, mmsi, messageType, payloadHash)]. *)
Definition dedup_key (mmsi : string) (messageType : Z) (payloadHash : string) : string :=
  keyPrefix +:+ mmsi +:+ ":" +:+ show_Z messageType +:+ ":" +:+ payloadHash.

(** The duplicate flag and the error, with the server's new state. *)
Definition IsDuplicate {R} `{Redis R} (checker : Checker) (r : R) (now : Z)
  (mmsi : string) (messageType : Z) (payloadHash : string) : R * (bool * option redis_error) :=
  match setnx r now (dedup_key mmsi messageType payloadHash) (window checker) with
  | (r', Ok set) => (r', (negb set, None))
  | (r', Err e) => (r', (false, Some e))
  end.

(** ** Properties *)

Lemma payload_bytes_suffix_length mt lat lon sp co t :
  length (be_bytes 4 (uint32 mt) ++ be_bytes 4 (uint32 lat) ++ be_bytes 4 (uint32 lon)
          ++ be_bytes 4 sp ++ be_bytes 4 co ++ be_bytes 8 (uint64 t)) = 28%nat.
Proof. by rewrite !length_app, !length_be_bytes. Qed.

Lemma uint32_int32_inj a b : is_int32 a → is_int32 b → uint32 a = uint32 b → a = b.
Proof.
  unfold is_int32, uint32. intros Ha Hb H.
  assert ((a - b) mod 2 ^ 32 = 0) as Hm by (rewrite Zminus_mod, H, Z.sub_diag; done).
  apply Z.mod_divide in Hm as [q Hq]; lia.
Qed.

Lemma uint64_int64_inj a b : is_int64 a → is_int64 b → uint64 a = uint64 b → a = b.
Proof.
  unfold is_int64, uint64. intros Ha Hb H.
  assert ((a - b) mod 2 ^ 64 = 0) as Hm by (rewrite Zminus_mod, H, Z.sub_diag; done).
  apply Z.mod_divide in Hm as [q Hq]; lia.
Qed.

Lemma be32_inj a b : is_uint32 a → is_uint32 b → be_bytes 4 a = be_bytes 4 b → a = b.
Proof. exact (be_bytes_inj 4 a b). Qed.
Lemma be32_int_inj a b :
  is_int32 a → is_int32 b → be_bytes 4 (uint32 a) = be_bytes 4 (uint32 b) → a = b.
Proof. intros ?? H%be32_inj; [by apply uint32_int32_inj|apply uint32_range..]. Qed.
Lemma be64_int_inj a b :
  is_int64 a → is_int64 b → be_bytes 8 (uint64 a) = be_bytes 8 (uint64 b) → a = b.
Proof. intros ?? H%(be_bytes_inj 8); [by apply uint64_int64_inj|apply uint64_range..]. Qed.

(** The hashed buffer identifies the report: two reports with machine-width
    fields and the same buffer agree on the identity (any bytes, zero bytes
    included), the message type, the position, speed and course, and on the
    second of observation.  Reports collapse only by a hash collision or because
    they are the same report. *)
Theorem payload_bytes_inj (m1 m2 : string)
  (mt1 mt2 lat1 lat2 lon1 lon2 sp1 sp2 co1 co2 t1 t2 : Z)
  (H32 : Forall is_int32 [mt1; mt2; lat1; lat2; lon1; lon2])
  (Hu32 : Forall is_uint32 [sp1; sp2; co1; co2])
  (H64 : Forall is_int64 [time_Unix t1; time_Unix t2])
  (Heq : payload_bytes m1 mt1 lat1 lon1 sp1 co1 t1 = payload_bytes m2 mt2 lat2 lon2 sp2 co2 t2) :
  m1 = m2 ∧ mt1 = mt2 ∧ lat1 = lat2 ∧ lon1 = lon2 ∧ sp1 = sp2 ∧ co1 = co2 ∧
  time_Unix t1 = time_Unix t2.
Proof.
  unfold payload_bytes in Heq. rewrite !(app_assoc _ [0]) in Heq.
  apply app_inj_2 in Heq as [Hm Hs]; [|by rewrite !payload_bytes_suffix_length].
  apply app_inj_2 in Hm as [Hm _]; [|done]. apply string_bytes_inj in Hm.
  repeat match goal with
  | H : be_bytes _ _ ++ _ = be_bytes _ _ ++ _ |- _ =>
      apply app_inj_1 in H as [? H]; [|by rewrite !length_be_bytes]
  end.
  rewrite !Forall_cons in *. destruct_and!.
  split_and!; first [done|by apply be32_inj|by apply be32_int_inj|by apply be64_int_inj].
Qed.

Lemma payload_bytes_inj_witness :
  "657000001" = "657000001" ∧ 1 = 1 ∧ -5 = -5 ∧ 7 = 7 ∧ 8400 = 8400 ∧ 0 = 0 ∧
  time_Unix (60 * second) = time_Unix (60 * second + 5).
Proof.
  apply payload_bytes_inj.
  - repeat constructor; unfold is_int32; lia.
  - repeat constructor; unfold is_uint32; lia.
  - repeat constructor; vm_compute; congruence.
  - vm_compute. reflexivity.
Defined.

Section window.
Context {R : Type} `{RedisLaws R} (checker : Checker).

(** One call: its instant, its key's parts; and the flag it returned. *)
Record call := mkCall { c_at : Z; c_mmsi : string; c_type : Z; c_hash : string }.
Definition call_key (c : call) : string := dedup_key (c_mmsi c) (c_type c) (c_hash c).

Fixpoint dedup_run (r : R) (cs : list call) : R * list (call * (bool * option redis_error)) :=
  match cs with
  | [] => (r, [])
  | c :: cs' =>
      let '(r1, out) := IsDuplicate checker r (c_at c) (c_mmsi c) (c_type c) (c_hash c) in
      let '(r2, log) := dedup_run r1 cs' in
      (r2, (c, out) :: log)
  end.

(** [k] was admitted at an instant whose window is still open at [now]. *)
Definition admitted (log : list (call * (bool * option redis_error))) (k : string) (now : Z) : Prop :=
  ∃ c, (c, (false, None)) ∈ log ∧ call_key c = k ∧ now < c_at c + window checker.

Definition tracks (past : list (call * (bool * option redis_error))) (r : R) (from : Z) : Prop :=
  ∀ k now, from ≤ now → live (expires r k) now ↔ admitted past k now.

Lemma IsDuplicate_step past r c r' b :
  tracks past r (c_at c) →
  IsDuplicate checker r (c_at c) (c_mmsi c) (c_type c) (c_hash c) = (r', (b, None)) →
  (b = true ↔ admitted past (call_key c) (c_at c)) ∧
  tracks (past ++ [(c, (b, None))]) r' (c_at c).
Proof using Type*.
  intros Ht. unfold IsDuplicate. fold (call_key c).
  destruct (setnx r (c_at c) (call_key c) (window checker)) as [r1 [set|e]] eqn:E; [|done].
  intros [= <- <-].
  assert (Happ : ∀ k now x, admitted (past ++ [(c, (x, None))]) k now ↔
    admitted past k now ∨ (x = false ∧ call_key c = k ∧ now < c_at c + window checker)).
  { intros k now x. unfold admitted. setoid_rewrite elem_of_app.
    setoid_rewrite list_elem_of_singleton. naive_solver. }
  destruct set; simpl.
  - apply setnx_true in E as (Hn & Hk & Ho). split.
    { split; [done|]. intros Ha. destruct Hn. by apply Ht. }
    intros k now Hnow. rewrite Happ. destruct (decide (k = call_key c)) as [->|Hne].
    + rewrite Hk. unfold live. split; [naive_solver|].
      intros [Ha|(_ & _ & Hw)]; [|naive_solver].
      destruct Hn. apply Ht; [lia|]. destruct Ha as (c0 & ? & ? & ?). exists c0. split_and!; [done|done|lia].
    + rewrite Ho by done. specialize (Ht k now Hnow). naive_solver.
  - apply setnx_false in E as [Hl Ho]. split.
    { split; [|done]. intros _. by apply Ht. }
    intros k now Hnow. rewrite Ho, Happ. specialize (Ht k now Hnow). naive_solver.
Qed.

Lemma tracks_mono past r from from' : from ≤ from' → tracks past r from → tracks past r from'.
Proof. intros Hf Ht k now Hn. apply Ht. lia. Qed.

Lemma dedup_run_spec past r from cs pre c b post :
  StronglySorted Z.le (c_at <$> cs) → Forall (λ c, from ≤ c_at c) cs → tracks past r from →
  Forall (λ e, e.2.2 = None) (dedup_run r cs).2 →
  (dedup_run r cs).2 = pre ++ (c, b) :: post →
  b.1 = true ↔ admitted (past ++ pre) (call_key c) (c_at c).
Proof using Type*.
  revert past r from pre. induction cs as [|c1 cs IH]; intros past r from pre Hs Hfrom Ht Herr; simpl.
  { by destruct pre. }
  rewrite fmap_cons in Hs. apply StronglySorted_inv in Hs as [Hs Hle].
  rewrite Forall_fmap in Hle. apply Forall_cons in Hfrom as [Hc1 _]. simpl in Herr.
  destruct (IsDuplicate _ _ _ _ _ _) as [r1 [b1 e1]] eqn:E.
  specialize (IH (past ++ [(c1, (b1, None))]) r1 (c_at c1)).
  destruct (dedup_run r1 cs) as [r2 log] eqn:Er. simpl in *.
  apply Forall_cons in Herr as [He1 Herr]. simpl in He1. subst e1.
  destruct (IsDuplicate_step past r c1 r1 b1) as [Hb Ht1]; [by eapply tracks_mono|done|].
  destruct pre as [|p0 pre]; intros [= Hc Hlog].
  - subst. by rewrite app_nil_r.
  - subst p0. specialize (IH pre). rewrite <- app_assoc in IH. by apply IH.
Qed.
End window.

(** On a Redis that answers, a report is absorbed exactly when an identical
    key was admitted less than one window before: nothing is lost beyond that, no
    key is admitted twice within a window, and the window starts at the admission,
    not at the absorbed repeats. *)
Theorem duplicate_iff_admitted_in_window {R} `{RedisLaws R} (checker : Checker) (r : R)
  (cs : list call) (pre post : list (call * (bool * option redis_error))) (c : call) (dup : bool)
  (Hempty : ∀ k, expires r k = None)
  (Htime : StronglySorted Z.le (c_at <$> cs))
  (Hup : Forall (λ e, e.2.2 = None) (dedup_run checker r cs).2)
  (Hlog : (dedup_run checker r cs).2 = pre ++ (c, (dup, None)) :: post) :
  dup = true ↔
  ∃ c0, (c0, (false, None)) ∈ pre ∧ call_key c0 = call_key c ∧ c_at c < c_at c0 + window checker.
Proof.
  destruct cs as [|c1 cs]; [by destruct pre|].
  apply (dedup_run_spec checker [] r (c_at c1) (c1 :: cs) pre c (dup, None) post); try done.
  - constructor; [done|]. rewrite fmap_cons in Htime.
    apply StronglySorted_inv in Htime as [_ Hle]. by rewrite Forall_fmap in Hle.
  - intros k now _. rewrite Hempty. split; [intros (? & ? & ?); done|].
    intros (c0 & Hc0 & _). by apply elem_of_nil in Hc0.
Qed.

Definition rebroadcast (at_ : Z) : call := mkCall (at_ * second) "657000001" 1 "ab".

Lemma duplicate_iff_admitted_in_window_witness :
  let log := (dedup_run (R := MemRedis) (mkChecker (15 * second)) (∅ : gmap string Z)
                [rebroadcast 0; rebroadcast 14; rebroadcast 16]).2 in
  log.*2.*1 = [false; true; false] ∧
  (true = true ↔ ∃ c0, (c0, (false, None)) ∈ [(rebroadcast 0, (false, @None redis_error))] ∧
     call_key c0 = call_key (rebroadcast 14) ∧ c_at (rebroadcast 14) < c_at c0 + 15 * second).
Proof.
  split; [vm_compute; reflexivity|].
  apply (duplicate_iff_admitted_in_window (R := MemRedis) (mkChecker (15 * second)) (∅ : gmap string Z)
           [rebroadcast 0; rebroadcast 14; rebroadcast 16] [(rebroadcast 0, (false, None))]
           [(rebroadcast 16, (false, None))] (rebroadcast 14) true).
  - intros k. apply lookup_empty.
  - repeat constructor; vm_compute; discriminate.
  - vm_compute. repeat constructor.
  - vm_compute. reflexivity.
Defined.
