(* ===== verification/Sha256.v ===== *)
(** * SHA-256

    The digest of Go's [crypto/sha256] (FIPS 180-4), executable: words are [Z]
    below [2^32], the message is a list of bytes.  Checked on the standard's test
    vectors. *)
From S2P Require Import Prelude Dedup.

Definition add32 (a b : Z) : Z := (a + b) mod 2 ^ 32.
Definition rotr (n x : Z) : Z :=
  Z.lor (Z.shiftr x n) (Z.shiftl (Z.land x (Z.ones n)) (32 - n)).
Definition bigSigma0 (x : Z) : Z := Z.lxor (Z.lxor (rotr 2 x) (rotr 13 x)) (rotr 22 x).
Definition bigSigma1 (x : Z) : Z := Z.lxor (Z.lxor (rotr 6 x) (rotr 11 x)) (rotr 25 x).
Definition smallSigma0 (x : Z) : Z := Z.lxor (Z.lxor (rotr 7 x) (rotr 18 x)) (Z.shiftr x 3).
Definition smallSigma1 (x : Z) : Z := Z.lxor (Z.lxor (rotr 17 x) (rotr 19 x)) (Z.shiftr x 10).
Definition Ch (x y z : Z) : Z := Z.lxor (Z.land x y) (Z.land (Z.lxor x (Z.ones 32)) z).
Definition Maj (x y z : Z) : Z := Z.lxor (Z.lxor (Z.land x y) (Z.land x z)) (Z.land y z).

Definition round_constants : list Z :=
  [1116352408; 1899447441; 3049323471; 3921009573; 961987163; 1508970993;
   2453635748; 2870763221; 3624381080; 310598401; 607225278; 1426881987;
   1925078388; 2162078206; 2614888103; 3248222580; 3835390401; 4022224774;
   264347078; 604807628; 770255983; 1249150122; 1555081692; 1996064986;
   2554220882; 2821834349; 2952996808; 3210313671; 3336571891; 3584528711;
   113926993; 338241895; 666307205; 773529912; 1294757372; 1396182291;
   1695183700; 1986661051; 2177026350; 2456956037; 2730485921; 2820302411;
   3259730800; 3345764771; 3516065817; 3600352804; 4094571909; 275423344;
   430227734; 506948616; 659060556; 883997877; 958139571; 1322822218;
   1537002063; 1747873779; 1955562222; 2024104815; 2227730452; 2361852424;
   2428436474; 2756734187; 3204031479; 3329325298].
Definition initial_words : list Z :=
  [1779033703; 3144134277; 1013904242; 2773480762; 1359893119; 2600822924;
   528734635; 1541459225].

(** The working variables and the 16-word window of the message schedule. *)
Record working := mkWorking {
  wa : Z; wb : Z; wc : Z; wd : Z; we : Z; wf : Z; wg : Z; wh : Z; window : list Z }.

Definition next_word (w : list Z) : Z :=
  add32 (add32 (smallSigma1 (nth 14 w 0)) (nth 9 w 0)) (add32 (smallSigma0 (nth 1 w 0)) (nth 0 w 0)).

Definition sha_round (s : working) (k : Z) : working :=
  let t1 := add32 (add32 (add32 (wh s) (bigSigma1 (we s))) (add32 (Ch (we s) (wf s) (wg s)) k))
              (nth 0 (window s) 0) in
  let t2 := add32 (bigSigma0 (wa s)) (Maj (wa s) (wb s) (wc s)) in
  mkWorking (add32 t1 t2) (wa s) (wb s) (wc s) (add32 (wd s) t1) (we s) (wf s) (wg s)
    (tl (window s) ++ [next_word (window s)]).

Definition compress (h block : list Z) : list Z :=
  let s := fold_left sha_round round_constants
    (mkWorking (nth 0 h 0) (nth 1 h 0) (nth 2 h 0) (nth 3 h 0) (nth 4 h 0) (nth 5 h 0)
       (nth 6 h 0) (nth 7 h 0) block) in
  [add32 (nth 0 h 0) (wa s); add32 (nth 1 h 0) (wb s); add32 (nth 2 h 0) (wc s);
   add32 (nth 3 h 0) (wd s); add32 (nth 4 h 0) (we s); add32 (nth 5 h 0) (wf s);
   add32 (nth 6 h 0) (wg s); add32 (nth 7 h 0) (wh s)].

(** A one bit, zeros, and the bit length in eight bytes, up to a multiple of 64. *)
Definition sha_pad (msg : list Z) : list Z :=
  let n := Z.of_nat (length msg) in
  msg ++ [128] ++ repeat 0 (Z.to_nat ((55 - n) mod 64)) ++ be_bytes 8 (8 * n).

Fixpoint sha_words (fuel : nat) (bytes : list Z) : list Z :=
  match fuel with
  | O => []
  | S n => be_value (take 4 bytes) :: sha_words n (drop 4 bytes)
  end.

Fixpoint sha_blocks (fuel : nat) (h bytes : list Z) : list Z :=
  match fuel with
  | O => h
  | S n => sha_blocks n (compress h (sha_words 16 bytes)) (drop 64 bytes)
  end.

Definition sha256 (msg : list Z) : list Z :=
  let padded := sha_pad msg in
  sha_blocks (length padded / 64) initial_words padded ≫= be_bytes 4.

Definition sha256_hex (s : string) : string := hex_encode (sha256 (string_bytes s)).

(** The digests of the empty message, of [abc] and of the two-block message of
    the standard. *)
Example sha256_empty :
  sha256_hex "" = "e3b0c44298fc1c149afbf4c8996fb92427ae41e4649b934ca495991b7852b855".
Proof. vm_compute. reflexivity. Qed.
Example sha256_abc :
  sha256_hex "abc" = "ba7816bf8f01cfea414140de5dae2223b00361a396177a9cb410ff61f20015ad".
Proof. vm_compute. reflexivity. Qed.
Example sha256_two_blocks :
  sha256_hex "abcdbcdecdefdefgefghfghighijhijkijkljklmklmnlmnomnopnopq"
  = "248d6a61d20638b8e5c026930c3e6039a33ce45964ff2167f6ecedd419db06c1".
Proof. vm_compute. reflexivity. Qed.

Lemma length_hex_encode l : String.length (hex_encode l) = (2 * length l)%nat.
Proof. induction l as [|b l IH]; simpl; [done|]. rewrite IH. lia. Qed.

Lemma length_sha_blocks n h bytes : length h = 8%nat → length (sha_blocks n h bytes) = 8%nat.
Proof. revert h bytes. induction n as [|n IH]; intros h bytes Hh; [done|]. by apply IH. Qed.

Lemma length_bind_be_bytes l : length (l ≫= be_bytes 4) = (4 * length l)%nat.
Proof. induction l as [|z l IH]; [done|]. cbn [mbind list_bind]. rewrite length_app, length_be_bytes, IH. simpl. lia. Qed.

Lemma length_sha256 msg : length (sha256 msg) = 32%nat.
Proof. unfold sha256. by rewrite length_bind_be_bytes, length_sha_blocks. Qed.

Lemma sha256_bytes msg : Forall is_byte (sha256 msg).
Proof.
  unfold sha256. generalize (sha_blocks (length (sha_pad msg) / 64) initial_words (sha_pad msg)). intros l.
  induction l as [|w l IH]; [constructor|]. cbn [mbind list_bind]. apply Forall_app. split; [apply be_bytes_is_byte|exact IH].
Qed.

(** A digest prints as 64 hexadecimal digits. *)
Lemma length_sha256_hex s : String.length (sha256_hex s) = 64%nat.
Proof. unfold sha256_hex. by rewrite length_hex_encode, length_sha256. Qed.
