(* ===== verification/Base64.v ===== *)
(** * Base64

    [encoding/base64] as the code uses it: the standard and the URL alphabet, padded
    and raw.  Decoding skips line breaks and, not being strict, ignores the bits of
    the last character that belong to no byte. *)
From S2P Require Import Prelude Dedup.

Record Encoding := mkEncoding { alphabet : list char; padded : bool }.

Definition base64_common : string := "ABCDEFGHIJKLMNOPQRSTUVWXYZabcdefghijklmnopqrstuvwxyz0123456789".
Definition StdEncoding : Encoding := mkEncoding (String.list_ascii_of_string (base64_common +:+ "+/")) true.
Definition RawStdEncoding : Encoding := mkEncoding (String.list_ascii_of_string (base64_common +:+ "+/")) false.
Definition URLEncoding : Encoding := mkEncoding (String.list_ascii_of_string (base64_common +:+ "-_")) true.
Definition RawURLEncoding : Encoding := mkEncoding (String.list_ascii_of_string (base64_common +:+ "-_")) false.
Definition encodings : list Encoding := [RawURLEncoding; URLEncoding; RawStdEncoding; StdEncoding].

Definition pad_char : char := char_of 61.

Section base64.
Context (e : Encoding).

Definition enc (v : Z) : char := nth (Z.to_nat v) (alphabet e) pad_char.
Fixpoint index_from (c : char) (l : list char) (i : Z) : option Z :=
  match l with
  | [] => None
  | a :: l' => if Ascii.eqb a c then Some i else index_from c l' (i + 1)
  end.
Definition dec (c : char) : option Z := index_from c (alphabet e) 0.
Definition padding (n : nat) : list char := if padded e then repeat pad_char n else [].

Fixpoint encode (l : list Z) : list char :=
  match l with
  | a :: b :: c :: l' =>
      let v := a * 65536 + b * 256 + c in
      enc (v / 262144) :: enc (v / 4096 mod 64) :: enc (v / 64 mod 64) :: enc (v mod 64) :: encode l'
  | [a; b] =>
      let v := a * 65536 + b * 256 in
      enc (v / 262144) :: enc (v / 4096 mod 64) :: enc (v / 64 mod 64) :: padding 1
  | [a] =>
      let v := a * 65536 in
      enc (v / 262144) :: enc (v / 4096 mod 64) :: padding 2
  | [] => []
  end.
Definition EncodeToString (l : list Z) : string := String.string_of_list_ascii (encode l).

Definition is_pad (c : char) : bool := padded e && Ascii.eqb c pad_char.
Fixpoint decode (cs : list char) : option (list Z) :=
  match cs with
  | [] => Some []
  | [_] => None
  | [c0; c1] =>
      if padded e then None
      else v0 ← dec c0; v1 ← dec c1; Some [v0 * 4 + v1 / 16]
  | [c0; c1; c2] =>
      if padded e then None
      else v0 ← dec c0; v1 ← dec c1; v2 ← dec c2; Some [v0 * 4 + v1 / 16; v1 mod 16 * 16 + v2 / 4]
  | c0 :: c1 :: c2 :: c3 :: rest =>
      v0 ← dec c0; v1 ← dec c1;
      match dec c2 with
      | None => if is_pad c2 && is_pad c3 && bool_decide (rest = []) then Some [v0 * 4 + v1 / 16] else None
      | Some v2 =>
          match dec c3 with
          | None =>
              if is_pad c3 && bool_decide (rest = []) then Some [v0 * 4 + v1 / 16; v1 mod 16 * 16 + v2 / 4]
              else None
          | Some v3 =>
              tail ← decode rest;
              Some (v0 * 4 + v1 / 16 :: v1 mod 16 * 16 + v2 / 4 :: v2 mod 4 * 64 + v3 :: tail)
          end
      end
  end.

Definition is_break (c : char) : bool := (byte_of c =? 10) || (byte_of c =? 13).
Definition DecodeString (s : string) : option (list Z) :=
  decode (filter (λ c, is_break c = false) (String.list_ascii_of_string s)).

(** ** Round trip *)

Definition enc_ok : bool :=
  forallb (λ n, let v := Z.of_nat n in bool_decide (dec (enc v) = Some v) && negb (is_break (enc v))) (seq 0 64)
  && bool_decide (dec pad_char = None).
Hypothesis Hok : enc_ok = true.

Lemma dec_enc v : 0 ≤ v < 64 → dec (enc v) = Some v ∧ is_break (enc v) = false.
Proof.
  intros Hv. apply andb_true_iff in Hok as [H _]. rewrite forallb_forall in H.
  specialize (H (Z.to_nat v)). rewrite Z2Nat.id in H by lia.
  destruct (andb_prop _ _ (H ltac:(apply in_seq; lia))) as [H1 H2].
  apply bool_decide_eq_true in H1. by apply negb_true_iff in H2.
Qed.
Lemma dec_of_enc v : 0 ≤ v < 64 → dec (enc v) = Some v.
Proof. intros. by apply dec_enc. Qed.
Lemma dec_pad : dec pad_char = None.
Proof. apply andb_true_iff in Hok as [_ H]. by apply bool_decide_eq_true in H. Qed.

Lemma is_pad_pad_char : padded e = true → is_pad pad_char = true.
Proof. unfold is_pad. by intros ->. Qed.

(** Bytes are taken three at a time. *)
Lemma triples_ind (P : list Z → Prop) :
  P [] → (∀ a, P [a]) → (∀ a b, P [a; b]) → (∀ a b c l, P l → P (a :: b :: c :: l)) → ∀ l, P l.
Proof.
  intros H0 H1 H2 H3. refine (fix go l := match l with [] => H0 | [a] => H1 a | [a; b] => H2 a b
    | a :: b :: c :: l' => H3 a b c l' (go l') end).
Qed.

Lemma filter_all {A} (P : A → Prop) `{∀ x, Decision (P x)} (l : list A) : Forall P l → filter P l = l.
Proof. induction 1; [done|]. rewrite filter_cons_True by done. by f_equal. Qed.

(** What holds of the characters of the alphabet and of the padding holds of a text. *)
Lemma encode_Forall (Q : char → Prop) l :
  (∀ v, 0 ≤ v < 64 → Q (enc v)) → Q pad_char → Forall is_byte l → Forall Q (encode l).
Proof.
  intros He Hq Hl.
  assert (∀ n, Forall Q (padding n)) as Hp.
  { intros n. unfold padding. destruct (padded e); [|constructor]. induction n; simpl; auto. }
  revert Hl. induction l as [|a|a b|a b c l IH] using triples_ind; intros Hl; unfold is_byte in Hl;
    repeat (rewrite Forall_cons in Hl); destruct_and?; cbn [encode]; repeat constructor; auto;
    apply He; Z.div_mod_to_equations; lia.
Qed.

Lemma decode_encode l : Forall is_byte l → decode (encode l) = Some l.
Proof.
  induction l as [|a|a b|a b c l IH] using triples_ind; intros Hl; unfold is_byte in Hl;
    repeat (rewrite Forall_cons in Hl); destruct_and?; cbn [encode]; [done| | |].
  - unfold padding. destruct (padded e) eqn:Hp; cbn [repeat app decode]; rewrite ?Hp;
      rewrite !dec_of_enc by (Z.div_mod_to_equations; lia); cbn [mbind option_bind];
      rewrite ?dec_pad, ?is_pad_pad_char by done; rewrite ?bool_decide_eq_true_2 by done; cbn [andb];
      do 2 f_equal; Z.div_mod_to_equations; lia.
  - unfold padding. destruct (padded e) eqn:Hp; cbn [repeat app decode]; rewrite ?Hp;
      rewrite !dec_of_enc by (Z.div_mod_to_equations; lia); cbn [mbind option_bind];
      rewrite ?dec_pad, ?is_pad_pad_char by done; rewrite ?bool_decide_eq_true_2 by done; cbn [andb];
      repeat f_equal; Z.div_mod_to_equations; lia.
  - cbn [decode]. rewrite !dec_of_enc by (Z.div_mod_to_equations; lia). cbn [mbind option_bind].
    rewrite IH by done. cbn [mbind option_bind]. repeat f_equal; Z.div_mod_to_equations; lia.
Qed.

Lemma DecodeString_encode l : Forall is_byte l → DecodeString (EncodeToString l) = Some l.
Proof.
  intros Hl. unfold DecodeString, EncodeToString.
  assert (Forall (λ c, is_break c = false) (encode l)).
  { apply encode_Forall; [|done|done]. intros v Hv. by apply dec_enc. }
  rewrite String.list_ascii_of_string_of_list_ascii.
  rewrite filter_all, decode_encode by done. done.
Qed.
End base64.

Lemma encodings_ok : Forall (λ e, enc_ok e = true) encodings.
Proof. repeat constructor. Qed.

(** Every encoding the code uses decodes what it encodes. *)
Lemma base64_roundtrip e l : e ∈ encodings → Forall is_byte l → DecodeString e (EncodeToString e l) = Some l.
Proof. intros He. apply DecodeString_encode. by eapply Forall_forall in He; [|apply encodings_ok]. Qed.

(** The separator of a compact serialization is in no encoded text. *)
Lemma RawURLEncoding_no_dot l :
  Forall is_byte l → Forall (λ c, c ≠ char_of 46) (encode RawURLEncoding l).
Proof.
  apply encode_Forall; [|done]. intros v Hv.
  assert (forallb (λ n, negb (Ascii.eqb (enc RawURLEncoding (Z.of_nat n)) (char_of 46))) (seq 0 64) = true) as H
    by reflexivity.
  rewrite forallb_forall in H. specialize (H (Z.to_nat v) ltac:(apply in_seq; lia)).
  rewrite Z2Nat.id in H by lia. apply negb_true_iff, Ascii.eqb_neq in H. done.
Qed.

(** The test vectors of RFC 4648. *)
Example base64_vectors :
  EncodeToString StdEncoding (string_bytes "foobar") = "Zm9vYmFy" ∧
  EncodeToString StdEncoding (string_bytes "fooba") = "Zm9vYmE=" ∧
  EncodeToString StdEncoding (string_bytes "foob") = "Zm9vYg==" ∧
  EncodeToString RawURLEncoding (string_bytes "foob") = "Zm9vYg" ∧
  DecodeString StdEncoding "Zm9vYg==" = Some (string_bytes "foob") ∧
  DecodeString StdEncoding "Zm9vYg" = None ∧ DecodeString RawURLEncoding "Zm9vYg==" = None.
Proof. vm_compute. split_and!; reflexivity. Qed.
