(* ===== verification/GT06.v ===== *)
(** * The GT06/Concox tracker connector

    [internal/connectors/gt06.go]: frame hunting and verification, the X.25
    CRC, the GPS payload decoder, the acknowledgement frame, the IMEI token and
    the per-connection loop.  A byte is a [Z] in 0..255. *)
From S2P Require Import Prelude Types Dedup.

Definition gt06StartByte : Z := 0x78.
Definition gt06ProtoLogin : Z := 0x01.
Definition gt06ProtoGPS : Z := 0x12.
Definition gt06ProtoHeartbeat : Z := 0x13.
Definition gt06ProtoGPSLBS : Z := 0x16.

(** ** The CRC *)

Definition crc_bit (crc : Z) : Z :=
  if negb (Z.land crc 1 =? 0) then Z.lxor (Z.shiftr crc 1) 0x8408 else Z.shiftr crc 1.
(** The inner loop of eight iterations. *)
Definition crc_byte (crc value : Z) : Z := Nat.iter 8 crc_bit (Z.lxor crc value).
(** [^crc] on a uint16 flips its sixteen bits. *)
Definition crc16X25 (data : list Z) : Z := Z.lxor 0xFFFF (fold_left crc_byte data 0xFFFF).

(** ** Slices

    A Go slice sees [s_vis]; its backing array goes on with [s_hid].  Indexing
    checks the length, but a slice expression may reach up to the capacity. *)
Record slice := mkSlice { s_vis : list Z; s_hid : list Z }.
Definition slice_len (s : slice) : nat := length (s_vis s).
(** [s[i]]; [None] is the run-time panic. *)
Definition slice_index (s : slice) (i : nat) : option Z := s_vis s !! i.
(** [s[lo:hi]], read as the bytes it shows. *)
Definition slice_range (s : slice) (lo hi : nat) : option (list Z) :=
  if (hi <=? length (s_vis s) + length (s_hid s))%nat
  then Some (take (hi - lo) (drop lo (s_vis s ++ s_hid s))) else None.
(** [s[lo:]]. *)
Definition slice_from (s : slice) (lo : nat) : option slice :=
  if (lo <=? slice_len s)%nat then Some (mkSlice (drop lo (s_vis s)) (s_hid s)) else None.

(** ** Frames *)

Record gt06Frame := mkFrame { protocol : Z; payload : slice; serial : Z }.

Inductive frame_error :=
| FrameEOF
| FrameUnexpectedEOF
| FrameLengthOutOfRange
| FrameStopBytes
| FrameCRC (want got : Z).

(** Hunting for the two start bytes: what follows them. *)
Fixpoint hunt (bs : list Z) : option (list Z) :=
  match bs with
  | [] => None
  | first :: rest =>
      if first =? gt06StartByte then
        match rest with
        | [] => None
        | second :: rest' => if second =? gt06StartByte then Some rest' else hunt rest
        end
      else hunt rest
  end.

(** [io.ReadFull]: no byte is EOF, some bytes an unexpected EOF. *)
Definition read_full (n : nat) (bs : list Z) : result frame_error (list Z * list Z) :=
  if (n <=? length bs)%nat then Ok (take n bs, drop n bs)
  else if Nat.eqb (length bs) 0 then Err FrameEOF else Err FrameUnexpectedEOF.

(** One verified frame and the unread bytes. *)
Definition readGT06Frame (bs : list Z) : result frame_error (gt06Frame * list Z) :=
  match hunt bs with
  | None => Err FrameEOF
  | Some [] => Err FrameEOF
  | Some (len :: bs1) =>
      if (len <? 5) || (128 <? len) then Err FrameLengthOutOfRange
      else
        '(body, bs2) ← read_full (Z.to_nat len) bs1;
        '(stop, bs3) ← read_full 2 bs2;
        if negb (bool_decide (stop = [0x0D; 0x0A])) then Err FrameStopBytes
        else
          let n := Z.to_nat len in
          let expected := crc16X25 (len :: take (n - 2) body) in
          let actual := be_value (drop (n - 2) body) in
          if negb (expected =? actual) then Err (FrameCRC expected actual)
          else Ok (mkFrame (default 0 (head body))
                     (mkSlice (take (n - 5) (drop 1 body)) (drop (n - 4) body))
                     (be_value (take 2 (drop (n - 4) body))), bs3)
  end.

(** The acknowledgement. *)
Definition writeGT06Reply (proto ser : Z) : list Z :=
  let length_ := 5 in
  let body := [proto; Z.shiftr ser 8 mod 256; ser mod 256] in
  let crc := crc16X25 (length_ :: body) in
  [gt06StartByte; gt06StartByte; length_] ++ body
  ++ [Z.shiftr crc 8 mod 256; crc mod 256; 0x0D; 0x0A].

(** ** The GPS payload *)

Record gt06GPSPayload := mkGPS {
  observedAt : Z;
  latitudeMicros : Z;
  longitudeMicros : Z;
  speedMilliknots : Z;
  courseMillidegrees : Z;
}.

(** The decoder returns a fix or an error, or panics. *)
Inductive gps_outcome :=
| GPSFix (fix_ : gt06GPSPayload)
| GPSError
| GPSPanic.

(** The 0x16 frame skips a length-prefixed LBS block when plausible. *)
Definition skip_lbs (proto : Z) (p : slice) : option slice :=
  if proto =? gt06ProtoGPSLBS then
    match slice_index p 0 with
    | None => None
    | Some lbs =>
        if (0 <? lbs) && (lbs + 1 <? Z.of_nat (slice_len p))
        then slice_from p (Z.to_nat (1 + lbs)) else Some p
    end
  else Some p.

(** The coordinate scaling: raw 1/30000-minute units to micro-degrees. *)
Definition scale_raw (raw : Z) : Z := Z.quot (raw * 1000000) 1800000.

Definition parseGT06GPS (frame : gt06Frame) : gps_outcome :=
  match skip_lbs (protocol frame) (payload frame) with
  | None => GPSError
  | Some p =>
      if (slice_len p <? 14)%nat then GPSError
      else
        match take 6 (s_vis p) with
        | [yy; month; day; hr; minute; sec] =>
            if (month <? 1) || (12 <? month) || (day <? 1) || (31 <? day) || (23 <? hr)
               || (59 <? minute) || (60 <? sec) then GPSError
            else
              match slice_range p 7 11, slice_range p 11 15, slice_index p 15, slice_range p 16 18 with
              | Some latRaw, Some lonRaw, Some speed, Some cs =>
                  let courseStatus := be_value cs in
                  let lat := scale_raw (be_value latRaw) in
                  let lon := scale_raw (be_value lonRaw) in
                  let lat := if negb (Z.land courseStatus (Z.shiftl 1 11) =? 0) then - lat else lat in
                  let lon := if Z.land courseStatus (Z.shiftl 1 12) =? 0 then - lon else lon in
                  GPSFix (mkGPS (time_Date_at (2000 + yy) month day hr minute sec)
                            (int32 lat) (int32 lon) (speed * 1000)
                            (Z.land courseStatus 0x03FF * 1000))
              | _, _, _, _ => GPSPanic
              end
        | _ => GPSError
        end
  end.

(** ** The IMEI token *)

Definition imei_digits (bcd : list Z) : list Z :=
  concat ((λ b, [(48 + Z.shiftr b 4) mod 256; (48 + Z.land b 0x0F) mod 256]) <$> bcd).
(** FNV-1a, in uint32 arithmetic. *)
Definition fnv1a (digits : list Z) : Z :=
  fold_left (λ hash digit, uint32 (Z.lxor hash digit * 16777619)) digits 2166136261.
(** [fmt.Sprintf("%08x", hash)]. *)
Definition tokenizeIMEI (bcd : list Z) : string := hex_encode (be_bytes 4 (fnv1a (imei_digits bcd))).

(** ** The connection loop *)

Inductive gt06_metric :=
| FrameErrors | Frames (proto : Z) | Unregistered | PipelineErrors | Unsupported.

(** What a connection does, in order. *)
Inductive gt06_action :=
| ActMetric (m : gt06_metric)
| ActReply (bytes : list Z)
| ActIngest (p : IngestPosition).

Inductive gt06_exit := ExitEOF | ExitFrameError | ExitShortLogin | ExitPanic.

Section serve.
Context (sha256 : list Z → list Z).
(** The shared pipeline: [HandlePosition] on its state; [true] is an error. *)
Context {P : Type} (HandlePosition : P → IngestPosition → P * bool).
(** ["gt06-" + sanitizeReceiver(remote address)]. *)
Context (receiver : string).

Definition gt06_ingest (vesselRef : string) (gps : gt06GPSPayload) : IngestPosition :=
  mkIngest
    (mkPosition "" "" vesselRef SourceGSMTracker (latitudeMicros gps) (longitudeMicros gps)
       (Some (speedMilliknots gps)) (Some (courseMillidegrees gps)) None None
       AccuracyUnspecified receiver None "" "" "" "PUBLIC" (observedAt gps))
    (dedupKey sha256 ("vref:" +:+ vesselRef) 0 (latitudeMicros gps) (longitudeMicros gps)
       (speedMilliknots gps) (courseMillidegrees gps) (observedAt gps)).

(** One frame: the new session reference and pipeline state and the actions,
    or the end of the connection. *)
Definition handle_frame (vesselRef : string) (p : P) (frame : gt06Frame) :
  string * P * list gt06_action * option gt06_exit :=
  let counted := ActMetric (Frames (protocol frame)) in
  if protocol frame =? gt06ProtoLogin then
    if (slice_len (payload frame) <? 8)%nat
    then (vesselRef, p, [counted; ActMetric FrameErrors], Some ExitShortLogin)
    else ("trk-" +:+ tokenizeIMEI (take 8 (s_vis (payload frame))), p,
          [counted; ActReply (writeGT06Reply gt06ProtoLogin (serial frame))], None)
  else if protocol frame =? gt06ProtoHeartbeat then
    (vesselRef, p, [counted; ActReply (writeGT06Reply gt06ProtoHeartbeat (serial frame))], None)
  else if (protocol frame =? gt06ProtoGPS) || (protocol frame =? gt06ProtoGPSLBS) then
    match parseGT06GPS frame with
    | GPSPanic => (vesselRef, p, [counted], Some ExitPanic)
    | GPSError => (vesselRef, p, [counted; ActMetric FrameErrors], None)
    | GPSFix gps =>
        if String.eqb vesselRef "" then
          (vesselRef, p, [counted; ActMetric Unregistered], None)
        else
          let ingest := gt06_ingest vesselRef gps in
          let '(p', failed) := HandlePosition p ingest in
          (vesselRef, p',
           if failed : bool then [counted; ActIngest ingest; ActMetric PipelineErrors]
           else [counted; ActIngest ingest; ActReply (writeGT06Reply (protocol frame) (serial frame))],
           None)
    end
  else (vesselRef, p, [counted; ActMetric Unsupported], None).

(** The loop over the connection's bytes.  Every frame consumes bytes, so a
    fuel above the length of the input is never exhausted. *)
Fixpoint serve_loop (fuel : nat) (vesselRef : string) (p : P) (bs : list Z) :
  P * list gt06_action * option gt06_exit :=
  match fuel with
  | O => (p, [], None)
  | S n =>
      match readGT06Frame bs with
      | Err FrameEOF => (p, [], Some ExitEOF)
      | Err _ => (p, [ActMetric FrameErrors], Some ExitFrameError)
      | Ok (frame, rest) =>
          let '(vesselRef', p', acts, stop) := handle_frame vesselRef p frame in
          match stop with
          | Some e => (p', acts, Some e)
          | None =>
              let '(p'', acts', e) := serve_loop n vesselRef' p' rest in
              (p'', acts ++ acts', e)
          end
      end
  end.

Definition serve (p : P) (bs : list Z) : P * list gt06_action * option gt06_exit :=
  serve_loop (S (length bs)) "" p bs.
End serve.

(** The CRC of a frame of the vendor documentation (login reply 05 01 00 01). *)
Example crc_example : crc16X25 [0x05; 0x01; 0x00; 0x01] = 0xD9DC.
Proof. vm_compute. reflexivity. Qed.
