(* ===== verification/GT06Props.v ===== *)
(** * Properties of the tracker connector

    Frame round trip and resynchronization, single-byte error detection, the
    decoder's bounds and its panics, and the session discipline of the loop. *)
From S2P Require Import Prelude Types Dedup GT06.

(** ** Sixteen-bit arithmetic *)

Definition is_u16 (z : Z) : Prop := 0 ≤ z < 2 ^ 16.

Lemma testbit_high n x i : 0 ≤ x < 2 ^ n → 0 ≤ n ≤ i → Z.testbit x i = false.
Proof.
  intros Hx Hi. destruct (decide (x = 0)) as [->|]; [apply Z.testbit_0_l|].
  apply Z.bits_above_log2; [lia|]. assert (Z.log2 x < n) by (apply Z.log2_lt_pow2; lia). lia.
Qed.

Lemma below_pow2 n x : 0 ≤ n → 0 ≤ x → (∀ i, n ≤ i → Z.testbit x i = false) → x < 2 ^ n.
Proof.
  intros Hn Hx Hb. destruct (decide (x = 0)) as [->|]; [lia|].
  destruct (decide (x < 2 ^ n)); [done|].
  assert (n ≤ Z.log2 x) as Hl by (apply Z.log2_le_pow2; lia).
  specialize (Hb _ Hl). rewrite Z.bit_log2 in Hb by lia. done.
Qed.

Lemma lxor_u16 a b : is_u16 a → is_u16 b → is_u16 (Z.lxor a b).
Proof.
  unfold is_u16. intros Ha Hb. split; [by apply Z.lxor_nonneg; lia|].
  apply below_pow2; [lia|apply Z.lxor_nonneg; lia|]. intros i Hi.
  by rewrite Z.lxor_spec, !(testbit_high 16) by lia.
Qed.

Lemma shiftr1_u16 a : is_u16 a → 0 ≤ Z.shiftr a 1 < 2 ^ 15.
Proof.
  unfold is_u16. rewrite Z.shiftr_div_pow2 by lia. intros.
  split; [apply Z.div_pos; lia|apply Z.div_lt_upper_bound; lia].
Qed.

Lemma land1_odd a : negb (Z.land a 1 =? 0) = Z.odd a.
Proof.
  change 1 with (Z.ones 1). rewrite Z.land_ones by lia. change (2 ^ 1) with 2.
  rewrite Zmod_odd. by destruct (Z.odd a).
Qed.

Lemma crc_bit_u16 a : is_u16 a → is_u16 (crc_bit a).
Proof.
  intros Ha. apply shiftr1_u16 in Ha. unfold crc_bit.
  case_match; [apply lxor_u16|]; unfold is_u16; lia.
Qed.

(** The bit shifted out is recovered from the top bit, which 0x8408 sets. *)
Definition crc_unbit (y : Z) : Z :=
  if Z.testbit y 15 then 2 * Z.lxor y 0x8408 + 1 else 2 * y.

Lemma crc_unbit_bit x : is_u16 x → crc_unbit (crc_bit x) = x.
Proof.
  intros Hx. pose proof (shiftr1_u16 x Hx) as Hs. unfold crc_bit. rewrite land1_odd.
  pose proof (Z.div2_odd x) as Hd. rewrite Z.div2_spec in Hd. unfold crc_unbit.
  destruct (Z.odd x); simpl in Hd.
  - rewrite Z.lxor_spec, (testbit_high 15) by lia. simpl.
    rewrite Z.lxor_assoc, Z.lxor_nilpotent, Z.lxor_0_r. lia.
  - rewrite (testbit_high 15) by lia. lia.
Qed.

Lemma crc_bit_inj x y : is_u16 x → is_u16 y → crc_bit x = crc_bit y → x = y.
Proof. intros Hx Hy H. by rewrite <- (crc_unbit_bit x), H, crc_unbit_bit. Qed.

Lemma crc_iter_u16 n a : is_u16 a → is_u16 (Nat.iter n crc_bit a).
Proof. intros Ha. induction n; simpl; [done|by apply crc_bit_u16]. Qed.

Lemma crc_iter_inj n x y :
  is_u16 x → is_u16 y → Nat.iter n crc_bit x = Nat.iter n crc_bit y → x = y.
Proof.
  intros Hx Hy. induction n as [|n IH]; simpl; [done|].
  intros H. apply IH, crc_bit_inj; [by apply crc_iter_u16..|done].
Qed.

Lemma byte_u16 v : is_byte v → is_u16 v.
Proof. unfold is_byte, is_u16. lia. Qed.

Lemma crc_byte_u16 s v : is_u16 s → is_byte v → is_u16 (crc_byte s v).
Proof. intros. apply crc_iter_u16, lxor_u16; [done|by apply byte_u16]. Qed.

Lemma lxor_inj_r a b c : Z.lxor a b = Z.lxor a c → b = c.
Proof.
  intros H. apply (f_equal (Z.lxor a)) in H.
  by rewrite <- !Z.lxor_assoc, !Z.lxor_nilpotent, !Z.lxor_0_l in H.
Qed.

Lemma crc_byte_inj_state s1 s2 v :
  is_u16 s1 → is_u16 s2 → is_byte v → crc_byte s1 v = crc_byte s2 v → s1 = s2.
Proof.
  intros H1 H2 Hv H. apply byte_u16 in Hv.
  apply crc_iter_inj in H; [|by apply lxor_u16..].
  rewrite (Z.lxor_comm s1), (Z.lxor_comm s2) in H. by apply lxor_inj_r in H.
Qed.

Lemma crc_byte_inj_value s v1 v2 :
  is_u16 s → is_byte v1 → is_byte v2 → crc_byte s v1 = crc_byte s v2 → v1 = v2.
Proof.
  intros Hs H1%byte_u16 H2%byte_u16 H.
  apply crc_iter_inj in H; [|by apply lxor_u16..]. by apply lxor_inj_r in H.
Qed.

Lemma crc_fold_u16 data s : is_u16 s → Forall is_byte data → is_u16 (fold_left crc_byte data s).
Proof.
  intros Hs Hd. revert s Hs. induction Hd; intros s Hs; simpl; [done|].
  by apply IHHd, crc_byte_u16.
Qed.

Lemma crc_fold_inj data s1 s2 :
  is_u16 s1 → is_u16 s2 → Forall is_byte data →
  fold_left crc_byte data s1 = fold_left crc_byte data s2 → s1 = s2.
Proof.
  intros H1 H2 Hd. revert s1 s2 H1 H2. induction Hd as [|v data Hv Hd IH]; intros s1 s2 H1 H2; simpl; [done|].
  intros H. apply IH in H; [|by apply crc_byte_u16..]. by apply crc_byte_inj_state in H.
Qed.

Lemma crc16X25_u16 data : Forall is_byte data → is_u16 (crc16X25 data).
Proof.
  intros Hd. apply lxor_u16; [unfold is_u16; lia|].
  apply crc_fold_u16; [unfold is_u16; lia|done].
Qed.

(** Changing one byte changes the CRC. *)
Lemma crc16X25_single pre post v1 v2 :
  Forall is_byte pre → Forall is_byte post → is_byte v1 → is_byte v2 →
  crc16X25 (pre ++ v1 :: post) = crc16X25 (pre ++ v2 :: post) → v1 = v2.
Proof.
  intros Hpre Hpost H1 H2 H. unfold crc16X25 in H. apply lxor_inj_r in H. rewrite !fold_left_app in H. simpl in H.
  assert (is_u16 (fold_left crc_byte pre 0xFFFF)) by (apply crc_fold_u16; [unfold is_u16; lia|done]).
  apply crc_fold_inj in H; [|by apply crc_byte_u16..|done]. by apply crc_byte_inj_value in H.
Qed.

(** ** Frames *)

(** The frame of protocol [p] with the given payload and serial number. *)
Definition frame_body (p : Z) (pay : list Z) (s : Z) : list Z := p :: pay ++ be_bytes 2 s.
Definition frame_len (pay : list Z) : Z := Z.of_nat (length pay) + 5.
Definition frame_crc (p : Z) (pay : list Z) (s : Z) : Z := crc16X25 (frame_len pay :: frame_body p pay s).
Definition encode_frame (p : Z) (pay : list Z) (s : Z) : list Z :=
  [gt06StartByte; gt06StartByte; frame_len pay] ++ frame_body p pay s
  ++ be_bytes 2 (frame_crc p pay s) ++ [0x0D; 0x0A].

Lemma length_frame_body p pay s : length (frame_body p pay s) = (length pay + 3)%nat.
Proof. unfold frame_body. rewrite length_cons, length_app, length_be_bytes. lia. Qed.

Lemma hunt_noise noise bs :
  gt06StartByte ∉ noise → hunt (noise ++ gt06StartByte :: gt06StartByte :: bs) = Some bs.
Proof.
  induction noise as [|b noise IH]; intros Hn; simpl; [done|].
  apply not_elem_of_cons in Hn as [Hb Hn]. rewrite (proj2 (Z.eqb_neq _ _)) by congruence. by apply IH.
Qed.

Lemma read_full_app l1 l2 n : length l1 = n → read_full n (l1 ++ l2) = Ok (l1, l2).
Proof.
  intros <-. unfold read_full. rewrite (proj2 (Nat.leb_le _ _)) by (rewrite length_app; lia).
  by rewrite take_app_length, drop_app_length.
Qed.

(** What the reader does with a length byte, that many body bytes and the
    stop bytes. *)
Lemma read_body n body crc rest :
  length crc = 2%nat → Z.of_nat (length body) + 2 = n → 5 ≤ n ≤ 128 →
  ∀ noise, gt06StartByte ∉ noise →
  readGT06Frame (noise ++ [gt06StartByte; gt06StartByte; n] ++ body ++ crc ++ [0x0D; 0x0A] ++ rest) =
  if crc16X25 (n :: body) =? be_value crc
  then Ok (mkFrame (default 0 (head body))
             (mkSlice (take (length body - 3) (drop 1 body)) (drop (length body - 2) (body ++ crc)))
             (be_value (drop (length body - 2) body)), rest)
  else Err (FrameCRC (crc16X25 (n :: body)) (be_value crc)).
Proof.
  intros Hcrc Hn Hb noise Hnoise. unfold readGT06Frame. simpl app. rewrite hunt_noise by done.
  rewrite (proj2 (Z.ltb_ge n 5)), (proj2 (Z.ltb_ge 128 n)) by lia. simpl orb. cbv iota.
  assert (Hl : length (body ++ crc) = Z.to_nat n) by (rewrite length_app; lia).
  assert (Hn2 : (Z.to_nat n - 2 = length body)%nat) by lia.
  rewrite (app_assoc body crc). rewrite (read_full_app (body ++ crc)) by done.
  cbn [mbind result_bind]. change (13 :: 10 :: rest) with ([13; 10] ++ rest).
  rewrite (read_full_app [13; 10]) by done. cbn [mbind result_bind].
  rewrite Hn2, take_app_length, drop_app_length. cbn [negb bool_decide].
  assert (Hlen : (3 ≤ length body)%nat) by lia. clear Hl.
  destruct (crc16X25 (n :: body) =? be_value crc); [|done]. cbn [negb].
  replace (Z.to_nat n - 5)%nat with (length body - 3)%nat by lia.
  replace (Z.to_nat n - 4)%nat with (length body - 2)%nat by lia.
  rewrite (drop_app_le body crc 1), (take_app_le (drop 1 body)) by (rewrite ?length_drop; lia).
  rewrite (drop_app_le body crc) by lia. rewrite take_app_length' by (rewrite length_drop; lia).
  destruct body; [simpl in Hlen; lia|]. done.
Qed.

(** C37: A frame written as the protocol says is read back: the bytes
    before it without a start byte are skipped, protocol, payload and serial
    number are returned, and the reader stops right after the stop bytes. *)
Theorem frame_roundtrip (noise rest pay : list Z) (p s : Z)
  (Hnoise : gt06StartByte ∉ noise) (Hp : is_byte p) (Hpay : Forall is_byte pay)
  (Hlen : (length pay ≤ 123)%nat) (Hs : 0 ≤ s < 65536) :
  ∃ hid, readGT06Frame (noise ++ encode_frame p pay s ++ rest) = Ok (mkFrame p (mkSlice pay hid) s, rest).
Proof.
  pose proof (length_frame_body p pay s) as Hb.
  exists (drop (length (frame_body p pay s) - 2) (frame_body p pay s ++ be_bytes 2 (frame_crc p pay s))).
  unfold encode_frame. rewrite <- !app_assoc.
  rewrite (read_body (frame_len pay)) by (unfold frame_len; first [done|lia]).
  fold (frame_crc p pay s). rewrite be_value_bytes, Z.mod_small.
  - rewrite Z.eqb_refl. f_equal. f_equal. f_equal.
    + f_equal. rewrite Hb. unfold frame_body.
      replace (length pay + 3 - 3)%nat with (length pay) by lia.
      rewrite skipn_cons, drop_0. by rewrite take_app_length.
    + rewrite Hb. unfold frame_body. replace (length pay + 3 - 2)%nat with (S (length pay)) by lia.
      rewrite skipn_cons, drop_app_length, be_value_bytes, Z.mod_small; [done|simpl; lia].
  - apply crc16X25_u16. repeat constructor; [unfold frame_len; lia|unfold frame_len; lia|apply Hp|apply Hp|].
    rewrite Forall_app. split; [done|apply be_bytes_is_byte].
Qed.

Lemma frame_roundtrip_witness :
  ∃ hid, readGT06Frame ([0xFF; 0x01] ++ encode_frame 0x01 [1;2;3;4;5;6;7;8] 258 ++ [0x78]) =
         Ok (mkFrame 0x01 (mkSlice [1;2;3;4;5;6;7;8] hid) 258, [0x78]).
Proof.
  apply (frame_roundtrip [0xFF; 0x01] [0x78] [1;2;3;4;5;6;7;8] 0x01 258).
  - apply not_elem_of_cons. split; [discriminate|]. apply not_elem_of_cons. split; [discriminate|].
    apply not_elem_of_nil.
  - unfold is_byte; lia.
  - repeat constructor; discriminate.
  - simpl. lia.
  - lia.
Defined.

Lemma be_bytes_2 s : be_bytes 2 s = [Z.shiftr s 8 mod 256; s mod 256].
Proof. by rewrite Z.shiftr_div_pow2 by lia. Qed.

(** The acknowledgement is a frame with an empty payload. *)
Lemma writeGT06Reply_frame p s : writeGT06Reply p s = encode_frame p [] s.
Proof.
  unfold writeGT06Reply, encode_frame, frame_crc, frame_body, frame_len. by rewrite !be_bytes_2.
Qed.

Lemma frame_bytes p pay s :
  is_byte p → Forall is_byte pay → (length pay ≤ 123)%nat →
  Forall is_byte (frame_len pay :: frame_body p pay s).
Proof.
  intros Hp Hpay Hlen. repeat constructor; [unfold frame_len; lia|unfold frame_len; lia|apply Hp|apply Hp|].
  rewrite Forall_app. split; [done|apply be_bytes_is_byte].
Qed.

Lemma crc16X25_insert l i v :
  Forall is_byte l → is_byte v → (i < length l)%nat → l !! i ≠ Some v →
  crc16X25 (<[i := v]> l) ≠ crc16X25 l.
Proof.
  intros Hl Hv Hi Hne Heq. destruct (lookup_lt_is_Some_2 l i Hi) as [w Hw].
  rewrite <- (take_drop_middle l i w Hw) in Heq at 2. rewrite insert_take_drop in Heq by done.
  apply crc16X25_single in Heq; [congruence|by apply Forall_take|by apply Forall_drop|done|].
  by eapply Forall_lookup_1.
Qed.

Lemma be_value_2_inj l1 l2 :
  length l1 = 2%nat → length l2 = 2%nat → Forall is_byte l1 → Forall is_byte l2 →
  be_value l1 = be_value l2 → l1 = l2.
Proof.
  intros H1 H2 Hb1 Hb2 H. by rewrite <- (be_bytes_value 2 l1), H, be_bytes_value.
Qed.

Lemma read_body_bad n body crc rest :
  length crc = 2%nat → Z.of_nat (length body) + 2 = n → 5 ≤ n ≤ 128 →
  crc16X25 (n :: body) ≠ be_value crc →
  ∃ want got, readGT06Frame ([gt06StartByte; gt06StartByte; n] ++ (body ++ crc) ++ [0x0D; 0x0A] ++ rest)
              = Err (FrameCRC want got).
Proof.
  intros Hc Hn Hb Hne. rewrite <- (app_assoc body).
  pose proof (read_body n body crc rest Hc Hn Hb [] (not_elem_of_nil _)) as Hr.
  rewrite app_nil_l in Hr. rewrite Hr, (proj2 (Z.eqb_neq _ _)) by done. eauto.
Qed.

Lemma corrupted_crc n body crc j v rest :
  Z.of_nat (length body) + 2 = n → 5 ≤ n ≤ 128 → Forall is_byte body →
  crc = be_bytes 2 (crc16X25 (n :: body)) →
  is_byte v → (j < length (body ++ crc))%nat → (body ++ crc) !! j ≠ Some v →
  ∃ want got, readGT06Frame ([gt06StartByte; gt06StartByte; n] ++ <[j := v]> (body ++ crc) ++ [0x0D; 0x0A] ++ rest)
              = Err (FrameCRC want got).
Proof.
  intros Hn Hb Hbody Hcrc Hv Hj Hne.
  assert (Hc2 : length crc = 2%nat) by (by rewrite Hcrc, length_be_bytes).
  assert (Hall : Forall is_byte (n :: body)) by (constructor; [unfold is_byte; lia|done]).
  assert (Hval : be_value crc = crc16X25 (n :: body)).
  { rewrite Hcrc, be_value_bytes. apply Z.mod_small, (crc16X25_u16 _ Hall). }
  destruct (decide (j < length body)%nat) as [Hlt|Hge].
  - rewrite insert_app_l by done. rewrite lookup_app_l in Hne by done.
    apply read_body_bad; rewrite ?length_insert; try done. rewrite Hval.
    apply (crc16X25_insert (n :: body) (S j) v); [done|done|simpl; lia|done].
  - rewrite insert_app_r_alt by lia. rewrite lookup_app_r in Hne by lia.
    rewrite length_app in Hj.
    apply read_body_bad; rewrite ?length_insert; try done. rewrite <- Hval. intros Heq.
    apply be_value_2_inj in Heq; rewrite ?length_insert; try done.
    + destruct Hne. rewrite Heq at 1. apply list_lookup_insert_eq. lia.
    + rewrite Hcrc. apply be_bytes_is_byte.
    + apply Forall_insert; [rewrite Hcrc; apply be_bytes_is_byte|done].
Qed.

(** The checksum catches every single-byte corruption: replacing any one
    byte of protocol, payload, serial number or CRC of a frame makes the reader
    refuse it with a CRC error, whatever follows. *)
Theorem frame_corruption_detected (pay rest : list Z) (p s v : Z) (i : nat)
  (Hp : is_byte p) (Hpay : Forall is_byte pay) (Hlen : (length pay ≤ 123)%nat)
  (Hv : is_byte v) (Hi : (3 ≤ i < length pay + 8)%nat)
  (Hne : encode_frame p pay s !! i ≠ Some v) :
  ∃ want got, readGT06Frame (<[i := v]> (encode_frame p pay s) ++ rest) = Err (FrameCRC want got).
Proof.
  pose proof (length_frame_body p pay s) as Hb. unfold encode_frame in *.
  rewrite (app_assoc (frame_body p pay s)) in *.
  assert (Hbl : length (frame_body p pay s ++ be_bytes 2 (frame_crc p pay s)) = (length pay + 5)%nat)
    by (rewrite length_app, length_be_bytes; lia).
  rewrite lookup_app_r, lookup_app_l in Hne by (rewrite ?Hbl; cbn [length]; lia).
  rewrite insert_app_r_alt, insert_app_l by (rewrite ?Hbl; cbn [length]; lia). rewrite <- !app_assoc.
  pose proof (frame_bytes p pay s Hp Hpay Hlen) as [_ Hbytes]%Forall_cons.
  apply corrupted_crc; rewrite ?Hbl; cbn [length]; unfold frame_len; first [done|lia].
Qed.

Lemma frame_corruption_detected_witness :
  ∃ want got, readGT06Frame (<[4%nat := 9]> (encode_frame 0x01 [1;2;3;4;5;6;7;8] 258) ++ []) =
              Err (FrameCRC want got).
Proof.
  apply (frame_corruption_detected [1;2;3;4;5;6;7;8] [] 0x01 258 9 4).
  - unfold is_byte; lia.
  - repeat constructor; discriminate.
  - simpl. lia.
  - unfold is_byte; lia.
  - simpl. lia.
  - vm_compute. discriminate.
Defined.

(** ** The GPS decoder *)

Lemma read_full_Ok n bs l rest :
  read_full n bs = Ok (l, rest) → bs = l ++ rest ∧ length l = n.
Proof.
  unfold read_full. destruct (n <=? length bs)%nat eqn:E; [|by destruct (Nat.eqb _ _)].
  intros [= <- <-]. apply Nat.leb_le in E. rewrite take_drop, length_take. split; [done|lia].
Qed.

Lemma hunt_suffix bs rest : hunt bs = Some rest → (length rest < length bs)%nat.
Proof.
  induction bs as [|b bs IH]; [done|]. simpl. destruct (b =? gt06StartByte).
  - destruct bs as [|b2 bs]; [done|]. destruct (b2 =? gt06StartByte).
    + intros [= <-]. simpl. lia.
    + intros H%IH. simpl in *. lia.
  - intros H%IH. lia.
Qed.

(** A verified frame consumed bytes, and the backing array of its payload goes
    on with the serial number and the CRC. *)
Lemma readGT06Frame_Ok bs frame rest :
  readGT06Frame bs = Ok (frame, rest) →
  (length rest < length bs)%nat ∧ length (s_hid (payload frame)) = 4%nat.
Proof.
  unfold readGT06Frame. destruct (hunt bs) as [[|n bs1]|] eqn:Hh; [done| |done].
  apply hunt_suffix in Hh. destruct ((n <? 5) || (128 <? n)) eqn:Hn; [done|].
  bool_to_prop. intros Hr. apply bind_Ok in Hr as ([body bs2] & Hb & Hr).
  apply bind_Ok in Hr as ([stop bs3] & Hs & Hr).
  apply read_full_Ok in Hb as [-> Hb], Hs as [-> Hs].
  destruct (negb (bool_decide _)); [done|]. destruct (negb _); [done|].
  injection Hr as <- <-. cbn [payload s_hid length] in *. rewrite length_drop.
  rewrite !length_app in Hh. lia.
Qed.

(** The datetime test of the decoder. *)
Definition datetime_ok (l : list Z) : bool :=
  match take 6 l with
  | [_; month; day; hr; minute; sec] =>
      negb ((month <? 1) || (12 <? month) || (day <? 1) || (31 <? day) || (23 <? hr)
            || (59 <? minute) || (60 <? sec))
  | _ => false
  end.

Lemma skip_lbs_hid proto p p' : skip_lbs proto p = Some p' → s_hid p' = s_hid p.
Proof. unfold skip_lbs, slice_from. intros H. branches H. Qed.

Lemma datetime_ok_case (l : list Z) :
  (14 ≤ length l)%nat → ∃ yy mo d h mi s, take 6 l = [yy; mo; d; h; mi; s].
Proof.
  intros Hl. do 6 (destruct l as [|? l]; [simpl in Hl; lia|]). simpl. rewrite take_0. eauto 10.
Qed.

(** The decoder panics on exactly the frames whose GPS section holds 14
    or 15 bytes and a valid date: the length test admits them and the speed byte
    at index 15 is beyond the slice.  On every other frame it returns. *)
Theorem parse_panics_iff (bs rest : list Z) (frame : gt06Frame)
  (Hread : readGT06Frame bs = Ok (frame, rest)) :
  parseGT06GPS frame = GPSPanic ↔
  ∃ p, skip_lbs (protocol frame) (payload frame) = Some p ∧
       (slice_len p = 14%nat ∨ slice_len p = 15%nat) ∧ datetime_ok (s_vis p) = true.
Proof.
  apply readGT06Frame_Ok in Hread as [_ Hhid]. unfold parseGT06GPS.
  destruct (skip_lbs _ _) as [p|] eqn:Hp; [|naive_solver].
  assert (Hh4 : length (s_hid p) = 4%nat) by (by erewrite skip_lbs_hid). clear Hp Hhid.
  transitivity ((slice_len p = 14%nat ∨ slice_len p = 15%nat) ∧ datetime_ok (s_vis p) = true);
    [|naive_solver].
  unfold slice_range. rewrite Hh4. unfold slice_len in *.
  destruct (length (s_vis p) <? 14)%nat eqn:E14; [apply Nat.ltb_lt in E14; split; [done|lia]|].
  apply Nat.ltb_ge in E14. unfold datetime_ok.
  destruct (datetime_ok_case (s_vis p) E14) as (yy & mo & d & h & mi & s & ->).
  destruct (_ || (60 <? s)); [naive_solver|]. cbn [negb].
  rewrite !(proj2 (Nat.leb_le 11 _)), !(proj2 (Nat.leb_le 15 _)) by lia.
  destruct (slice_index p 15) as [sp|] eqn:E15.
  - apply lookup_lt_Some in E15. rewrite (proj2 (Nat.leb_le 18 _)) by lia. split; [done|lia].
  - apply lookup_ge_None in E15. split; [lia|done].
Qed.

(** A 0x12 frame whose payload is one full date, satellites, latitude and three
    bytes of longitude. *)
Definition short_gps : list Z := [26; 8; 29; 9; 14; 21; 12; 1; 2; 3; 4; 1; 2; 3].
Definition short_gps_stream : list Z := encode_frame gt06ProtoGPS short_gps 1.

Lemma parse_panics_iff_witness :
  ∃ frame, readGT06Frame short_gps_stream = Ok (frame, []) ∧
  (parseGT06GPS frame = GPSPanic ↔
   ∃ p, skip_lbs (protocol frame) (payload frame) = Some p ∧
        (slice_len p = 14%nat ∨ slice_len p = 15%nat) ∧ datetime_ok (s_vis p) = true).
Proof.
  eexists. split; [vm_compute; reflexivity|].
  apply (parse_panics_iff short_gps_stream []). vm_compute. reflexivity.
Defined.

(** Twenty-four bytes from a client that never logged in end the
    connection's goroutine with an index panic, which no handler recovers: the
    process crashes, whatever the pipeline does. *)
Theorem unauthenticated_frame_panics (sha256 : list Z → list Z) {P} (h : P → IngestPosition → P * bool)
  (receiver : string) (p : P) :
  serve sha256 h receiver p short_gps_stream = (p, [ActMetric (Frames gt06ProtoGPS)], Some ExitPanic).
Proof. vm_compute. reflexivity. Qed.

(** A single-bit mask tests the bit. *)
Lemma testbit_land_pow2 a i : 0 ≤ i → negb (Z.land a (2 ^ i) =? 0) = Z.testbit a i.
Proof.
  intros Hi. destruct (Z.testbit a i) eqn:E.
  - apply negb_true_iff, Z.eqb_neq. intros H. apply (f_equal (λ x, Z.testbit x i)) in H.
    by rewrite Z.land_spec, E, Z.pow2_bits_true, Z.testbit_0_l in H by done.
  - apply negb_false_iff, Z.eqb_eq, Z.bits_inj_0. intros j. rewrite Z.land_spec.
    destruct (decide (i = j)) as [<-|]; [by rewrite E|]. by rewrite Z.pow2_bits_false, andb_false_r.
Qed.

(** The four bytes of a slice are a 32-bit value. *)
Lemma be_value_bound l : Forall is_byte l → 0 ≤ be_value l < 256 ^ Z.of_nat (length l).
Proof.
  induction 1 as [|b l Hb Hl IH]; [simpl; lia|]. unfold is_byte in Hb.
  cbn [be_value length]. rewrite Nat2Z.inj_succ, Z.pow_succ_r by lia. nia.
Qed.

Lemma slice_range_bound p lo hi l :
  Forall is_byte (s_vis p) → Forall is_byte (s_hid p) → slice_range p lo hi = Some l →
  0 ≤ be_value l < 256 ^ Z.of_nat (hi - lo).
Proof.
  intros Hv Hh. unfold slice_range. case_match; [|done]. intros [= <-].
  set (l := take _ _). assert (Forall is_byte l) as Hl.
  { apply Forall_take, Forall_drop, Forall_app. done. }
  apply be_value_bound in Hl as [? Hlt]. split; [done|].
  eapply Z.lt_le_trans; [exact Hlt|]. apply Z.pow_le_mono_r; [lia|]. subst l. rewrite length_take. lia.
Qed.

(** [m] is the micro-degrees of [raw] units of 1/30000 minute, cut toward zero. *)
Definition micros_of (raw m : Z) : Prop := 1800000 * m ≤ raw * 1000000 < 1800000 * (m + 1).

Lemma scale_raw_spec raw : 0 ≤ raw → micros_of raw (scale_raw raw).
Proof.
  intros Hr. unfold scale_raw, micros_of. rewrite Z.quot_div_nonneg by lia.
  pose proof (Z.div_mod (raw * 1000000) 1800000). pose proof (Z.mod_pos_bound (raw * 1000000) 1800000). lia.
Qed.

(** The wrap-around of the int32 conversion never lands on the globe. *)
Lemma int32_scaled raw neg :
  0 ≤ raw < 2 ^ 32 → let v := if neg : bool then - scale_raw raw else scale_raw raw in
  - 180000000 ≤ int32 v ≤ 180000000 → int32 v = v ∧ micros_of raw (Z.abs v).
Proof.
  intros Hr v Hb. pose proof (scale_raw_spec raw (proj1 Hr)) as Hs. unfold micros_of in Hs.
  assert (Hv : int32 v = v); [|split; [done|]].
  - destruct (decide (is_int32 v)); [by apply int32_id|].
    unfold is_int32, int32 in *. exfalso. subst v.
    pose proof (Z.div_mod ((if neg then - scale_raw raw else scale_raw raw) + 2 ^ 31) (2 ^ 32)).
    pose proof (Z.mod_pos_bound ((if neg then - scale_raw raw else scale_raw raw) + 2 ^ 31) (2 ^ 32)).
    destruct neg; lia.
  - subst v. unfold micros_of. destruct neg; lia.
Qed.

(** A decoded fix that lies on the globe is accurate: when the decoded
    latitude and longitude are within 180 degrees, no int32 conversion wrapped
    (although the raw fields are full 32-bit words), the magnitudes are the raw
    1/30000-minute fields in micro-degrees cut toward zero, the hemisphere is the
    one the status word says, and speed and course are in their ranges. *)
Theorem decoded_fix_accurate (frame : gt06Frame) (p : slice) (fix_ : gt06GPSPayload)
  (Hv : Forall is_byte (s_vis p)) (Hh : Forall is_byte (s_hid p))
  (Hskip : skip_lbs (protocol frame) (payload frame) = Some p)
  (Hfix : parseGT06GPS frame = GPSFix fix_)
  (Hlat : - 180000000 ≤ latitudeMicros fix_ ≤ 180000000)
  (Hlon : - 180000000 ≤ longitudeMicros fix_ ≤ 180000000) :
  ∃ latRaw lonRaw status,
    slice_range p 7 11 = Some latRaw ∧ slice_range p 11 15 = Some lonRaw ∧
    slice_range p 16 18 = Some status ∧
    micros_of (be_value latRaw) (Z.abs (latitudeMicros fix_)) ∧
    micros_of (be_value lonRaw) (Z.abs (longitudeMicros fix_)) ∧
    (if Z.testbit (be_value status) 11 then latitudeMicros fix_ ≤ 0 else 0 ≤ latitudeMicros fix_) ∧
    (if Z.testbit (be_value status) 12 then 0 ≤ longitudeMicros fix_ else longitudeMicros fix_ ≤ 0) ∧
    0 ≤ speedMilliknots fix_ ≤ 255000 ∧ 0 ≤ courseMillidegrees fix_ ≤ 1023000.
Proof.
  unfold parseGT06GPS in Hfix. rewrite Hskip in Hfix.
  destruct (slice_len p <? 14)%nat; [done|].
  destruct (take 6 (s_vis p)) as [|yy [|mo [|d [|h [|mi [|s [|]]]]]]]; try done.
  destruct (_ || (60 <? s)); [done|].
  destruct (slice_range p 7 11) as [latRaw|] eqn:E1; [|done].
  destruct (slice_range p 11 15) as [lonRaw|] eqn:E2; [|done].
  destruct (slice_index p 15) as [sp|] eqn:E3; [|done].
  destruct (slice_range p 16 18) as [st|] eqn:E4; [|done].
  injection Hfix as <-. cbn [latitudeMicros longitudeMicros speedMilliknots courseMillidegrees] in *.
  exists latRaw, lonRaw, st.
  apply slice_range_bound in E1 as B1, E2 as B2, E4 as B4; [|done..].
  assert (Hsp : is_byte sp) by (eapply Forall_lookup_1; [exact Hv|exact E3]). unfold is_byte in Hsp.
  assert (Hbit : ∀ i, 0 ≤ i → negb (Z.land (be_value st) (Z.shiftl 1 i) =? 0) = Z.testbit (be_value st) i).
  { intros i Hi. rewrite Z.shiftl_1_l. apply testbit_land_pow2. lia. }
  pose proof (Hbit 11 ltac:(lia)) as H11. pose proof (Hbit 12 ltac:(lia)) as H12.
  rewrite <- (negb_involutive (Z.land (be_value st) (Z.shiftl 1 12) =? 0)) in Hlon |- *.
  rewrite H11 in Hlat |- *. rewrite H12 in Hlon |- *.
  pose proof (scale_raw_spec _ (proj1 B1)) as S1. pose proof (scale_raw_spec _ (proj1 B2)) as S2.
  apply (int32_scaled _ _ B1) in Hlat as [-> M1]. apply (int32_scaled _ _ B2) in Hlon as [-> M2].
  unfold micros_of in S1, S2.
  assert (Hc : 0 ≤ Z.land (be_value st) 1023 < 2 ^ 10).
  { change 1023 with (Z.ones 10). rewrite Z.land_ones by lia. apply Z.mod_pos_bound. lia. }
  split_and!; try done; try lia.
  - destruct (Z.testbit (be_value st) 11); lia.
  - destruct (Z.testbit (be_value st) 12); cbn [negb]; lia.
Qed.

Definition lagos_gps : list Z := [26; 8; 29; 9; 14; 21; 12; 0; 177; 39; 144; 0; 93; 83; 128; 12; 0x14; 0x5A].
Definition lagos_frame : gt06Frame := mkFrame gt06ProtoGPS (mkSlice lagos_gps [0; 1; 2; 3]) 1.
Definition lagos_fix : gt06GPSPayload :=
  mkGPS (time_Date_at 2026 8 29 9 14 21) 6450000 3397902 12000 90000.

Lemma decoded_fix_accurate_witness :
  parseGT06GPS lagos_frame = GPSFix lagos_fix ∧
  ∃ latRaw lonRaw status,
    slice_range (mkSlice lagos_gps [0; 1; 2; 3]) 7 11 = Some latRaw ∧
    slice_range (mkSlice lagos_gps [0; 1; 2; 3]) 11 15 = Some lonRaw ∧
    slice_range (mkSlice lagos_gps [0; 1; 2; 3]) 16 18 = Some status ∧
    micros_of (be_value latRaw) (Z.abs 6450000) ∧ micros_of (be_value lonRaw) (Z.abs 3397902) ∧
    (if Z.testbit (be_value status) 11 then 6450000 ≤ 0 else 0 ≤ 6450000) ∧
    (if Z.testbit (be_value status) 12 then 0 ≤ 3397902 else 3397902 ≤ 0) ∧
    0 ≤ 12000 ≤ 255000 ∧ 0 ≤ 90000 ≤ 1023000.
Proof.
  split; [vm_compute; reflexivity|].
  apply (decoded_fix_accurate lagos_frame (mkSlice lagos_gps [0; 1; 2; 3]) lagos_fix).
  - repeat constructor; discriminate.
  - repeat constructor; discriminate.
  - reflexivity.
  - vm_compute. reflexivity.
  - vm_compute. split; discriminate.
  - vm_compute. split; discriminate.
Defined.

(** ** The session *)

Section session.
Context (sha256 : list Z → list Z) {P : Type} (h : P → IngestPosition → P * bool) (receiver : string).

(** The connection loop returns on every byte stream, by an end of
    stream, a refused frame, a short login or the panic above: the bound on
    the number of frames is never what stops it. *)
Theorem serve_terminates (p : P) (bs : list Z) : (serve sha256 h receiver p bs).2 ≠ None.
Proof using Type.
  unfold serve. generalize (Nat.lt_succ_diag_r (length bs)). generalize (S (length bs)) as fuel.
  intros fuel. generalize "" as v. revert p bs.
  induction fuel as [|fuel IH]; intros p bs v Hf; [lia|]. simpl.
  destruct (readGT06Frame bs) as [[frame rest]|[]] eqn:E; try done.
  apply readGT06Frame_Ok in E as [Hrest _].
  destruct (handle_frame _ _ _ _ _ _) as [[[v' p'] acts] [e|]]; [done|].
  specialize (IH p' rest v' ltac:(lia)). by destruct (serve_loop _ _ _ _ _ _ _) as [[??]?].
Qed.

(** A session reference is empty, or the token of a login already answered. *)
Definition logged_in (acts : list gt06_action) (v : string) : Prop :=
  ∃ imei s, length imei = 8%nat ∧ v = "trk-" +:+ tokenizeIMEI imei ∧
            ActReply (writeGT06Reply gt06ProtoLogin s) ∈ acts.
(** Every ingest so far was made under a login before it, and carries the
    tracker's source class, no MMSI and the public label. *)
Definition disciplined (acts : list gt06_action) : Prop :=
  ∀ pre ip post, acts = pre ++ ActIngest ip :: post →
    logged_in pre (VesselRef (ip_Position ip)) ∧ MMSI (ip_Position ip) = "" ∧
    SourceClass (ip_Position ip) = SourceGSMTracker ∧ Types.Classification (ip_Position ip) = "PUBLIC".
Definition session_ok (past : list gt06_action) (v : string) : Prop :=
  disciplined past ∧ (v = "" ∨ logged_in past v).

Lemma logged_in_app past acts v : logged_in past v → logged_in (past ++ acts) v.
Proof using Type. intros (i & s & ? & ? & ?). exists i, s. rewrite elem_of_app. eauto. Qed.

Lemma disciplined_quiet past acts :
  disciplined past → (∀ ip, ActIngest ip ∉ acts) → disciplined (past ++ acts).
Proof using Type.
  intros Hd Hq pre ip post Heq. apply app_eq_inv in Heq as [(k & -> & Hk)|(k & -> & Hk)].
  - destruct k as [|a k]; simplify_list_eq.
    + destruct (Hq ip). left.
    + eapply Hd. done.
  - destruct (Hq ip). rewrite Hk. apply elem_of_app. right. left.
Qed.

Lemma disciplined_ingest past c v gps last :
  disciplined past → logged_in past v → (∀ ip, c ≠ ActIngest ip) → (∀ ip, last ≠ ActIngest ip) →
  disciplined (past ++ [c; ActIngest (gt06_ingest sha256 receiver v gps); last]).
Proof using Type.
  intros Hd Hl Hc Hlast.
  replace (past ++ [c; ActIngest (gt06_ingest sha256 receiver v gps); last])
    with (((past ++ [c]) ++ [ActIngest (gt06_ingest sha256 receiver v gps)]) ++ [last])
    by (by rewrite <- !app_assoc).
  apply disciplined_quiet; [|intros ip Hin%list_elem_of_singleton; by destruct (Hlast ip)].
  assert (Hd' : disciplined (past ++ [c])).
  { apply disciplined_quiet; [done|]. intros ip Hin%list_elem_of_singleton. by destruct (Hc ip). }
  intros pre ip post Heq. destruct post as [|a post _] using rev_ind.
  - apply app_inj_tail in Heq as [<- [= <-]]. cbn. split; [by apply logged_in_app|done].
  - rewrite app_comm_cons, app_assoc in Heq. apply app_inj_tail in Heq as [Heq _]. by eapply Hd'.
Qed.

Lemma handle_frame_session past v p frame v' p' acts e :
  session_ok past v → handle_frame sha256 h receiver v p frame = (v', p', acts, e) →
  session_ok (past ++ acts) v'.
Proof using Type.
  intros [Hd Hv] H. unfold handle_frame in H.
  destruct (protocol frame =? gt06ProtoLogin).
  { destruct (slice_len (payload frame) <? 8)%nat eqn:E; injection H as <- <- <- <-.
    - split; [|destruct Hv; [by left|right; by apply logged_in_app]].
      apply disciplined_quiet; [done|]. intros ip. rewrite !elem_of_cons. set_solver.
    - apply Nat.ltb_ge in E. split.
      + apply disciplined_quiet; [done|]. set_solver.
      + right. exists (take 8 (s_vis (payload frame))), (serial frame). rewrite length_take.
        unfold slice_len in E. split_and!; [lia|done|set_solver]. }
  assert (Hq : ∀ l, (∀ ip, ActIngest ip ∉ l) → session_ok (past ++ l) v).
  { intros l Hl. split; [by apply disciplined_quiet|].
    destruct Hv; [by left|right; by apply logged_in_app]. }
  destruct (protocol frame =? gt06ProtoHeartbeat).
  { injection H as <- <- <- <-. apply Hq. set_solver. }
  destruct (_ || _); [|injection H as <- <- <- <-; apply Hq; set_solver].
  destruct (parseGT06GPS frame) as [gps| |];
    [|injection H as <- <- <- <-; apply Hq; set_solver..].
  destruct (String.eqb v "") eqn:Ev; [injection H as <- <- <- <-; apply Hq; set_solver|].
  apply String.eqb_neq in Ev. destruct Hv as [|Hv]; [done|].
  destruct (h p _) as [p2 failed]. injection H as <- <- <- <-. split; [|right; by apply logged_in_app].
  destruct failed; by apply disciplined_ingest.
Qed.

Lemma serve_loop_session fuel past v p bs p' acts e :
  session_ok past v → serve_loop sha256 h receiver fuel v p bs = (p', acts, e) →
  disciplined (past ++ acts).
Proof using Type.
  revert past v p bs p' acts e. induction fuel as [|fuel IH]; intros past v p bs p' acts e Hs H; simpl in H.
  { injection H as <- <- <-. rewrite app_nil_r. apply Hs. }
  destruct (readGT06Frame bs) as [[frame rest]|err].
  - destruct (handle_frame _ _ _ _ _ _) as [[[v1 p1] acts1] e1] eqn:Hh.
    apply (handle_frame_session past) in Hh; [|done]. destruct e1 as [e1|].
    + injection H as <- <- <-. apply Hh.
    + destruct (serve_loop _ _ _ _ _ _ _) as [[p2 acts2] e2] eqn:Hl. injection H as <- <- <-.
      rewrite app_assoc. by eapply IH.
  - destruct err; injection H as <- <- <-; rewrite ?app_nil_r;
      first [apply Hs|apply disciplined_quiet; [apply Hs|set_solver]].
Qed.
End session.

(** On every byte stream, a position enters the pipeline only after a
    login was answered on the same connection; its vessel reference is the token
    of an eight-byte IMEI from a login, never empty, and it carries the tracker
    source class, no MMSI and the public label. *)
Theorem ingest_needs_login (sha256 : list Z → list Z) {P} (h : P → IngestPosition → P * bool)
  (receiver : string) (p : P) (bs : list Z) (pre post : list gt06_action) (ip : IngestPosition)
  (Hrun : (serve sha256 h receiver p bs).1.2 = pre ++ ActIngest ip :: post) :
  (∃ imei s, length imei = 8%nat ∧ VesselRef (ip_Position ip) = "trk-" +:+ tokenizeIMEI imei ∧
             ActReply (writeGT06Reply gt06ProtoLogin s) ∈ pre) ∧
  MMSI (ip_Position ip) = "" ∧ SourceClass (ip_Position ip) = SourceGSMTracker ∧
  Types.Classification (ip_Position ip) = "PUBLIC".
Proof.
  unfold serve in Hrun. destruct (serve_loop _ _ _ _ _ _ _) as [[p' acts] e] eqn:E. simpl in Hrun. subst acts.
  apply (serve_loop_session _ _ _ _ []) in E; [by apply (E pre ip post)|].
  split; [|by left]. intros [|??] ?? ?; done.
Qed.

Definition lagos_session : list Z :=
  encode_frame gt06ProtoLogin [8; 0x66; 0x12; 0x34; 0x56; 0x78; 0x90; 0x12] 1
  ++ encode_frame gt06ProtoGPS lagos_gps 2.
Definition accept_all (n : nat) (_ : IngestPosition) : nat * bool := (S n, false).

Lemma ingest_needs_login_witness :
  ∃ ip, (∃ imei s, length imei = 8%nat ∧ VesselRef (ip_Position ip) = "trk-" +:+ tokenizeIMEI imei ∧
           ActReply (writeGT06Reply gt06ProtoLogin s) ∈
           [ActMetric (Frames gt06ProtoLogin); ActReply (writeGT06Reply gt06ProtoLogin 1);
            ActMetric (Frames gt06ProtoGPS)]) ∧
  MMSI (ip_Position ip) = "" ∧ SourceClass (ip_Position ip) = SourceGSMTracker ∧
  Types.Classification (ip_Position ip) = "PUBLIC".
Proof.
  eexists. apply (ingest_needs_login (λ l, l) accept_all "gt06-r" 0%nat lagos_session _
    [ActReply (writeGT06Reply gt06ProtoGPS 2)]).
  vm_compute. reflexivity.
Defined.
