(* ===== verification/GoFloat.v ===== *)
(** * Binary64 arithmetic

    Go's [float64] as Rocq's [spec_float] at precision 53 and exponent bound
    1024: correctly rounded arithmetic (amd64 does not fuse operations),
    conversions from integers, the literals the code uses and the conversion of
    a duration to seconds.  The transcendental functions of package [math] are
    parameters of the definitions that use them. *)
From Stdlib Require Export SpecFloat.
From S2P Require Import Prelude.

Abbreviation float64 := spec_float.

Definition f_of_Z (z : Z) : float64 := binary_normalize 53 1024 z 0 false.
Definition f_add : float64 → float64 → float64 := SFadd 53 1024.
Definition f_sub : float64 → float64 → float64 := SFsub 53 1024.
Definition f_mul : float64 → float64 → float64 := SFmul 53 1024.
Definition f_div : float64 → float64 → float64 := SFdiv 53 1024.
Definition f_sqrt : float64 → float64 := SFsqrt 53 1024.
(** [a < b], [a <= b]; false when an argument is not a number. *)
Definition f_lt (a b : float64) : bool := SFltb a b.
Definition f_le (a b : float64) : bool := SFleb a b.

(** A decimal literal [n / d] with both parts exact in binary64: the quotient
    is correctly rounded, as the compiler rounds the constant. *)
Definition f_lit (n d : Z) : float64 := f_div (f_of_Z n) (f_of_Z d).

(** [math.Pi] as a float64. *)
Definition math_Pi : float64 := S754_finite false 7074237752028440 (-51).

(** [Duration.Seconds]. *)
Definition Seconds (d : Z) : float64 :=
  f_add (f_of_Z (Z.quot d second)) (f_div (f_of_Z (Z.rem d second)) (f_of_Z 1000000000)).

(** The transcendental functions of package [math]. *)
Class Math := {
  math_Sin : float64 → float64;
  math_Cos : float64 → float64;
  math_Asin : float64 → float64;
  math_Atan2 : float64 → float64 → float64;
}.

(** The magnitude [m * 2^e] cut to an integer, after adding one half for [Round]. *)
Definition cut_magnitude (half : bool) (m : positive) (e : Z) : Z :=
  if 0 <=? e then Zpos m * 2 ^ e
  else if half then (2 * Zpos m + 2 ^ (- e)) / (2 * 2 ^ (- e)) else Zpos m / 2 ^ (- e).
Definition f_cut (half : bool) (x : float64) : option Z :=
  match x with
  | S754_zero _ => Some 0
  | S754_finite s m e => Some ((if s then -1 else 1) * cut_magnitude half m e)
  | _ => None
  end.
(** The integer part, and [math.Round] (halves away from zero), of a finite float. *)
Definition f_trunc : float64 → option Z := f_cut false.
Definition f_round : float64 → option Z := f_cut true.

Definition f_neg : float64 → float64 := SFopp.
Definition f_is_nan (x : float64) : bool := match x with S754_nan => true | _ => false end.
Definition f_is_inf (x : float64) : bool := match x with S754_infinity _ => true | _ => false end.
(** [math.Min]. *)
Definition f_min (x y : float64) : float64 :=
  match x, y with
  | S754_infinity true, _ | _, S754_infinity true => S754_infinity true
  | S754_nan, _ | _, S754_nan => S754_nan
  | S754_zero true, S754_zero _ => x
  | _, _ => if f_lt x y then x else y
  end.

(** [math.Pow], and the conversion to uint64 of a value it cannot hold, which the
    language leaves to the implementation. *)
Class MathPow := {
  math_Pow : float64 → float64 → float64;
  uint64_overflow : float64 → Z;
}.
(** [uint64(math.Round(x))]. *)
Definition uint64_round `{MathPow} (x : float64) : Z :=
  match f_round x with
  | Some z => if (0 <=? z) && (z <? 2 ^ 64) then z else uint64 (uint64_overflow x)
  | None => uint64 (uint64_overflow x)
  end.

(** A float as the rational it denotes, for stating error bounds: [m * 2^e] as
    an integer scaled by [2^1074]. *)
Definition f_scaled (x : float64) : Z :=
  match x with
  | S754_finite s m e => (if s then -1 else 1) * Zpos m * 2 ^ (e + 1074)
  | _ => 0
  end.

Example f_lit_example : f_lit 19438445 10000 = S754_finite false 8549118521353699 (-42).
Proof. vm_compute. reflexivity. Qed.
Example Seconds_example : Seconds (90 * second + second / 2) = f_lit 181 2.
Proof. vm_compute. reflexivity. Qed.
Example f_round_example : f_round (f_lit 5 2) = Some 3 ∧ f_round (f_lit (-5) 2) = Some (-3) ∧ f_trunc (f_lit 7 2) = Some 3.
Proof. vm_compute. done. Qed.
