(* ===== verification/Validate.v ===== *)
(** * Position validation

    [internal/validate/validate.go] and [geo.go]: the stateless checks, the
    per-vessel tracker and the implied-speed test between consecutive fixes. *)
From S2P Require Import Prelude Types GoFloat.

(** ** Findings *)

(** Every finding carries the quarantine verdict; the reasons are the stable
    codes. *)
Inductive Verdict := VerdictOK | VerdictQuarantine.

Definition ReasonLatitudeBounds : string := "latitude-out-of-bounds".
Definition ReasonLongitudeBounds : string := "longitude-out-of-bounds".
Definition ReasonSentinelLatitude : string := "sentinel-latitude-91".
Definition ReasonSentinelLongitude : string := "sentinel-longitude-181".
Definition ReasonNullIsland : string := "null-island".
Definition ReasonImpossibleSpeed : string := "impossible-speed".
Definition ReasonMMSIFormat : string := "mmsi-format".
Definition ReasonCourseBounds : string := "course-out-of-bounds".
Definition ReasonSpeedSentinel : string := "speed-not-available-sentinel".
Definition ReasonBifurcation : string := "same-mmsi-bifurcation".

(** The human-readable detail: one constructor per format string, with the
    values it prints. *)
Inductive detail :=
| DetailMMSI
| DetailSentinelLatitude
| DetailLatitude (lat : Z)
| DetailSentinelLongitude
| DetailLongitude (lon : Z)
| DetailNullIsland
| DetailSpeedSentinel
| DetailSpeed (speed : Z)
| DetailCourse (course : Z)
| DetailImplied (kn s : float64) (previous current : string).

Record Finding := mkFinding { f_Verdict : Verdict; f_Reason : string; f_Detail : detail }.

Record PositionReport := mkReport {
  r_MMSI : string;
  r_SourceClass : string;
  r_LatitudeMicros : Z;
  r_LongitudeMicros : Z;
  r_Speed : Z;
  r_Course : Z;
  r_ObservedAt : Z;
  r_ReceiverID : string;
}.

(** ** Stateless checks *)

Definition maxLatitudeMicros : Z := 90000000.
Definition maxLongitudeMicros : Z := 180000000.
Definition sentinelLatitudeMicros : Z := 91000000.
Definition sentinelLongitudeMicros : Z := 181000000.
Definition speedNotAvailableMilliknots : Z := 102300.
Definition maxPlausibleSpeedMilliknots : Z := 60000.
Definition maxCourseMillidegrees : Z := 360000.
Definition bifurcationSpeedMilliknots : Z := 60000.

(** [CheckMMSI] returns an error: [false] here.  The pattern is [^[0-9]{9}$]. *)
Definition CheckMMSI (mmsi : string) : bool := digits_exactly 9 mmsi.

Definition IsNigerianFlagged (mmsi : string) : bool :=
  Nat.eqb (String.length mmsi) 9 && HasPrefix mmsi "657".

Definition quarantine_finding (reason : string) (d : detail) : Finding :=
  mkFinding VerdictQuarantine reason d.

Definition StaticChecks (report : PositionReport) : list Finding :=
  let lat := r_LatitudeMicros report in
  let lon := r_LongitudeMicros report in
  (if negb (String.eqb (r_SourceClass report) "APP_REPORT") then
     if CheckMMSI (r_MMSI report) then [] else [quarantine_finding ReasonMMSIFormat DetailMMSI]
   else if negb (String.eqb (r_MMSI report) "") then
     if CheckMMSI (r_MMSI report) then [] else [quarantine_finding ReasonMMSIFormat DetailMMSI]
   else [])
  ++ (if (lat =? sentinelLatitudeMicros) || (lat =? - sentinelLatitudeMicros) then
        [quarantine_finding ReasonSentinelLatitude DetailSentinelLatitude]
      else if (maxLatitudeMicros <? lat) || (lat <? - maxLatitudeMicros) then
        [quarantine_finding ReasonLatitudeBounds (DetailLatitude lat)] else [])
  ++ (if (lon =? sentinelLongitudeMicros) || (lon =? - sentinelLongitudeMicros) then
        [quarantine_finding ReasonSentinelLongitude DetailSentinelLongitude]
      else if (maxLongitudeMicros <? lon) || (lon <? - maxLongitudeMicros) then
        [quarantine_finding ReasonLongitudeBounds (DetailLongitude lon)] else [])
  ++ (if (lat =? 0) && (lon =? 0) then [quarantine_finding ReasonNullIsland DetailNullIsland] else [])
  ++ (if r_Speed report =? speedNotAvailableMilliknots then
        [quarantine_finding ReasonSpeedSentinel DetailSpeedSentinel]
      else if maxPlausibleSpeedMilliknots <? r_Speed report then
        [quarantine_finding ReasonImpossibleSpeed (DetailSpeed (r_Speed report))] else [])
  ++ (if maxCourseMillidegrees <? r_Course report then
        [quarantine_finding ReasonCourseBounds (DetailCourse (r_Course report))] else []).

(** ** The consecutive-fix tracker *)

Record lastFix := mkFix {
  latitudeMicros : Z; longitudeMicros : Z; observedAt : Z; receiverID : string }.

Record Tracker := mkTracker { fixes : gmap string lastFix }.
Definition NewTracker : Tracker := mkTracker ∅.
Definition Reset (_ : Tracker) : Tracker := NewTracker.

Definition vesselKey (report : PositionReport) : string :=
  if negb (String.eqb (r_MMSI report) "") then "mmsi:" +:+ r_MMSI report
  else "ref:" +:+ r_SourceClass report +:+ ":" +:+ r_ReceiverID report.

Section consecutive.
Context `{Math}.

(** [float64(x) / 1e6 * math.Pi / 180]. *)
Definition radians (micros : Z) : float64 :=
  f_div (f_mul (f_div (f_of_Z micros) (f_of_Z 1000000)) math_Pi) (f_of_Z 180).

(** The subtractions are on int32. *)
Definition haversineMetres (lat1 lon1 lat2 lon2 : Z) : float64 :=
  let dLat := radians (int32 (lat2 - lat1)) in
  let dLon := radians (int32 (lon2 - lon1)) in
  let sLat := math_Sin (f_div dLat (f_of_Z 2)) in
  let sLon := math_Sin (f_div dLon (f_of_Z 2)) in
  let a := f_add (f_mul sLat sLat)
             (f_mul (f_mul (f_mul (math_Cos (radians lat1)) (math_Cos (radians lat2))) sLon) sLon) in
  f_mul (f_lit 127420176 10) (math_Atan2 (f_sqrt a) (f_sqrt (f_sub (f_of_Z 1) a))).

Definition impliedMilliknots (previous : lastFix) (report : PositionReport) (elapsed : Z) : float64 :=
  f_mul (f_div (haversineMetres (latitudeMicros previous) (longitudeMicros previous)
                  (r_LatitudeMicros report) (r_LongitudeMicros report)) (Seconds elapsed))
        (f_lit 19438445 10000).

Definition CheckConsecutive (tracker : Tracker) (report : PositionReport) : Tracker * option Finding :=
  let key := vesselKey report in
  let previous := fixes tracker !! key in
  let tracker' := mkTracker (<[key := mkFix (r_LatitudeMicros report) (r_LongitudeMicros report)
                                        (r_ObservedAt report) (r_ReceiverID report)]> (fixes tracker)) in
  (tracker',
   match previous with
   | None => None
   | Some previous =>
       let elapsed := time_Sub (r_ObservedAt report) (observedAt previous) in
       if elapsed <=? 0 then None
       else
         let implied := impliedMilliknots previous report elapsed in
         if f_lt (f_of_Z bifurcationSpeedMilliknots) implied
         then Some (quarantine_finding ReasonBifurcation
                      (DetailImplied (f_div implied (f_of_Z 1000)) (Seconds elapsed)
                         (receiverID previous) (r_ReceiverID report)))
         else None
   end).
End consecutive.

(** ** What an admitted report satisfies *)

Record plausible (r : PositionReport) : Prop := {
  pl_identity : (r_MMSI r = "" ∧ r_SourceClass r = "APP_REPORT") ∨ digits_exactly 9 (r_MMSI r) = true;
  pl_latitude : - 90000000 ≤ r_LatitudeMicros r ≤ 90000000;
  pl_longitude : - 180000000 ≤ r_LongitudeMicros r ≤ 180000000;
  pl_not_null_island : ¬ (r_LatitudeMicros r = 0 ∧ r_LongitudeMicros r = 0);
  pl_speed : r_Speed r ≤ 60000;
  pl_course : r_Course r ≤ 360000;
}.

Lemma app_nil_iff {A} (l1 l2 : list A) : l1 ++ l2 = [] ↔ l1 = [] ∧ l2 = [].
Proof. split; [apply app_eq_nil|by intros [-> ->]]. Qed.

(** The stateless checks admit a report exactly when it is plausible: a
    nine-digit MMSI (or none on an app report), a position on the globe other than
    null island, at most 60 knots and at most 360 degrees.  The AIS sentinels need
    no clause of their own: the bounds exclude them. *)
Theorem StaticChecks_complete (r : PositionReport) : StaticChecks r = [] ↔ plausible r.
Proof.
  unfold StaticChecks, CheckMMSI. rewrite !app_nil_iff.
  unfold maxLatitudeMicros, maxLongitudeMicros, sentinelLatitudeMicros, sentinelLongitudeMicros,
    speedNotAvailableMilliknots, maxPlausibleSpeedMilliknots, maxCourseMillidegrees.
  split.
  - intros (Hid & Hlat & Hlon & Hnull & Hsp & Hco). split.
    + destruct (digits_exactly 9 (r_MMSI r)); [by right|left].
      destruct (String.eqb (r_SourceClass r) _) eqn:Es, (String.eqb (r_MMSI r) "") eqn:Em; try done.
      by bool_to_prop.
    + branches Hlat. bool_to_prop. lia.
    + branches Hlon. bool_to_prop. lia.
    + intros [H1 H2]. rewrite H1, H2 in Hnull. done.
    + branches Hsp. bool_to_prop. lia.
    + branches Hco. bool_to_prop. lia.
  - intros [Hid Hlat Hlon Hnull Hsp Hco]. split_and!.
    + destruct Hid as [[-> ->]|Hd]; [done|]. rewrite Hd. by repeat case_match.
    + repeat case_match; bool_to_prop; try done;
        repeat match goal with H : _ || _ = true |- _ => apply orb_true_iff in H as [H|H] end; bool_to_prop; lia.
    + repeat case_match; bool_to_prop; try done;
        repeat match goal with H : _ || _ = true |- _ => apply orb_true_iff in H as [H|H] end; bool_to_prop; lia.
    + case_match; bool_to_prop; [|done]. naive_solver.
    + repeat case_match; bool_to_prop; try done; lia.
    + case_match; bool_to_prop; [lia|done].
Qed.

(** Distances between admitted positions are computed without wrap-around. *)
Lemma plausible_difference (r1 r2 : PositionReport) :
  plausible r1 → plausible r2 →
  int32 (r_LatitudeMicros r2 - r_LatitudeMicros r1) = r_LatitudeMicros r2 - r_LatitudeMicros r1 ∧
  int32 (r_LongitudeMicros r2 - r_LongitudeMicros r1) = r_LongitudeMicros r2 - r_LongitudeMicros r1.
Proof. intros [] []. split; apply int32_id; unfold is_int32; lia. Qed.

(** ** The reference of the consecutive check *)

Section consecutive_spec.
Context `{Math}.

Definition track (rs : list PositionReport) : Tracker :=
  fold_left (λ t r, (CheckConsecutive t r).1) rs NewTracker.

(** The verdict on [r] given the report it is compared with. *)
Definition compare_fixes (p r : PositionReport) : bool :=
  (0 <? time_Sub (r_ObservedAt r) (r_ObservedAt p)) &&
  f_lt (f_of_Z bifurcationSpeedMilliknots)
    (impliedMilliknots (mkFix (r_LatitudeMicros p) (r_LongitudeMicros p) (r_ObservedAt p) (r_ReceiverID p))
       r (time_Sub (r_ObservedAt r) (r_ObservedAt p))).

Definition fix_of (p : PositionReport) : lastFix :=
  mkFix (r_LatitudeMicros p) (r_LongitudeMicros p) (r_ObservedAt p) (r_ReceiverID p).

Lemma track_lookup rs k :
  fixes (track rs) !! k = fix_of <$> last (filter (λ p, vesselKey p = k) rs).
Proof using Type.
  induction rs as [|p rs IH] using rev_ind; [done|].
  unfold track in *. rewrite fold_left_app. simpl. rewrite filter_app, filter_cons, filter_nil.
  destruct (decide (vesselKey p = k)) as [<-|Hne].
  - by rewrite lookup_insert_eq, last_snoc.
  - by rewrite lookup_insert_ne, app_nil_r.
Qed.
End consecutive_spec.

(** On any history of checked reports, a report is flagged exactly when
    the last report checked for the same vessel key, whatever its own verdict was,
    is strictly earlier and implies more than 60 knots; a first report or one that
    is not later than its predecessor is never flagged. *)
Theorem CheckConsecutive_history `{Math} (rs : list PositionReport) (r : PositionReport) :
  is_Some (CheckConsecutive (track rs) r).2 ↔
  ∃ p, last (filter (λ p, vesselKey p = vesselKey r) rs) = Some p ∧ compare_fixes p r = true.
Proof.
  simpl. rewrite track_lookup. destruct (last _) as [p|]; simpl; [|by split; [intros []|intros (? & ? & ?)]].
  unfold compare_fixes, fix_of. simpl. rewrite Z.leb_antisym.
  destruct (0 <? time_Sub _ _) eqn:E; simpl.
  - destruct (f_lt _ _) eqn:Ef; [split; [intros _; exists p; by rewrite E, Ef|by eauto]|].
    split; [by intros []|]. intros (? & [= <-] & Hc). by rewrite E, Ef in Hc.
  - split; [by intros []|]. intros (? & [= <-] & Hc). by rewrite E in Hc.
Qed.

(** The comment on [lastFix] speaks of the previous admitted position; the
    tracker stores every checked fix, the quarantined one included, so a spoofed
    fix becomes the reference against which the next genuine one is judged. *)
Theorem quarantined_fix_becomes_reference `{Math} (t : Tracker) (r : PositionReport) (f : Finding)
  (Hf : (CheckConsecutive t r).2 = Some f) :
  f_Verdict f = VerdictQuarantine ∧
  fixes (CheckConsecutive t r).1 !! vesselKey r = Some (fix_of r).
Proof.
  split; [|apply lookup_insert_eq].
  unfold CheckConsecutive in Hf. simpl in Hf. branches Hf.
Qed.

(** Crude stand-ins for the transcendental functions, enough to evaluate an
    example: small angles only. *)
Definition small_angle_math : Math :=
  {| math_Sin := λ x, x; math_Cos := λ _, f_of_Z 1; math_Asin := λ x, x; math_Atan2 := λ y _, y |}.

Definition lagos_report (lat lon at_ : Z) (receiver : string) : PositionReport :=
  mkReport "657000001" "AIS" lat lon 8400 90000 (at_ * second) receiver.

Lemma quarantined_fix_becomes_reference_witness :
  let r := lagos_report 6450000 4400000 160 "rx-2" in
  fixes (CheckConsecutive (H := small_angle_math)
           (track (H := small_angle_math) [lagos_report 6450000 3400000 100 "rx-1"]) r).1 !! vesselKey r
  = Some (fix_of r).
Proof.
  eapply (quarantined_fix_becomes_reference (H := small_angle_math)).
  vm_compute. reflexivity.
Defined.
