(* ===== verification/Effects.v ===== *)
(** * Effects: state, errors and faults of external calls

    The service talks to Postgres, Redis and Kafka.  A call to one of them can
    fail before it took effect or after (the acknowledgement was lost).  A run is
    deterministic given the list of faults its external calls meet, in order; a
    theorem that quantifies over the initial state quantifies over all of them. *)
From S2P Require Import Prelude.

Inductive fault := NoFault | FailBefore | FailAfter.

Record env (S : Type) := mkEnv { e_faults : list fault; e_state : S }.
Arguments mkEnv {S}.
Arguments e_faults {S}.
Arguments e_state {S}.

(** A computation over the state [S] that can end with an error [E]. *)
Definition M (S E A : Type) : Type := env S → env S * result E A.

#[export] Instance M_ret {S E} : MRet (M S E) := λ A a w, (w, Ok a).
#[export] Instance M_bind {S E} : MBind (M S E) := λ A B f m w,
  match m w with
  | (w', Ok a) => f a w'
  | (w', Err e) => (w', Err e)
  end.

Section ops.
Context {S E : Type}.

Definition fail {A} (e : E) : M S E A := λ w, (w, Err e).
Definition gets {A} (f : S → A) : M S E A := λ w, (w, Ok (f (e_state w))).
Definition modify (f : S → S) : M S E unit :=
  λ w, (mkEnv (e_faults w) (f (e_state w)), Ok tt).
Definition require (b : bool) (e : E) : M S E unit := if b then mret tt else fail e.
(** A Go call whose error is inspected rather than returned. *)
Definition attempt {A} (m : M S E A) : M S E (result E A) :=
  λ w, let '(w', r) := m w in (w', Ok r).

(** One call to an external service: [act] is what it does when it works, [e]
    the error of a call that fails. *)
Definition external {A} (e : E) (act : S → S * A) : M S E A := λ w,
  let '(s', a) := act (e_state w) in
  match e_faults w with
  | [] => (mkEnv [] s', Ok a)
  | NoFault :: fs => (mkEnv fs s', Ok a)
  | FailBefore :: fs => (mkEnv fs (e_state w), Err e)
  | FailAfter :: fs => (mkEnv fs s', Err e)
  end.

(** A database transaction on the part [db] of the state: an error of the body
    rolls it back; the commit is an external call that may have happened although
    it reported a failure. *)
Definition transaction {D A} (db : S → D) (set_db : D → S → S) (ebegin ecommit : E) (body : M S E A) :
  M S E A := λ w0,
  match external ebegin (λ s, (s, tt)) w0 with
  | (w1, Err e) => (w1, Err e)
  | (w1, Ok _) =>
      let old := db (e_state w0) in
      let rollback (w : env S) := mkEnv (e_faults w) (set_db old (e_state w)) in
      match body w1 with
      | (w2, Err e) => (rollback w2, Err e)
      | (w2, Ok a) =>
          match e_faults w2 with
          | [] => (w2, Ok a)
          | NoFault :: fs => (mkEnv fs (e_state w2), Ok a)
          | FailBefore :: fs => (rollback (mkEnv fs (e_state w2)), Err ecommit)
          | FailAfter :: fs => (mkEnv fs (e_state w2), Err ecommit)
          end
      end
  end.

(** [WithTenant] of [internal/store/store.go]: begin, bind the tenant, run [fn],
    commit. *)
Definition tenant_transaction {D A} (db : S → D) (set_db : D → S → S) (erequired efail : E) (tenantID : string)
  (fn : M S E A) : M S E A :=
  if blank tenantID then fail erequired
  else transaction db set_db efail efail (external efail (λ s, (s, tt)) ≫= λ _, fn).

(** [for _, x := range xs]. *)
Fixpoint each {A} (f : A → M S E unit) (xs : list A) : M S E unit :=
  match xs with
  | [] => mret tt
  | x :: xs' => f x ≫= λ _, each f xs'
  end.
End ops.

(** A computation whose errors are wrapped, and one on a part of a larger state. *)
Definition relabel {S E E' A} (f : E → E') (m : M S E A) : M S E' A := λ w,
  match m w with (w', Ok a) => (w', Ok a) | (w', Err e) => (w', Err (f e)) end.
Definition zoom {S T E A} (get : T → S) (put : S → T → T) (m : M S E A) : M T E A := λ w,
  let '(w', r) := m (mkEnv (e_faults w) (get (e_state w))) in
  (mkEnv (e_faults w') (put (e_state w') (e_state w)), r).

(** ** Reasoning: what a run that ends well must have gone through *)

Section laws.
Context {S E : Type}.
Implicit Types (w : env S).

Lemma M_bind_Ok {A B} (m : M S E A) (f : A → M S E B) w w' b :
  (m ≫= f) w = (w', Ok b) ↔ ∃ w1 a, m w = (w1, Ok a) ∧ f a w1 = (w', Ok b).
Proof.
  unfold mbind, M_bind. destruct (m w) as [w1 [a|e]]; [|naive_solver].
  split; [eauto|]. intros (? & ? & ? & ?). by simplify_eq.
Qed.

Lemma M_bind_Err {A B} (m : M S E A) (f : A → M S E B) w w' e :
  (m ≫= f) w = (w', Err e) ↔
  m w = (w', Err e) ∨ ∃ w1 a, m w = (w1, Ok a) ∧ f a w1 = (w', Err e).
Proof.
  unfold mbind, M_bind. destruct (m w) as [w1 [a|e1]]; naive_solver.
Qed.

Lemma M_bind_run {A B} (m : M S E A) (f : A → M S E B) w w1 a :
  m w = (w1, Ok a) → (m ≫= f) w = f a w1.
Proof. unfold mbind, M_bind. by intros ->. Qed.

Lemma external_Ok {A} (e : E) (act : S → S * A) w w' a :
  external e act w = (w', Ok a) → act (e_state w) = (e_state w', a).
Proof.
  unfold external. destruct (act (e_state w)) as [s' a'], (e_faults w) as [|[] fs]; naive_solver.
Qed.

(** A property of the state that the call keeps when it works is kept. *)
Lemma external_inv {A} (P : S → Prop) (e : E) (act : S → S * A) w :
  P (e_state w) → P (act (e_state w)).1 → P (e_state (external e act w).1).
Proof.
  unfold external. destruct (act (e_state w)) as [s' a'], (e_faults w) as [|[] fs]; naive_solver.
Qed.

(** [keeps P m]: [m] keeps the state property [P] on every outcome. *)
Definition keeps {A} (P : S → Prop) (m : M S E A) : Prop :=
  ∀ w, P (e_state w) → P (e_state (m w).1).

Lemma keeps_ret {A} P (a : A) : keeps P (mret a).
Proof. by intros w. Qed.
Lemma keeps_fail {A} P e : keeps P (fail (A := A) e).
Proof. by intros w. Qed.
Lemma keeps_gets {A} P (f : S → A) : keeps P (gets f).
Proof. by intros w. Qed.
Lemma keeps_require P b e : keeps P (require b e).
Proof. by destruct b; intros w. Qed.
Lemma keeps_attempt {A} P (m : M S E A) : keeps P m → keeps P (attempt m).
Proof. intros Hm w Hw. unfold attempt. specialize (Hm w Hw). by destruct (m w). Qed.
Lemma keeps_modify P f : (∀ s, P s → P (f s)) → keeps P (modify f).
Proof. intros Hf w Hw. apply Hf, Hw. Qed.
Lemma keeps_external {A} P e (act : S → S * A) :
  (∀ s, P s → P (act s).1) → keeps P (external e act).
Proof. intros Ha w Hw. apply external_inv; [done|]. by apply Ha. Qed.
Lemma keeps_bind {A B} P (m : M S E A) (f : A → M S E B) :
  keeps P m → (∀ a, keeps P (f a)) → keeps P (m ≫= f).
Proof.
  intros Hm Hf w Hw. specialize (Hm w Hw). unfold mbind, M_bind.
  destruct (m w) as [w1 [a|e]]; [by apply Hf|done].
Qed.
Lemma keeps_each {A} P (f : A → M S E unit) xs : (∀ x, x ∈ xs → keeps P (f x)) → keeps P (each f xs).
Proof.
  induction xs as [|x xs IH]; intros Hf; simpl; [apply keeps_ret|].
  apply keeps_bind; [apply Hf; left|]. intros _. apply IH. intros y Hy. apply Hf. by right.
Qed.
(** A transaction keeps [P] when its body establishes it at the commit and [P]
    can be restored with the database of a state that had it. *)
Lemma keeps_transaction {D A} P (db : S → D) set_db eb ec (body : M S E A) :
  (∀ w w' a, P (e_state w) → body w = (w', Ok a) → P (e_state w')) →
  (∀ s0 s, P s0 → P (set_db (db s0) s)) → keeps P (transaction db set_db eb ec body).
Proof.
  intros Hb Hs w Hw. unfold transaction.
  assert (P (e_state (external (A := unit) eb (λ s, (s, tt)) w).1)) as H1 by (by apply external_inv).
  destruct (external _ _ _) as [w1 [u|e]]; [|done]. simpl in H1.
  destruct (body w1) as [w2 [a|e]] eqn:E2; [|by apply Hs].
  apply Hb in E2; [|done]. destruct (e_faults w2) as [|[] fs]; try done. by apply Hs.
Qed.
(** The same when the body keeps [P] on every outcome. *)
Lemma keeps_transaction_body {D A} P (db : S → D) set_db eb ec (body : M S E A) :
  keeps P body → (∀ s0 s, P s0 → P s → P (set_db (db s0) s)) → keeps P (transaction db set_db eb ec body).
Proof.
  intros Hb Hs w Hw. unfold transaction.
  assert (P (e_state (external (A := unit) eb (λ s, (s, tt)) w).1)) as H1 by (by apply external_inv).
  destruct (external _ _ _) as [w1 [u|e]]; [|done]. simpl in H1.
  specialize (Hb w1 H1). destruct (body w1) as [w2 [a|e]]; [|by apply Hs].
  destruct (e_faults w2) as [|[] fs]; try done. by apply Hs.
Qed.

(** A tenant transaction leaves the tables alone or takes them where its body took
    them. *)
Lemma tenant_transaction_run {D A} (db : S → D) set_db er ef tenantID (fn : M S E A) w :
  (∀ d s, db (set_db d s) = d) →
  let out := tenant_transaction db set_db er ef tenantID fn w in
  ∃ w1 w2 r,
    db (e_state w1) = db (e_state w) ∧ fn w1 = (w2, r) ∧
    (db (e_state out.1) = db (e_state w) ∨ ∃ a, r = Ok a ∧ db (e_state out.1) = db (e_state w2)) ∧
    (∀ a, out.2 = Ok a → r = Ok a ∧ db (e_state out.1) = db (e_state w2)).
Proof.
  intros Hdb. unfold tenant_transaction. destruct (blank tenantID).
  { destruct (fn w) as [w2 r] eqn:E2. exists w, w2, r. simpl. split_and!; naive_solver. }
  unfold transaction.
  destruct (external (A := unit) ef (λ s, (s, tt)) w) as [w1 [u|e]] eqn:E1; cycle 1.
  { destruct (fn w) as [w2 r] eqn:E2. exists w, w2, r. simpl.
    apply (f_equal (λ p, e_state p.1)) in E1. simpl in E1.
    assert (e_state w1 = e_state w) as ->. 2: { split_and!; naive_solver. }
    rewrite <- E1. unfold external. by destruct (e_faults w) as [|[] ?]. }
  apply external_Ok in E1. injection E1 as E1 _.
  unfold mbind, M_bind.
  destruct (external (A := unit) ef (λ s, (s, tt)) w1) as [w2 [u'|e]] eqn:E2; cycle 1.
  { destruct (fn w) as [w3 r] eqn:E3. exists w, w3, r. simpl. rewrite !Hdb. split_and!; naive_solver. }
  apply external_Ok in E2. injection E2 as E2 _.
  destruct (fn w2) as [w3 [a|e]] eqn:E3; cycle 1.
  { exists w2, w3, (Err e). simpl. rewrite Hdb. split_and!; [by rewrite <- E2, <- E1|done|by left|done]. }
  exists w2, w3, (Ok a).
  destruct (e_faults w3) as [|[] fs]; simpl; rewrite ?Hdb;
    (split_and!; [by rewrite <- E2, <- E1|done| |naive_solver]); eauto.
Qed.

(** [refines_on db step m]: [m] leaves the part [db] of the state as it was or makes
    a step of it, and makes the step when it returns no error. *)
Definition refines_on {D A} (db : S → D) (step : D → D → Prop) (m : M S E A) : Prop :=
  ∀ w, (db (e_state (m w).1) = db (e_state w) ∨ step (db (e_state w)) (db (e_state (m w).1))) ∧
       ∀ a, (m w).2 = Ok a → step (db (e_state w)) (db (e_state (m w).1)).
Lemma refines_fail {D A} (db : S → D) step e : refines_on db step (fail (A := A) e).
Proof. intros w. split; [by left|done]. Qed.
Lemma refines_then {D A B} (db : S → D) step (m : M S E A) (f : A → M S E B) :
  refines_on db step m → (∀ a w, db (e_state (f a w).1) = db (e_state w)) → refines_on db step (m ≫= f).
Proof.
  intros Hm Hf w. specialize (Hm w). unfold mbind, M_bind. destruct (m w) as [w1 [a|e]]; simpl in *.
  - rewrite Hf. destruct Hm as [Hm1 Hm2]. eauto.
  - destruct Hm as [Hm1 _]. split; [done|]. intros ? ?. done.
Qed.
Lemma tenant_transaction_refines {D A} (db : S → D) set_db er ef tenantID step (body : M S E A) :
  (∀ d s, db (set_db d s) = d) →
  (∀ w w' a, body w = (w', Ok a) → step (db (e_state w)) (db (e_state w'))) →
  refines_on db step (tenant_transaction db set_db er ef tenantID body).
Proof.
  intros Hdb Hb w. destruct (tenant_transaction_run db set_db er ef tenantID body w Hdb) as (w1 & w2 & r & H1 & H2 & H3 & H4).
  split.
  - destruct H3 as [?|(a & -> & H3)]; [by left|]. right. rewrite H3, <- H1. eauto.
  - intros a [-> H5]%H4. rewrite H5, <- H1. eauto.
Qed.
End laws.

Lemma relabel_Ok {S E E' A} (f : E → E') (m : M S E A) w w' a :
  relabel f m w = (w', Ok a) ↔ m w = (w', Ok a).
Proof. unfold relabel. destruct (m w) as [w1 [a1|e]]; naive_solver. Qed.
Lemma relabel_state {S E E' A} (f : E → E') (m : M S E A) w : (relabel f m w).1 = (m w).1.
Proof. unfold relabel. by destruct (m w) as [w1 [a1|e]]. Qed.
Lemma zoom_Ok {S T E A} (get : T → S) put (m : M S E A) w w' a :
  zoom get put m w = (w', Ok a) ↔
  ∃ w1, m (mkEnv (e_faults w) (get (e_state w))) = (w1, Ok a) ∧ w' = mkEnv (e_faults w1) (put (e_state w1) (e_state w)).
Proof. unfold zoom. destruct (m _) as [w1 r]. naive_solver. Qed.
(** A property of the larger state that every new part keeps. *)
Lemma keeps_zoom {S T E A} (P : T → Prop) (get : T → S) put (m : M S E A) :
  (∀ s t, P t → P (put s t)) → keeps P (zoom get put m).
Proof. intros HP w Hw. unfold zoom. destruct (m _) as [w1 r]. by apply HP. Qed.

Create HintDb effects discriminated.
#[export] Hint Resolve keeps_ret keeps_fail keeps_gets keeps_require keeps_attempt : effects.
#[export] Hint Resolve keeps_bind keeps_each keeps_external keeps_modify keeps_transaction : effects.
#[export] Hint Constants Opaque : effects.
#[export] Hint Variables Transparent : effects.
