(* ===== verification/Store.v ===== *)
(** * The ingest store

    [internal/store/store.go], [geofence.go] and [static.go]: the exact decimal
    rendering of coordinates, the position insert, the forward-only latest row,
    the zone membership transitions and their persistence, and the SCD-2 static
    dimension.  The tables are fields of the state; a statement the database
    refuses or loses is a fault of the external call that runs it. *)
From S2P Require Import Prelude Types Effects.

(** ** Exact decimal text *)

(** The 6-digit fraction is below 1000000, so [%06d] prints six digits. *)
Definition renderMicros (micros : Z) : string :=
  let negative := micros <? 0 in
  let absolute := if negative then - micros else micros in
  let whole := Z.quot absolute 1000000 in
  let fraction := Z.rem absolute 1000000 in
  let text := show_Z whole +:+ "." +:+ show_pad 6 fraction in
  if negative then "-" +:+ text else text.

Definition pointWKT (latitudeMicros longitudeMicros : Z) : string :=
  "POINT(" +:+ renderMicros longitudeMicros +:+ " " +:+ renderMicros latitudeMicros +:+ ")".

(** ** Tables *)

Record LatestRow := mkLatest {
  l_PositionReportID : string;
  l_SourceClass : string;
  l_geom : string;
  l_LatitudeMicros : Z;
  l_LongitudeMicros : Z;
  l_Speed : option Z;
  l_Course : option Z;
  l_Heading : option Z;
  l_NavStatus : option Z;
  l_Classification : string;
  l_ObservedAt : Z;
}.

(** A row of [geofence_zones]; the geometry is its well-known text. *)
Record Zone := mkZone {
  z_ZoneID : string;
  z_TenantID : string;
  z_Name : string;
  z_ClassificationFloor : string;
  z_State : string;
  z_geom : string;
  z_MakerPrincipalID : string;
  z_CreatedAt : Z;
  z_ApprovedBy : option string;
  z_ApprovedAt : option Z;
}.

Record GeofenceEvent := mkGeofenceEvent {
  ge_GeofenceEventID : string;
  ge_TenantID : string;
  ge_ZoneID : string;
  ge_ZoneName : string;
  ge_Event : string;
  ge_MMSI : string;
  ge_TrackReference : string;
  ge_LatitudeMicros : Z;
  ge_LongitudeMicros : Z;
  ge_Classification : string;
  ge_OccurredAt : Z;
}.

Record StaticReport := mkStatic {
  StaticReportID : string;
  s_MMSI : string;
  s_IMO : string;
  s_Callsign : string;
  s_ShipName : string;
  ShipTypeCode : Z;
  DimensionBowM : Z;
  DimensionSternM : Z;
  DimensionPortM : Z;
  DimensionStarboardM : Z;
  DraughtMillimetres : Z;
  Destination : string;
  ETA : option Z;
  EpfsType : string;
  s_SourceClass : string;
  s_Classification : string;
  s_ObservedAt : Z;
}.

(** A row of [vessels_static]. *)
Record StaticRow := mkStaticRow { sr_report : StaticReport; valid_from : Z; valid_to : option Z }.

Record ingest_db := mkDB {
  ais_positions : list Position;
  partitions : list Z;
  latest_by_mmsi : gmap string LatestRow;
  latest_by_ref : gmap string LatestRow;
  geofence_zones : list Zone;
  geofence_events : list GeofenceEvent;
  vessels_static : list StaticRow;
}.

Definition set_positions (f : list Position → list Position) (d : ingest_db) : ingest_db :=
  mkDB (f (ais_positions d)) (partitions d) (latest_by_mmsi d) (latest_by_ref d)
       (geofence_zones d) (geofence_events d) (vessels_static d).
Definition set_partitions (f : list Z → list Z) (d : ingest_db) : ingest_db :=
  mkDB (ais_positions d) (f (partitions d)) (latest_by_mmsi d) (latest_by_ref d)
       (geofence_zones d) (geofence_events d) (vessels_static d).
Definition set_latest_mmsi (f : gmap string LatestRow → gmap string LatestRow) (d : ingest_db) : ingest_db :=
  mkDB (ais_positions d) (partitions d) (f (latest_by_mmsi d)) (latest_by_ref d)
       (geofence_zones d) (geofence_events d) (vessels_static d).
Definition set_latest_ref (f : gmap string LatestRow → gmap string LatestRow) (d : ingest_db) : ingest_db :=
  mkDB (ais_positions d) (partitions d) (latest_by_mmsi d) (f (latest_by_ref d))
       (geofence_zones d) (geofence_events d) (vessels_static d).
Definition set_events (f : list GeofenceEvent → list GeofenceEvent) (d : ingest_db) : ingest_db :=
  mkDB (ais_positions d) (partitions d) (latest_by_mmsi d) (latest_by_ref d)
       (geofence_zones d) (f (geofence_events d)) (vessels_static d).
Definition set_static (f : list StaticRow → list StaticRow) (d : ingest_db) : ingest_db :=
  mkDB (ais_positions d) (partitions d) (latest_by_mmsi d) (latest_by_ref d)
       (geofence_zones d) (geofence_events d) (f (vessels_static d)).

Inductive store_error :=
| StoreUnavailable
| BatchTooLarge (n : nat)
| NoVesselIdentity
| StaticRequiresMMSI
| NoPartition.

(** ** The latest row *)

Definition latest_row (p : Position) : LatestRow :=
  mkLatest (PositionReportID p) (SourceClass p) (pointWKT (LatitudeMicros p) (LongitudeMicros p))
    (LatitudeMicros p) (LongitudeMicros p) (SpeedOverGroundMilliknots p)
    (CourseOverGroundMillidegrees p) (HeadingMillidegrees p) (NavStatus p)
    (Types.Classification p) (ObservedAt p).

(** INSERT ... ON CONFLICT DO UPDATE ... WHERE EXCLUDED.observed_at > the row's. *)
Definition upsert_forward (k : string) (row : LatestRow) (m : gmap string LatestRow) : gmap string LatestRow :=
  match m !! k with
  | None => <[k := row]> m
  | Some old => if l_ObservedAt old <? l_ObservedAt row then <[k := row]> m else m
  end.

(** ** Zone transitions *)

Record Transition := mkTransition { t_ZoneID : string; t_Direction : string }.

(** Go sets; each zone occurs once among the transitions, so sorting by the zone
    alone decides the order. *)
Definition ComputeTransitions (current previous : list string) : list Transition :=
  let currentSet := list_to_set current : gset string in
  let previousSet := list_to_set previous : gset string in
  sort_by t_ZoneID
    (((λ z, mkTransition z "ENTER") <$> elements (currentSet ∖ previousSet))
     ++ ((λ z, mkTransition z "EXIT") <$> elements (previousSet ∖ currentSet))).

(** The state the store works on: the database, the zone membership in Redis (an
    absent or expired key reads as the empty set) and a source of identifiers. *)
Class IngestWorld (W : Type) := {
  db : W → ingest_db;
  set_db : ingest_db → W → W;
  zone_members : W → string → list string;
  set_zone_members : string → list string → W → W;
  fresh_id : W → W * string;
}.

Class IngestWorldLaws (W : Type) `{IngestWorld W} := {
  db_set_db d w : db (set_db d w) = d;
  db_set_zones k l w : db (set_zone_members k l w) = db w;
  db_fresh w : db (fresh_id w).1 = db w;
  zones_set_db d w k : zone_members (set_db d w) k = zone_members w k;
  (** SMEMBERS after DEL and SADD: the members, in some order, without repeats. *)
  zones_set_same k l w z : z ∈ zone_members (set_zone_members k l w) k ↔ z ∈ l;
  zones_set_other k l w k' : k' ≠ k → zone_members (set_zone_members k l w) k' = zone_members w k';
  zones_fresh w k : zone_members (fresh_id w).1 k = zone_members w k;
}.

Section store.
Context {W : Type} `{IngestWorld W}.
(** [ST_Intersects(geom, point)] of PostGIS, on the texts. *)
Context (ST_Intersects : string → string → bool).

Abbreviation IO := (M W store_error).

Definition update_db (f : ingest_db → ingest_db) (w : W) : W := set_db (f (db w)) w.
Definition exec (f : ingest_db → ingest_db) : IO unit :=
  external StoreUnavailable (λ w, (update_db f w, tt)).
Definition query {A} (f : ingest_db → A) : IO A :=
  external StoreUnavailable (λ w, (w, f (db w))).

(** Midnight UTC of an instant, as a day number. *)
Definition day_of (t : Z) : Z := t / (24 * hour).

Fixpoint EnsurePositionPartitions (days : list Z) : IO unit :=
  match days with
  | [] => mret tt
  | d :: ds => exec (set_partitions (λ ps, if decide (day_of d ∈ ps) then ps else day_of d :: ps))
               ≫= λ _, EnsurePositionPartitions ds
  end.

Definition with_accuracy (p : Position) : Position :=
  mkPosition (PositionReportID p) (MMSI p) (VesselRef p) (SourceClass p) (LatitudeMicros p)
    (LongitudeMicros p) (SpeedOverGroundMilliknots p) (CourseOverGroundMillidegrees p)
    (HeadingMillidegrees p) (NavStatus p)
    (if String.eqb (PositionAccuracy p) "" then "UNSPECIFIED" else PositionAccuracy p)
    (ReceiverID p) (AISMessageType p) (IMO p) (Callsign p) (ShipName p) (Types.Classification p)
    (ObservedAt p).

(** One INSERT statement for the batch; a row without a partition for its day
    refuses the statement. *)
Definition InsertPositions (ps : list Position) : IO unit :=
  if Nat.eqb (length ps) 0 then mret tt
  else if (1000 <? length ps)%nat then fail (BatchTooLarge (length ps))
  else
    days ← gets (λ w, partitions (db w));
    if forallb (λ p, bool_decide (day_of (ObservedAt p) ∈ days)) ps
    then exec (set_positions (λ rows, rows ++ (with_accuracy <$> ps)))
    else fail NoPartition.

Definition UpsertLatestPosition (p : Position) : IO unit :=
  if negb (String.eqb (MMSI p) "") then exec (set_latest_mmsi (upsert_forward (MMSI p) (latest_row p)))
  else if String.eqb (VesselRef p) "" then fail NoVesselIdentity
  else exec (set_latest_ref (upsert_forward (VesselRef p) (latest_row p))).

Definition zonesContaining (lat lon : Z) : IO (list Zone) :=
  query (λ d, filter (λ z, z_State z = "approved" ∧ ST_Intersects (z_geom z) (pointWKT lat lon) = true)
                (geofence_zones d)).
Definition zonesByID (zoneID : string) : IO (list Zone) :=
  query (λ d, filter (λ z, z_ZoneID z = zoneID) (geofence_zones d)).

Definition Membership (vesselKey : string) : IO (list string) :=
  external StoreUnavailable (λ w, (w, zone_members w vesselKey)).
Definition Replace (vesselKey : string) (zoneIDs : list string) : IO unit :=
  external StoreUnavailable (λ w, (set_zone_members vesselKey zoneIDs w, tt)).

Definition zero_zone : Zone := mkZone "" "" "" "" "" "" "" 0 None None.
(** [byID[id]]: the last zone with the identifier, or the zero value. *)
Definition byID (zones : list Zone) (id : string) : Zone :=
  default zero_zone (last (filter (λ z, z_ZoneID z = id) zones)).

Definition geofence_event (id : string) (z : Zone) (direction : string) (p : Position) : GeofenceEvent :=
  mkGeofenceEvent id (z_TenantID z) (z_ZoneID z) (z_Name z) direction (MMSI p) (VesselRef p)
    (LatitudeMicros p) (LongitudeMicros p) (z_ClassificationFloor z) (ObservedAt p).

(** The zone a transition is recorded against: an EXIT whose zone no longer
    resolves to one row is skipped. *)
Definition transition_zone (zones : list Zone) (t : Transition) : IO (option Zone) :=
  if String.eqb (t_Direction t) "EXIT" then
    lookup ← zonesByID (t_ZoneID t);
    mret (match lookup with [z] => Some z | _ => None end)
  else mret (Some (byID zones (t_ZoneID t))).

Fixpoint record_transitions (zones : list Zone) (p : Position) (ts : list Transition) :
  IO (list GeofenceEvent) :=
  match ts with
  | [] => mret []
  | t :: ts' =>
      zone ← transition_zone zones t;
      match zone with
      | None => record_transitions zones p ts'
      | Some z =>
          id ← (λ w, let '(s, id) := fresh_id (e_state w) in (mkEnv (e_faults w) s, Ok id));
          let event := geofence_event id z (t_Direction t) p in
          _ ← exec (set_events (λ es, es ++ [event]));
          rest ← record_transitions zones p ts';
          mret (event :: rest)
      end
  end.

Definition vessel_identity (p : Position) : string :=
  if String.eqb (MMSI p) "" then VesselRef p else MMSI p.

Definition EvaluateGeofences (p : Position) : IO (list GeofenceEvent) :=
  let vesselKey := vessel_identity p in
  if String.eqb vesselKey "" then fail NoVesselIdentity
  else
    transaction db set_db StoreUnavailable StoreUnavailable
      (zones ← zonesContaining (LatitudeMicros p) (LongitudeMicros p);
       let current := z_ZoneID <$> zones in
       previous ← Membership vesselKey;
       let transitions := ComputeTransitions current previous in
       _ ← Replace vesselKey current;
       record_transitions zones p transitions).

(** ** Static data *)

Definition epfs_default (r : StaticReport) : StaticReport :=
  if String.eqb (EpfsType r) "" then
    mkStatic (StaticReportID r) (s_MMSI r) (s_IMO r) (s_Callsign r) (s_ShipName r) (ShipTypeCode r)
      (DimensionBowM r) (DimensionSternM r) (DimensionPortM r) (DimensionStarboardM r)
      (DraughtMillimetres r) (Destination r) (ETA r) "UNSPECIFIED" (s_SourceClass r)
      (s_Classification r) (s_ObservedAt r)
  else r.

(** The columns the SELECT compares. *)
Definition same_static (a b : StaticReport) : bool :=
  String.eqb (s_IMO a) (s_IMO b) && String.eqb (s_Callsign a) (s_Callsign b)
  && String.eqb (s_ShipName a) (s_ShipName b) && (ShipTypeCode a =? ShipTypeCode b)
  && (DimensionBowM a =? DimensionBowM b) && (DimensionSternM a =? DimensionSternM b)
  && (DimensionPortM a =? DimensionPortM b) && (DimensionStarboardM a =? DimensionStarboardM b)
  && (DraughtMillimetres a =? DraughtMillimetres b) && String.eqb (Destination a) (Destination b)
  && String.eqb (EpfsType a) (EpfsType b).

Definition is_open (r : StaticRow) : bool := bool_decide (valid_to r = None).

(** ORDER BY valid_from DESC LIMIT 1 over the open rows of the vessel. *)
Definition later_row (acc : option StaticRow) (r : StaticRow) : option StaticRow :=
  match acc with
  | None => Some r
  | Some a => if valid_from a <? valid_from r then Some r else Some a
  end.
Definition current_row (mmsi : string) (rows : list StaticRow) : option StaticRow :=
  fold_left later_row (filter (λ r, s_MMSI (sr_report r) = mmsi ∧ valid_to r = None) rows) None.

(** UPDATE ... SET valid_to WHERE static_report_id = id AND valid_to IS NULL. *)
Definition close_rows (id : string) (at_ : Z) (rows : list StaticRow) : list StaticRow :=
  (λ r, if String.eqb (StaticReportID (sr_report r)) id && is_open r
        then mkStaticRow (sr_report r) (valid_from r) (Some at_) else r) <$> rows.

Definition UpsertVesselStatic (report : StaticReport) : IO bool :=
  if String.eqb (s_MMSI report) "" then fail StaticRequiresMMSI
  else
    let report := epfs_default report in
    transaction db set_db StoreUnavailable StoreUnavailable
      (current ← query (λ d, current_row (s_MMSI report) (vessels_static d));
       let currentID := default "" (StaticReportID ∘ sr_report <$> current) in
       let unchanged := match current with Some r => same_static (sr_report r) report | None => false end in
       let currentValidFrom := default 0 (valid_from <$> current) in
       if unchanged then mret true
       else if negb (String.eqb currentID "") && negb (currentValidFrom <? s_ObservedAt report) then mret false
       else
         _ ← (if negb (String.eqb currentID "")
              then exec (set_static (close_rows currentID (s_ObservedAt report))) else mret tt);
         _ ← exec (set_static (λ rows, rows ++ [mkStaticRow report (s_ObservedAt report) None]));
         mret true).
End store.
