(* ===== verification/StoreProps.v ===== *)
(** * Properties of the ingest store

    The coordinate text is exact, the latest row only moves forward, the zone
    transitions are the symmetric difference of the memberships, and the static
    dimension stays a chain of adjacent intervals under every fault. *)
From Stdlib Require Import Ascii.
From S2P Require Import Prelude Types Effects Store.

(** ** Coordinate text *)

(** A reader of the decimal text: sign, digits, a point and six digits. *)
Fixpoint split_point (s : string) : option (string * string) :=
  match s with
  | EmptyString => None
  | String c s' =>
      if Ascii.eqb c "."%char then Some ("", s')
      else match split_point s' with Some (a, b) => Some (String c a, b) | None => None end
  end.
Definition read_unsigned (s : string) : option Z :=
  match split_point s with
  | Some (w, f) => if all_chars is_digit w && digits_exactly 6 f
                   then Some (dec_value w * 1000000 + dec_value f) else None
  | None => None
  end.
Definition read_micros (s : string) : option Z :=
  match strip_prefix "-" s with
  | Some s' => Z.opp <$> read_unsigned s'
  | None => read_unsigned s
  end.

Lemma split_point_digits w f :
  all_chars is_digit w = true → split_point (w +:+ "." +:+ f) = Some (w, f).
Proof.
  induction w as [|c w IH]; intros Hw; simpl; [done|].
  simpl in Hw. apply andb_true_iff in Hw as [Hc Hw].
  destruct (Ascii.eqb_spec c "."%char) as [->|]; [done|]. by rewrite (IH Hw).
Qed.

Lemma strip_minus t : strip_prefix "-" ("-" +:+ t) = Some t.
Proof. done. Qed.

Lemma read_unsigned_render a :
  0 ≤ a → let text := show_dec (Z.quot a 1000000) +:+ "." +:+ show_pad 6 (Z.rem a 1000000) in
  read_unsigned text = Some a ∧ strip_prefix "-" text = None.
Proof.
  intros Ha. cbn zeta. rewrite Z.quot_div_nonneg, Z.rem_mod_nonneg by lia.
  pose proof (Z.div_mod a 1000000). pose proof (Z.mod_pos_bound a 1000000).
  destruct (show_dec_spec (a / 1000000)) as [Hv Hd]; [apply Z.div_pos; lia|].
  destruct (show_pad_spec 6 (a mod 1000000)) as (Hv' & Hd' & Hl); [lia|].
  split; [|apply digits_no_minus; [done|apply show_dec_nonempty]].
  unfold read_unsigned. rewrite split_point_digits, Hd by done. unfold digits_exactly.
  rewrite Hl, Hd', Hv, Hv'. simpl. f_equal. lia.
Qed.

(** The decimal text of a coordinate is exact: reading it back gives the
    same number of micro-degrees, for every int32 value (the most negative one
    included, since the code widens before negating). *)
Theorem renderMicros_roundtrip (micros : Z) : read_micros (renderMicros micros) = Some micros.
Proof.
  unfold renderMicros, read_micros. destruct (micros <? 0) eqn:E.
  - apply Z.ltb_lt in E. destruct (read_unsigned_render (- micros)) as [H _]; [lia|].
    unfold show_Z. rewrite (proj2 (Z.ltb_ge _ _)) by (apply Z.quot_pos; lia).
    rewrite strip_minus, H. simpl. f_equal. lia.
  - apply Z.ltb_ge in E. destruct (read_unsigned_render micros) as [H1 H2]; [lia|].
    unfold show_Z. rewrite (proj2 (Z.ltb_ge _ _)) by (apply Z.quot_pos; lia).
    by rewrite H2, H1.
Qed.

(** ** The latest row *)

Definition arrive (k : string) (rows : list LatestRow) (m : gmap string LatestRow) : gmap string LatestRow :=
  fold_left (λ m r, upsert_forward k r m) rows m.

Lemma upsert_forward_lookup k r m :
  upsert_forward k r m !! k =
  Some (match m !! k with
        | Some old => if l_ObservedAt old <? l_ObservedAt r then r else old | None => r end).
Proof.
  unfold upsert_forward. destruct (m !! k) eqn:E; [case_match|];
    rewrite ?lookup_insert_eq; by rewrite ?E.
Qed.

Lemma arrive_first_latest k rows r0 m :
  m !! k = Some r0 →
  ∃ r, arrive k rows m !! k = Some r ∧ r ∈ r0 :: rows ∧
  (∀ r', r' ∈ r0 :: rows → l_ObservedAt r' ≤ l_ObservedAt r) ∧
  (l_ObservedAt r = l_ObservedAt r0 → r = r0).
Proof.
  revert r0 m. induction rows as [|x rows IH]; intros r0 m Hm; simpl.
  { exists r0. split_and!; [done|left| |done]. intros r' ->%list_elem_of_singleton. done. }
  pose proof (upsert_forward_lookup k x m) as Hu. rewrite Hm in Hu.
  destruct (l_ObservedAt r0 <? l_ObservedAt x) eqn:E; bool_to_prop;
    destruct (IH _ _ Hu) as (r & Hr & Hin & Hmax & Htie); exists r; split_and!; try done.
  - set_solver.
  - intros r' [->|[->|Hr']%elem_of_cons]%elem_of_cons; [|apply Hmax; left|apply Hmax; by right].
    pose proof (Hmax x ltac:(left)). lia.
  - pose proof (Hmax x ltac:(left)). lia.
  - set_solver.
  - intros r' [->|[->|Hr']%elem_of_cons]%elem_of_cons; [apply Hmax; left| |apply Hmax; by right].
    pose proof (Hmax r0 ltac:(left)). lia.
Qed.

(** Whatever the order of arrival, the hot row of a vessel is one of the
    reports received, none of them is later, and of those observed at the same
    instant as the first arrival the first is kept: late and repeated reports never
    move the row back. *)
Theorem latest_row_is_latest (k : string) (r0 : LatestRow) (rows : list LatestRow) :
  ∃ r, arrive k (r0 :: rows) ∅ !! k = Some r ∧ r ∈ r0 :: rows ∧
  (∀ r', r' ∈ r0 :: rows → l_ObservedAt r' ≤ l_ObservedAt r) ∧
  (l_ObservedAt r = l_ObservedAt r0 → r = r0).
Proof.
  simpl. apply arrive_first_latest. unfold upsert_forward. rewrite lookup_empty. apply lookup_insert_eq.
Qed.

(** ** Zone transitions *)

Definition enters (ts : list Transition) : list string :=
  t_ZoneID <$> filter (λ t, t_Direction t = "ENTER") ts.
Definition exits (ts : list Transition) : list string :=
  t_ZoneID <$> filter (λ t, t_Direction t = "EXIT") ts.

Definition raw_transitions (cur prev : gset string) : list Transition :=
  ((λ z, mkTransition z "ENTER") <$> elements (cur ∖ prev))
  ++ ((λ z, mkTransition z "EXIT") <$> elements (prev ∖ cur)).

Lemma raw_transitions_elem cur prev t :
  t ∈ raw_transitions cur prev ↔
  (t_Direction t = "ENTER" ∧ t_ZoneID t ∈ cur ∖ prev) ∨ (t_Direction t = "EXIT" ∧ t_ZoneID t ∈ prev ∖ cur).
Proof.
  unfold raw_transitions. rewrite elem_of_app, !list_elem_of_fmap. setoid_rewrite elem_of_elements.
  destruct t as [z d]. simpl. naive_solver.
Qed.

Lemma raw_transitions_NoDup cur prev : NoDup (t_ZoneID <$> raw_transitions cur prev).
Proof.
  unfold raw_transitions. rewrite fmap_app, <- !list_fmap_compose. cbn.
  rewrite !list_fmap_id. apply NoDup_app. split_and!; [apply NoDup_elements| |apply NoDup_elements].
  intros x. rewrite !elem_of_elements. set_solver.
Qed.

Lemma ComputeTransitions_elem current previous t :
  t ∈ ComputeTransitions current previous ↔
  (t_Direction t = "ENTER" ∧ t_ZoneID t ∈ current ∧ t_ZoneID t ∉ previous) ∨
  (t_Direction t = "EXIT" ∧ t_ZoneID t ∈ previous ∧ t_ZoneID t ∉ current).
Proof.
  unfold ComputeTransitions. rewrite sort_by_perm.
  etrans; [apply (raw_transitions_elem (list_to_set current) (list_to_set previous))|].
  rewrite !elem_of_difference, !elem_of_list_to_set. done.
Qed.

(** The transitions are exactly the difference of the two memberships, each
    zone at most once and in the order of the zone identifiers; they do not depend
    on the order or repetition of the inputs; and replaying them on the previous
    membership gives the current one. *)
Theorem ComputeTransitions_spec (current previous : list string) :
  let ts := ComputeTransitions current previous in
  (∀ t, t ∈ ts ↔
     (t_Direction t = "ENTER" ∧ t_ZoneID t ∈ current ∧ t_ZoneID t ∉ previous) ∨
     (t_Direction t = "EXIT" ∧ t_ZoneID t ∈ previous ∧ t_ZoneID t ∉ current)) ∧
  NoDup (t_ZoneID <$> ts) ∧ StronglySorted str_le (t_ZoneID <$> ts) ∧
  (∀ current' previous', (∀ z, z ∈ current' ↔ z ∈ current) → (∀ z, z ∈ previous' ↔ z ∈ previous) →
     ComputeTransitions current' previous' = ts) ∧
  (∀ z, z ∈ current ↔ (z ∈ previous ∧ z ∉ exits ts) ∨ z ∈ enters ts).
Proof.
  cbn zeta. split_and!.
  - apply ComputeTransitions_elem.
  - unfold ComputeTransitions. rewrite sort_by_perm. apply raw_transitions_NoDup.
  - unfold ComputeTransitions. set (l := _ ++ _). pose proof (sort_by_sorted t_ZoneID l) as Hs.
    induction Hs; simpl; constructor; [done|]. by rewrite Forall_fmap.
  - intros current' previous' Hc Hp. unfold ComputeTransitions.
    replace (list_to_set current' : gset string) with (list_to_set current : gset string)
      by (apply set_eq; intros z; rewrite !elem_of_list_to_set; by symmetry).
    replace (list_to_set previous' : gset string) with (list_to_set previous : gset string)
      by (apply set_eq; intros z; rewrite !elem_of_list_to_set; by symmetry). done.
  - intros z. unfold exits, enters. rewrite !list_elem_of_fmap.
    setoid_rewrite list_elem_of_filter. setoid_rewrite ComputeTransitions_elem.
    destruct (decide (z ∈ current)) as [Hc|Hc], (decide (z ∈ previous)) as [Hp|Hp].
    + split; [|done]. intros _. left. split; [done|].
      intros ([z' d] & Hz & Hd & Hin). simpl in *. subst. naive_solver.
    + split; [|done]. intros _. right. exists (mkTransition z "ENTER"). naive_solver.
    + split; [done|]. intros [[_ Hn]|([z' d] & Hz & Hd & Hin)].
      * destruct Hn. exists (mkTransition z "EXIT"). naive_solver.
      * simpl in *. subst. naive_solver.
    + split; [done|]. intros [[? _]|([z' d] & Hz & Hd & Hin)]; [done|].
      simpl in *. subst. naive_solver.
Qed.

(** ** Geofence evaluation *)

Section evaluate.
Context {W : Type} `{IngestWorldLaws W} (ST_Intersects : string → string → bool).

Lemma query_Ok {A} (f : ingest_db → A) w w' a :
  query (W := W) f w = (w', Ok a) → e_state w' = e_state w ∧ a = f (db (e_state w)).
Proof using Type. unfold query. intros Hq%external_Ok. by injection Hq as -> ->. Qed.
Lemma exec_Ok f w w' u : exec (W := W) f w = (w', Ok u) → e_state w' = update_db f (e_state w).
Proof using Type. unfold exec. intros Hq%external_Ok. by injection Hq as ->. Qed.
Lemma Membership_Ok k w w' l :
  Membership (W := W) k w = (w', Ok l) → e_state w' = e_state w ∧ l = zone_members (e_state w) k.
Proof using Type. unfold Membership. intros Hq%external_Ok. by injection Hq as -> ->. Qed.
Lemma Replace_Ok k l w w' u :
  Replace (W := W) k l w = (w', Ok u) → e_state w' = set_zone_members k l (e_state w).
Proof using Type. unfold Replace. intros Hq%external_Ok. by injection Hq as ->. Qed.

(** The zone row an event is recorded against, read from the tables. *)
Definition resolve (zones table : list Zone) (t : Transition) : option Zone :=
  if String.eqb (t_Direction t) "EXIT" then
    match filter (λ z, z_ZoneID z = t_ZoneID t) table with [z] => Some z | _ => None end
  else Some (byID zones (t_ZoneID t)).

Lemma transition_zone_Ok zones t w w' o :
  transition_zone (W := W) zones t w = (w', Ok o) →
  o = resolve zones (geofence_zones (db (e_state w))) t ∧ e_state w' = e_state w.
Proof using Type.
  unfold transition_zone, resolve. destruct (String.eqb _ _).
  - intros (w1 & l & Hq & [= <- <-])%M_bind_Ok. by apply query_Ok in Hq as [-> ->].
  - by intros [= <- <-].
Qed.

(** What an event says: its transition, against the resolved zone, at the
    report's position and instant. *)
Definition event_of (zones table : list Zone) (p : Position) (t : Transition) (e : GeofenceEvent) : Prop :=
  ∃ z id, resolve zones table t = Some z ∧ e = geofence_event id z (t_Direction t) p.

Lemma record_transitions_Ok zones p ts w w' events :
  record_transitions (W := W) zones p ts w = (w', Ok events) →
  geofence_events (db (e_state w')) = geofence_events (db (e_state w)) ++ events ∧
  (∀ k, zone_members (e_state w') k = zone_members (e_state w) k) ∧
  Forall2 (event_of zones (geofence_zones (db (e_state w))) p)
    (filter (λ t, is_Some (resolve zones (geofence_zones (db (e_state w))) t)) ts) events.
Proof using Type*.
  revert w w' events. induction ts as [|t ts IH]; intros w w' events; simpl.
  { intros [= <- <-]. by rewrite app_nil_r. }
  intros (w1 & o & Ht & Hrest)%M_bind_Ok. apply transition_zone_Ok in Ht as [-> Hs].
  rewrite filter_cons. destruct (resolve _ _ t) as [z|] eqn:Hr.
  - rewrite decide_True by eauto.
    apply M_bind_Ok in Hrest as (w2 & id & Hid & Hrest).
    pose proof (db_fresh (e_state w1)) as Hdb. pose proof (zones_fresh (e_state w1)) as Hz.
    destruct (fresh_id (e_state w1)) as [s2 id2]. injection Hid as <- <-. simpl in Hdb, Hz.
    apply M_bind_Ok in Hrest as (w3 & [] & Hexec & Hrest). apply exec_Ok in Hexec as Hs3.
    apply M_bind_Ok in Hrest as (w4 & rest & Hrec & [= <- <-]).
    apply IH in Hrec as (He & Hk & Hf). rewrite Hs3 in He, Hk, Hf.
    unfold update_db in He, Hk, Hf. rewrite db_set_db in He, Hf. simpl in He, Hf.
    rewrite Hdb, Hs in He, Hf. split_and!.
    + by rewrite He, <- app_assoc.
    + intros k. by rewrite Hk, zones_set_db, Hz, Hs.
    + constructor; [|done]. by exists z, id2.
  - rewrite decide_False by (by intros []). apply IH in Hrest as (He & Hk & Hf).
    rewrite Hs in He, Hk, Hf. done.
Qed.

(** The zones the point lies in. *)
Definition zones_at (w : W) (p : Position) : list Zone :=
  filter (λ z, z_State z = "approved" ∧
               ST_Intersects (z_geom z) (pointWKT (LatitudeMicros p) (LongitudeMicros p)) = true)
    (geofence_zones (db w)).
Definition transitions_at (w : W) (p : Position) : list Transition :=
  ComputeTransitions (z_ZoneID <$> zones_at w p) (zone_members w (vessel_identity p)).

Lemma transaction_Ok {A} (body : M W store_error A) w w' a :
  transaction db set_db StoreUnavailable StoreUnavailable body w = (w', Ok a) →
  ∃ w1 w2, e_state w1 = e_state w ∧ body w1 = (w2, Ok a) ∧ e_state w' = e_state w2.
Proof using Type.
  unfold transaction. destruct (external _ _ _) as [w1 [[]|e]] eqn:E1; [|done].
  apply external_Ok in E1. injection E1 as E1.
  destruct (body w1) as [w2 [a2|e]] eqn:E2; [|done].
  destruct (e_faults w2) as [|[] fs]; try done; intros [= <- <-]; by exists w1, w2.
Qed.

Lemma EvaluateGeofences_Ok p w w' events :
  EvaluateGeofences ST_Intersects p w = (w', Ok events) →
  geofence_events (db (e_state w')) = geofence_events (db (e_state w)) ++ events ∧
  (∀ z, z ∈ zone_members (e_state w') (vessel_identity p) ↔ z ∈ z_ZoneID <$> zones_at (e_state w) p) ∧
  (∀ k, k ≠ vessel_identity p → zone_members (e_state w') k = zone_members (e_state w) k) ∧
  Forall2 (event_of (zones_at (e_state w) p) (geofence_zones (db (e_state w))) p)
    (filter (λ t, is_Some (resolve (zones_at (e_state w) p) (geofence_zones (db (e_state w))) t))
       (transitions_at (e_state w) p)) events.
Proof using Type*.
  unfold EvaluateGeofences. destruct (String.eqb _ _); [done|].
  intros (w1 & w5 & Hw1 & Hb & Hw')%transaction_Ok.
  apply M_bind_Ok in Hb as (w2 & zones & Hq & Hb). apply query_Ok in Hq as [Hw2 Hz].
  apply M_bind_Ok in Hb as (w3 & prev & Hq & Hb). apply Membership_Ok in Hq as [Hw3 Hp].
  apply M_bind_Ok in Hb as (w4 & [] & Hq & Hb). apply Replace_Ok in Hq as Hw4.
  apply record_transitions_Ok in Hb as (He & Hk & Hf).
  rewrite Hw4, db_set_zones, Hw3, Hw2, Hw1 in He, Hf.
  fold (zones_at (e_state w1) p) in Hz. rewrite Hw1 in Hz. rewrite Hw2, Hw1 in Hp. subst zones prev.
  rewrite Hw'. split_and!; [done| | |].
  - intros z. rewrite Hk, Hw4. apply zones_set_same.
  - intros k Hne. rewrite Hk, Hw4, zones_set_other by done. by rewrite Hw3, Hw2, Hw1.
  - exact Hf.
Qed.
End evaluate.

(** When a geofence evaluation succeeds, under any faults of the calls
    before it: the recorded membership of the vessel is exactly the set of approved
    zones the point lies in and no other vessel's membership changed; one event was
    recorded and returned for each transition whose zone resolves (an EXIT from a
    zone that was removed is skipped), in zone order, with the zone's tenant and
    classification floor and the report's position and instant. *)
Theorem evaluate_records_transitions {W} `{IngestWorldLaws W} (ST_Intersects : string → string → bool)
  (p : Position) (w w' : env W) (events : list GeofenceEvent)
  (Hrun : EvaluateGeofences ST_Intersects p w = (w', Ok events)) :
  geofence_events (db (e_state w')) = geofence_events (db (e_state w)) ++ events ∧
  (∀ z, z ∈ zone_members (e_state w') (vessel_identity p) ↔
        z ∈ z_ZoneID <$> zones_at ST_Intersects (e_state w) p) ∧
  (∀ k, k ≠ vessel_identity p → zone_members (e_state w') k = zone_members (e_state w) k) ∧
  Forall2 (event_of (zones_at ST_Intersects (e_state w) p) (geofence_zones (db (e_state w))) p)
    (filter (λ t, is_Some (resolve (zones_at ST_Intersects (e_state w) p) (geofence_zones (db (e_state w))) t))
       (transitions_at ST_Intersects (e_state w) p)) events.
Proof. by apply EvaluateGeofences_Ok. Qed.

(** An in-memory state that satisfies the interface. *)
Record MemWorld := mkMem { mw_db : ingest_db; mw_zones : gmap string (list string); mw_next : nat }.
#[export] Instance mem_world : IngestWorld MemWorld := {
  db := mw_db;
  set_db d w := mkMem d (mw_zones w) (mw_next w);
  zone_members w k := default [] (mw_zones w !! k);
  set_zone_members k l w := mkMem (mw_db w) (<[k := l]> (mw_zones w)) (mw_next w);
  fresh_id w := (mkMem (mw_db w) (mw_zones w) (S (mw_next w)), "gfe-" +:+ show_Z (Z.of_nat (mw_next w)));
}.
#[export] Instance mem_world_laws : IngestWorldLaws MemWorld.
Proof.
  split; try done; simpl; intros.
  - by rewrite lookup_insert_eq.
  - by rewrite lookup_insert_ne.
Qed.

Definition lagos_zone : Zone := mkZone "zone-lagos" "tenant-1" "Lagos anchorage" "INTERNAL" "approved" "POLYGON"
  "maker" 0 (Some "checker") (Some 0).
Definition lagos_position : Position :=
  mkPosition "pos-1" "657000001" "" SourceAIS 6450000 3400000 (Some 8400) (Some 90000) None None
    "" "rx-1" (Some 1) "" "" "" "PUBLIC" (1000 * second).
Definition lagos_world (fs : list fault) : env MemWorld :=
  mkEnv fs (mkMem (mkDB [] [] ∅ ∅ [lagos_zone] [] []) ∅ 0).
Definition always (_ _ : string) : bool := true.

Lemma evaluate_records_transitions_witness :
  let w' := (EvaluateGeofences always lagos_position (lagos_world [])).1 in
  geofence_events (db (e_state w')) = [] ++ [geofence_event "gfe-0" lagos_zone "ENTER" lagos_position].
Proof.
  refine (proj1 (evaluate_records_transitions always lagos_position (lagos_world [])
    (EvaluateGeofences always lagos_position (lagos_world [])).1
    [geofence_event "gfe-0" lagos_zone "ENTER" lagos_position] _)).
  vm_compute. reflexivity.
Defined.

Section lost.
Context {W : Type} `{IngestWorldLaws W} (ST_Intersects : string → string → bool).

(** The first transition's first statement fails: nothing but the identifier
    source changed. *)
Lemma record_transitions_first_fails zones p ts s :
  ts ≠ [] → ∃ s', record_transitions (W := W) zones p ts (mkEnv [FailBefore] s) = (mkEnv [] s', Err StoreUnavailable) ∧
  db s' = db s ∧ ∀ k, zone_members s' k = zone_members s k.
Proof using Type*.
  destruct ts as [|t ts]; [done|]. intros _. cbn [record_transitions].
  unfold mbind, M_bind, transition_zone. destruct (String.eqb (t_Direction t) "EXIT").
  - by exists s.
  - cbn. pose proof (db_fresh s) as Hd. pose proof (zones_fresh s) as Hz.
    destruct (fresh_id s) as [s2 id]. by exists s2.
Qed.

Lemma ComputeTransitions_same current previous :
  (∀ z, z ∈ previous ↔ z ∈ current) → ComputeTransitions current previous = [].
Proof using Type.
  intros Hsame. destruct (ComputeTransitions current previous) as [|t ts] eqn:E; [done|exfalso].
  assert (Ht : t ∈ ComputeTransitions current previous) by (rewrite E; left).
  apply ComputeTransitions_elem in Ht. naive_solver.
Qed.

(** A membership that is already current yields no event. *)
Lemma EvaluateGeofences_current p w w' events :
  (∀ z, z ∈ zone_members (e_state w) (vessel_identity p) ↔ z ∈ z_ZoneID <$> zones_at ST_Intersects (e_state w) p) →
  EvaluateGeofences ST_Intersects p w = (w', Ok events) → events = [].
Proof using Type*.
  intros Hc Hrun. apply EvaluateGeofences_Ok in Hrun as (_ & _ & _ & Hf).
  unfold transitions_at in Hf. rewrite ComputeTransitions_same in Hf by done.
  by apply Forall2_nil_inv_l in Hf.
Qed.
End lost.

(** The membership in Redis is replaced before the events are committed: if
    the first statement after it fails, the transaction rolls back, no event
    exists, and repeating the evaluation finds the membership already current and
    reports nothing.  The crossings are lost. *)
Theorem failed_insert_loses_transitions {W} `{IngestWorldLaws W} (ST_Intersects : string → string → bool)
  (p : Position) (s : W)
  (Hid : vessel_identity p ≠ "")
  (Hts : transitions_at ST_Intersects s p ≠ []) :
  ∃ s', EvaluateGeofences ST_Intersects p (mkEnv [NoFault; NoFault; NoFault; NoFault; FailBefore] s)
        = (mkEnv [] s', Err StoreUnavailable) ∧
  geofence_events (db s') = geofence_events (db s) ∧
  ∀ w'' events, EvaluateGeofences ST_Intersects p (mkEnv [] s') = (w'', Ok events) → events = [].
Proof.
  set (cur := z_ZoneID <$> zones_at ST_Intersects s p).
  destruct (record_transitions_first_fails (zones_at ST_Intersects s p) p
    (transitions_at ST_Intersects s p) (set_zone_members (vessel_identity p) cur s) Hts)
    as (s2 & Hrec & Hdb & Hz).
  exists (set_db (db s) s2). split_and!.
  - unfold EvaluateGeofences. apply String.eqb_neq in Hid. rewrite Hid. unfold transaction. cbn [external e_faults e_state].
    do 3 (erewrite M_bind_run by reflexivity).
    change (record_transitions _ p _ _) with (record_transitions (zones_at ST_Intersects s p) p
      (transitions_at ST_Intersects s p) (mkEnv [FailBefore] (set_zone_members (vessel_identity p) cur s))).
    by rewrite Hrec.
  - by rewrite db_set_db.
  - intros w'' events. apply EvaluateGeofences_current. intros z. simpl.
    unfold zones_at. rewrite db_set_db, zones_set_db, Hz, zones_set_same. done.
Qed.

Definition lagos_state : MemWorld := e_state (lagos_world []).

Lemma failed_insert_loses_transitions_witness :
  ∃ s', EvaluateGeofences always lagos_position
          (mkEnv [NoFault; NoFault; NoFault; NoFault; FailBefore] lagos_state)
        = (mkEnv [] s', Err StoreUnavailable) ∧
  geofence_events (db s') = geofence_events (db lagos_state) ∧
  ∀ w'' events, EvaluateGeofences always lagos_position (mkEnv [] s') = (w'', Ok events) → events = [].
Proof.
  apply (failed_insert_loses_transitions always lagos_position lagos_state).
  - vm_compute. discriminate.
  - vm_compute. discriminate.
Defined.

(** ** The static dimension *)

(** The versions of one vessel, oldest first: each is closed at the instant its
    successor begins, and only the last is open. *)
Fixpoint chained (h : list StaticRow) : Prop :=
  match h with
  | [] => True
  | r :: h' =>
      match h' with
      | [] => valid_to r = None
      | r' :: _ => valid_to r = Some (valid_from r') ∧ valid_from r < valid_from r' ∧ chained h'
      end
  end.

Definition versions (mmsi : string) (rows : list StaticRow) : list StaticRow :=
  filter (λ r, s_MMSI (sr_report r) = mmsi) rows.
Definition scd2 (rows : list StaticRow) : Prop := ∀ mmsi, chained (versions mmsi rows).

Lemma chained_closed h r : chained (h ++ [r]) → Forall (λ x, valid_to x ≠ None) h ∧ valid_to r = None.
Proof.
  induction h as [|x h IH]; simpl; [done|]. destruct h as [|y h]; simpl in *.
  - intros (Hto & _ & Hr). split; [|done]. constructor; [by rewrite Hto|constructor].
  - intros (Hto & _ & Hc). destruct (IH Hc). split; [|done]. constructor; [by rewrite Hto|done].
Qed.

Lemma chained_extend h r at_ n :
  chained (h ++ [r]) → valid_from r < at_ → valid_from n = at_ → valid_to n = None →
  chained (h ++ [mkStaticRow (sr_report r) (valid_from r) (Some at_); n]).
Proof.
  intros Hc Hlt Hn Hopen. induction h as [|x h IH]; simpl in *.
  { rewrite Hn. done. }
  destruct h as [|y h]; simpl in *.
  - destruct Hc as (H1 & H2 & H3). split_and!; try done; by rewrite Hn.
  - destruct Hc as (H1 & H2 & H3). split_and!; try done. by apply IH.
Qed.

(** The open rows of a chain are its last row. *)
Lemma chained_open h : chained h → filter (λ r, valid_to r = None) h = option_list (last h).
Proof.
  destruct h as [|r h _] using rev_ind; [done|]. intros [Hf Hr]%chained_closed.
  rewrite filter_app, last_snoc, filter_cons_True by done. simpl.
  by rewrite filter_none.
Qed.

Lemma current_row_last mmsi rows :
  chained (versions mmsi rows) → current_row mmsi rows = last (versions mmsi rows).
Proof.
  intros Hc. unfold current_row.
  replace (filter (λ r, s_MMSI (sr_report r) = mmsi ∧ valid_to r = None) rows)
    with (filter (λ r, valid_to r = None) (versions mmsi rows)).
  - rewrite chained_open by done. by destruct (last _).
  - unfold versions. rewrite list_filter_filter. apply list_filter_iff. naive_solver.
Qed.

(** Every row has an identifier, and a report identifier belongs to one vessel. *)
Definition owned (owner : string → string) (r : StaticReport) : Prop :=
  StaticReportID r ≠ "" ∧ owner (StaticReportID r) = s_MMSI r.
Definition static_inv (owner : string → string) (rows : list StaticRow) : Prop :=
  scd2 rows ∧ Forall (λ r, owned owner (sr_report r)) rows.

Lemma close_rows_report id at_ rows : sr_report <$> close_rows id at_ rows = sr_report <$> rows.
Proof.
  unfold close_rows. rewrite <- list_fmap_compose. apply list_fmap_ext. intros i r _. simpl. by case_match.
Qed.

Lemma versions_close_other owner mmsi id at_ rows :
  Forall (λ r, owned owner (sr_report r)) rows → owner id ≠ mmsi →
  versions mmsi (close_rows id at_ rows) = versions mmsi rows.
Proof.
  intros Hf Hne. induction Hf as [|r rows [_ Hr] Hf IH]; [done|].
  unfold versions, close_rows in *. rewrite fmap_cons, !filter_cons. cbn beta.
  destruct (String.eqb_spec (StaticReportID (sr_report r)) id) as [<-|]; simpl.
  - rewrite Hr in Hne. destruct (is_open r); simpl; rewrite !decide_False by congruence; exact IH.
  - case_decide; by rewrite IH.
Qed.

Lemma close_rows_closed id at_ h : Forall (λ x, valid_to x ≠ None) h → close_rows id at_ h = h.
Proof.
  unfold close_rows. induction 1 as [|x h Hx Hh IH]; [done|]. rewrite fmap_cons, IH. f_equal.
  unfold is_open. by rewrite bool_decide_eq_false_2, andb_false_r by done.
Qed.

Lemma versions_close_same mmsi id at_ rows h r :
  versions mmsi rows = h ++ [r] → chained (h ++ [r]) → StaticReportID (sr_report r) = id →
  versions mmsi (close_rows id at_ rows) = h ++ [mkStaticRow (sr_report r) (valid_from r) (Some at_)].
Proof.
  intros Hv Hc Hid.
  assert (versions mmsi (close_rows id at_ rows) = close_rows id at_ (versions mmsi rows)) as ->.
  { clear. induction rows as [|x rows IH]; [done|].
    unfold versions, close_rows in *. rewrite fmap_cons, !filter_cons. cbn beta.
    replace (s_MMSI (sr_report (if String.eqb (StaticReportID (sr_report x)) id && is_open x
      then mkStaticRow (sr_report x) (valid_from x) (Some at_) else x)))
      with (s_MMSI (sr_report x)) by (by case_match).
    case_decide; rewrite ?fmap_cons; by rewrite IH. }
  rewrite Hv. apply chained_closed in Hc as [Hf Hr]. unfold close_rows. rewrite fmap_app.
  fold (close_rows id at_ h). rewrite close_rows_closed by done. simpl. unfold is_open.
  by rewrite Hid, String.eqb_refl, bool_decide_eq_true_2 by done.
Qed.

Lemma versions_snoc mmsi rows r :
  versions mmsi (rows ++ [r]) =
  versions mmsi rows ++ (if decide (s_MMSI (sr_report r) = mmsi) then [r] else []).
Proof. unfold versions. by rewrite filter_app, filter_cons, filter_nil. Qed.

(** What the upsert does to the rows: nothing, a first version, or a close and
    an append. *)
Lemma open_version_inv owner rows report :
  static_inv owner rows → owned owner report → versions (s_MMSI report) rows = [] →
  static_inv owner (rows ++ [mkStaticRow report (s_ObservedAt report) None]).
Proof.
  intros [Hc Ho] Hr Hv. split; [|rewrite Forall_app, Forall_singleton; done].
  intros mmsi. rewrite versions_snoc. simpl. case_decide as Hm.
  - rewrite <- Hm, Hv. done.
  - rewrite app_nil_r. apply Hc.
Qed.

Lemma next_version_inv owner rows report h r :
  static_inv owner rows → owned owner report → versions (s_MMSI report) rows = h ++ [r] →
  valid_from r < s_ObservedAt report →
  static_inv owner (close_rows (StaticReportID (sr_report r)) (s_ObservedAt report) rows
                    ++ [mkStaticRow report (s_ObservedAt report) None]).
Proof.
  intros [Hc Ho] Hr Hv Hlt.
  assert (Hin : r ∈ versions (s_MMSI report) rows) by (rewrite Hv; set_solver).
  apply list_elem_of_filter in Hin as [Hm Hin].
  assert (Hor : owned owner (sr_report r)) by (rewrite Forall_forall in Ho; by apply Ho).
  split.
  - intros mmsi. rewrite versions_snoc. simpl. case_decide as Hd.
    + subst mmsi. rewrite (versions_close_same _ _ _ rows h r) by (try done; rewrite <- Hv; apply Hc).
      rewrite <- app_assoc. apply chained_extend; [rewrite <- Hv; apply Hc|done..].
    + rewrite app_nil_r, (versions_close_other owner); [apply Hc|done|].
      destruct Hor as [_ ->]. congruence.
  - rewrite Forall_app, Forall_singleton. split; [|done].
    apply (Forall_fmap sr_report (owned owner)). rewrite close_rows_report. by apply Forall_fmap.
Qed.

Lemma last_version_case {A} (l : list A) : l = [] ∨ ∃ h r, l = h ++ [r].
Proof. destruct l as [|r h _] using rev_ind; [by left|right; eauto]. Qed.

Section static.
Context {W : Type} `{IngestWorldLaws W} (owner : string → string).
Definition static_ok (s : W) : Prop := static_inv owner (vessels_static (db s)).

Lemma epfs_default_fields r :
  s_MMSI (epfs_default r) = s_MMSI r ∧ StaticReportID (epfs_default r) = StaticReportID r ∧
  s_ObservedAt (epfs_default r) = s_ObservedAt r.
Proof using Type. unfold epfs_default. by case_match. Qed.

Lemma UpsertVesselStatic_keeps report :
  owned owner report → keeps static_ok (UpsertVesselStatic (W := W) report).
Proof using Type*.
  intros Hr. unfold UpsertVesselStatic. destruct (String.eqb _ ""); [apply keeps_fail|].
  assert (Hr' : owned owner (epfs_default report)).
  { unfold owned. destruct (epfs_default_fields report) as (-> & -> & _). exact Hr. }
  clear Hr. revert Hr'. generalize (epfs_default report) as rep. clear report. intros rep Hr. cbv zeta.
  apply keeps_transaction; [|intros s0 s Hs; unfold static_ok; by rewrite db_set_db].
  intros w w' a Hw (w1 & cur & Hq & Hb)%M_bind_Ok. apply query_Ok in Hq as [Hs1 Hcur].
  rewrite current_row_last in Hcur by apply Hw.
  destruct (match cur with Some r => _ | None => _ end) eqn:Hun; [by injection Hb as <- _; rewrite Hs1|].
  destruct (_ && _) eqn:Hst; [by injection Hb as <- _; rewrite Hs1|].
  apply M_bind_Ok in Hb as (w2 & [] & Hclose & Hb).
  apply M_bind_Ok in Hb as (w3 & [] & Hins & [= <- <-]). apply exec_Ok in Hins.
  unfold static_ok in *. rewrite Hins. unfold update_db. rewrite db_set_db. cbn [set_static vessels_static].
  destruct (last_version_case (versions (s_MMSI rep) (vessels_static (db (e_state w))))) as [Hv|(h & r & Hv)];
    rewrite Hv in Hcur.
  - subst cur. simpl in Hclose. injection Hclose as <-. rewrite Hs1. by apply open_version_inv.
  - rewrite last_snoc in Hcur. subst cur. simpl in Hclose, Hst.
    assert (Hid : String.eqb (StaticReportID (sr_report r)) "" = false).
    { apply String.eqb_neq. destruct Hw as [_ Ho]. rewrite Forall_forall in Ho. apply (Ho r).
      assert (r ∈ versions (s_MMSI rep) (vessels_static (db (e_state w)))) as [_ ?]%list_elem_of_filter
        by (rewrite Hv; set_solver). done. }
    rewrite Hid in Hclose, Hst. simpl in Hclose, Hst. bool_to_prop.
    apply exec_Ok in Hclose. rewrite Hclose. unfold update_db. rewrite db_set_db. cbn [set_static vessels_static].
    rewrite Hs1. by apply next_version_inv with h.
Qed.
End static.

(** Under every interleaving of reports and every fault of the database
    calls (commits lost or acknowledged late included), the versions of each vessel
    stay a chain: each closed exactly when its successor begins, strictly forward
    in time, and only the last one open.  The report identifiers are assumed to be
    non-empty and to belong to one vessel each, which the generated ones are. *)
Theorem static_stays_chained {W} `{IngestWorldLaws W} (owner : string → string)
  (reports : list StaticReport) (w : env W) (mmsi : string)
  (Hinv : static_inv owner (vessels_static (db (e_state w))))
  (Hreports : Forall (owned owner) reports) :
  chained (versions mmsi (vessels_static (db (e_state
    (each (λ r, _ ← attempt (UpsertVesselStatic r); mret tt) reports w).1)))).
Proof.
  assert (keeps (static_ok owner) (each (λ r, _ ← attempt (UpsertVesselStatic r); mret tt) reports)) as Hk.
  { apply keeps_each. intros r Hr. rewrite Forall_forall in Hreports.
    apply keeps_bind; [|intros; apply keeps_ret].
    apply keeps_attempt, UpsertVesselStatic_keeps. by apply Hreports. }
  apply (Hk w Hinv).
Qed.

Definition static_report (id mmsi dest : string) (at_ : Z) : StaticReport :=
  mkStatic id mmsi "" "" "BLUE" 70 100 20 10 10 8000 dest None "GPS" SourceAIS "PUBLIC" at_.

Lemma static_stays_chained_witness :
  let reports := [static_report "sta-1" "657000001" "LAGOS" 100; static_report "sta-2" "657000001" "TEMA" 90;
                  static_report "sta-3" "657000001" "TEMA" 200] in
  let rows := vessels_static (db (e_state (each (λ r, _ ← attempt (UpsertVesselStatic r); mret tt) reports
                (lagos_world [])).1)) in
  length rows = 2%nat ∧ chained (versions "657000001" rows).
Proof.
  split; [vm_compute; reflexivity|].
  apply (static_stays_chained (λ _, "657000001")).
  - split; [|constructor]. by intros mmsi.
  - repeat constructor; discriminate.
Defined.
