(* ===== verification/Sign.v ===== *)
(** * Signed envelopes

    [internal/sign/payload.go] and [envelope.go]: the typed payloads with their
    JSON projection (the struct tags), the event-type table, the classification
    rules and the construction of a signed envelope.  The Ed25519/JCS signature is
    a parameter of the construction. *)
From S2P Require Import Prelude Classification.

(** ** JSON values

    Times are kept as instants; [json.Marshal] refuses a year outside 0..9999.  A
    [json.RawMessage] is its text. *)
Inductive json :=
| JStr (s : string)
| JNum (z : Z)
| JTime (t : Z)
| JBool (b : bool)
| JRaw (text : string)
| JArr (items : list json)
| JObj (fields : list (string * json)).

(** 0000-01-01 and 10000-01-01, in seconds since the epoch. *)
Definition json_min_time : Z := - 62167219200 * second.
Definition json_max_time : Z := 253402300800 * second.
Fixpoint encodable (j : json) : bool :=
  match j with
  | JTime t => (json_min_time <=? t) && (t <? json_max_time)
  | JArr items => forallb encodable items
  | JObj fs => (fix all (fs : list (string * json)) : bool :=
                  match fs with [] => true | (_, v) :: fs' => encodable v && all fs' end) fs
  | _ => true
  end.

(** Field helpers: [omitempty] drops an empty string or a nil pointer. *)
Definition str_omit (k s : string) : list (string * json) := if String.eqb s "" then [] else [(k, JStr s)].
Definition opt_omit {A} (k : string) (f : A → json) (o : option A) : list (string * json) :=
  match o with Some a => [(k, f a)] | None => [] end.

(** ** Payloads *)

Record VesselPositionReported := mkVPR {
  vp_PositionReportID : string; vp_MMSI : string; vp_SourceClass : string;
  vp_LatitudeMicros : Z; vp_LongitudeMicros : Z; vp_Speed : Z; vp_Course : Z;
  vp_Heading : option Z; vp_NavStatus : option Z; vp_PositionAccuracy : string;
  vp_ObservedAt : Z; vp_ReceiverID : string; vp_AISMessageType : option Z;
  vp_Classification : string; vp_IMO : string; vp_Callsign : string; vp_ShipName : string;
}.

Record VesselStaticReported := mkVSR {
  vs_StaticReportID : string; vs_MMSI : string; vs_IMO : string; vs_Callsign : string;
  vs_ShipName : string; vs_ShipTypeCode : Z; vs_DimensionBowM : Z; vs_DimensionSternM : Z;
  vs_DimensionPortM : Z; vs_DimensionStarboardM : Z; vs_DraughtMillimetres : Z;
  vs_Destination : string; vs_ETA : option Z; vs_EpfsType : string; vs_ObservedAt : Z;
  vs_SourceClass : string; vs_Classification : string;
}.

Record GeofenceEventRecorded := mkGER {
  gr_GeofenceEventID : string; gr_ZoneID : string; gr_ZoneName : string; gr_Event : string;
  gr_MMSI : string; gr_TrackReference : string; gr_LatitudeMicros : Z; gr_LongitudeMicros : Z;
  gr_OccurredAt : Z; gr_Classification : string; gr_ZoneCategory : string; gr_Alert : string;
}.

Record AppPositionReported := mkAPR {
  ap_PositionReportID : string; ap_ReporterID : string; ap_VesselReference : string;
  ap_LatitudeMicros : Z; ap_LongitudeMicros : Z; ap_AccuracyM : Z; ap_Speed : option Z;
  ap_RecordedAt : Z; ap_OutboxID : string; ap_Classification : string;
}.

Record SosAlertRaised := mkSOS {
  so_SosAlertID : string; so_ReporterID : string; so_VesselReference : string;
  so_LatitudeMicros : Z; so_LongitudeMicros : Z; so_RecordedAt : Z; so_OutboxID : string;
  so_FreeText : string; so_Classification : string;
}.

Record SosAlertAcknowledged := mkSosAck {
  sa_SosAlertID : string; sa_ReporterID : string; sa_VesselReference : string;
  sa_AcknowledgedBy : string; sa_AcknowledgedAt : Z; sa_Note : string; sa_Classification : string;
}.

Record SosAlertResolved := mkSosRes {
  sx_SosAlertID : string; sx_ReporterID : string; sx_VesselReference : string;
  sx_ResolvedBy : string; sx_ResolvedAt : Z; sx_Note : string; sx_Classification : string;
}.

(** The dynamic payload argument. *)
Inductive payload :=
| PVesselPosition (p : VesselPositionReported)
| PVesselStatic (p : VesselStaticReported)
| PGeofenceEvent (p : GeofenceEventRecorded)
| PAppPosition (p : AppPositionReported)
| PSosRaised (p : SosAlertRaised)
| PSosAcknowledged (p : SosAlertAcknowledged)
| PSosResolved (p : SosAlertResolved)
| POther (fields : list (string * json)).

Definition payload_fields (p : payload) : list (string * json) :=
  match p with
  | PVesselPosition v =>
      [("positionReportId", JStr (vp_PositionReportID v)); ("mmsi", JStr (vp_MMSI v));
       ("sourceClass", JStr (vp_SourceClass v)); ("latitudeMicros", JNum (vp_LatitudeMicros v));
       ("longitudeMicros", JNum (vp_LongitudeMicros v));
       ("speedOverGroundMilliknots", JNum (vp_Speed v));
       ("courseOverGroundMillidegrees", JNum (vp_Course v))]
      ++ opt_omit "headingMillidegrees" JNum (vp_Heading v) ++ opt_omit "navStatus" JNum (vp_NavStatus v)
      ++ [("positionAccuracy", JStr (vp_PositionAccuracy v)); ("observedAt", JTime (vp_ObservedAt v));
          ("receiverId", JStr (vp_ReceiverID v))]
      ++ opt_omit "aisMessageType" JNum (vp_AISMessageType v)
      ++ [("classification", JStr (vp_Classification v))]
      ++ str_omit "imo" (vp_IMO v) ++ str_omit "callsign" (vp_Callsign v) ++ str_omit "shipName" (vp_ShipName v)
  | PVesselStatic v =>
      [("staticReportId", JStr (vs_StaticReportID v)); ("mmsi", JStr (vs_MMSI v))]
      ++ str_omit "imo" (vs_IMO v) ++ str_omit "callsign" (vs_Callsign v) ++ str_omit "shipName" (vs_ShipName v)
      ++ [("shipTypeCode", JNum (vs_ShipTypeCode v)); ("dimensionBowM", JNum (vs_DimensionBowM v));
          ("dimensionSternM", JNum (vs_DimensionSternM v)); ("dimensionPortM", JNum (vs_DimensionPortM v));
          ("dimensionStarboardM", JNum (vs_DimensionStarboardM v));
          ("draughtMillimetres", JNum (vs_DraughtMillimetres v))]
      ++ str_omit "destination" (vs_Destination v) ++ opt_omit "eta" JTime (vs_ETA v)
      ++ [("epfsType", JStr (vs_EpfsType v)); ("observedAt", JTime (vs_ObservedAt v));
          ("sourceClass", JStr (vs_SourceClass v)); ("classification", JStr (vs_Classification v))]
  | PGeofenceEvent v =>
      [("geofenceEventId", JStr (gr_GeofenceEventID v)); ("zoneId", JStr (gr_ZoneID v));
       ("zoneName", JStr (gr_ZoneName v)); ("event", JStr (gr_Event v))]
      ++ str_omit "mmsi" (gr_MMSI v) ++ str_omit "trackReference" (gr_TrackReference v)
      ++ [("latitudeMicros", JNum (gr_LatitudeMicros v)); ("longitudeMicros", JNum (gr_LongitudeMicros v));
          ("occurredAt", JTime (gr_OccurredAt v)); ("classification", JStr (gr_Classification v))]
      ++ str_omit "zoneCategory" (gr_ZoneCategory v) ++ str_omit "alert" (gr_Alert v)
  | PAppPosition v =>
      [("positionReportId", JStr (ap_PositionReportID v)); ("reporterId", JStr (ap_ReporterID v));
       ("vesselReference", JStr (ap_VesselReference v)); ("latitudeMicros", JNum (ap_LatitudeMicros v));
       ("longitudeMicros", JNum (ap_LongitudeMicros v)); ("accuracyM", JNum (ap_AccuracyM v))]
      ++ opt_omit "speedMillimetresPerSecond" JNum (ap_Speed v)
      ++ [("recordedAt", JTime (ap_RecordedAt v)); ("outboxId", JStr (ap_OutboxID v));
          ("classification", JStr (ap_Classification v))]
  | PSosRaised v =>
      [("sosAlertId", JStr (so_SosAlertID v)); ("reporterId", JStr (so_ReporterID v));
       ("vesselReference", JStr (so_VesselReference v)); ("latitudeMicros", JNum (so_LatitudeMicros v));
       ("longitudeMicros", JNum (so_LongitudeMicros v)); ("recordedAt", JTime (so_RecordedAt v));
       ("outboxId", JStr (so_OutboxID v))]
      ++ str_omit "freeText" (so_FreeText v) ++ [("classification", JStr (so_Classification v))]
  | PSosAcknowledged v =>
      [("sosAlertId", JStr (sa_SosAlertID v)); ("reporterId", JStr (sa_ReporterID v));
       ("vesselReference", JStr (sa_VesselReference v)); ("acknowledgedBy", JStr (sa_AcknowledgedBy v));
       ("acknowledgedAt", JTime (sa_AcknowledgedAt v))]
      ++ str_omit "note" (sa_Note v) ++ [("classification", JStr (sa_Classification v))]
  | PSosResolved v =>
      [("sosAlertId", JStr (sx_SosAlertID v)); ("reporterId", JStr (sx_ReporterID v));
       ("vesselReference", JStr (sx_VesselReference v)); ("resolvedBy", JStr (sx_ResolvedBy v));
       ("resolvedAt", JTime (sx_ResolvedAt v))]
      ++ str_omit "note" (sx_Note v) ++ [("classification", JStr (sx_Classification v))]
  | POther fields => fields
  end.

(** ** Envelopes *)

Definition EnvelopeVersion_ : string := "1.0".
Definition Producer : string := "blueeconomy-geo-service".
Definition EventVesselPosition : string := "geo.vessel-position.v1".
Definition EventVesselStatic : string := "geo.vessel-static.v1".
Definition EventGeofenceEvent : string := "geo.geofence-event.v1".
Definition EventAppPositionReport : string := "geo.app-position-report.v1".
Definition EventSOS : string := "geo.sos.v1".
Definition EventSOSAcknowledged : string := "geo.sos-acknowledged.v1".
Definition EventSOSResolved : string := "geo.sos-resolved.v1".
Definition EventTrackWindow : string := "geo.track-window.v1".
Definition EventPortApproachEta : string := "geo.port-approach-eta.v1".
Definition EventSafetyInspection : string := "safety.inspection.v1".
Definition EventSafetySAR : string := "safety.sar.v1".
Definition EventSafetyInvestigation : string := "safety.investigation.v1".
Definition typeURLPrefix : string := "type.googleapis.com/blueeconomy.contracts.v1.".

Definition eventResourceType : gmap string string := list_to_map
  [(EventVesselPosition, "VesselPositionReported"); (EventVesselStatic, "VesselStaticReported");
   (EventGeofenceEvent, "GeofenceEventRecorded"); (EventAppPositionReport, "AppPositionReported");
   (EventSOS, "SosAlertRaised"); (EventSOSAcknowledged, "SosAlertAcknowledged");
   (EventSOSResolved, "SosAlertResolved"); (EventTrackWindow, "VesselTrackWindow");
   (EventPortApproachEta, "PortApproachEta"); (EventSafetyInspection, "SafetyInspectionLifecycle");
   (EventSafetySAR, "SafetySarLifecycle"); (EventSafetyInvestigation, "SafetyInvestigationLifecycle")].

Definition sosEventTypes : list string :=
  [EventSOS; EventSOSAcknowledged; EventSOSResolved; EventSafetyInspection; EventSafetySAR;
   EventSafetyInvestigation].

Record Provenance := mkProvenance {
  PrincipalID : string; PrincipalRole : string; LedgerCommitHash : string; Signature : string }.

(** The message bundle: its identifier and the single entry. *)
Record fhirBundle := mkBundle { BundleID : string; FullURL : string; Resource : list (string * json) }.

Record Envelope := mkEnvelope {
  EnvelopeVersion : string;
  EventID : string;
  EventType : string;
  OccurredAt : Z;
  env_Producer : string;
  CorrelationID : string;
  env_Classification : string;
  RecordClassification : string;
  FHIR : fhirBundle;
  env_Provenance : Provenance;
}.

Inductive sign_error :=
| SignerRequired
| UnknownEventType
| CorrelationRequired
| PrincipalRequired
| PayloadNotEncodable
| PayloadNotObject
| PayloadTypeClash
| ClassificationNotString
| ClassificationInvalid
| ClassificationMissing
| ClassificationFloor
| OccurredAtRequired
| SignatureFailed.

Definition field (k : string) (fs : list (string * json)) : option json :=
  snd <$> List.find (λ kv, String.eqb k kv.1) fs.

(** Re-marshalling a map sorts its keys. *)
Definition with_type (url : string) (fs : list (string * json)) : list (string * json) :=
  sort_by fst (("@type", JStr url) :: fs).

Definition set_signature (p : Provenance) (s : string) : Provenance :=
  mkProvenance (PrincipalID p) (PrincipalRole p) (LedgerCommitHash p) s.

Section envelope.
(** [signer.Sign]: canonicalize and sign, or fail.  [None] is a nil signer. *)
Context (signer : option (Envelope → option string)).

(** [bundle], [entry] and [event] are the three fresh UUIDs. *)
Definition NewEnvelope (eventType correlationID : string) (p : payload) (occurredAt : Z)
  (principal : Provenance) (bundle entry event : string) : result sign_error Envelope :=
  match signer with
  | None => Err SignerRequired
  | Some Sign =>
  match eventResourceType !! eventType with
  | None => Err UnknownEventType
  | Some resourceType =>
      if blank correlationID then Err CorrelationRequired
      else if blank (PrincipalID principal) || blank (PrincipalRole principal) then Err PrincipalRequired
      else
        let resource := payload_fields p in
        if negb (encodable (JObj resource)) then Err PayloadNotEncodable
        else if bool_decide (resource = []) then Err PayloadNotObject
        else match field "@type" resource with
        | Some _ => Err PayloadTypeClash
        | None =>
            contentClass ← match field "classification" resource with
                           | None => Err ClassificationMissing
                           | Some (JStr text) =>
                               match ParseClassification text with
                               | Ok c => Ok c | Err _ => Err ClassificationInvalid end
                           | Some (JTime _) => Err ClassificationInvalid
                           | Some _ => Err ClassificationNotString
                           end;
            if bool_decide (eventType ∈ sosEventTypes) && (Rank contentClass <? Rank ClassificationRestricted)
            then Err ClassificationFloor
            else if time_IsZero occurredAt then Err OccurredAtRequired
            else
              let envelope := mkEnvelope EnvelopeVersion_ event eventType occurredAt Producer correlationID
                contentClass ""
                (mkBundle ("bdl-" +:+ bundle) ("urn:uuid:" +:+ entry)
                   (with_type (typeURLPrefix +:+ resourceType) resource))
                principal in
              match Sign envelope with
              | None => Err SignatureFailed
              | Some signature =>
                  Ok (mkEnvelope (EnvelopeVersion envelope) (EventID envelope) (EventType envelope)
                        (OccurredAt envelope) (env_Producer envelope) (CorrelationID envelope)
                        (env_Classification envelope) (RecordClassification envelope) (FHIR envelope)
                        (set_signature principal signature))
              end
        end
  end
  end.
End envelope.

(** ** Properties *)

(** The classification a typed payload asserts. *)
Definition payload_class (p : payload) : option string :=
  match p with
  | PVesselPosition v => Some (vp_Classification v)
  | PVesselStatic v => Some (vs_Classification v)
  | PGeofenceEvent v => Some (gr_Classification v)
  | PAppPosition v => Some (ap_Classification v)
  | PSosRaised v => Some (so_Classification v)
  | PSosAcknowledged v => Some (sa_Classification v)
  | PSosResolved v => Some (sx_Classification v)
  | POther _ => None
  end.

Lemma field_skip_str k k' s fs : String.eqb k k' = false → field k (str_omit k' s ++ fs) = field k fs.
Proof. intros Hk. unfold str_omit. destruct (String.eqb s ""); [done|]. unfold field. simpl. by rewrite Hk. Qed.
Lemma field_skip_opt {A} k k' (f : A → json) o fs :
  String.eqb k k' = false → field k (opt_omit k' f o ++ fs) = field k fs.
Proof. intros Hk. destruct o; [|done]. unfold field. simpl. by rewrite Hk. Qed.
Lemma field_skip_cons k k' v fs : String.eqb k k' = false → field k ((k', v) :: fs) = field k fs.
Proof. intros Hk. unfold field. simpl. by rewrite Hk. Qed.

Ltac skip_fields :=
  repeat first
    [ rewrite field_skip_cons by reflexivity | rewrite field_skip_str by reflexivity
    | rewrite field_skip_opt by reflexivity | rewrite app_nil_l
    | progress cbn [app] ].

(** A typed payload never clashes with the type key and always carries its
    classification. *)
Lemma typed_fields p c :
  payload_class p = Some c →
  field "@type" (payload_fields p) = None ∧ field "classification" (payload_fields p) = Some (JStr c) ∧
  payload_fields p ≠ [].
Proof.
  destruct p; intros [= <-]; cbn [payload_fields]; (split_and!; [|skip_fields; reflexivity|done]);
    rewrite <- (app_nil_r (_ ++ _)), <- !app_assoc; skip_fields; reflexivity.
Qed.

(** The envelope before its signature is filled in. *)
Definition unsigned_envelope (eventType resourceType correlationID c : string) (p : payload) (occurredAt : Z)
  (principal : Provenance) (bundle entry event : string) : Envelope :=
  mkEnvelope "1.0" event eventType occurredAt "blueeconomy-geo-service" correlationID c ""
    (mkBundle ("bdl-" +:+ bundle) ("urn:uuid:" +:+ entry)
       (with_type (typeURLPrefix +:+ resourceType) (payload_fields p))) principal.
Definition sign_with (e : Envelope) (s : string) : Envelope :=
  mkEnvelope (EnvelopeVersion e) (EventID e) (EventType e) (OccurredAt e) (env_Producer e)
    (CorrelationID e) (env_Classification e) (RecordClassification e) (FHIR e)
    (set_signature (env_Provenance e) s).

Lemma signed_iff (Sign : Envelope → option string) u env (rt : string) (P1 P2 P3 P4 P5 P6 P7 : Prop) f :
  P1 → P2 → P3 → P4 → P5 → P6 → P7 → f rt = u →
  match Sign u with Some s => Ok (sign_with u s) | None => Err SignatureFailed end = Ok env ↔
  P1 ∧ P2 ∧ P3 ∧ P4 ∧ P5 ∧ P6 ∧ P7 ∧
  ∃ rt' s, Some rt = Some rt' ∧ Sign (f rt') = Some s ∧ env = sign_with (f rt') s.
Proof.
  intros ??????? Hf. split.
  - destruct (Sign u) as [s|] eqn:E; [|done]. intros [= <-]. split_and!; try done.
    exists rt, s. by rewrite Hf.
  - intros (_ & _ & _ & _ & _ & _ & _ & rt' & s & [= <-] & Hs & ->). rewrite Hf in Hs |- *. by rewrite Hs.
Qed.

(** An envelope is built exactly under the contract, and is exactly what the
    contract says: for a payload asserting label [c], the event type is known, the
    correlation id, principal and role are not blank, the trimmed label is on the
    ladder and at least RESTRICTED for the SOS and safety families, the time is set,
    and signing succeeds; then the envelope carries that label, the payload's fields
    with the governing type, and the signature over all of it. *)
Theorem NewEnvelope_contract (Sign : Envelope → option string) (eventType correlationID c : string)
  (p : payload) (occurredAt : Z) (principal : Provenance) (bundle entry event : string) (env : Envelope)
  (Hc : payload_class p = Some c) :
  NewEnvelope (Some Sign) eventType correlationID p occurredAt principal bundle entry event = Ok env ↔
  blank correlationID = false ∧ blank (PrincipalID principal) = false ∧
  blank (PrincipalRole principal) = false ∧ encodable (JObj (payload_fields p)) = true ∧
  TrimSpace c ∈ ladder ∧ (eventType ∈ sosEventTypes → 2 ≤ Rank (TrimSpace c)) ∧
  occurredAt ≠ zero_time ∧
  ∃ resourceType signature,
    eventResourceType !! eventType = Some resourceType ∧
    let u := unsigned_envelope eventType resourceType correlationID (TrimSpace c) p occurredAt principal
               bundle entry event in
    Sign u = Some signature ∧ env = sign_with u signature.
Proof.
  apply typed_fields in Hc as (Htype & Hclass & Hne). unfold NewEnvelope, unsigned_envelope.
  destruct (eventResourceType !! eventType) as [rt|]; [|naive_solver].
  destruct (blank correlationID); [naive_solver|].
  destruct (blank (PrincipalID principal)), (blank (PrincipalRole principal)); simpl orb; try naive_solver.
  destruct (encodable _); simpl negb; [|naive_solver].
  rewrite bool_decide_eq_false_2, Htype, Hclass by done. unfold ParseClassification.
  destruct (decide (TrimSpace c ∈ ladder)) as [Hl|Hl];
    [rewrite (bool_decide_eq_true_2 (TrimSpace c ∈ ladder)) by done
    |rewrite (bool_decide_eq_false_2 (TrimSpace c ∈ ladder)) by done; naive_solver].
  cbn [mbind result_bind]. change (Rank ClassificationRestricted) with 2.
  destruct (decide (eventType ∈ sosEventTypes)) as [Hs|Hs];
    [rewrite bool_decide_eq_true_2 by done|rewrite bool_decide_eq_false_2 by done]; simpl andb.
  - destruct (Rank (TrimSpace c) <? 2) eqn:Er; bool_to_prop.
    { split; [done|]. intros (_ & _ & _ & _ & _ & Hr & _). specialize (Hr Hs). lia. }
    unfold time_IsZero. destruct (occurredAt =? zero_time) eqn:Et; bool_to_prop; [naive_solver|].
    by apply signed_iff.
  - unfold time_IsZero. destruct (occurredAt =? zero_time) eqn:Et; bool_to_prop; [naive_solver|].
    by apply signed_iff.
Qed.

Definition sos_lagos : payload :=
  PSosRaised (mkSOS "sos-1" "reporter-1" "MV BLUE" 6450000 3400000 (100 * second) "out-1" "taking water" " RESTRICTED").
Definition test_principal : Provenance := mkProvenance "geo-ingest" "SYSTEM" "" "".

Lemma NewEnvelope_contract_witness :
  let u := unsigned_envelope EventSOS "SosAlertRaised" "sos-1" "RESTRICTED" sos_lagos (100 * second)
             test_principal "b" "e" "v" in
  NewEnvelope (Some (λ _, Some "sig")) EventSOS "sos-1" sos_lagos (100 * second) test_principal "b" "e" "v"
  = Ok (sign_with u "sig").
Proof.
  cbv zeta.
  apply (NewEnvelope_contract (λ _, Some "sig") EventSOS "sos-1" " RESTRICTED"); [reflexivity|].
  change (TrimSpace " RESTRICTED") with ClassificationRestricted.
  split_and!; try (vm_compute; reflexivity).
  - apply list_elem_of_In. vm_compute. auto.
  - intros _. vm_compute. discriminate.
  - vm_compute. discriminate.
  - exists "SosAlertRaised", "sig". split; [vm_compute; reflexivity|]. cbv zeta.
    split; reflexivity.
Defined.
