(* ===== verification/Jws.v ===== *)
(** * Envelope signatures

    [internal/sign/signing.go]: the private key and its epoch, the JWS compact
    serialization (EdDSA) over the canonical JSON of an envelope without its
    signature, and its verification.  Ed25519, [encoding/json] and the RFC 8785
    transform are interfaces; base64 and the assembly of the serialization are the
    definitions of the code. *)
From S2P Require Import Prelude Dedup Sha256 Base64 Classification Sign.

(** [crypto/ed25519]; keys and signatures are lists of bytes. *)
Class Ed25519 := {
  ed25519_Sign : list Z → string → list Z;
  ed25519_Verify : list Z → string → list Z → bool;
  ed25519_Public : list Z → list Z;
  NewKeyFromSeed : list Z → list Z;
}.
Definition PublicKeySize : nat := 32.
Definition PrivateKeySize : nat := 64.
Definition SeedSize : nat := 32.

(** A signature verifies under the public half of the key that made it. *)
Class Ed25519Laws `{Ed25519} := {
  ed25519_correct priv m :
    length priv = PrivateKeySize → ed25519_Verify (ed25519_Public priv) m (ed25519_Sign priv m) = true;
  ed25519_bytes priv m : Forall is_byte (ed25519_Sign priv m);
  ed25519_public_size priv : length priv = PrivateKeySize → length (ed25519_Public priv) = PublicKeySize;
}.

(** [encoding/json] and the canonicalizer on texts: the text of a document, the
    text of a document that went through a map, and the two members of a header. *)
Class JsonText := {
  json_Marshal : json → string;
  generic_Marshal : json → string;
  Transform : string → option string;
  text_Valid : string → bool;
  decode_header : string → option (string * string);
}.
Definition header_json (alg kid : string) : json := JObj [("alg", JStr alg); ("kid", JStr kid)].
Definition printable (c : char) : bool := (32 <=? byte_of c) && (byte_of c <=? 126).
(** A header of printable characters is read back. *)
Class JsonTextLaws `{JsonText} := {
  decode_header_Marshal alg kid :
    all_chars printable alg = true → all_chars printable kid = true →
    decode_header (json_Marshal (header_json alg kid)) = Some (alg, kid);
}.

(** Documents whose JSON text keeps every value: strings of valid UTF-8 (others are
    replaced when they are encoded), numbers that a binary64 holds exactly, no
    pre-encoded text, no repeated member. *)
Definition continuation (lo hi : Z) (c : char) : bool := (lo <=? byte_of c) && (byte_of c <=? hi).
Fixpoint utf8_Valid (s : string) : bool :=
  match s with
  | EmptyString => true
  | String a r =>
      let x := byte_of a in
      if x <? 128 then utf8_Valid r
      else match r with
      | EmptyString => false
      | String b r1 =>
          if (194 <=? x) && (x <=? 223) then continuation 128 191 b && utf8_Valid r1
          else match r1 with
          | EmptyString => false
          | String c r2 =>
              if (224 <=? x) && (x <=? 239) then
                continuation (if x =? 224 then 160 else 128) (if x =? 237 then 159 else 191) b
                && continuation 128 191 c && utf8_Valid r2
              else match r2 with
              | EmptyString => false
              | String d r3 =>
                  (240 <=? x) && (x <=? 244) && continuation (if x =? 240 then 144 else 128) (if x =? 244 then 143 else 191) b
                  && continuation 128 191 c && continuation 128 191 d && utf8_Valid r3
              end
          end
      end
  end.
Fixpoint faithful_json (j : json) : bool :=
  match j with
  | JStr s => utf8_Valid s
  | JNum z => Z.abs z <=? 2 ^ 53
  | JTime _ | JBool _ => true
  | JRaw _ => false
  | JArr items => forallb faithful_json items
  | JObj fs =>
      bool_decide (NoDup fs.*1) &&
      (fix all (fs : list (string * json)) : bool :=
         match fs with [] => true | (k, v) :: fs' => utf8_Valid k && faithful_json v && all fs' end) fs
  end.
(** The same JSON data: members in whatever order; an instant is a text in JSON. *)
Inductive same_value : json → json → Prop :=
| same_refl j : same_value j j
| same_instant t s : same_value (JTime t) (JStr s)
| same_text s t : same_value (JStr s) (JTime t)
| same_items l l' : Forall2 same_value l l' → same_value (JArr l) (JArr l')
| same_members fs fs' : (∀ k, option_Forall2 same_value (field k fs) (field k fs')) → same_value (JObj fs) (JObj fs').
(** RFC 8785: documents with the same canonical text are the same data. *)
Class CanonicalLaws `{JsonText} := {
  canonical_injective d d' text :
    faithful_json d = true → faithful_json d' = true →
    Transform (generic_Marshal d) = Some text → Transform (generic_Marshal d') = Some text → same_value d d';
}.

Definition split_dots : string → list string := split_on (char_of 46).

Definition hex_digit (c : char) : option Z :=
  let b := byte_of c in
  if (48 <=? b) && (b <=? 57) then Some (b - 48)
  else if (97 <=? b) && (b <=? 102) then Some (b - 87)
  else if (65 <=? b) && (b <=? 70) then Some (b - 55)
  else None.
(** [hex.DecodeString]. *)
Fixpoint hex_DecodeString (s : string) : option (list Z) :=
  match s with
  | EmptyString => Some []
  | String a (String b s') =>
      h ← hex_digit a; l ← hex_digit b; rest ← hex_DecodeString s'; Some (h * 16 + l :: rest)
  | String _ EmptyString => None
  end.

(** ** The serialization *)

Definition b64 (text : string) : string := EncodeToString RawURLEncoding (string_bytes text).
Definition unb64 (text : string) : option string := bytes_string <$> DecodeString RawURLEncoding text.
Definition signing_input (header payload : string) : string := b64 header +:+ "." +:+ b64 payload.
Definition compact (header payload : string) (signature : list Z) : string :=
  signing_input header payload +:+ "." +:+ EncodeToString RawURLEncoding signature.

Definition signingAlgorithm : string := "EdDSA".
Definition keyIDPrefix : string := "blueeconomy-geo-service-".

Inductive key_error := KeyEmpty | KeyMalformed | KeySize | ProducerRequired | ProducerCharacter | EpochRequired | EpochNotDecimal.

Record Signer := mkKeySigner { privateKey : list Z; kid : string }.

Section sign.
Context `{Ed25519} `{JsonText}.

Definition key_decoders : list (string → option (list Z)) := (DecodeString <$> encodings) ++ [hex_DecodeString].
(** The first encoding that yields a key of a valid length. *)
Fixpoint first_key (decoders : list (string → option (list Z))) (encoded : string) : option (list Z) :=
  match decoders with
  | [] => None
  | decode_ :: rest =>
      match decode_ encoded with
      | None => first_key rest encoded
      | Some raw =>
          if Nat.eqb (length raw) SeedSize then Some (NewKeyFromSeed raw)
          else if Nat.eqb (length raw) PrivateKeySize then Some raw
          else first_key rest encoded
      end
  end.
Definition ParsePrivateKey (encoded : string) : result key_error (list Z) :=
  let encoded := TrimSpace encoded in
  if String.eqb encoded "" then Err KeyEmpty
  else match first_key key_decoders encoded with Some k => Ok k | None => Err KeyMalformed end.

Definition producer_char (c : char) : bool :=
  let b := byte_of c in
  ((97 <=? b) && (b <=? 122)) || is_digit c || (b =? 45) || (b =? 46) || (b =? 95).
Definition NewSignerForProducer (privateKey : list Z) (keyEpoch producer : string) : result key_error Signer :=
  if negb (Nat.eqb (length privateKey) PrivateKeySize) then Err KeySize
  else if negb (Nat.eqb (length (ed25519_Public privateKey)) PublicKeySize) then Err KeySize
  else
    let producer := TrimSpace producer in
    if Nat.eqb (String.length producer) 0 || Nat.ltb 128 (String.length producer) then Err ProducerRequired
    else if negb (all_chars producer_char producer) then Err ProducerCharacter
    else
      let keyEpoch := TrimSpace keyEpoch in
      if String.eqb keyEpoch "" then Err EpochRequired
      else if negb (all_chars is_digit keyEpoch) then Err EpochNotDecimal
      else Ok (mkKeySigner privateKey (producer +:+ "-" +:+ keyEpoch)).
Definition NewSigner (privateKey : list Z) (keyEpoch : string) : result key_error Signer :=
  NewSignerForProducer privateKey keyEpoch Producer.

Inductive env_error := EnvKeyMissing | EnvKey (e : key_error) | EnvEpochMissing | EnvSigner (e : key_error).
Definition SignerFromEnvForProducer (getenv : string → string) (producer : string) : result env_error Signer :=
  let encoded := getenv "ENVELOPE_SIGNING_PRIVATE_KEY" in
  if String.eqb encoded "" then Err EnvKeyMissing
  else
    match ParsePrivateKey encoded with
    | Err e => Err (EnvKey e)
    | Ok privateKey =>
        let epoch := getenv "ENVELOPE_SIGNING_KEY_EPOCH" in
        if String.eqb epoch "" then Err EnvEpochMissing
        else match NewSignerForProducer privateKey epoch producer with
             | Err e => Err (EnvSigner e)
             | Ok signer => Ok signer
             end
    end.

Definition KeyID (signer : Signer) : string := kid signer.
Definition PublicKey (signer : Signer) : list Z := ed25519_Public (privateKey signer).
Definition protectedHeaderJSON (kid : string) : string := json_Marshal (header_json signingAlgorithm kid).

(** ** Envelopes as documents *)

Definition bundle_json (b : fhirBundle) : json :=
  JObj [("resourceType", JStr "Bundle"); ("type", JStr "message"); ("bundleId", JStr (BundleID b));
        ("entry", JArr [JObj [("fullUrl", JStr (FullURL b)); ("resource", JObj (Resource b))]])].
Definition provenance_fields (p : Provenance) : list (string * json) :=
  [("principalId", JStr (PrincipalID p)); ("principalRole", JStr (PrincipalRole p));
   ("ledgerCommitHash", JStr (LedgerCommitHash p)); ("signature", JStr (Signature p))].
Definition envelope_json (provenance : list (string * json)) (e : Envelope) : json :=
  JObj ([("envelopeVersion", JStr (EnvelopeVersion e)); ("eventId", JStr (EventID e)); ("eventType", JStr (EventType e));
         ("occurredAt", JTime (OccurredAt e)); ("producer", JStr (env_Producer e));
         ("correlationId", JStr (CorrelationID e)); ("classification", JStr (env_Classification e))]
        ++ str_omit "recordClassification" (RecordClassification e)
        ++ [("fhir", bundle_json (FHIR e)); ("provenance", JObj provenance)]).
(** [delete(provenance, "signature")]. *)
Definition without_signature (fs : list (string * json)) : list (string * json) :=
  filter (λ kv, kv.1 ≠ "signature") fs.

Definition canonicalPayload (e : Envelope) : option string :=
  let fields := provenance_fields (env_Provenance e) in
  if encodable (envelope_json fields e)
  then Transform (generic_Marshal (envelope_json (without_signature fields) e))
  else None.

Definition sign_text (signer : Signer) (payload : string) : string :=
  let header := protectedHeaderJSON (kid signer) in
  compact header payload (ed25519_Sign (privateKey signer) (signing_input header payload)).
Definition SignCanonical (signer : Signer) (payload : string) : option string :=
  if String.eqb payload "" || negb (text_Valid payload) then None else Some (sign_text signer payload).
Definition Sign (signer : Signer) (e : Envelope) : option string := sign_text signer <$> canonicalPayload e.

Inductive verify_error :=
| KeyNotEd25519 | NotCompact | HeaderNotBase64 | HeaderNotJSON | AlgMismatch | KidMismatch | SignatureNotBase64
| PayloadNotCanonical | PayloadMismatch | SignatureInvalid.

Definition Verify (e : Envelope) (publicKey : list Z) : result verify_error unit :=
  if negb (Nat.eqb (length publicKey) PublicKeySize) then Err KeyNotEd25519
  else
    match split_dots (Signature (env_Provenance e)) with
    | [h64; p64; s64] =>
        match unb64 h64 with
        | None => Err HeaderNotBase64
        | Some header =>
            match decode_header header with
            | None => Err HeaderNotJSON
            | Some (alg, kid) =>
                if negb (String.eqb alg signingAlgorithm) then Err AlgMismatch
                else if negb (HasPrefix kid keyIDPrefix) then Err KidMismatch
                else
                  match DecodeString RawURLEncoding s64 with
                  | None => Err SignatureNotBase64
                  | Some signature =>
                      match canonicalPayload e with
                      | None => Err PayloadNotCanonical
                      | Some canonical =>
                          if negb (String.eqb (b64 canonical) p64) then Err PayloadMismatch
                          else if ed25519_Verify publicKey (h64 +:+ "." +:+ p64) signature then Ok tt
                          else Err SignatureInvalid
                      end
                  end
            end
        end
    | _ => Err NotCompact
    end.

(** [VerifySignedEnvelope] of [internal/mrv/envelope.go]: decode, then verify. *)
Definition VerifySignedEnvelope (decode_envelope : string → option Envelope) (raw : string) (publicKey : list Z) :
  option (result verify_error unit) := (λ e, Verify e publicKey) <$> decode_envelope raw.
End sign.

(** ** Round trip and binding *)

Lemma bytes_string_bytes s : bytes_string (string_bytes s) = s.
Proof. induction s as [|c s IH]; [done|]. simpl. f_equal; [apply char_of_byte_of|exact IH]. Qed.
Lemma string_bytes_are_bytes s : Forall is_byte (string_bytes s).
Proof. induction s; constructor; [apply byte_of_range|done]. Qed.
Lemma unb64_b64 s : unb64 (b64 s) = Some s.
Proof.
  unfold unb64, b64. rewrite base64_roundtrip; [|by left|apply string_bytes_are_bytes].
  simpl. by rewrite bytes_string_bytes.
Qed.
Lemma b64_inj s s' : b64 s = b64 s' → s = s'.
Proof. intros E. apply (f_equal unb64) in E. rewrite !unb64_b64 in E. by simplify_eq. Qed.

Definition free_of (c : char) (s : string) : bool := all_chars (λ a, negb (Ascii.eqb a c)) s.
Lemma all_chars_of_list p l : Forall (λ c, p c = true) l → all_chars p (String.string_of_list_ascii l) = true.
Proof. induction 1; simpl; [done|]. apply andb_true_iff. eauto. Qed.
Lemma EncodeToString_no_dot l :
  Forall is_byte l → free_of (char_of 46) (EncodeToString RawURLEncoding l) = true.
Proof.
  intros Hl. apply all_chars_of_list. eapply Forall_impl; [by apply RawURLEncoding_no_dot|].
  intros c Hc. by apply negb_true_iff, Ascii.eqb_neq.
Qed.

Lemma split_on_app c p s : free_of c p = true → split_on c (p +:+ String c s) = p :: split_on c s.
Proof.
  induction p as [|a p IH]; simpl; intros Hp; [by rewrite Ascii.eqb_refl|].
  apply andb_true_iff in Hp as [Ha%negb_true_iff Hp]. by rewrite Ha, IH.
Qed.
Lemma split_on_free c p : free_of c p = true → split_on c p = [p].
Proof.
  induction p as [|a p IH]; simpl; intros Hp; [done|].
  apply andb_true_iff in Hp as [Ha%negb_true_iff Hp]. by rewrite Ha, IH.
Qed.
Lemma split_on_three c a b d s :
  split_on c s = [a; b; d] → s = a +:+ String c (b +:+ String c d).
Proof.
  assert (∀ s p ps, split_on c s = p :: ps →
    (ps = [] ∧ s = p) ∨ ∃ s', s = p +:+ String c s' ∧ split_on c s' = ps) as Hs.
  { clear s. intros s. induction s as [|x s' IH]; intros p ps; simpl; [intros [= <- <-]; by left|].
    destruct (Ascii.eqb x c) eqn:E.
    - apply Ascii.eqb_eq in E as ->. intros [= <- <-]. right. by exists s'.
    - destruct (split_on c s') as [|q qs] eqn:Eq; [by destruct s'; simpl in Eq; [|destruct (Ascii.eqb _ _), (split_on _ _)]|].
      intros [= <- <-]. destruct (IH q qs eq_refl) as [[-> ->]|(t & -> & Ht)]; [by left|].
      right. by exists t. }
  intros [[? _]|(s1 & -> & [[? _]|(s2 & -> & [[_ ->]|(s3 & _ & E)]%Hs)]%Hs)]%Hs; try done.
  destruct s3; simpl in E; [done|]. destruct (Ascii.eqb _ _), (split_on _ _); done.
Qed.

Lemma split_on_pieces c s : Forall (λ p, free_of c p = true) (split_on c s).
Proof.
  induction s as [|a s IH]; simpl; [by repeat constructor|].
  destruct (Ascii.eqb a c) eqn:E; [by constructor|].
  destruct (split_on c s) as [|p ps]; simpl; [constructor; [unfold free_of; simpl; by rewrite E|done]|].
  apply Forall_cons in IH as [Hp Hps]. constructor; [|done]. unfold free_of in *. simpl. by rewrite E.
Qed.

Lemma dot_app s : "." +:+ s = String (char_of 46) s.
Proof. reflexivity. Qed.
Lemma split_compact header payload signature :
  Forall is_byte signature →
  split_dots (compact header payload signature)
    = [b64 header; b64 payload; EncodeToString RawURLEncoding signature].
Proof.
  intros Hs. unfold compact, signing_input, split_dots. rewrite <- !string_app_assoc, !dot_app.
  rewrite split_on_app by (apply EncodeToString_no_dot, string_bytes_are_bytes).
  rewrite split_on_app by (apply EncodeToString_no_dot, string_bytes_are_bytes).
  by rewrite split_on_free by (by apply EncodeToString_no_dot).
Qed.

Definition with_signature (e : Envelope) (s : string) : Envelope :=
  mkEnvelope (EnvelopeVersion e) (EventID e) (EventType e) (OccurredAt e) (env_Producer e) (CorrelationID e)
    (env_Classification e) (RecordClassification e) (FHIR e) (set_signature (env_Provenance e) s).

Section laws.
Context {Hed : Ed25519} {Hlaws : Ed25519Laws} {Hjson : JsonText} {Hjlaws : JsonTextLaws}.

Lemma without_signature_fields p :
  without_signature (provenance_fields p)
    = [("principalId", JStr (PrincipalID p)); ("principalRole", JStr (PrincipalRole p));
       ("ledgerCommitHash", JStr (LedgerCommitHash p))].
Proof. reflexivity. Qed.
(** The signature is not part of what is signed. *)
Lemma canonicalPayload_signature e s : canonicalPayload (with_signature e s) = canonicalPayload e.
Proof.
  unfold canonicalPayload. rewrite !without_signature_fields. destruct e as [? ? ? ? ? ? ? rc ? ?].
  unfold envelope_json, str_omit. cbn [RecordClassification with_signature]. by destruct (String.eqb rc "").
Qed.

Lemma all_chars_impl (p q : char → bool) s :
  (∀ c, p c = true → q c = true) → all_chars p s = true → all_chars q s = true.
Proof.
  intros Hpq. induction s as [|c s IH]; simpl; [done|]. rewrite !andb_true_iff. naive_solver.
Qed.
Lemma NewSigner_spec priv epoch producer signer :
  NewSignerForProducer priv epoch producer = Ok signer →
  privateKey signer = priv ∧ length priv = PrivateKeySize ∧ kid signer = TrimSpace producer +:+ "-" +:+ TrimSpace epoch ∧
  all_chars printable (kid signer) = true.
Proof.
  unfold NewSignerForProducer. intros E. branches E. bool_to_prop.
  split_and!; [done|by apply Nat.eqb_eq|done|].
  rewrite !all_chars_app, !andb_true_iff. split_and!; [|done|];
    (eapply all_chars_impl; [|eassumption]); intros c Hc; unfold producer_char, is_digit, printable in *;
    apply andb_true_iff; rewrite ?orb_true_iff, ?andb_true_iff in Hc; lia.
Qed.

Lemma HasPrefix_app p s : HasPrefix (p +:+ s) p = true.
Proof.
  unfold HasPrefix. assert (strip_prefix p (p +:+ s) = Some s) as ->; [|done].
  induction p as [|c p IH]; simpl; [by destruct s|]. by rewrite Ascii.eqb_refl.
Qed.
Lemma HasPrefix_app_l s t p : HasPrefix s p = true → HasPrefix (s +:+ t) p = true.
Proof.
  unfold HasPrefix. revert s. induction p as [|c p IH]; intros [|a s]; simpl; try done.
  destruct (Ascii.eqb c a); [apply IH|done].
Qed.

(** C33: A signature made by a signer of this service or of one of its deployables
    (the producer name is [blueeconomy-geo-service] or begins with it and a dash)
    verifies: [Verify] accepts the envelope that carries what [Sign] returned, under
    the public half of the signing key, whatever the envelope says. *)
Theorem Sign_then_Verify priv epoch producer signer e s :
  NewSignerForProducer priv epoch producer = Ok signer →
  TrimSpace producer = Producer ∨ HasPrefix (TrimSpace producer) keyIDPrefix = true →
  Sign signer e = Some s →
  Verify (with_signature e s) (PublicKey signer) = Ok tt.
Proof.
  intros (Hp & Hl & Hk & Hc)%NewSigner_spec Hpre Hs. unfold Sign in Hs.
  apply fmap_Some in Hs as (payload & Hcan & ->). unfold Verify, PublicKey.
  rewrite Hp, ed25519_public_size, Nat.eqb_refl, canonicalPayload_signature by done. cbn [negb].
  cbn [Signature set_signature env_Provenance with_signature]. unfold sign_text.
  rewrite split_compact by apply ed25519_bytes. rewrite unb64_b64. unfold protectedHeaderJSON.
  rewrite decode_header_Marshal, String.eqb_refl by done. cbn [negb].
  assert (HasPrefix (kid signer) keyIDPrefix = true) as ->.
  { rewrite Hk. destruct Hpre as [->|Hpre]; [|by apply HasPrefix_app_l].
    change (Producer +:+ "-" +:+ TrimSpace epoch) with (keyIDPrefix +:+ TrimSpace epoch). apply HasPrefix_app. }
  rewrite base64_roundtrip; [|by left|apply ed25519_bytes]. rewrite Hcan, String.eqb_refl. cbn [negb].
  rewrite Hp. change (b64 ?h +:+ "." +:+ b64 ?p) with (signing_input h p). by rewrite ed25519_correct.
Qed.

Lemma split_parts h payload s :
  free_of (char_of 46) h = true → free_of (char_of 46) s = true →
  split_dots (h +:+ "." +:+ b64 payload +:+ "." +:+ s) = [h; b64 payload; s].
Proof.
  intros Hh Hs. unfold split_dots. rewrite !dot_app, split_on_app by done.
  rewrite split_on_app by (apply EncodeToString_no_dot, string_bytes_are_bytes). by rewrite split_on_free.
Qed.
Lemma Verify_iff e publicKey :
  Verify e publicKey = Ok tt ↔
  length publicKey = PublicKeySize ∧
  ∃ h64 s64 header kid signature canonical,
    Signature (env_Provenance e) = h64 +:+ "." +:+ b64 canonical +:+ "." +:+ s64 ∧
    free_of (char_of 46) h64 = true ∧ free_of (char_of 46) s64 = true ∧
    unb64 h64 = Some header ∧ decode_header header = Some (signingAlgorithm, kid) ∧
    HasPrefix kid keyIDPrefix = true ∧ DecodeString RawURLEncoding s64 = Some signature ∧
    canonicalPayload e = Some canonical ∧
    ed25519_Verify publicKey (h64 +:+ "." +:+ b64 canonical) signature = true.
Proof.
  unfold Verify. split.
  - intros E. branches E. bool_to_prop.
    match goal with H : split_dots _ = _ |- _ => rename H into Hsp end.
    pose proof (split_on_pieces (char_of 46) (Signature (env_Provenance e))) as Hfree.
    unfold split_dots in Hsp. rewrite Hsp in Hfree. apply split_on_three in Hsp as ->.
    rewrite !Forall_cons in Hfree. destruct Hfree as (? & ? & ? & _). subst.
    split; [by apply Nat.eqb_eq|]. eexists _, _, _, _, _, _. split_and!; [reflexivity|..]; eauto.
  - intros (-> & h64 & s64 & header & k & sig & c & -> & Hh & Hs & Hu & Hd & Hk & Hb & Hc & Hv).
    rewrite split_parts by done. rewrite Nat.eqb_refl, Hu, Hd, String.eqb_refl, Hk, Hb, Hc, String.eqb_refl, Hv. done.
Qed.

(** ** What a signature covers *)

(** What is signed: the envelope without its signature. *)
Definition signed_document (e : Envelope) : json := envelope_json (without_signature (provenance_fields (env_Provenance e))) e.
(** Two envelopes that say the same. *)
Record same_envelope (e e' : Envelope) : Prop := {
  same_version : EnvelopeVersion e' = EnvelopeVersion e;
  same_event : EventID e' = EventID e;
  same_type : EventType e' = EventType e;
  same_occurred : OccurredAt e' = OccurredAt e;
  same_producer : env_Producer e' = env_Producer e;
  same_correlation : CorrelationID e' = CorrelationID e;
  same_label : env_Classification e' = env_Classification e;
  same_record_label : RecordClassification e' = RecordClassification e;
  same_bundle : BundleID (FHIR e') = BundleID (FHIR e);
  same_url : FullURL (FHIR e') = FullURL (FHIR e);
  same_resource : same_value (JObj (Resource (FHIR e))) (JObj (Resource (FHIR e')));
  same_principal : PrincipalID (env_Provenance e') = PrincipalID (env_Provenance e);
  same_role : PrincipalRole (env_Provenance e') = PrincipalRole (env_Provenance e);
  same_ledger : LedgerCommitHash (env_Provenance e') = LedgerCommitHash (env_Provenance e);
}.

Lemma same_value_str s s' : same_value (JStr s) (JStr s') → s' = s.
Proof. by inversion 1. Qed.
Lemma same_value_time t t' : same_value (JTime t) (JTime t') → t' = t.
Proof. by inversion 1. Qed.
Lemma same_value_refl_members fs : ∀ k, option_Forall2 same_value (field k fs) (field k fs).
Proof. intros k. destruct (field k fs); constructor. constructor. Qed.
Lemma same_value_obj fs fs' k : same_value (JObj fs) (JObj fs') → option_Forall2 same_value (field k fs) (field k fs').
Proof. inversion 1; subst; [apply same_value_refl_members|done]. Qed.
Lemma same_value_singleton j j' : same_value (JArr [j]) (JArr [j']) → same_value j j'.
Proof. inversion 1 as [| | |l l' Hl|]; subst; [constructor|]. by apply Forall2_cons in Hl as [Hl _]. Qed.
(** The member [k] of both documents. *)
Lemma same_member fs fs' k v v' :
  same_value (JObj fs) (JObj fs') → field k fs = Some v → field k fs' = Some v' → same_value v v'.
Proof. intros Hs Hv Hv'. apply (same_value_obj _ _ k) in Hs. rewrite Hv, Hv' in Hs. by inversion Hs. Qed.

Definition envelope_members (provenance : list (string * json)) (e : Envelope) : list (string * json) :=
  match envelope_json provenance e with JObj fs => fs | _ => [] end.
Lemma members_fhir p e : field "fhir" (envelope_members p e) = Some (bundle_json (FHIR e)).
Proof. unfold envelope_members, envelope_json, str_omit. by destruct (String.eqb _ ""). Qed.
Lemma members_provenance p e : field "provenance" (envelope_members p e) = Some (JObj p).
Proof. unfold envelope_members, envelope_json, str_omit. by destruct (String.eqb _ ""). Qed.
Lemma members_record p e :
  field "recordClassification" (envelope_members p e) =
  if String.eqb (RecordClassification e) "" then None else Some (JStr (RecordClassification e)).
Proof. unfold envelope_members, envelope_json, str_omit. by destruct (String.eqb _ ""). Qed.

Lemma same_document e e' : same_value (signed_document e) (signed_document e') → same_envelope e e'.
Proof.
  unfold signed_document. rewrite !without_signature_fields.
  set (p := [("principalId", _); _; _]). set (p' := [("principalId", JStr (PrincipalID (env_Provenance e'))); _; _]).
  change (envelope_json p e) with (JObj (envelope_members p e)). change (envelope_json p' e') with (JObj (envelope_members p' e')).
  intros Hs.
  pose proof (same_member _ _ _ _ _ Hs (members_provenance p e) (members_provenance p' e')) as Hp.
  pose proof (same_member _ _ _ _ _ Hs (members_fhir p e) (members_fhir p' e')) as Hb.
  pose proof (same_member _ _ "entry" _ _ Hb eq_refl eq_refl) as Hentry%same_value_singleton.
  split.
  - apply same_value_str. by eapply (same_member _ _ "envelopeVersion" _ _ Hs).
  - apply same_value_str. by eapply (same_member _ _ "eventId" _ _ Hs).
  - apply same_value_str. by eapply (same_member _ _ "eventType" _ _ Hs).
  - apply same_value_time. by eapply (same_member _ _ "occurredAt" _ _ Hs).
  - apply same_value_str. by eapply (same_member _ _ "producer" _ _ Hs).
  - apply same_value_str. by eapply (same_member _ _ "correlationId" _ _ Hs).
  - apply same_value_str. by eapply (same_member _ _ "classification" _ _ Hs).
  - apply (same_value_obj _ _ "recordClassification") in Hs. rewrite !members_record in Hs.
    destruct (String.eqb_spec (RecordClassification e) "") as [->|], (String.eqb_spec (RecordClassification e') "") as [->|];
      inversion Hs; subst; [done|by apply same_value_str].
  - apply same_value_str. by eapply (same_member _ _ "bundleId" _ _ Hb).
  - apply same_value_str. by eapply (same_member _ _ "fullUrl" _ _ Hentry).
  - by eapply (same_member _ _ "resource" _ _ Hentry).
  - apply same_value_str. by eapply (same_member _ _ "principalId" _ _ Hp).
  - apply same_value_str. by eapply (same_member _ _ "principalRole" _ _ Hp).
  - apply same_value_str. by eapply (same_member _ _ "ledgerCommitHash" _ _ Hp).
Qed.

End laws.

(** ** Instances that satisfy the laws *)

Module SampleKeys.
(** A keyed digest in place of the curve: the public half is the key. *)
Definition mac (key : list Z) (m : string) : list Z := sha256 (key ++ string_bytes m).
#[export] Instance keys : Ed25519 := {|
  ed25519_Sign := λ priv m, mac (take 32 priv) m;
  ed25519_Verify := λ pub m s, bool_decide (s = mac pub m);
  ed25519_Public := take 32;
  NewKeyFromSeed := λ seed, seed ++ seed |}.
#[export] Instance keys_laws : Ed25519Laws.
Proof.
  split.
  - intros priv m _. simpl. by apply bool_decide_eq_true_2.
  - intros priv m. apply sha256_bytes.
  - intros priv Hp. simpl. rewrite length_take. unfold PrivateKeySize, PublicKeySize in *. lia.
Qed.

(** Documents printed without escapes; a header is its two members on two lines. *)
Fixpoint print (j : json) : string :=
  match j with
  | JStr s => "'" +:+ s +:+ "'"
  | JRaw s => s
  | JNum z | JTime z => show_Z z
  | JBool b => if b then "true" else "false"
  | JArr items => "[" +:+ String.concat "," (print <$> items) +:+ "]"
  | JObj fs =>
      "{" +:+ (fix go (fs : list (string * json)) : string :=
                 match fs with [] => "}" | (k, v) :: fs' => k +:+ ":" +:+ print v +:+ "," +:+ go fs' end) fs
  end.
Definition newline : char := char_of 10.
#[export] Instance texts : JsonText := {|
  json_Marshal := λ j, match j with
                       | JObj [("alg", JStr a); ("kid", JStr k)] => a +:+ String newline k
                       | _ => print j
                       end;
  generic_Marshal := print;
  Transform := Some;
  text_Valid := λ _, true;
  decode_header := λ s, match split_on newline s with [a; k] => Some (a, k) | _ => None end |}.
Lemma printable_no_newline s : all_chars printable s = true → free_of newline s = true.
Proof.
  apply all_chars_impl. intros c Hc. apply negb_true_iff, Ascii.eqb_neq. intros ->. done.
Qed.
#[export] Instance texts_laws : JsonTextLaws.
Proof.
  split. intros alg kid Ha%printable_no_newline Hk%printable_no_newline. simpl.
  by rewrite split_on_app, split_on_free.
Qed.

Definition seed : list Z := Z.of_nat <$> seq 1 32.
Definition private : list Z := seed ++ seed.
Definition envelope : Envelope :=
  mkEnvelope EnvelopeVersion_ "e-1" EventSOS (5 * second) Producer "c-1" "RESTRICTED" "" (mkBundle "bdl-1" "urn:uuid:1" [("@type", JStr "t")])
    (mkProvenance "geo-ingest" "SYSTEM" "" "").
End SampleKeys.

#[local] Existing Instance SampleKeys.keys.
#[local] Existing Instance SampleKeys.keys_laws.
#[local] Existing Instance SampleKeys.texts.
#[local] Existing Instance SampleKeys.texts_laws.

(** ** A canonical text that keeps every value *)

Module SampleCanon.
(** A document as a tree of leaves, and the tree as a text of binary digits. *)
Fixpoint doc_tree (j : json) : gen_tree (string + Z) :=
  match j with
  | JStr s => GenNode 0 [GenLeaf (inl s)]
  | JNum z => GenNode 1 [GenLeaf (inr z)]
  | JTime t => GenNode 2 [GenLeaf (inr t)]
  | JBool b => GenNode (if b then 3 else 4)%nat []
  | JRaw s => GenNode 5 [GenLeaf (inl s)]
  | JArr items => GenNode 6 (doc_tree <$> items)
  | JObj fs =>
      GenNode 7 ((fix go (fs : list (string * json)) :=
                    match fs with [] => [] | (k, v) :: fs' => GenNode 8 [GenLeaf (inl k); doc_tree v] :: go fs' end) fs)
  end.
Fixpoint bits (p : positive) : string :=
  match p with xH => "1" | xO p => String (char_of 48) (bits p) | xI p => String (char_of 49) (bits p) end.
Lemma bits_not_empty p : bits p ≠ "".
Proof. by destruct p. Qed.
Lemma bits_inj p q : bits p = bits q → p = q.
Proof.
  revert q. induction p as [p IH|p IH|]; intros [q|q|] E; cbn in E; simplify_eq; try (f_equal; by apply IH); try done.
  - by destruct (bits_not_empty p).
  - by destruct (bits_not_empty q).
Qed.

(** Induction through the lists of a document. *)
Lemma json_nested_ind (P : json → Prop) :
  (∀ s, P (JStr s)) → (∀ z, P (JNum z)) → (∀ t, P (JTime t)) → (∀ b, P (JBool b)) → (∀ s, P (JRaw s)) →
  (∀ l, Forall P l → P (JArr l)) → (∀ fs, Forall (λ f, P f.2) fs → P (JObj fs)) → ∀ j, P j.
Proof.
  intros H1 H2 H3 H4 H5 H6 H7. fix rec 1. intros [s|z|t|b|s|l|fs].
  - apply H1.
  - apply H2.
  - apply H3.
  - apply H4.
  - apply H5.
  - apply H6. induction l; constructor; auto.
  - apply H7. induction fs as [|[k v] fs IH]; constructor; [apply rec|exact IH].
Qed.
Lemma doc_tree_inj j : ∀ j', doc_tree j = doc_tree j' → j = j'.
Proof.
  induction j as [s|z|t|b|s|l IH|fs IH] using json_nested_ind; intros [s'|z'|t'|b'|s'|l'|fs'] E; cbn [doc_tree] in E;
    try (simplify_eq; done); try (destruct b; simplify_eq; done); try (destruct b'; simplify_eq; done).
  - destruct b, b'; by simplify_eq.
  - injection E as E. f_equal. revert l' E. induction IH as [|j l Hj _ IHl]; intros [|j' l'] E; simplify_eq/=; [done|].
    f_equal; [by apply Hj|by apply IHl].
  - injection E as E. f_equal. revert fs' E. induction IH as [|[k v] fs Hv _ IHf]; intros [|[k' v'] fs'] E; simplify_eq/=; [done|].
    f_equal; [f_equal; by apply Hv|by apply IHf].
Qed.
#[export] Instance canon : JsonText := {|
  json_Marshal := @json_Marshal SampleKeys.texts;
  generic_Marshal := λ j, bits (countable.encode (doc_tree j));
  Transform := Some;
  text_Valid := λ _, true;
  decode_header := @decode_header SampleKeys.texts |}.
#[export] Instance canon_laws : CanonicalLaws.
Proof.
  split. intros d d' text _ _ [= <-] [= E]. assert (d' = d) as ->; [|constructor].
  by apply doc_tree_inj, (inj countable.encode), bits_inj.
Qed.
Definition signer : Signer := mkKeySigner SampleKeys.private "blueeconomy-geo-service-7".
Definition seal : string := default "" (Sign (H0 := canon) signer SampleKeys.envelope).
Definition sealed : Envelope := with_signature SampleKeys.envelope seal.
(** The envelope as sealed verifies; relabelled it does not. *)
Definition relabelled : Envelope :=
  mkEnvelope (EnvelopeVersion sealed) (EventID sealed) (EventType sealed) (OccurredAt sealed) (env_Producer sealed) (CorrelationID sealed)
    "PUBLIC" (RecordClassification sealed) (FHIR sealed) (env_Provenance sealed).
Example relabelling_is_noticed :
  Verify (H0 := canon) sealed (PublicKey signer) = Ok tt ∧ Verify (H0 := canon) relabelled (PublicKey signer) = Err PayloadMismatch.
Proof. vm_compute. split; reflexivity. Qed.
End SampleCanon.


Lemma Sign_then_Verify_witness :
  ∃ signer s, NewSignerForProducer SampleKeys.private "7" "blueeconomy-geo-service-mrv" = Ok signer ∧
    Sign signer SampleKeys.envelope = Some s ∧
    Verify (with_signature SampleKeys.envelope s) (PublicKey signer) = Ok tt.
Proof.
  set (signer := mkKeySigner SampleKeys.private "blueeconomy-geo-service-mrv-7").
  assert (NewSignerForProducer SampleKeys.private "7" "blueeconomy-geo-service-mrv" = Ok signer) as Hs
    by (vm_compute; reflexivity).
  destruct (Sign signer SampleKeys.envelope) as [s|] eqn:E; [|vm_compute in E; discriminate E].
  exists signer, s. split; [exact Hs|]. split; [exact E|].
  apply (Sign_then_Verify _ _ _ _ SampleKeys.envelope s Hs); [right; vm_compute; reflexivity|exact E].
Defined.
