(* ===== verification/Auth.v ===== *)
(** * Authentication and roles

    [internal/auth/auth.go]: the trusted proxy headers, Keycloak tokens against the
    cached key set of the realm, the middleware and the role guard.  RSA, the JSON
    decoders and the parsing of addresses are interfaces; a request of the key set
    yields the body of a 200 answer or nothing. *)
From S2P Require Import Prelude Dedup Sha256 Base64 Classification Sign Jws.

Record Principal := mkPrincipal {
  Subject : string; Roles : gset string; Clearance : string; TenantID : string }.
Definition HasRole (p : Principal) (role : string) : bool := bool_decide (role ∈ Roles p).

Inductive auth_error :=
| ProxyAddressInvalid | ProxyNotApproved | ProxyIdentity | SubjectInvalid | RolesInvalid | ClearanceInvalid
| BearerRequired | JwtCompact | JwtHeader | JwtAlgorithm | JwtKeyUnknown | JwksUnavailable | JwtSignature
| JwtClaims | JwtIssuer | JwtExpired | JwtNotYetValid.

(** ** Validation of identity values *)

Definition validatedSubject (value : string) : result auth_error string :=
  let subject := TrimSpace value in
  if String.eqb subject "" || Nat.ltb 512 (String.length subject) then Err SubjectInvalid else Ok subject.
Definition header_break (c : char) : bool := (byte_of c =? 0) || (byte_of c =? 13) || (byte_of c =? 10).
Fixpoint add_roles (parts : list string) (roles : gset string) : result auth_error (gset string) :=
  match parts with
  | [] => Ok roles
  | part :: rest =>
      let role := TrimSpace part in
      if String.eqb role "" then add_roles rest roles
      else if Nat.ltb 128 (String.length role) || negb (all_chars (λ c, negb (header_break c)) role) then Err RolesInvalid
      else add_roles rest ({[role]} ∪ roles)
  end.
Definition validatedRoles (value : string) : result auth_error (gset string) := add_roles (split_on (char_of 44) value) ∅.
Definition clearance_or_error (value : string) : result auth_error string :=
  match validatedClearance value with Ok c => Ok c | Err _ => Err ClearanceInvalid end.

(** ** The trusted proxy *)

Record Request := mkHttpRequest { RemoteAddr : string; Header : string → string }.
(** A network as [net.ParseCIDR] gives it: number and mask of the same length. *)
Record IPNet := mkIPNet { net_IP : list Z; net_Mask : list Z }.
Class NetAddress := {
  SplitHost : string → option string;
  ParseIP : string → option (list Z);
}.
(** An IPv4 address in 16 bytes is taken to 4. *)
Definition v4_prefix : list Z := repeat 0 10 ++ [255; 255].
Definition To4 (ip : list Z) : list Z :=
  if Nat.eqb (length ip) 16 && bool_decide (take 12 ip = v4_prefix) then drop 12 ip else ip.
Fixpoint masked_equal (nn m ip : list Z) : bool :=
  match nn, m, ip with
  | [], _, [] => true
  | n :: nn', k :: m', i :: ip' => (Z.land n k =? Z.land i k) && masked_equal nn' m' ip'
  | _, _, _ => false
  end.
Definition IPNet_Contains (n : IPNet) (ip : list Z) : bool := masked_equal (net_IP n) (net_Mask n) (To4 ip).

Record TrustedProxy := mkTrustedProxy { CIDRs : list IPNet; Identity : string }.
Definition proxy_Authenticate `{NetAddress} (auth : TrustedProxy) (request : Request) : result auth_error Principal :=
  let addr := TrimSpace (RemoteAddr request) in
  let remoteHost := match SplitHost addr with Some host => host | None => addr end in
  match ParseIP remoteHost with
  | None => Err ProxyAddressInvalid
  | Some remoteIP =>
      if negb (existsb (λ n, IPNet_Contains n remoteIP) (CIDRs auth)) then Err ProxyNotApproved
      else if negb (String.eqb (TrimSpace (Header request "X-Blueeconomy-Authenticated-By")) (Identity auth))
      then Err ProxyIdentity
      else
        match validatedSubject (Header request "X-Blueeconomy-Authenticated-Subject"),
              validatedRoles (Header request "X-Blueeconomy-Authenticated-Roles"),
              clearance_or_error (Header request "X-Blueeconomy-Authenticated-Clearance") with
        | Err e, _, _ => Err e
        | _, Err e, _ => Err e
        | _, _, Err e => Err e
        | Ok subject, Ok roles, Ok clearance =>
            Ok (mkPrincipal subject roles clearance (TrimSpace (Header request "X-Blueeconomy-Tenant-Id")))
        end
  end.

(** ** Keycloak tokens *)

Record rsa_key := mkRsaKey { rsa_N : Z; rsa_E : Z }.
Record claims := mkClaims {
  cl_Issuer : string; cl_Subject : string; cl_Audience : string; cl_Expires : string; cl_NotBefore : string;
  cl_RealmRoles : list string; cl_ResourceRoles : list (list string); cl_Clearance : string; cl_TenantID : string }.
Record jwk := mkJwk { jwk_Kty : string; jwk_Kid : string; jwk_Use : string; jwk_Alg : string; jwk_N : string; jwk_E : string }.
Class JwtText := {
  VerifyPKCS1v15 : rsa_key → list Z → list Z → bool;
  decode_jwt_header : string → option (string * string);
  decode_claims : string → option claims;
  decode_jwks : string → option (list jwk);
  decode_string : string → option string;
  decode_strings : string → option (list string);
}.

(** [json.Number.Int64], that is [strconv.ParseInt] in base 10. *)
Definition ParseInt64 (s : string) : option Z :=
  let '(sign, digits) := match s with
                         | String c s' => if byte_of c =? 45 then (-1, s') else if byte_of c =? 43 then (1, s') else (1, s)
                         | EmptyString => (1, s)
                         end in
  if String.eqb digits "" || negb (all_chars is_digit digits) then None
  else
    let v := sign * dec_value digits in
    if (- 2 ^ 63 <=? v) && (v <? 2 ^ 63) then Some v else None.

(** The credential after the scheme. *)
Definition authorization (scheme value : string) : option string :=
  match cut_first (char_of 32) (TrimSpace value) with
  | Some (word, rest) => if EqualFold word scheme && negb (blank rest) then Some (TrimSpace rest) else None
  | None => None
  end.

Record key_cache := mkKeyCache { ck_keys : gmap string rsa_key; ck_loadedAt : Z }.
Definition no_keys : key_cache := mkKeyCache ∅ zero_time.

Section oidc.
Context `{JwtText}.

Definition cache_fresh (c : key_cache) (now : Z) : bool := time_Sub now (ck_loadedAt c) <? 300 * second.

(** [exponent = exponent<<8 | int(value)] over at most four bytes. *)
Definition approved_key (item : jwk) : option rsa_key :=
  if negb (String.eqb (jwk_Kty item) "RSA") || negb (String.eqb (jwk_Use item) "sig")
     || negb (String.eqb (jwk_Alg item) "RS256") || String.eqb (jwk_Kid item) "" || String.eqb (jwk_N item) ""
     || String.eqb (jwk_E item) ""
  then None
  else
    modulus ← DecodeString RawURLEncoding (jwk_N item);
    exponentBytes ← DecodeString RawURLEncoding (jwk_E item);
    if Nat.eqb (length exponentBytes) 0 || Nat.ltb 4 (length exponentBytes) then None
    else
      let exponent := fold_left (λ e v, Z.lor (Z.shiftl e 8) v) exponentBytes 0 in
      if (exponent <? 3) || (exponent mod 2 =? 0) then None
      else
        let n := be_value modulus in
        if (if n =? 0 then 0 else Z.log2 n + 1) <? 2048 then None else Some (mkRsaKey n exponent).
Definition load_item (loaded : gmap string rsa_key) (item : jwk) : gmap string rsa_key :=
  match approved_key item with Some k => <[jwk_Kid item := k]> loaded | None => loaded end.
(** [answer] is the body of a 200 answer. *)
Definition loadKeys (now : Z) (answer : option string) (c : key_cache) : key_cache * result auth_error unit :=
  match answer ≫= decode_jwks with
  | None => (c, Err JwksUnavailable)
  | Some items =>
      let loaded := fold_left load_item items ∅ in
      if bool_decide (loaded = ∅) then (c, Err JwksUnavailable) else (mkKeyCache loaded now, Ok tt)
  end.

Definition key (now : Z) (answer : option string) (kid : string) (c : key_cache) : key_cache * result auth_error rsa_key :=
  match ck_keys c !! kid, cache_fresh c now with
  | Some k, true => (c, Ok k)
  | _, _ =>
      match loadKeys now answer c with
      | (c', Err e) => (c', Err e)
      | (c', Ok _) => match ck_keys c' !! kid with Some k => (c', Ok k) | None => (c', Err JwtKeyUnknown) end
      end
  end.

Definition audienceContains (raw expected : string) : bool :=
  match decode_string raw with
  | Some single => String.eqb single expected
  | None => match decode_strings raw with
            | None => false
            | Some multiple => existsb (λ v, String.eqb v expected) multiple
            end
  end.

Fixpoint token_roles (names : list string) : gset string :=
  match names with
  | [] => ∅
  | name :: rest => let trimmed := TrimSpace name in
                    if String.eqb trimmed "" then token_roles rest else {[trimmed]} ∪ token_roles rest
  end.

Record OIDC := mkOIDC { Issuer : string; Audience : string }.

Definition principal_of (c : claims) : result auth_error Principal :=
  match validatedSubject (cl_Subject c) with
  | Err e => Err e
  | Ok subject =>
      match clearance_or_error (cl_Clearance c) with
      | Err e => Err e
      | Ok clearance =>
          Ok (mkPrincipal subject (token_roles (cl_RealmRoles c ++ concat (cl_ResourceRoles c))) clearance
                (TrimSpace (cl_TenantID c)))
      end
  end.
(** The checks on the claims; [unix] is the clock in seconds. *)
Definition check_claims (auth : OIDC) (unix : Z) (c : claims) : result auth_error unit :=
  if negb (String.eqb (cl_Issuer c) (Issuer auth)) || negb (audienceContains (cl_Audience c) (Audience auth))
  then Err JwtIssuer
  else
    match ParseInt64 (cl_Expires c) with
    | None => Err JwtExpired
    | Some expires =>
        if expires <=? unix then Err JwtExpired
        else if String.eqb (cl_NotBefore c) "" then Ok tt
        else match ParseInt64 (cl_NotBefore c) with
             | None => Err JwtNotYetValid
             | Some notBefore => if unix <? notBefore then Err JwtNotYetValid else Ok tt
             end
    end.

(** Signature, claims and identity once the key is known. *)
Definition check_token (auth : OIDC) (now : Z) (h64 p64 s64 : string) (k : rsa_key) : result auth_error Principal :=
  match DecodeString RawURLEncoding s64 with
  | None => Err JwtSignature
  | Some signature =>
      if negb (VerifyPKCS1v15 k (sha256 (string_bytes (h64 +:+ "." +:+ p64))) signature) then Err JwtSignature
      else
        match unb64 p64 ≫= decode_claims with
        | None => Err JwtClaims
        | Some c =>
            match check_claims auth (now / second) c with
            | Err e => Err e
            | Ok _ => principal_of c
            end
        end
  end.

Definition oidc_Authenticate (auth : OIDC) (now : Z) (answer : option string) (request : Request) (c : key_cache) :
  key_cache * result auth_error Principal :=
  match authorization "Bearer" (Header request "Authorization") with
  | None => (c, Err BearerRequired)
  | Some token =>
      match split_dots token with
      | [h64; p64; s64] =>
          if String.eqb h64 "" || String.eqb p64 "" || String.eqb s64 "" then (c, Err JwtCompact)
          else
            match unb64 h64 with
            | None => (c, Err JwtHeader)
            | Some header =>
                match decode_jwt_header header with
                | None => (c, Err JwtAlgorithm)
                | Some (alg, kid) =>
                    if negb (String.eqb alg "RS256") || blank kid then (c, Err JwtAlgorithm)
                    else
                      match key now answer kid c with
                      | (c', Err e) => (c', Err e)
                      | (c', Ok k) => (c', check_token auth now h64 p64 s64 k)
                      end
                end
            end
      | _ => (c, Err JwtCompact)
      end
  end.
End oidc.

(** ** Middleware *)

Inductive guarded (A : Type) := Unauthorized | Forbidden | Served (a : A).
Arguments Unauthorized {A}.
Arguments Forbidden {A}.
Arguments Served {A}.

(** [PrincipalFrom]: a principal with a subject. *)
Definition PrincipalFrom (p : option Principal) : option Principal :=
  p ≫= λ p, if String.eqb (Subject p) "" then None else Some p.
(** [Middleware(authenticator, RequireRoles(next, roles...))]. *)
Definition RequireRoles {A} (roles : list string) (next : Principal → A) (p : option Principal) : guarded A :=
  match PrincipalFrom p with
  | None => Forbidden
  | Some p => if existsb (HasRole p) roles then Served (next p) else Forbidden
  end.
Definition Middleware {A} (outcome : result auth_error Principal) (next : option Principal → guarded A) : guarded A :=
  match outcome with Err _ => Unauthorized | Ok p => next (Some p) end.

(** ** What an accepted token shows *)

Definition strong_key (k : rsa_key) : Prop := 2 ^ 2047 ≤ rsa_N k ∧ 3 ≤ rsa_E k ∧ rsa_E k mod 2 = 1.

Section oidc_laws.
Context {Hjwt : JwtText}.

(** An item of a key set that publishes the RSA signature key [k] under [kid]. *)
Record publishes_key (item : jwk) (kid : string) (k : rsa_key) : Prop := {
  pk_kid : jwk_Kid item = kid;
  pk_type : jwk_Kty item = "RSA" ∧ jwk_Use item = "sig" ∧ jwk_Alg item = "RS256";
  pk_modulus : ∃ m, DecodeString RawURLEncoding (jwk_N item) = Some m ∧ rsa_N k = be_value m;
  pk_exponent : ∃ e, DecodeString RawURLEncoding (jwk_E item) = Some e ∧ (1 ≤ length e ≤ 4)%nat ∧
    rsa_E k = fold_left (λ acc v, Z.lor (Z.shiftl acc 8) v) e 0;
  pk_strong : strong_key k;
}.
(** The whole cache is what one of the answers published: it holds no key of another. *)
Definition cache_from (answers : list (Z * option string)) (c : key_cache) : Prop :=
  ck_keys c = ∅ ∨
  ∃ body items, (ck_loadedAt c, Some body) ∈ answers ∧ decode_jwks body = Some items ∧
    ∀ kid k, ck_keys c !! kid = Some k → ∃ item, item ∈ items ∧ publishes_key item kid k.

Lemma approved_key_strong item k : approved_key item = Some k → publishes_key item (jwk_Kid item) k.
Proof.
  unfold approved_key. case_match eqn:Hfields; [done|].
  destruct (DecodeString RawURLEncoding (jwk_N item)) as [m|] eqn:Hm; [|done]. cbn [mbind option_bind].
  destruct (DecodeString RawURLEncoding (jwk_E item)) as [e|] eqn:He64; [|done]. cbn [mbind option_bind].
  destruct (Nat.eqb (length e) 0 || Nat.ltb 4 (length e)) eqn:Hel; [done|].
  set (exponent := fold_left _ _ _). destruct ((exponent <? 3) || (exponent mod 2 =? 0)) eqn:He; [done|].
  set (n := be_value m). destruct ((if n =? 0 then 0 else Z.log2 n + 1) <? 2048) eqn:Hn; [done|]. intros [= <-].
  apply orb_false_iff in Hel as [Hl0%Nat.eqb_neq Hl4%Nat.ltb_ge]. bool_to_prop.
  split; cbn [rsa_N rsa_E]; [done|by split_and!|by exists m|exists e; split_and!; by try lia|].
  unfold strong_key. cbn [rsa_N rsa_E].
  pose proof (Z.mod_pos_bound exponent 2). split; [|lia].
  destruct (n =? 0) eqn:Hz; [lia|]. bool_to_prop. destruct (Z.le_gt_cases n 0) as [Hneg|Hpos].
  - rewrite Z.log2_nonpos in Hn by lia. lia.
  - etransitivity; [|by apply Z.log2_spec]. apply Z.pow_le_mono_r; lia.
Qed.

Lemma load_items_from all items loaded :
  items ⊆ all → (∀ kid k, loaded !! kid = Some k → ∃ item, item ∈ all ∧ publishes_key item kid k) →
  ∀ kid k, fold_left load_item items loaded !! kid = Some k → ∃ item, item ∈ all ∧ publishes_key item kid k.
Proof.
  revert loaded. induction items as [|item items IH]; intros loaded Hsub Hl; [done|]. cbn [fold_left].
  apply IH; [set_solver|]. intros kid k. unfold load_item. destruct (approved_key item) as [k'|] eqn:Hk; [|apply Hl].
  intros [[<- <-]|[_ Hk']]%lookup_insert_Some; [|by apply Hl]. exists item. split; [set_solver|]. by apply approved_key_strong.
Qed.

Lemma cache_from_more answers answers' c : answers ⊆ answers' → cache_from answers c → cache_from answers' c.
Proof. intros Hs [Hc|(body & items & Hin & Hr)]; [by left|]. right. exists body, items. split; [by apply Hs|done]. Qed.

Lemma loadKeys_ok answers now answer c c' r :
  cache_from answers c → loadKeys now answer c = (c', r) →
  cache_from (answers ++ [(now, answer)]) c' ∧ (r = Ok tt → ck_loadedAt c' = now).
Proof.
  intros Hc E. unfold loadKeys in E. destruct answer as [body|]; cbn [mbind option_bind] in E;
    [|simplify_eq; split; [eapply cache_from_more; [|done]; set_solver|done]].
  destruct (decode_jwks body) as [items|] eqn:Hd; [|simplify_eq; split; [eapply cache_from_more; [|done]; set_solver|done]].
  case_bool_decide; simplify_eq; (split; [|done]); [eapply cache_from_more; [|done]; set_solver|].
  right. exists body, items. split_and!; [set_solver|done|]. cbn [ck_keys]. apply load_items_from; [done|]. intros kid k.
  by rewrite lookup_empty.
Qed.

Lemma time_Sub_self t : time_Sub t t < 300 * second.
Proof. unfold time_Sub. rewrite Z.sub_diag. done. Qed.

(** The key is in the cache the call leaves behind, and that cache is fresh. *)
Lemma key_spec answers now answer kid c c' r :
  cache_from answers c → key now answer kid c = (c', r) →
  cache_from (answers ++ [(now, answer)]) c' ∧ ∀ k, r = Ok k → ck_keys c' !! kid = Some k ∧ cache_fresh c' now = true.
Proof.
  intros Hc E. unfold key in E.
  assert (cache_from (answers ++ [(now, answer)]) c) as Hc' by (eapply cache_from_more; [|done]; set_solver).
  destruct (ck_keys c !! kid) as [k|] eqn:Hk, (cache_fresh c now) eqn:Hf; simplify_eq/=.
  1: { split; [done|]. naive_solver. }
  all: destruct (loadKeys now answer c) as [c1 [u|e]] eqn:El; destruct (loadKeys_ok answers _ _ _ _ _ Hc El) as [Hc1 Hat];
    [|simplify_eq; split; [done|by intros ?]]; specialize (Hat ltac:(by destruct u));
    (assert (cache_fresh c1 now = true) as Hf1 by (unfold cache_fresh; rewrite Hat; apply Z.ltb_lt, time_Sub_self));
    destruct (ck_keys c1 !! kid) as [k'|] eqn:Hk'; simplify_eq; (split; [done|]); naive_solver.
Qed.

Lemma oidc_keeps_cache auth answers now answer request c :
  cache_from answers c → cache_from (answers ++ [(now, answer)]) (oidc_Authenticate auth now answer request c).1.
Proof.
  intros Hc. assert (cache_from (answers ++ [(now, answer)]) c) as Hc' by (eapply cache_from_more; [|done]; set_solver).
  unfold oidc_Authenticate. repeat case_match; simplify_eq/=; try done; by eapply key_spec; [|eassumption].
Qed.

(** The cache after a series of requests: instant, answer of the realm, request. *)
Definition requests (auth : OIDC) (l : list (Z * option string * Request)) (c : key_cache) : key_cache :=
  fold_left (λ c '(now, answer, request), (oidc_Authenticate auth now answer request c).1) l c.
Lemma requests_ok auth l answers c : cache_from answers c → cache_from (answers ++ l.*1) (requests auth l c).
Proof.
  revert answers c. induction l as [|[[now answer] r] l IH]; intros answers c Hc; [by rewrite app_nil_r|].
  cbn [requests fold_left fmap list_fmap fst].
  rewrite cons_middle, app_assoc. by apply IH, oidc_keeps_cache.
Qed.

Lemma elem_of_token_roles role names :
  role ∈ token_roles names ↔ role ≠ "" ∧ ∃ name, name ∈ names ∧ role = TrimSpace name.
Proof.
  induction names as [|name names IH]; cbn [token_roles]; [set_solver|].
  destruct (String.eqb (TrimSpace name) "") eqn:E; bool_to_prop.
  - rewrite IH. split; [|intros (? & n & [->|Hn]%elem_of_cons & ->)]; set_solver.
  - rewrite elem_of_union, elem_of_singleton, IH. split.
    + intros [->|(? & n & ? & ?)]; [|set_solver]. split; [done|]. exists name. set_solver.
    + intros (? & n & [->|Hn]%elem_of_cons & ->); set_solver.
Qed.

Lemma principal_of_Ok c p :
  principal_of c = Ok p →
  Subject p = TrimSpace (cl_Subject c) ∧ Subject p ≠ "" ∧ Clearance p ∈ ladder ∧
  TenantID p = TrimSpace (cl_TenantID c) ∧
  ∀ role, role ∈ Roles p ↔ role ≠ "" ∧ ∃ name, name ∈ cl_RealmRoles c ++ concat (cl_ResourceRoles c) ∧ role = TrimSpace name.
Proof.
  unfold principal_of, validatedSubject, clearance_or_error. intros E. branches E. bool_to_prop. cbn.
  split_and!; [done|done|by eapply validatedClearance_ladder|done|]. intros role. apply elem_of_token_roles.
Qed.

Lemma check_claims_Ok auth unix c :
  check_claims auth unix c = Ok tt →
  cl_Issuer c = Issuer auth ∧ audienceContains (cl_Audience c) (Audience auth) = true ∧
  (∃ expires, ParseInt64 (cl_Expires c) = Some expires ∧ unix < expires) ∧
  (cl_NotBefore c = "" ∨ ∃ notBefore, ParseInt64 (cl_NotBefore c) = Some notBefore ∧ notBefore ≤ unix).
Proof. unfold check_claims. intros E. branches E; bool_to_prop; eauto 10 with lia. Qed.

(** C31: A bearer token is accepted only when its header asks for RS256 with a key that an
    answer of the realm, fetched less than five minutes ago, publishes under that key id as
    an RSA signature key of at least 2048 bits with an odd exponent; the cache then holds
    keys of that answer only, so that a key the answer does not list is not trusted.  That
    key signed exactly the header and claims presented, and the claims name the configured
    issuer and audience, are not expired and already valid; the principal then has the
    subject, tenant and roles of the claims and a label of the ladder as clearance.  This
    holds after any series of earlier requests, whatever the realm answered to them. *)
Theorem accepted_token_is_trusted auth history now answer request c' p :
  oidc_Authenticate auth now answer request (requests auth history no_keys) = (c', Ok p) →
  ∃ h64 p64 s64 kid k signature c,
    authorization "Bearer" (Header request "Authorization") = Some (h64 +:+ "." +:+ p64 +:+ "." +:+ s64) ∧
    unb64 h64 ≫= decode_jwt_header = Some ("RS256", kid) ∧
    (∃ at_ body items item,
       (at_, Some body) ∈ history.*1 ++ [(now, answer)] ∧ time_Sub now at_ < 300 * second ∧
       decode_jwks body = Some items ∧ item ∈ items ∧ publishes_key item kid k ∧
       ∀ kid' k', ck_keys c' !! kid' = Some k' → ∃ item', item' ∈ items ∧ publishes_key item' kid' k') ∧
    DecodeString RawURLEncoding s64 = Some signature ∧
    VerifyPKCS1v15 k (sha256 (string_bytes (h64 +:+ "." +:+ p64))) signature = true ∧
    unb64 p64 ≫= decode_claims = Some c ∧
    (cl_Issuer c = Issuer auth ∧ audienceContains (cl_Audience c) (Audience auth) = true ∧
     (∃ expires, ParseInt64 (cl_Expires c) = Some expires ∧ now / second < expires) ∧
     (cl_NotBefore c = "" ∨ ∃ notBefore, ParseInt64 (cl_NotBefore c) = Some notBefore ∧ notBefore ≤ now / second)) ∧
    (Subject p = TrimSpace (cl_Subject c) ∧ Subject p ≠ "" ∧ Clearance p ∈ ladder ∧
     TenantID p = TrimSpace (cl_TenantID c) ∧
     ∀ role, role ∈ Roles p ↔
       role ≠ "" ∧ ∃ name, name ∈ cl_RealmRoles c ++ concat (cl_ResourceRoles c) ∧ role = TrimSpace name).
Proof.
  assert (cache_from ([] ++ history.*1) (requests auth history no_keys)) as Hc by (apply requests_ok; by left).
  revert Hc. generalize (requests auth history no_keys). intros c0 Hc E. unfold oidc_Authenticate in E.
  destruct (authorization _ _) as [token|] eqn:Ha; [|done].
  destruct (split_dots token) as [|h64 [|p64 [|s64 [|]]]] eqn:Hs; try done.
  case_match; [done|]. destruct (unb64 h64) as [header|] eqn:Hh; [|done].
  destruct (decode_jwt_header header) as [[alg kid]|] eqn:Hd; [|done].
  destruct (negb (String.eqb alg "RS256") || blank kid) eqn:Hk; [done|]. bool_to_prop. subst alg.
  destruct (key now answer kid c0) as [c1 [k|e]] eqn:Ek; [|done]. eapply key_spec in Ek as [Hc1 Hkey]; [|done].
  destruct (Hkey k eq_refl) as [Hl Hf%Z.ltb_lt]. injection E as <- E.
  apply split_on_three in Hs as ->. unfold check_token in E.
  destruct (DecodeString RawURLEncoding s64) as [signature|] eqn:Hsig; [|done].
  destruct (VerifyPKCS1v15 _ _ _) eqn:Hv; [|done]. cbn [negb] in E.
  destruct (unb64 p64 ≫= decode_claims) as [c|] eqn:Hcl; [|done].
  destruct (check_claims auth (now / second) c) as [[]|] eqn:Hch; [|done].
  exists h64, p64, s64, kid, k, signature, c.
  split_and!; try done; [by rewrite Hh| | | | | | | | | |].
  1: { destruct Hc1 as [Hn|(body & items & Hin & Hd' & Hall)]; [by rewrite Hn, lookup_empty in Hl|].
       destruct (Hall _ _ Hl) as (item & Hi & Hp). by exists (ck_loadedAt c1), body, items, item. }
  all: apply check_claims_Ok in Hch; apply principal_of_Ok in E; naive_solver.
Qed.
End oidc_laws.

(** ** A token of a realm *)

Module SampleRealm.
(** A signature is the digest itself; a header is its two members and a space. *)
Definition claims_ : claims :=
  mkClaims "https://realm" " user-1 " "aud" "2000" "" ["geo-device-maker"] [["geo-reader"]] "RESTRICTED" "tenant-a".
#[export] Instance realm : JwtText := {|
  VerifyPKCS1v15 := λ k digest signature, bool_decide (signature = digest);
  decode_jwt_header := λ s, match split_on (char_of 32) s with [alg; kid] => Some (alg, kid) | _ => None end;
  decode_claims := λ _, Some claims_;
  decode_jwks := λ body, Some [mkJwk "RSA" body "sig" "RS256" (EncodeToString RawURLEncoding (repeat 255 256)) "AQAB"];
  decode_string := Some;
  decode_strings := λ _, None |}.
Definition head : string := b64 "RS256 k1".
Definition body : string := b64 "claims".
Definition token : string :=
  head +:+ "." +:+ body +:+ "." +:+ EncodeToString RawURLEncoding (sha256 (string_bytes (head +:+ "." +:+ body))).
Definition request : Request := mkHttpRequest "10.0.0.1:1" (λ name, if String.eqb name "Authorization" then "bearer " +:+ token else "").
Definition auth : OIDC := mkOIDC "https://realm" "aud".
End SampleRealm.
#[local] Existing Instance SampleRealm.realm.

Lemma accepted_token_is_trusted_witness :
  ∃ c' p kid k at_ body items item, oidc_Authenticate SampleRealm.auth (1000 * second) (Some "k1") SampleRealm.request
              (requests SampleRealm.auth [(900 * second, Some "k0", SampleRealm.request)] no_keys) = (c', Ok p) ∧
    Subject p = "user-1" ∧ (at_, Some body) ∈ [(900 * second, Some "k0"); (1000 * second, Some "k1")] ∧
    decode_jwks body = Some items ∧ item ∈ items ∧ publishes_key item kid k.
Proof.
  destruct (oidc_Authenticate SampleRealm.auth (1000 * second) (Some "k1") SampleRealm.request
              (requests SampleRealm.auth [(900 * second, Some "k0", SampleRealm.request)] no_keys)) as [c' [p|e]] eqn:E.
  2: { vm_compute in E. discriminate E. }
  pose proof (accepted_token_is_trusted SampleRealm.auth [(900 * second, Some "k0", SampleRealm.request)] (1000 * second) (Some "k1")
                SampleRealm.request c' p E) as Hw.
  assert (match (oidc_Authenticate SampleRealm.auth (1000 * second) (Some "k1") SampleRealm.request
                   (requests SampleRealm.auth [(900 * second, Some "k0", SampleRealm.request)] no_keys)).2 with Ok q => Subject q | _ => "" end = "user-1") as Hs
    by (vm_compute; reflexivity).
  rewrite E in Hs. simpl in Hs.
  destruct Hw as (h64 & p64 & s64 & kid & k & signature & c & Ha & Hh & (at_ & body & items & item & Hat & _ & Hd & Hin & Hp & _) & _).
  exists c', p, kid, k, at_, body, items, item. split; [reflexivity|]. split; [exact Hs|]. split; [exact Hat|]. split; [exact Hd|].
  split; [exact Hin|exact Hp].
Defined.
