(* ===== verification/Http.v ===== *)
(** * The HTTP boundary

    What the handlers of [internal/api], [internal/connectors], [internal/devices]
    and [internal/mrv] share: answers, bodies, query parameters and the resolution of
    the principal.  A body is what its decoder makes of it; the texts of wrapped
    errors are left out of the answers. *)
From S2P Require Import Prelude Effects GoParse Classification Sign Auth.

Record response := mkResponse { rs_status : Z; rs_body : list (string * json) }.
Definition StatusOK : Z := 200.
Definition StatusCreated : Z := 201.
Definition StatusAccepted : Z := 202.
Definition StatusNoContent : Z := 204.
Definition StatusBadRequest : Z := 400.
Definition StatusUnauthorized : Z := 401.
Definition StatusForbidden : Z := 403.
Definition StatusNotFound : Z := 404.
Definition StatusConflict : Z := 409.
Definition StatusInternalServerError : Z := 500.
Definition StatusBadGateway : Z := 502.
Definition StatusServiceUnavailable : Z := 503.
(** [writeError] of [internal/api/server.go]. *)
Definition writeError (status : Z) (message : string) : response := mkResponse status [("error", JStr message)].

(** A decoded body: the reader failed, the text is not JSON of the type, or a value. *)
Inductive http_body (B : Type) := BodyUnreadable | BodyInvalid | Body (b : B).
Arguments BodyUnreadable {B}.
Arguments BodyInvalid {B}.
Arguments Body {B}.

(** An answer with the value its handler writes. *)
Record answer (B : Type) := mkAnswer { an_status : Z; an_body : B }.
Arguments mkAnswer {B}.
Arguments an_status {B}.
Arguments an_body {B}.

(** The call, then [next] on its success; [failed] answers the error. *)
Definition answering {S E A R} (m : M S E A) (failed : E → R) (next : A → M S E R) : M S E R :=
  r ← attempt m;
  match r with Err e => mret (failed e) | Ok a => next a end.

Lemma answering_keeps {S E A R} P (m : M S E A) (failed : E → R) next :
  keeps P m → (∀ a, keeps P (next a)) → keeps P (answering m failed next).
Proof.
  intros Hm Hn. unfold answering. apply keeps_bind; [by apply keeps_attempt|]. intros [a|e]; [apply Hn|apply keeps_ret].
Qed.
Lemma answering_Ok {S E A R} (m : M S E A) (failed : E → R) next w w' r :
  answering m failed next w = (w', Ok r) →
  (∃ e, m w = (w', Err e) ∧ r = failed e) ∨ (∃ w1 a, m w = (w1, Ok a) ∧ next a w1 = (w', Ok r)).
Proof.
  unfold answering, attempt. intros (w1 & x & E1 & E2)%M_bind_Ok. destruct (m w) as [w2 [a|e]]; simplify_eq/=; eauto.
  injection E2 as -> <-. eauto.
Qed.

Lemma PrincipalFrom_id p q : PrincipalFrom (Some p) = Some q → q = p.
Proof. unfold PrincipalFrom. cbn. destruct (String.eqb _ _); [done|]. by intros [= ->]. Qed.

(** [principalOrFail] and [tenantOrFail] before the rest of a handler. *)
Definition principalOrFail {A} (p : option Principal) (fail_ : response → A) (next : Principal → A) : A :=
  match PrincipalFrom p with
  | None => fail_ (writeError StatusForbidden "principal unavailable")
  | Some principal => next principal
  end.
Definition tenantOrFail {A} (principal : Principal) (fail_ : response → A) (next : string → A) : A :=
  if blank (TenantID principal) then fail_ (writeError StatusForbidden "principal has no tenant binding")
  else next (TenantID principal).

(** A query parameter is its text, empty when it is absent. *)
Definition parseMicrosParam (raw : string) : option Z :=
  let raw := TrimSpace raw in if String.eqb raw "" then None else ParseInt 32 raw.
Definition parseLimit (raw : string) (fallback maximum : Z) : Z :=
  let raw := TrimSpace raw in
  if String.eqb raw "" then fallback
  else match Atoi raw with
       | None => fallback
       | Some value => if value <=? 0 then fallback else if maximum <? value then maximum else value
       end.

(** A limit is between one and the maximum whatever the caller sends. *)
Lemma parseLimit_range raw fallback maximum : 0 < fallback ≤ maximum → 0 < parseLimit raw fallback maximum ≤ maximum.
Proof. intros. unfold parseLimit. repeat case_match; bool_to_prop; lia. Qed.

(** The clearance gate of the distress surface: RESTRICTED or higher. *)
Definition restricted_clearance (principal : Principal) : bool :=
  match ParseClassification (Clearance principal) with
  | Err _ => false
  | Ok clearance => Covers clearance ClassificationRestricted
  end.
