(* ===== verification/Devices.v ===== *)
(** * Devices: registry records, signed envelopes and proofs, firmware rollout

    [internal/devices/devices.go] (kinds, lifecycle), [envelope.go] (device
    envelopes and action proofs, signed with the key of an epoch) and [manifest.go]
    (deterministic rollout and the signed manifest).  Ed25519 and JSON are the
    interfaces of [Jws]. *)
From S2P Require Import Prelude Dedup Sha256 GoTime Base64 Classification Sign Jws.

(** ** The registry *)

Definition device_kinds : list string := ["AIS"; "GT06"; "LORAWAN"; "POS"; "VALIDATOR"; "GATEWAY"; "SENSOR"].
Definition ValidKind (kind : string) : bool := bool_decide (kind ∈ device_kinds).

Definition StatusActive : string := "ACTIVE".
Definition StatusSuspended : string := "SUSPENDED".
Definition StatusRevoked : string := "REVOKED".
Definition StatusDecommissioned : string := "DECOMMISSIONED".
Definition device_statuses : list string := [StatusActive; StatusSuspended; StatusRevoked; StatusDecommissioned].
Definition ValidStatus (status : string) : bool := bool_decide (status ∈ device_statuses).
Definition terminal (status : string) : bool :=
  String.eqb status StatusRevoked || String.eqb status StatusDecommissioned.

Definition KeyCurrent : string := "CURRENT".
Definition KeyPrevious : string := "PREVIOUS".
Definition KeyRevoked : string := "REVOKED".

Definition RequestPending : string := "PENDING".
Definition RequestApproved : string := "APPROVED".
Definition RequestRejected : string := "REJECTED".
Definition RequestConsumed : string := "CONSUMED".

Definition DefaultKeyGrace : Z := 24 * hour.

Inductive transition_error := StatusUnknown | StatusSame | StatusTerminal.
Definition ValidateStatusTransition (from to : string) : result transition_error unit :=
  if negb (ValidStatus from) || negb (ValidStatus to) then Err StatusUnknown
  else if String.eqb from to then Err StatusSame
  else if terminal from then Err StatusTerminal
  else Ok tt.

Record Device := mkDevice {
  dev_ID : string; dev_TenantID : string; dev_Kind : string; dev_OwnerAgency : string; dev_Label : string;
  dev_Status : string; dev_KeyEpoch : Z; dev_Metadata : gmap string string; dev_CreatedBy : string;
  dev_CreatedAt : Z; dev_UpdatedAt : Z }.
Record Key := mkKey {
  key_DeviceID : string; key_Epoch : Z; key_PublicKey : list Z; key_Status : string; key_RotatedAt : Z }.
Record Release := mkRelease {
  rel_ID : string; rel_TenantID : string; rel_Kind : string; rel_Version : string; rel_ArtifactSHA256 : string;
  rel_ArtifactURL : string; rel_RolloutPercent : Z; rel_MinEpoch : Z; rel_CreatedAt : Z }.
Record AuditEvent := mkAudit {
  au_TenantID : string; au_DeviceID : string; au_Event : string; au_Actor : string; au_Reason : string;
  au_Metadata : list (string * string) }.

Inductive label_error := LabelRequired | LabelTooLong.
Definition validateLabel (value : string) (maximum : nat) : result label_error string :=
  let trimmed := TrimSpace value in
  if String.eqb trimmed "" then Err LabelRequired
  else if Nat.ltb maximum (String.length trimmed) then Err LabelTooLong
  else Ok trimmed.

(** ** Key identifiers *)

Definition device_keyIDPrefix : string := "geo-device-".
Definition DeviceKeyID (deviceID : string) (epoch : Z) : string :=
  device_keyIDPrefix +:+ deviceID +:+ "-" +:+ show_Z epoch.

Fixpoint leading_digits (s : string) : string :=
  match s with
  | String c s' => if is_digit c then String c (leading_digits s') else ""
  | EmptyString => ""
  end.
(** [fmt.Sscanf(s, "%d", &n)] into an int: spaces other than a line feed, a sign,
    digits; what follows is left alone. *)
Definition scan_spaces : list string := filter (λ s, s ≠ bytes_string [10]) unicode_spaces.
Definition Sscanf_d (s : string) : option Z :=
  let t := trim_left scan_spaces s in
  let '(sign, t) := match t with
                    | String c t' => if byte_of c =? 43 then (1, t') else if byte_of c =? 45 then (-1, t') else (1, t)
                    | EmptyString => (1, t)
                    end in
  let digits := leading_digits t in
  if String.eqb digits "" then None
  else
    let v := sign * dec_value digits in
    if (- 2 ^ 63 <=? v) && (v <? 2 ^ 63) then Some v else None.

Inductive kid_error := KidPrefix | KidShape | KidEpoch.
Definition ParseKeyID (kid : string) : result kid_error (string * Z) :=
  match strip_prefix device_keyIDPrefix kid with
  | None => Err KidPrefix
  | Some rest =>
      match cut_last (char_of 45) rest with
      | None => Err KidShape
      | Some (deviceID, suffix) =>
          if String.eqb deviceID "" || String.eqb suffix "" then Err KidShape
          else match Sscanf_d suffix with
               | Some epoch => if epoch <? 1 then Err KidEpoch else Ok (deviceID, epoch)
               | None => Err KidEpoch
               end
      end
  end.

(** ** Signed envelopes and proofs *)

Definition DeviceEnvelopeVersion : string := "1.0".
(** The payload is the text of the raw message. *)
Record DeviceEnvelope := mkDeviceEnvelope {
  dv_EnvelopeVersion : string; dv_DeviceID : string; dv_KeyEpoch : Z; dv_PayloadType : string;
  dv_OccurredAt : Z; dv_Payload : string; dv_Signature : string }.
Record DeviceProof := mkProof { pf_Action : string; pf_DeviceID : string; pf_KeyEpoch : Z }.
Definition ProofActionFirmware : string := "GET_FIRMWARE".
Definition ProofActionMQTTAuth : string := "MQTT_AUTH".

(** What the device plane reads from JSON texts. *)
Class DeviceText := {
  decode_kid : string → option string;
  decode_proof : string → option DeviceProof;
  decode_device_envelope : string → option DeviceEnvelope;
}.
Class DeviceTextLaws `{JsonText} `{DeviceText} := {
  decode_kid_Marshal alg kid :
    all_chars printable alg = true → all_chars printable kid = true →
    decode_kid (json_Marshal (header_json alg kid)) = Some kid;
  (** the canonical text of a document is canonical *)
  Transform_canonical t t' : Transform t = Some t' → Transform t' = Some t';
}.

Inductive sign_payload_error := SigningKeyInvalid | KidRequired | PayloadUnencodable.

Section signatures.
Context `{Ed25519} `{JsonText} `{DeviceText}.

Definition canonicalJSON (value : json) : option string :=
  if encodable value then Transform (generic_Marshal value) else None.

Definition SignPayload (privateKey : list Z) (kid : string) (payload : json) : result sign_payload_error string :=
  if negb (Nat.eqb (length privateKey) PrivateKeySize) then Err SigningKeyInvalid
  else if blank kid then Err KidRequired
  else
    match canonicalJSON payload with
    | None => Err PayloadUnencodable
    | Some canonical => Ok (sign_text (mkKeySigner privateKey kid) canonical)
    end.

(** The members of the envelope but the signature; marshalling refuses a payload
    that is not JSON. *)
Definition unsignedEnvelopePayload (e : DeviceEnvelope) : option json :=
  let fields :=
    [("envelopeVersion", JStr (dv_EnvelopeVersion e)); ("deviceId", JStr (dv_DeviceID e));
     ("keyEpoch", JNum (dv_KeyEpoch e)); ("payloadType", JStr (dv_PayloadType e));
     ("occurredAt", JTime (dv_OccurredAt e)); ("payload", JRaw (dv_Payload e))] in
  if encodable (JObj fields) && text_Valid (dv_Payload e) then Some (JObj fields) else None.

Definition set_device_signature (s : string) (e : DeviceEnvelope) : DeviceEnvelope :=
  mkDeviceEnvelope (dv_EnvelopeVersion e) (dv_DeviceID e) (dv_KeyEpoch e) (dv_PayloadType e) (dv_OccurredAt e)
    (dv_Payload e) s.
Definition SignEnvelope (privateKey : list Z) (e : DeviceEnvelope) : result sign_payload_error DeviceEnvelope :=
  let e := if String.eqb (dv_EnvelopeVersion e) ""
           then mkDeviceEnvelope DeviceEnvelopeVersion (dv_DeviceID e) (dv_KeyEpoch e) (dv_PayloadType e)
                  (dv_OccurredAt e) (dv_Payload e) (dv_Signature e)
           else e in
  match unsignedEnvelopePayload e with
  | None => Err PayloadUnencodable
  | Some unsigned =>
      match SignPayload privateKey (DeviceKeyID (dv_DeviceID e) (dv_KeyEpoch e)) unsigned with
      | Err err => Err err
      | Ok signature => Ok (set_device_signature signature e)
      end
  end.

Inductive jws_error :=
| JwsKey | JwsCompact | JwsHeaderBase64 | JwsHeaderJSON | JwsAlg | JwsKid | JwsSignatureBase64 | JwsPayloadBase64
| JwsPayloadJSON | JwsNotCanonical | JwsSignature | JwsMismatch | JwsEnvelope | JwsProof | JwsClaims | JwsUnsigned.

Definition verifyJWS (compact expectedKeyID : string) (publicKey : list Z) : result jws_error string :=
  if negb (Nat.eqb (length publicKey) PublicKeySize) then Err JwsKey
  else
    match split_dots compact with
    | [h64; p64; s64] =>
        match unb64 h64 with
        | None => Err JwsHeaderBase64
        | Some header =>
            match decode_header header with
            | None => Err JwsHeaderJSON
            | Some (alg, kid) =>
                if negb (String.eqb alg signingAlgorithm) then Err JwsAlg
                else if negb (String.eqb kid expectedKeyID) then Err JwsKid
                else
                  match DecodeString RawURLEncoding s64 with
                  | None => Err JwsSignatureBase64
                  | Some signature =>
                      match unb64 p64 with
                      | None => Err JwsPayloadBase64
                      | Some payload =>
                          match Transform payload with
                          | None => Err JwsPayloadJSON
                          | Some canonical =>
                              if negb (String.eqb canonical payload) then Err JwsNotCanonical
                              else if ed25519_Verify publicKey (h64 +:+ "." +:+ p64) signature then Ok payload
                              else Err JwsSignature
                          end
                      end
                  end
            end
        end
    | _ => Err JwsCompact
    end.

Definition VerifyEnvelopeSignature (e : DeviceEnvelope) (publicKey : list Z) : result jws_error unit :=
  match unsignedEnvelopePayload e ≫= canonicalJSON with
  | None => Err JwsEnvelope
  | Some expected =>
      match verifyJWS (dv_Signature e) (DeviceKeyID (dv_DeviceID e) (dv_KeyEpoch e)) publicKey with
      | Err err => Err err
      | Ok payload => if String.eqb payload expected then Ok tt else Err JwsMismatch
      end
  end.

(** [VerifyProof] of [envelope.go]: the header names the key, the signed payload
    must name the same one. *)
Definition VerifyProofSignature (compact : string) (publicKey : list Z) : result jws_error DeviceProof :=
  match split_dots compact with
  | [h64; _; _] =>
      match unb64 h64 with
      | None => Err JwsHeaderBase64
      | Some header =>
          match decode_kid header with
          | None => Err JwsHeaderJSON
          | Some kid =>
              match verifyJWS compact kid publicKey with
              | Err err => Err err
              | Ok payload =>
                  match decode_proof payload with
                  | None => Err JwsProof
                  | Some proof =>
                      if negb (String.eqb (DeviceKeyID (pf_DeviceID proof) (pf_KeyEpoch proof)) kid) then Err JwsClaims
                      else Ok proof
                  end
              end
          end
      end
  | _ => Err JwsCompact
  end.

Inductive claims_error := ClaimsCompact | ClaimsBase64 | ClaimsJSON | ClaimsKid (e : kid_error).
Definition proofClaims (compact : string) : result claims_error (string * Z) :=
  match split_dots compact with
  | [h64; _; _] =>
      match unb64 h64 with
      | None => Err ClaimsBase64
      | Some header =>
          match decode_kid header with
          | None => Err ClaimsJSON
          | Some kid => match ParseKeyID kid with Ok claims => Ok claims | Err e => Err (ClaimsKid e) end
          end
      end
  | _ => Err ClaimsCompact
  end.
End signatures.

(** ** Firmware rollout *)

Record Manifest := mkManifest {
  mf_DeviceID : string; mf_Kind : string; mf_Version : string; mf_ArtifactSHA256 : string; mf_ArtifactURL : string;
  mf_RolloutPercent : Z; mf_MinEpoch : Z; mf_GeneratedAt : Z; mf_Signature : string }.
Definition manifest_json (m : Manifest) : json :=
  JObj ([("deviceId", JStr (mf_DeviceID m)); ("kind", JStr (mf_Kind m)); ("version", JStr (mf_Version m));
         ("artifactSha256", JStr (mf_ArtifactSHA256 m)); ("artifactUrl", JStr (mf_ArtifactURL m));
         ("rolloutPercent", JNum (mf_RolloutPercent m)); ("minEpoch", JNum (mf_MinEpoch m));
         ("generatedAt", JTime (mf_GeneratedAt m))] ++ str_omit "signature" (mf_Signature m)).
Definition set_manifest_signature (s : string) (m : Manifest) : Manifest :=
  mkManifest (mf_DeviceID m) (mf_Kind m) (mf_Version m) (mf_ArtifactSHA256 m) (mf_ArtifactURL m) (mf_RolloutPercent m)
    (mf_MinEpoch m) (mf_GeneratedAt m) s.

Definition RolloutBucket (releaseID deviceID : string) : Z :=
  be_value (take 8 (sha256 (string_bytes (releaseID +:+ ":" +:+ deviceID)))) mod 100.

Definition eligible (device : Device) (release : Release) : bool :=
  String.eqb (rel_Kind release) (dev_Kind device) && String.eqb (rel_TenantID release) (dev_TenantID device)
  && negb (dev_KeyEpoch device <? rel_MinEpoch release)
  && negb (rel_RolloutPercent release <=? 0)
  && negb (rel_RolloutPercent release <=? RolloutBucket (rel_ID release) (dev_ID device)).
Fixpoint SelectRelease (releases : list Release) (device : Device) : option Release :=
  match releases with
  | [] => None
  | release :: rest => if eligible device release then Some release else SelectRelease rest device
  end.

Section manifest.
Context `{Ed25519} `{JsonText} `{DeviceText}.
Definition SignManifest (m : Manifest) (sign : string → json → result sign_payload_error string) (kid : string) :
  result sign_payload_error Manifest :=
  match sign kid (manifest_json (set_manifest_signature "" m)) with
  | Err err => Err err
  | Ok signature => Ok (set_manifest_signature signature m)
  end.
Definition VerifyManifest (m : Manifest) (publicKey : list Z) (expectedKeyID : string) : result jws_error unit :=
  if String.eqb (mf_Signature m) "" then Err JwsUnsigned
  else
    match canonicalJSON (manifest_json (set_manifest_signature "" m)) with
    | None => Err JwsEnvelope
    | Some expected =>
        match verifyJWS (mf_Signature m) expectedKeyID publicKey with
        | Err err => Err err
        | Ok payload => if String.eqb payload expected then Ok tt else Err JwsMismatch
        end
    end.
End manifest.
