(* ===== verification/DeviceSign.v ===== *)
(** * Round trips of device signatures and key identifiers; firmware rollout

    What a device signs is accepted under its key, a manifest likewise, key
    identifiers are read back, and the rollout of a release only grows. *)
From S2P Require Import Prelude Dedup Sha256 GoTime Base64 Classification Sign Jws Devices.

Section roundtrip.
Context {Hed : Ed25519} {Hlaws : Ed25519Laws} {Hjson : JsonText} {Hjlaws : JsonTextLaws} {Htext : DeviceText}
  {Htlaws : DeviceTextLaws}.

Lemma SignPayload_verifies priv key_id document s :
  all_chars printable key_id = true → SignPayload priv key_id document = Ok s →
  ∃ canonical, canonicalJSON document = Some canonical ∧ verifyJWS s key_id (ed25519_Public priv) = Ok canonical.
Proof.
  unfold SignPayload. intros Hk Hs. branches Hs. bool_to_prop.
  match goal with H : Nat.eqb _ _ = true |- _ => apply Nat.eqb_eq in H; rename H into Hl end.
  match goal with H : canonicalJSON document = Some ?c |- _ => exists c; split; [done|]; rename H into Hc; rename c into text end.
  unfold verifyJWS. rewrite ed25519_public_size, Nat.eqb_refl by done. cbn [negb].
  unfold sign_text. rewrite split_compact by apply ed25519_bytes. rewrite unb64_b64. unfold protectedHeaderJSON. cbn [kid].
  rewrite decode_header_Marshal, !String.eqb_refl by done. cbn [negb].
  rewrite base64_roundtrip; [|by left|apply ed25519_bytes]. rewrite unb64_b64.
  assert (Transform text = Some text) as ->.
  { unfold canonicalJSON in Hc. destruct (encodable document); [|done]. by eapply Transform_canonical. }
  rewrite String.eqb_refl. cbn [negb privateKey].
  change (b64 ?h +:+ "." +:+ b64 ?p) with (signing_input h p). by rewrite ed25519_correct.
Qed.

Lemma show_Z_printable z : all_chars printable (show_Z z) = true.
Proof.
  unfold show_Z. assert (∀ n, 0 ≤ n → all_chars printable (show_dec n) = true) as Hd.
  { intros n Hn. eapply all_chars_impl; [|by apply show_dec_spec].
    intros c Hc. unfold is_digit, printable in *. apply andb_true_iff. bool_to_prop. lia. }
  case_match; bool_to_prop; [rewrite all_chars_app, andb_true_iff; split; [done|]|]; apply Hd; lia.
Qed.
Lemma DeviceKeyID_printable id epoch : all_chars printable id = true → all_chars printable (DeviceKeyID id epoch) = true.
Proof.
  intros Hid. unfold DeviceKeyID. rewrite !all_chars_app, !andb_true_iff. split_and!; try done. apply show_Z_printable.
Qed.

(** What devices and the service sign is accepted: an envelope that
    [SignEnvelope] signed verifies under the public half of the signing key, as the
    envelope of the same device, epoch and payload, and a manifest that
    [SignManifest] signed verifies under the key that signed it. *)
Theorem device_signatures_verify priv :
  (∀ e e', all_chars printable (dv_DeviceID e) = true → SignEnvelope priv e = Ok e' →
     VerifyEnvelopeSignature e' (ed25519_Public priv) = Ok tt ∧
     dv_DeviceID e' = dv_DeviceID e ∧ dv_KeyEpoch e' = dv_KeyEpoch e ∧ dv_Payload e' = dv_Payload e) ∧
  (∀ m m' key_id, all_chars printable key_id = true → SignManifest m (SignPayload priv) key_id = Ok m' →
     VerifyManifest m' (ed25519_Public priv) key_id = Ok tt).
Proof.
  split.
  - intros e e' Hid. unfold SignEnvelope. set (e0 := if String.eqb _ _ then _ else _).
    assert (dv_DeviceID e0 = dv_DeviceID e ∧ dv_KeyEpoch e0 = dv_KeyEpoch e ∧ dv_Payload e0 = dv_Payload e) as (E1 & E2 & E3)
      by (unfold e0; by destruct (String.eqb _ _)).
    clearbody e0. intros Hs. branches Hs. split; [|done].
    match goal with H : SignPayload _ _ _ = Ok _ |- _ =>
      apply SignPayload_verifies in H as (c & Hc & Hv); [|by rewrite E1; apply DeviceKeyID_printable] end.
    unfold VerifyEnvelopeSignature. change (unsignedEnvelopePayload (set_device_signature ?s ?e)) with (unsignedEnvelopePayload e).
    match goal with H : unsignedEnvelopePayload _ = Some _ |- _ => rewrite H end. cbn [mbind option_bind]. rewrite Hc. cbn.
    by rewrite Hv, String.eqb_refl.
  - intros m m' key_id Hk Hs. unfold SignManifest in Hs. branches Hs.
    match goal with H : SignPayload _ _ _ = Ok _ |- _ => apply SignPayload_verifies in H as (c & Hc & Hv); [|done] end.
    unfold VerifyManifest. cbn [mf_Signature set_manifest_signature].
    destruct (String.eqb _ "") eqn:E. { apply String.eqb_eq in E as ->. vm_compute in Hv. revert Hv. by case_match. }
    change (set_manifest_signature "" (set_manifest_signature ?s ?m)) with (set_manifest_signature "" m).
    by rewrite Hc, Hv, String.eqb_refl.
Qed.
End roundtrip.

(** ** Key identifiers *)

Lemma cut_last_free c s : free_of c s = true → cut_last c s = None.
Proof.
  induction s as [|a s IH]; [done|]. unfold free_of in *. simpl. intros [Ha Hs]%andb_true_iff.
  rewrite (IH Hs). by rewrite (proj1 (negb_true_iff _) Ha).
Qed.
Lemma cut_last_app c p s : free_of c s = true → cut_last c (p +:+ String c s) = Some (p, s).
Proof.
  intros Hs. induction p as [|a p IH]; simpl; [by rewrite cut_last_free, Ascii.eqb_refl|].
  change (String.append p ?t) with (p +:+ t). by rewrite IH.
Qed.
Lemma leading_digits_all s : all_chars is_digit s = true → leading_digits s = s.
Proof. induction s as [|c s IH]; simpl; [done|]. intros [-> Hs]%andb_true_iff. by rewrite IH. Qed.
Lemma Sscanf_d_digits s :
  s ≠ "" → all_chars is_digit s = true → dec_value s < 2 ^ 63 → 0 ≤ dec_value s → Sscanf_d s = Some (dec_value s).
Proof.
  destruct s as [|c s]; [done|]. intros _ Hd Hlt Hge. pose proof Hd as [Hc Hs]%andb_true_iff.
  unfold Sscanf_d. rewrite trim_left_none by (apply strip_any_solid; [by vm_compute|by apply digit_solid]).
  assert ((byte_of c =? 43) = false ∧ (byte_of c =? 45) = false) as [-> ->].
  { unfold is_digit in Hc. bool_to_prop. rewrite !Z.eqb_neq. lia. }
  rewrite leading_digits_all by done. cbn [String.eqb]. rewrite Z.mul_1_l.
  rewrite (proj2 (Z.leb_le _ _)) by lia. by rewrite (proj2 (Z.ltb_lt _ _)).
Qed.

(** A key identifier names one device and one epoch. *)
Lemma ParseKeyID_DeviceKeyID id epoch :
  id ≠ "" → 1 ≤ epoch < 2 ^ 63 → ParseKeyID (DeviceKeyID id epoch) = Ok (id, epoch).
Proof.
  intros Hid He. unfold ParseKeyID, DeviceKeyID.
  assert (∀ p s, strip_prefix p (p +:+ s) = Some s) as Hp.
  { intros p s. induction p as [|c p IH]; simpl; [by destruct s|]. by rewrite Ascii.eqb_refl. }
  rewrite Hp. destruct (show_dec_spec epoch ltac:(lia)) as [Hv Hd].
  assert (show_Z epoch = show_dec epoch) as -> by (unfold show_Z; by rewrite (proj2 (Z.ltb_ge _ _)) by lia).
  change ("-" +:+ show_dec epoch) with (String (char_of 45) (show_dec epoch)).
  rewrite cut_last_app; cycle 1.
  { unfold free_of. eapply all_chars_impl; [|exact Hd]. intros c Hc. apply negb_true_iff, Ascii.eqb_neq. by intros ->. }
  assert (show_dec epoch ≠ "") as Hne. { intros E. rewrite E in Hv. cbn in Hv. lia. }
  rewrite (proj2 (String.eqb_neq _ _) Hid), (proj2 (String.eqb_neq _ _) Hne). cbn [orb].
  rewrite Sscanf_d_digits, Hv by (try done; lia). by rewrite (proj2 (Z.ltb_ge _ _)) by lia.
Qed.

(** ** Rollout *)

Definition with_percent (p : Z) (r : Release) : Release :=
  mkRelease (rel_ID r) (rel_TenantID r) (rel_Kind r) (rel_Version r) (rel_ArtifactSHA256 r) (rel_ArtifactURL r) p
    (rel_MinEpoch r) (rel_CreatedAt r).
Definition fits (device : Device) (release : Release) : Prop :=
  rel_Kind release = dev_Kind device ∧ rel_TenantID release = dev_TenantID device ∧
  rel_MinEpoch release ≤ dev_KeyEpoch device.

Lemma RolloutBucket_range id dev : 0 ≤ RolloutBucket id dev < 100.
Proof. unfold RolloutBucket. apply Z.mod_pos_bound. lia. Qed.
Lemma eligible_spec device release :
  eligible device release = true ↔
  fits device release ∧ RolloutBucket (rel_ID release) (dev_ID device) < rel_RolloutPercent release.
Proof.
  unfold eligible, fits. rewrite !andb_true_iff, !negb_true_iff, Z.ltb_ge, !Z.leb_gt, !String.eqb_eq.
  pose proof (RolloutBucket_range (rel_ID release) (dev_ID device)). naive_solver lia.
Qed.
(** The first eligible release, in the order of the list. *)
Lemma SelectRelease_spec releases device r :
  SelectRelease releases device = Some r ↔
  ∃ before after, releases = before ++ r :: after ∧ eligible device r = true ∧
    Forall (λ r', eligible device r' = false) before.
Proof.
  induction releases as [|r0 rest IH]; simpl.
  { split; [done|]. intros ([|] & ? & ? & _); done. }
  destruct (eligible device r0) eqn:E.
  - split.
    + intros [= <-]. exists [], rest. by repeat constructor.
    + intros ([|r1 before] & after & [= -> ->] & Hr & Hb); [done|]. apply Forall_cons in Hb as [? _]. congruence.
  - rewrite IH. split.
    + intros (before & after & -> & Hr & Hb). exists (r0 :: before), after. by repeat constructor.
    + intros ([|r1 before] & after & [= -> ->] & Hr & Hb); [congruence|]. apply Forall_cons in Hb as [_ Hb]. eauto.
Qed.

(** The rollout of a release only grows: a device that fits a release is given
    it at every percentage above its bucket, which lies between 0 and 99, so raising
    the percentage never takes a release away, at 0 no device has it and at 100
    every device it fits has it; and a device is given the newest release, first in
    the list, that it is eligible for. *)
Theorem rollout_only_grows device releases r :
  (∀ p, eligible device (with_percent p r) = true ↔
        fits device r ∧ RolloutBucket (rel_ID r) (dev_ID device) < p) ∧
  (∀ p p', p ≤ p' → eligible device (with_percent p r) = true → eligible device (with_percent p' r) = true) ∧
  eligible device (with_percent 0 r) = false ∧
  (eligible device (with_percent 100 r) = true ↔ fits device r) ∧
  (SelectRelease releases device = Some r ↔
   ∃ before after, releases = before ++ r :: after ∧ eligible device r = true ∧
     Forall (λ r', eligible device r' = false) before).
Proof.
  pose proof (RolloutBucket_range (rel_ID r) (dev_ID device)).
  assert (∀ p, eligible device (with_percent p r) = true ↔
    fits device r ∧ RolloutBucket (rel_ID r) (dev_ID device) < p) as He by (intros p; apply eligible_spec).
  split_and!; [done| | | |apply SelectRelease_spec].
  - intros p p' Hp. rewrite !He. naive_solver lia.
  - apply not_true_is_false. rewrite He. lia.
  - rewrite He. naive_solver lia.
Qed.

(** ** Instances that satisfy the laws *)

Module SampleDevice.
Import SampleKeys.
(** The envelope that the device of the examples sends. *)
Definition unsigned : DeviceEnvelope :=
  mkDeviceEnvelope "" "d-1" 1 EventVesselPosition (5 * second) "report" "".
Definition signed : DeviceEnvelope :=
  match SignEnvelope private unsigned with Ok e => e | Err _ => unsigned end.
#[export] Instance device_texts : DeviceText := {|
  decode_kid := λ s, match split_on newline s with [_; k] => Some k | _ => None end;
  decode_proof := λ s, None;
  decode_device_envelope := λ s, if String.eqb s "text" then Some signed else None |}.
#[export] Instance device_texts_laws : DeviceTextLaws.
Proof.
  split; [|by intros t t' [= ->]].
  intros alg kid Ha%printable_no_newline Hk%printable_no_newline. simpl. by rewrite split_on_app, split_on_free.
Qed.
Definition manifest : Manifest := mkManifest "d-1" "AIS" "1.2.3" "00" "https://example.org/fw" 50 1 (7 * second) "".
End SampleDevice.

#[local] Existing Instance SampleKeys.keys.
#[local] Existing Instance SampleKeys.keys_laws.
#[local] Existing Instance SampleKeys.texts.
#[local] Existing Instance SampleKeys.texts_laws.
#[local] Existing Instance SampleDevice.device_texts.
#[local] Existing Instance SampleDevice.device_texts_laws.

Lemma device_signatures_verify_witness :
  SignEnvelope SampleKeys.private SampleDevice.unsigned = Ok SampleDevice.signed ∧
  VerifyEnvelopeSignature SampleDevice.signed SampleKeys.seed = Ok tt ∧
  ∃ m, SignManifest SampleDevice.manifest (SignPayload SampleKeys.private) "manifest-1" = Ok m ∧
       VerifyManifest m SampleKeys.seed "manifest-1" = Ok tt.
Proof.
  destruct (device_signatures_verify SampleKeys.private) as [He Hm].
  assert (SignEnvelope SampleKeys.private SampleDevice.unsigned = Ok SampleDevice.signed) as Hs by (vm_compute; reflexivity).
  split; [exact Hs|]. split.
  - apply (He SampleDevice.unsigned SampleDevice.signed); [reflexivity|exact Hs].
  - destruct (SignManifest SampleDevice.manifest (SignPayload SampleKeys.private) "manifest-1") as [m|] eqn:E;
      [|vm_compute in E; discriminate E].
    exists m. split; [reflexivity|]. exact (Hm _ _ "manifest-1" eq_refl E).
Defined.
