(* ===== verification/DeviceStore.v ===== *)
(** * The device registry store

    [internal/devices/store.go] on the tables of migration 0010: provisioning and
    rotation requests under maker and checker, key epochs, lifecycle, firmware
    releases, activation and the audit ledger.  Methods of the application role run
    inside [WithTenant] and see the rows of their tenant; the device plane
    ([LoadDeviceForAuth], [LoadKey], [ConsumeActivation], [ListReleasesForKind],
    [InsertAudit]) sees every tenant.  The methods lock the rows they change, so that
    a run is a sequence of whole transactions.  Fresh identifiers, random bytes and
    the clock of a transaction are arguments; unique keys and the CHECK that maker
    and checker differ are modelled, any other refusal of the server is a fault. *)
From S2P Require Import Prelude GoParse Dedup Sha256 Base64 Sign Effects Devices.

(** ** Rows and tables *)

(** The payload of a request; the last constructor is a type the code does not know. *)
Inductive request_payload :=
| ProvisionPayload (kind ownerAgency label publicKey : string) (metadata : gmap string string)
| RotatePayload (deviceID publicKey : string)
| UnknownPayload (type_ : string).

Record Request := mkRequest {
  rq_ID : string; rq_TenantID : string; rq_Payload : request_payload; rq_RequestedBy : string; rq_Status : string;
  rq_DecidedBy : option string; rq_DecidedAt : option Z; rq_SecretHash : option (list Z);
  rq_DeviceID : option string; rq_CreatedAt : Z }.

Record device_db := mkDeviceDB {
  devices : gmap string Device;
  device_keys : gmap (string * Z) Key;
  provisioning_requests : gmap string Request;
  firmware_releases : gmap string Release;
}.
Definition on_devices (g : gmap string Device → gmap string Device) (d : device_db) : device_db :=
  mkDeviceDB (g (devices d)) (device_keys d) (provisioning_requests d) (firmware_releases d).
Definition on_keys (g : gmap (string * Z) Key → gmap (string * Z) Key) (d : device_db) : device_db :=
  mkDeviceDB (devices d) (g (device_keys d)) (provisioning_requests d) (firmware_releases d).
Definition on_requests (g : gmap string Request → gmap string Request) (d : device_db) : device_db :=
  mkDeviceDB (devices d) (device_keys d) (g (provisioning_requests d)) (firmware_releases d).
Definition on_releases (g : gmap string Release → gmap string Release) (d : device_db) : device_db :=
  mkDeviceDB (devices d) (device_keys d) (provisioning_requests d) (g (firmware_releases d)).
Definition empty_device_db : device_db := mkDeviceDB ∅ ∅ ∅ ∅.

(** A record of the dead-letter topic. *)
Record dead_letter := mkDeadLetter { dl_key : string; dl_reason : string; dl_body : string }.
(** A telemetry payload handed to the event pipeline. *)
Record forwarded := mkForwarded {
  fw_eventType : string; fw_correlationID : string; fw_payload : payload; fw_occurredAt : Z;
  fw_classification : string; fw_device : string; fw_kind : string; fw_epoch : Z }.

(** The tables, the audit ledger, the counters and what was handed to Kafka. *)
Record device_store := mkDeviceStore {
  registry : device_db;
  audit_events : list AuditEvent;
  counters : list (string * string);
  dead_letters : list dead_letter;
  published : list forwarded;
}.
Definition set_registry (d : device_db) (s : device_store) : device_store :=
  mkDeviceStore d (audit_events s) (counters s) (dead_letters s) (published s).
Definition add_audit (a : AuditEvent) (s : device_store) : device_store :=
  mkDeviceStore (registry s) (audit_events s ++ [a]) (counters s) (dead_letters s) (published s).
Definition count (name label : string) (s : device_store) : device_store :=
  mkDeviceStore (registry s) (audit_events s) (counters s ++ [(name, label)]) (dead_letters s) (published s).
Definition add_dead_letter (l : dead_letter) (s : device_store) : device_store :=
  mkDeviceStore (registry s) (audit_events s) (counters s) (dead_letters s ++ [l]) (published s).
Definition add_published (f : forwarded) (s : device_store) : device_store :=
  mkDeviceStore (registry s) (audit_events s) (counters s) (dead_letters s) (published s ++ [f]).
Definition empty_device_store : device_store := mkDeviceStore empty_device_db [] [] [] [].

Inductive device_error :=
| TenantRequired | StoreFailure | ConstraintViolation
| KindUnsupported | PublicKeyInvalid | LabelInvalid (e : label_error)
| MakerRequired | CheckerRequired | ActorRequired | DeviceIDRequired
| ErrMakerChecker | ErrRequestNotPending | ErrRequestNotFound | ErrDeviceNotFound | ErrActivationFailed
| RequestTypeUnsupported | DeviceNotActive | TransitionRejected (e : transition_error)
| SecretUnavailable | KeyNotFound
| ArtifactDigestInvalid | RolloutOutOfRange
| PublishFailed.

Abbreviation IO := (M device_store device_error).

(** ** Statements *)

Definition WithTenant {A} : string → IO A → IO A :=
  tenant_transaction registry set_registry TenantRequired StoreFailure.
Definition select {A} (f : device_db → A) : IO A := external StoreFailure (λ s, (s, f (registry s))).
Definition exec (f : device_db → device_db) : IO unit :=
  external StoreFailure (λ s, (set_registry (f (registry s)) s, tt)).
Definition exec_if (allowed : device_db → bool) (f : device_db → device_db) : IO unit :=
  ok ← gets (allowed ∘ registry);
  if (ok : bool) then exec f else fail ConstraintViolation.
Definition row {A} (o : option A) (e : device_error) : IO A :=
  match o with Some a => mret a | None => fail e end.

(** [decodePublicKey]: the first base64 reading of 32 bytes. *)
Fixpoint first_32 (l : list Encoding) (text : string) : option (list Z) :=
  match l with
  | [] => None
  | e :: l' =>
      match DecodeString e text with
      | Some raw => if Nat.eqb (length raw) 32 then Some raw else first_32 l' text
      | None => first_32 l' text
      end
  end.
Definition decodePublicKey (encoded : string) : option (list Z) :=
  let trimmed := TrimSpace encoded in
  if String.eqb trimmed "" then None else first_32 encodings trimmed.

Section store.
(** The texts Postgres reads as a uuid. *)
Context (uuid_input : string → bool).

(** A statement with a uuid parameter. *)
Definition uuid_param (id : string) : IO unit := if uuid_input id then mret tt else fail StoreFailure.

(** Row-level security: what a session bound to [tenant] sees. *)
Definition find_device (tenant : string) (d : device_db) (id : string) : option Device :=
  v ← devices d !! id; if String.eqb (dev_TenantID v) tenant then Some v else None.
Definition find_request (tenant : string) (d : device_db) (id : string) : option Request :=
  r ← provisioning_requests d !! id; if String.eqb (rq_TenantID r) tenant then Some r else None.

(** ** Requests *)

Definition insertRequest (now : Z) (newID tenantID : string) (payload : request_payload) (maker : string) : IO string :=
  WithTenant tenantID
    (_ ← exec_if (λ d, bool_decide (provisioning_requests d !! newID = None))
           (on_requests (insert newID
              (mkRequest newID tenantID payload maker RequestPending None None None None (pg_time now))));
     mret newID).

Definition CreateProvisionRequest (now : Z) (newID tenantID kind ownerAgency label publicKey : string)
  (metadata : gmap string string) (maker : string) : IO string :=
  if negb (ValidKind kind) then fail KindUnsupported
  else
    match decodePublicKey publicKey, validateLabel ownerAgency 256, validateLabel label 256 with
    | None, _, _ => fail PublicKeyInvalid
    | _, Err e, _ => fail (LabelInvalid e)
    | _, _, Err e => fail (LabelInvalid e)
    | Some _, Ok _, Ok _ =>
        if blank maker then fail MakerRequired
        else insertRequest now newID tenantID (ProvisionPayload kind ownerAgency label publicKey metadata) maker
    end.

Definition CreateRotationRequest (now : Z) (newID tenantID deviceID newPublicKey maker : string) : IO string :=
  if blank deviceID then fail DeviceIDRequired
  else
    match decodePublicKey newPublicKey with
    | None => fail PublicKeyInvalid
    | Some _ =>
        if blank maker then fail MakerRequired
        else insertRequest now newID tenantID (RotatePayload deviceID (TrimSpace newPublicKey)) maker
    end.

Definition GetRequest (tenantID requestID : string) : IO Request :=
  WithTenant tenantID
    (_ ← uuid_param requestID;
     o ← select (λ d, find_request tenantID d requestID);
     row o ErrRequestNotFound).

(** ** Approval *)

Record Approval := mkApproval {
  ap_RequestID : string; ap_DeviceID : string; ap_KeyEpoch : Z; ap_ActivationSecret : string }.

(** The secret and the digest that is stored of it. *)
Definition generateActivationSecret (raw : list Z) : string * list Z :=
  (EncodeToString RawURLEncoding raw, sha256 raw).

Definition set_request_decided (status checker : string) (now : Z) (hash : option (list Z)) (device : option string)
  (r : Request) : Request :=
  mkRequest (rq_ID r) (rq_TenantID r) (rq_Payload r) (rq_RequestedBy r) status (Some checker) (Some (pg_time now))
    hash device (rq_CreatedAt r).
(** The CHECK on the decision, on the row as updated. *)
Definition decide_request (requestID status checker : string) (now : Z) (hash : option (list Z))
  (device : option string) : IO unit :=
  exec_if (λ d, match provisioning_requests d !! requestID with
                | Some r => negb (String.eqb checker (rq_RequestedBy r))
                | None => true
                end)
    (on_requests (alter (λ r, set_request_decided status checker now
                                (match hash with Some _ => hash | None => rq_SecretHash r end)
                                (match device with Some _ => device | None => rq_DeviceID r end) r) requestID)).

Definition set_key_status (status : string) (k : Key) : Key :=
  mkKey (key_DeviceID k) (key_Epoch k) (key_PublicKey k) status (key_RotatedAt k).
Definition demote (now : Z) (k : Key) : Key :=
  mkKey (key_DeviceID k) (key_Epoch k) (key_PublicKey k) KeyPrevious (pg_time now).
Definition set_epoch (epoch now : Z) (v : Device) : Device :=
  mkDevice (dev_ID v) (dev_TenantID v) (dev_Kind v) (dev_OwnerAgency v) (dev_Label v) (dev_Status v) epoch
    (dev_Metadata v) (dev_CreatedBy v) (dev_CreatedAt v) (pg_time now).
Definition set_device_status (status : string) (now : Z) (v : Device) : Device :=
  mkDevice (dev_ID v) (dev_TenantID v) (dev_Kind v) (dev_OwnerAgency v) (dev_Label v) status (dev_KeyEpoch v)
    (dev_Metadata v) (dev_CreatedBy v) (dev_CreatedAt v) (pg_time now).

(** UPDATE device_keys of the rows of a device that satisfy [p]. *)
Definition update_keys (deviceID : string) (p : Key → bool) (q : Key → Key) : device_db → device_db :=
  on_keys (fmap (λ k, if String.eqb (key_DeviceID k) deviceID && p k then q k else k)).
Definition has_status (status : string) (k : Key) : bool := String.eqb (key_Status k) status.
(** The primary key, and the index that admits one CURRENT epoch per device. *)
Definition key_admitted (deviceID : string) (epoch : Z) (d : device_db) : bool :=
  bool_decide (device_keys d !! (deviceID, epoch) = None)
  && forallb (λ k, negb (String.eqb (key_DeviceID k) deviceID && has_status KeyCurrent k)) (map_to_list (device_keys d)).*2.
Definition insert_key (deviceID : string) (epoch : Z) (publicKey : list Z) (now : Z) : IO unit :=
  exec_if (key_admitted deviceID epoch)
    (on_keys (insert (deviceID, epoch) (mkKey deviceID epoch publicKey KeyCurrent (pg_time now)))).

Definition applyRotation (now : Z) (tenantID deviceID : string) (newPublicKey : list Z) (grace : Z) : IO Z :=
  _ ← uuid_param deviceID;
  o ← select (λ d, find_device tenantID d deviceID);
  device ← row o ErrDeviceNotFound;
  if negb (String.eqb (dev_Status device) StatusActive) then fail DeviceNotActive
  else
    _ ← exec (update_keys deviceID (λ k, has_status KeyPrevious k && (key_RotatedAt k <? pg_time now - grace))
                (set_key_status KeyRevoked));
    _ ← exec (update_keys deviceID (has_status KeyCurrent) (demote now));
    _ ← insert_key deviceID (dev_KeyEpoch device + 1) newPublicKey now;
    _ ← exec (on_devices (alter (set_epoch (dev_KeyEpoch device + 1) now) deviceID));
    mret (dev_KeyEpoch device + 1).

Definition approve_provision (now : Z) (newID : string) (raw : option (list Z)) (tenantID requestID checker requestedBy : string)
  (kind ownerAgency label publicKey : string) (metadata : gmap string string) : IO Approval :=
  match decodePublicKey publicKey with
  | None => fail PublicKeyInvalid
  | Some key =>
      _ ← exec_if (λ d, bool_decide (devices d !! newID = None))
            (on_devices (insert newID (mkDevice newID tenantID kind ownerAgency label StatusActive 1 metadata requestedBy
                                         (pg_time now) (pg_time now))));
      _ ← insert_key newID 1 key now;
      match raw with
      | None => fail SecretUnavailable
      | Some raw =>
          let '(secret, hash) := generateActivationSecret raw in
          _ ← decide_request requestID RequestApproved checker now (Some hash) (Some newID);
          mret (mkApproval requestID newID 1 secret)
      end
  end.

Definition approve_rotation (now : Z) (tenantID requestID checker deviceID publicKey : string) (grace : Z) : IO Approval :=
  match decodePublicKey publicKey with
  | None => fail PublicKeyInvalid
  | Some key =>
      epoch ← applyRotation now tenantID deviceID key grace;
      _ ← decide_request requestID RequestApproved checker now None (Some deviceID);
      mret (mkApproval requestID deviceID epoch "")
  end.

Definition ApproveRequest (now : Z) (newID : string) (raw : option (list Z)) (tenantID requestID checker : string)
  (grace : Z) : IO Approval :=
  if blank checker then fail CheckerRequired
  else
    let grace := if grace <=? 0 then DefaultKeyGrace else grace in
    WithTenant tenantID
      (_ ← uuid_param requestID;
       o ← select (λ d, find_request tenantID d requestID);
       request ← row o ErrRequestNotFound;
       if String.eqb (rq_RequestedBy request) checker then fail ErrMakerChecker
       else if negb (String.eqb (rq_Status request) RequestPending) then fail ErrRequestNotPending
       else
         match rq_Payload request with
         | ProvisionPayload kind ownerAgency label publicKey metadata =>
             approve_provision now newID raw tenantID requestID checker (rq_RequestedBy request) kind ownerAgency label
               publicKey metadata
         | RotatePayload deviceID publicKey =>
             approve_rotation now tenantID requestID checker deviceID publicKey grace
         | UnknownPayload _ => fail RequestTypeUnsupported
         end).

Definition RejectRequest (now : Z) (tenantID requestID checker : string) : IO Request :=
  if blank checker then fail CheckerRequired
  else
    _ ← WithTenant tenantID
          (_ ← uuid_param requestID;
           o ← select (λ d, find_request tenantID d requestID);
           request ← row o ErrRequestNotFound;
           if String.eqb (rq_RequestedBy request) checker then fail ErrMakerChecker
           else if negb (String.eqb (rq_Status request) RequestPending) then fail ErrRequestNotPending
           else decide_request requestID RequestRejected checker now None None);
    GetRequest tenantID requestID.

(** ** Devices *)

Definition ListDevices (tenantID : string) (limit : Z) : IO (list Device) :=
  let limit := if (limit <=? 0) || (5000 <? limit) then 500 else limit in
  WithTenant tenantID
    (select (λ d, take (Z.to_nat limit) (newest_first dev_CreatedAt
       (filter (λ v, String.eqb (dev_TenantID v) tenantID = true) (map_to_list (devices d)).*2)))).

Definition GetDevice (tenantID deviceID : string) : IO Device :=
  WithTenant tenantID
    (_ ← uuid_param deviceID;
     o ← select (λ d, find_device tenantID d deviceID);
     row o ErrDeviceNotFound).

Definition SetDeviceStatus (now : Z) (tenantID deviceID target actor : string) : IO Device :=
  if blank actor then fail ActorRequired
  else
    WithTenant tenantID
      (_ ← uuid_param deviceID;
       o ← select (λ d, find_device tenantID d deviceID);
       device ← row o ErrDeviceNotFound;
       match ValidateStatusTransition (dev_Status device) target with
       | Err e => fail (TransitionRejected e)
       | Ok _ =>
           _ ← exec (on_devices (alter (set_device_status target now) deviceID));
           _ ← (if terminal target
                then exec (update_keys deviceID (λ k, negb (has_status KeyRevoked k)) (set_key_status KeyRevoked))
                else mret tt);
           o ← select (λ d, find_device tenantID d deviceID);
           row o StoreFailure
       end).

Definition is_lower_hex (c : char) : bool := is_digit c || ((97 <=? byte_of c) && (byte_of c <=? 102)).
Definition release_key (r : Release) : string * string * string := (rel_TenantID r, rel_Kind r, rel_Version r).
Definition CreateFirmwareRelease (now : Z) (newID tenantID : string) (release : Release) : IO string :=
  if negb (ValidKind (rel_Kind release)) then fail KindUnsupported
  else
    match validateLabel (rel_Version release) 128, validateLabel (rel_ArtifactURL release) 2048 with
    | Err e, _ | _, Err e => fail (LabelInvalid e)
    | Ok _, Ok _ =>
        if negb (Nat.eqb (String.length (rel_ArtifactSHA256 release)) 64)
           || negb (all_chars is_lower_hex (rel_ArtifactSHA256 release)) then fail ArtifactDigestInvalid
        else if (rel_RolloutPercent release <? 0) || (100 <? rel_RolloutPercent release) then fail RolloutOutOfRange
        else
          let minEpoch := if rel_MinEpoch release <? 1 then 1 else rel_MinEpoch release in
          let r := mkRelease newID tenantID (rel_Kind release) (rel_Version release) (rel_ArtifactSHA256 release)
                     (rel_ArtifactURL release) (rel_RolloutPercent release) minEpoch (pg_time now) in
          WithTenant tenantID
            (_ ← exec_if (λ d, bool_decide (firmware_releases d !! newID = None)
                               && forallb (λ r', bool_decide (release_key r' ≠ release_key r))
                                    (map_to_list (firmware_releases d)).*2)
                   (on_releases (insert newID r));
             mret newID)
    end.

(** ** The device plane *)

Definition LoadDeviceForAuth (deviceID : string) : IO Device :=
  _ ← uuid_param deviceID;
  o ← select (λ d, devices d !! deviceID);
  row o ErrDeviceNotFound.

Definition LoadKey (deviceID : string) (epoch : Z) : IO Key :=
  _ ← uuid_param deviceID;
  o ← select (λ d, device_keys d !! (deviceID, epoch));
  row o KeyNotFound.

Definition set_request_status (status : string) (r : Request) : Request :=
  mkRequest (rq_ID r) (rq_TenantID r) (rq_Payload r) (rq_RequestedBy r) status (rq_DecidedBy r) (rq_DecidedAt r)
    (rq_SecretHash r) (rq_DeviceID r) (rq_CreatedAt r).
(** The UPDATE of one row and the device it returns. *)
Definition consume (requestID : string) (hash : list Z) (d : device_db) : device_db * option (option string) :=
  match provisioning_requests d !! requestID with
  | Some r =>
      if String.eqb (rq_Status r) RequestApproved && bool_decide (rq_SecretHash r = Some hash)
      then (on_requests (alter (set_request_status RequestConsumed) requestID) d, Some (rq_DeviceID r))
      else (d, None)
  | None => (d, None)
  end.
Definition ConsumeActivation (requestID secret : string) : IO string :=
  let trimmed := TrimSpace secret in
  if String.eqb trimmed "" then fail ErrActivationFailed
  else
    match DecodeString RawURLEncoding trimmed with
    | None => fail ErrActivationFailed
    | Some raw =>
        if negb (Nat.eqb (length raw) 32) then fail ErrActivationFailed
        else
          _ ← uuid_param requestID;
          o ← external StoreFailure (λ s, let '(d, o) := consume requestID (sha256 raw) (registry s) in
                                          (set_registry d s, o));
          match o with
          | Some (Some deviceID) => mret deviceID
          | _ => fail ErrActivationFailed
          end
    end.

(** ORDER BY created_at DESC, id DESC. *)
Definition release_le (a b : Release) : Prop :=
  rel_CreatedAt b < rel_CreatedAt a ∨ (rel_CreatedAt a = rel_CreatedAt b ∧ str_le (rel_ID b) (rel_ID a)).
#[export] Instance release_le_dec a b : Decision (release_le a b).
Proof. unfold release_le. apply _. Defined.
Definition ListReleasesForKind (tenantID kind : string) : IO (list Release) :=
  select (λ d, merge_sort release_le
    (filter (λ r, String.eqb (rel_TenantID r) tenantID && String.eqb (rel_Kind r) kind = true)
       (map_to_list (firmware_releases d)).*2)).

(** A device identifier that is not blank must read as a uuid. *)
Definition InsertAudit (event : AuditEvent) : IO unit :=
  _ ← (if blank (au_DeviceID event) then mret tt else uuid_param (au_DeviceID event));
  external StoreFailure (λ s, (add_audit event s, tt)).
End store.
