(* ===== verification/DeviceVerify.v ===== *)
(** * Verification of device envelopes and proofs

    [internal/devices/verify.go]: the registry gates on the device and its key
    epoch, the signature, the audit entry and the counter of every rejection.  A
    rejection is a value, as the Go error is; the readings of the clock are
    arguments. *)
From S2P Require Import Prelude Dedup Sha256 Base64 Classification Sign Jws Effects Devices DeviceStore.

Definition ReasonEnvelopeMalformed : string := "envelope_malformed".
Definition ReasonDeviceUnknown : string := "device_unknown".
Definition ReasonDeviceSuspended : string := "device_suspended".
Definition ReasonDeviceRevoked : string := "device_revoked".
Definition ReasonDeviceRetired : string := "device_decommissioned".
Definition ReasonEpochUnknown : string := "key_epoch_unknown".
Definition ReasonKeyRevoked : string := "key_revoked".
Definition ReasonGraceExpired : string := "key_grace_expired".
Definition ReasonSignatureInvalid : string := "signature_invalid".
Definition ReasonDeviceIDMismatch : string := "device_id_mismatch".
Definition ReasonActionMismatch : string := "proof_action_mismatch".
Definition ReasonPayloadUnsupported : string := "payload_type_unsupported".
Definition AuditAuthFailed : string := "AUTH_FAILED".

Record AuthError := mkAuthError { ae_Reason : string; ae_DeviceID : string; ae_Detail : string }.
(** A rejection, or the failure of the registry to answer. *)
Inductive auth_failure := Rejected (e : AuthError) | Unavailable (e : device_error).
Record VerifiedDevice := mkVerified { vd_Device : Device; vd_KeyEpoch : Z }.

(** [NewVerifier]: a window that is not positive becomes the default. *)
Definition verifier_grace (grace : Z) : Z := if grace <=? 0 then DefaultKeyGrace else grace.

Section verify.
Context `{Ed25519} `{JsonText} `{DeviceText}.
Context (uuid_input : string → bool) (grace : Z).

Definition reject (deviceID tenantID reason detail : string) : IO unit :=
  _ ← modify (count "geo_device_auth_total" reason);
  _ ← attempt (InsertAudit uuid_input
                 (mkAudit tenantID deviceID AuditAuthFailed ("device:" +:+ deviceID) reason [("detail", detail)]));
  mret tt.
Definition accept : IO unit := modify (count "geo_device_auth_total" "ok").

(** Records the rejection and returns it; the entry names [audited]. *)
Definition rejected {A} (audited tenantID reason detail named told : string) : IO (result auth_failure A) :=
  _ ← reject audited tenantID reason detail;
  mret (Err (Rejected (mkAuthError reason named told))).

Definition authenticate (now : Z) (deviceID : string) (epoch : Z) : IO (result auth_failure (Device * Key)) :=
  loaded ← attempt (LoadDeviceForAuth uuid_input deviceID);
  match loaded with
  | Err ErrDeviceNotFound =>
      rejected deviceID "" ReasonDeviceUnknown "device is not registered" deviceID "device is not registered"
  | Err e => mret (Err (Unavailable e))
  | Ok device =>
      let id := dev_ID device in
      let tenant := dev_TenantID device in
      if String.eqb (dev_Status device) StatusSuspended then
        rejected id tenant ReasonDeviceSuspended "device is suspended" id "device is suspended"
      else if String.eqb (dev_Status device) StatusRevoked then
        rejected id tenant ReasonDeviceRevoked "device is revoked" id "device is revoked"
      else if negb (String.eqb (dev_Status device) StatusActive) then
        rejected id tenant ReasonDeviceRetired "device is decommissioned" id "device is decommissioned"
      else
        found ← attempt (LoadKey uuid_input deviceID epoch);
        match found with
        | Err _ => rejected id tenant ReasonEpochUnknown "key epoch is not registered" id "key epoch is not registered"
        | Ok key =>
            if String.eqb (key_Status key) KeyCurrent then
              if negb (epoch =? dev_KeyEpoch device) then
                rejected id tenant ReasonEpochUnknown "key epoch is not the device current epoch" id
                  "key epoch is not the device current epoch"
              else mret (Ok (device, key))
            else if String.eqb (key_Status key) KeyPrevious then
              if grace <? time_Sub now (key_RotatedAt key) then
                rejected id tenant ReasonGraceExpired "previous key epoch is past the rotation grace window" id
                  "previous key epoch is past the rotation grace window"
              else mret (Ok (device, key))
            else if String.eqb (key_Status key) KeyRevoked then
              rejected id tenant ReasonKeyRevoked "key epoch is revoked" id "key epoch is revoked"
            else rejected id tenant ReasonEpochUnknown "key epoch status is unknown" id "key epoch status is unknown"
        end
  end.

Definition incomplete (e : DeviceEnvelope) : bool :=
  blank (dv_DeviceID e) || (dv_KeyEpoch e <? 1) || blank (dv_PayloadType e) || String.eqb (dv_Payload e) ""
  || time_IsZero (dv_OccurredAt e) || blank (dv_Signature e).

(** The detail of a signature error is its text, which is not modelled. *)
Definition VerifyTelemetry (now : Z) (pathDeviceID raw : string) :
  IO (result auth_failure (DeviceEnvelope * VerifiedDevice)) :=
  match decode_device_envelope raw with
  | None => rejected "" "" ReasonEnvelopeMalformed "envelope is not valid JSON" "" "envelope is not valid JSON"
  | Some envelope =>
      let id := dv_DeviceID envelope in
      if negb (String.eqb (dv_EnvelopeVersion envelope) DeviceEnvelopeVersion) then
        rejected id "" ReasonEnvelopeMalformed "envelopeVersion is not 1.0" id "envelopeVersion is not 1.0"
      else if incomplete envelope then
        rejected id "" ReasonEnvelopeMalformed "envelope fields are incomplete" id "envelope fields are incomplete"
      else if negb (String.eqb id pathDeviceID) then
        rejected id "" ReasonDeviceIDMismatch "path device id does not match the envelope" id
          "path device id does not match the envelope"
      else
        r ← authenticate now id (dv_KeyEpoch envelope);
        match r with
        | Err e => mret (Err e)
        | Ok (device, key) =>
            match VerifyEnvelopeSignature envelope (key_PublicKey key) with
            | Err _ =>
                rejected (dev_ID device) (dev_TenantID device) ReasonSignatureInvalid "" (dev_ID device)
                  "signature verification failed"
            | Ok _ =>
                _ ← accept;
                mret (Ok (envelope, mkVerified device (dv_KeyEpoch envelope)))
            end
        end
  end.

(** The details of malformed proofs are error texts, which are not modelled. *)
Definition VerifyProof (now : Z) (compact expectedAction : string) : IO (result auth_failure VerifiedDevice) :=
  if blank compact then rejected "" "" ReasonEnvelopeMalformed "proof is required" "" "proof is required"
  else
    match proofClaims compact with
    | Err _ => rejected "" "" ReasonEnvelopeMalformed "" "" ""
    | Ok (deviceID, epoch) =>
        r ← authenticate now deviceID epoch;
        match r with
        | Err e => mret (Err e)
        | Ok (device, key) =>
            let id := dev_ID device in
            let tenant := dev_TenantID device in
            match VerifyProofSignature compact (key_PublicKey key) with
            | Err _ => rejected id tenant ReasonSignatureInvalid "" id "proof signature verification failed"
            | Ok proof =>
                if negb (String.eqb (pf_Action proof) expectedAction) then
                  rejected id tenant ReasonActionMismatch "proof action does not match the endpoint" id
                    "proof action does not match the endpoint"
                else if negb (String.eqb (pf_DeviceID proof) deviceID) || negb (pf_KeyEpoch proof =? epoch) then
                  rejected id tenant ReasonDeviceIDMismatch "proof claims do not match the key id" id
                    "proof claims do not match the key id"
                else
                  _ ← accept;
                  mret (Ok (mkVerified device epoch))
            end
        end
    end.
End verify.
