(* ===== verification/DeviceApi.v ===== *)
(** * HTTP boundary of the device plane

    [internal/devices/api.go]: fleet administration behind the principal and role
    guards, and the endpoints that devices authenticate themselves.  A body is what
    its decoder gives, nothing when it is unreadable; texts of wrapped errors are
    left out of the answers. *)
From S2P Require Import Prelude Dedup Sha256 GoTime Base64 Classification Sign Jws Auth Http Effects Devices DeviceStore DeviceVerify.

Definition writeDeviceError (status : Z) (message : string) : response := mkResponse status [("error", JStr message)].

(** ** Routes *)

Inductive admin_route :=
| CreateProvision | GetProvision | ApproveProvision | RejectProvision | ListDevicesRoute | GetDeviceRoute
| SetStatus | RequestRotation | ApproveRotation | CreateRelease.
Definition readRoles : list string := ["geo-device-reader"; "geo-device-maker"; "geo-device-checker"; "geo-device-admin"].
Definition route_roles (r : admin_route) : list string :=
  match r with
  | CreateProvision | RequestRotation => ["geo-device-maker"; "geo-device-admin"]
  | ApproveProvision | RejectProvision | ApproveRotation => ["geo-device-checker"; "geo-device-admin"]
  | GetProvision | ListDevicesRoute | GetDeviceRoute => readRoles
  | SetStatus | CreateRelease => ["geo-device-admin"]
  end.
Definition admin_routes : list (string * admin_route) :=
  [("POST /v1/device-provisioning/requests", CreateProvision);
   ("GET /v1/device-provisioning/requests/{id}", GetProvision);
   ("POST /v1/device-provisioning/requests/{id}/approve", ApproveProvision);
   ("POST /v1/device-provisioning/requests/{id}/reject", RejectProvision);
   ("GET /v1/devices", ListDevicesRoute); ("GET /v1/devices/{id}", GetDeviceRoute);
   ("POST /v1/devices/{id}/status", SetStatus); ("POST /v1/devices/{id}/rotate", RequestRotation);
   ("POST /v1/devices/{id}/rotate/{requestId}/approve", ApproveRotation);
   ("POST /v1/devices/firmware-releases", CreateRelease)].

(** ** JSON of the rows *)

Definition metadata_json (m : gmap string string) : list (string * json) :=
  if bool_decide (m = ∅) then []
  else [("metadata", JObj (sort_by fst ((λ kv, (kv.1, JStr kv.2)) <$> map_to_list m)))].
Definition device_json (v : Device) : json :=
  JObj ([("id", JStr (dev_ID v)); ("tenantId", JStr (dev_TenantID v)); ("kind", JStr (dev_Kind v));
         ("ownerAgency", JStr (dev_OwnerAgency v)); ("label", JStr (dev_Label v)); ("status", JStr (dev_Status v));
         ("keyEpoch", JNum (dev_KeyEpoch v))] ++ metadata_json (dev_Metadata v)
        ++ [("createdBy", JStr (dev_CreatedBy v)); ("createdAt", JTime (dev_CreatedAt v));
            ("updatedAt", JTime (dev_UpdatedAt v))]).
Definition payload_json (p : request_payload) : json :=
  match p with
  | ProvisionPayload kind agency label key metadata =>
      JObj ([("type", JStr "PROVISION"); ("kind", JStr kind); ("ownerAgency", JStr agency); ("label", JStr label);
             ("publicKey", JStr key)] ++ metadata_json metadata)
  | RotatePayload device key => JObj [("type", JStr "ROTATE"); ("deviceId", JStr device); ("publicKey", JStr key)]
  | UnknownPayload type_ => JObj [("type", JStr type_)]
  end.
Definition request_json (r : DeviceStore.Request) : json :=
  JObj ([("id", JStr (rq_ID r)); ("tenantId", JStr (rq_TenantID r)); ("payload", payload_json (rq_Payload r));
         ("requestedBy", JStr (rq_RequestedBy r)); ("status", JStr (rq_Status r))]
        ++ str_omit "decidedBy" (default "" (rq_DecidedBy r)) ++ opt_omit "decidedAt" JTime (rq_DecidedAt r)
        ++ str_omit "deviceId" (default "" (rq_DeviceID r)) ++ [("createdAt", JTime (rq_CreatedAt r))]).
Definition approval_json (a : Approval) : json :=
  JObj [("requestId", JStr (ap_RequestID a)); ("deviceId", JStr (ap_DeviceID a)); ("keyEpoch", JNum (ap_KeyEpoch a));
        ("activationSecret", JStr (ap_ActivationSecret a))].

(** ** Handlers *)

Section api.
Context `{Ed25519} `{JsonText} `{DeviceText}.
(** The texts Postgres reads as a uuid, and [strings.ToUpper]. *)
Context (uuid_input : string → bool) (ToUpper : string → string).
(** The payload of a telemetry envelope, as its type. *)
Context (decode_position : string → option VesselPositionReported)
        (decode_static : string → option VesselStaticReported).

(** [VerifierGrace] is the window of the verifier the handlers share. *)
Record API := mkAPI { ManifestKey : list Z; ManifestKeyID : string; Grace : Z; VerifierGrace : Z }.
Inductive api_error := APIKeyRequired.
(** [NewAPI]: the other dependencies are not nil. *)
Definition NewAPI (api : API) : result api_error API :=
  if negb (Nat.eqb (length (ManifestKey api)) PrivateKeySize) || blank (ManifestKeyID api) then Err APIKeyRequired
  else Ok (mkAPI (ManifestKey api) (ManifestKeyID api) (if Grace api <=? 0 then DefaultKeyGrace else Grace api) (VerifierGrace api)).
Context (api : API).

Definition audit (event : AuditEvent) : IO unit :=
  r ← attempt (InsertAudit uuid_input event);
  match r with Ok _ => mret tt | Err _ => modify (count "geo_device_audit_errors_total" "") end.

(** [principalOrFail] before the body of a handler. *)
Definition with_principal (p : option Principal) (next : Principal → IO response) : IO response :=
  match PrincipalFrom p with
  | None => mret (writeDeviceError StatusForbidden "principal unavailable")
  | Some principal =>
      if blank (TenantID principal) then mret (writeDeviceError StatusForbidden "principal has no tenant binding")
      else next principal
  end.
Definition with_body {B} (body : option B) (next : B → IO response) : IO response :=
  match body with
  | None => mret (writeDeviceError StatusBadRequest "request body is not valid JSON")
  | Some b => next b
  end.

Record provisionRequestBody := mkProvisionBody {
  pb_Kind : string; pb_OwnerAgency : string; pb_Label : string; pb_PublicKey : string; pb_Metadata : gmap string string }.
Definition createProvisionRequest (now : Z) (newID : string) (p : option Principal) (body : option provisionRequestBody) :
  IO response :=
  with_principal p (λ principal, with_body body (λ body,
    r ← attempt (CreateProvisionRequest now newID (TenantID principal) (pb_Kind body) (pb_OwnerAgency body)
                   (pb_Label body) (pb_PublicKey body) (pb_Metadata body) (Subject principal));
    match r with
    | Err _ => mret (writeDeviceError StatusBadRequest "provisioning request rejected: ")
    | Ok id =>
        _ ← audit (mkAudit (TenantID principal) "" "PROVISIONING_REQUESTED" (Subject principal) ""
                     [("requestId", id); ("kind", pb_Kind body)]);
        _ ← modify (count "geo_device_provisioning_total" "requested");
        mret (mkResponse StatusAccepted [("requestId", JStr id); ("status", JStr RequestPending)])
    end)).

Definition getProvisionRequest (p : option Principal) (id : string) : IO response :=
  with_principal p (λ principal,
    r ← attempt (GetRequest uuid_input (TenantID principal) id);
    mret match r with
         | Err ErrRequestNotFound => writeDeviceError StatusNotFound "provisioning request not found"
         | Err _ => writeDeviceError StatusInternalServerError "provisioning request query failed"
         | Ok stored => mkResponse StatusOK [("request", request_json stored)]
         end).

Definition approveProvisionRequest (now : Z) (newID : string) (raw : option (list Z)) (p : option Principal) (id : string) :
  IO response :=
  with_principal p (λ principal,
    r ← attempt (ApproveRequest uuid_input now newID raw (TenantID principal) id (Subject principal) (Grace api));
    match r with
    | Err ErrMakerChecker => mret (writeDeviceError StatusConflict "maker may not decide their own request (four-eyes)")
    | Err ErrRequestNotPending => mret (writeDeviceError StatusConflict "provisioning request is not pending")
    | Err ErrRequestNotFound => mret (writeDeviceError StatusNotFound "provisioning request not found")
    | Err _ => mret (writeDeviceError StatusInternalServerError "provisioning approval failed")
    | Ok approval =>
        _ ← audit (mkAudit (TenantID principal) (ap_DeviceID approval) "PROVISIONING_APPROVED" (Subject principal) ""
                     [("requestId", ap_RequestID approval)]);
        _ ← modify (count "geo_device_provisioning_total" "approved");
        mret (mkResponse StatusOK [("approval", approval_json approval)])
    end).

Definition rejectProvisionRequest (now : Z) (p : option Principal) (id : string) : IO response :=
  with_principal p (λ principal,
    r ← attempt (RejectRequest uuid_input now (TenantID principal) id (Subject principal));
    match r with
    | Err ErrMakerChecker => mret (writeDeviceError StatusConflict "maker may not decide their own request (four-eyes)")
    | Err ErrRequestNotPending => mret (writeDeviceError StatusConflict "provisioning request is not pending")
    | Err ErrRequestNotFound => mret (writeDeviceError StatusNotFound "provisioning request not found")
    | Err _ => mret (writeDeviceError StatusInternalServerError "provisioning rejection failed")
    | Ok stored =>
        _ ← audit (mkAudit (TenantID principal) "" "PROVISIONING_REJECTED" (Subject principal) ""
                     [("requestId", rq_ID stored)]);
        _ ← modify (count "geo_device_provisioning_total" "rejected");
        mret (mkResponse StatusOK [("requestId", JStr (rq_ID stored)); ("status", JStr (rq_Status stored))])
    end).

Definition listDevices (p : option Principal) : IO response :=
  with_principal p (λ principal,
    r ← attempt (ListDevices (TenantID principal) 0);
    mret match r with
         | Err _ => writeDeviceError StatusInternalServerError "device query failed"
         | Ok l => mkResponse StatusOK [("devices", JArr (device_json <$> l))]
         end).

Definition getDevice (p : option Principal) (id : string) : IO response :=
  with_principal p (λ principal,
    r ← attempt (GetDevice uuid_input (TenantID principal) id);
    mret match r with
         | Err ErrDeviceNotFound => writeDeviceError StatusNotFound "device not found"
         | Err _ => writeDeviceError StatusInternalServerError "device query failed"
         | Ok v => mkResponse StatusOK [("device", device_json v)]
         end).

Definition setDeviceStatus (now : Z) (p : option Principal) (id : string) (body : option string) : IO response :=
  with_principal p (λ principal, with_body body (λ status,
    r ← attempt (SetDeviceStatus uuid_input now (TenantID principal) id (ToUpper (TrimSpace status)) (Subject principal));
    match r with
    | Err ErrDeviceNotFound => mret (writeDeviceError StatusNotFound "device not found")
    | Err _ => mret (writeDeviceError StatusConflict "device status transition rejected: ")
    | Ok v =>
        _ ← audit (mkAudit (TenantID principal) (dev_ID v) "STATUS_CHANGED" (Subject principal) ""
                     [("status", dev_Status v)]);
        mret (mkResponse StatusOK [("device", device_json v)])
    end)).

Definition requestRotation (now : Z) (newID : string) (p : option Principal) (id : string) (body : option string) : IO response :=
  with_principal p (λ principal, with_body body (λ publicKey,
    visible ← attempt (GetDevice uuid_input (TenantID principal) id);
    match visible with
    | Err ErrDeviceNotFound => mret (writeDeviceError StatusNotFound "device not found")
    | Err _ => mret (writeDeviceError StatusInternalServerError "device query failed")
    | Ok _ =>
        r ← attempt (CreateRotationRequest now newID (TenantID principal) id publicKey (Subject principal));
        match r with
        | Err _ => mret (writeDeviceError StatusBadRequest "rotation request rejected: ")
        | Ok requestID =>
            _ ← audit (mkAudit (TenantID principal) id "ROTATION_REQUESTED" (Subject principal) ""
                         [("requestId", requestID)]);
            _ ← modify (count "geo_device_rotations_total" "requested");
            mret (mkResponse StatusAccepted [("requestId", JStr requestID); ("status", JStr RequestPending)])
        end
    end)).

Definition approveRotation (now : Z) (newID : string) (raw : option (list Z)) (p : option Principal) (id requestId : string) :
  IO response :=
  with_principal p (λ principal,
    found ← attempt (GetRequest uuid_input (TenantID principal) requestId);
    match found with
    | Err ErrRequestNotFound => mret (writeDeviceError StatusNotFound "rotation request not found")
    | Err _ => mret (writeDeviceError StatusInternalServerError "rotation request query failed")
    | Ok stored =>
        if negb match rq_Payload stored with RotatePayload device _ => String.eqb device id | _ => false end
        then mret (writeDeviceError StatusConflict "request is not a rotation for this device")
        else
          r ← attempt (ApproveRequest uuid_input now newID raw (TenantID principal) (rq_ID stored) (Subject principal)
                         (Grace api));
          match r with
          | Err ErrMakerChecker => mret (writeDeviceError StatusConflict "maker may not decide their own request (four-eyes)")
          | Err ErrRequestNotPending => mret (writeDeviceError StatusConflict "provisioning request is not pending")
          | Err _ => mret (writeDeviceError StatusInternalServerError "rotation approval failed")
          | Ok approval =>
              _ ← audit (mkAudit (TenantID principal) id "ROTATION_APPLIED" (Subject principal) ""
                           [("requestId", rq_ID stored); ("keyEpoch", show_Z (ap_KeyEpoch approval))]);
              _ ← modify (count "geo_device_rotations_total" "applied");
              mret (mkResponse StatusOK [("deviceId", JStr (ap_DeviceID approval)); ("keyEpoch", JNum (ap_KeyEpoch approval));
                                         ("status", JStr "rotated")])
          end
    end).

(** The identifiers and the instant of the release are those the server gives. *)
Definition createFirmwareRelease (now : Z) (newID : string) (p : option Principal) (body : option Release) : IO response :=
  with_principal p (λ principal, with_body body (λ release,
    r ← attempt (CreateFirmwareRelease now newID (TenantID principal) release);
    mret match r with
         | Err _ => writeDeviceError StatusBadRequest "firmware release rejected: "
         | Ok id => mkResponse StatusCreated [("releaseId", JStr id)]
         end)).

(** ** Telemetry *)

(** The body is dropped when it is not one JSON text, which the envelope decoder,
    reading a first value, does not ask for. *)
Definition deadLetter (deviceID reason body : string) : IO unit :=
  if negb (text_Valid body) then mret tt
  else
    r ← attempt (external PublishFailed (λ s, (add_dead_letter (mkDeadLetter deviceID reason body) s, tt)));
    match r with
    | Err _ => modify (count "geo_device_dead_letter_errors_total" "")
    | Ok _ =>
        _ ← modify (count "geo_device_telemetry_total" reason);
        audit (mkAudit "" deviceID "TELEMETRY_DEAD_LETTER" ("device:" +:+ deviceID) reason [])
    end.

Definition dead_lettered (deviceID body : string) : IO response :=
  _ ← deadLetter deviceID ReasonPayloadUnsupported body;
  mret (mkResponse StatusAccepted [("status", JStr "dead-lettered"); ("reason", JStr ReasonPayloadUnsupported)]).

Definition forwardTelemetry (e : DeviceEnvelope) (verified : VerifiedDevice) (eventType : string) (content : payload)
  (classification : string) : IO response :=
  let correlationID := dv_DeviceID e +:+ ":" +:+ eventType +:+ ":" +:+ format_rfc3339nano (dv_OccurredAt e) in
  let f := mkForwarded eventType correlationID content (dv_OccurredAt e) classification (dev_ID (vd_Device verified))
             (dev_Kind (vd_Device verified)) (dv_KeyEpoch e) in
  r ← attempt (external PublishFailed (λ s, (add_published f s, tt)));
  match r with
  | Err _ => mret (writeDeviceError StatusBadGateway "event pipeline publication failed")
  | Ok _ =>
      _ ← modify (count "geo_device_telemetry_total" eventType);
      mret (mkResponse StatusAccepted [("status", JStr "published"); ("eventType", JStr eventType)])
  end.

Definition mmsiLike (value : string) : bool := digits_exactly 9 value.
Definition validClassification (value : string) : bool :=
  match ParseClassification value with Ok _ => true | Err _ => false end.

Definition ingestTelemetry (now : Z) (deviceID body : string) : IO response :=
  outcome ← VerifyTelemetry uuid_input (VerifierGrace api) now deviceID body;
  match outcome with
  | Err (Unavailable _) => mret (writeDeviceError StatusInternalServerError "device authentication unavailable")
  | Err (Rejected e) =>
      let reason := ae_Reason e in
      let status := if String.eqb reason ReasonEnvelopeMalformed then StatusBadRequest else StatusForbidden in
      _ ← (if negb (String.eqb reason ReasonEnvelopeMalformed) && negb (String.eqb reason ReasonDeviceUnknown)
              && negb (String.eqb reason ReasonDeviceIDMismatch)
           then deadLetter deviceID reason body else mret tt);
      mret (writeDeviceError status ("device authentication failed: " +:+ reason))
  | Ok (envelope, verified) =>
      if String.eqb (dv_PayloadType envelope) EventVesselPosition then
        match decode_position (dv_Payload envelope) with
        | Some report =>
            if mmsiLike (vp_MMSI report) && validClassification (vp_Classification report)
            then forwardTelemetry envelope verified EventVesselPosition (PVesselPosition report) (vp_Classification report)
            else dead_lettered deviceID body
        | None => dead_lettered deviceID body
        end
      else if String.eqb (dv_PayloadType envelope) EventVesselStatic then
        match decode_static (dv_Payload envelope) with
        | Some report =>
            if mmsiLike (vs_MMSI report) && validClassification (vs_Classification report)
            then forwardTelemetry envelope verified EventVesselStatic (PVesselStatic report) (vs_Classification report)
            else dead_lettered deviceID body
        | None => dead_lettered deviceID body
        end
      else dead_lettered deviceID body
  end.

(** ** Firmware, broker authentication, activation *)

Definition deviceAuthorization (value : string) : option string := authorization "Device" value.

Definition serveFirmware (now : Z) (deviceID authorization_ : string) : IO response :=
  match deviceAuthorization authorization_ with
  | None => mret (writeDeviceError StatusUnauthorized "Device authorization proof is required")
  | Some proof =>
      outcome ← VerifyProof uuid_input (VerifierGrace api) now proof ProofActionFirmware;
      match outcome with
      | Err _ => mret (writeDeviceError StatusForbidden "device authentication failed")
      | Ok verified =>
          let device := vd_Device verified in
          if negb (String.eqb (dev_ID device) deviceID) then
            mret (writeDeviceError StatusForbidden "proof device does not match the path device")
          else
            listed ← attempt (ListReleasesForKind (dev_TenantID device) (dev_Kind device));
            match listed with
            | Err _ => mret (writeDeviceError StatusInternalServerError "firmware release query failed")
            | Ok releases =>
                match SelectRelease releases device with
                | None => mret (mkResponse StatusNoContent [])
                | Some release =>
                    let m := mkManifest (dev_ID device) (rel_Kind release) (rel_Version release) (rel_ArtifactSHA256 release)
                               (rel_ArtifactURL release) (rel_RolloutPercent release) (rel_MinEpoch release) now "" in
                    match SignManifest m (SignPayload (ManifestKey api)) (ManifestKeyID api) with
                    | Err _ => mret (writeDeviceError StatusInternalServerError "manifest signing failed")
                    | Ok manifest =>
                        _ ← audit (mkAudit (dev_TenantID device) deviceID "FIRMWARE_SERVED" ("device:" +:+ deviceID) ""
                                     [("version", rel_Version release)]);
                        _ ← modify (count "geo_device_firmware_served_total" (rel_Kind release));
                        mret (mkResponse StatusOK match manifest_json manifest with JObj fs => fs | _ => [] end)
                    end
                end
            end
      end
  end.

Definition mqtt_reply (result_ : string) : IO response :=
  _ ← modify (count "geo_device_mqtt_auth_total" result_);
  mret (mkResponse StatusOK [("result", JStr result_); ("is_superuser", JBool false)]).
(** The client identifier and the password of the webhook. *)
Definition serveMQTTAuth (now : Z) (body : option (string * string)) : IO response :=
  with_body body (λ '(clientID, password),
    if blank clientID then mqtt_reply "deny"
    else
      let password := TrimSpace password in
      let password := TrimSpace (default password (strip_prefix "Device " password)) in
      outcome ← VerifyProof uuid_input (VerifierGrace api) now password ProofActionMQTTAuth;
      match outcome with
      | Ok verified => if String.eqb (dev_ID (vd_Device verified)) clientID then mqtt_reply "allow" else mqtt_reply "deny"
      | Err _ => mqtt_reply "deny"
      end).

Definition activate (body : option (string * string)) : IO response :=
  with_body body (λ '(requestID, secret),
    r ← attempt (ConsumeActivation uuid_input requestID secret);
    match r with
    | Err ErrActivationFailed =>
        _ ← modify (count "geo_device_provisioning_total" "consume_failed");
        mret (writeDeviceError StatusConflict "activation failed: secret mismatch or request already consumed")
    | Err _ => mret (writeDeviceError StatusInternalServerError "activation unavailable")
    | Ok deviceID =>
        _ ← audit (mkAudit "" deviceID "PROVISIONING_CONSUMED" ("device:" +:+ deviceID) "" [("requestId", requestID)]);
        _ ← modify (count "geo_device_provisioning_total" "consumed");
        mret (mkResponse StatusOK [("status", JStr RequestConsumed); ("deviceId", JStr deviceID)])
    end).
End api.
