(* ===== verification/DeviceSpec.v ===== *)
(** * Abstract specification of the device registry, and refinement

    One constructor per committed effect on the registry, with its guards as
    propositions; [device_refines] shows that a store method, whatever faults it
    meets, leaves the registry alone or makes its step, and makes it when it returns
    no error. *)
From S2P Require Import Prelude GoParse Dedup Sha256 Base64 Sign Effects Devices DeviceStore.

(** ** Runs of the building blocks *)

Section blocks.
Implicit Types (w : env device_store).

Lemma dev_select_Ok {A} (f : device_db → A) w w' a :
  select f w = (w', Ok a) → e_state w' = e_state w ∧ a = f (registry (e_state w)).
Proof. unfold select. intros H%external_Ok. by simplify_eq/=. Qed.
Lemma dev_exec_Ok f w w' u :
  exec f w = (w', Ok u) → e_state w' = set_registry (f (registry (e_state w))) (e_state w).
Proof. unfold exec. intros H%external_Ok. by simplify_eq/=. Qed.
Lemma dev_exec_if_Ok allowed f w w' u :
  exec_if allowed f w = (w', Ok u) →
  allowed (registry (e_state w)) = true ∧ e_state w' = set_registry (f (registry (e_state w))) (e_state w).
Proof.
  unfold exec_if. intros (w1 & b & Hb & Hr)%M_bind_Ok. unfold gets in Hb. simplify_eq.
  unfold compose in *. destruct (allowed _); [|done]. split; [done|]. by eapply dev_exec_Ok.
Qed.
Lemma row_Ok {A} (o : option A) e w w' a : row o e w = (w', Ok a) → o = Some a ∧ w' = w.
Proof. destruct o; [|done]. unfold row, mret, M_ret. naive_solver. Qed.
Lemma uuid_param_Ok uuid_input id w w' u : uuid_param uuid_input id w = (w', Ok u) → uuid_input id = true ∧ w' = w.
Proof. unfold uuid_param. destruct (uuid_input id); [|done]. unfold mret, M_ret. naive_solver. Qed.
End blocks.

Ltac dev_step_inv :=
  match goal with
  | H : (_ ≫= _) _ = (_, Ok _) |- _ =>
      let w := fresh "w" in let a := fresh "a" in apply M_bind_Ok in H as (w & a & ? & ?)
  | H : select _ _ = (_, Ok _) |- _ => apply dev_select_Ok in H as [? ?]
  | H : exec _ _ = (_, Ok _) |- _ => apply dev_exec_Ok in H
  | H : exec_if _ _ _ = (_, Ok _) |- _ => apply dev_exec_if_Ok in H as [? ?]
  | H : decide_request _ _ _ _ _ _ _ = (_, Ok _) |- _ => apply dev_exec_if_Ok in H as [? ?]
  | H : insert_key _ _ _ _ _ = (_, Ok _) |- _ => apply dev_exec_if_Ok in H as [? ?]
  | H : row _ _ _ = (_, Ok _) |- _ => apply row_Ok in H as [? ->]
  | H : uuid_param _ _ _ = (_, Ok _) |- _ => apply uuid_param_Ok in H as [? ->]
  | H : mret _ _ = (_, Ok _) |- _ => unfold mret, M_ret in H; injection H as ? ?; subst
  | H : fail _ _ = (_, Ok _) |- _ => discriminate H
  | H : e_state ?w = _ |- _ => rewrite H in *; clear H w
  | H : String.eqb _ _ = true |- _ => apply String.eqb_eq in H
  | H : String.eqb _ _ = false |- _ => apply String.eqb_neq in H
  | H : negb _ = true |- _ => apply negb_true_iff in H
  | H : negb _ = false |- _ => apply negb_false_iff in H
  | H : bool_decide _ = false |- _ => apply bool_decide_eq_false in H
  | H : bool_decide _ = true |- _ => apply bool_decide_eq_true in H
  | H : (_ && _)%bool = true |- _ => apply andb_true_iff in H as [? ?]
  | H : (if ?b then _ else _) _ = (_, Ok _) |- _ => destruct b eqn:?
  end.
Ltac dev_inv := repeat (dev_step_inv; simpl in * ); subst.

(** ** Operations and their steps *)

Inductive device_op :=
| OpProvision (newID tenant kind agency label publicKey : string) (metadata : gmap string string) (maker : string)
| OpRotation (newID tenant deviceID publicKey maker : string)
| OpApprove (newID : string) (raw : option (list Z)) (tenant requestID checker : string) (grace : Z)
| OpReject (tenant requestID checker : string)
| OpStatus (tenant deviceID target actor : string)
| OpRelease (newID tenant : string) (release : Release)
| OpConsume (requestID secret : string).

Section spec.
Context (uuid_input : string → bool).

(** A request waits for its checker: visible to the tenant, pending, of another maker. *)
Definition waits (d : device_db) (tenant requestID checker : string) (r : Request) : Prop :=
  provisioning_requests d !! requestID = Some r ∧ rq_TenantID r = tenant ∧ rq_Status r = RequestPending ∧
  rq_RequestedBy r ≠ checker.

Definition asked (now : Z) (newID tenant : string) (payload : request_payload) (maker : string) (d : device_db) : device_db :=
  on_requests (insert newID (mkRequest newID tenant payload maker RequestPending None None None None (pg_time now))) d.
(** The rotation of a device that is at [epoch]. *)
Definition rotated (now grace : Z) (deviceID : string) (epoch : Z) (key : list Z) (d : device_db) : device_db :=
  on_devices (alter (set_epoch (epoch + 1) now) deviceID)
    (on_keys (insert (deviceID, epoch + 1) (mkKey deviceID (epoch + 1) key KeyCurrent (pg_time now)))
       (update_keys deviceID (has_status KeyCurrent) (demote now)
          (update_keys deviceID (λ k, has_status KeyPrevious k && (key_RotatedAt k <? pg_time now - grace))
             (set_key_status KeyRevoked) d))).
Definition decided (status checker : string) (now : Z) (hash : option (list Z)) (device : option string)
  (requestID : string) (d : device_db) : device_db :=
  on_requests (alter (λ r, set_request_decided status checker now
                             (match hash with Some _ => hash | None => rq_SecretHash r end)
                             (match device with Some _ => device | None => rq_DeviceID r end) r) requestID) d.

Inductive device_step (now : Z) : device_op → device_db → device_db → Prop :=
| step_provision_request newID tenant kind agency label publicKey metadata maker key d :
    kind ∈ device_kinds → decodePublicKey publicKey = Some key → blank maker = false →
    provisioning_requests d !! newID = None →
    device_step now (OpProvision newID tenant kind agency label publicKey metadata maker) d
      (asked now newID tenant (ProvisionPayload kind agency label publicKey metadata) maker d)
| step_rotation_request newID tenant deviceID publicKey maker key d :
    decodePublicKey publicKey = Some key → blank maker = false → provisioning_requests d !! newID = None →
    device_step now (OpRotation newID tenant deviceID publicKey maker) d
      (asked now newID tenant (RotatePayload deviceID (TrimSpace publicKey)) maker d)
| step_provision newID raw tenant requestID checker grace r kind agency label publicKey metadata key d :
    waits d tenant requestID checker r → rq_Payload r = ProvisionPayload kind agency label publicKey metadata →
    decodePublicKey publicKey = Some key → devices d !! newID = None → key_admitted newID 1 d = true →
    device_step now (OpApprove newID (Some raw) tenant requestID checker grace) d
      (decided RequestApproved checker now (Some (sha256 raw)) (Some newID) requestID
         (on_keys (insert (newID, 1) (mkKey newID 1 key KeyCurrent (pg_time now)))
            (on_devices (insert newID (mkDevice newID tenant kind agency label StatusActive 1 metadata (rq_RequestedBy r)
                                         (pg_time now) (pg_time now))) d)))
| step_rotate newID raw tenant requestID checker grace r deviceID publicKey key v d :
    waits d tenant requestID checker r → rq_Payload r = RotatePayload deviceID publicKey →
    decodePublicKey publicKey = Some key → devices d !! deviceID = Some v → dev_TenantID v = tenant →
    dev_Status v = StatusActive → device_keys d !! (deviceID, dev_KeyEpoch v + 1) = None →
    device_step now (OpApprove newID raw tenant requestID checker grace) d
      (decided RequestApproved checker now None (Some deviceID) requestID
         (rotated now (if grace <=? 0 then DefaultKeyGrace else grace) deviceID (dev_KeyEpoch v) key d))
| step_reject tenant requestID checker r d :
    waits d tenant requestID checker r →
    device_step now (OpReject tenant requestID checker) d
      (decided RequestRejected checker now None None requestID d)
| step_status tenant deviceID target actor v d :
    devices d !! deviceID = Some v → dev_TenantID v = tenant →
    ValidateStatusTransition (dev_Status v) target = Ok tt →
    device_step now (OpStatus tenant deviceID target actor) d
      ((if terminal target
        then update_keys deviceID (λ k, negb (has_status KeyRevoked k)) (set_key_status KeyRevoked) else id)
         (on_devices (alter (set_device_status target now) deviceID) d))
| step_release newID tenant release r d :
    r = mkRelease newID tenant (rel_Kind release) (rel_Version release) (rel_ArtifactSHA256 release)
          (rel_ArtifactURL release) (rel_RolloutPercent release)
          (if rel_MinEpoch release <? 1 then 1 else rel_MinEpoch release) (pg_time now) →
    rel_Kind release ∈ device_kinds → 0 ≤ rel_RolloutPercent release ≤ 100 → firmware_releases d !! newID = None →
    device_step now (OpRelease newID tenant release) d (on_releases (insert newID r) d)
| step_consume requestID secret raw r d :
    DecodeString RawURLEncoding (TrimSpace secret) = Some raw → length raw = 32%nat →
    provisioning_requests d !! requestID = Some r → rq_Status r = RequestApproved →
    rq_SecretHash r = Some (sha256 raw) →
    device_step now (OpConsume requestID secret) d (on_requests (alter (set_request_status RequestConsumed) requestID) d).

Definition run_device_op (now : Z) (op : device_op) : IO unit :=
  match op with
  | OpProvision newID tenant kind agency label publicKey metadata maker =>
      CreateProvisionRequest now newID tenant kind agency label publicKey metadata maker ≫= λ _, mret tt
  | OpRotation newID tenant deviceID publicKey maker =>
      CreateRotationRequest now newID tenant deviceID publicKey maker ≫= λ _, mret tt
  | OpApprove newID raw tenant requestID checker grace =>
      ApproveRequest uuid_input now newID raw tenant requestID checker grace ≫= λ _, mret tt
  | OpReject tenant requestID checker => RejectRequest uuid_input now tenant requestID checker ≫= λ _, mret tt
  | OpStatus tenant deviceID target actor =>
      SetDeviceStatus uuid_input now tenant deviceID target actor ≫= λ _, mret tt
  | OpRelease newID tenant release => CreateFirmwareRelease now newID tenant release ≫= λ _, mret tt
  | OpConsume requestID secret => ConsumeActivation uuid_input requestID secret ≫= λ _, mret tt
  end.

Abbreviation refines step m := (refines_on registry step m).

Lemma insertRequest_refines now newID tenant payload maker op :
  (∀ d, provisioning_requests d !! newID = None → device_step now op d (asked now newID tenant payload maker d)) →
  refines (device_step now op) (insertRequest now newID tenant payload maker).
Proof.
  intros Hs. apply tenant_transaction_refines; [done|]. intros w w' a Hb. dev_inv. by apply Hs.
Qed.

Lemma provision_request_refines now newID tenant kind agency label publicKey metadata maker :
  refines (device_step now (OpProvision newID tenant kind agency label publicKey metadata maker))
    (CreateProvisionRequest now newID tenant kind agency label publicKey metadata maker).
Proof.
  unfold CreateProvisionRequest, ValidKind. case_bool_decide as Hk; [|apply refines_fail]. cbn [negb].
  destruct (decodePublicKey publicKey) as [key|] eqn:Ek; [|apply refines_fail].
  destruct (validateLabel agency 256), (validateLabel label 256); try apply refines_fail.
  destruct (blank maker) eqn:Em; [apply refines_fail|]. apply insertRequest_refines. intros d Hd. by econstructor.
Qed.
Lemma rotation_request_refines now newID tenant deviceID publicKey maker :
  refines (device_step now (OpRotation newID tenant deviceID publicKey maker))
    (CreateRotationRequest now newID tenant deviceID publicKey maker).
Proof.
  unfold CreateRotationRequest. destruct (blank deviceID); [apply refines_fail|].
  destruct (decodePublicKey publicKey) as [key|] eqn:Ek; [|apply refines_fail].
  destruct (blank maker) eqn:Em; [apply refines_fail|]. apply insertRequest_refines. intros d Hd. by econstructor.
Qed.

Lemma find_request_Some tenant d id r :
  find_request tenant d id = Some r ↔ provisioning_requests d !! id = Some r ∧ rq_TenantID r = tenant.
Proof.
  unfold find_request. destruct (provisioning_requests d !! id) as [r'|]; cbn [mbind option_bind]; [|naive_solver].
  case_match; bool_to_prop; naive_solver.
Qed.
Lemma find_device_Some tenant d id v :
  find_device tenant d id = Some v ↔ devices d !! id = Some v ∧ dev_TenantID v = tenant.
Proof.
  unfold find_device. destruct (devices d !! id) as [v'|]; cbn [mbind option_bind]; [|naive_solver].
  case_match; bool_to_prop; naive_solver.
Qed.

Lemma ApproveRequest_refines now newID raw tenant requestID checker grace :
  refines (device_step now (OpApprove newID raw tenant requestID checker grace))
    (ApproveRequest uuid_input now newID raw tenant requestID checker grace).
Proof.
  unfold ApproveRequest. destruct (blank checker); [apply refines_fail|].
  apply tenant_transaction_refines; [done|]. intros w w' a Hb. dev_inv.
  match goal with H : find_request _ _ _ = Some _ |- _ => apply find_request_Some in H as [Hr Ht] end.
  match goal with H : rq_RequestedBy ?r ≠ checker |- _ => rename r into request end.
  destruct (rq_Payload request) as [kind agency label publicKey metadata|deviceID publicKey|t] eqn:Hp; [| |by dev_inv].
  - unfold approve_provision in *. destruct (decodePublicKey publicKey) as [key|] eqn:Hk; [|by dev_inv]. dev_inv.
    destruct raw as [raw|]; [|by dev_inv]. unfold generateActivationSecret in *. dev_inv. subst.
    by eapply step_provision.
  - unfold approve_rotation in *. destruct (decodePublicKey publicKey) as [key|] eqn:Hk; [|by dev_inv].
    unfold applyRotation in *. dev_inv.
    match goal with H : find_device _ _ _ = Some _ |- _ => apply find_device_Some in H as [Hd Hdt] end. subst.
    eapply step_rotate; eauto; [by repeat split|].
    match goal with H : key_admitted _ _ _ = true |- _ => apply andb_true_iff in H as [Ha%bool_decide_eq_true _] end.
    cbn [update_keys on_keys device_keys] in Ha. by rewrite !lookup_fmap, !fmap_None in Ha.
Qed.

Lemma GetRequest_same tenant id w : registry (e_state (GetRequest uuid_input tenant id w).1) = registry (e_state w).
Proof.
  destruct (tenant_transaction_run registry set_registry TenantRequired StoreFailure tenant
    (_ ← uuid_param uuid_input id; o ← select (λ d, find_request tenant d id); row o ErrRequestNotFound) w ltac:(done))
    as (w1 & w2 & r & H1 & H2 & [H3|(a & -> & H3)] & _); [exact H3|].
  etransitivity; [exact H3|]. rewrite <- H1. dev_inv. congruence.
Qed.

Lemma RejectRequest_refines now tenant requestID checker :
  refines (device_step now (OpReject tenant requestID checker)) (RejectRequest uuid_input now tenant requestID checker).
Proof.
  unfold RejectRequest. destruct (blank checker); [apply refines_fail|].
  apply refines_then; [|intros; apply GetRequest_same].
  apply tenant_transaction_refines; [done|]. intros w w' a Hb. dev_inv.
  match goal with H : find_request _ _ _ = Some _ |- _ => apply find_request_Some in H as [Hr Ht] end.
  eapply step_reject. by repeat split.
Qed.

Lemma SetDeviceStatus_refines now tenant deviceID target actor :
  refines (device_step now (OpStatus tenant deviceID target actor))
    (SetDeviceStatus uuid_input now tenant deviceID target actor).
Proof.
  unfold SetDeviceStatus. destruct (blank actor); [apply refines_fail|].
  apply tenant_transaction_refines; [done|]. intros w w' a Hb. dev_inv.
  match goal with H : find_device _ _ _ = Some ?v |- _ => apply find_device_Some in H as [Hd Hdt]; rename v into device end.
  destruct (ValidateStatusTransition (dev_Status device) target) as [[]|e] eqn:Hv; [|by dev_inv].
  pose proof (step_status now tenant deviceID target actor device _ Hd Hdt Hv) as Hs.
  destruct (terminal target); dev_inv; exact Hs.
Qed.

Lemma CreateFirmwareRelease_refines now newID tenant release :
  refines (device_step now (OpRelease newID tenant release)) (CreateFirmwareRelease now newID tenant release).
Proof.
  unfold CreateFirmwareRelease, ValidKind. case_bool_decide as Hk; [|apply refines_fail]. cbn [negb].
  destruct (validateLabel (rel_Version release) 128), (validateLabel (rel_ArtifactURL release) 2048); try apply refines_fail.
  destruct (negb _ || negb _); [apply refines_fail|].
  destruct ((rel_RolloutPercent release <? 0) || _) eqn:Hr; [apply refines_fail|]. bool_to_prop.
  apply tenant_transaction_refines; [done|]. intros w w' res Hb. dev_inv. eapply step_release; eauto; lia.
Qed.

Lemma ConsumeActivation_refines now requestID secret :
  refines (device_step now (OpConsume requestID secret)) (ConsumeActivation uuid_input requestID secret).
Proof.
  unfold ConsumeActivation. destruct (String.eqb _ _); [apply refines_fail|].
  destruct (DecodeString RawURLEncoding (TrimSpace secret)) as [raw|] eqn:Hd; [|apply refines_fail].
  destruct (Nat.eqb (length raw) 32) eqn:Hl; [|apply refines_fail]. apply Nat.eqb_eq in Hl. cbn [negb].
  intros w. unfold uuid_param. destruct (uuid_input requestID); [|by apply (refines_fail registry)].
  unfold mbind, M_bind, external. cbn [mret M_ret].
  destruct (consume requestID (sha256 raw) (registry (e_state w))) as [d o] eqn:Ec.
  assert ((d = registry (e_state w) ∧ o = None) ∨
          device_step now (OpConsume requestID secret) (registry (e_state w)) d) as Hs.
  { unfold consume in Ec. destruct (provisioning_requests _ !! requestID) as [r|] eqn:Hr; [|simplify_eq; by left].
    destruct (String.eqb _ _ && _) eqn:Hc; simplify_eq; [|by left]. right. dev_inv. by eapply step_consume. }
  destruct Hs as [[-> ->]|Hs], (e_faults w) as [|[] fs]; simpl; try destruct o as [[]|]; simpl; split; eauto; done.
Qed.

Lemma device_op_refines now op : refines (device_step now op) (run_device_op now op).
Proof.
  destruct op; apply refines_then; try done;
    auto using provision_request_refines, rotation_request_refines, ApproveRequest_refines, RejectRequest_refines,
      SetDeviceStatus_refines, CreateFirmwareRelease_refines, ConsumeActivation_refines.
Qed.

(** A run: operations with the clock readings of their transactions. *)
Definition run_device_ops (ops : list (Z * device_op)) (w : env device_store) : env device_store :=
  fold_left (λ w '(now, op), (run_device_op now op w).1) ops w.

(** A property of the registry that every step of the operations [Q] keeps holds
    after every run of them. *)
Lemma run_device_ops_inv_on (Q : device_op → Prop) (P : device_db → Prop) ops w :
  Forall (λ no, Q no.2) ops →
  (∀ now op d d', Q op → device_step now op d d' → P d → P d') →
  P (registry (e_state w)) → P (registry (e_state (run_device_ops ops w))).
Proof.
  intros HQ Hs. revert w. induction HQ as [|[now op] ops Hop _ IH]; intros w Hw; [done|]. apply IH.
  destruct (device_op_refines now op w) as [[->|H] _]; eauto.
Qed.
Lemma run_device_ops_inv (P : device_db → Prop) ops w :
  (∀ now op d d', device_step now op d d' → P d → P d') →
  P (registry (e_state w)) → P (registry (e_state (run_device_ops ops w))).
Proof. intros Hs. apply (run_device_ops_inv_on (λ _, True)); [by apply Forall_true|eauto]. Qed.
(** The same for a transitive relation between the registry before and after. *)
Lemma run_device_ops_rel (R : relation device_db) `{!PreOrder R} ops w :
  (∀ now op d d', device_step now op d d' → R d d') →
  R (registry (e_state w)) (registry (e_state (run_device_ops ops w))).
Proof.
  intros Hs. apply (run_device_ops_inv (R (registry (e_state w)))); [|reflexivity].
  intros now op d d' H1 H2. etransitivity; [exact H2|eauto].
Qed.
End spec.
