(* ===== verification/DeviceProps.v ===== *)
(** * Properties of the device registry

    The well-formedness of the registry over all runs, the finality of revocation,
    and what an authenticated device has shown. *)
From S2P Require Import Prelude GoParse Dedup Sha256 Base64 Classification Sign Jws Effects Devices DeviceStore DeviceVerify DeviceSpec.

(** ** Well-formed registries *)

Definition key_statuses : list string := [KeyCurrent; KeyPrevious; KeyRevoked].

Record key_ok (d : device_db) (id : string) (epoch : Z) (k : Key) : Prop := mkKeyOk {
  ko_device : key_DeviceID k = id;
  ko_epoch : key_Epoch k = epoch;
  ko_status : key_Status k ∈ key_statuses;
  ko_size : length (key_PublicKey k) = 32%nat;
  ko_owner : ∃ v, devices d !! id = Some v ∧ 1 ≤ epoch ≤ dev_KeyEpoch v ∧
               (terminal (dev_Status v) = true → key_Status k = KeyRevoked) ∧
               (key_Status k = KeyCurrent → epoch = dev_KeyEpoch v) }.
(** The request a device comes from: asked by its creator, approved by another person. *)
Definition comes_from (v : Device) (r : Request) : Prop :=
  rq_DeviceID r = Some (dev_ID v) ∧ rq_TenantID r = dev_TenantID v ∧ rq_RequestedBy r = dev_CreatedBy v ∧
  (∃ agency label key metadata, rq_Payload r = ProvisionPayload (dev_Kind v) agency label key metadata) ∧
  (rq_Status r = RequestApproved ∨ rq_Status r = RequestConsumed) ∧ rq_SecretHash r ≠ None.
Record device_ok (d : device_db) (id : string) (v : Device) : Prop := mkDeviceOk {
  do_id : dev_ID v = id;
  do_status : dev_Status v ∈ device_statuses;
  do_kind : dev_Kind v ∈ device_kinds;
  do_current : terminal (dev_Status v) = false →
    ∃ k, device_keys d !! (id, dev_KeyEpoch v) = Some k ∧ key_Status k = KeyCurrent;
  do_epoch : 1 ≤ dev_KeyEpoch v;
  do_request : ∃ rid r, provisioning_requests d !! rid = Some r ∧ comes_from v r }.
Record request_ok (id : string) (r : Request) : Prop := mkRequestOk {
  ro_id : rq_ID r = id;
  ro_payload : match rq_Payload r with
               | ProvisionPayload kind _ _ key _ => kind ∈ device_kinds ∧ decodePublicKey key ≠ None
               | RotatePayload _ _ => rq_SecretHash r = None
               | UnknownPayload _ => False
               end;
  ro_pending : rq_Status r = RequestPending → rq_DecidedBy r = None ∧ rq_DeviceID r = None ∧ rq_SecretHash r = None;
  ro_decided : rq_Status r ≠ RequestPending → ∃ c, rq_DecidedBy r = Some c ∧ c ≠ rq_RequestedBy r;
  ro_consumed : rq_Status r = RequestConsumed → rq_SecretHash r ≠ None }.
Record registry_ok (d : device_db) : Prop := mkRegistryOk {
  keys_ok : ∀ id epoch k, device_keys d !! (id, epoch) = Some k → key_ok d id epoch k;
  devices_ok : ∀ id v, devices d !! id = Some v → device_ok d id v;
  requests_ok : ∀ id r, provisioning_requests d !! id = Some r → request_ok id r }.

Lemma empty_registry_ok : registry_ok empty_device_db.
Proof. split; intros *; unfold empty_device_db; cbn; rewrite lookup_empty; done. Qed.

Lemma decodePublicKey_size s k : decodePublicKey s = Some k → length k = 32%nat.
Proof.
  unfold decodePublicKey. case_match; [done|]. generalize encodings. intros l. induction l as [|e l IH]; [done|].
  cbn [first_32]. destruct (DecodeString e _) as [raw|]; [|done].
  destruct (Nat.eqb (length raw) 32) eqn:E; [|done]. intros [= <-]. by apply Nat.eqb_eq.
Qed.

(** Steps that touch neither devices nor keys and keep the requests devices come from. *)
Lemma registry_ok_requests d rs :
  registry_ok d →
  (∀ id r, rs !! id = Some r → request_ok id r) →
  (∀ id r, provisioning_requests d !! id = Some r → rq_Status r ≠ RequestPending →
     ∃ r', rs !! id = Some r' ∧ ∀ v, comes_from v r → comes_from v r') →
  registry_ok (mkDeviceDB (devices d) (device_keys d) rs (firmware_releases d)).
Proof.
  intros [Hk Hd Hr] Hrs Hkeep. split; cbn.
  - intros id epoch k H. destruct (Hk id epoch k H). by split.
  - intros id v H. destruct (Hd id v H) as [? ? ? ? ? (rid & r & Hrid & Hc)]. split; try done.
    destruct (Hkeep rid r Hrid) as (r' & Hr' & Hc').
    { destruct Hc as (_ & _ & _ & _ & [->| ->] & _); done. }
    eauto.
  - done.
Qed.

Lemma asked_ok now newID tenant payload maker d :
  provisioning_requests d !! newID = None →
  (match payload with
   | ProvisionPayload kind _ _ key _ => kind ∈ device_kinds ∧ decodePublicKey key ≠ None
   | RotatePayload _ _ => True
   | UnknownPayload _ => False
   end) →
  registry_ok d → registry_ok (asked now newID tenant payload maker d).
Proof.
  intros Hnew Hp Hd. apply registry_ok_requests; [done| |].
  - intros id r. rewrite lookup_insert_Some. intros [[<- <-]|[_ Hr]]; [|by eapply requests_ok].
    split; cbn; try done. by destruct payload.
  - intros id r Hr _. exists r. rewrite lookup_insert_ne by naive_solver. done.
Qed.

(** A decision leaves the other requests alone; the decided one was pending. *)
Lemma decided_requests d status checker now hash device requestID r0 :
  registry_ok d → provisioning_requests d !! requestID = Some r0 → rq_Status r0 = RequestPending →
  rq_RequestedBy r0 ≠ checker → status ≠ RequestPending → status ≠ RequestConsumed →
  match rq_Payload r0 with RotatePayload _ _ => hash = None | _ => True end →
  registry_ok (decided status checker now hash device requestID d).
Proof.
  intros Hd Hr0 Hpend Hne Hst Hsc Hhash. apply registry_ok_requests; [done| |].
  - intros id r. rewrite lookup_alter_Some. intros [(<- & r1 & Hr1 & ->)|[_ Hr]]; [|by eapply requests_ok].
    simplify_eq. destruct (requests_ok _ Hd _ _ Hr0) as [? Hpay Hp ? ?]. destruct (Hp Hpend) as (_ & _ & Hh).
    split; cbn; try done.
    + destruct (rq_Payload r0); try done. subst. by rewrite Hh.
    + exists checker. by split.
  - intros id r Hr Hnp. exists r. rewrite lookup_alter_ne; [done|]. intros <-. naive_solver.
Qed.

(** Decisions commute with the changes of devices and keys made before them. *)
Lemma terminal_active : terminal StatusActive = false.
Proof. reflexivity. Qed.

Lemma provisioned_ok now newID raw tenant requestID checker r kind agency label publicKey metadata key d :
  waits d tenant requestID checker r → rq_Payload r = ProvisionPayload kind agency label publicKey metadata →
  decodePublicKey publicKey = Some key → devices d !! newID = None → registry_ok d →
  registry_ok (decided RequestApproved checker now (Some (sha256 raw)) (Some newID) requestID
    (on_keys (insert (newID, 1) (mkKey newID 1 key KeyCurrent (pg_time now)))
       (on_devices (insert newID (mkDevice newID tenant kind agency label StatusActive 1 metadata (rq_RequestedBy r)
                                    (pg_time now) (pg_time now))) d))).
Proof.
  intros (Hr & Ht & Hpend & Hne) Hp Hk Hnew Hd.
  destruct (requests_ok _ Hd _ _ Hr) as [? Hpay _ _ _]. rewrite Hp in Hpay. destruct Hpay as [Hkind _].
  set (dec := decided RequestApproved checker now (Some (sha256 raw)) (Some newID) requestID d).
  assert (registry_ok dec) as [Hk1 Hd1 Hr1] by (eapply decided_requests; eauto; by rewrite Hp).
  split.
  - intros id epoch k. cbn. rewrite lookup_insert_Some. intros [[[= <- <-] <-]|[Hn Hkey]].
    + split; cbn; [done|done|set_solver|by eapply decodePublicKey_size|].
      rewrite lookup_insert_eq. eexists. split; [done|]. cbn. split; [lia|]. done.
    + destruct (Hk1 id epoch k Hkey) as [? ? ? ? (v & Hv & Hrest)]. split; try done. exists v. split; [|done].
      cbn in *. rewrite lookup_insert_ne; [done|]. intros <-. congruence.
  - intros id v. cbn. rewrite lookup_insert_Some. intros [[<- <-]|[Hn Hv]].
    + split; cbn; [done|set_solver|done| |lia|].
      * intros _. rewrite lookup_insert_eq. eauto.
      * eexists requestID, _. split; [rewrite lookup_alter_eq, Hr; cbn; reflexivity|].
        unfold comes_from. cbn. rewrite Hp. split_and!; eauto 10.
    + destruct (Hd1 id v Hv) as [? ? ? Hcur ? Hreq]. split; try done. intros Hterm. cbn.
      rewrite lookup_insert_ne by congruence. eauto.
  - exact Hr1.
Qed.

Definition same_key (k k' : Key) : Prop :=
  key_DeviceID k' = key_DeviceID k ∧ key_Epoch k' = key_Epoch k ∧ key_PublicKey k' = key_PublicKey k.
(** What a rotation does to a key: those of other devices stay, the epochs of the
    device are no longer current, a revoked one stays revoked. *)
Lemma rotated_key now grace deviceID epoch key d x k' :
  device_keys (rotated now grace deviceID epoch key d) !! x = Some k' →
  x ≠ (deviceID, epoch + 1) →
  ∃ k, device_keys d !! x = Some k ∧ same_key k k' ∧
    (key_DeviceID k ≠ deviceID → k' = k) ∧
    (key_DeviceID k = deviceID → key_Status k ∈ key_statuses → key_Status k' = KeyPrevious ∨ key_Status k' = KeyRevoked) ∧
    (key_Status k = KeyRevoked → key_Status k' = KeyRevoked).
Proof.
  intros H Hne. cbn in H. rewrite lookup_insert_ne in H by congruence.
  rewrite !lookup_fmap in H. destruct (device_keys d !! x) as [k|]; [|done]. injection H as <-.
  exists k. split; [done|]. unfold same_key, has_status.
  destruct (String.eqb (key_DeviceID k) deviceID) eqn:Eid; bool_to_prop; cbn [andb].
  - destruct (String.eqb (key_Status k) KeyPrevious) eqn:Ep; cbn [andb].
    + bool_to_prop. destruct (key_RotatedAt k <? _); cbn; rewrite Eid, String.eqb_refl; cbn; rewrite ?Ep;
        cbn; split_and!; auto; congruence.
    + rewrite Eid, String.eqb_refl. cbn [andb]. destruct (String.eqb (key_Status k) KeyCurrent) eqn:Ec; bool_to_prop; cbn.
      * split_and!; auto; intros Er; [congruence|by rewrite Ec in Er].
      * split_and!; auto; try congruence. unfold key_statuses. set_solver.
  - assert (String.eqb (key_DeviceID k) deviceID = false) as Hf by (by apply String.eqb_neq). rewrite Hf. cbn [andb].
    split_and!; auto; congruence.
Qed.

Lemma rotated_ok now grace deviceID key v d :
  devices d !! deviceID = Some v → dev_Status v = StatusActive → length key = 32%nat →
  registry_ok d → registry_ok (rotated now grace deviceID (dev_KeyEpoch v) key d).
Proof.
  intros Hv Hact Hlen [Hk Hd Hr]. destruct (Hd _ _ Hv) as [Hvid Hvs Hvk Hcur Hep Hreq]. split.
  - intros id epoch k' Hk'. destruct (decide ((id, epoch) = (deviceID, dev_KeyEpoch v + 1))) as [[= -> ->]|Hne].
    + cbn in Hk'. rewrite lookup_insert_eq in Hk'. injection Hk' as <-. split; cbn; [done|done|set_solver|done|].
      rewrite lookup_alter_eq, Hv. eexists. split; [done|]. cbn. rewrite Hact. split_and!; [lia|lia|done|done].
    + destruct (rotated_key _ _ _ _ _ _ _ _ Hk' Hne) as (k & Hkd & (E1 & E2 & E3) & Hoth & Hown & _).
      destruct (Hk _ _ _ Hkd) as [F1 F2 F3 F4 (v' & Hv' & Hle & Ht & Hc)].
      destruct (decide (id = deviceID)) as [->|Hid].
      * simplify_eq. specialize (Hown F1 F3).
        split; [congruence|congruence| |congruence|]; [unfold key_statuses; destruct Hown as [->| ->]; set_solver|].
        cbn. rewrite lookup_alter_eq, Hv. eexists. split; [done|]. cbn. rewrite Hact.
        split_and!; [lia|lia|done|]. destruct Hown as [->| ->]; done.
      * assert (k' = k) as -> by (apply Hoth; congruence). split; try done. exists v'. cbn.
        by rewrite lookup_alter_ne by congruence.
  - intros id v'. cbn. rewrite lookup_alter_Some. intros [(<- & v0 & Hv0 & ->)|[Hid Hv']].
    + simplify_eq. split; cbn; [done|done|done| |lia|].
      * intros _. rewrite lookup_insert_eq. eauto.
      * destruct Hreq as (rid & r & Hrid & Hc). exists rid, r. split; [done|exact Hc].
    + destruct (Hd _ _ Hv') as [? ? ? Hcur' ? ?]. split; try done. intros Hterm.
      destruct (Hcur' Hterm) as (k & Hkk & Hks). exists k. split; [|done]. cbn.
      rewrite lookup_insert_ne by congruence. rewrite !lookup_fmap, Hkk. cbn.
      assert (String.eqb (key_DeviceID k) deviceID = false) as Hf.
      { apply String.eqb_neq. destruct (Hk _ _ _ Hkk). congruence. }
      rewrite Hf. cbn [andb]. by rewrite ?Hf.
  - exact Hr.
Qed.

Lemma ValidateStatusTransition_Ok from to :
  ValidateStatusTransition from to = Ok tt → from ∈ device_statuses ∧ to ∈ device_statuses ∧ terminal from = false.
Proof.
  unfold ValidateStatusTransition, ValidStatus. intros E. branches E. bool_to_prop.
  by repeat match goal with H : bool_decide _ = true |- _ => apply bool_decide_eq_true in H end.
Qed.

(** The registry after a change of status. *)
Definition restated (now : Z) (deviceID target : string) (d : device_db) : device_db :=
  (if terminal target
   then update_keys deviceID (λ k, negb (has_status KeyRevoked k)) (set_key_status KeyRevoked) else id)
    (on_devices (alter (set_device_status target now) deviceID) d).
Lemma restated_key now deviceID target d x k' :
  (∀ k, device_keys d !! x = Some k → key_DeviceID k = x.1) →
  device_keys (restated now deviceID target d) !! x = Some k' →
  ∃ k, device_keys d !! x = Some k ∧ same_key k k' ∧ (x.1 ≠ deviceID ∨ terminal target = false → k' = k) ∧
    (x.1 = deviceID → terminal target = true → key_Status k' = KeyRevoked).
Proof.
  intros Hid. unfold restated. destruct (terminal target); cbn; [|intros Hk; exists k'; by repeat split].
  rewrite lookup_fmap_Some. intros (k & <- & Hk). specialize (Hid k Hk). exists k. split; [done|].
  destruct (String.eqb (key_DeviceID k) deviceID) eqn:Eid; bool_to_prop; cbn [andb];
    [|split_and!; [by repeat split|done|congruence]].
  unfold has_status. destruct (String.eqb (key_Status k) KeyRevoked) eqn:Es; bool_to_prop; cbn [negb];
    (split_and!; [by repeat split|intros [?|?]; congruence|done]).
Qed.
Lemma restated_device now deviceID target d id v' :
  devices (restated now deviceID target d) !! id = Some v' →
  ∃ v, devices d !! id = Some v ∧ v' = if decide (id = deviceID) then set_device_status target now v else v.
Proof.
  assert (devices (restated now deviceID target d) = alter (set_device_status target now) deviceID (devices d)) as ->
    by (unfold restated; by destruct (terminal target)).
  rewrite lookup_alter_Some. intros [(<- & v0 & Hv0 & ->)|[Hid Hv0]];
    [exists v0; by rewrite decide_True|exists v'; by rewrite decide_False].
Qed.

Lemma status_ok now deviceID target v d :
  devices d !! deviceID = Some v → ValidateStatusTransition (dev_Status v) target = Ok tt → registry_ok d →
  registry_ok (restated now deviceID target d).
Proof.
  intros Hv (_ & Hto & Hnt)%ValidateStatusTransition_Ok [Hk Hd Hr].
  assert (provisioning_requests (restated now deviceID target d) = provisioning_requests d) as Ereq
    by (unfold restated; by destruct (terminal target)).
  assert (devices (restated now deviceID target d) = alter (set_device_status target now) deviceID (devices d)) as Edev
    by (unfold restated; by destruct (terminal target)).
  split.
  - intros id epoch k' Hk'. destruct (restated_key _ _ _ _ _ _ (λ k H, ko_device _ _ _ _ (Hk _ _ k H)) Hk')
      as (k & Hkk & (E1 & E2 & E3) & Hsame & Hrev).
    destruct (Hk _ _ _ Hkk) as [F1 F2 F3 F4 (v0 & Hv0 & Hle & Ht & Hc)]. cbn in *.
    split; [congruence|congruence| |congruence|].
    + destruct (decide (id = deviceID)), (terminal target); rewrite ?Hsame by auto; auto.
      rewrite Hrev by done. set_solver.
    + rewrite Edev. destruct (decide (id = deviceID)) as [->|Hne].
      * rewrite lookup_alter_eq, Hv0. eexists. split; [done|]. cbn. simplify_eq. split; [done|].
        destruct (terminal target); [rewrite Hrev by done; done|rewrite Hsame by auto]. naive_solver.
      * rewrite lookup_alter_ne, Hsame by auto. eauto.
  - intros id v' (v0 & Hv0 & ->)%restated_device. destruct (Hd _ _ Hv0) as [G1 G2 G3 Gcur G5 (rid & r & Hrid & Hc)].
    split; [by case_decide|by case_decide|by case_decide| |by case_decide|].
    + intros Hterm. destruct (decide (id = deviceID)) as [->|Hne].
      * simplify_eq. destruct (Gcur Hnt) as (k & Hkk & Hks). exists k. split; [|done]. cbn in *.
        unfold restated. by rewrite Hterm.
      * destruct (Gcur Hterm) as (k & Hkk & Hks). exists k. split; [|done]. unfold restated.
        destruct (terminal target); [|done]. cbn. rewrite lookup_fmap, Hkk. cbn.
        assert (String.eqb (key_DeviceID k) deviceID = false) as ->; [|done].
        apply String.eqb_neq. destruct (Hk _ _ _ Hkk). congruence.
    + rewrite Ereq. exists rid, r. split; [done|]. by case_decide.
  - by rewrite Ereq.
Qed.

Lemma registry_ok_step now op d d' : device_step now op d d' → registry_ok d → registry_ok d'.
Proof.
  intros Hs Hd. destruct Hs as [ | |? ? ? ? ? ? ? ? ? ? ? ? ? d Hw Hp Hk Hn ? |? ? ? ? ? ? ? ? ? ? ? d Hw Hp Hk Hv ? Ha ?
    |? ? ? r d (Hr & _ & Hpend & Hne)|? ? ? ? ? d Hv ? Ht| |? ? ? r d ? ? Hr Hst Hh].
  - apply asked_ok; [done| |done]. split; [done|congruence].
  - by apply asked_ok.
  - by eapply provisioned_ok.
  - destruct Hw as (Hr & _ & Hpend & Hne).
    eapply decided_requests; [apply rotated_ok; eauto using decodePublicKey_size| | | | | |]; eauto; try done. by rewrite Hp.
  - eapply decided_requests; eauto; try done. by destruct (rq_Payload r).
  - by eapply status_ok.
  - destruct Hd as [Hk Hdv Hr]. split; [..|exact Hr].
    + intros id epoch k Hkk. by destruct (Hk id epoch k Hkk).
    + intros id v Hvv. by destruct (Hdv id v Hvv).
  - apply registry_ok_requests; [done| |].
    + intros id r'. rewrite lookup_alter_Some. intros [(<- & r1 & Hr1 & ->)|[_ Hr']]; [|by eapply requests_ok].
      simplify_eq. destruct (requests_ok _ Hd _ _ Hr) as [? ? Hp Hdec ?]. split; cbn; try done; [|congruence].
      intros _. apply Hdec. by rewrite Hst.
    + intros id r' Hr' Hnp. destruct (decide (id = requestID)) as [->|Hne].
      * simplify_eq. eexists. split; [by rewrite lookup_alter_eq, Hr|]. intros v. unfold comes_from. cbn. naive_solver.
      * exists r'. by rewrite lookup_alter_ne.
Qed.

(** C29: After any run of the store's methods, under any faults of the database, the
    registry is well formed: every device was asked for by its creator and approved
    by somebody else in its tenant, a device that is not revoked or decommissioned
    has exactly its current epoch as CURRENT key and a revoked or decommissioned one
    has only REVOKED keys, epochs run from 1 to the current one, every key has 32
    bytes, every decided request was decided by a person other than its maker, and
    only a request that carries the digest of a secret is consumed. *)
Theorem registry_is_well_formed uuid_input ops faults :
  registry_ok (registry (e_state (run_device_ops uuid_input ops (mkEnv faults empty_device_store)))).
Proof.
  apply run_device_ops_inv; [|apply empty_registry_ok]. intros now op d d'. apply registry_ok_step.
Qed.

(** ** What stays *)

(** A key keeps its bytes; a revoked one stays revoked, and none becomes current. *)
Definition key_later (k k' : Key) : Prop :=
  same_key k k' ∧ (key_Status k = KeyRevoked → key_Status k' = KeyRevoked) ∧
  (key_Status k ≠ KeyCurrent → key_Status k' ≠ KeyCurrent).
(** A device keeps tenant and kind, its epoch grows, a terminal status stays. *)
Definition device_later (v v' : Device) : Prop :=
  dev_TenantID v' = dev_TenantID v ∧ dev_Kind v' = dev_Kind v ∧ dev_KeyEpoch v ≤ dev_KeyEpoch v' ∧
  (terminal (dev_Status v) = true → dev_Status v' = dev_Status v).
(** A request is decided once; an approved one may still be consumed. *)
Definition request_later (r r' : Request) : Prop :=
  rq_Payload r' = rq_Payload r ∧ rq_RequestedBy r' = rq_RequestedBy r ∧
  (rq_Status r ≠ RequestPending →
     rq_DecidedBy r' = rq_DecidedBy r ∧ rq_DeviceID r' = rq_DeviceID r ∧ rq_SecretHash r' = rq_SecretHash r ∧
     (rq_Status r' = rq_Status r ∨ rq_Status r = RequestApproved ∧ rq_Status r' = RequestConsumed)).
Definition registry_later (d d' : device_db) : Prop :=
  carried key_later (device_keys d) (device_keys d') ∧ carried device_later (devices d) (devices d') ∧
  carried request_later (provisioning_requests d) (provisioning_requests d').

#[export] Instance key_later_pre : PreOrder key_later.
Proof.
  unfold key_later, same_key. split; [by repeat split|].
  intros k1 k2 k3 ((? & ? & ?) & ? & ?) ((? & ? & ?) & ? & ?). split_and!; auto; congruence.
Qed.
#[export] Instance device_later_pre : PreOrder device_later.
Proof.
  split; [by intros v; repeat split|]. intros v1 v2 v3 (? & ? & ? & F1) (? & ? & ? & F2).
  split_and!; try congruence; [lia|]. intros Ht. rewrite <- F1 in * by done. auto.
Qed.
#[export] Instance request_later_pre : PreOrder request_later.
Proof.
  split; [by intros r; repeat split; auto|]. intros r1 r2 r3 (? & ? & F1) (? & ? & F2).
  split_and!; try congruence. intros Hp. destruct (F1 Hp) as (? & ? & ? & E1).
  destruct F2 as (? & ? & ? & E2). { destruct E1 as [->|[_ ->]]; done. }
  split_and!; try congruence. destruct E1 as [E1|[E1 E1']]; [by rewrite E1 in E2|]. rewrite E1' in E2.
  destruct E2 as [->|[? _]]; [|done]. by right.
Qed.
#[export] Instance registry_later_pre : PreOrder registry_later.
Proof.
  split; [by intros d; split_and!|]. intros d1 d2 d3 (? & ? & ?) (? & ? & ?). split_and!; by etransitivity.
Qed.

Lemma updated_later deviceID p q d :
  (∀ k, p k = true → key_later k (q k)) →
  carried key_later (device_keys d) (device_keys (update_keys deviceID p q d)).
Proof.
  intros Hq. apply carried_fmap. intros x k _. destruct (String.eqb _ _ && p k) eqn:E; [|done].
  bool_to_prop. by apply Hq.
Qed.
Lemma decided_later d status checker now hash device requestID r0 :
  provisioning_requests d !! requestID = Some r0 → rq_Status r0 = RequestPending →
  registry_later d (decided status checker now hash device requestID d).
Proof.
  intros Hr0 Hp. split_and!; [done..|]. apply carried_alter; [apply _|]. intros r Hr. simplify_eq. by repeat split.
Qed.
Lemma rotated_later now grace deviceID key v d :
  devices d !! deviceID = Some v → device_keys d !! (deviceID, dev_KeyEpoch v + 1) = None →
  registry_later d (rotated now grace deviceID (dev_KeyEpoch v) key d).
Proof.
  intros Hv Hn. split_and!; [| |done].
  2:{ apply carried_alter; [apply _|]. intros v' ?. simplify_eq/=. split_and!; cbn; auto; lia. }
  cbn [rotated on_devices on_keys device_keys]. etransitivity; [|etransitivity].
  - apply (updated_later deviceID (λ k, has_status KeyPrevious k && (key_RotatedAt k <? pg_time now - grace))
             (set_key_status KeyRevoked)). intros k _. by repeat split.
  - apply (updated_later deviceID (has_status KeyCurrent) (demote now)). intros k Hk. unfold has_status in Hk.
    bool_to_prop. by repeat split; cbn; rewrite ?Hk.
  - apply carried_insert; [apply _|]. intros k. cbn. by rewrite !lookup_fmap, Hn.
Qed.
Lemma restated_later now deviceID target v d :
  devices d !! deviceID = Some v → terminal (dev_Status v) = false → registry_later d (restated now deviceID target d).
Proof.
  intros Hv Ht. unfold restated.
  assert (registry_later d (on_devices (alter (set_device_status target now) deviceID) d)) as Hl.
  { split_and!; [done| |done]. apply carried_alter; [apply _|]. intros v' Hv'. simplify_eq.
    repeat split; cbn; try lia. congruence. }
  destruct (terminal target); [|done]. etransitivity; [exact Hl|]. split_and!; [|done..].
  apply updated_later. intros k _. by repeat split.
Qed.

Lemma registry_later_step now op d d' : device_step now op d d' → registry_later d d'.
Proof.
  destruct 1 as [? ? ? ? ? ? ? ? ? ? ? ? ? Hn|? ? ? ? ? ? ? ? ? Hn|? ? ? ? ? ? ? ? ? ? ? ? ? d (Hr & _ & Hpend & Hne) Hp Hk Hn Ha
    |? ? ? ? ? ? ? ? ? ? ? d (Hr & _ & Hpend & Hne) Hp Hk Hv ? Ha ?|? ? ? r d (Hr & _ & Hpend & Hne)|? ? ? ? ? d Hv ? Ht
    | |? ? ? r d ? ? Hr Hst Hh].
  - split_and!; [done..|]. apply carried_insert; [apply _|]. intros ? ?. by rewrite Hn in *.
  - split_and!; [done..|]. apply carried_insert; [apply _|]. intros ? ?. by rewrite Hn in *.
  - apply andb_true_iff in Ha as [Ha%bool_decide_eq_true _].
    etransitivity; [|by eapply decided_later].
    split_and!; [| |done]; (apply carried_insert; [apply _|]; intros ? ?; simplify_eq/=).
  - etransitivity; [by apply rotated_later|by eapply decided_later].
  - by eapply decided_later.
  - apply ValidateStatusTransition_Ok in Ht as (_ & _ & Ht). by eapply restated_later.
  - by split_and!.
  - split_and!; [done..|]. apply carried_alter; [apply _|]. intros r' ?. simplify_eq. repeat split; cbn; auto.
Qed.
