(* ===== verification/DeviceTrust.v ===== *)
(** * What an authenticated device has shown

    The verifier of [DeviceVerify] against the registry: which envelopes and proofs
    it accepts, the finality of revocation, what the telemetry endpoint publishes,
    and the single use of an activation secret. *)
From S2P Require Import Prelude Dedup Sha256 GoTime Base64 Classification Sign Jws Auth Http Effects Devices DeviceSign DeviceStore DeviceVerify DeviceApi DeviceSpec DeviceProps.

(** The device is active and the key of [epoch] is its current one, or a previous
    one inside the grace window. *)
Record trusted (grace now : Z) (d : device_db) (id : string) (epoch : Z) (v : Device) (k : Key) : Prop := mkTrusted {
  tr_device : devices d !! id = Some v;
  tr_active : dev_Status v = StatusActive;
  tr_key : device_keys d !! (id, epoch) = Some k;
  tr_status : (key_Status k = KeyCurrent ∧ epoch = dev_KeyEpoch v) ∨
              (key_Status k = KeyPrevious ∧ time_Sub now (key_RotatedAt k) ≤ grace) }.

Section trust.
Context {Hed : Ed25519} {Hjson : JsonText} {Htext : DeviceText}.
Context (uuid_input : string → bool) (grace : Z).
Implicit Types (w : env device_store).

(** The envelope that [raw] decodes to is complete, names the path's device and is
    signed by a trusted key. *)
Record genuine (now : Z) (d : device_db) (path raw : string) (e : DeviceEnvelope) (v : Device) (k : Key) : Prop := mkGenuine {
  ge_decoded : decode_device_envelope raw = Some e;
  ge_version : dv_EnvelopeVersion e = DeviceEnvelopeVersion;
  ge_complete : incomplete e = false;
  ge_path : dv_DeviceID e = path;
  ge_trusted : trusted grace now d path (dv_KeyEpoch e) v k;
  ge_signed : VerifyEnvelopeSignature e (key_PublicKey k) = Ok tt }.

Lemma attempt_inv {A} (m : IO A) w w' r : attempt m w = (w', Ok r) → m w = (w', r).
Proof. unfold attempt. destruct (m w). naive_solver. Qed.
Lemma rejected_not_Ok {A} audited tenant reason detail named told w w' (a : A) :
  rejected uuid_input audited tenant reason detail named told w ≠ (w', Ok (Ok a)).
Proof.
  unfold rejected. intros (w1 & u & _ & Hr)%M_bind_Ok. by unfold mret, M_ret in Hr.
Qed.
Lemma load_device_inv id w w' v :
  LoadDeviceForAuth uuid_input id w = (w', Ok v) →
  uuid_input id = true ∧ devices (registry (e_state w)) !! id = Some v ∧ e_state w' = e_state w.
Proof. unfold LoadDeviceForAuth. intros H. dev_inv. eauto. Qed.
Lemma load_key_inv id epoch w w' k :
  LoadKey uuid_input id epoch w = (w', Ok k) →
  device_keys (registry (e_state w)) !! (id, epoch) = Some k ∧ e_state w' = e_state w.
Proof. unfold LoadKey. intros H. dev_inv. eauto. Qed.

Lemma authenticate_Ok now id epoch w w' v k :
  authenticate uuid_input grace now id epoch w = (w', Ok (Ok (v, k))) →
  uuid_input id = true ∧ trusted grace now (registry (e_state w)) id epoch v k ∧ e_state w' = e_state w.
Proof.
  unfold authenticate. intros (w1 & r & Hr%attempt_inv & H)%M_bind_Ok. destruct r as [v0|e].
  2:{ destruct e; try done. by apply rejected_not_Ok in H. }
  apply load_device_inv in Hr as (Hu & Hv & Es).
  repeat (case_match; [by apply rejected_not_Ok in H|]). bool_to_prop.
  apply M_bind_Ok in H as (w2 & r & Hr%attempt_inv & H). destruct r as [k0|e]; [|by apply rejected_not_Ok in H].
  apply load_key_inv in Hr as (Hk & Es'). rewrite Es in Hk. case_match; bool_to_prop.
  - case_match; [by apply rejected_not_Ok in H|]. unfold mret, M_ret in H. simplify_eq. bool_to_prop.
    split_and!; [done| |congruence]. split; auto.
  - case_match; [|case_match; by apply rejected_not_Ok in H].
    case_match; [by apply rejected_not_Ok in H|]. unfold mret, M_ret in H. simplify_eq. bool_to_prop.
    split_and!; [done| |congruence]. split; auto.
Qed.
(** Without faults the verifier accepts every trusted key. *)
Lemma authenticate_run now id epoch s v k :
  uuid_input id = true → trusted grace now (registry s) id epoch v k →
  authenticate uuid_input grace now id epoch (mkEnv [] s) = (mkEnv [] s, Ok (Ok (v, k))).
Proof.
  intros Hu [Hv Hact Hk Hst]. unfold authenticate, LoadDeviceForAuth, LoadKey, uuid_param. rewrite Hu.
  unfold attempt, select, external, row, mbind, M_bind, mret, M_ret. cbn. rewrite Hv. cbn. rewrite Hact. cbn.
  rewrite Hk. cbn. destruct Hst as [[-> ->]|[-> Hg]]; cbn.
  - by rewrite Z.eqb_refl.
  - by rewrite (proj2 (Z.ltb_ge _ _)).
Qed.

Lemma VerifyTelemetry_Ok now path raw w w' e d :
  VerifyTelemetry uuid_input grace now path raw w = (w', Ok (Ok (e, d))) →
  ∃ v k, genuine now (registry (e_state w)) path raw e v k ∧ d = mkVerified v (dv_KeyEpoch e) ∧ uuid_input path = true ∧
    e_state w' = count "geo_device_auth_total" "ok" (e_state w).
Proof.
  unfold VerifyTelemetry. intros H. destruct (decode_device_envelope raw) as [e0|] eqn:Hd; [|by apply rejected_not_Ok in H].
  repeat (case_match; [by apply rejected_not_Ok in H|]). bool_to_prop.
  apply M_bind_Ok in H as (w1 & r & Hr & H). destruct r as [[v k]|]; [|done].
  apply authenticate_Ok in Hr as (Hu & Ht & Es).
  destruct (VerifyEnvelopeSignature e0 (key_PublicKey k)) as [[]|] eqn:Hs; [|by apply rejected_not_Ok in H].
  unfold accept, modify, mbind, M_bind, mret, M_ret in H. simplify_eq. exists v, k. cbn. rewrite Es. split_and!; [by constructor|done..].
Qed.
Lemma VerifyTelemetry_run now path raw s e v k :
  uuid_input path = true → genuine now (registry s) path raw e v k →
  VerifyTelemetry uuid_input grace now path raw (mkEnv [] s) =
    (mkEnv [] (count "geo_device_auth_total" "ok" s), Ok (Ok (e, mkVerified v (dv_KeyEpoch e)))).
Proof.
  intros Hu [Hd Hv Hc Hp Ht Hs]. unfold VerifyTelemetry. rewrite Hd, Hv, Hc, Hp, !String.eqb_refl. cbn [negb].
  rewrite (M_bind_run _ _ _ _ _ (authenticate_run _ _ _ _ _ _ Hu Ht)). by rewrite Hs.
Qed.

Lemma VerifyProof_Ok now compact action w w' d :
  VerifyProof uuid_input grace now compact action w = (w', Ok (Ok d)) →
  ∃ id epoch v k, proofClaims compact = Ok (id, epoch) ∧ trusted grace now (registry (e_state w)) id epoch v k ∧
    VerifyProofSignature compact (key_PublicKey k) = Ok (mkProof action id epoch) ∧ d = mkVerified v epoch.
Proof.
  unfold VerifyProof. intros H. case_match; [by apply rejected_not_Ok in H|].
  destruct (proofClaims compact) as [[id epoch]|] eqn:Hc; [|by apply rejected_not_Ok in H].
  apply M_bind_Ok in H as (w1 & r & Hr & H). destruct r as [[v k]|]; [|done].
  apply authenticate_Ok in Hr as (_ & Ht & _).
  destruct (VerifyProofSignature compact (key_PublicKey k)) as [p|] eqn:Hs; [|by apply rejected_not_Ok in H].
  case_match eqn:Ha; [by apply rejected_not_Ok in H|]. case_match eqn:Hn; [by apply rejected_not_Ok in H|]. bool_to_prop.
  unfold accept, modify, mbind, M_bind, mret, M_ret in H. simplify_eq. exists (pf_DeviceID p), (pf_KeyEpoch p), v, k.
  split_and!; try done. by destruct p.
Qed.

(** ** Revocation *)

(** The device is revoked or decommissioned, or its key of [epoch] is revoked. *)
Definition revoked (d : device_db) (id : string) (epoch : Z) : Prop :=
  (∃ v, devices d !! id = Some v ∧ terminal (dev_Status v) = true) ∨
  (∃ k, device_keys d !! (id, epoch) = Some k ∧ key_Status k = KeyRevoked).
Lemma revoked_later d d' id epoch : registry_later d d' → revoked d id epoch → revoked d' id epoch.
Proof.
  intros (Hk & Hd & _) [(v & Hv & Ht)|(k & Hkk & Hs)].
  - destruct (Hd _ _ Hv) as (v' & Hv' & _ & _ & _ & E). left. exists v'. split; [done|]. by rewrite E.
  - destruct (Hk _ _ Hkk) as (k' & Hk' & _ & E & _). right. eauto.
Qed.
Lemma revoked_not_trusted now d id epoch v k : trusted grace now d id epoch v k → ¬ revoked d id epoch.
Proof.
  intros [Hv Ha Hk Hs] [(v' & Hv' & Ht)|(k' & Hk' & Hr)]; simplify_eq.
  - by rewrite Ha in Ht.
  - rewrite Hr in Hs. naive_solver.
Qed.

(** C27: Revocation is final.  Once a device is revoked or decommissioned, or one of
    its key epochs is revoked, then after any further requests, approvals,
    rotations and changes of status, under any faults of the database, no telemetry
    envelope and no proof of that device (with that epoch) is accepted, at any time
    and whatever text is presented. *)
Theorem revocation_is_final before ops faults faults' now path raw compact action id epoch :
  let s := e_state (run_device_ops uuid_input before (mkEnv faults empty_device_store)) in
  let w := run_device_ops uuid_input ops (mkEnv faults' s) in
  revoked (registry s) id epoch →
  (∀ w' e v, VerifyTelemetry uuid_input grace now path raw w = (w', Ok (Ok (e, v))) → (dv_DeviceID e, dv_KeyEpoch e) ≠ (id, epoch)) ∧
  (∀ w' v, VerifyProof uuid_input grace now compact action w = (w', Ok (Ok v)) → (dev_ID (vd_Device v), vd_KeyEpoch v) ≠ (id, epoch)).
Proof.
  intros s w Hr.
  assert (revoked (registry (e_state w)) id epoch) as Hr'.
  { eapply revoked_later; [|exact Hr].
    apply (run_device_ops_rel uuid_input registry_later ops (mkEnv faults' s)), registry_later_step. }
  assert (registry_ok (registry (e_state w))) as Hok.
  { apply run_device_ops_inv; [by intros; eapply registry_ok_step|].
    cbn [e_state]. apply run_device_ops_inv; [|apply empty_registry_ok].
    by intros; eapply registry_ok_step. }
  split.
  - intros w' e v (v' & k & [? ? ? Hp Ht ?] & _)%VerifyTelemetry_Ok [= E1 E2]. subst. by eapply revoked_not_trusted.
  - intros w' v (id' & epoch' & v' & k & _ & Ht & _ & ->)%VerifyProof_Ok [= E1 E2]. cbn in E1. subst.
    destruct (devices_ok _ Hok _ _ (tr_device _ _ _ _ _ _ _ Ht)) as [E _ _ _ _ _]. subst. by eapply revoked_not_trusted.
Qed.

(** C28: On a registry that answers, the verifier accepts exactly the genuine
    envelopes: those of a complete text whose device is the one of the path, is
    active, and signed the envelope with its current key or with a previous one
    inside the grace window. *)
Theorem telemetry_accepted_exactly now path raw s e d :
  uuid_input path = true →
  (∃ w', VerifyTelemetry uuid_input grace now path raw (mkEnv [] s) = (w', Ok (Ok (e, d)))) ↔
  ∃ v k, genuine now (registry s) path raw e v k ∧ d = mkVerified v (dv_KeyEpoch e).
Proof.
  intros Hu. split.
  - intros (w' & (v & k & Hg & -> & _)%VerifyTelemetry_Ok). eauto.
  - intros (v & k & Hg & ->). eexists. by eapply VerifyTelemetry_run.
Qed.

(** ** What is published *)

(** The parts of the store that rejections and audit entries leave alone. *)
Definition same_books (d : device_db) (l : list forwarded) (s : device_store) : Prop := registry s = d ∧ published s = l.
Section books.
Context (d : device_db) (l : list forwarded).
Abbreviation quiet m := (keeps (E := device_error) (same_books d l) m).

Lemma select_quiet {A} (f : device_db → A) : quiet (select f).
Proof. by apply keeps_external. Qed.
Lemma row_quiet {A} (o : option A) e : quiet (row o e).
Proof. destruct o; [apply keeps_ret|apply keeps_fail]. Qed.
Lemma uuid_param_quiet id : quiet (uuid_param uuid_input id).
Proof. unfold uuid_param. case_match; [apply keeps_ret|apply keeps_fail]. Qed.
Lemma count_quiet name label : quiet (modify (count name label)).
Proof. by apply keeps_modify. Qed.
Lemma InsertAudit_quiet a : quiet (InsertAudit uuid_input a).
Proof.
  apply keeps_bind; [case_match; [apply keeps_ret|apply uuid_param_quiet]|]. intros _. by apply keeps_external.
Qed.
Lemma audit_quiet a : quiet (audit uuid_input a).
Proof.
  apply keeps_bind; [apply keeps_attempt, InsertAudit_quiet|]. intros [u|e]; [apply keeps_ret|apply count_quiet].
Qed.
Lemma rejected_quiet {A} a t r x n o : quiet (rejected (A := A) uuid_input a t r x n o).
Proof.
  apply keeps_bind; [|intros _; apply keeps_ret].
  apply keeps_bind; [apply count_quiet|]. intros _.
  apply keeps_bind; [apply keeps_attempt, InsertAudit_quiet|]. intros _. apply keeps_ret.
Qed.
Lemma deadLetter_quiet id reason body : quiet (deadLetter uuid_input id reason body).
Proof.
  unfold deadLetter. case_match; [apply keeps_ret|]. apply keeps_bind; [apply keeps_attempt; by apply keeps_external|].
  intros [u|e]; [|apply count_quiet]. apply keeps_bind; [apply count_quiet|]. intros _. apply audit_quiet.
Qed.
Lemma authenticate_quiet now id epoch : quiet (authenticate uuid_input grace now id epoch).
Proof.
  apply keeps_bind.
  { apply keeps_attempt, keeps_bind; [apply uuid_param_quiet|]. intros _.
    apply keeps_bind; [apply select_quiet|]. intros ?. apply row_quiet. }
  intros [v|e]; [|destruct e; try apply keeps_ret; apply rejected_quiet].
  repeat (case_match; [apply rejected_quiet|]). apply keeps_bind.
  { apply keeps_attempt, keeps_bind; [apply uuid_param_quiet|]. intros _.
    apply keeps_bind; [apply select_quiet|]. intros ?. apply row_quiet. }
  intros [k|e]; repeat case_match; apply rejected_quiet || apply keeps_ret.
Qed.
Lemma VerifyTelemetry_quiet now path raw : quiet (VerifyTelemetry uuid_input grace now path raw).
Proof.
  unfold VerifyTelemetry. destruct (decode_device_envelope raw) as [e|]; [|apply rejected_quiet].
  repeat (case_match; [apply rejected_quiet|]). apply keeps_bind; [apply authenticate_quiet|].
  intros [[v k]|err]; [|apply keeps_ret]. case_match; [|apply rejected_quiet].
  apply keeps_bind; [apply count_quiet|]. intros _. apply keeps_ret.
Qed.
End books.
End trust.

Section telemetry.
Context {Hed : Ed25519} {Hjson : JsonText} {Htext : DeviceText}.
Context (uuid_input : string → bool).
Context (decode_position : string → option VesselPositionReported)
        (decode_static : string → option VesselStaticReported) (api : API).
Implicit Types (w : env device_store).

(** What the endpoint forwards of an envelope: the report, checked and labelled. *)
Definition content_of (e : DeviceEnvelope) : option (payload * string) :=
  if String.eqb (dv_PayloadType e) EventVesselPosition then
    r ← decode_position (dv_Payload e);
    if mmsiLike (vp_MMSI r) && validClassification (vp_Classification r)
    then Some (PVesselPosition r, vp_Classification r) else None
  else if String.eqb (dv_PayloadType e) EventVesselStatic then
    r ← decode_static (dv_Payload e);
    if mmsiLike (vs_MMSI r) && validClassification (vs_Classification r)
    then Some (PVesselStatic r, vs_Classification r) else None
  else None.
(** The record published for an envelope of the device [v]. *)
Definition record_of (e : DeviceEnvelope) (v : Device) (content : payload) (label : string) : forwarded :=
  mkForwarded (dv_PayloadType e)
    (dv_DeviceID e +:+ ":" +:+ dv_PayloadType e +:+ ":" +:+ format_rfc3339nano (dv_OccurredAt e))
    content (dv_OccurredAt e) label (dev_ID v) (dev_Kind v) (dv_KeyEpoch e).
Definition announces (now : Z) (d : device_db) (path body : string) (f : forwarded) : Prop :=
  ∃ e v k content label, genuine (VerifierGrace api) now d path body e v k ∧ content_of e = Some (content, label) ∧
    f = record_of e v content label.

(** The endpoint after an accepted envelope. *)
Lemma ingest_accepted now path body w w1 e verified :
  VerifyTelemetry uuid_input (VerifierGrace api) now path body w = (w1, Ok (Ok (e, verified))) →
  ingestTelemetry uuid_input decode_position decode_static api now path body w =
    match content_of e with
    | Some (content, label) => forwardTelemetry e verified (dv_PayloadType e) content label w1
    | None => dead_lettered uuid_input path body w1
    end.
Proof.
  intros Hv. unfold ingestTelemetry. rewrite (M_bind_run _ _ _ _ _ Hv). cbn match. unfold content_of.
  destruct (String.eqb (dv_PayloadType e) EventVesselPosition) eqn:E1; [apply String.eqb_eq in E1; rewrite E1|
  destruct (String.eqb (dv_PayloadType e) EventVesselStatic) eqn:E2; [apply String.eqb_eq in E2; rewrite E2|done]].
  - destruct (decode_position _) as [r|]; [|done]. cbn. by destruct (_ && _).
  - destruct (decode_static _) as [r|]; [|done]. cbn. by destruct (_ && _).
Qed.
Lemma dead_lettered_quiet d l path body : keeps (same_books d l) (dead_lettered uuid_input path body).
Proof. apply keeps_bind; [apply deadLetter_quiet|]. intros _. apply keeps_ret. Qed.
Lemma forward_published e v label content w :
  let out := forwardTelemetry e (mkVerified v (dv_KeyEpoch e)) (dv_PayloadType e) content label w in
  published (e_state out.1) = published (e_state w) ∨
  published (e_state out.1) = published (e_state w) ++ [record_of e v content label].
Proof.
  unfold forwardTelemetry, attempt, external, modify, mbind, M_bind, mret, M_ret.
  destruct (e_faults w) as [|[] fs]; cbn; auto.
Qed.

(** Whatever faults occur, one call of the telemetry endpoint publishes at most
    one record, and a published record is that of a genuine envelope of the device
    of the path whose report has a nine-digit MMSI and a known classification; a
    call without faults on such an envelope publishes it. *)
Theorem telemetry_published_is_genuine now path body w :
  uuid_input path = true →
  let run w := (ingestTelemetry uuid_input decode_position decode_static api now path body w).1 in
  (published (e_state (run w)) = published (e_state w) ∨
   ∃ f, published (e_state (run w)) = published (e_state w) ++ [f] ∧ announces now (registry (e_state w)) path body f) ∧
  ∀ f, announces now (registry (e_state w)) path body f →
    published (e_state (run (mkEnv [] (e_state w)))) = published (e_state w) ++ [f].
Proof.
  intros Hu run. split.
  - pose proof (VerifyTelemetry_quiet uuid_input (VerifierGrace api) (registry (e_state w)) (published (e_state w))
      now path body w (conj eq_refl eq_refl)) as Hq.
    destruct (VerifyTelemetry uuid_input (VerifierGrace api) now path body w) as [w1 [[[e d]|err]|err]] eqn:Hv.
    + unfold run. rewrite (ingest_accepted _ _ _ _ _ _ _ Hv). apply VerifyTelemetry_Ok in Hv as (v & k & Hg & -> & _ & _).
      destruct Hq as [Hq1 Hq2]. cbn in Hq1, Hq2. rewrite <- Hq2. destruct (content_of e) as [[content label]|] eqn:Hc.
      * destruct (forward_published e v label content w1) as [->| ->]; [by left|right]. unfold announces. eauto 15.
      * left. by apply (dead_lettered_quiet (registry (e_state w1)) (published (e_state w1))).
    + left. unfold run, ingestTelemetry. rewrite (M_bind_run _ _ _ _ _ Hv).
      assert (∀ m : IO response, keeps (same_books (registry (e_state w)) (published (e_state w))) m →
        published (e_state (m w1).1) = published (e_state w)) as Hm by (intros m Hk; by apply (Hk w1 Hq)).
      destruct err; cbn match; [|by apply Hq]. apply (Hm (_ ≫= _)). apply keeps_bind; [|intros _; apply keeps_ret].
      case_match; [apply deadLetter_quiet|apply keeps_ret].
    + left. unfold run, ingestTelemetry, mbind, M_bind. rewrite Hv. by apply Hq.
  - intros f (e & v & k & content & label & Hg & Hc & ->).
    unfold run. rewrite (ingest_accepted _ _ _ _ _ _ _ (VerifyTelemetry_run _ _ _ _ _ _ _ _ _ Hu Hg)), Hc. done.
Qed.
End telemetry.

(** ** Activation *)

Section activation.
Context (uuid_input : string → bool).
Implicit Types (w : env device_store).

(** The request is approved for [dev] and holds the digest of [raw]. *)
Definition holds_secret (requestID : string) (raw : list Z) (dev : string) (d : device_db) : Prop :=
  ∃ r, provisioning_requests d !! requestID = Some r ∧ rq_Status r = RequestApproved ∧
       rq_SecretHash r = Some (sha256 raw) ∧ rq_DeviceID r = Some dev.

Lemma secret_solid raw : Forall is_byte raw → all_chars solid (EncodeToString RawURLEncoding raw) = true.
Proof.
  intros Hr. apply all_chars_of_list, encode_Forall; [|done|done]. intros v Hv.
  assert (forallb (λ n, solid (enc RawURLEncoding (Z.of_nat n))) (seq 0 64) = true) as H by (by vm_compute).
  rewrite forallb_forall in H. specialize (H (Z.to_nat v) ltac:(apply in_seq; lia)). by rewrite Z2Nat.id in H by lia.
Qed.

Lemma ApproveRequest_Ok now newID raw tenant requestID checker g w w' a :
  ApproveRequest uuid_input now newID raw tenant requestID checker g w = (w', Ok a) →
  uuid_input requestID = true ∧
  (ap_ActivationSecret a = "" ∨
   ∃ bytes, raw = Some bytes ∧ a = mkApproval requestID newID 1 (EncodeToString RawURLEncoding bytes) ∧
     holds_secret requestID bytes newID (registry (e_state w'))).
Proof.
  unfold ApproveRequest. destruct (blank checker); [done|]. intros H.
  match type of H with WithTenant _ ?body _ = _ =>
    destruct (tenant_transaction_run registry set_registry TenantRequired StoreFailure tenant body w ltac:(done))
      as (w1 & w2 & r & _ & Hb & _ & Ha) end.
  destruct (Ha a) as [-> Hdb]. { unfold WithTenant in H. by rewrite H. }
  assert (registry (e_state w') = registry (e_state w2)) as ->.
  { rewrite <- Hdb. unfold WithTenant in H. by rewrite H. }
  clear H Ha Hdb. dev_inv. split; [done|].
  match goal with H : find_request _ _ _ = Some ?r |- _ => apply (find_request_Some uuid_input) in H as [Hr Ht]; rename r into request end.
  destruct (rq_Payload request) as [kind agency label publicKey metadata|deviceID publicKey|t] eqn:Hp; [| |by dev_inv].
  - right. unfold approve_provision in *. destruct (decodePublicKey publicKey) as [key|] eqn:Hk; [|by dev_inv]. dev_inv.
    destruct raw as [raw|]; [|by dev_inv]. unfold generateActivationSecret in *. dev_inv. exists raw. split_and!; try done.
    eexists. cbn. rewrite lookup_alter_eq, Hr. by repeat split.
  - left. unfold approve_rotation in *. destruct (decodePublicKey publicKey) as [key|] eqn:Hk; [|by dev_inv]. by dev_inv.
Qed.

(** Only its consumption changes an approved request. *)
Definition not_consuming (requestID : string) (op : device_op) : Prop :=
  match op with OpConsume id _ => id ≠ requestID | _ => True end.
Lemma approved_stays now op d d' requestID r :
  not_consuming requestID op → device_step now op d d' →
  provisioning_requests d !! requestID = Some r → rq_Status r = RequestApproved →
  provisioning_requests d' !! requestID = Some r.
Proof.
  intros Hop Hs Hr Ha.
  assert (∀ d0 status checker hash device id r0, provisioning_requests d !! id = Some r0 → rq_Status r0 = RequestPending →
    provisioning_requests d0 = provisioning_requests d →
    provisioning_requests (decided status checker now hash device id d0) !! requestID = Some r) as Hdec.
  { intros d0 status checker hash device id r0 Hr0 Hp E. cbn. rewrite E, lookup_alter_ne; [done|]. intros ->. simplify_eq. by rewrite Ha in Hp. }
  destruct Hs; cbn in Hop; repeat match goal with H : waits _ _ _ _ _ |- _ => destruct H as (? & ? & ? & ?) end;
    try (by eapply Hdec); try done.
  - cbn. rewrite lookup_insert_ne; [done|]. naive_solver.
  - cbn. rewrite lookup_insert_ne; [done|]. naive_solver.
  - by destruct (terminal target).
  - cbn. by rewrite lookup_alter_ne.
Qed.
Lemma holds_secret_run requestID raw dev ops w :
  Forall (λ no, not_consuming requestID no.2) ops → holds_secret requestID raw dev (registry (e_state w)) →
  holds_secret requestID raw dev (registry (e_state (run_device_ops uuid_input ops w))).
Proof.
  intros Hops. apply (run_device_ops_inv_on uuid_input (not_consuming requestID)); [done|].
  intros now op d d' Hop Hs (r & Hr & Ha & Hh). exists r. split; [by eapply approved_stays|done].
Qed.

Lemma ConsumeActivation_run requestID raw dev s :
  uuid_input requestID = true → Forall is_byte raw → length raw = 32%nat → holds_secret requestID raw dev (registry s) →
  (ConsumeActivation uuid_input requestID (EncodeToString RawURLEncoding raw) (mkEnv [] s)).2 = Ok dev.
Proof.
  intros Hu Hb Hl (r & Hr & Ha & Hh & Hd). unfold ConsumeActivation.
  rewrite (TrimSpace_all_solid _ (secret_solid _ Hb)), base64_roundtrip by (done || by left).
  destruct (String.eqb _ _) eqn:E.
  { apply String.eqb_eq in E. pose proof (base64_roundtrip RawURLEncoding raw ltac:(by left) Hb) as Hx.
    rewrite E in Hx. injection Hx as <-. done. }
  rewrite Hl. cbn [Nat.eqb negb]. unfold uuid_param, external, consume, mbind, M_bind, mret, M_ret. rewrite Hu. cbn.
  rewrite Hr, Ha, Hh. cbn. rewrite bool_decide_eq_true_2 by done. cbn. by rewrite Hd.
Qed.
(** A consumed request is refused, whatever the secret. *)
Lemma ConsumeActivation_refused requestID secret w r :
  provisioning_requests (registry (e_state w)) !! requestID = Some r → rq_Status r = RequestConsumed →
  ∀ w' dev, ConsumeActivation uuid_input requestID secret w ≠ (w', Ok dev).
Proof.
  intros Hr Hc w' dev H. unfold ConsumeActivation in H. repeat (case_match; try done).
  apply M_bind_Ok in H as (w1 & u & Hu%uuid_param_Ok & H). destruct Hu as [_ ->].
  apply M_bind_Ok in H as (w2 & o & He%external_Ok & H). unfold consume in He. rewrite Hr, Hc in He. cbn in He.
  by simplify_eq.
Qed.
Lemma ConsumeActivation_Ok requestID secret w w' dev :
  ConsumeActivation uuid_input requestID secret w = (w', Ok dev) →
  ∃ r, provisioning_requests (registry (e_state w')) !! requestID = Some r ∧ rq_Status r = RequestConsumed.
Proof.
  intros H. destruct (ConsumeActivation_refines uuid_input 0 requestID secret w) as [_ Hs].
  rewrite H in Hs. specialize (Hs dev eq_refl). cbn in Hs. inversion Hs as [| | | | | | |? ? ? r ? ? ? Hr]; subst.
  cbn. rewrite lookup_alter_eq, Hr. by eexists.
Qed.

(** C30: The secret of an approval activates its device once.  When approving a
    provisioning request returned a secret, then after any other operations, under
    any faults, presenting that secret to a registry that answers yields the
    approved device; and once any presentation succeeded, every later one for the
    request is refused, with whatever secret and after whatever operations. *)
Theorem activation_secret_works_once now newID bytes tenant requestID checker g w w1 a :
  Forall is_byte bytes → length bytes = 32%nat →
  ApproveRequest uuid_input now newID (Some bytes) tenant requestID checker g w = (w1, Ok a) →
  ap_ActivationSecret a ≠ "" →
  (∀ ops, Forall (λ no, not_consuming requestID no.2) ops →
     (ConsumeActivation uuid_input requestID (ap_ActivationSecret a)
        (mkEnv [] (e_state (run_device_ops uuid_input ops w1)))).2 = Ok (ap_DeviceID a)) ∧
  (∀ secret w2 w3 dev ops faults, ConsumeActivation uuid_input requestID secret w2 = (w3, Ok dev) →
     ∀ secret' w4 dev', ConsumeActivation uuid_input requestID secret'
       (run_device_ops uuid_input ops (mkEnv faults (e_state w3))) ≠ (w4, Ok dev')).
Proof.
  intros Hb Hl Happ Hs. split.
  - apply ApproveRequest_Ok in Happ as (Hu & [?|(bytes' & [= <-] & -> & Hh)]); [done|]. intros ops Hops. cbn.
    apply ConsumeActivation_run; try done. by apply holds_secret_run.
  - intros secret w2 w3 dev ops faults (r & Hr & Hc)%ConsumeActivation_Ok secret' w4 dev'.
    destruct (run_device_ops_rel uuid_input registry_later ops (mkEnv faults (e_state w3))
      registry_later_step) as (_ & _ & Hreq).
    destruct (Hreq _ _ Hr) as (r' & Hr' & _ & _ & Hst). rewrite Hc in Hst.
    destruct Hst as (_ & _ & _ & Hst); [done|]. eapply ConsumeActivation_refused; [exact Hr'|]. naive_solver.
Qed.
End activation.

(** ** A fleet of one device *)

Module SampleFleet.
Import SampleKeys.
Definition any_text : string → bool := λ _, true.
Definition noon : Z := 1000 * second.
Definition enrolment : list (Z * device_op) :=
  [(noon, OpProvision "r-1" "t-1" "AIS" "agency" "mast" (EncodeToString StdEncoding seed) ∅ "maker");
   (noon, OpApprove "d-1" (Some seed) "t-1" "r-1" "checker" 0)].
Definition requested : env device_store := run_device_ops any_text (take 1 enrolment) (mkEnv [] empty_device_store).
Definition enrolled : env device_store := run_device_ops any_text enrolment (mkEnv [] empty_device_store).
Definition device : Device := mkDevice "d-1" "t-1" "AIS" "agency" "mast" StatusActive 1 ∅ "maker" noon noon.
Definition device_key : Key := mkKey "d-1" 1 seed KeyCurrent noon.
Definition revoking : list (Z * device_op) := [(noon, OpStatus "t-1" "d-1" StatusRevoked "admin")].
Definition report : VesselPositionReported :=
  mkVPR "p-1" "636012345" "AIS" 5 5 0 0 None None "high" noon "" None "RESTRICTED" "" "" "".
Definition api : API := mkAPI private "manifest-1" 0 hour.
End SampleFleet.

#[local] Existing Instance SampleKeys.keys.
#[local] Existing Instance SampleKeys.texts.
#[local] Existing Instance SampleDevice.device_texts.
Import SampleFleet.

Lemma enrolled_trusted : trusted hour noon (registry (e_state enrolled)) "d-1" 1 device device_key.
Proof. split; [vm_compute; reflexivity..|left; split; vm_compute; reflexivity]. Qed.
Lemma enrolled_genuine :
  genuine hour noon (registry (e_state enrolled)) "d-1" "text" SampleDevice.signed device device_key.
Proof. split; [vm_compute; reflexivity..|exact enrolled_trusted|vm_compute; reflexivity]. Qed.

Lemma telemetry_accepted_exactly_witness :
  ∃ w', VerifyTelemetry any_text hour noon "d-1" "text" (mkEnv [] (e_state enrolled)) =
          (w', Ok (Ok (SampleDevice.signed, mkVerified device 1))).
Proof.
  apply (telemetry_accepted_exactly any_text hour noon "d-1" "text" (e_state enrolled)); [reflexivity|].
  exists device, device_key. split; [exact enrolled_genuine|vm_compute; reflexivity].
Defined.

Lemma revocation_is_final_witness :
  revoked (registry (e_state (run_device_ops any_text (enrolment ++ revoking) (mkEnv [] empty_device_store)))) "d-1" 1 ∧
  ∀ w' v, VerifyTelemetry any_text hour noon "d-1" "text"
    (run_device_ops any_text [] (mkEnv [] (e_state (run_device_ops any_text (enrolment ++ revoking) (mkEnv [] empty_device_store)))))
    ≠ (w', Ok (Ok (SampleDevice.signed, v))).
Proof.
  assert (revoked (registry (e_state (run_device_ops any_text (enrolment ++ revoking) (mkEnv [] empty_device_store)))) "d-1" 1)
    as Hr by (left; eexists; split; vm_compute; reflexivity).
  split; [exact Hr|]. intros w' v H.
  destruct (revocation_is_final any_text hour (enrolment ++ revoking) [] [] [] noon "d-1" "text" "" "" "d-1" 1 Hr) as [Ht _].
  apply (Ht _ _ _ H). vm_compute. reflexivity.
Defined.

Lemma telemetry_published_is_genuine_witness :
  ∃ f, published (e_state (ingestTelemetry any_text (λ _, Some report) (λ _, None) api noon "d-1" "text"
                             (mkEnv [] (e_state enrolled))).1) = [f] ∧ fw_device f = "d-1".
Proof.
  destruct (telemetry_published_is_genuine any_text (λ _, Some report) (λ _, None) api noon "d-1" "text"
    (mkEnv [] (e_state enrolled)) eq_refl) as [_ Hf].
  exists (record_of SampleDevice.signed device (PVesselPosition report) "RESTRICTED"). split; [|reflexivity].
  specialize (Hf (record_of SampleDevice.signed device (PVesselPosition report) "RESTRICTED")).
  replace [record_of SampleDevice.signed device (PVesselPosition report) "RESTRICTED"]
    with (published (e_state enrolled) ++ [record_of SampleDevice.signed device (PVesselPosition report) "RESTRICTED"])
    by (vm_compute; reflexivity).
  apply Hf. exists SampleDevice.signed, device, device_key, (PVesselPosition report), "RESTRICTED".
  split; [exact enrolled_genuine|split; vm_compute; reflexivity].
Defined.

Lemma activation_secret_works_once_witness :
  (ConsumeActivation any_text "r-1" (EncodeToString RawURLEncoding SampleKeys.seed) (mkEnv [] (e_state enrolled))).2 = Ok "d-1".
Proof.
  destruct (ApproveRequest any_text noon "d-1" (Some SampleKeys.seed) "t-1" "r-1" "checker" 0 requested) as [w1 [a|e]] eqn:E;
    [|vm_compute in E; discriminate E].
  assert (a = mkApproval "r-1" "d-1" 1 (EncodeToString RawURLEncoding SampleKeys.seed) ∧ w1 = enrolled) as [-> ->]
    by (vm_compute in E; injection E as <- <-; split; vm_compute; reflexivity).
  apply (activation_secret_works_once any_text noon "d-1" SampleKeys.seed "t-1" "r-1" "checker" 0 requested enrolled
    (mkApproval "r-1" "d-1" 1 (EncodeToString RawURLEncoding SampleKeys.seed))) with (ops := []).
  - unfold is_byte. apply Forall_fmap, Forall_forall. intros n Hn%elem_of_seq. cbn. lia.
  - reflexivity.
  - exact E.
  - discriminate.
  - constructor.
Defined.
