(* ===== verification/Decode.v ===== *)
(** * AIS decoding

    [internal/decode/decode.go]: sentences to normalized fixed-point frames.  The
    sentence parser and its reassembly buffer belong to a third-party library and
    are the interface [AisCodec], with the packet types it returns; the conversions
    and the choice of the frame are the code's. *)
From S2P Require Import Prelude GoTime GoFloat Types.

(** ** Conversions *)

(** What a conversion gives for a value its type cannot hold, which the language
    leaves to the implementation. *)
Class FloatToInt := {
  int32_overflow : float64 → Z;
  uint32_overflow : float64 → Z;
}.
(** [math.RoundToEven] of a finite float. *)
Definition f_round_even (x : float64) : option Z :=
  match x with
  | S754_finite s m e =>
      let sign := if s then -1 else 1 in
      if 0 <=? e then Some (sign * (Zpos m * 2 ^ e))
      else
        let q := Zpos m / 2 ^ (- e) in
        let r := Zpos m mod 2 ^ (- e) in
        Some (sign * (if 2 * r <? 2 ^ (- e) then q
                      else if 2 ^ (- e) <? 2 * r then q + 1
                      else if Z.even q then q else q + 1))
  | _ => f_round x
  end.
Section conversions.
Context `{FloatToInt}.
Definition to_int32 (z : option Z) (x : float64) : Z :=
  match z with
  | Some z => if (- 2 ^ 31 <=? z) && (z <? 2 ^ 31) then z else int32 (int32_overflow x)
  | None => int32 (int32_overflow x)
  end.
Definition to_uint32 (z : option Z) (x : float64) : Z :=
  match z with
  | Some z => if (0 <=? z) && (z <? 2 ^ 32) then z else uint32 (uint32_overflow x)
  | None => uint32 (uint32_overflow x)
  end.
(** [int32(math.Round(x))] and [uint32(math.Round(x))]. *)
Definition int32_round (x : float64) : Z := to_int32 (f_round x) x.
Definition uint32_round (x : float64) : Z := to_uint32 (f_round x) x.

(** [fmt.Sprintf("%0<n>d", v)] of a value that is not negative. *)
Definition show_padded (n : nat) (v : Z) : string :=
  if v <? 10 ^ Z.of_nat n then show_pad n v else show_dec v.
Definition mmsiString (userID : Z) : string := show_padded 9 userID.
Definition imoString (imo : Z) : string := if imo =? 0 then "" else show_padded 7 imo.
Definition million : float64 := f_of_Z 1000000.
Definition latFineToMicros (value : float64) : Z := int32_round (f_mul value million).
Definition lonFineToMicros (value : float64) : Z := int32_round (f_mul value million).
Definition latCoarseToMicros (value : float64) : Z := int32_round (f_mul value million).
Definition lonCoarseToMicros (value : float64) : Z := int32_round (f_mul value million).
Definition knotsToMilliknots (knots : float64) : Z := uint32_round (f_mul knots (f_of_Z 1000)).
Definition degreesToMillidegrees (degrees : float64) : Z := uint32_round (f_mul degrees (f_of_Z 1000)).
Definition headingToMillidegrees (heading : Z) : option Z :=
  if 360 <? heading then None else Some (uint32 (heading * 1000)).
Definition draughtToMillimetres (metres : float64) : Z := uint32_round (f_mul metres (f_of_Z 1000)).
Definition accuracy (high : bool) : string := if high then "HIGH" else "LOW".
Definition epfsType (fixType : Z) : string :=
  if fixType =? 1 then "GPS"
  else if fixType =? 2 then "GLONASS"
  else if fixType =? 3 then "COMBINED_GPS_GLONASS"
  else if fixType =? 4 then "LORAN_C"
  else if fixType =? 5 then "CHAYKA"
  else if fixType =? 6 then "INTEGRATED_NAVIGATION"
  else if fixType =? 7 then "OBSERVED"
  else if fixType =? 8 then "GALILEO"
  else if fixType =? 15 then "INTERNAL_GNSS"
  else "UNSPECIFIED".
(** [strings.TrimRight(strings.TrimSpace(value), "@")]. *)
Definition cleanAisText (value : string) : string := trim_right ["@"] (TrimSpace value).
End conversions.

(** ** What the library returns *)

Record Dimension := mkDimension { dim_A : Z; dim_B : Z; dim_C : Z; dim_D : Z }.
Record FieldETA := mkETA { eta_Month : Z; eta_Day : Z; eta_Hour : Z; eta_Minute : Z }.
(** The members the decoder reads; a position report has a navigational status
    when its class has one. *)
Record ais_position := mkAisPosition {
  aq_Valid : bool; aq_MessageID : Z; aq_UserID : Z; aq_Latitude : float64; aq_Longitude : float64;
  aq_Sog : float64; aq_Cog : float64; aq_TrueHeading : Z; aq_NavigationalStatus : Z; aq_PositionAccuracy : bool }.
Record ais_extended := mkAisExtended {
  ax_position : ais_position; ax_Name : string; ax_Type : Z; ax_Dimension : Dimension; ax_FixType : Z }.
(** Message 27: speed and course in whole units. *)
Record ais_long_range := mkAisLongRange {
  al_Valid : bool; al_MessageID : Z; al_UserID : Z; al_Latitude : float64; al_Longitude : float64;
  al_Sog : Z; al_Cog : Z; al_NavigationalStatus : Z; al_PositionAccuracy : bool }.
Record ais_static := mkAisStatic {
  as_Valid : bool; as_MessageID : Z; as_UserID : Z; as_ImoNumber : Z; as_CallSign : string; as_Name : string;
  as_Type : Z; as_Dimension : Dimension; as_FixType : Z; as_Eta : FieldETA; as_MaximumStaticDraught : float64;
  as_Destination : string }.
Record ais_part_b := mkPartB { pb_CallSign : string; pb_ShipType : Z; pb_Dimension : Dimension; pb_FixType : Z }.
Record ais_static_part := mkAisStaticPart {
  at_Valid : bool; at_MessageID : Z; at_UserID : Z; at_PartNumber : bool; at_NameA : string; at_ReportB : ais_part_b }.
Inductive ais_packet :=
| AisPositionReport (m : ais_position)
| AisStandardClassB (m : ais_position)
| AisExtendedClassB (m : ais_extended)
| AisLongRange (m : ais_long_range)
| AisShipStaticData (m : ais_static)
| AisStaticDataReport (m : ais_static_part)
| AisOther (header : option Z).
Record ais_sentence := mkAisSentence { sn_Source : string; sn_Time : Z; sn_Packet : ais_packet }.

(** The codec with its reassembly buffer: a sentence is an error, a fragment that
    is kept, or completes a message. *)
Class AisCodec := {
  codec : Type;
  NewCodec : codec;
  ParseSentence : codec → string → codec * option (option ais_sentence);
}.

(** ** Frames *)

Record PositionFrame := mkPositionFrame {
  pf_MMSI : string; pf_LatitudeMicros : Z; pf_LongitudeMicros : Z; pf_Speed : Z; pf_Course : Z;
  pf_Heading : option Z; pf_NavStatus : option Z; pf_PositionAccuracy : string; pf_AISMessageType : Z;
  pf_ShipName : string }.
Record StaticFrame := mkStaticFrame {
  sf_MMSI : string; sf_IMO : string; sf_Callsign : string; sf_ShipName : string; sf_ShipTypeCode : Z;
  sf_Dimension : Dimension; sf_DraughtMillimetres : Z; sf_Destination : string; sf_ETA : option Z;
  sf_EpfsType : string; sf_AISMessageType : Z }.
Record DecodedFrame := mkFrame {
  fr_TagBlock : string; fr_ReceiverID : string; fr_TagUnixSeconds : Z;
  fr_Position : option PositionFrame; fr_Static : option StaticFrame }.

Inductive decode_error :=
| SentenceEmpty | TagBlockUnterminated | SentenceUnreadable | ErrIncompleteFragment
| PayloadInvalid | HeaderMissing | MessageTypeUnsupported (id : Z).

Section decoder.
Context `{FloatToInt} `{AisCodec}.

(** The year is that of the decoder's clock. *)
Definition etaToTime (now : Z) (eta : FieldETA) : option Z :=
  if (eta_Month eta =? 0) || (eta_Day eta =? 0) then None
  else Some (time_Date_at (time_Year now) (eta_Month eta) (eta_Day eta) (eta_Hour eta) (eta_Minute eta) 0).

Definition position_frame (m : ais_position) (nav : option Z) (name : string) : PositionFrame :=
  mkPositionFrame (mmsiString (aq_UserID m)) (latFineToMicros (aq_Latitude m)) (lonFineToMicros (aq_Longitude m))
    (knotsToMilliknots (aq_Sog m)) (degreesToMillidegrees (aq_Cog m)) (headingToMillidegrees (aq_TrueHeading m)) nav
    (accuracy (aq_PositionAccuracy m)) (aq_MessageID m) name.

(** The frame of a packet. *)
Definition frame_of (now : Z) (tagBlock : string) (s : ais_sentence) : result decode_error DecodedFrame :=
  let frame := mkFrame tagBlock (sn_Source s) (sn_Time s) in
  match sn_Packet s with
  | AisPositionReport m =>
      if negb (aq_Valid m) then Err PayloadInvalid
      else Ok (frame (Some (position_frame m (Some (aq_NavigationalStatus m)) "")) None)
  | AisStandardClassB m =>
      if negb (aq_Valid m) then Err PayloadInvalid else Ok (frame (Some (position_frame m None "")) None)
  | AisExtendedClassB x =>
      let m := ax_position x in
      if negb (aq_Valid m) then Err PayloadInvalid
      else Ok (frame (Some (position_frame m None (cleanAisText (ax_Name x))))
                 (Some (mkStaticFrame (mmsiString (aq_UserID m)) "" "" (cleanAisText (ax_Name x)) (ax_Type x)
                          (ax_Dimension x) 0 "" None (epfsType (ax_FixType x)) (aq_MessageID m))))
  | AisLongRange m =>
      if negb (al_Valid m) then Err PayloadInvalid
      else Ok (frame (Some (mkPositionFrame (mmsiString (al_UserID m)) (latCoarseToMicros (al_Latitude m))
                              (lonCoarseToMicros (al_Longitude m)) (uint32 (al_Sog m * 1000)) (uint32 (al_Cog m * 1000))
                              None (Some (al_NavigationalStatus m)) (accuracy (al_PositionAccuracy m)) (al_MessageID m) ""))
                 None)
  | AisShipStaticData m =>
      if negb (as_Valid m) then Err PayloadInvalid
      else Ok (frame None
                 (Some (mkStaticFrame (mmsiString (as_UserID m)) (imoString (as_ImoNumber m)) (cleanAisText (as_CallSign m))
                          (cleanAisText (as_Name m)) (as_Type m) (as_Dimension m)
                          (draughtToMillimetres (as_MaximumStaticDraught m)) (cleanAisText (as_Destination m))
                          (etaToTime now (as_Eta m)) (epfsType (as_FixType m)) (as_MessageID m))))
  | AisStaticDataReport m =>
      if negb (at_Valid m) then Err PayloadInvalid
      else
        let b := at_ReportB m in
        Ok (frame None
              (Some (if at_PartNumber m
                     then mkStaticFrame (mmsiString (at_UserID m)) "" (cleanAisText (pb_CallSign b)) "" (pb_ShipType b)
                            (pb_Dimension b) 0 "" None (epfsType (pb_FixType b)) (at_MessageID m)
                     else mkStaticFrame (mmsiString (at_UserID m)) "" "" (cleanAisText (at_NameA m)) 0
                            (mkDimension 0 0 0 0) 0 "" None "" (at_MessageID m))))
  | AisOther None => Err HeaderMissing
  | AisOther (Some id) => Err (MessageTypeUnsupported id)
  end.

Definition backslash : char := char_of 92.
(** The text up to and with the next backslash. *)
Fixpoint through_backslash (s : string) : option string :=
  match s with
  | EmptyString => None
  | String c s' => if Ascii.eqb c backslash then Some (String c "") else String c <$> through_backslash s'
  end.
Definition tag_block (sentence : string) : option string :=
  match sentence with
  | String c rest => if Ascii.eqb c backslash then String c <$> through_backslash rest else Some ""
  | EmptyString => Some ""
  end.

Definition Sentence (c : codec) (now : Z) (sentence : string) : codec * result decode_error DecodedFrame :=
  let sentence := TrimSpace sentence in
  if String.eqb sentence "" then (c, Err SentenceEmpty)
  else
    match tag_block sentence with
    | None => (c, Err TagBlockUnterminated)
    | Some tagBlock =>
        let '(c', parsed) := ParseSentence c sentence in
        (c', match parsed with
             | None => Err SentenceUnreadable
             | Some None => Err ErrIncompleteFragment
             | Some (Some s) => frame_of now tagBlock s
             end)
    end.
End decoder.
