(* ===== verification/Hub.v ===== *)
(** * The SSE fan-out hub

    [internal/realtime/hub.go]: the sharded registry of subscribers with bounded
    queues, the non-blocking publish, subscription, cancellation and shutdown, the
    pipeline adapter and the SSE writer loop.  A shard's critical section is
    atomic; a publish is one critical section per shard, so the operations of other
    goroutines can fall between them: the steps below interleave freely. *)
From S2P Require Import Prelude Classification.

Record Event := mkEvent {
  Type_ : string;
  e_Classification : string;
  e_OccurredAt : Z;
  e_Payload : string;
}.

Record subscriber := mkSub { cleared : gset string }.
(** A channel: what is buffered and whether it was closed. *)
Record chan := mkChan { buffer : list Event; closed : bool }.

Definition hubShardCount : Z := 16.
Definition queue_size : nat := 64.

Record Hub := mkHub {
  (** by shard, then by subscriber id *)
  shards : gmap Z (gmap Z subscriber);
  chans : gmap Z chan;
  nextID : Z;
}.

Definition shard_of (id : Z) : Z := id mod hubShardCount.
Definition NewHub : Hub := mkHub ∅ ∅ 0.
Definition shard (h : Hub) (i : Z) : gmap Z subscriber := default ∅ (shards h !! i).

(** ** One shard's critical section of [Publish] *)

Definition wants (ev : Event) (s : subscriber) : bool := bool_decide (e_Classification ev ∈ cleared s).
Definition full (h : Hub) (id : Z) : bool :=
  match chans h !! id with Some c => (queue_size <=? length (buffer c))%nat | None => true end.
(** The select: send when there is room, else close the channel. *)
Definition send_or_close (ev : Event) (c : chan) : chan :=
  if (queue_size <=? length (buffer c))%nat then mkChan (buffer c) true
  else mkChan (buffer c ++ [ev]) (closed c).

Definition publish_shard (ev : Event) (i : Z) (h : Hub) : Hub :=
  let subs := shard h i in
  mkHub (<[i := filter (λ x, wants ev x.2 && full h x.1 = false) subs]> (shards h))
        (map_imap (λ id c, Some (match subs !! id with
                                 | Some s => if wants ev s then send_or_close ev c else c
                                 | None => c end)) (chans h))
        (nextID h).

(** The number of subscribers the shard dropped. *)
Definition dropped_in (ev : Event) (i : Z) (h : Hub) : nat :=
  size (filter (λ x, wants ev x.2 && full h x.1 = true) (shard h i)).

Definition all_shards : list Z := [0; 1; 2; 3; 4; 5; 6; 7; 8; 9; 10; 11; 12; 13; 14; 15].

(** The whole call when no other goroutine interferes: the hub, the number of
    subscribers dropped and the gauge of those left. *)
Definition publish_step (ev : Event) (acc : Hub * nat * nat) (i : Z) : Hub * nat * nat :=
  let '(h, dropped, count) := acc in
  let h' := publish_shard ev i h in
  (h', dropped + dropped_in ev i h, count + size (shard h' i))%nat.
Definition Publish (ev : Event) (h : Hub) : Hub * nat * nat :=
  if String.eqb (Type_ ev) "" then (h, 0%nat, 0%nat)
  else fold_left (publish_step ev) all_shards (h, 0%nat, 0%nat).

(** ** Subscriptions *)

(** The number is drawn and the subscriber entered in one step; in the code another call can
    come between the two, which only changes the order in which numbers enter. *)
Definition Subscribe (clearedLabels : list string) (h : Hub) : Hub * Z :=
  let id := uint64 (nextID h + 1) in
  let i := shard_of id in
  (mkHub (<[i := <[id := mkSub (list_to_set clearedLabels)]> (shard h i)]> (shards h))
         (<[id := mkChan [] false]> (chans h)) id, id).

(** The cancel function: closes and removes a subscriber that is still
    registered; [sync.Once] makes repeated calls no-ops, as the test does. *)
Definition cancel (id : Z) (h : Hub) : Hub :=
  let i := shard_of id in
  match shard h i !! id with
  | None => h
  | Some _ => mkHub (<[i := delete id (shard h i)]> (shards h))
                (alter (λ c, mkChan (buffer c) true) id (chans h)) (nextID h)
  end.

Definition SubscriberCount (h : Hub) : nat :=
  fold_left (λ total i, total + size (shard h i))%nat all_shards 0%nat.

Definition shutdown_shard (i : Z) (h : Hub) : Hub :=
  mkHub (<[i := ∅]> (shards h))
        (map_imap (λ id c, Some (match shard h i !! id with
                                 | Some _ => mkChan (buffer c) true | None => c end)) (chans h))
        (nextID h).
Definition Shutdown (h : Hub) : Hub := fold_left (λ h i, shutdown_shard i h) all_shards h.

(** A receive from the channel of [id]: the first buffered event. *)
Definition receive (id : Z) (h : Hub) : option (Hub * Event) :=
  match chans h !! id with
  | Some (mkChan (ev :: rest) c) => Some (mkHub (shards h) (<[id := mkChan rest c]> (chans h)) (nextID h), ev)
  | _ => None
  end.

(** ** The pipeline adapter *)

(** [encoded] is the marshalled payload; [None] when marshalling fails.  The
    boolean says whether the drop metric was incremented instead. *)
Definition BroadcastPipeline (h : Hub) (eventType classification : string) (occurredAt : Z)
  (encoded : option string) : Hub * bool :=
  match ParseClassification classification with
  | Err _ => (h, true)
  | Ok _ =>
      match encoded with
      | None => (h, true)
      | Some raw => ((Publish (mkEvent eventType classification occurredAt raw) h).1.1, false)
      end
  end.

(** ** The SSE writer loop *)

Inductive sse_input := SseDone | SseEvent (ev : Event) | SseClosed | SseHeartbeat (now : Z).
Inductive sse_frame := FrameOpening | FrameEvent (ev : Event) | FrameSlowConsumer | FrameHeartbeat (now : Z).

Fixpoint sse_loop (inputs : list sse_input) : list sse_frame :=
  match inputs with
  | [] => []
  | SseDone :: _ => []
  | SseEvent ev :: rest => FrameEvent ev :: sse_loop rest
  | SseClosed :: _ => [FrameSlowConsumer]
  | SseHeartbeat t :: rest => FrameHeartbeat t :: sse_loop rest
  end.
Definition ServeSSE (inputs : list sse_input) : list sse_frame := FrameOpening :: sse_loop inputs.

(** ** Interleavings

    The atomic actions of concurrent goroutines, with a record of what each did. *)
Inductive action :=
| APublish (i : Z) (ev : Event)
| ASubscribe (id : Z) (labels : list string)
| ACancel (id : Z)
| AReceive (id : Z) (ev : Event)
| AShutdown (i : Z).

Inductive hub_run : list action → Hub → Prop :=
| run_start : hub_run [] NewHub
| run_publish tr h i ev :
    hub_run tr h → i ∈ all_shards → Type_ ev ≠ "" →
    hub_run (tr ++ [APublish i ev]) (publish_shard ev i h)
| run_subscribe tr h labels h' id :
    hub_run tr h → Subscribe labels h = (h', id) → id < 2 ^ 64 - 1 →
    hub_run (tr ++ [ASubscribe id labels]) h'
| run_cancel tr h id :
    hub_run tr h → hub_run (tr ++ [ACancel id]) (cancel id h)
| run_receive tr h id h' ev :
    hub_run tr h → receive id h = Some (h', ev) → hub_run (tr ++ [AReceive id ev]) h'
| run_shutdown tr h i :
    hub_run tr h → i ∈ all_shards → hub_run (tr ++ [AShutdown i]) (shutdown_shard i h).
