(* ===== verification/HubProps.v ===== *)
(** * Properties of the hub

    An invariant of every interleaving: bounded queues, delivery in order without
    gaps until a drop, no send on a closed channel, and clearance. *)
From S2P Require Import Prelude Classification Hub.

(** ** What a subscriber is owed, read off the trace *)

(** The labels of [id]'s subscription and the cleared events published to its
    shard since. *)
Definition owe (id : Z) (st : option (list string * list Event)) (a : action) :
  option (list string * list Event) :=
  match a with
  | ASubscribe id' ls => if id' =? id then Some (ls, []) else st
  | APublish i ev =>
      match st with
      | Some (ls, evs) =>
          if (i =? shard_of id) && bool_decide (e_Classification ev ∈ ls) then Some (ls, evs ++ [ev]) else st
      | None => None
      end
  | _ => st
  end.
Definition due (id : Z) (tr : list action) : option (list string * list Event) := fold_left (owe id) tr None.

Definition received_by (id : Z) (a : action) : list Event :=
  match a with AReceive id' ev => if id' =? id then [ev] else [] | _ => [] end.
Definition received (id : Z) (tr : list action) : list Event := concat (received_by id <$> tr).

Lemma due_snoc id tr a : due id (tr ++ [a]) = owe id (due id tr) a.
Proof. unfold due. by rewrite fold_left_app. Qed.
Lemma received_snoc id tr a : received id (tr ++ [a]) = received id tr ++ received_by id a.
Proof. unfold received. rewrite fmap_app, concat_app. simpl. by rewrite app_nil_r. Qed.

Definition registered (h : Hub) (id : Z) : Prop := is_Some (shard h (shard_of id) !! id).

(** ** The invariant *)

Record hub_inv (tr : list action) (h : Hub) : Prop := {
  inv_ids : ∀ id, is_Some (due id tr) → 1 ≤ id ≤ nextID h;
  inv_chan : ∀ id, is_Some (chans h !! id) ↔ is_Some (due id tr);
  inv_home : ∀ i id s, shard h i !! id = Some s →
    i = shard_of id ∧ ∃ ls evs, due id tr = Some (ls, evs) ∧ cleared s = list_to_set ls;
  inv_open : ∀ id c, chans h !! id = Some c → closed c = false ↔ registered h id;
  inv_queue : ∀ id c, chans h !! id = Some c → (length (buffer c) ≤ queue_size)%nat;
  inv_prefix : ∀ id c ls evs, chans h !! id = Some c → due id tr = Some (ls, evs) →
    received id tr ++ buffer c `prefix_of` evs;
  inv_exact : ∀ id c ls evs, chans h !! id = Some c → due id tr = Some (ls, evs) →
    registered h id → received id tr ++ buffer c = evs;
  inv_next : 0 ≤ nextID h < 2 ^ 64 - 1;
  inv_unknown : ∀ id, due id tr = None → received id tr = [];
}.

Lemma shard_insert S C n i m j :
  shard (mkHub (<[i := m]> S) C n) j = if decide (i = j) then m else shard (mkHub S C n) j.
Proof.
  unfold shard. simpl. case_decide; subst; [by rewrite lookup_insert_eq|by rewrite lookup_insert_ne].
Qed.

Lemma due_cleared id tr ls evs :
  due id tr = Some (ls, evs) → Forall (λ ev, e_Classification ev ∈ ls) evs.
Proof.
  revert ls evs. induction tr as [|a tr IH] using rev_ind; intros ls evs; [done|].
  rewrite due_snoc. destruct a; simpl; try done; try apply IH.
  - destruct (due id tr) as [[ls0 evs0]|]; [|done]. destruct (_ && _) eqn:E.
    + intros [= <- <-]. rewrite Forall_app, Forall_singleton. bool_to_prop.
      split; [by apply IH|]. by eapply bool_decide_eq_true_1.
    + intros [= <- <-]. by apply IH.
  - destruct (_ =? _); [by intros [= <- <-]|apply IH].
Qed.

(** The channel and registration of one subscriber after a shard's publish. *)
Lemma publish_shard_chan ev i h id :
  chans (publish_shard ev i h) !! id =
  (λ c, match shard h i !! id with
        | Some s => if wants ev s then send_or_close ev c else c | None => c end) <$> chans h !! id.
Proof. unfold publish_shard. simpl. rewrite map_lookup_imap. by destruct (chans h !! id). Qed.

Lemma publish_shard_lookup ev i h j id s :
  shard (publish_shard ev i h) j !! id = Some s ↔
  shard h j !! id = Some s ∧ (i = j → wants ev s && full h id = false).
Proof.
  unfold publish_shard. rewrite shard_insert. case_decide as Hij.
  - subst j. rewrite map_lookup_filter_Some. simpl. naive_solver.
  - unfold shard. simpl. naive_solver.
Qed.

Section publish.
Context (tr : list action) (h : Hub) (Hinv : hub_inv tr h) (i : Z) (ev : Event).

(** A subscriber of the shard that the event is cleared for. *)
Lemma publish_cases id c ls evs :
  chans h !! id = Some c → due id tr = Some (ls, evs) →
  (∃ s, shard h i !! id = Some s ∧ i = shard_of id ∧ cleared s = list_to_set ls) ∨
  shard h i !! id = None.
Proof using Type*.
  intros Hc Hd. destruct (shard h i !! id) as [s|] eqn:Es; [left|by right].
  destruct (inv_home _ _ Hinv _ _ _ Es) as (Hi & ls' & evs' & Hd' & Hs). simplify_eq. eauto.
Qed.

Lemma publish_registered id :
  registered (publish_shard ev i h) id ↔
  ∃ s, shard h (shard_of id) !! id = Some s ∧ (i = shard_of id → wants ev s && full h id = false).
Proof using Type.
  unfold registered, is_Some. setoid_rewrite publish_shard_lookup. done.
Qed.

Lemma publish_delivery id c ls evs :
  chans (publish_shard ev i h) !! id = Some c → due id (tr ++ [APublish i ev]) = Some (ls, evs) →
  received id tr ++ buffer c `prefix_of` evs ∧
  (registered (publish_shard ev i h) id → received id tr ++ buffer c = evs).
Proof using Type*.
  rewrite publish_shard_chan, due_snoc. intros (c0 & Hc & Hc0)%fmap_Some. simpl.
  assert (is_Some (due id tr)) as [[ls0 evs0] Hd] by (apply (inv_chan _ _ Hinv); eauto). rewrite Hd.
  pose proof (inv_prefix _ _ Hinv _ _ _ _ Hc Hd) as Hp. pose proof (inv_exact _ _ Hinv _ _ _ _ Hc Hd) as He.
  rewrite publish_registered.
  destruct (publish_cases id c0 ls0 evs0 Hc Hd) as [(s & Hs & Hi & Hls)|Hn].
  - rewrite Hs in Hc0. assert (Hreg : registered h id) by (unfold registered; rewrite <- Hi, Hs; eauto).
    specialize (He Hreg). rewrite (proj2 (Z.eqb_eq _ _)) by done. simpl.
    assert (Hw : wants ev s = bool_decide (e_Classification ev ∈ ls0)).
    { unfold wants. rewrite Hls. apply bool_decide_ext, elem_of_list_to_set. }
    rewrite <- Hw. destruct (wants ev s) eqn:Ew.
    + intros [= <- <-]. unfold send_or_close in Hc0. unfold full. rewrite Hc.
      destruct (queue_size <=? length (buffer c0))%nat eqn:Eq; subst c; simpl.
      * split; [rewrite He; by apply prefix_app_r|].
        intros (s' & Hs' & Hf). rewrite <- Hi, Hs in Hs'. injection Hs' as <-.
        rewrite Ew in Hf. by specialize (Hf Hi).
      * rewrite app_assoc, He. done.
    + intros [= <- <-]. subst c. rewrite He. done.
  - rewrite Hn in Hc0. subst c. intros Hev. split.
    + destruct (_ && _); injection Hev as <- <-; [by apply prefix_app_r|done].
    + intros (s & Hs & _). rewrite He by (unfold registered; eauto).
      destruct (Z.eqb_spec i (shard_of id)) as [->|]; [congruence|]. by injection Hev.
Qed.

Lemma publish_inv : hub_inv (tr ++ [APublish i ev]) (publish_shard ev i h).
Proof using Type*.
  split.
  - intros id. rewrite due_snoc. simpl. intros Hd. apply (inv_ids _ _ Hinv).
    destruct (due id tr) as [[]|]; [eauto|by destruct Hd].
  - intros id. rewrite publish_shard_chan, fmap_is_Some, (inv_chan _ _ Hinv), due_snoc. simpl.
    destruct (due id tr) as [[ls evs]|]; [|done]. case_match; split; eauto.
  - intros j id s [Hs _]%publish_shard_lookup.
    destruct (inv_home _ _ Hinv _ _ _ Hs) as (Hj & ls & evs & Hd & Hls). split; [done|].
    rewrite due_snoc, Hd. simpl. case_match; eauto.
  - intros id c. rewrite publish_shard_chan. intros (c0 & Hc & Hc0)%fmap_Some. rewrite publish_registered.
    pose proof (inv_open _ _ Hinv id c0 Hc) as Ho.
    assert (is_Some (due id tr)) as [[ls evs] Hd] by (apply (inv_chan _ _ Hinv); eauto).
    destruct (publish_cases id c0 ls evs Hc Hd) as [(s & Hs & Hi & Hls)|Hn].
    + rewrite Hs in Hc0. assert (registered h id) as Hreg by (unfold registered; rewrite <- Hi, Hs; eauto).
      unfold full. rewrite Hc. unfold send_or_close in Hc0.
      rewrite <- Hi. destruct (wants ev s) eqn:Ew.
      * destruct (queue_size <=? length (buffer c0))%nat eqn:Eq; subst c; simpl.
        -- split; [done|]. intros (s' & Hs' & Hf). rewrite Hs in Hs'. injection Hs' as <-.
           rewrite Ew in Hf. by specialize (Hf eq_refl).
        -- split; [intros _; exists s; rewrite Ew; done|]. intros _. by apply Ho.
      * subst c. split; [intros _; exists s; rewrite Ew; done|]. intros _. by apply Ho.
    + rewrite Hn in Hc0. subst c. rewrite Ho. unfold registered. split.
      * intros [s Hs]. exists s. split; [done|]. intros ->. congruence.
      * intros (s & Hs & _). eauto.
  - intros id c. rewrite publish_shard_chan. intros (c0 & Hc & ->)%fmap_Some.
    pose proof (inv_queue _ _ Hinv id c0 Hc). repeat case_match; try done. unfold send_or_close.
    destruct (_ <=? _)%nat eqn:Eq; simpl; [done|]. apply Nat.leb_gt in Eq. rewrite length_app. simpl. lia.
  - intros id c ls evs Hc Hd. rewrite received_snoc. simpl. rewrite app_nil_r.
    by apply (publish_delivery id c ls).
  - intros id c ls evs Hc Hd Hr. rewrite received_snoc. simpl. rewrite app_nil_r.
    by apply (publish_delivery id c ls).
  - apply (inv_next _ _ Hinv).
  - intros id. rewrite due_snoc, received_snoc. simpl. rewrite app_nil_r. intros Hd.
    apply (inv_unknown _ _ Hinv). destruct (due id tr) as [[]|]; [by case_match|done].
Qed.
End publish.

(** Closing the channels of a set of subscribers and removing them. *)
Section close.
Context (tr : list action) (h h' : Hub) (Hinv : hub_inv tr h) (a : action) (gone : Z → bool).
Context (Howe : ∀ id st, owe id st a = st) (Hrecv : ∀ id, received_by id a = []).
Context (Hnext : nextID h' = nextID h).
Context (Hchans : ∀ id, chans h' !! id =
  (λ c, if gone id then mkChan (buffer c) true else c) <$> chans h !! id).
Context (Hshard : ∀ i id, shard h' i !! id = if gone id && (i =? shard_of id) then None else shard h i !! id).

Lemma close_registered id : registered h' id ↔ registered h id ∧ gone id = false.
Proof using Hshard.
  unfold registered. rewrite Hshard, Z.eqb_refl, andb_true_r. destruct (gone id); [|naive_solver].
  split; [by intros []|naive_solver].
Qed.

Lemma close_inv : hub_inv (tr ++ [a]) h'.
Proof using Type*.
  assert (Hdue : ∀ id, due id (tr ++ [a]) = due id tr) by (intros id; by rewrite due_snoc, Howe).
  assert (Hrec : ∀ id, received id (tr ++ [a]) = received id tr).
  { intros id. by rewrite received_snoc, Hrecv, app_nil_r. }
  split; intros *; rewrite ?Hdue, ?Hrec, ?Hchans, ?Hnext.
  - apply (inv_ids _ _ Hinv).
  - rewrite fmap_is_Some. apply (inv_chan _ _ Hinv).
  - rewrite Hshard. destruct (_ && _); [done|]. apply (inv_home _ _ Hinv).
  - intros (c0 & Hc & ->)%fmap_Some. rewrite close_registered, <- (inv_open _ _ Hinv _ _ Hc).
    destruct (gone _); simpl; naive_solver.
  - intros (c0 & Hc & ->)%fmap_Some. pose proof (inv_queue _ _ Hinv _ _ Hc). by case_match.
  - intros (c0 & Hc & ->)%fmap_Some Hd. pose proof (inv_prefix _ _ Hinv _ _ _ _ Hc Hd). by case_match.
  - intros (c0 & Hc & ->)%fmap_Some Hd [Hr Hg]%close_registered. rewrite Hg.
    by apply (inv_exact _ _ Hinv _ _ _ _ Hc Hd).
  - apply (inv_next _ _ Hinv).
  - apply (inv_unknown _ _ Hinv).
Qed.
End close.

Lemma cancel_inv tr h id : hub_inv tr h → hub_inv (tr ++ [ACancel id]) (cancel id h).
Proof.
  intros Hinv. unfold cancel. destruct (shard h (shard_of id) !! id) as [s|] eqn:Es.
  - eapply (close_inv tr h _ Hinv (ACancel id) (λ x, x =? id)); try done.
    + intros x. simpl. destruct (Z.eqb_spec x id) as [->|].
      * by rewrite lookup_alter_eq.
      * rewrite lookup_alter_ne by done. by destruct (chans h !! x).
    + intros i x. rewrite shard_insert. destruct (Z.eqb_spec x id) as [->|]; simpl.
      * destruct (Z.eqb_spec i (shard_of id)) as [->|].
        -- rewrite decide_True by done. apply lookup_delete_eq.
        -- by rewrite decide_False by done.
      * case_decide; [subst; by rewrite lookup_delete_ne|done].
  - eapply (close_inv tr h _ Hinv (ACancel id) (λ x, false)); try done.
    intros x. by destruct (chans h !! x).
Qed.

Lemma shutdown_inv tr h i : hub_inv tr h → hub_inv (tr ++ [AShutdown i]) (shutdown_shard i h).
Proof.
  intros Hinv.
  eapply (close_inv tr h _ Hinv (AShutdown i) (λ x, bool_decide (is_Some (shard h i !! x)))); try done.
  - intros x. unfold shutdown_shard. simpl. rewrite map_lookup_imap.
    destruct (chans h !! x), (shard h i !! x) eqn:E; simpl; try done.
  - intros j x. unfold shutdown_shard. rewrite shard_insert. case_decide as Hij.
    + subst j. rewrite lookup_empty. destruct (shard h i !! x) as [s|] eqn:E.
      * rewrite bool_decide_eq_true_2 by eauto. destruct (inv_home _ _ Hinv _ _ _ E) as [-> _].
        by rewrite Z.eqb_refl.
      * by case_match.
    + destruct (shard h i !! x) as [s|] eqn:E; simpl.
      * destruct (inv_home _ _ Hinv _ _ _ E) as [-> _]. by rewrite (proj2 (Z.eqb_neq _ _)) by done.
      * done.
Qed.

Lemma subscribe_inv tr h labels h' id :
  hub_inv tr h → Subscribe labels h = (h', id) → id < 2 ^ 64 - 1 →
  hub_inv (tr ++ [ASubscribe id labels]) h'.
Proof.
  intros Hinv. pose proof (inv_next _ _ Hinv) as Hn. unfold Subscribe.
  rewrite uint64_id by (unfold is_uint64; lia). set (n := nextID h + 1). intros [= <- <-] Hlt.
  assert (Hfresh : due n tr = None).
  { destruct (due n tr) eqn:E; [|done]. pose proof (inv_ids _ _ Hinv n ltac:(rewrite E; eauto)). lia. }
  assert (Hnochan : chans h !! n = None).
  { destruct (chans h !! n) eqn:E; [|done].
    assert (is_Some (due n tr)) as [? Hx] by (apply (inv_chan _ _ Hinv); eauto). congruence. }
  assert (Hnorec : received n tr = []).
  { by apply (inv_unknown _ _ Hinv). }
  assert (Hdue : ∀ id, due id (tr ++ [ASubscribe n labels]) = if n =? id then Some (labels, []) else due id tr).
  { intros id. by rewrite due_snoc. }
  assert (Hrec : ∀ id, received id (tr ++ [ASubscribe n labels]) = received id tr).
  { intros id. by rewrite received_snoc, app_nil_r. }
  assert (Hreg : ∀ id, n ≠ id →
    registered (mkHub (<[shard_of n := <[n := mkSub (list_to_set labels)]> (shard h (shard_of n))]> (shards h))
                 (<[n := mkChan [] false]> (chans h)) n) id ↔ registered h id).
  { intros id Hne. unfold registered. rewrite shard_insert. case_decide as Hs; [|done].
    by rewrite lookup_insert_ne, Hs by done. }
  split; intros *; rewrite ?Hdue, ?Hrec; cbn [chans nextID].
  - destruct (Z.eqb_spec n id) as [<-|Hne]; [lia|]. intros Hd. pose proof (inv_ids _ _ Hinv id Hd). lia.
  - destruct (Z.eqb_spec n id) as [<-|Hne]; [rewrite lookup_insert_eq; naive_solver|].
    rewrite lookup_insert_ne by done. apply (inv_chan _ _ Hinv).
  - rewrite shard_insert. case_decide as Hs.
    + destruct (Z.eqb_spec n id) as [<-|Hne].
      * rewrite lookup_insert_eq. intros [= <-]. split; [done|]. by exists labels, [].
      * rewrite lookup_insert_ne by done. rewrite Hs. apply (inv_home _ _ Hinv).
    + intros Hl. destruct (inv_home _ _ Hinv _ _ _ Hl) as (Hi & ls & evs & Hd & Hc). split; [done|].
      destruct (Z.eqb_spec n id) as [<-|Hne]; [congruence|]. eauto.
  - destruct (Z.eqb_spec n id) as [<-|Hne].
    + rewrite lookup_insert_eq. intros [= <-]. simpl. split; [|done]. intros _.
      unfold registered. rewrite shard_insert, decide_True, lookup_insert_eq by done. eauto.
    + rewrite lookup_insert_ne by done. intros Hc. rewrite Hreg by done. by apply (inv_open _ _ Hinv).
  - destruct (Z.eqb_spec n id) as [<-|Hne].
    + rewrite lookup_insert_eq. intros [= <-]. simpl. lia.
    + rewrite lookup_insert_ne by done. apply (inv_queue _ _ Hinv).
  - destruct (Z.eqb_spec n id) as [<-|Hne].
    + rewrite lookup_insert_eq. intros [= <-] [= <- <-]. rewrite Hnorec. done.
    + rewrite lookup_insert_ne by done. apply (inv_prefix _ _ Hinv).
  - destruct (Z.eqb_spec n id) as [<-|Hne].
    + rewrite lookup_insert_eq. intros [= <-] [= <- <-]. by rewrite Hnorec.
    + rewrite lookup_insert_ne by done. rewrite Hreg by done. apply (inv_exact _ _ Hinv).
  - lia.
  - destruct (n =? id); [done|]. apply (inv_unknown _ _ Hinv).
Qed.

Lemma receive_inv tr h id h' ev :
  hub_inv tr h → receive id h = Some (h', ev) → hub_inv (tr ++ [AReceive id ev]) h'.
Proof.
  intros Hinv. unfold receive. destruct (chans h !! id) as [[[|ev0 rest] cl]|] eqn:Ec; try done.
  intros [= <- <-].
  assert (Hdue : ∀ x, due x (tr ++ [AReceive id ev0]) = due x tr) by (intros x; by rewrite due_snoc).
  assert (Hreg : ∀ x, registered (mkHub (shards h) (<[id := mkChan rest cl]> (chans h)) (nextID h)) x
                      ↔ registered h x) by done.
  assert (Hrec : ∀ x, received x (tr ++ [AReceive id ev0]) = received x tr ++ (if id =? x then [ev0] else [])).
  { intros x. by rewrite received_snoc. }
  split; intros *; rewrite ?Hdue, ?Hrec, ?Hreg; cbn [chans nextID].
  - apply (inv_ids _ _ Hinv).
  - rewrite <- (inv_chan _ _ Hinv). destruct (Z.eqb_spec id id0) as [<-|Hne].
    + rewrite lookup_insert_eq, Ec. split; eauto.
    + by rewrite lookup_insert_ne.
  - apply (inv_home _ _ Hinv).
  - destruct (Z.eqb_spec id id0) as [<-|Hne].
    + rewrite lookup_insert_eq. intros [= <-]. apply (inv_open _ _ Hinv id _ Ec).
    + rewrite lookup_insert_ne by done. apply (inv_open _ _ Hinv).
  - destruct (Z.eqb_spec id id0) as [<-|Hne].
    + rewrite lookup_insert_eq. intros [= <-]. pose proof (inv_queue _ _ Hinv _ _ Ec). simpl in *. lia.
    + rewrite lookup_insert_ne by done. apply (inv_queue _ _ Hinv).
  - destruct (Z.eqb_spec id id0) as [<-|Hne].
    + rewrite lookup_insert_eq. intros [= <-] Hd. rewrite <- app_assoc.
      apply (inv_prefix _ _ Hinv _ _ _ _ Ec Hd).
    + rewrite lookup_insert_ne, app_nil_r by done. apply (inv_prefix _ _ Hinv).
  - destruct (Z.eqb_spec id id0) as [<-|Hne].
    + rewrite lookup_insert_eq. intros [= <-] Hd Hr. rewrite <- app_assoc.
      apply (inv_exact _ _ Hinv _ _ _ _ Ec Hd Hr).
    + rewrite lookup_insert_ne, app_nil_r by done. apply (inv_exact _ _ Hinv).
  - apply (inv_next _ _ Hinv).
  - intros Hd. destruct (Z.eqb_spec id id0) as [<-|Hne]; [|rewrite app_nil_r; by apply (inv_unknown _ _ Hinv)].
    assert (is_Some (due id tr)) as [? Hx] by (apply (inv_chan _ _ Hinv); eauto). congruence.
Qed.

Lemma hub_run_inv tr h : hub_run tr h → hub_inv tr h.
Proof.
  induction 1.
  - split; simpl; try done; try (by intros ? []).
    intros id. rewrite lookup_empty. split; by intros [].
  - by apply publish_inv.
  - by eapply subscribe_inv.
  - by apply cancel_inv.
  - by eapply receive_inv.
  - by apply shutdown_inv.
Qed.

(** C36: On every interleaving of publishes, subscriptions, cancellations,
    receives and shutdowns (a publish of one goroutine may be interrupted between
    shards), for every subscriber: its queue holds at most 64 events; what it
    received followed by what is queued is a prefix of the cleared events published
    to its shard since it subscribed, in order and without gaps or repeats, and all
    of them while its channel is open; and every event that reaches it carries a
    label it subscribed with. *)
Theorem hub_delivers_cleared_in_order (tr : list action) (h : Hub) (id : Z) (c : chan)
  (ls : list string) (evs : list Event)
  (Hrun : hub_run tr h) (Hchan : chans h !! id = Some c) (Hdue : due id tr = Some (ls, evs)) :
  (length (buffer c) ≤ 64)%nat ∧
  received id tr ++ buffer c `prefix_of` evs ∧
  (closed c = false → received id tr ++ buffer c = evs) ∧
  Forall (λ ev, e_Classification ev ∈ ls) (received id tr ++ buffer c).
Proof.
  apply hub_run_inv in Hrun as Hinv.
  pose proof (inv_prefix _ _ Hinv _ _ _ _ Hchan Hdue) as Hp. split_and!.
  - apply (inv_queue _ _ Hinv _ _ Hchan).
  - done.
  - intros Ho. apply (inv_exact _ _ Hinv _ _ _ _ Hchan Hdue). by apply (inv_open _ _ Hinv _ _ Hchan).
  - apply due_cleared in Hdue. destruct Hp as [k ->]. by apply Forall_app in Hdue as [? _].
Qed.

(** On every interleaving, a send never meets a closed channel: every
    registered subscriber has an open channel, and only one shard ever knows it. *)
Theorem hub_never_sends_on_closed (tr : list action) (h : Hub) (i id : Z) (s : subscriber)
  (Hrun : hub_run tr h) (Hreg : shard h i !! id = Some s) :
  i = shard_of id ∧ ∃ c, chans h !! id = Some c ∧ closed c = false.
Proof.
  apply hub_run_inv in Hrun as Hinv.
  destruct (inv_home _ _ Hinv _ _ _ Hreg) as (-> & ls & evs & Hd & _). split; [done|].
  assert (is_Some (chans h !! id)) as [c Hc] by (apply (inv_chan _ _ Hinv); eauto).
  exists c. split; [done|]. apply (inv_open _ _ Hinv _ _ Hc). unfold registered. rewrite Hreg. eauto.
Qed.

Definition restricted_event : Event := mkEvent "geo.vessel-position.v1" "RESTRICTED" 0 "{}".
Definition public_event : Event := mkEvent "geo.vessel-position.v1" "PUBLIC" 0 "{}".
Definition demo_trace : list action :=
  [ASubscribe 1 ["PUBLIC"; "INTERNAL"]; APublish 1 restricted_event; APublish 1 public_event].
Definition demo_hub : Hub :=
  publish_shard public_event 1 (publish_shard restricted_event 1 (Subscribe ["PUBLIC"; "INTERNAL"] NewHub).1).

Lemma demo_run : hub_run demo_trace demo_hub.
Proof.
  unfold demo_trace, demo_hub.
  change [ASubscribe 1 ["PUBLIC"; "INTERNAL"]; APublish 1 restricted_event; APublish 1 public_event]
    with ((([] ++ [ASubscribe 1 ["PUBLIC"; "INTERNAL"]]) ++ [APublish 1 restricted_event]) ++ [APublish 1 public_event]).
  apply run_publish; [|unfold all_shards; set_solver|done].
  apply run_publish; [|unfold all_shards; set_solver|done].
  eapply run_subscribe; [apply run_start|reflexivity|done].
Qed.

Lemma hub_delivers_cleared_in_order_witness :
  let c := mkChan [public_event] false in
  (length (buffer c) ≤ 64)%nat ∧ received 1 demo_trace ++ buffer c `prefix_of` [public_event] ∧
  (closed c = false → received 1 demo_trace ++ buffer c = [public_event]) ∧
  Forall (λ ev, e_Classification ev ∈ ["PUBLIC"; "INTERNAL"]) (received 1 demo_trace ++ buffer c).
Proof.
  apply (hub_delivers_cleared_in_order demo_trace demo_hub 1 (mkChan [public_event] false)
           ["PUBLIC"; "INTERNAL"] [public_event]).
  - exact demo_run.
  - vm_compute. reflexivity.
  - vm_compute. reflexivity.
Defined.

Lemma hub_never_sends_on_closed_witness :
  1 = shard_of 1 ∧ ∃ c, chans demo_hub !! 1 = Some c ∧ closed c = false.
Proof.
  apply (hub_never_sends_on_closed demo_trace demo_hub 1 1 (mkSub (list_to_set ["PUBLIC"; "INTERNAL"]))).
  - exact demo_run.
  - vm_compute. reflexivity.
Defined.
