(* ===== verification/Pipeline.v ===== *)
(** * The ingest pipeline

    [internal/connectors/pipeline.go] and [fencev2.go], with the Kafka producer of
    [internal/bus/producer.go]: the hot path from a normalized position to the
    stores, the bus and the SSE hub.  The state holds what the path reads and
    writes; Postgres, Redis and Kafka calls are external calls with faults. *)
From S2P Require Import Prelude Types Classification Fence Dedup Sha256 GoFloat Validate Effects Store Sign.
Import Fence.Geometry Fence.Zone.

(** ** Messages *)

Definition TopicAISRaw : string := "ais.raw".
Definition TopicVesselEvents : string := "vessels.events".
Definition TopicVesselQuarantine : string := "vessels.quarantine".

Record quarantineRecord := mkQuarantine {
  q_QuarantineID : string;
  q_Reason : string;
  q_Detail : detail;
  q_SourceClass : string;
  q_MMSI : string;
  q_VesselRef : string;
  q_ReceiverID : string;
  q_Report : Position;
  q_QuarantinedAt : Z;
}.

(** What a message carries, before its JSON encoding. *)
Inductive message_value :=
| VEnvelope (e : Envelope)
| VRaw (p : Position)
| VQuarantine (q : quarantineRecord)
| VStaticQuarantine (id : string) (r : StaticReport) (at_ : Z).

Record message := mkMessage {
  m_topic : string; m_key : string; m_value : message_value; m_headers : gmap string string }.

(** ** State *)

(** The rows of [geofences] the evaluator reads; the ring is [None] when its
    stored JSON is unreadable. *)
Record FenceRow := mkFenceRow {
  fr_GeofenceID : string;
  fr_Version : Z;
  fr_TenantID : string;
  fr_Name : string;
  fr_Classification : string;
  fr_Vertices : option (list Point);
  fr_DwellThresholdSeconds : Z;
  fr_DwellSpeedGateMilliknots : Z;
  fr_State : string;
  fr_ZoneCategory : string;
  fr_CreatedBy : string;
  fr_CreatedAt : Z;
  fr_RetiredAt : option Z;
}.

Record FenceEventRow := mkFenceEventRow {
  fe_EventID : string;
  fe_GeofenceID : string;
  fe_GeofenceVersion : Z;
  fe_TenantID : string;
  fe_EventType : string;
  fe_MMSI : string;
  fe_LatitudeMicros : Z;
  fe_LongitudeMicros : Z;
  fe_Classification : string;
  fe_EnvelopeDigest : string;
  fe_OccurredAt : Z;
  fe_ZoneCategory : string;
}.

(** [FenceV2Evaluator]: [fv_fences] is [None] for the nil slice. *)
Record FenceV2 := mkFenceV2 {
  fv_engine : Engine.t;
  fv_fences : option (list Engine.Fence);
  fv_meta : gmap string FenceRow;
  fv_loadedAt : Z;
}.
Definition NewFenceV2Evaluator : FenceV2 := mkFenceV2 Engine.NewEngine None ∅ zero_time.
Definition ReloadInterval : Z := 60 * second.

(** A notification handed to the SSE hub. *)
Record broadcast := mkBroadcast { b_type : string; b_class : string; b_at : Z; b_payload : payload }.

Record world := mkWorld {
  w_db : ingest_db;
  w_fence_rows : list FenceRow;
  w_fence_events : list FenceEventRow;
  w_zones : gmap string (list string);
  w_dedup : MemRedis;
  w_kafka : list message;
  w_sse : list broadcast;
  w_tracker : Tracker;
  w_fence : FenceV2;
  w_metrics : list (string * string);
  w_now : Z;
  w_uuids : nat;
}.

Definition upd_db (d : ingest_db) (w : world) : world :=
  mkWorld d (w_fence_rows w) (w_fence_events w) (w_zones w) (w_dedup w) (w_kafka w) (w_sse w)
    (w_tracker w) (w_fence w) (w_metrics w) (w_now w) (w_uuids w).
Definition upd_fence_rows (l : list FenceRow) (w : world) : world :=
  mkWorld (w_db w) l (w_fence_events w) (w_zones w) (w_dedup w) (w_kafka w) (w_sse w)
    (w_tracker w) (w_fence w) (w_metrics w) (w_now w) (w_uuids w).
Definition upd_fence_events (l : list FenceEventRow) (w : world) : world :=
  mkWorld (w_db w) (w_fence_rows w) l (w_zones w) (w_dedup w) (w_kafka w) (w_sse w)
    (w_tracker w) (w_fence w) (w_metrics w) (w_now w) (w_uuids w).
Definition upd_zones (z : gmap string (list string)) (w : world) : world :=
  mkWorld (w_db w) (w_fence_rows w) (w_fence_events w) z (w_dedup w) (w_kafka w) (w_sse w)
    (w_tracker w) (w_fence w) (w_metrics w) (w_now w) (w_uuids w).
Definition upd_dedup (r : MemRedis) (w : world) : world :=
  mkWorld (w_db w) (w_fence_rows w) (w_fence_events w) (w_zones w) r (w_kafka w) (w_sse w)
    (w_tracker w) (w_fence w) (w_metrics w) (w_now w) (w_uuids w).
Definition upd_kafka (l : list message) (w : world) : world :=
  mkWorld (w_db w) (w_fence_rows w) (w_fence_events w) (w_zones w) (w_dedup w) l (w_sse w)
    (w_tracker w) (w_fence w) (w_metrics w) (w_now w) (w_uuids w).
Definition upd_sse (l : list broadcast) (w : world) : world :=
  mkWorld (w_db w) (w_fence_rows w) (w_fence_events w) (w_zones w) (w_dedup w) (w_kafka w) l
    (w_tracker w) (w_fence w) (w_metrics w) (w_now w) (w_uuids w).
Definition upd_tracker (t : Tracker) (w : world) : world :=
  mkWorld (w_db w) (w_fence_rows w) (w_fence_events w) (w_zones w) (w_dedup w) (w_kafka w) (w_sse w)
    t (w_fence w) (w_metrics w) (w_now w) (w_uuids w).
Definition upd_fence (f : FenceV2) (w : world) : world :=
  mkWorld (w_db w) (w_fence_rows w) (w_fence_events w) (w_zones w) (w_dedup w) (w_kafka w) (w_sse w)
    (w_tracker w) f (w_metrics w) (w_now w) (w_uuids w).
Definition upd_metrics (m : list (string * string)) (w : world) : world :=
  mkWorld (w_db w) (w_fence_rows w) (w_fence_events w) (w_zones w) (w_dedup w) (w_kafka w) (w_sse w)
    (w_tracker w) (w_fence w) m (w_now w) (w_uuids w).
Definition upd_uuids (n : nat) (w : world) : world :=
  mkWorld (w_db w) (w_fence_rows w) (w_fence_events w) (w_zones w) (w_dedup w) (w_kafka w) (w_sse w)
    (w_tracker w) (w_fence w) (w_metrics w) (w_now w) n.

Inductive perror :=
| PStore (e : store_error)
| PSign (e : sign_error)
| PKafka
| PTopicRequired
| PRefused
| PEncode
| PRedis
| PFenceCorrupt
| PFenceStore
| PFencePublish (e : perror)
| PFencePersist
| PFenceTenant.

(** Everything the pipeline is configured with. *)
Record config := mkConfig {
  c_dedup : Checker;
  c_sign : Envelope → option string;
  c_principal : Provenance;
  c_attempts : nat;
  c_publish_raw : bool;
  c_broadcast : bool;
  c_fence_v2 : bool;
}.

(** The digest stored with a crossing: the SHA-256 of the JSON of its payload. *)
Definition crossing_digest (marshal : json → string) (body : GeofenceEventRecorded) : string :=
  sha256_hex (marshal (JObj (payload_fields (PGeofenceEvent body)))).

Section pipeline.
Context `{Math} (ST_Intersects : string → string → bool).
(** The UUID generator and [json.Marshal]. *)
Context (uuid : nat → string) (marshal : json → string).
Context (cfg : config).

Abbreviation IO := (M world perror).

#[local] Instance pipeline_world : IngestWorld world := {
  db := w_db;
  set_db := upd_db;
  zone_members w k := default [] (w_zones w !! k);
  set_zone_members k l w := upd_zones (<[k := l]> (w_zones w)) w;
  fresh_id w := (upd_uuids (S (w_uuids w)) w, "gfe-" +:+ uuid (w_uuids w));
}.

Definition lift {A} (m : M world store_error A) : IO A := λ w,
  match m w with (w', Ok a) => (w', Ok a) | (w', Err e) => (w', Err (PStore e)) end.
Definition fresh : IO string := λ w,
  (mkEnv (e_faults w) (upd_uuids (S (w_uuids (e_state w))) (e_state w)), Ok (uuid (w_uuids (e_state w)))).
Definition inc (name label : string) : IO unit :=
  modify (λ w, upd_metrics (w_metrics w ++ [(name, label)]) w).
Definition when (b : bool) (m : IO unit) : IO unit := if b then m else mret tt.

(** ** The producer *)

(** The attempt loop of [Producer.Publish]: an attempt may have been written
    although it failed, and is then written again. *)
Fixpoint write_attempts (n : nat) (m : message) : IO unit :=
  match n with
  | O => fail PKafka
  | S n' =>
      r ← attempt (external PKafka (λ w, (upd_kafka (w_kafka w ++ [m]) w, tt)));
      match r with Ok _ => mret tt | Err _ => write_attempts n' m end
  end.
Definition Publish (m : message) : IO unit :=
  if blank (m_topic m) then fail PTopicRequired else write_attempts (c_attempts cfg) m.

(** ** Envelopes *)

Definition envelopeKey (p : payload) : string :=
  match p with
  | PVesselPosition v => vp_MMSI v
  | PVesselStatic v => vs_MMSI v
  | PGeofenceEvent v => if String.eqb (gr_MMSI v) "" then gr_TrackReference v else gr_MMSI v
  | PAppPosition v => ap_ReporterID v
  | PSosRaised v => so_ReporterID v
  | PSosAcknowledged v => sa_ReporterID v
  | PSosResolved v => sx_ReporterID v
  | POther _ => ""
  end.

(** [PublishSignedEnvelope]; [publish] is the case without headers. *)
Definition PublishSignedEnvelope (eventType correlationID : string) (p : payload) (occurredAt : Z)
  (classification : string) (headers : gmap string string) : IO unit :=
  match ParseClassification classification with
  | Err _ => fail PRefused
  | Ok _ =>
      b ← fresh; e ← fresh; v ← fresh;
      match NewEnvelope (Some (c_sign cfg)) eventType correlationID p occurredAt (c_principal cfg) b e v with
      | Err err => fail (PSign err)
      | Ok envelope =>
          if negb (encodable (JTime (OccurredAt envelope))) then fail PEncode
          else Publish (mkMessage TopicVesselEvents (envelopeKey p) (VEnvelope envelope)
                 (<["classification" := env_Classification envelope]> (<["event-type" := eventType]> headers)))
      end
  end.
Definition publish (eventType correlationID : string) (p : payload) (occurredAt : Z)
  (classification : string) : IO unit :=
  PublishSignedEnvelope eventType correlationID p occurredAt classification ∅.

Definition broadcast_ (eventType classification : string) (occurredAt : Z) (p : payload) : IO unit :=
  when (c_broadcast cfg)
    (modify (λ w, upd_sse (w_sse w ++ [mkBroadcast eventType classification occurredAt p]) w)).

Definition quarantine (p : Position) (f : Finding) : IO unit :=
  id ← fresh;
  now ← gets w_now;
  if negb (encodable (JTime (ObservedAt p)) && encodable (JTime now)) then fail PEncode
  else
    let record := mkQuarantine ("qrn-" +:+ id) (f_Reason f) (f_Detail f) (SourceClass p) (MMSI p)
                    (VesselRef p) (ReceiverID p) p now in
    let key := if String.eqb (MMSI p) "" then VesselRef p else MMSI p in
    Publish (mkMessage TopicVesselQuarantine key (VQuarantine record) {["reason" := f_Reason f]}).

Definition publishGeofenceEvent (e : GeofenceEvent) : IO unit :=
  let p := PGeofenceEvent (mkGER (ge_GeofenceEventID e) (ge_ZoneID e) (ge_ZoneName e) (ge_Event e)
             (ge_MMSI e) (ge_TrackReference e) (ge_LatitudeMicros e) (ge_LongitudeMicros e)
             (ge_OccurredAt e) (ge_Classification e) "" "") in
  _ ← publish EventGeofenceEvent (ge_GeofenceEventID e) p (ge_OccurredAt e) (ge_Classification e);
  _ ← inc "geo_geofence_events_total" (ge_Event e);
  broadcast_ EventGeofenceEvent (ge_Classification e) (ge_OccurredAt e) p.

(** ** The ingest-time fence engine *)

Definition mmsiPattern (value : string) : bool := digits_exactly 9 value.

Definition fence_of_row (row : FenceRow) : option Engine.Fence :=
  match fr_Vertices row with
  | None => None
  | Some vs => Some (Engine.mkFence (fr_GeofenceID row) (fr_Version row) vs
                       (fr_DwellThresholdSeconds row) (fr_DwellSpeedGateMilliknots row))
  end.

Definition zero_row : FenceRow := mkFenceRow "" 0 "" "" "" None 0 0 "" "" "" zero_time None.

(** Reading the ACTIVE rows anew; the old set stays on any failure. *)
Definition reload_fences : IO (list Engine.Fence) :=
  rows ← external PFenceStore (λ w, (w, filter (λ r, fr_State r = "ACTIVE") (w_fence_rows w)));
  match mapM fence_of_row rows with
  | None => fail PFenceCorrupt
  | Some fences =>
      _ ← modify (λ w, upd_fence (mkFenceV2 (fv_engine (w_fence w)) (Some fences)
                          (fold_left (λ m r, <[fr_GeofenceID r := r]> m) rows ∅) (w_now w)) w);
      mret fences
  end.

Definition fencesLocked : IO (list Engine.Fence) :=
  ev ← gets w_fence;
  now ← gets w_now;
  match fv_fences ev with
  | Some fs => if time_Sub now (fv_loadedAt ev) <? ReloadInterval then mret fs else reload_fences
  | None => reload_fences
  end.

Definition event_type_text (t : EventType) : string :=
  match t with EventEnter => "ENTER" | EventExit => "EXIT" | EventDwell => "DWELL" end.

Definition zoneCategoryOrGeneral (category : string) : string :=
  if blank category then "general" else category.

(** Announce, then persist, one transition.  The insert runs in a transaction of
    its own with this one statement, so it is one call that took effect or not. *)
Definition announce (p : Position) (event : Engine.Event) (row : FenceRow) : IO unit :=
  let classification := match ParseClassification (fr_Classification row) with
                        | Ok _ => fr_Classification row | Err _ => "INTERNAL" end in
  id ← fresh;
  let eventID := "gfv2-" +:+ id in
  let occurredAt := Engine.ev_OccurredAtUnix event * second in
  let category := default CategoryGeneral (NormalizeZoneCategory (fr_ZoneCategory row)) in
  let alert := ZoneAlert category (Engine.ev_Type event) in
  let body := mkGER eventID (Engine.ev_GeofenceID event) (fr_Name row)
                (event_type_text (Engine.ev_Type event)) (MMSI p) "" (LatitudeMicros p)
                (LongitudeMicros p) occurredAt classification category alert in
  let headers : gmap string string := <["producer" := "geo-fence-engine"]> {["zoneCategory" := category]} in
  let headers := if String.eqb alert "" then headers else <["alert" := alert]> headers in
  published ← attempt (PublishSignedEnvelope EventGeofenceEvent eventID (PGeofenceEvent body)
                         occurredAt classification headers);
  match published with
  | Err e => fail (PFencePublish e)
  | Ok _ =>
      if blank (fr_TenantID row) then fail PFenceTenant
      else
        external PFencePersist (λ w,
          (upd_fence_events (w_fence_events w ++
             [mkFenceEventRow eventID (Engine.ev_GeofenceID event) (Engine.ev_Version event)
                (fr_TenantID row) (event_type_text (Engine.ev_Type event)) (MMSI p) (LatitudeMicros p)
                (LongitudeMicros p) classification (crossing_digest marshal body) occurredAt
                (zoneCategoryOrGeneral category)]) w, tt))
  end.

Definition ObservePosition (p : Position) : IO unit :=
  if negb (mmsiPattern (MMSI p)) then mret tt
  else
    let speed := default (-1) (SpeedOverGroundMilliknots p) in
    fences ← fencesLocked;
    outcomes ← (λ w,
      let ev := w_fence (e_state w) in
      let '(engine', events) := Engine.Observe (fv_engine ev) (MMSI p)
            (mkPoint (LatitudeMicros p) (LongitudeMicros p)) speed (time_Unix (ObservedAt p)) fences in
      (mkEnv (e_faults w) (upd_fence (mkFenceV2 engine' (fv_fences ev) (fv_meta ev) (fv_loadedAt ev)) (e_state w)),
       Ok ((λ e, (e, default zero_row (fv_meta ev !! Engine.ev_GeofenceID e))) <$> events)));
    each (λ o, announce p o.1 o.2) outcomes.

(** ** The hot path *)

Definition with_id (p : Position) (id : string) : Position :=
  mkPosition id (MMSI p) (VesselRef p) (SourceClass p) (LatitudeMicros p) (LongitudeMicros p)
    (SpeedOverGroundMilliknots p) (CourseOverGroundMillidegrees p) (HeadingMillidegrees p) (NavStatus p)
    (PositionAccuracy p) (ReceiverID p) (AISMessageType p) (IMO p) (Callsign p) (ShipName p)
    (Types.Classification p) (ObservedAt p).

Definition report_of (p : Position) : PositionReport :=
  mkReport (MMSI p) (SourceClass p) (LatitudeMicros p) (LongitudeMicros p)
    (derefUint32 (SpeedOverGroundMilliknots p)) (derefUint32 (CourseOverGroundMillidegrees p))
    (ObservedAt p) (ReceiverID p).

Definition position_payload (p : Position) : VesselPositionReported :=
  mkVPR (PositionReportID p) (MMSI p) (SourceClass p) (LatitudeMicros p) (LongitudeMicros p)
    (derefUint32 (SpeedOverGroundMilliknots p)) (derefUint32 (CourseOverGroundMillidegrees p))
    (HeadingMillidegrees p) (NavStatus p)
    (if String.eqb (PositionAccuracy p) "" then AccuracyUnspecified else PositionAccuracy p)
    (ObservedAt p) (ReceiverID p) (AISMessageType p) (Types.Classification p) (IMO p) (Callsign p) (ShipName p).

(** Step 2: the tracker is updated whatever the verdict. *)
Definition check_consecutive (r : PositionReport) : IO (option Finding) := λ w,
  let '(t', f) := CheckConsecutive (w_tracker (e_state w)) r in
  (mkEnv (e_faults w) (upd_tracker t' (e_state w)), Ok f).

(** Step 3: true when the report is absorbed. *)
Definition check_duplicate (p : Position) (payloadKey : string) : IO bool :=
  if String.eqb payloadKey "" then mret false
  else
    r ← attempt (external PRedis (λ w,
          let '(r', (dup, _)) := IsDuplicate (c_dedup cfg) (w_dedup w) (w_now w) (MMSI p)
                                   (derefInt32 (AISMessageType p)) payloadKey in
          (upd_dedup r' w, dup)));
    match r with
    | Err _ => _ ← inc "geo_dedup_errors_total" ""; mret false
    | Ok true => _ ← inc "geo_dedup_absorbed_total" (SourceClass p); mret true
    | Ok false => mret false
    end.

(** Step 4: partition, history row, latest row. *)
Definition persist (p : Position) : IO unit :=
  _ ← lift (EnsurePositionPartitions [ObservedAt p]);
  _ ← lift (InsertPositions [p]);
  lift (UpsertLatestPosition p).

(** Steps 5 to 8. *)
Definition evaluate_and_publish (p : Position) : IO unit :=
  events ← lift (EvaluateGeofences ST_Intersects p);
  _ ← each publishGeofenceEvent events;
  _ ← when (c_publish_raw cfg && String.eqb (SourceClass p) SourceAIS)
        (if negb (encodable (JTime (ObservedAt p))) then fail PEncode
         else Publish (mkMessage TopicAISRaw (MMSI p) (VRaw p)
                (<["source-class" := SourceClass p]> {["receiver-id" := ReceiverID p]})));
  let body := position_payload p in
  _ ← publish EventVesselPosition (PositionReportID p) (PVesselPosition body) (ObservedAt p) (Types.Classification p);
  _ ← inc "geo_positions_published_total" (SourceClass p);
  _ ← when (c_fence_v2 cfg) (ObservePosition p);
  broadcast_ EventVesselPosition (Types.Classification p) (ObservedAt p) (PVesselPosition body).

Definition quarantine_all (p : Position) (fs : list Finding) : IO unit :=
  each (λ f, _ ← inc "geo_quarantine_total" (f_Reason f); quarantine p f) fs.

Definition HandlePosition (ingest : IngestPosition) : IO unit :=
  p ← (if String.eqb (PositionReportID (ip_Position ingest)) ""
       then id ← fresh; mret (with_id (ip_Position ingest) ("pos-" +:+ id))
       else mret (ip_Position ingest));
  _ ← inc "geo_positions_received_total" (SourceClass p);
  let report := report_of p in
  let findings := StaticChecks report in
  _ ← when (IsNigerianFlagged (MMSI p)) (inc "geo_positions_nigeria_mid657_total" "");
  if negb (bool_decide (findings = [])) then quarantine_all p findings
  else
    finding ← check_consecutive report;
    match finding with
    | Some f => _ ← inc "geo_quarantine_total" (f_Reason f); quarantine p f
    | None =>
        absorbed ← check_duplicate p (ip_PayloadKey ingest);
        if absorbed : bool then mret tt
        else _ ← persist p; evaluate_and_publish p
    end.

(** ** Static reports *)

Definition with_static_id (r : StaticReport) (id : string) : StaticReport :=
  mkStatic id (s_MMSI r) (s_IMO r) (s_Callsign r) (s_ShipName r) (ShipTypeCode r) (DimensionBowM r)
    (DimensionSternM r) (DimensionPortM r) (DimensionStarboardM r) (DraughtMillimetres r) (Destination r)
    (ETA r) (EpfsType r) (s_SourceClass r) (s_Classification r) (s_ObservedAt r).

Definition static_payload (r : StaticReport) : VesselStaticReported :=
  mkVSR (StaticReportID r) (s_MMSI r) (s_IMO r) (s_Callsign r) (s_ShipName r) (ShipTypeCode r)
    (DimensionBowM r) (DimensionSternM r) (DimensionPortM r) (DimensionStarboardM r)
    (DraughtMillimetres r) (Destination r) (ETA r)
    (if String.eqb (EpfsType r) "" then "UNSPECIFIED" else EpfsType r) (s_ObservedAt r)
    (s_SourceClass r) (s_Classification r).

(** The marshalling error of the static quarantine record is ignored, as in the
    code; an unencodable record would be published with an empty value. *)
Definition HandleStatic (report : StaticReport) : IO unit :=
  r ← (if String.eqb (StaticReportID report) ""
       then id ← fresh; mret (with_static_id report ("sta-" +:+ id)) else mret report);
  if negb (CheckMMSI (s_MMSI r)) then
    _ ← inc "geo_quarantine_total" ReasonMMSIFormat;
    id ← fresh;
    now ← gets w_now;
    Publish (mkMessage TopicVesselQuarantine (s_MMSI r) (VStaticQuarantine ("qrn-" +:+ id) r now) ∅)
  else
    applied ← lift (UpsertVesselStatic r);
    if negb applied then inc "geo_static_stale_dropped_total" (s_SourceClass r)
    else
      _ ← publish EventVesselStatic (StaticReportID r) (PVesselStatic (static_payload r)) (s_ObservedAt r)
            (s_Classification r);
      inc "geo_static_published_total" "".
End pipeline.
