(* ===== verification/PipelineProps.v ===== *)
(** * Properties of the ingest pipeline

    Every handled report is quarantined, absorbed as a repeat, or stored and
    announced; the store comes before the bus; whatever reaches the event topic is
    signed and labelled; and two ways in which a retry does not repair a failure. *)
From S2P Require Import Prelude Types Classification Fence Dedup GT06 GoFloat Validate Effects Store Sign Pipeline.

(** ** Frames *)

Section frames.
Context `{Math} (ST_Intersects : string → string → bool) (uuid : nat → string)
  (marshal : json → string) (cfg : config).
#[local] Existing Instance pipeline_world.

(** A state property the stores cannot see. *)
Record blind (P : world → Prop) : Prop := {
  blind_db : ∀ d w, P w → P (upd_db d w);
  blind_zones : ∀ z w, P w → P (upd_zones z w);
  blind_uuids : ∀ n w, P w → P (upd_uuids n w);
}.

Lemma keeps_lift {A} P (m : M world store_error A) : keeps P m → keeps P (lift m).
Proof using Type. intros Hm w Hw. specialize (Hm w Hw). unfold lift. by destruct (m w) as [? []]. Qed.

Section blind_ops.
Context (P : world → Prop) (HP : blind P).

Lemma keeps_exec f : keeps P (exec (H := pipeline_world uuid) f).
Proof using HP. apply keeps_external. intros s Hs. by apply (blind_db _ HP). Qed.
Lemma keeps_query {A} (f : ingest_db → A) : keeps P (query (H := pipeline_world uuid) f).
Proof using Type. by apply keeps_external. Qed.

Lemma keeps_record zones p ts : keeps P (record_transitions (H := pipeline_world uuid) zones p ts).
Proof using HP.
  induction ts as [|t ts IH]; simpl; [apply keeps_ret|].
  apply keeps_bind.
  - unfold transition_zone. case_match; [|apply keeps_ret].
    apply keeps_bind; [apply keeps_query|intros; apply keeps_ret].
  - intros [z|]; [|done]. apply keeps_bind.
    + intros w Hw. simpl. by apply (blind_uuids _ HP).
    + intros id. apply keeps_bind; [apply keeps_exec|]. intros _.
      apply keeps_bind; [done|intros; apply keeps_ret].
Qed.

Lemma keeps_tx {A} (body : M world store_error A) :
  keeps P body → keeps P (transaction w_db upd_db StoreUnavailable StoreUnavailable body).
Proof using HP. intros Hb. apply keeps_transaction_body; [done|]. intros s0 s _ Hs. by apply (blind_db _ HP). Qed.

Lemma keeps_evaluate p : keeps P (EvaluateGeofences (H := pipeline_world uuid) ST_Intersects p).
Proof using HP.
  unfold EvaluateGeofences. case_match; [apply keeps_fail|]. apply keeps_tx.
  apply keeps_bind; [apply keeps_query|]. intros zones.
  apply keeps_bind; [by apply keeps_external|]. intros prev.
  apply keeps_bind; [|intros _; apply keeps_record].
  apply keeps_external. intros s Hs. by apply (blind_zones _ HP).
Qed.

Lemma keeps_persist p : keeps P (persist uuid p).
Proof using HP.
  unfold persist. apply keeps_bind; [|intros _; apply keeps_bind; [|intros _]]; apply keeps_lift.
  - simpl. apply keeps_bind; [apply keeps_exec|intros; apply keeps_ret].
  - unfold InsertPositions. repeat case_match; try apply keeps_ret; try apply keeps_fail.
    apply keeps_bind; [apply keeps_gets|]. intros days. case_match; [apply keeps_exec|apply keeps_fail].
  - unfold UpsertLatestPosition. repeat case_match; first [apply keeps_exec|apply keeps_fail].
Qed.

Lemma keeps_static r : keeps P (UpsertVesselStatic (H := pipeline_world uuid) r).
Proof using HP.
  unfold UpsertVesselStatic. case_match; [apply keeps_fail|]. apply keeps_tx.
  apply keeps_bind; [apply keeps_query|]. intros cur.
  destruct (match cur with Some r => _ | None => _ end); [apply keeps_ret|].
  destruct (_ && _); [apply keeps_ret|].
  apply keeps_bind; [destruct (negb _); [apply keeps_exec|apply keeps_ret]|]. intros _.
  apply keeps_bind; [apply keeps_exec|intros; apply keeps_ret].
Qed.

Lemma keeps_fresh : keeps P (fresh uuid).
Proof using HP. intros w Hw. by apply (blind_uuids _ HP). Qed.
End blind_ops.

(** ** The producer *)

Lemma write_attempts_spec n m w :
  ∃ k, (k ≤ n)%nat ∧
  e_state (write_attempts n m w).1 = upd_kafka (w_kafka (e_state w) ++ replicate k m) (e_state w) ∧
  ((write_attempts n m w).2 = Ok tt → (1 ≤ k)%nat).
Proof using Type.
  revert w. induction n as [|n IH]; intros w; cbn [write_attempts].
  { exists 0%nat. simpl. rewrite app_nil_r. split_and!; [done|by destruct (e_state w)|done]. }
  unfold mbind, M_bind, attempt, external.
  destruct (e_faults w) as [|[] fs].
  - exists 1%nat. simpl. split_and!; [lia|done|lia].
  - exists 1%nat. simpl. split_and!; [lia|done|lia].
  - destruct (IH (mkEnv fs (e_state w))) as (k & Hk & Hs & Hok). exists k. simpl in *. split_and!; [lia|done|done].
  - destruct (IH (mkEnv fs (upd_kafka (w_kafka (e_state w) ++ [m]) (e_state w)))) as (k & Hk & Hs & Hok).
    exists (S k). simpl in *. split_and!; [lia| |lia].
    rewrite Hs. simpl. by rewrite <- app_assoc.
Qed.

Lemma Publish_spec m w :
  ∃ k, (k ≤ c_attempts cfg)%nat ∧
  e_state (Publish cfg m w).1 = upd_kafka (w_kafka (e_state w) ++ replicate k m) (e_state w) ∧
  ((Publish cfg m w).2 = Ok tt → (1 ≤ k)%nat).
Proof using Type.
  unfold Publish. destruct (blank _); [|apply write_attempts_spec].
  exists 0%nat. simpl. rewrite app_nil_r. split_and!; [lia|by destruct (e_state w)|done].
Qed.

Lemma keeps_Publish P m :
  (∀ s, P s → P (upd_kafka (w_kafka s ++ [m]) s)) → keeps P (Publish cfg m).
Proof using Type.
  intros Hm w Hw. destruct (Publish_spec m w) as (k & _ & -> & _).
  clear -Hm Hw. induction k as [|k IH]; simpl.
  - rewrite app_nil_r. by destruct (e_state w).
  - replace (m :: replicate k m) with (replicate k m ++ [m]) by (by rewrite <- replicate_cons_app).
    rewrite app_assoc. apply (Hm _ IH).
Qed.

Lemma NewEnvelope_sound Sign et cid p at_ pr b e v env :
  NewEnvelope (Some Sign) et cid p at_ pr b e v = Ok env →
  ∃ u sig, Sign u = Some sig ∧ env = sign_with u sig ∧ EventType env = et ∧ CorrelationID env = cid ∧
    env_Classification env ∈ ladder ∧ (et ∈ sosEventTypes → 2 ≤ Rank (env_Classification env)).
Proof using Type.
  unfold NewEnvelope. destruct (eventResourceType !! et); [|done].
  do 4 (case_match; [done|]). destruct (field "@type" _); [done|].
  intros (c & Hc & He)%bind_Ok.
  assert (Hl : c ∈ ladder).
  { destruct (field "classification" _) as [[]|]; try done.
    destruct (ParseClassification s0) eqn:E; [|done]. apply ParseClassification_Ok in E as [? _]. by injection Hc as <-. }
  destruct (bool_decide _ && _) eqn:Hf; [done|]. destruct (time_IsZero at_); [done|].
  destruct (Sign _) as [sig|] eqn:Hs; [|done]. injection He as <-.
  eexists _, sig. split_and!; [exact Hs|done|done|done|done|].
  intros Hin. rewrite bool_decide_eq_true_2 in Hf by done. simpl in Hf.
  change (Rank ClassificationRestricted) with 2 in Hf. simpl. bool_to_prop. lia.
Qed.

(** An envelope the pipeline can put on the bus for event type [et] and
    correlation [cid]. *)
Record built (et cid : string) (e : Envelope) : Prop := {
  built_signed : ∃ u sig, c_sign cfg u = Some sig ∧ e = sign_with u sig;
  built_type : EventType e = et;
  built_correlation : CorrelationID e = cid;
  built_label : env_Classification e ∈ ladder;
  built_floor : et ∈ sosEventTypes → 2 ≤ Rank (env_Classification e);
}.

(** ** A property kept by the whole path

    [P] ignores the bookkeeping fields; appending a message keeps it when the
    message is allowed. *)
Record stable (P : world → Prop) : Prop := {
  st_uuids : ∀ n w, P w → P (upd_uuids n w);
  st_metrics : ∀ m w, P w → P (upd_metrics m w);
  st_sse : ∀ l w, P w → P (upd_sse l w);
  st_tracker : ∀ t w, P w → P (upd_tracker t w);
  st_dedup : ∀ r w, P w → P (upd_dedup r w);
  st_fence : ∀ f w, P w → P (upd_fence f w);
  st_fence_events : ∀ l w, P w → P (upd_fence_events l w);
}.
Definition admits (P : world → Prop) (m : message) : Prop := ∀ w, P w → P (upd_kafka (w_kafka w ++ [m]) w).
(** Every envelope of a given type and correlation is allowed. *)
Definition admits_envelopes (P : world → Prop) (et cid : string) : Prop :=
  ∀ key e hs, built et cid e →
    admits P (mkMessage TopicVesselEvents key (VEnvelope e) (<["classification" := env_Classification e]> hs)).
(** Messages of the other topics are allowed. *)
Definition admits_side (P : world → Prop) : Prop := ∀ m, m_topic m ≠ TopicVesselEvents → admits P m.

Section path.
Context (P : world → Prop) (Hst : stable P) (Hside : admits_side P).
Context (Hgeo : ∀ cid, admits_envelopes P EventGeofenceEvent cid).

Lemma path_fresh : keeps P (fresh uuid).
Proof using Hst. intros w Hw. by apply (st_uuids _ Hst). Qed.
Lemma path_inc n l : keeps P (inc n l).
Proof using Hst. apply keeps_modify. intros s. apply (st_metrics _ Hst). Qed.
Lemma path_broadcast et c at_ p : keeps P (broadcast_ cfg et c at_ p).
Proof using Hst.
  unfold broadcast_, when. case_match; [|apply keeps_ret]. apply keeps_modify. intros s. apply (st_sse _ Hst).
Qed.

Lemma path_envelope et cid p at_ cl hs :
  admits_envelopes P et cid → keeps P (PublishSignedEnvelope uuid cfg et cid p at_ cl hs).
Proof using Hst.
  intros Ha. unfold PublishSignedEnvelope. destruct (ParseClassification cl); [|apply keeps_fail].
  do 3 (apply keeps_bind; [apply path_fresh|intros ?]).
  destruct (NewEnvelope _ _ _ _ _ _ _ _ _) as [env|] eqn:E; [|apply keeps_fail].
  apply NewEnvelope_sound in E as (u & sig & Hs & He & Het & Hcid & Hl & Hf).
  destruct (negb _); [apply keeps_fail|]. apply keeps_Publish, Ha. split; eauto.
Qed.

Lemma path_quarantine p f : keeps P (quarantine uuid cfg p f).
Proof using Hst Hside.
  unfold quarantine. apply keeps_bind; [apply path_fresh|]. intros id.
  apply keeps_bind; [apply keeps_gets|]. intros now. destruct (negb _); [apply keeps_fail|].
  by apply keeps_Publish, Hside.
Qed.
Lemma path_quarantine_all p fs : keeps P (quarantine_all uuid cfg p fs).
Proof using Hst Hside.
  apply keeps_each. intros f _. apply keeps_bind; [apply path_inc|intros _; apply path_quarantine].
Qed.
Lemma path_geofence e : keeps P (publishGeofenceEvent uuid cfg e).
Proof using Hst Hgeo.
  unfold publishGeofenceEvent. apply keeps_bind; [apply path_envelope, Hgeo|]. intros _.
  apply keeps_bind; [apply path_inc|]. intros _. apply path_broadcast.
Qed.
Lemma path_announce p e r : keeps P (announce uuid marshal cfg p e r).
Proof using Hst Hgeo.
  unfold announce. apply keeps_bind; [apply path_fresh|]. intros id.
  apply keeps_bind; [apply keeps_attempt, path_envelope, Hgeo|]. intros [[]|err]; [|apply keeps_fail].
  destruct (blank _); [apply keeps_fail|]. apply keeps_external. intros s. apply (st_fence_events _ Hst).
Qed.
Lemma path_observe p : keeps P (ObservePosition uuid marshal cfg p).
Proof using Hst Hgeo.
  assert (Hreload : keeps P reload_fences).
  { unfold reload_fences. apply keeps_bind; [by apply keeps_external|]. intros rows.
    destruct (mapM _ _); [|apply keeps_fail].
    apply keeps_bind; [|intros; apply keeps_ret]. apply keeps_modify. intros s. apply (st_fence _ Hst). }
  unfold ObservePosition. destruct (negb _); [apply keeps_ret|].
  apply keeps_bind; [|intros fences; apply keeps_bind].
  - unfold fencesLocked. do 2 (apply keeps_bind; [apply keeps_gets|intros ?]).
    repeat case_match; first [apply keeps_ret|done].
  - intros w Hw. destruct (Engine.Observe _ _ _ _ _ _). by apply (st_fence _ Hst).
  - intros outs. apply keeps_each. intros o _. apply path_announce.
Qed.
Lemma path_consecutive r : keeps P (check_consecutive r).
Proof using Hst.
  intros w Hw. unfold check_consecutive. destruct (CheckConsecutive _ _). by apply (st_tracker _ Hst).
Qed.
Lemma path_duplicate p k : keeps P (check_duplicate cfg p k).
Proof using Hst.
  unfold check_duplicate. case_match; [apply keeps_ret|]. apply keeps_bind.
  - apply keeps_attempt, keeps_external. intros s Hs. destruct (IsDuplicate _ _ _ _ _ _) as [? []].
    by apply (st_dedup _ Hst).
  - intros [[]|]; first [apply keeps_ret|apply keeps_bind; [apply path_inc|intros; apply keeps_ret]].
Qed.

(** The tail of the path, given how the store steps keep [P]. *)
Lemma path_tail p :
  keeps P (EvaluateGeofences (H := pipeline_world uuid) ST_Intersects p) →
  admits_envelopes P EventVesselPosition (PositionReportID p) →
  keeps P (evaluate_and_publish ST_Intersects uuid marshal cfg p).
Proof using Hst Hside Hgeo.
  intros Hev Hpos. unfold evaluate_and_publish. apply keeps_bind; [by apply keeps_lift|].
  intros events. apply keeps_bind; [apply keeps_each; intros; apply path_geofence|]. intros _.
  apply keeps_bind.
  { unfold when. case_match; [|apply keeps_ret]. case_match; [apply keeps_fail|].
    by apply keeps_Publish, Hside. }
  intros _. apply keeps_bind; [by apply path_envelope|]. intros _.
  apply keeps_bind; [apply path_inc|]. intros _.
  apply keeps_bind; [|intros _; apply path_broadcast].
  unfold when. case_match; [apply path_observe|apply keeps_ret].
Qed.

Lemma path_HandlePosition i :
  (∀ p, keeps P (persist uuid p ≫= λ _, evaluate_and_publish ST_Intersects uuid marshal cfg p)) →
  keeps P (HandlePosition ST_Intersects uuid marshal cfg i).
Proof using Hst Hside.
  intros Htail. unfold HandlePosition.
  apply keeps_bind; [|intros p; apply keeps_bind; [apply path_inc|intros _; apply keeps_bind]].
  - case_match; [|apply keeps_ret]. apply keeps_bind; [apply path_fresh|intros; apply keeps_ret].
  - unfold when. case_match; [apply path_inc|apply keeps_ret].
  - intros _. case_match; [apply path_quarantine_all|].
    apply keeps_bind; [apply path_consecutive|].
    intros [f|]; [apply keeps_bind; [apply path_inc|intros _; apply path_quarantine]|].
    apply keeps_bind; [apply path_duplicate|]. intros []; [apply keeps_ret|apply Htail].
Qed.

Lemma path_HandleStatic r :
  (∀ r', keeps P (UpsertVesselStatic (H := pipeline_world uuid) r')) →
  (∀ cid, admits_envelopes P EventVesselStatic cid) →
  keeps P (HandleStatic uuid cfg r).
Proof using Hst Hside.
  intros Hup Hstat. unfold HandleStatic. apply keeps_bind.
  - case_match; [|apply keeps_ret]. apply keeps_bind; [apply path_fresh|intros; apply keeps_ret].
  - intros r'. case_match.
    + apply keeps_bind; [apply path_inc|]. intros _. apply keeps_bind; [apply path_fresh|]. intros id.
      apply keeps_bind; [apply keeps_gets|]. intros now. by apply keeps_Publish, Hside.
    + apply keeps_bind; [apply keeps_lift, Hup|]. intros [].
      * apply keeps_bind; [apply path_envelope, Hstat|intros _; apply path_inc].
      * apply path_inc.
Qed.
End path.
End frames.

(** ** Any number of reports, under any faults *)

Inductive input := InPosition (i : IngestPosition) | InStatic (r : StaticReport).

Section drive.
Context `{Math} (ST_Intersects : string → string → bool) (uuid : nat → string)
  (marshal : json → string) (cfg : config).

Definition handle (x : input) : M world perror unit :=
  match x with
  | InPosition i => HandlePosition ST_Intersects uuid marshal cfg i
  | InStatic r => HandleStatic uuid cfg r
  end.
(** A connector goes on after a failed report. *)
Definition drive (xs : list input) : M world perror unit := each (λ x, _ ← attempt (handle x); mret tt) xs.

Lemma keeps_drive P xs : (∀ x, keeps P (handle x)) → keeps P (drive xs).
Proof using Type.
  intros Hh. apply keeps_each. intros x _. apply keeps_bind; [apply keeps_attempt, Hh|intros; apply keeps_ret].
Qed.

(** What the event topic may carry. *)
Definition event_message_ok (m : message) : Prop :=
  m_topic m = TopicVesselEvents →
  ∃ e u sig, m_value m = VEnvelope e ∧ c_sign cfg u = Some sig ∧ e = sign_with u sig ∧
    env_Classification e ∈ ladder ∧ m_headers m !! "classification" = Some (env_Classification e) ∧
    (EventType e ∈ sosEventTypes → 2 ≤ Rank (env_Classification e)).
Definition signed_log (s : world) : Prop := Forall event_message_ok (w_kafka s).

Lemma signed_admits m : event_message_ok m → admits signed_log m.
Proof using Type. intros Hm s Hs. unfold signed_log. simpl. by rewrite Forall_app, Forall_singleton. Qed.
Lemma signed_envelopes et cid : admits_envelopes cfg signed_log et cid.
Proof using Type.
  intros key e hs [(u & sig & Hs & He) Ht _ Hl Hf]. apply signed_admits. intros _.
  exists e, u, sig. rewrite Ht. split_and!; try done. apply lookup_insert_eq.
Qed.
Lemma signed_blind : blind signed_log.
Proof using Type. by split. Qed.

Lemma handle_signed x : keeps signed_log (handle x).
Proof using Type.
  assert (stable signed_log) by by split.
  assert (admits_side signed_log) by (intros m Hm; apply signed_admits; by intros ?).
  destruct x as [i|r]; simpl.
  - apply path_HandlePosition; [done..|]. intros p.
    apply keeps_bind; [apply keeps_persist, signed_blind|]. intros _.
    apply path_tail; auto using signed_envelopes, keeps_evaluate, signed_blind.
  - apply path_HandleStatic; auto using signed_envelopes, keeps_static, signed_blind.
Qed.

(** What the pipeline is asked to do: ingest a connector's report, or publish the
    payload of a handler.  The mobile, SOS, safety, fence and device handlers hold
    the pipeline as their [SignedEnvelopePublisher], and choose every argument. *)
Inductive offer :=
| FromConnector (x : input)
| FromHandler (eventType correlationID : string) (p : payload) (occurredAt : Z) (classification : string)
    (headers : gmap string string).
Definition take_offer (o : offer) : M world perror unit :=
  match o with
  | FromConnector x => handle x
  | FromHandler eventType correlationID p occurredAt classification headers =>
      PublishSignedEnvelope uuid cfg eventType correlationID p occurredAt classification headers
  end.
(** The callers of a failed call go on. *)
Definition take_offers (os : list offer) : M world perror unit :=
  each (λ o, _ ← attempt (take_offer o); mret tt) os.

Lemma take_offer_signed o : keeps signed_log (take_offer o).
Proof using Type.
  destruct o; simpl; [apply handle_signed|]. by apply path_envelope, signed_envelopes.
Qed.

(** ** Store before publish *)

Definition announced (e : Envelope) (s : world) : Prop :=
  ∃ m, m ∈ w_kafka s ∧ m_topic m = TopicVesselEvents ∧ m_value m = VEnvelope e ∧
       EventType e = EventVesselPosition.
Definition stored (id : string) (s : world) : Prop :=
  ∃ p, p ∈ ais_positions (w_db s) ∧ PositionReportID p = id.
(** Every position event on the bus has its report in the history table. *)
Definition stored_first (s : world) : Prop := ∀ e, announced e s → stored (CorrelationID e) s.

(** A statement on the bus and the history table only. *)
Definition tables (k : list message) (a : list Position) (s : world) : Prop :=
  w_kafka s = k ∧ ais_positions (w_db s) = a.

Lemma keeps_tables_exec k a f :
  (∀ d, ais_positions (f d) = ais_positions d) → keeps (tables k a) (exec (H := pipeline_world uuid) f).
Proof using Type. intros Hf. apply keeps_external. intros s [Hk Ha]. split; [done|]. simpl. by rewrite Hf. Qed.

Lemma keeps_tables_record k a zones p ts :
  keeps (tables k a) (record_transitions (H := pipeline_world uuid) zones p ts).
Proof using Type.
  induction ts as [|t ts IH]; simpl; [apply keeps_ret|].
  apply keeps_bind.
  - unfold transition_zone. case_match; [|apply keeps_ret].
    apply keeps_bind; [by apply keeps_external|intros; apply keeps_ret].
  - intros [z|]; [|done]. apply keeps_bind; [by intros w|]. intros id.
    apply keeps_bind; [by apply keeps_tables_exec|]. intros _.
    apply keeps_bind; [done|intros; apply keeps_ret].
Qed.

Lemma keeps_tables_evaluate k a p :
  keeps (tables k a) (EvaluateGeofences (H := pipeline_world uuid) ST_Intersects p).
Proof using Type.
  unfold EvaluateGeofences. case_match; [apply keeps_fail|]. apply keeps_transaction_body.
  - unfold zonesContaining, Membership, Replace, query.
    do 3 (apply keeps_bind; [apply keeps_external; by intros s [? ?]|intros ?]). apply keeps_tables_record.
  - intros s0 s [_ Ha] [Hk _]. by split.
Qed.

Lemma keeps_tables_static k a r : keeps (tables k a) (UpsertVesselStatic (H := pipeline_world uuid) r).
Proof using Type.
  unfold UpsertVesselStatic. case_match; [apply keeps_fail|].
  apply keeps_transaction_body; [|by intros s0 s [_ Ha] [Hk _]].
  apply keeps_bind; [unfold query; apply keeps_external; by intros s [? ?]|]. intros cur.
  destruct (match cur with Some r => _ | None => _ end); [apply keeps_ret|].
  destruct (_ && _); [apply keeps_ret|].
  apply keeps_bind; [destruct (negb _); [by apply keeps_tables_exec|apply keeps_ret]|]. intros _.
  apply keeps_bind; [by apply keeps_tables_exec|intros; apply keeps_ret].
Qed.

Definition with_report (id : string) (s : world) : Prop := stored_first s ∧ stored id s.

Lemma tables_stored_first {E A} (m : M world E A) :
  (∀ k a, keeps (tables k a) m) → keeps stored_first m ∧ ∀ id, keeps (with_report id) m.
Proof using Type.
  intros Hm.
  assert (Hf : keeps stored_first m).
  { intros w Hw e. destruct (Hm _ _ w (conj eq_refl eq_refl)) as [Hk Ha].
    unfold announced, stored. rewrite Hk, Ha. apply Hw. }
  split; [done|]. intros id w [Hw Hs]. split; [by apply Hf|].
  destruct (Hm _ _ w (conj eq_refl eq_refl)) as [_ Ha]. unfold stored. by rewrite Ha.
Qed.

(** Persisting: the bus is untouched, no row disappears, and on success the
    report is there. *)
Definition grows (k : list message) (a : list Position) (s : world) : Prop :=
  w_kafka s = k ∧ ∀ q, q ∈ a → q ∈ ais_positions (w_db s).
Lemma keeps_grows_exec k a f :
  (∀ d q, q ∈ ais_positions d → q ∈ ais_positions (f d)) → keeps (grows k a) (exec (H := pipeline_world uuid) f).
Proof using Type. intros Hf. apply keeps_external. intros s [Hk Ha]. split; [done|]. simpl. auto. Qed.

Lemma keeps_grows_latest k a p : keeps (grows k a) (UpsertLatestPosition (H := pipeline_world uuid) p).
Proof using Type.
  unfold UpsertLatestPosition. repeat case_match; first [by apply keeps_grows_exec|apply keeps_fail].
Qed.

Lemma keeps_grows_persist k a p : keeps (grows k a) (persist uuid p).
Proof using Type.
  unfold persist. apply keeps_bind; [|intros _; apply keeps_bind; [|intros _]]; apply keeps_lift.
  - simpl. apply keeps_bind; [by apply keeps_grows_exec|intros; apply keeps_ret].
  - unfold InsertPositions. repeat case_match; try apply keeps_ret; try apply keeps_fail.
    apply keeps_bind; [apply keeps_gets|]. intros days. case_match; [|apply keeps_fail].
    apply keeps_grows_exec. intros d q Hq. simpl. apply elem_of_app. by left.
  - apply keeps_grows_latest.
Qed.

Lemma lift_Ok {A} (m : M world store_error A) w w' x : lift m w = (w', Ok x) → m w = (w', Ok x).
Proof using Type. unfold lift. destruct (m w) as [? []]; naive_solver. Qed.

Lemma persist_Ok p w w' u :
  persist uuid p w = (w', Ok u) → with_accuracy p ∈ ais_positions (w_db (e_state w')).
Proof using Type.
  unfold persist. intros (w1 & [] & _ & H2)%M_bind_Ok. apply M_bind_Ok in H2 as (w2 & [] & Hins & Hup).
  apply lift_Ok in Hins. unfold InsertPositions in Hins. simpl in Hins.
  apply M_bind_Ok in Hins as (w1' & days & [= <- <-] & Hins).
  assert (Hin : with_accuracy p ∈ ais_positions (w_db (e_state w2))).
  { case_match; [|done]. unfold exec in Hins. apply external_Ok in Hins. injection Hins as Hs.
    rewrite <- Hs. simpl. apply elem_of_app. right. left. }
  pose proof (keeps_lift _ _ (keeps_grows_latest (w_kafka (e_state w2)) [with_accuracy p] p) w2) as Hk.
  rewrite Hup in Hk. destruct Hk as [_ Hq].
  - split; [done|]. by intros q ->%list_elem_of_singleton.
  - apply Hq. left.
Qed.

Lemma keeps_first_persist p : keeps stored_first (persist uuid p).
Proof using Type.
  intros w Hw e. destruct (keeps_grows_persist (w_kafka (e_state w)) (ais_positions (w_db (e_state w))) p w)
    as [Hk Ha]; [done|].
  unfold announced, stored. rewrite Hk. intros He. destruct (Hw e He) as (q & Hq & Hid). eauto.
Qed.

(** A message that is no position event, or one of a stored report. *)
Lemma first_admits m s :
  (∀ e, m_topic m = TopicVesselEvents → m_value m = VEnvelope e → EventType e = EventVesselPosition →
        stored (CorrelationID e) s) →
  stored_first s → stored_first (upd_kafka (w_kafka s ++ [m]) s).
Proof using Type.
  intros Hm Hs e (m' & Hin & Ht & Hv & He). simpl in Hin.
  apply elem_of_app in Hin as [Hin|Hin]; [|apply list_elem_of_singleton in Hin as ->; by apply Hm].
  apply Hs. by exists m'.
Qed.

Lemma admits_first_other et cid : et ≠ EventVesselPosition → admits_envelopes cfg stored_first et cid.
Proof using Type.
  intros Hne key e hs [_ Ht _ _ _] s Hs. apply first_admits; [|done]. simpl. intros e' _ [= <-]. congruence.
Qed.
Lemma admits_with_other id et cid : et ≠ EventVesselPosition → admits_envelopes cfg (with_report id) et cid.
Proof using Type.
  intros Hne key e hs Hb s [Hs Hid]. split; [|done]. by eapply admits_first_other.
Qed.
Lemma admits_with_position id : admits_envelopes cfg (with_report id) EventVesselPosition id.
Proof using Type.
  intros key e hs [_ _ Hc _ _] s [Hs Hid]. split; [|done]. apply first_admits; [|done].
  simpl. intros e' _ [= <-] _. by rewrite Hc.
Qed.

Lemma handle_stored_first x : keeps stored_first (handle x).
Proof using Type.
  assert (stable stored_first) by by split.
  assert (admits_side stored_first) by (intros m Hm s; apply first_admits; by intros e ?).
  assert (Hst : ∀ id, stable (with_report id)) by by split.
  assert (Hsd : ∀ id, admits_side (with_report id)).
  { intros id m Hm s [Hs Hid]. split; [|done]. apply first_admits; [|done]. by intros e ?. }
  destruct x as [i|r]; simpl.
  - apply path_HandlePosition; [done..|]. intros p w Hw.
    pose proof (keeps_first_persist p w Hw) as Hp. unfold mbind, M_bind.
    destruct (persist uuid p w) as [w1 [[]|e]] eqn:E; [|done].
    apply persist_Ok in E. apply (path_tail ST_Intersects uuid marshal cfg (with_report (PositionReportID p))); auto.
    + intros cid. by apply admits_with_other.
    + apply tables_stored_first. intros k a. apply keeps_tables_evaluate.
    + apply admits_with_position.
    + split; [done|]. by exists (with_accuracy p).
  - apply path_HandleStatic; [done..| |].
    + intros r'. apply tables_stored_first. intros k a. apply keeps_tables_static.
    + intros cid. by apply admits_first_other.
Qed.
End drive.

(** C2: Whatever reports the connectors bring in, whatever the mobile, SOS,
    safety, fence and device handlers ask the pipeline to publish (any event type,
    payload, label and headers), in whatever order, and whichever calls to Postgres,
    Redis and Kafka fail: every message on the event topic is a signed envelope whose
    signature covers all its other fields, with a label of the ladder that its
    header repeats, at least RESTRICTED when its event is of the SOS and safety
    families.  An unsigned, unlabelled or under-labelled event never leaves the
    pipeline. *)
Theorem event_topic_signed_and_labelled `{Math} (ST_Intersects : string → string → bool)
  (uuid : nat → string) (marshal : json → string) (cfg : config)
  (os : list offer) (w : env world)
  (Hstart : signed_log cfg (e_state w)) :
  signed_log cfg (e_state (take_offers ST_Intersects uuid marshal cfg os w).1).
Proof.
  apply (keeps_each (signed_log cfg)); [|done]. intros o _.
  apply keeps_bind; [apply keeps_attempt, take_offer_signed|intros; apply keeps_ret].
Qed.

(** Store before publish: whatever reports arrive and whichever calls fail,
    every position event on the bus has its report in the history table; a broker
    that accepts a message the database lost does not occur. *)
Theorem positions_stored_before_published `{Math} (ST_Intersects : string → string → bool)
  (uuid : nat → string) (marshal : json → string) (cfg : config)
  (xs : list input) (w : env world)
  (Hstart : stored_first (e_state w)) :
  stored_first (e_state (drive ST_Intersects uuid marshal cfg xs w).1).
Proof. apply (keeps_drive ST_Intersects uuid marshal cfg); [apply handle_stored_first|done]. Qed.

Definition demo_cfg : config :=
  mkConfig (mkChecker (15 * second)) (λ _, Some "sig") test_principal 2 true true false.
Definition demo_uuid (n : nat) : string := show_Z (Z.of_nat n).
Definition demo_world : world :=
  mkWorld (mkDB [] [] ∅ ∅ [] [] []) [] [] ∅ (∅ : gmap string Z) [] [] NewTracker NewFenceV2Evaluator [] (1000 * second) 0.
Definition demo_position : IngestPosition :=
  mkIngest (mkPosition "pos-1" "657000001" "" SourceAIS 6450000 3400000 (Some 8400) (Some 90000) None None
              "" "rx-1" (Some 1) "" "" "" "PUBLIC" (1000 * second)) "ab".
Definition demo_run_faults (fs : list fault) : env world := mkEnv fs demo_world.

(** An SOS alert labelled [c], as the mobile handler publishes it. *)
Definition demo_sos (c : string) : offer :=
  FromHandler EventSOS "sos-1"
    (PSosRaised (mkSOS "sos-1" "reporter-1" "MV BLUE" 6450000 3400000 (1000 * second) "out-1" "taking water" c))
    (1000 * second) c {["priority" := "SAFETY"]}.

(** A position, an SOS alert at the floor, and one below it: the last is refused. *)
Lemma event_topic_signed_and_labelled_witness :
  let w' := (take_offers (H := small_angle_math) (λ _ _, false) demo_uuid (λ _, "") demo_cfg
               [FromConnector (InPosition demo_position); demo_sos "RESTRICTED"; demo_sos "INTERNAL"]
               (demo_run_faults [])).1 in
  omap (λ m, match m_value m with VEnvelope e => Some (EventType e, env_Classification e) | _ => None end)
    (w_kafka (e_state w')) = [(EventVesselPosition, "PUBLIC"); (EventSOS, "RESTRICTED")] ∧
  signed_log demo_cfg (e_state w').
Proof.
  split; [vm_compute; reflexivity|].
  apply (event_topic_signed_and_labelled (H := small_angle_math)). constructor.
Defined.

Lemma positions_stored_before_published_witness :
  let w' := (drive (H := small_angle_math) (λ _ _, false) demo_uuid (λ _, "") demo_cfg
               [InPosition demo_position] (demo_run_faults [NoFault; FailAfter])).1 in
  stored_first (e_state w').
Proof.
  apply (positions_stored_before_published (H := small_angle_math)).
  intros e (m & Hm & _). by apply elem_of_nil in Hm.
Defined.

(** The deduplication key is set before the report is stored.  When the
    insert fails, the caller sees an error; its retry within the window is absorbed
    as a repeat and succeeds, with nothing stored and nothing published. *)
Theorem failed_store_then_retry_is_absorbed :
  let handle := HandlePosition (H := small_angle_math) (λ _ _, false) demo_uuid (λ _, "") demo_cfg demo_position in
  let first := handle (demo_run_faults [NoFault; NoFault; FailBefore]) in
  let second := handle (mkEnv [] (e_state first.1)) in
  first.2 = Err (PStore StoreUnavailable) ∧ second.2 = Ok tt ∧
  ais_positions (w_db (e_state second.1)) = [] ∧ w_kafka (e_state second.1) = [].
Proof. vm_compute. done. Qed.

(** ** Every handled report is accounted for *)

Section account.
Context `{Math} (ST_Intersects : string → string → bool) (uuid : nat → string)
  (marshal : json → string) (cfg : config).

(** A message about the report's finding. *)
Definition quarantined (p : Position) (f : Finding) (new : list message) : Prop :=
  ∃ m q, m ∈ new ∧ m_topic m = TopicVesselQuarantine ∧ m_value m = VQuarantine q ∧
         q_Report q = p ∧ q_Reason q = f_Reason f.
(** A position event about the report. *)
Definition published (p : Position) (new : list message) : Prop :=
  ∃ m e, m ∈ new ∧ m_topic m = TopicVesselEvents ∧ m_value m = VEnvelope e ∧
         EventType e = EventVesselPosition ∧ CorrelationID e = PositionReportID p.

Lemma quarantined_app p f n1 n2 : quarantined p f n1 → quarantined p f (n1 ++ n2).
Proof using Type. intros (m & q & Hin & Hr). exists m, q. rewrite elem_of_app. eauto. Qed.

Lemma quarantine_Ok p f w w' u :
  quarantine uuid cfg p f w = (w', Ok u) →
  w_db (e_state w') = w_db (e_state w) ∧
  ∃ new, w_kafka (e_state w') = w_kafka (e_state w) ++ new ∧ quarantined p f new.
Proof using Type.
  unfold quarantine. intros (w1 & id & [= <- <-] & Hr)%M_bind_Ok.
  apply M_bind_Ok in Hr as (w2 & now & [= <- <-] & Hr). destruct (negb _); [done|].
  match type of Hr with Publish _ ?m ?w = _ => destruct (Publish_spec cfg m w) as (k & _ & Hs & Hk) end.
  rewrite Hr in Hs, Hk. simpl in Hs, Hk. destruct u. specialize (Hk eq_refl). rewrite Hs. simpl.
  split; [done|]. eexists. split; [reflexivity|].
  destruct k; [lia|]. eexists _, _. split; [left|done].
Qed.

Lemma quarantine_all_Ok p fs w w' u :
  quarantine_all uuid cfg p fs w = (w', Ok u) →
  w_db (e_state w') = w_db (e_state w) ∧
  ∃ new, w_kafka (e_state w') = w_kafka (e_state w) ++ new ∧ Forall (λ f, quarantined p f new) fs.
Proof using Type.
  revert w. induction fs as [|f fs IH]; intros w; unfold quarantine_all; cbn [each].
  { intros [= <- <-]. split; [done|]. exists []. by rewrite app_nil_r. }
  intros (w1 & [] & (w0 & [] & [= <-] & Hq)%M_bind_Ok & Hr)%M_bind_Ok.
  apply quarantine_Ok in Hq as (Hdb & n1 & Hk1 & Hq1). apply IH in Hr as (Hdb2 & n2 & Hk2 & Hq2).
  simpl in Hdb, Hk1. rewrite Hdb2, Hdb. split; [done|]. exists (n1 ++ n2).
  rewrite Hk2, Hk1, <- app_assoc. split; [done|]. constructor; [by apply quarantined_app|].
  eapply Forall_impl; [exact Hq2|]. intros x (m & q & Hin & Hx). exists m, q. rewrite elem_of_app. eauto.
Qed.

(** The log grows, and a message once sent stays. *)
Definition extends (k : list message) (Q : list message → Prop) (s : world) : Prop :=
  ∃ n, w_kafka s = k ++ n ∧ Q n.
Section extends.
Context (k : list message) (Q : list message → Prop) (Hmono : ∀ n m, Q n → Q (n ++ [m])).

Lemma extends_stable : stable (extends k Q).
Proof using Type. by split. Qed.
Lemma extends_blind : blind (extends k Q).
Proof using Type. by split. Qed.
Lemma extends_admits m : admits (extends k Q) m.
Proof using Hmono. intros s (n & Hn & HQ). exists (n ++ [m]). simpl. rewrite Hn, <- app_assoc. eauto. Qed.
Lemma extends_envelopes et cid : admits_envelopes cfg (extends k Q) et cid.
Proof using Hmono. intros key e hs _. apply extends_admits. Qed.
End extends.

Lemma PublishSignedEnvelope_Ok et cid p at_ cl hs w w' u :
  PublishSignedEnvelope uuid cfg et cid p at_ cl hs w = (w', Ok u) →
  ∃ m e n, w_kafka (e_state w') = w_kafka (e_state w) ++ n ∧ m ∈ n ∧ m_topic m = TopicVesselEvents ∧
           m_value m = VEnvelope e ∧ EventType e = et ∧ CorrelationID e = cid.
Proof using Type.
  unfold PublishSignedEnvelope. destruct (ParseClassification cl); [|done].
  intros (w1 & b & [= <- <-] & Hr)%M_bind_Ok. apply M_bind_Ok in Hr as (w2 & e & [= <- <-] & Hr).
  apply M_bind_Ok in Hr as (w3 & v & [= <- <-] & Hr).
  destruct (NewEnvelope _ _ _ _ _ _ _ _ _) as [env|] eqn:E; [|done].
  apply NewEnvelope_sound in E as (_ & _ & _ & _ & Het & Hcid & _).
  destruct (negb _); [done|].
  match type of Hr with Publish _ ?m ?w = _ => destruct (Publish_spec cfg m w) as (k & _ & Hs & Hk) end.
  rewrite Hr in Hs, Hk. simpl in Hs, Hk. destruct u. specialize (Hk eq_refl). rewrite Hs. simpl.
  destruct k; [lia|]. eexists _, env, _. split; [reflexivity|]. split; [left|done].
Qed.

Lemma tail_Ok p w w' u :
  evaluate_and_publish ST_Intersects uuid marshal cfg p w = (w', Ok u) →
  ∃ new, w_kafka (e_state w') = w_kafka (e_state w) ++ new ∧ published p new.
Proof using Type.
  set (k := w_kafka (e_state w)). unfold evaluate_and_publish.
  assert (H0 : extends k (λ _, True) (e_state w)) by (exists []; by rewrite app_nil_r).
  assert (Hgrow : ∀ A (m : M world perror A) w0 w1 r, keeps (extends k (λ _, True)) m →
    extends k (λ _, True) (e_state w0) → m w0 = (w1, r) → extends k (λ _, True) (e_state w1)).
  { intros A m w0 w1 r Hm Hw0 Hr. specialize (Hm w0 Hw0). by rewrite Hr in Hm. }
  intros (w1 & evs & H1 & Hr)%M_bind_Ok.
  apply Hgrow in H1; [|by apply keeps_lift, keeps_evaluate, extends_blind|done].
  apply M_bind_Ok in Hr as (w2 & [] & H2 & Hr).
  apply Hgrow in H2; [|apply keeps_each; intros; apply path_geofence; auto using extends_stable, extends_envelopes|done].
  apply M_bind_Ok in Hr as (w3 & [] & H3 & Hr).
  apply Hgrow in H3; [| |done].
  2: { unfold when. destruct (c_publish_raw cfg && _); [|apply keeps_ret]. destruct (negb _); [apply keeps_fail|].
       by apply keeps_Publish, extends_admits. }
  apply M_bind_Ok in Hr as (w4 & [] & H4 & Hr). apply PublishSignedEnvelope_Ok in H4 as (m & e & n4 & Hk4 & Hin & Hm).
  destruct H3 as (n3 & Hk3 & _).
  assert (H4 : extends k (λ n, m ∈ n) (e_state w4)).
  { exists (n3 ++ n4). rewrite Hk4, Hk3, <- app_assoc, elem_of_app. eauto. }
  assert (Hmono : ∀ n x, m ∈ n → m ∈ n ++ [x]) by (intros n x; rewrite elem_of_app; auto).
  assert (Hst := extends_stable k (λ n, m ∈ n)).
  assert (H5 : keeps (extends k (λ n, m ∈ n))
    (inc "geo_positions_published_total" (SourceClass p) ≫= λ _,
     when (c_fence_v2 cfg) (ObservePosition uuid marshal cfg p) ≫= λ _,
     broadcast_ cfg EventVesselPosition (Types.Classification p) (ObservedAt p) (PVesselPosition (position_payload p)))).
  { apply keeps_bind; [by apply path_inc|]. intros _. apply keeps_bind; [|intros _; by apply path_broadcast].
    unfold when. case_match; [|apply keeps_ret]. apply path_observe; [done|].
    intros cid. by apply extends_envelopes. }
  specialize (H5 w4 H4). rewrite Hr in H5. destruct H5 as (n & Hn & Hmn). exists n. split; [done|].
  by exists m, e.
Qed.

Lemma check_duplicate_true p key w w' :
  check_duplicate cfg p key w = (w', Ok true) →
  w_db (e_state w') = w_db (e_state w) ∧ w_kafka (e_state w') = w_kafka (e_state w) ∧
  live (expires (w_dedup (e_state w)) (dedup_key (MMSI p) (derefInt32 (AISMessageType p)) key)) (w_now (e_state w)).
Proof using Type.
  unfold check_duplicate. destruct (String.eqb key ""); [done|].
  intros (w1 & r & Hr & Hrest)%M_bind_Ok. unfold attempt in Hr.
  destruct (external _ _ w) as [w2 r2] eqn:E. injection Hr as <- <-.
  destruct r2 as [[]|]; [|done|].
  - apply external_Ok in E. apply M_bind_Ok in Hrest as (w3 & [] & [= <-] & [= <-]). simpl.
    unfold IsDuplicate in E. destruct (setnx _ _ _ _) as [r' [set|e]] eqn:Es; [|by injection E].
    injection E as Hs Hset. rewrite <- Hs. simpl. split_and!; try done.
    destruct set; [done|]. by apply setnx_false in Es as [Hl _].
  - by apply M_bind_Ok in Hrest as (w3 & [] & [= <-] & [=]).
Qed.

Lemma check_duplicate_frame p key w w' b :
  check_duplicate cfg p key w = (w', Ok b) →
  w_kafka (e_state w') = w_kafka (e_state w) ∧ w_db (e_state w') = w_db (e_state w).
Proof using Type.
  intros Hr. pose (P := λ s : world, w_kafka s = w_kafka (e_state w) ∧ w_db s = w_db (e_state w)).
  assert (stable P) as Hst by by split.
  pose proof (path_duplicate cfg P Hst p key w (conj eq_refl eq_refl)) as HP. by rewrite Hr in HP.
Qed.

Lemma stored_tail p w w' u :
  persist uuid p w = (w', Ok u) → ∀ w'' r,
  evaluate_and_publish ST_Intersects uuid marshal cfg p w' = (w'', r) →
  w_kafka (e_state w') = w_kafka (e_state w) ∧ with_accuracy p ∈ ais_positions (w_db (e_state w'')).
Proof using Type.
  intros Hp w'' r Hr. split.
  - pose proof (keeps_grows_persist uuid (w_kafka (e_state w)) [] p w) as Hg. rewrite Hp in Hg.
    apply Hg. split; [done|]. by intros q ?%elem_of_nil.
  - apply persist_Ok in Hp. pose (P := λ s : world, with_accuracy p ∈ ais_positions (w_db s)).
    assert (keeps P (evaluate_and_publish ST_Intersects uuid marshal cfg p)) as Hk.
    { apply path_tail; [by split|by intros m _ s Hs|by intros cid key e hs _ s Hs| |by intros key e hs _ s Hs].
      intros w0 Hw0. destruct (keeps_tables_evaluate ST_Intersects uuid _ _ p w0 (conj eq_refl eq_refl)) as [_ Ha].
      unfold P. rewrite Ha. exact Hw0. }
    specialize (Hk w' Hp). by rewrite Hr in Hk.
Qed.

(** What became of a report: its findings quarantined, a spoof indicator
    quarantined, a repeat absorbed, or stored and published. *)
Inductive disposition (p : Position) (s s' : world) (key : string) (new : list message) : Prop :=
| Rejected : StaticChecks (report_of p) ≠ [] → w_db s' = w_db s →
    Forall (λ f, quarantined p f new) (StaticChecks (report_of p)) → disposition p s s' key new
| Suspect f : StaticChecks (report_of p) = [] → (CheckConsecutive (w_tracker s) (report_of p)).2 = Some f →
    w_db s' = w_db s → quarantined p f new → disposition p s s' key new
| Repeat : StaticChecks (report_of p) = [] → (CheckConsecutive (w_tracker s) (report_of p)).2 = None →
    live (expires (w_dedup s) (dedup_key (MMSI p) (derefInt32 (AISMessageType p)) key)) (w_now s) →
    w_db s' = w_db s → new = [] → disposition p s s' key new
| Accepted : StaticChecks (report_of p) = [] → (CheckConsecutive (w_tracker s) (report_of p)).2 = None →
    with_accuracy p ∈ ais_positions (w_db s') → published p new → disposition p s s' key new.

Lemma checks_Ok p key w w' u :
  (if negb (bool_decide (StaticChecks (report_of p) = [])) then quarantine_all uuid cfg p (StaticChecks (report_of p))
   else
     finding ← check_consecutive (report_of p);
     match finding with
     | Some f => _ ← inc "geo_quarantine_total" (f_Reason f); quarantine uuid cfg p f
     | None =>
         absorbed ← check_duplicate cfg p key;
         if absorbed : bool then mret tt
         else _ ← persist uuid p; evaluate_and_publish ST_Intersects uuid marshal cfg p
     end) w = (w', Ok u) →
  ∃ new, w_kafka (e_state w') = w_kafka (e_state w) ++ new ∧ disposition p (e_state w) (e_state w') key new.
Proof using Type.
  destruct (bool_decide (StaticChecks (report_of p) = [])) eqn:Ef; simpl negb; cbv iota.
  - apply bool_decide_eq_true_1 in Ef. intros (w1 & finding & Hc & Hr)%M_bind_Ok.
    unfold check_consecutive in Hc. destruct (CheckConsecutive _ _) as [t' f0] eqn:Ec.
    injection Hc as <- <-. destruct f0 as [f|].
    + apply M_bind_Ok in Hr as (w2 & [] & [= <-] & Hq). apply quarantine_Ok in Hq as (Hdb & new & Hk & Hq).
      exists new. split; [done|]. eapply Suspect; [done|by rewrite Ec|done|done].
    + apply M_bind_Ok in Hr as (w2 & absorbed & Hd & Hr). destruct absorbed.
      * apply check_duplicate_true in Hd as (Hdb & Hk & Hl). injection Hr as <-. exists [].
        rewrite app_nil_r. split; [done|]. apply Repeat; [done|by rewrite Ec|done|done|done].
      * apply check_duplicate_frame in Hd as [Hk Hdb].
        apply M_bind_Ok in Hr as (w3 & [] & Hp & Hr). destruct (stored_tail _ _ _ _ Hp _ _ Hr) as [Hk3 Hin].
        apply tail_Ok in Hr as (new & Hkn & Hpub). exists new. rewrite Hkn, Hk3, Hk. split; [done|].
        apply Accepted; [done|by rewrite Ec|done|done].
  - apply bool_decide_eq_false_1 in Ef. intros (Hdb & new & Hk & Hq)%quarantine_all_Ok.
    exists new. split; [done|]. by apply Rejected.
Qed.
End account.

(** C1: Every report the pipeline reports as handled is accounted for, under any
    faults of the calls it made: it failed the static checks and each finding was
    published to the quarantine topic with the report, or it was flagged against
    the vessel's previous fix and quarantined, or an identical report was admitted
    within the window and it was absorbed, or it passed both checks and is in the
    history table and on the event topic.  Quarantined and absorbed reports leave
    the database as it was; nothing is dropped silently. *)
Theorem handled_reports_accounted_for `{Math} (ST_Intersects : string → string → bool)
  (uuid : nat → string) (marshal : json → string) (cfg : config)
  (i : IngestPosition) (w w' : env world)
  (Hrun : HandlePosition ST_Intersects uuid marshal cfg i w = (w', Ok tt)) :
  ∃ p new, (p = ip_Position i ∨ ∃ id, p = with_id (ip_Position i) id) ∧
    w_kafka (e_state w') = w_kafka (e_state w) ++ new ∧
    disposition p (e_state w) (e_state w') (ip_PayloadKey i) new.
Proof.
  unfold HandlePosition in Hrun. apply M_bind_Ok in Hrun as (w1 & p & Hp & Hrun).
  assert (Hp' : (p = ip_Position i ∨ ∃ id, p = with_id (ip_Position i) id) ∧
                ∃ n, e_state w1 = upd_uuids n (e_state w)).
  { destruct (String.eqb _ "").
    - apply M_bind_Ok in Hp as (w0 & id & [= <- <-] & [= <- <-]). split; [right; eauto|]. by eexists.
    - injection Hp as <- <-. split; [by left|]. exists (w_uuids (e_state w)). by destruct (e_state w). }
  destruct Hp' as [Hp' [n Hw1]]. apply M_bind_Ok in Hrun as (w2 & [] & [= <-] & Hrun).
  apply M_bind_Ok in Hrun as (w3 & [] & Hn & Hrun). apply checks_Ok in Hrun as (new & Hk & Hd).
  exists p, new. split; [done|].
  assert (Hw3 : ∃ m, e_state w3 = upd_metrics m (upd_uuids n (e_state w))).
  { unfold when in Hn. destruct (IsNigerianFlagged _); injection Hn as <-; simpl; rewrite Hw1; by eexists. }
  destruct Hw3 as [m Hw3]. rewrite Hw3 in Hk, Hd. split; [done|].
  destruct Hd; [by apply Rejected|by eapply Suspect|by apply Repeat|by apply Accepted].
Qed.

Lemma handled_reports_accounted_for_witness :
  ∃ p new, (p = ip_Position demo_position ∨ ∃ id, p = with_id (ip_Position demo_position) id) ∧
    w_kafka (e_state (HandlePosition (H := small_angle_math) (λ _ _, false) demo_uuid (λ _, "") demo_cfg
               demo_position (demo_run_faults [])).1) = [] ++ new ∧
    disposition (H := small_angle_math) p demo_world
      (e_state (HandlePosition (H := small_angle_math) (λ _ _, false) demo_uuid (λ _, "") demo_cfg
                  demo_position (demo_run_faults [])).1) "ab" new.
Proof.
  apply (handled_reports_accounted_for (H := small_angle_math) (λ _ _, false) demo_uuid (λ _, "") demo_cfg
           demo_position (demo_run_faults [])).
  vm_compute. reflexivity.
Defined.

(** ** Trackers *)

(** A report without an MMSI from another source than an app never passes. *)
Lemma no_mmsi_rejected r :
  r_MMSI r = "" → r_SourceClass r ≠ "APP_REPORT" → StaticChecks r ≠ [].
Proof.
  intros Hm Hs Hc. apply app_eq_nil in Hc as [Hc _]. apply String.eqb_neq in Hs.
  rewrite Hs, Hm in Hc. done.
Qed.

Lemma rejected_run `{Math} ST_Intersects uuid marshal cfg i w :
  (∀ id, StaticChecks (report_of (with_id (ip_Position i) id)) ≠ []) →
  PositionReportID (ip_Position i) = "" →
  ∃ p, (∃ id, p = with_id (ip_Position i) id) ∧
  ∃ w1, w_db (e_state w1) = w_db (e_state w) ∧ w_kafka (e_state w1) = w_kafka (e_state w) ∧
  HandlePosition ST_Intersects uuid marshal cfg i w = quarantine_all uuid cfg p (StaticChecks (report_of p)) w1.
Proof.
  intros Hc Hid. unfold HandlePosition. rewrite Hid, String.eqb_refl.
  set (p := with_id (ip_Position i) ("pos-" +:+ uuid (w_uuids (e_state w)))).
  exists p. split; [by eexists|]. erewrite M_bind_run by reflexivity. fold p.
  erewrite M_bind_run by reflexivity. unfold when.
  destruct (IsNigerianFlagged (MMSI p)); erewrite M_bind_run by reflexivity;
    rewrite bool_decide_eq_false_2 by apply Hc; eexists; (split_and!; [| |reflexivity]); done.
Qed.

(** No position of a GT06 tracker is ever stored or announced: the connector
    submits it without an MMSI and outside the app source class, which the static
    checks reject, so under any faults the database is unchanged, only side topics
    are written, and a handled report was quarantined for its MMSI format. *)
Theorem tracker_positions_never_admitted `{Math} (ST_Intersects : string → string → bool)
  (uuid : nat → string) (marshal : json → string) (cfg : config)
  (sha256 : list Z → list Z) (receiver vesselRef : string) (gps : gt06GPSPayload) (w : env world) :
  let run := HandlePosition ST_Intersects uuid marshal cfg (gt06_ingest sha256 receiver vesselRef gps) w in
  w_db (e_state run.1) = w_db (e_state w) ∧
  ∃ new, w_kafka (e_state run.1) = w_kafka (e_state w) ++ new ∧
    Forall (λ m, m_topic m ≠ TopicVesselEvents) new ∧
    (run.2 = Ok tt → ∃ m q, m ∈ new ∧ m_value m = VQuarantine q ∧ q_Reason q = ReasonMMSIFormat ∧
                            VesselRef (q_Report q) = vesselRef).
Proof.
  cbv zeta. set (i := gt06_ingest sha256 receiver vesselRef gps).
  destruct (rejected_run ST_Intersects uuid marshal cfg i w) as (p & [id Hp] & w1 & Hdb & Hk & ->);
    [intros id; by apply no_mmsi_rejected|done|].
  set (P := λ s : world, w_db s = w_db (e_state w) ∧
    ∃ new, w_kafka s = w_kafka (e_state w) ++ new ∧ Forall (λ m, m_topic m ≠ TopicVesselEvents) new).
  assert (HP : keeps P (quarantine_all uuid cfg p (StaticChecks (report_of p)))).
  { apply path_quarantine_all; [by split|]. intros m Hm s (Hd & new & Hn & Hf). split; [done|].
    exists (new ++ [m]). simpl. rewrite Hn, <- app_assoc, Forall_app, Forall_singleton. done. }
  destruct (HP w1) as (Hd & new & Hn & Hf).
  { split; [done|]. exists []. by rewrite app_nil_r. }
  split; [done|]. exists new. split_and!; [done|done|]. intros Hok.
  destruct (quarantine_all _ _ _ _ w1) as [w' r] eqn:E. simpl in Hok, Hn. subst r.
  apply quarantine_all_Ok in E as (_ & new' & Hk' & Hq). rewrite Hk' , Hk in Hn. apply app_inv_head in Hn as <-.
  assert (Hm : quarantine_finding ReasonMMSIFormat DetailMMSI ∈ StaticChecks (report_of p)) by (rewrite Hp; left).
  rewrite Forall_forall in Hq. destruct (Hq _ Hm) as (m & q & Hin & _ & Hv & Hrep & Hr).
  exists m, q. split_and!; try done. by rewrite Hrep, Hp.
Qed.
