(* ===== verification/Connectors.v ===== *)
(** * Connectors that feed the pipeline

    [internal/connectors/nmea.go] (shore receivers over TCP and UDP), [replay.go]
    (recorded sentences), [aisstream.go] (pre-decoded JSON) and [pcs_ais.go] (the
    port community system's table).  A connector sees the pipeline through the
    interface [Ingest], whose log of calls is a ghost of the model; sockets, files
    and the upstream service are the inputs they deliver_report. *)
From S2P Require Import Prelude Types GoTime GoFloat Dedup Sha256 Validate Effects Store Sign Decode Pipeline.

(** ** The pipeline as its clients see it *)

Inductive delivery := DPosition (p : IngestPosition) | DStatic (r : StaticReport).
Class Ingest (S E : Type) := {
  handle_position : IngestPosition → M S E unit;
  handle_static : StaticReport → M S E unit;
  metric : string → string → S → S;
  clock : S → Z;
  calls : S → list delivery;
}.
(** Every call is logged, whatever its outcome, and nothing else is. *)
Class IngestLaws (S E : Type) `{Ingest S E} := {
  position_logged p w : calls (e_state (handle_position p w).1) = calls (e_state w) ++ [DPosition p];
  static_logged r w : calls (e_state (handle_static r w).1) = calls (e_state w) ++ [DStatic r];
  metric_logged name label s : calls (metric name label s) = calls s;
}.

(** The pipeline of [Pipeline] with a log of the calls beside its state. *)
Section pipeline_instance.
Context `{Math} (ST_Intersects : string → string → bool) (uuid : nat → string) (marshal : json → string)
  (cfg : config).
Definition logged_world : Type := world * list delivery.
Definition logged {A} (d : delivery) (m : M world perror A) : M logged_world perror A := λ w,
  let '(s, log) := e_state w in
  let '(w', r) := m (mkEnv (e_faults w) s) in
  (mkEnv (e_faults w') (e_state w', log ++ [d]), r).
#[export] Instance pipeline_ingest : Ingest logged_world perror := {|
  handle_position := λ p, logged (DPosition p) (HandlePosition ST_Intersects uuid marshal cfg p);
  handle_static := λ r, logged (DStatic r) (HandleStatic uuid cfg r);
  metric := λ name label s, (upd_metrics (w_metrics s.1 ++ [(name, label)]) s.1, s.2);
  clock := λ s, w_now s.1;
  calls := snd |}.
#[export] Instance pipeline_ingest_laws : IngestLaws logged_world perror.
Proof.
  split; [intros p w|intros r w|done]; destruct w as [fs [s log]]; cbn -[HandlePosition HandleStatic]; unfold logged;
    cbn -[HandlePosition HandleStatic].
  - by destruct (HandlePosition _ _ _ _ _ _).
  - by destruct (HandleStatic _ _ _ _).
Qed.
End pipeline_instance.

(** ** Normalized reports *)

Definition positionFromFrame (frame : PositionFrame) (receiverID : string) (observedAt : Z) : IngestPosition :=
  mkIngest
    (mkPosition "" (pf_MMSI frame) "" SourceAIS (pf_LatitudeMicros frame) (pf_LongitudeMicros frame)
       (Some (pf_Speed frame)) (Some (pf_Course frame)) (pf_Heading frame) (pf_NavStatus frame)
       (pf_PositionAccuracy frame) receiverID (Some (pf_AISMessageType frame)) "" "" (pf_ShipName frame) "PUBLIC" observedAt)
    (dedupKey sha256 (pf_MMSI frame) (pf_AISMessageType frame) (pf_LatitudeMicros frame) (pf_LongitudeMicros frame)
       (pf_Speed frame) (pf_Course frame) observedAt).

Definition staticFromFrame (frame : StaticFrame) (observedAt : Z) : StaticReport :=
  let d := sf_Dimension frame in
  mkStatic "" (sf_MMSI frame) (sf_IMO frame) (sf_Callsign frame) (sf_ShipName frame) (sf_ShipTypeCode frame)
    (dim_A d) (dim_B d) (dim_C d) (dim_D d) (sf_DraughtMillimetres frame) (sf_Destination frame) (sf_ETA frame)
    (sf_EpfsType frame) SourceAIS "PUBLIC" observedAt.

Definition contains_char (c : char) (s : string) : bool := negb (all_chars (λ a, negb (Ascii.eqb a c)) s).
(** The host of [net.SplitHostPort], when it reads the address. *)
Definition SplitHost (s : string) : option string :=
  match cut_last (char_of 58) s with
  | None => None
  | Some (before, _) =>
      match s with
      | String c rest =>
          if byte_of c =? 91 then
            match cut_first (char_of 93) rest with
            | Some (host, String c' port) =>
                if (byte_of c' =? 58) && negb (contains_char (char_of 58) port) && negb (contains_char (char_of 91) rest)
                   && negb (contains_char (char_of 93) port)
                then Some host else None
            | _ => None
            end
          else if contains_char (char_of 58) before || contains_char (char_of 91) s || contains_char (char_of 93) s
               then None else Some before
      | EmptyString => None
      end
  end.
Fixpoint replace_punctuation (s : string) : string :=
  match s with
  | EmptyString => ""
  | String c s' =>
      let b := byte_of c in
      if (b =? 46) || (b =? 58) then String (char_of 45) (replace_punctuation s')
      else if (b =? 91) || (b =? 93) then replace_punctuation s'
      else String c (replace_punctuation s')
  end.
Definition sanitizeReceiver (source : string) : string := replace_punctuation (default source (SplitHost source)).

(** ** Sentences *)

Section sentences.
Context {S E : Type} {Hingest : Ingest S E} {Hconv : FloatToInt} {Hcodec : AisCodec}.
Abbreviation IO := (M S E).

(** Hands one report over; a failure is counted and not returned. *)
Definition deliver_report (name : string) (m : IO unit) : IO unit :=
  r ← attempt m;
  match r with Ok _ => mret tt | Err _ => modify (metric "geo_pipeline_errors_total" name) end.
Definition observed_at (now tag : Z) : Z := if 0 <? tag then tag * second else now.

(** One part of a frame, when it has it. *)
Definition hand_over (kind : string) (part : option (IO unit)) : IO unit :=
  match part with
  | None => mret tt
  | Some m => _ ← modify (metric "geo_nmea_frames_total" kind); deliver_report "nmea" m
  end.

(** [handleSentence], with a logger; the new state of the decoder is returned. *)
Definition handleSentence (c : codec) (sentence source : string) : IO codec :=
  let sentence := TrimSpace sentence in
  if String.eqb sentence "" then mret c
  else
    now ← gets clock;
    let '(c', r) := Sentence c now sentence in
    match r with
    | Err ErrIncompleteFragment => mret c'
    | Err _ => _ ← modify (metric "geo_nmea_decode_errors_total" ""); mret c'
    | Ok frame =>
        let receiverID := if String.eqb (fr_ReceiverID frame) "" then "nmea-" +:+ sanitizeReceiver source
                          else fr_ReceiverID frame in
        let observedAt := observed_at now (fr_TagUnixSeconds frame) in
        _ ← hand_over "position" ((λ p, handle_position (positionFromFrame p receiverID observedAt)) <$> fr_Position frame);
        _ ← hand_over "static" ((λ s, handle_static (staticFromFrame s observedAt)) <$> fr_Static frame);
        mret c'
    end.
Fixpoint handleSentences (c : codec) (lines : list string) (source : string) : IO codec :=
  match lines with
  | [] => mret c
  | line :: rest => c' ← handleSentence c line source; handleSentences c' rest source
  end.

(** [serveConnection]: one receiver's lines, with a decoder of its own. *)
Definition serveConnection (lines : list string) (remote : string) : IO unit :=
  _ ← handleSentences NewCodec lines remote; mret tt.

(** [serveUDP]: a decoder per sender. *)
Definition serve_datagram (decoders : gmap string codec) (remote text : string) : IO (gmap string codec) :=
  c ← handleSentences (default NewCodec (decoders !! remote)) (split_on (char_of 10) text) remote;
  mret (<[remote := c]> decoders).
Fixpoint serveUDP (decoders : gmap string codec) (datagrams : list (string * string)) : IO (gmap string codec) :=
  match datagrams with
  | [] => mret decoders
  | (remote, text) :: rest => decoders' ← serve_datagram decoders remote text; serveUDP decoders' rest
  end.

(** ** Replay *)

Inductive replay_error := ReplayForbidden | ReplayFileRequired | ReplayUnreadable | ReplayPipeline (e : E).
Fixpoint replay_lines (c : codec) (lines : list string) (replayed : Z) : IO Z :=
  match lines with
  | [] => mret replayed
  | line :: rest =>
      let line := TrimSpace line in
      if String.eqb line "" || HasPrefix line "#" then replay_lines c rest replayed
      else
        now ← gets clock;
        let '(c', r) := Sentence c now line in
        match r with
        | Err ErrIncompleteFragment => replay_lines c' rest replayed
        | Err _ => _ ← modify (metric "geo_replay_decode_errors_total" ""); replay_lines c' rest replayed
        | Ok frame =>
            let observedAt := observed_at now (fr_TagUnixSeconds frame) in
            n ← match fr_Position frame with
                | None => mret replayed
                | Some p =>
                    r ← attempt (handle_position (positionFromFrame p "replay-file" observedAt));
                    match r with
                    | Ok _ => mret (replayed + 1)
                    | Err _ => _ ← modify (metric "geo_pipeline_errors_total" "replay"); mret replayed
                    end
                end;
            _ ← match fr_Static frame with
                | None => mret tt
                | Some s => deliver_report "replay" (handle_static (staticFromFrame s observedAt))
                end;
            replay_lines c' rest n
        end
  end.
(** [ReplayConnector.Run] on the lines of the file, nothing when it does not open. *)
Definition replay_Run (appEnv file : string) (lines : option (list string)) : M S replay_error Z :=
  if EqualFold (TrimSpace appEnv) "prod" || EqualFold (TrimSpace appEnv) "production" then fail ReplayForbidden
  else if blank file then fail ReplayFileRequired
  else match lines with
       | None => fail ReplayUnreadable
       | Some lines => relabel ReplayPipeline (replay_lines NewCodec lines 0)
       end.
End sentences.

(** ** Pre-decoded JSON *)

Record streamPositionReport := mkStreamPosition {
  sp_UserID : Z; sp_Latitude : float64; sp_Longitude : float64; sp_Sog : float64; sp_Cog : float64;
  sp_TrueHeading : Z; sp_NavigationalStatus : Z; sp_PositionAccuracy : bool; sp_MessageID : Z }.
Record streamStaticData := mkStreamStatic {
  ss_UserID : Z; ss_ImoNumber : Z; ss_CallSign : string; ss_Name : string; ss_Type : Z; ss_Dimension : Dimension;
  ss_MaximumStaticDraught : float64; ss_Destination : string; ss_FixType : Z }.
(** The envelope; the time is that of the metadata when it parses. *)
Record streamMessage := mkStreamMessage {
  sm_MessageType : string; sm_Message : string; sm_ShipName : string; sm_Time : option Z }.
Class StreamText := {
  decode_stream : string → option streamMessage;
  decode_stream_position : string → option streamPositionReport;
  decode_stream_static : string → option streamStaticData;
}.
Definition stream_position_types : list string :=
  ["PositionReport"; "StandardClassBPositionReport"; "ExtendedClassBPositionReport"; "LongRangeAisBroadcastMessage"].
Definition stream_static_types : list string := ["ShipStaticData"; "StaticDataReport"].

Section stream.
Context {S E : Type} {Hingest : Ingest S E} {Hconv : FloatToInt} {Hstream : StreamText}.
Abbreviation IO := (M S E).

Definition epfsFromCode (code : Z) : string := epfsType code.

Definition stream_position (m : streamMessage) (report : streamPositionReport) (observedAt : Z) : IngestPosition :=
  let msgType := if int32 (sp_MessageID report) =? 0 then 1 else int32 (sp_MessageID report) in
  let speed := uint32_round (f_mul (sp_Sog report) (f_of_Z 1000)) in
  let course := uint32_round (f_mul (sp_Cog report) (f_of_Z 1000)) in
  let lat := int32_round (f_mul (sp_Latitude report) million) in
  let lon := int32_round (f_mul (sp_Longitude report) million) in
  let heading := if (0 <=? sp_TrueHeading report) && (sp_TrueHeading report <=? 360)
                 then Some (uint32 (sp_TrueHeading report * 1000)) else None in
  let navStatus := if String.eqb (sm_MessageType m) "PositionReport" then Some (int32 (sp_NavigationalStatus report)) else None in
  mkIngest
    (mkPosition "" (mmsiString (sp_UserID report)) "" SourceAIS lat lon (Some speed) (Some course) heading navStatus
       (if sp_PositionAccuracy report then "HIGH" else "LOW") "aisstream.io" (Some msgType) "" "" (sm_ShipName m) "PUBLIC"
       observedAt)
    (dedupKey sha256 (mmsiString (sp_UserID report)) msgType lat lon speed course observedAt).

Definition stream_static (report : streamStaticData) (observedAt : Z) : StaticReport :=
  let d := ss_Dimension report in
  mkStatic "" (mmsiString (ss_UserID report)) (if 0 <? ss_ImoNumber report then show_padded 7 (ss_ImoNumber report) else "")
    (ss_CallSign report) (ss_Name report) (int32 (ss_Type report)) (dim_A d) (dim_B d) (dim_C d) (dim_D d)
    (uint32_round (f_mul (ss_MaximumStaticDraught report) (f_of_Z 1000))) (ss_Destination report) None
    (epfsFromCode (ss_FixType report)) SourceAIS "PUBLIC" observedAt.

Definition stream_decode_error : IO unit := modify (metric "geo_aisstream_decode_errors_total" "").
(** [handle]: one upstream message. *)
Definition stream_handle (raw : string) : IO unit :=
  match decode_stream raw with
  | None => stream_decode_error
  | Some m =>
      now ← gets clock;
      let observedAt := default now (sm_Time m) in
      if bool_decide (sm_MessageType m ∈ stream_position_types) then
        match decode_stream_position (sm_Message m) with
        | None => stream_decode_error
        | Some report => handle_position (stream_position m report observedAt)
        end
      else if bool_decide (sm_MessageType m ∈ stream_static_types) then
        match decode_stream_static (sm_Message m) with
        | None => stream_decode_error
        | Some report => handle_static (stream_static report observedAt)
        end
      else mret tt
  end.
(** The messages of one session; an error of the pipeline is counted. *)
Fixpoint consume_messages (raws : list string) : IO unit :=
  match raws with
  | [] => mret tt
  | raw :: rest =>
      _ ← modify (metric "geo_aisstream_messages_total" "");
      _ ← deliver_report "aisstream" (stream_handle raw);
      consume_messages rest
  end.
(** The pause before the next connection: doubled while it is below 30 seconds. *)
Definition next_backoff (backoff : Z) : Z := if backoff <? 30 * second then 2 * backoff else backoff.
End stream.

(** ** The port community system *)

Record pcsAISRow := mkPcsRow {
  pr_MMSI : string; pr_IMO : option string; pr_Latitude : float64; pr_Longitude : float64; pr_SpeedKnots : float64;
  pr_CourseDegrees : float64; pr_MessageTS : Z }.
Record pcsCursor := mkCursor { cur_ts : Z; cur_mmsi : string }.

Definition str_gt (a b : string) : bool := negb (String.leb a b).
(** [strictlyAfter], the predicate of the query. *)
Definition strictlyAfter (cursor : pcsCursor) (ts : Z) (mmsi : string) : bool :=
  (cur_ts cursor <? ts) || ((ts =? cur_ts cursor) && str_gt mmsi (cur_mmsi cursor)).
(** ORDER BY message_ts, mmsi. *)
Definition pcs_le (a b : pcsAISRow) : Prop :=
  pr_MessageTS a < pr_MessageTS b ∨ (pr_MessageTS a = pr_MessageTS b ∧ str_le (pr_MMSI a) (pr_MMSI b)).
#[export] Instance pcs_le_dec a b : Decision (pcs_le a b).
Proof. unfold pcs_le. apply _. Defined.

Section pcs.
Context {S E : Type} {Hingest : Ingest S E} {Hconv : FloatToInt}.
Inductive import_error := PcsQuery | PcsIngest (mmsi : string) (e : E).
Abbreviation IO := (M S import_error).

Definition microsFromDegrees (degrees : float64) : Z :=
  let x := f_mul degrees million in to_int32 (f_round_even x) x.
Definition milliknotsFromKnots (knots : float64) : Z :=
  let x := f_mul knots (f_of_Z 1000) in to_uint32 (f_round_even x) x.
Definition millidegreesFromDegrees (degrees : float64) : Z :=
  let x := f_mul degrees (f_of_Z 1000) in to_uint32 (f_round_even x) x.

Definition pcs_ingest (row : pcsAISRow) : IngestPosition :=
  mkIngest
    (mkPosition "" (pr_MMSI row) "" SourceAIS (microsFromDegrees (pr_Latitude row)) (microsFromDegrees (pr_Longitude row))
       (Some (milliknotsFromKnots (pr_SpeedKnots row))) (Some (millidegreesFromDegrees (pr_CourseDegrees row))) None None
       "" "pcs-ais-import" None (default "" (pr_IMO row)) "" "" "INTERNAL" (pr_MessageTS row))
    ("pcs-ais:" +:+ pr_MMSI row +:+ ":" +:+ show_Z (time_Unix (pr_MessageTS row))).

(** The rows a poll reads of the table. *)
Definition poll_rows (source : list pcsAISRow) (cursor : pcsCursor) (batch : nat) : list pcsAISRow :=
  take batch (merge_sort pcs_le (filter (λ r, strictlyAfter cursor (pr_MessageTS r) (pr_MMSI r) = true) source)).
Definition import_row (row : pcsAISRow) : IO unit :=
  _ ← relabel (PcsIngest (pr_MMSI row)) (handle_position (pcs_ingest row));
  modify (metric "geo_pcs_ais_imported_total" "").
Definition cursor_after (rows : list pcsAISRow) : pcsCursor :=
  match last rows with
  | None => mkCursor zero_time ""
  | Some r => mkCursor (pr_MessageTS r) (pr_MMSI r)
  end.
Definition poll (source : list pcsAISRow) (cursor : pcsCursor) (batch : nat) : IO pcsCursor :=
  rows ← external PcsQuery (λ s, (s, poll_rows source cursor batch));
  _ ← each import_row rows;
  mret (cursor_after rows).

Definition batch_size (configured : Z) : nat :=
  Z.to_nat (if (configured <=? 0) || (1000 <? configured) then 1000 else configured).
(** One turn of the loop of [Run]: the cursor moves when the poll succeeded and
    consumed a row. *)
Definition poll_turn (source : list pcsAISRow) (cursor : pcsCursor) (batch : nat) : IO pcsCursor :=
  r ← attempt (poll source cursor batch);
  match r with
  | Err _ => _ ← modify (metric "geo_pcs_ais_import_errors_total" ""); mret cursor
  | Ok advanced => mret (if time_IsZero (cur_ts advanced) then cursor else advanced)
  end.
Fixpoint poll_turns (n : nat) (source : list pcsAISRow) (cursor : pcsCursor) (batch : nat) : IO pcsCursor :=
  match n with
  | O => mret cursor
  | Datatypes.S n' => c ← poll_turn source cursor batch; poll_turns n' source c batch
  end.
Definition start_cursor (now : Z) : pcsCursor := mkCursor (now - 5 * (60 * second)) "".
End pcs.
