(* ===== verification/ConnectorProps.v ===== *)
(** * Properties of the connectors

    The importer of the port community system delivers every row of a table at
    least once under faults and exactly once, in order, without; the decoders of
    different senders never mix; every decoded frame is handed to the pipeline. *)
From S2P Require Import Prelude Types GoTime GoFloat Dedup Sha256 Base64 Validate Effects Store Sign Decode Pipeline Connectors.

(** ** The order of the source table *)

Definition after (c : pcsCursor) (r : pcsAISRow) : bool := strictlyAfter c (pr_MessageTS r) (pr_MMSI r).
Definition cursor_of (r : pcsAISRow) : pcsCursor := mkCursor (pr_MessageTS r) (pr_MMSI r).
Definition row_key (r : pcsAISRow) : Z * string := (pr_MessageTS r, pr_MMSI r).

Lemma after_cursor_of a b : after (cursor_of a) b = true ↔ ¬ pcs_le b a.
Proof.
  unfold after, strictlyAfter, str_gt, pcs_le, str_le, cursor_of. cbn.
  rewrite orb_true_iff, andb_true_iff, Z.ltb_lt, Z.eqb_eq, negb_true_iff.
  destruct (String.leb (pr_MMSI b) (pr_MMSI a)); intuition lia.
Qed.
#[export] Instance pcs_le_total : Total pcs_le.
Proof.
  intros a b. unfold pcs_le. destruct (Z.lt_trichotomy (pr_MessageTS a) (pr_MessageTS b)) as [?|[->|?]]; [auto| |auto].
  destruct (total str_le (pr_MMSI a) (pr_MMSI b)); auto.
Qed.
#[export] Instance pcs_le_trans : Transitive pcs_le.
Proof.
  intros a b c. unfold pcs_le. intros [?|[? H1]] [?|[? H2]]; [left; lia..|]. right. split; [lia|]. by etransitivity.
Qed.
Lemma pcs_le_antisym a b : pcs_le a b → pcs_le b a → row_key a = row_key b.
Proof.
  unfold pcs_le, row_key. intros [?|[E H1]] [?|[E2 H2]]; try (exfalso; lia). rewrite E. f_equal. by apply (anti_symm str_le).
Qed.
(** A row after a row that is after the cursor is after the cursor. *)
Lemma after_trans c a b : after c a = true → after (cursor_of a) b = true → after c b = true.
Proof.
  unfold after, strictlyAfter, str_gt, cursor_of. cbn. rewrite !orb_true_iff, !andb_true_iff, !Z.ltb_lt, !Z.eqb_eq, !negb_true_iff.
  intros [?|[? H1]] [?|[? H2]]; [left; lia..|]. right. split; [lia|].
  destruct (String.leb (pr_MMSI b) (cur_mmsi c)) eqn:E; [|done]. exfalso.
  destruct (String.leb_total (pr_MMSI a) (pr_MMSI b)) as [Hl|Hl]; [|congruence].
  assert (str_le (pr_MMSI a) (cur_mmsi c)) as H3 by (transitivity (pr_MMSI b); done).
  unfold str_le in H3. congruence.
Qed.

Section import.
Context (source : list pcsAISRow) (Hkeys : NoDup (row_key <$> source)).

Definition rows_after (c : pcsCursor) : list pcsAISRow := merge_sort pcs_le (filter (λ r, after c r = true) source).

Lemma elem_of_rows_after c r : r ∈ rows_after c ↔ r ∈ source ∧ after c r = true.
Proof. unfold rows_after. rewrite merge_sort_Permutation, list_elem_of_filter. naive_solver. Qed.
Lemma key_inj a b : a ∈ source → b ∈ source → row_key a = row_key b → a = b.
Proof.
  intros (i & Hi)%list_elem_of_lookup (j & Hj)%list_elem_of_lookup E.
  assert (i = j); [|by simplify_eq].
  apply (NoDup_lookup (row_key <$> source) i j (row_key a)); [done|by rewrite list_lookup_fmap, Hi|by rewrite list_lookup_fmap, Hj, E].
Qed.
Lemma rows_after_NoDup c : NoDup (rows_after c).
Proof. unfold rows_after. rewrite merge_sort_Permutation. apply NoDup_filter. by eapply NoDup_fmap_1. Qed.

(** Reading on from the last row of a prefix gives the rest. *)
Lemma rows_after_split c l1 l2 a :
  rows_after c = l1 ++ l2 → last l1 = Some a → rows_after (cursor_of a) = l2.
Proof.
  intros E Ha. pose proof (rows_after_NoDup c) as Hnd.
  assert (StronglySorted pcs_le (rows_after c)) as Hs by apply (StronglySorted_merge_sort pcs_le).
  apply last_Some in Ha as [l0 ->]. rewrite E in Hs, Hnd.
  assert (∀ x, x ∈ (l0 ++ [a]) ++ l2 → x ∈ source ∧ after c x = true) as Hin.
  { intros x Hx. rewrite <- E in Hx. by apply elem_of_rows_after. }
  assert (after c a = true ∧ a ∈ source) as [Hca Has] by (destruct (Hin a); [set_solver|done]).
  assert (∀ x, x ∈ l2 → after (cursor_of a) x = true) as H2.
  { intros x Hx. apply after_cursor_of. intros Hle. rewrite <- app_assoc in Hs. apply StronglySorted_app_1_r in Hs.
    apply StronglySorted_inv in Hs as [_ Hs]. rewrite Forall_forall in Hs. specialize (Hs x Hx).
    assert (x = a) as ->. { apply key_inj; [apply Hin; set_solver|done|by apply pcs_le_antisym]. }
    rewrite <- app_assoc in Hnd. apply NoDup_app in Hnd as (_ & _ & Hnd). apply NoDup_cons in Hnd as [Hnd _]. done. }
  assert (∀ x, x ∈ l0 ++ [a] → after (cursor_of a) x = false) as H1.
  { intros x Hx. apply not_true_is_false. rewrite after_cursor_of. intros Hn. apply Hn.
    apply elem_of_app in Hx as [Hx| ->%list_elem_of_singleton]; [|by destruct (total pcs_le a a)].
    rewrite <- app_assoc in Hs. by eapply (StronglySorted_app_1_elem_of pcs_le); [exact Hs| |left]. }
  apply (StronglySorted_unique_strong pcs_le).
  - intros x y Hx Hy H H'. apply key_inj; [by apply elem_of_rows_after in Hx as []|apply Hin; set_solver|by apply pcs_le_antisym].
  - apply (StronglySorted_merge_sort pcs_le).
  - by apply StronglySorted_app_1_r in Hs.
  - unfold rows_after. rewrite merge_sort_Permutation.
    trans (filter (λ r, after (cursor_of a) r = true) (rows_after c)).
    { unfold rows_after. rewrite merge_sort_Permutation, list_filter_filter. apply Permutation_refl', list_filter_iff.
      intros x. split; [|naive_solver]. intros Hx. split; [done|]. by eapply after_trans. }
    rewrite E, filter_app, (filter_none _ (l0 ++ [a])), (filter_all _ l2); [done|..].
    all: apply Forall_forall; intros x Hx; rewrite ?H1, ?H2 by done; done.
Qed.
End import.

(** ** One turn of the importer *)

Section turns.
Context {S E : Type} {Hingest : Ingest S E} {Hlaws : IngestLaws S E} {Hconv : FloatToInt}.
Context (source : list pcsAISRow) (Hkeys : NoDup (row_key <$> source)) (batch : nat).
Implicit Types (w : env S).

Definition handed (rows : list pcsAISRow) : list delivery := (λ r, DPosition (pcs_ingest r)) <$> rows.

Lemma import_row_calls r w :
  calls (e_state (import_row (E := E) r w).1) = calls (e_state w) ++ [DPosition (pcs_ingest r)].
Proof.
  unfold import_row, relabel, mbind, M_bind. pose proof (position_logged (pcs_ingest r) w) as Hl.
  destruct (handle_position (pcs_ingest r) w) as [w1 [u|e]]; cbn in *; [by rewrite metric_logged|done].
Qed.
(** The rows handed over are a first part of the batch, all of it on success. *)
Lemma import_rows_calls rows w :
  ∃ k, calls (e_state (each (import_row (E := E)) rows w).1) = calls (e_state w) ++ handed (take k rows) ∧
       ((each (import_row (E := E)) rows w).2 = Ok tt → take k rows = rows).
Proof.
  revert w. induction rows as [|r rows IH]; intros w; [exists 0%nat; by rewrite app_nil_r|].
  cbn [each]. unfold mbind, M_bind. pose proof (import_row_calls r w) as Hr.
  destruct (import_row r w) as [w1 [u|e]]; cbn in Hr.
  - destruct (IH w1) as (k & Hk & Hok). exists (Datatypes.S k). cbn [take]. rewrite Hk, Hr, <- app_assoc. split; [done|].
    intros Ho. f_equal. auto.
  - exists 1%nat. cbn. by rewrite Hr, take_0.
Qed.

Lemma poll_rows_take c : poll_rows source c batch = take batch (rows_after source c).
Proof. done. Qed.
Lemma poll_turn_spec c w :
  zero_time < cur_ts c →
  ∃ w' c', poll_turn (E := E) source c batch w = (w', Ok c') ∧
    ((c' = c ∧ ∃ k, calls (e_state w') = calls (e_state w) ++ handed (take k (poll_rows source c batch))) ∨
     (∃ a, last (poll_rows source c batch) = Some a ∧ c' = cursor_of a ∧
        calls (e_state w') = calls (e_state w) ++ handed (poll_rows source c batch))).
Proof.
  intros Hc. unfold poll_turn, poll, attempt, mbind, M_bind.
  destruct (external PcsQuery (λ s, (s, poll_rows source c batch)) w) as [w1 [rows|e]] eqn:E1.
  2:{ cbn. eexists _, c. split; [done|]. left. split; [done|]. exists 0%nat. rewrite take_0, app_nil_r. cbn.
      rewrite metric_logged. unfold external in E1. by destruct (e_faults w) as [|[] fs]; simplify_eq. }
  apply external_Ok in E1. injection E1 as E1 <-. rewrite E1. set (rows := poll_rows source c batch).
  destruct (import_rows_calls rows w1) as (k & Hk & Hok).
  destruct (each import_row rows w1) as [w2 [[]|e]]; cbn in Hk, Hok.
  2:{ cbn. eexists _, c. split; [done|]. left. split; [done|]. exists k. cbn. by rewrite metric_logged. }
  specialize (Hok eq_refl). rewrite Hok in Hk. unfold cursor_after. destruct (last rows) as [a|] eqn:Ea; cbn.
  - assert (zero_time < pr_MessageTS a) as Ha.
    { assert (a ∈ rows_after source c) as [_ Haf]%elem_of_rows_after.
      { apply last_Some in Ea as [l0 El]. rewrite <- (take_drop batch (rows_after source c)), <- poll_rows_take.
        fold rows. rewrite El. set_solver. }
      unfold after, strictlyAfter in Haf. rewrite orb_true_iff, andb_true_iff, Z.ltb_lt, Z.eqb_eq in Haf. lia. }
    eexists _, (cursor_of a). unfold time_IsZero. rewrite (proj2 (Z.eqb_neq _ _)) by lia. split; [done|]. right. eauto.
  - eexists _, c. split; [done|]. left. split; [done|]. exists k. by rewrite Hok.
Qed.
End turns.

(** C20: The importer of the port community system loses nothing.  On a table with
    distinct keys, after any number of polls that meet any faults of the database and
    of the pipeline, every row between the first cursor and the cursor reached has
    been handed to the pipeline, rows of one instant cut by a batch boundary
    included, and nothing but rows after the first cursor has been. *)
Theorem pcs_import_loses_nothing {S E} {Hingest : Ingest S E} {Hlaws : IngestLaws S E} {Hconv : FloatToInt}
  (source : list pcsAISRow) (batch n : nat) (c : pcsCursor) (w : env S) :
  NoDup (row_key <$> source) → zero_time < cur_ts c →
  ∃ w' c' new, poll_turns (E := E) n source c batch w = (w', Ok c') ∧
    calls (e_state w') = calls (e_state w) ++ new ∧
    (∀ r, r ∈ source → after c r = true → after c' r = false → DPosition (pcs_ingest r) ∈ new) ∧
    (∀ d, d ∈ new → ∃ r, r ∈ source ∧ after c r = true ∧ d = DPosition (pcs_ingest r)).
Proof.
  intros Hkeys. revert c w. induction n as [|n IH]; intros c w Hc.
  { exists w, c, []. rewrite app_nil_r. split_and!; [done|done|congruence|by intros d ?%not_elem_of_nil]. }
  cbn [poll_turns]. destruct (poll_turn_spec source Hkeys batch c w Hc) as (w1 & c1 & H1 & Hturn).
  assert (∀ k d, d ∈ handed (take k (poll_rows source c batch)) →
    ∃ r, r ∈ source ∧ after c r = true ∧ d = DPosition (pcs_ingest r)) as Honly.
  { intros k d (r & -> & (i & Hi & _)%elem_of_take)%list_elem_of_fmap. rewrite poll_rows_take in Hi.
    apply lookup_take_Some in Hi as [Hi _]. apply list_elem_of_lookup_2, elem_of_rows_after in Hi as []. eauto. }
  erewrite M_bind_run by exact H1. destruct Hturn as [[-> (k & Hk)]|(a & Ha & -> & Hk)].
  - destruct (IH c w1 Hc) as (w' & c' & new & -> & Hnew & Hall & Hfrom). exists w', c', (handed (take k (poll_rows source c batch)) ++ new).
    rewrite Hnew, Hk, app_assoc. split_and!; [done|done| |].
    + intros r Hr H2 H3. apply elem_of_app. right. auto.
    + intros d [Hd|Hd]%elem_of_app; [by eapply Honly|auto].
  - pose proof (take_drop batch (rows_after source c)) as Hsplit. rewrite <- poll_rows_take in Hsplit.
    symmetry in Hsplit. pose proof (rows_after_split source Hkeys c _ _ a Hsplit Ha) as Hrest.
    assert (a ∈ rows_after source c) as [Has Hca]%elem_of_rows_after.
    { rewrite Hsplit. apply last_Some in Ha as [l0 ->]. set_solver. }
    destruct (IH (cursor_of a) w1) as (w' & c' & new & -> & Hnew & Hall & Hfrom).
    { unfold after, strictlyAfter in Hca. rewrite orb_true_iff, andb_true_iff, Z.ltb_lt, Z.eqb_eq in Hca. cbn. lia. }
    exists w', c', (handed (poll_rows source c batch) ++ new). rewrite Hnew, Hk, app_assoc. split_and!; [done|done| |].
    + intros r Hr H2 H3. apply elem_of_app. assert (r ∈ rows_after source c) as Hrc by (by apply elem_of_rows_after).
      rewrite Hsplit in Hrc. apply elem_of_app in Hrc as [Hrc|Hrc]; [left; by eapply list_elem_of_fmap_2'|].
      right. apply Hall; [done| |done]. rewrite <- Hrest in Hrc. by apply elem_of_rows_after in Hrc as [_ ?].
    + intros d [Hd|Hd]%elem_of_app.
      * apply (Honly batch). unfold poll_rows in *. by rewrite take_take, Nat.min_id.
      * destruct (Hfrom d Hd) as (r & ? & ? & ->). exists r. split_and!; [done|by eapply after_trans|done].
Qed.

Section catching_up.
Context {S E : Type} {Hingest : Ingest S E} {Hlaws : IngestLaws S E} {Hconv : FloatToInt}.
(** A pipeline that does its work. *)
Context (Hreliable : ∀ p s, ∃ s', handle_position (E := E) p (mkEnv [] s) = (mkEnv [] s', Ok tt)).

Lemma import_rows_calm rows s :
  ∃ s', each (import_row (E := E)) rows (mkEnv [] s) = (mkEnv [] s', Ok tt) ∧ calls s' = calls s ++ handed rows.
Proof.
  revert s. induction rows as [|r rows IH]; intros s; [exists s; by rewrite app_nil_r|].
  cbn [each]. unfold mbind, M_bind. pose proof (import_row_calls (E := E) r (mkEnv [] s)) as Hc.
  assert (∃ s1, import_row (E := E) r (mkEnv [] s) = (mkEnv [] s1, Ok tt)) as [s1 H1].
  { unfold import_row, relabel, mbind, M_bind. destruct (Hreliable (pcs_ingest r) s) as [s' ->]. cbn. by eexists. }
  rewrite H1 in Hc |- *. destruct (IH s1) as (s' & -> & Hs'). exists s'. split; [done|].
  cbn in Hc. by rewrite Hs', Hc, <- app_assoc.
Qed.

Lemma poll_turn_calm source c batch s :
  ∃ s', calls s' = calls s ++ handed (poll_rows source c batch) ∧
    poll_turn (E := E) source c batch (mkEnv [] s) =
      (mkEnv [] s', Ok (let a := cursor_after (poll_rows source c batch) in if time_IsZero (cur_ts a) then c else a)).
Proof.
  destruct (import_rows_calm (poll_rows source c batch) s) as (s' & H & Hs'). exists s'. split; [done|].
  unfold poll_turn, poll, attempt, mbind, M_bind. cbn [external e_state e_faults]. by rewrite H.
Qed.

(** On a pipeline and a database that answer, the importer catches up: [n] polls
    hand over exactly the first [n * batch] rows after the cursor, in the order of
    the table and each once, so that enough polls hand over every row. *)
Theorem pcs_import_catches_up (source : list pcsAISRow) (batch n : nat) (c : pcsCursor) (s : S) :
  NoDup (row_key <$> source) → zero_time < cur_ts c → (0 < batch)%nat →
  ∃ s' c', poll_turns (E := E) n source c batch (mkEnv [] s) = (mkEnv [] s', Ok c') ∧
    calls s' = calls s ++ handed (take (n * batch) (rows_after source c)).
Proof.
  intros Hkeys Hc Hb. revert c s Hc. induction n as [|n IH]; intros c s Hc.
  { exists s, c. by rewrite app_nil_r. }
  cbn [poll_turns Nat.mul]. destruct (poll_turn_calm source c batch s) as (s1 & Hs1 & H1).
  rewrite (M_bind_run _ _ _ _ _ H1). set (rows := poll_rows source c batch) in *.
  unfold cursor_after. destruct (last rows) as [a|] eqn:Ea; cbn [cur_ts].
  - assert (rows_after source c = rows ++ drop batch (rows_after source c)) as Hsplit
      by (unfold rows; rewrite poll_rows_take; by rewrite take_drop).
    assert (a ∈ rows_after source c) as [_ Hca]%elem_of_rows_after.
    { rewrite Hsplit. apply last_Some in Ea as [l0 ->]. set_solver. }
    unfold after, strictlyAfter in Hca. rewrite orb_true_iff, andb_true_iff, Z.ltb_lt, Z.eqb_eq in Hca.
    unfold time_IsZero. rewrite (proj2 (Z.eqb_neq _ _)) by lia.
    destruct (IH (cursor_of a) s1) as (s' & c' & H & Hs'); [cbn; lia|]. exists s', c'. split; [exact H|].
    rewrite Hs', Hs1, (rows_after_split source Hkeys c _ _ a Hsplit Ea), <- app_assoc. f_equal. unfold handed.
    rewrite <- fmap_app. f_equal. unfold rows. by rewrite poll_rows_take, take_take_drop.
  - destruct (IH c s1 Hc) as (s' & c' & H & Hs'). exists s', c'. split; [exact H|].
    assert (rows_after source c = []) as Hnil.
    { apply last_None in Ea. unfold rows in Ea. rewrite poll_rows_take in Ea.
      destruct (rows_after source c); [done|]. destruct batch; [lia|done]. }
    rewrite Hs', Hs1. unfold rows. rewrite poll_rows_take, Hnil, !take_nil. cbn. by rewrite !app_nil_r.
Qed.
End catching_up.

(** ** Sentences *)

Section receivers.
Context {S E : Type} {Hingest : Ingest S E} {Hlaws : IngestLaws S E} {Hconv : FloatToInt} {Hcodec : AisCodec}.
Implicit Types (w : env S) (c : codec).

(** What a line does to the reassembly buffer, and what it decodes to. *)
Definition feed c (line : string) : codec :=
  if String.eqb (TrimSpace line) "" then c else (Sentence c 0 (TrimSpace line)).1.
Definition decoded c (now : Z) (line : string) : option DecodedFrame :=
  if String.eqb (TrimSpace line) "" then None
  else match (Sentence c now (TrimSpace line)).2 with Ok frame => Some frame | Err _ => None end.
(** The reports of a frame, in the order they are handed over. *)
Definition frame_deliveries (now : Z) (source : string) (frame : DecodedFrame) : list delivery :=
  let receiver := if String.eqb (fr_ReceiverID frame) "" then "nmea-" +:+ sanitizeReceiver source else fr_ReceiverID frame in
  let at_ := observed_at now (fr_TagUnixSeconds frame) in
  match fr_Position frame with Some p => [DPosition (positionFromFrame p receiver at_)] | None => [] end
  ++ match fr_Static frame with Some s => [DStatic (staticFromFrame s at_)] | None => [] end.

Lemma Sentence_buffer c now now' line : (Sentence c now line).1 = (Sentence c now' line).1.
Proof. unfold Sentence. repeat (case_match; [done|]). case_match; [|done]. by destruct (ParseSentence _ _). Qed.
Lemma deliver_report_run name m w :
  ∃ w', deliver_report (E := E) name m w = (w', Ok tt) ∧ calls (e_state w') = calls (e_state (m w).1).
Proof.
  unfold deliver_report, attempt, mbind, M_bind. destruct (m w) as [w1 [u|e]]; cbn; eexists; (split; [done|]); [done|].
  apply metric_logged.
Qed.

Lemma hand_over_run kind part w l :
  (match part with Some m => ∀ w, calls (e_state (m w).1) = calls (e_state w) ++ l | None => l = [] end) →
  ∃ w', hand_over (E := E) kind part w = (w', Ok tt) ∧ calls (e_state w') = calls (e_state w) ++ l.
Proof.
  destruct part as [m|]; [|intros ->; exists w; by rewrite app_nil_r]. intros Hm. unfold hand_over.
  erewrite M_bind_run by reflexivity.
  destruct (deliver_report_run "nmea" m (mkEnv (e_faults w) (metric "geo_nmea_frames_total" kind (e_state w)))) as (w' & H & C).
  exists w'. split; [exact H|]. rewrite C, Hm. cbn. by rewrite metric_logged.
Qed.

Lemma handleSentence_run c line source w :
  ∃ w', handleSentence (E := E) c line source w = (w', Ok (feed c line)) ∧
    calls (e_state w') = calls (e_state w) ++
      match decoded c (clock (e_state w)) line with
      | Some frame => frame_deliveries (clock (e_state w)) source frame
      | None => []
      end.
Proof.
  unfold handleSentence, feed, decoded. destruct (String.eqb (TrimSpace line) ""); [exists w; by rewrite app_nil_r|].
  unfold gets. rewrite (M_bind_run _ _ w w (clock (e_state w))) by done.
  rewrite (Sentence_buffer c 0 (clock (e_state w))).
  destruct (Sentence c (clock (e_state w)) (TrimSpace line)) as [c' [frame|e]]; cbn [fst snd].
  - unfold frame_deliveries. set (receiver := if String.eqb (fr_ReceiverID frame) "" then _ else _).
    set (at_ := observed_at _ _).
    destruct (hand_over_run "position" ((λ p, handle_position (positionFromFrame p receiver at_)) <$> fr_Position frame) w
      match fr_Position frame with Some p => [DPosition (positionFromFrame p receiver at_)] | None => [] end) as (w1 & H1 & C1).
    { destruct (fr_Position frame); cbn; [|done]. intros w0. apply position_logged. }
    destruct (hand_over_run "static" ((λ s, handle_static (staticFromFrame s at_)) <$> fr_Static frame) w1
      match fr_Static frame with Some s => [DStatic (staticFromFrame s at_)] | None => [] end) as (w2 & H2 & C2).
    { destruct (fr_Static frame); cbn; [|done]. intros w0. apply static_logged. }
    exists w2. rewrite (M_bind_run _ _ _ _ _ H1), (M_bind_run _ _ _ _ _ H2). split; [done|].
    by rewrite C2, C1, <- app_assoc.
  - rewrite app_nil_r. destruct e; eexists; (split; [reflexivity|]); cbn; rewrite ?metric_logged; done.
Qed.

(** The lines that [remote] sent, in order. *)
Definition lines_of (remote : string) (datagrams : list (string * string)) : list string :=
  concat ((λ d, split_on (char_of 10) d.2) <$> filter (λ d : string * string, d.1 = remote) datagrams).

Lemma handleSentences_run c lines source w :
  ∃ w', handleSentences (E := E) c lines source w = (w', Ok (fold_left feed lines c)).
Proof.
  revert c w. induction lines as [|l lines IH]; intros c w; [by exists w|]. cbn [handleSentences fold_left].
  destruct (handleSentence_run c l source w) as (w1 & H1 & _). rewrite (M_bind_run _ _ _ _ _ H1). apply IH.
Qed.
Lemma serveUDP_run decoders datagrams w :
  ∃ w' ds, serveUDP (E := E) decoders datagrams w = (w', Ok ds) ∧
    ∀ r, default NewCodec (ds !! r) = fold_left feed (lines_of r datagrams) (default NewCodec (decoders !! r)).
Proof.
  revert decoders w. induction datagrams as [|[remote text] rest IH]; intros decoders w; [by exists w, decoders|].
  cbn [serveUDP]. unfold serve_datagram.
  destruct (handleSentences_run (default NewCodec (decoders !! remote)) (split_on (char_of 10) text) remote w) as (w1 & H1).
  set (c := fold_left feed _ _) in H1.
  assert ((handleSentences (E := E) (default NewCodec (decoders !! remote)) (split_on (char_of 10) text) remote
             ≫= λ c, mret (<[remote := c]> decoders)) w = (w1, Ok (<[remote := c]> decoders))) as H2
    by (by rewrite (M_bind_run _ _ _ _ _ H1)).
  rewrite (M_bind_run _ _ _ _ _ H2). destruct (IH (<[remote := c]> decoders) w1) as (w' & ds & H & Hds).
  exists w', ds. split; [exact H|]. intros r. rewrite Hds. unfold lines_of.
  destruct (decide (remote = r)) as [->|Hne].
  - rewrite lookup_insert_eq, filter_cons_True by done. cbn. by rewrite fold_left_app.
  - by rewrite lookup_insert_ne, filter_cons_False by done.
Qed.

(** Receivers never mix.  Whatever datagrams arrive and however they interleave,
    the reassembly buffer kept for a sender is the one its own lines, in order,
    make of an empty buffer; serving them never fails; and a line hands over exactly
    the position and the static report of the frame it completes, first the
    position, and nothing when it completes none. *)
Theorem receivers_never_mix (datagrams : list (string * string)) (w : env S) :
  (∃ w' ds, serveUDP (E := E) ∅ datagrams w = (w', Ok ds) ∧
     ∀ r, default NewCodec (ds !! r) = fold_left feed (lines_of r datagrams) NewCodec) ∧
  (∀ c line source, ∃ w', handleSentence (E := E) c line source w = (w', Ok (feed c line)) ∧
     calls (e_state w') = calls (e_state w) ++
       match decoded c (clock (e_state w)) line with
       | Some frame => frame_deliveries (clock (e_state w)) source frame
       | None => []
       end).
Proof. split; [apply serveUDP_run|intros; apply handleSentence_run]. Qed.
End receivers.

(** ** Decoded frames *)

Section frames.
Context {Hconv : FloatToInt} {Hcodec : AisCodec}.

Lemma show_dec_long v : 10 ^ 9 ≤ v → (9 < String.length (show_dec v))%nat.
Proof.
  intros Hv. destruct (show_dec_spec v ltac:(lia)) as [Hval Hd].
  apply Nat.nle_gt. intros Hl.
  assert (∀ s, all_chars is_digit s = true → 0 ≤ dec_value s < 10 ^ Z.of_nat (String.length s)) as Hb.
  { intros s. unfold dec_value. assert (∀ acc, 0 ≤ acc → all_chars is_digit s = true →
      0 ≤ dec_value_from acc s < (acc + 1) * 10 ^ Z.of_nat (String.length s)) as H; [|intros H'; specialize (H 0 ltac:(lia) H'); lia].
    induction s as [|c s IH]; intros acc Hacc Hs; cbn [dec_value_from String.length]; [rewrite Z.pow_0_r; lia|].
    apply andb_true_iff in Hs as [Hc Hs]. unfold is_digit in Hc. bool_to_prop.
    specialize (IH (acc * 10 + (byte_of c - 48)) ltac:(lia) Hs). rewrite Nat2Z.inj_succ, Z.pow_succ_r by lia. nia. }
  specialize (Hb _ Hd). rewrite Hval in Hb.
  assert (10 ^ Z.of_nat (String.length (show_dec v)) ≤ 10 ^ 9) by (apply Z.pow_le_mono_r; lia). lia.
Qed.
Lemma mmsiString_nine id : 0 ≤ id → digits_exactly 9 (mmsiString id) = bool_decide (id < 10 ^ 9).
Proof.
  intros Hid. unfold mmsiString, show_padded. destruct (id <? 10 ^ Z.of_nat 9) eqn:E; bool_to_prop.
  - rewrite bool_decide_eq_true_2 by lia. destruct (show_pad_spec 9 id ltac:(lia)) as (_ & Hd & Hl).
    unfold digits_exactly. rewrite Hd, Hl. done.
  - rewrite bool_decide_eq_false_2 by lia. unfold digits_exactly. apply andb_false_iff. left.
    apply Nat.eqb_neq. pose proof (show_dec_long id ltac:(lia)). lia.
Qed.

(** The user of a packet, and the ranges of the library's unsigned members. *)
Definition packet_user (p : ais_packet) : option Z :=
  match p with
  | AisPositionReport m | AisStandardClassB m => Some (aq_UserID m)
  | AisExtendedClassB x => Some (aq_UserID (ax_position x))
  | AisLongRange m => Some (al_UserID m)
  | AisShipStaticData m => Some (as_UserID m)
  | AisStaticDataReport m => Some (at_UserID m)
  | AisOther _ => None
  end.
(** The number of a frame has the nine digits the validation requires exactly when the
    radio's user number is below 10^9, in the position and in the static part. *)
Lemma frame_user_number (now : Z) (tag : string) (s : ais_sentence) (frame : DecodedFrame) (id : Z) :
  packet_user (sn_Packet s) = Some id → 0 ≤ id → frame_of now tag s = Ok frame →
  (∀ p, fr_Position frame = Some p → digits_exactly 9 (pf_MMSI p) = bool_decide (id < 10 ^ 9)) ∧
  (∀ r, fr_Static frame = Some r → digits_exactly 9 (sf_MMSI r) = bool_decide (id < 10 ^ 9)).
Proof.
  intros Hid Hpos Hf. pose proof (mmsiString_nine id Hpos) as Hm. unfold frame_of in Hf.
  destruct (sn_Packet s) as [m|m|x|m|m|m|[]]; cbn -[mmsiString digits_exactly] in *; repeat case_match; simplify_eq;
    cbn -[mmsiString digits_exactly]; split; try done; by intros ? [= <-].
Qed.
End frames.

(** ** The theorems at work *)

(** A client's view that only logs, and a codec that reads one sentence. *)
Module ConnectorSamples.
Instance log_ingest : Ingest (list delivery) unit := {|
  handle_position := λ p, modify (λ l, l ++ [DPosition p]);
  handle_static := λ r, modify (λ l, l ++ [DStatic r]);
  metric := λ _ _ l, l;
  clock := λ _, 5;
  calls := id |}.
Instance log_laws : IngestLaws (list delivery) unit.
Proof. by split. Qed.
Lemma log_reliable p s : ∃ s', handle_position (E := unit) p (mkEnv [] s) = (mkEnv [] s', Ok tt).
Proof. by eexists. Qed.
Instance no_overflow : FloatToInt := {| int32_overflow := λ _, 0; uint32_overflow := λ _, 0 |}.
Definition fix_ (id : Z) : ais_position :=
  mkAisPosition true 1 id (f_of_Z 6) (f_of_Z 3) (f_of_Z 12) (f_of_Z 90) 511 0 true.
(** "A" completes a position report, anything else is kept as a fragment. *)
Instance one_sentence : AisCodec := {|
  codec := nat;
  NewCodec := 0%nat;
  ParseSentence := λ n s, if String.eqb s "A" then (n, Some (Some (mkAisSentence "" 0 (AisPositionReport (fix_ 657000001)))))
                          else (Datatypes.S n, Some None) |}.
Definition pcs_row (ts : Z) (mmsi : string) : pcsAISRow := mkPcsRow mmsi None (f_of_Z 0) (f_of_Z 0) (f_of_Z 0) (f_of_Z 0) ts.
(** Three rows of one instant, read two at a time. *)
Definition pcs_table : list pcsAISRow := [pcs_row 10 "657000003"; pcs_row 10 "657000001"; pcs_row 10 "657000002"].
End ConnectorSamples.
#[local] Existing Instance ConnectorSamples.log_ingest.
#[local] Existing Instance ConnectorSamples.log_laws.
#[local] Existing Instance ConnectorSamples.no_overflow.
#[local] Existing Instance ConnectorSamples.one_sentence.
Import ConnectorSamples.

Lemma pcs_import_loses_nothing_witness :
  ∃ w' c' new, poll_turns (S := list delivery) (E := unit) 2 pcs_table (mkCursor 10 "657000001") 1 (mkEnv [FailAfter] []) = (w', Ok c') ∧
    calls (E := unit) (e_state w') = calls (E := unit) [] ++ new ∧
    (∀ r, r ∈ pcs_table → after (mkCursor 10 "657000001") r = true → after c' r = false → DPosition (pcs_ingest r) ∈ new) ∧
    (∀ d, d ∈ new → ∃ r, r ∈ pcs_table ∧ after (mkCursor 10 "657000001") r = true ∧ d = DPosition (pcs_ingest r)).
Proof.
  apply (pcs_import_loses_nothing (S := list delivery) (E := unit) pcs_table 1 2 (mkCursor 10 "657000001") (mkEnv [FailAfter] [])).
  - by apply (bool_decide_unpack _); vm_compute.
  - by vm_compute.
Defined.

Lemma pcs_import_catches_up_witness :
  ∃ s' c', poll_turns (S := list delivery) (E := unit) 2 pcs_table (mkCursor 9 "") 2 (mkEnv [] []) = (mkEnv [] s', Ok c') ∧
    calls (E := unit) s' = calls (E := unit) [] ++ handed (take (2 * 2) (rows_after pcs_table (mkCursor 9 ""))).
Proof.
  apply (pcs_import_catches_up (S := list delivery) (E := unit) log_reliable pcs_table 2 2 (mkCursor 9 "") []).
  - by apply (bool_decide_unpack _); vm_compute.
  - by vm_compute.
  - lia.
Defined.
(** All three rows, in the order of the key. *)
Example catching_up_rows : pr_MMSI <$> rows_after pcs_table (mkCursor 9 "") = ["657000001"; "657000002"; "657000003"].
Proof. vm_compute. reflexivity. Qed.

Lemma receivers_never_mix_witness :
  (∃ w' ds, serveUDP (S := list delivery) (E := unit) ∅ [("a:1", "x"); ("b:1", "A"); ("a:1", "y")] (mkEnv [] []) = (w', Ok ds) ∧
     ∀ r, default NewCodec (ds !! r) =
            fold_left feed (lines_of r [("a:1", "x"); ("b:1", "A"); ("a:1", "y")]) NewCodec) ∧
  (∀ c line source, ∃ w', handleSentence (S := list delivery) (E := unit) c line source (mkEnv [] []) = (w', Ok (feed c line)) ∧
     calls (e_state w') = calls [] ++
       match decoded c (clock []) line with
       | Some frame => frame_deliveries (clock []) source frame
       | None => []
       end).
Proof.
  exact (receivers_never_mix (S := list delivery) (E := unit) [("a:1", "x"); ("b:1", "A"); ("a:1", "y")] (mkEnv [] [])).
Defined.

(** The conversions on a report: 6 degrees, 12 knots, no heading. *)
Example decoded_fix :
  (pf_MMSI (position_frame (fix_ 657000001) None ""), pf_LatitudeMicros (position_frame (fix_ 657000001) None ""),
   pf_Speed (position_frame (fix_ 657000001) None ""), pf_Heading (position_frame (fix_ 657000001) None "")) =
  ("657000001", 6000000, 12000, None).
Proof. vm_compute. reflexivity. Qed.
(** An extended class B report fills both parts of its frame. *)
Example extended_report_fills_both :
  match frame_of 0 "" (mkAisSentence "" 0 (AisExtendedClassB (mkAisExtended (fix_ 657000001) "TUG" 52 (mkDimension 1 2 3 4) 1))) with
  | Ok frame => is_Some (fr_Position frame) ∧ is_Some (fr_Static frame)
  | Err _ => False
  end.
Proof. vm_compute. split; eauto. Qed.
(** Spaces before the padding of a name stay. *)
Example padding_keeps_spaces : cleanAisText " TUG  @@@" = "TUG  ".
Proof. vm_compute. reflexivity. Qed.
(** A user number of ten digits gives a text the validation refuses. *)
Example long_user_number : CheckMMSI (mmsiString 1073741823) = false.
Proof. vm_compute. reflexivity. Qed.
(** Two fixes of one vessel within one second have one key in the deduplication. *)
Lemma pcs_key_within_a_second a b :
  pr_MMSI a = pr_MMSI b → pr_MessageTS a / second = pr_MessageTS b / second →
  ip_PayloadKey (pcs_ingest a) = ip_PayloadKey (pcs_ingest b).
Proof. intros Hm Ht. unfold pcs_ingest. cbn. unfold time_Unix. by rewrite ?Hm, ?Ht. Qed.
