(* ===== verification/AppStore.v ===== *)
(** * Mobile reports and distress alerts

    [internal/store/app.go] on the tables [app_position_reports] and [sos_alerts]
    ([db/migrations/0003_events.sql], [0006_sos_lifecycle.sql]).  A table maps its
    primary key to the row; the columns the database bounds more tightly than the
    code are checked, other refusals of a statement are faults of its call. *)
From S2P Require Import Prelude GoParse Effects Types Store.

(** ** Rows *)

Record AppReport := mkAppReport {
  ar_PositionReportID : string; ar_ReporterID : string; ar_VesselReference : string; ar_LatitudeMicros : Z;
  ar_LongitudeMicros : Z; ar_AccuracyM : Z; ar_Speed : option Z; ar_RecordedAt : Z; ar_OutboxID : string;
  ar_Classification : string }.
Record SOSAlert := mkSOSAlert {
  sos_SosAlertID : string; sos_ReporterID : string; sos_VesselReference : string; sos_LatitudeMicros : Z;
  sos_LongitudeMicros : Z; sos_RecordedAt : Z; sos_OutboxID : string; sos_FreeText : string; sos_Classification : string }.
(** An entry of the ledger: who, when and why. *)
Record ledger_entry := mkLedger { le_by : string; le_at : Z; le_note : string }.
(** A row of [sos_alerts]; the columns of one entry are null together. *)
Record SOSRecord := mkSosRow {
  sw_alert : SOSAlert; sw_State : string; sw_ReceivedAt : Z;
  sw_acknowledged : option ledger_entry; sw_resolved : option ledger_entry }.
Record app_db := mkAppDB { app_position_reports : gmap string AppReport; sos_alerts : gmap string SOSRecord }.

(** The read model of the API. *)
Record SOSRow := mkSOSRow {
  sr_alert : SOSAlert; sr_State : string; sr_ReceivedAt : Z; sr_AcknowledgedBy : string; sr_AcknowledgedAt : option Z;
  sr_ResolvedBy : string; sr_ResolvedAt : option Z }.
Definition scanSOSRow (r : SOSRecord) : SOSRow :=
  mkSOSRow (sw_alert r) (sw_State r) (sw_ReceivedAt r) (default "" (le_by <$> sw_acknowledged r)) (le_at <$> sw_acknowledged r)
    (default "" (le_by <$> sw_resolved r)) (le_at <$> sw_resolved r).

Definition set_reports (f : gmap string AppReport → gmap string AppReport) (d : app_db) : app_db :=
  mkAppDB (f (app_position_reports d)) (sos_alerts d).
Definition set_alerts (f : gmap string SOSRecord → gmap string SOSRecord) (d : app_db) : app_db :=
  mkAppDB (app_position_reports d) (f (sos_alerts d)).

Class AppWorld (W : Type) := { app_tables : W → app_db; set_app_tables : app_db → W → W; app_clock : W → Z }.
Class AppWorldLaws (W : Type) `{AppWorld W} := {
  tables_set d w : app_tables (set_app_tables d w) = d;
  tables_set_set d d' w : set_app_tables d (set_app_tables d' w) = set_app_tables d w;
  tables_set_same w : set_app_tables (app_tables w) w = w;
}.

Inductive app_error :=
| AppInsert | AppRead | ErrDuplicateOutbox | SosFloor | SosTextTooLong | SosList
| LifecycleActorRequired | LifecycleAction (action : string) | LifecycleNoteTooLong | SosTransaction
| ErrSOSNotFound | ErrSOSInvalidTransition (state target : string).

(** ** Operations *)

(** The columns are 32-bit integers. *)
Definition fits_int4 (z : Z) : bool := z <? 2 ^ 31.

Section operations.
Context {W : Type} `{AppWorld W}.
Abbreviation IO := (M W app_error).

(** INSERT ... ON CONFLICT (reporter_id, outbox_id) DO NOTHING: whether a row was
    written, nothing when the statement is refused. *)
Definition insert_on_conflict {A} (m : gmap string A) (key : string) (same_outbox : A → bool) (checks : bool) (row : A) :
  option (gmap string A * bool) :=
  if negb checks then None
  else if existsb (λ kv, same_outbox kv.2) (map_to_list m) then Some (m, false)
  else match m !! key with Some _ => None | None => Some (<[key := row]> m, true) end.
(** The row of the conflict. *)
Definition row_of {A} (m : gmap string A) (same_outbox : A → bool) : option A :=
  snd <$> List.find (λ kv, same_outbox kv.2) (map_to_list m).

Definition report_outbox (reporter outbox : string) (r : AppReport) : bool :=
  String.eqb (ar_ReporterID r) reporter && String.eqb (ar_OutboxID r) outbox.
Definition report_row (r : AppReport) : AppReport :=
  mkAppReport (ar_PositionReportID r) (ar_ReporterID r) (ar_VesselReference r) (ar_LatitudeMicros r) (ar_LongitudeMicros r)
    (ar_AccuracyM r) (ar_Speed r) (pg_time (ar_RecordedAt r)) (ar_OutboxID r)
    (if String.eqb (ar_Classification r) "" then "PUBLIC" else ar_Classification r).
Definition report_checks (r : AppReport) : bool := fits_int4 (ar_AccuracyM r) && fits_int4 (default 0 (ar_Speed r)).
Definition identical_report (stored r : AppReport) : bool :=
  String.eqb (ar_PositionReportID stored) (ar_PositionReportID r)
  && String.eqb (ar_VesselReference stored) (ar_VesselReference r)
  && (ar_LatitudeMicros stored =? ar_LatitudeMicros r) && (ar_LongitudeMicros stored =? ar_LongitudeMicros r)
  && (ar_RecordedAt stored =? pg_time (ar_RecordedAt r)).

Definition InsertAppReport (report : AppReport) : IO bool :=
  tag ← external AppInsert (λ w,
    let d := app_tables w in
    match insert_on_conflict (app_position_reports d) (ar_PositionReportID report)
            (report_outbox (ar_ReporterID report) (ar_OutboxID report)) (report_checks report) (report_row report) with
    | None => (w, None)
    | Some (m, written) => (set_app_tables (set_reports (λ _, m) d) w, Some written)
    end);
  match tag with
  | None => fail AppInsert
  | Some true => mret true
  | Some false =>
      existing ← external AppRead (λ w,
        (w, row_of (app_position_reports (app_tables w)) (report_outbox (ar_ReporterID report) (ar_OutboxID report))));
      match existing with
      | None => fail AppRead
      | Some stored => if identical_report stored report then mret false else fail ErrDuplicateOutbox
      end
  end.

Definition sos_outbox (reporter outbox : string) (r : SOSRecord) : bool :=
  String.eqb (sos_ReporterID (sw_alert r)) reporter && String.eqb (sos_OutboxID (sw_alert r)) outbox.
Definition alert_row (now : Z) (a : SOSAlert) : SOSRecord :=
  mkSosRow (mkSOSAlert (sos_SosAlertID a) (sos_ReporterID a) (sos_VesselReference a) (sos_LatitudeMicros a)
              (sos_LongitudeMicros a) (pg_time (sos_RecordedAt a)) (sos_OutboxID a) (sos_FreeText a) (sos_Classification a))
    "RAISED" (pg_time now) None None.
Definition identical_alert (stored a : SOSAlert) : bool :=
  String.eqb (sos_SosAlertID stored) (sos_SosAlertID a)
  && String.eqb (sos_VesselReference stored) (sos_VesselReference a)
  && (sos_LatitudeMicros stored =? sos_LatitudeMicros a) && (sos_LongitudeMicros stored =? sos_LongitudeMicros a).
Definition sos_floor (classification : string) : bool :=
  bool_decide (classification ∈ ["RESTRICTED"; "CONFIDENTIAL"; "SECRET"]).

Definition InsertSOSAlert (alert : SOSAlert) : IO bool :=
  if negb (sos_floor (sos_Classification alert)) then fail SosFloor
  else if (280 <? String.length (sos_FreeText alert))%nat then fail SosTextTooLong
  else
    tag ← external AppInsert (λ w,
      let d := app_tables w in
      match insert_on_conflict (sos_alerts d) (sos_SosAlertID alert) (sos_outbox (sos_ReporterID alert) (sos_OutboxID alert)) true
              (alert_row (app_clock w) alert) with
      | None => (w, None)
      | Some (m, written) => (set_app_tables (set_alerts (λ _, m) d) w, Some written)
      end);
    match tag with
    | None => fail AppInsert
    | Some true => mret true
    | Some false =>
        existing ← external AppRead (λ w,
          (w, row_of (sos_alerts (app_tables w)) (sos_outbox (sos_ReporterID alert) (sos_OutboxID alert))));
        match existing with
        | None => fail AppRead
        | Some stored => if identical_alert (sw_alert stored) alert then mret false else fail ErrDuplicateOutbox
        end
    end.

(** ORDER BY received_at DESC; rows of one instant in an order of the database's. *)
Definition received_later (a b : SOSRow) : Prop := sr_ReceivedAt b ≤ sr_ReceivedAt a.
#[local] Instance received_later_dec a b : Decision (received_later a b).
Proof. unfold received_later. apply _. Defined.
Definition ListSOS (clearedLabels : list string) (limit : nat) : IO (list SOSRow) :=
  external SosList (λ w,
    (w, take limit (merge_sort received_later
          (filter (λ r, sos_Classification (sr_alert r) ∈ clearedLabels)
             ((λ kv, scanSOSRow kv.2) <$> map_to_list (sos_alerts (app_tables w))))))).

(** The row after the step, or why there is none. *)
Definition sos_step (action actor note : string) (now : Z) (r : SOSRecord) : result app_error SOSRecord :=
  let entry := mkLedger actor (pg_time now) note in
  if String.eqb action "acknowledge" then
    if negb (String.eqb (sw_State r) "RAISED") then Err (ErrSOSInvalidTransition (sw_State r) "ACKNOWLEDGED")
    else Ok (mkSosRow (sw_alert r) "ACKNOWLEDGED" (sw_ReceivedAt r) (Some entry) (sw_resolved r))
  else
    if negb (String.eqb (sw_State r) "RAISED") && negb (String.eqb (sw_State r) "ACKNOWLEDGED")
    then Err (ErrSOSInvalidTransition (sw_State r) "RESOLVED")
    else Ok (mkSosRow (sw_alert r) "RESOLVED" (sw_ReceivedAt r) (sw_acknowledged r) (Some entry)).

Definition TransitionSOSAlert (sosAlertID actor action note : string) : IO SOSRow :=
  if blank actor then fail LifecycleActorRequired
  else if negb (String.eqb action "acknowledge") && negb (String.eqb action "resolve") then fail (LifecycleAction action)
  else if (500 <? String.length note)%nat then fail LifecycleNoteTooLong
  else
    transaction app_tables set_app_tables SosTransaction SosTransaction
      (found ← external SosTransaction (λ w, (w, sos_alerts (app_tables w) !! sosAlertID));
       match found with
       | None => fail ErrSOSNotFound
       | Some row =>
           now ← gets app_clock;
           match sos_step action actor note now row with
           | Err e => fail e
           | Ok row' =>
               _ ← (if 512 <? char_count actor then fail SosTransaction
                    else external SosTransaction (λ w,
                           (set_app_tables (set_alerts <[sosAlertID := row']> (app_tables w)) w, tt)));
               after ← external SosTransaction (λ w, (w, sos_alerts (app_tables w) !! sosAlertID));
               match after with None => fail SosTransaction | Some r => mret (scanSOSRow r) end
           end
       end).
End operations.

(** [LatestPositionForVesselRef], on the rows of the ingest store: the columns it
    selects, the others at their zero values. *)
Definition LatestPositionForVesselRef {W E} `{IngestWorld W} (e : E) (vesselRef : string) : M W E (option Position) :=
  external e (λ w,
    (w, (λ r, mkPosition (l_PositionReportID r) "" vesselRef (l_SourceClass r) (l_LatitudeMicros r) (l_LongitudeMicros r)
                None None None None "" "" None "" "" "" (l_Classification r) (l_ObservedAt r))
        <$> latest_by_ref (db w) !! vesselRef)).
