(* ===== verification/AppReports.v ===== *)
(** * The mobile surface

    [internal/connectors/appreports.go] (the outbox flush of the mobile app) and the
    distress part of [internal/api/server.go] (read-back, acknowledge, resolve).  The
    state is that of the pipeline with the tables of [AppStore] beside it: handlers
    write the tables, then go through the pipeline and its signed envelopes. *)
From S2P Require Import Prelude GoTime GoParse Types Classification Fence GoFloat Effects Store Sign Auth Http Pipeline AppStore.

Record app_world := mkAppWorld { aw_pipeline : world; aw_tables : app_db }.
#[export] Instance app_world_app : AppWorld app_world := {|
  app_tables := aw_tables;
  set_app_tables := λ d w, mkAppWorld (aw_pipeline w) d;
  app_clock := λ w, w_now (aw_pipeline w) |}.
#[export] Instance app_world_laws : AppWorldLaws app_world.
Proof. split; [done|done|by intros []]. Qed.

Record appReportRequest := mkAppRequest {
  rq_ReporterID : string; rq_VesselReference : string; rq_LatitudeMicros : Z; rq_LongitudeMicros : Z; rq_AccuracyM : Z;
  rq_Speed : option Z; rq_RecordedAt : string; rq_OutboxID : string;
  (** The free text of a distress alert, when the request is one. *)
  rq_SOS : option string }.

(** The message of the first constraint that is broken. *)
Definition validateAppReport (p : appReportRequest) : option string :=
  if blank (rq_ReporterID p) || (128 <? String.length (rq_ReporterID p))%nat then Some "reporterId is required (max 128 chars)"
  else if blank (rq_VesselReference p) || (128 <? String.length (rq_VesselReference p))%nat
  then Some "vesselReference is required (max 128 chars)"
  else if blank (rq_OutboxID p) || (128 <? String.length (rq_OutboxID p))%nat then Some "outboxId is required (max 128 chars)"
  else if (90000000 <? rq_LatitudeMicros p) || (rq_LatitudeMicros p <? -90000000)
  then Some "latitudeMicros outside ±90 degrees"
  else if (180000000 <? rq_LongitudeMicros p) || (rq_LongitudeMicros p <? -180000000)
  then Some "longitudeMicros outside ±180 degrees"
  else if (rq_LatitudeMicros p =? 0) && (rq_LongitudeMicros p =? 0) then Some "(0,0) null-island position is rejected"
  else if blank (rq_RecordedAt p) then Some "recordedAt is required"
  else None.

(** mm/s to thousandths of a knot, in 64 bits, then cut to 32. *)
Definition speedMMSToMilliknots (mms : option Z) : option Z :=
  (λ v, uint32 (uint64 (uint64 (v * 19438445) + 5000000) / 10000000)) <$> mms.

Inductive handler_error := HStore (e : app_error) | HPipe (e : perror).

Section handlers.
Context `{Math} (ST_Intersects : string → string → bool) (uuid : nat → string) (marshal : json → string).
Context (cfg : config).
Abbreviation IO := (M app_world handler_error).

Definition set_pipeline (p : world) (w : app_world) : app_world := mkAppWorld p (aw_tables w).
Definition on_store {A} (m : M app_world app_error A) : IO A := relabel HStore m.
Definition on_pipeline {A} (m : M world perror A) : IO A := relabel HPipe (zoom aw_pipeline set_pipeline m).
(** The call, then [next] on its success; [failed] answers the error. *)
Definition or_answer {A} (m : IO A) (failed : handler_error → response) (next : A → IO response) : IO response :=
  r ← attempt m;
  match r with Err e => mret (failed e) | Ok a => next a end.

Definition persistence_error (message : string) (e : handler_error) : response :=
  match e with
  | HStore ErrDuplicateOutbox => writeError StatusConflict "outbox_id already used with a different payload"
  | _ => writeError StatusInternalServerError message
  end.

Definition app_report (id : string) (p : appReportRequest) (recordedAt : Z) : AppReport :=
  mkAppReport id (rq_ReporterID p) (rq_VesselReference p) (rq_LatitudeMicros p) (rq_LongitudeMicros p) (rq_AccuracyM p)
    (rq_Speed p) recordedAt (rq_OutboxID p) ClassificationPublic.
Definition app_position (id : string) (p : appReportRequest) (recordedAt : Z) : IngestPosition :=
  mkIngest (mkPosition id "" (rq_VesselReference p) SourceAppReport (rq_LatitudeMicros p) (rq_LongitudeMicros p)
              (speedMMSToMilliknots (rq_Speed p)) None None None AccuracyUnspecified "" None "" "" "" ClassificationPublic
              recordedAt) "".
Definition app_payload (id : string) (p : appReportRequest) (recordedAt : Z) : payload :=
  PAppPosition (mkAPR id (rq_ReporterID p) (rq_VesselReference p) (rq_LatitudeMicros p) (rq_LongitudeMicros p)
                  (rq_AccuracyM p) (rq_Speed p) recordedAt (rq_OutboxID p) ClassificationPublic).
Definition sos_alert (id : string) (p : appReportRequest) (freeText : string) (recordedAt : Z) : SOSAlert :=
  mkSOSAlert id (rq_ReporterID p) (rq_VesselReference p) (rq_LatitudeMicros p) (rq_LongitudeMicros p) recordedAt
    (rq_OutboxID p) freeText ClassificationRestricted.
Definition sos_payload (id : string) (p : appReportRequest) (freeText : string) (recordedAt : Z) : payload :=
  PSosRaised (mkSOS id (rq_ReporterID p) (rq_VesselReference p) (rq_LatitudeMicros p) (rq_LongitudeMicros p) recordedAt
                (rq_OutboxID p) freeText ClassificationRestricted).
Definition safety_priority : gmap string string := {["priority" := "SAFETY"]}.
Definition accepted (status key id : string) : response := mkResponse StatusOK [("status", JStr status); (key, JStr id)].

Definition serveSOS (p : appReportRequest) (freeText : string) (recordedAt receivedAt : Z) : IO response :=
  if negb (String.eqb freeText "") && (280 <? String.length freeText)%nat
  then mret (writeError StatusBadRequest "sos freeText exceeds 280 characters")
  else
    id ← on_pipeline (fresh uuid);
    let alertID := "sos-" +:+ id in
    or_answer (on_store (InsertSOSAlert (sos_alert alertID p freeText recordedAt))) (persistence_error "sos persistence failed")
      (λ inserted : bool,
        if negb inserted then mret (accepted "idempotent" "sosAlertId" alertID)
        else
          or_answer (on_pipeline (PublishSignedEnvelope uuid cfg EventSOS alertID (sos_payload alertID p freeText recordedAt)
                                    receivedAt ClassificationRestricted safety_priority))
            (λ _, writeError StatusInternalServerError "sos publication failed")
            (λ _, _ ← on_pipeline (inc "geo_sos_alerts_total" ""); mret (accepted "accepted" "sosAlertId" alertID))).

Definition serveReport (p : appReportRequest) (recordedAt receivedAt : Z) : IO response :=
  id ← on_pipeline (fresh uuid);
  let reportID := "apr-" +:+ id in
  or_answer (on_store (InsertAppReport (app_report reportID p recordedAt))) (persistence_error "app report persistence failed")
    (λ inserted : bool,
      if negb inserted then mret (accepted "idempotent" "positionReportId" reportID)
      else
        or_answer (on_pipeline (HandlePosition ST_Intersects uuid marshal cfg (app_position reportID p recordedAt)))
          (λ _, writeError StatusInternalServerError "app report pipeline failed")
          (λ _,
            or_answer (on_pipeline (PublishSignedEnvelope uuid cfg EventAppPositionReport reportID
                                      (app_payload reportID p recordedAt) receivedAt ClassificationPublic ∅))
              (λ _, writeError StatusInternalServerError "app report publication failed")
              (λ _, mret (accepted "accepted" "positionReportId" reportID)))).

(** [serve]; [wired] when the handler has a pipeline. *)
Definition serve (wired : bool) (body : http_body appReportRequest) : IO response :=
  if negb wired then mret (writeError StatusServiceUnavailable "pipeline unavailable")
  else
    match body with
    | BodyUnreadable => mret (writeError StatusBadRequest "request body unreadable")
    | BodyInvalid => mret (writeError StatusBadRequest "request body is not valid JSON")
    | Body p =>
        match validateAppReport p with
        | Some message => mret (writeError StatusBadRequest message)
        | None =>
            match parse_rfc3339 (rq_RecordedAt p) with
            | None => mret (writeError StatusBadRequest "recordedAt must be RFC 3339")
            | Some recordedAt =>
                receivedAt ← gets app_clock;
                match rq_SOS p with
                | Some freeText => serveSOS p freeText recordedAt receivedAt
                | None => serveReport p recordedAt receivedAt
                end
            end
        end
    end.
Definition app_route_roles : list string := ["geo-app-reporter"].

(** ** Distress alerts: read-back and life cycle *)

Definition sos_row_json (r : SOSRow) : json :=
  let a := sr_alert r in
  JObj ([("sosAlertId", JStr (sos_SosAlertID a)); ("reporterId", JStr (sos_ReporterID a));
         ("vesselReference", JStr (sos_VesselReference a)); ("latitudeMicros", JNum (sos_LatitudeMicros a));
         ("longitudeMicros", JNum (sos_LongitudeMicros a)); ("recordedAt", JTime (sos_RecordedAt a));
         ("freeText", JStr (sos_FreeText a)); ("classification", JStr (sos_Classification a)); ("state", JStr (sr_State r));
         ("receivedAt", JTime (sr_ReceivedAt r))]
        ++ str_omit "acknowledgedBy" (sr_AcknowledgedBy r) ++ opt_omit "acknowledgedAt" JTime (sr_AcknowledgedAt r)
        ++ str_omit "resolvedBy" (sr_ResolvedBy r) ++ opt_omit "resolvedAt" JTime (sr_ResolvedAt r)).

Definition sos_roles : list string := ["geo-sos-reader"; "geo-admin"].
Definition listSOS (p : option Principal) (limit : string) : IO response :=
  principalOrFail p mret (λ principal,
    if negb (restricted_clearance principal)
    then mret (writeError StatusForbidden "sos readback requires RESTRICTED or higher clearance")
    else
      or_answer (on_store (ListSOS (clearedLabels (Clearance principal)) (Z.to_nat (parseLimit limit 100 1000))))
        (λ _, writeError StatusInternalServerError "sos query failed")
        (λ alerts, mret (mkResponse StatusOK [("sosAlerts", JArr (sos_row_json <$> alerts))]))).

(** [^[A-Za-z0-9][A-Za-z0-9._:-]{0,127}$] *)
Definition sosIDPattern (s : string) : bool := identifier 127 s.

Definition lifecycle_payload (action : string) (principal : Principal) (r : SOSRow) (note : string) (occurredAt : Z) : string * payload :=
  let a := sr_alert r in
  if String.eqb action "acknowledge" then
    (EventSOSAcknowledged,
     PSosAcknowledged (mkSosAck (sos_SosAlertID a) (sos_ReporterID a) (sos_VesselReference a) (Subject principal) occurredAt note
                         (sos_Classification a)))
  else
    (EventSOSResolved,
     PSosResolved (mkSosRes (sos_SosAlertID a) (sos_ReporterID a) (sos_VesselReference a) (Subject principal) occurredAt note
                     (sos_Classification a))).

(** [transitionSOS]: the note; an empty body reads as the empty note. *)
Definition transitionSOS (wired : bool) (p : option Principal) (sosAlertID action : string) (body : http_body string) : IO response :=
  principalOrFail p mret (λ principal,
    if negb (restricted_clearance principal)
    then mret (writeError StatusForbidden "sos lifecycle requires RESTRICTED or higher clearance")
    else if negb wired then mret (writeError StatusServiceUnavailable "sos lifecycle event publisher is not wired")
    else if negb (sosIDPattern sosAlertID) then mret (writeError StatusBadRequest "sos alert id is invalid")
    else
      match body with
      | BodyUnreadable | BodyInvalid => mret (writeError StatusBadRequest "request body is not valid JSON")
      | Body note =>
          or_answer (on_store (TransitionSOSAlert sosAlertID (Subject principal) action note))
            (λ e, match e with
                  | HStore ErrSOSNotFound => writeError StatusNotFound "sos alert not found"
                  | HStore (ErrSOSInvalidTransition _ _) =>
                      writeError StatusConflict "sos alert lifecycle transition is not legal from the current state"
                  | _ => writeError StatusBadRequest "sos lifecycle transition failed: "
                  end)
            (λ alert,
              now ← gets app_clock;
              let occurredAt := default now (if String.eqb action "acknowledge" then sr_AcknowledgedAt alert else sr_ResolvedAt alert) in
              let '(eventType, event) := lifecycle_payload action principal alert note occurredAt in
              or_answer (on_pipeline (PublishSignedEnvelope uuid cfg eventType (sos_SosAlertID (sr_alert alert)) event occurredAt
                                        (sos_Classification (sr_alert alert)) safety_priority))
                (λ _, writeError StatusInternalServerError "sos lifecycle event publication failed")
                (λ _, _ ← on_pipeline (inc "geo_sos_lifecycle_transitions_total" action);
                      mret (mkResponse StatusOK [("sosAlert", sos_row_json alert)])))
      end).
Definition acknowledgeSOS (wired : bool) (p : option Principal) (id : string) (body : http_body string) : IO response :=
  transitionSOS wired p id "acknowledge" body.
Definition resolveSOS (wired : bool) (p : option Principal) (id : string) (body : http_body string) : IO response :=
  transitionSOS wired p id "resolve" body.
End handlers.
