(* ===== verification/AppProps.v ===== *)
(** * The mobile surface: properties

    What the tables of [AppStore] keep under every sequence of requests, what an
    accepted answer of [AppReports] promises, and what a replay does. *)
From S2P Require Import Prelude GoTime GoParse Types Classification Fence GoFloat Effects Store Sign Auth Http Validate Dedup Pipeline PipelineProps AppStore AppReports.

(** ** Tables *)

(** The states of an alert with the entries of the ledger they come with. *)
Inductive life : string → option ledger_entry → option ledger_entry → Prop :=
| life_raised : life "RAISED" None None
| life_acknowledged e : life "ACKNOWLEDGED" (Some e) None
| life_resolved o e : life "RESOLVED" o (Some e).
Definition state_rank (s : string) : Z := if String.eqb s "RAISED" then 0 else if String.eqb s "ACKNOWLEDGED" then 1 else 2.

Record alert_ok (k : string) (r : SOSRecord) : Prop := {
  ok_key : sos_SosAlertID (sw_alert r) = k;
  ok_floor : sos_floor (sos_Classification (sw_alert r)) = true;
  ok_text : (String.length (sos_FreeText (sw_alert r)) ≤ 280)%nat;
  ok_life : life (sw_State r) (sw_acknowledged r) (sw_resolved r);
}.
(** What can become of an alert: its contents and entries stay, its state advances. *)
Record alert_later (r r' : SOSRecord) : Prop := {
  later_alert : sw_alert r' = sw_alert r;
  later_received : sw_ReceivedAt r' = sw_ReceivedAt r;
  later_state : state_rank (sw_State r) ≤ state_rank (sw_State r');
  later_acknowledged e : sw_acknowledged r = Some e → sw_acknowledged r' = Some e;
  later_resolved : sw_State r = "RESOLVED" → r' = r;
}.
#[export] Instance alert_later_pre : PreOrder alert_later.
Proof.
  split; [by intros r|]. intros a b c [] []. split; [congruence|congruence|lia|auto|].
  intros E. rewrite <- later_resolved0 by done. apply later_resolved1. by rewrite later_resolved0.
Qed.

Definition one_per_outbox {A} (key : A → string * string) (m : gmap string A) : Prop :=
  ∀ k1 k2 r1 r2, m !! k1 = Some r1 → m !! k2 = Some r2 → key r1 = key r2 → k1 = k2.
Definition report_key (r : AppReport) : string * string := (ar_ReporterID r, ar_OutboxID r).
Definition alert_key (r : SOSRecord) : string * string := (sos_ReporterID (sw_alert r), sos_OutboxID (sw_alert r)).
Record tables_ok (d : app_db) : Prop := {
  tables_alerts : map_Forall alert_ok (sos_alerts d);
  tables_alert_outbox : one_per_outbox alert_key (sos_alerts d);
  tables_report_ids : map_Forall (λ k r, ar_PositionReportID r = k) (app_position_reports d);
  tables_report_outbox : one_per_outbox report_key (app_position_reports d);
}.
Record tables_later (d d' : app_db) : Prop := {
  later_alerts : carried alert_later (sos_alerts d) (sos_alerts d');
  later_reports : carried eq (app_position_reports d) (app_position_reports d');
}.
#[export] Instance tables_later_pre : PreOrder tables_later.
Proof.
  split; [intros d; by split|]. intros d1 d2 d3 [A1 R1] [A2 R2]. split; [by rewrite A1|by rewrite R1].
Qed.

Lemma insert_on_conflict_Some {A} (m m' : gmap string A) key (same : A → bool) checks row written :
  insert_on_conflict m key same checks row = Some (m', written) →
  if written then m !! key = None ∧ m' = <[key := row]> m ∧ ∀ k r, m !! k = Some r → same r = false
  else m' = m ∧ ∃ k r, m !! k = Some r ∧ same r = true.
Proof.
  unfold insert_on_conflict. destruct checks; [|done]. cbn. destruct (existsb _ _) eqn:E.
  - intros [= <- <-]. split; [done|]. apply existsb_exists in E as ([k r] & Hin & Hs). exists k, r. split; [|done].
    by apply list_elem_of_In, elem_of_map_to_list in Hin.
  - case_match eqn:Hk; [done|]. intros [= <- <-]. split_and!; [done|done|]. intros k r Hr.
    apply not_true_is_false. intros Hs. apply not_true_iff_false in E. apply E. apply existsb_exists.
    exists (k, r). split; [|done]. by apply list_elem_of_In, elem_of_map_to_list.
Qed.
Lemma one_per_outbox_insert {A} (key : A → string * string) m k row :
  m !! k = None → (∀ k' r, m !! k' = Some r → key r ≠ key row) → one_per_outbox key m →
  one_per_outbox key (<[k := row]> m).
Proof.
  intros Hk Hne Hu k1 k2 r1 r2 [[<- <-]|[? H1]]%lookup_insert_Some [[<- <-]|[? H2]]%lookup_insert_Some E; [done|..].
  - by destruct (Hne _ _ H2).
  - by destruct (Hne _ _ H1).
  - by eapply Hu.
Qed.
Lemma report_outbox_key reporter outbox r : report_outbox reporter outbox r = bool_decide (report_key r = (reporter, outbox)).
Proof.
  apply eq_true_iff_eq. unfold report_outbox, report_key. rewrite andb_true_iff, !String.eqb_eq, bool_decide_eq_true. naive_solver.
Qed.
Lemma sos_outbox_key reporter outbox r : sos_outbox reporter outbox r = bool_decide (alert_key r = (reporter, outbox)).
Proof.
  apply eq_true_iff_eq. unfold sos_outbox, alert_key. rewrite andb_true_iff, !String.eqb_eq, bool_decide_eq_true. naive_solver.
Qed.

Lemma step_life action actor note now r r' :
  sos_step action actor note now r = Ok r' → life (sw_State r) (sw_acknowledged r) (sw_resolved r) →
  life (sw_State r') (sw_acknowledged r') (sw_resolved r') ∧ alert_later r r'.
Proof.
  intros Hs Hl. unfold sos_step in Hs. destruct (String.eqb action "acknowledge"); inversion Hl as [Es Ea Er|? Es Ea Er|? ? Es Ea Er];
    rewrite <- Es in Hs; cbn in Hs; simplify_eq/=; (split; [|split; rewrite <- ?Es; cbn; try done; congruence]); rewrite <- ?Er, <- ?Ea; constructor.
Qed.

(** ** Every request keeps the tables *)

Section keeps.
Context {W : Type} {Hw : AppWorld W} {Hlaws : AppWorldLaws W}.
(** The tables are in order and continue those of a moment before. *)
Definition continued (d0 : app_db) (w : W) : Prop := tables_ok (app_tables w) ∧ tables_later d0 (app_tables w).

Lemma keeps_insert_report d0 r : keeps (continued d0) (InsertAppReport (W := W) r).
Proof.
  unfold InsertAppReport. apply keeps_bind; [apply keeps_external|].
  2:{ intros [[]|]; eauto with effects. apply keeps_bind; [by apply keeps_external|].
      intros [x|]; [case_match|]; eauto with effects. }
  intros w [[H1 H2 H3 H4] Hl]. cbv zeta. destruct (insert_on_conflict _ _ _ _ _) as [[m written]|] eqn:E; [|by split].
  apply insert_on_conflict_Some in E. cbn [fst]. unfold continued. rewrite !tables_set. destruct written.
  - destruct E as (Hk & -> & Hn). split; [split; cbn; [done|done| |]|].
    + by apply map_Forall_insert_2.
    + apply one_per_outbox_insert; [done| |done]. intros k' x Hx Ek. specialize (Hn _ _ Hx).
      rewrite report_outbox_key, bool_decide_eq_false in Hn. apply Hn. rewrite Ek. done.
    + trans (app_tables w); [done|]. split; [done|]. cbn. apply carried_insert; [apply _|]. intros a. by rewrite Hk.
  - destruct E as [-> _]. split; [by split|]. trans (app_tables w); [done|]. by split.
Qed.
Lemma keeps_insert_alert d0 a : keeps (continued d0) (InsertSOSAlert (W := W) a).
Proof.
  unfold InsertSOSAlert. destruct (sos_floor _) eqn:Hf; [|apply keeps_fail]. cbn [negb].
  destruct (Nat.ltb _ _) eqn:Ht; [apply keeps_fail|]. apply Nat.ltb_ge in Ht. apply keeps_bind; [apply keeps_external|].
  2:{ intros [[]|]; eauto with effects. apply keeps_bind; [by apply keeps_external|].
      intros [x|]; [case_match|]; eauto with effects. }
  intros w [[H1 H2 H3 H4] Hl]. cbv zeta. destruct (insert_on_conflict _ _ _ _ _) as [[m written]|] eqn:E; [|by split].
  apply insert_on_conflict_Some in E. cbn [fst]. unfold continued. rewrite !tables_set. destruct written.
  - destruct E as (Hk & -> & Hn). split; [split; cbn; [| |done|done]|].
    + apply map_Forall_insert_2; [|done]. split; [done..|constructor].
    + apply one_per_outbox_insert; [done| |done]. intros k' x Hx Ek. specialize (Hn _ _ Hx).
      rewrite sos_outbox_key, bool_decide_eq_false in Hn. apply Hn. rewrite Ek. done.
    + trans (app_tables w); [done|]. split; [|done]. cbn. apply carried_insert; [apply _|]. intros a'. by rewrite Hk.
  - destruct E as [-> _]. split; [by split|]. trans (app_tables w); [done|]. by split.
Qed.
Lemma keeps_transition d0 id actor action note : keeps (continued d0) (TransitionSOSAlert (W := W) id actor action note).
Proof.
  unfold TransitionSOSAlert. do 3 (case_match; [apply keeps_fail|]). apply keeps_transaction.
  2:{ intros s0 s Hs. unfold continued in *. by rewrite tables_set. }
  intros w w' a [Hok Hl] (w1 & found & Hf%external_Ok & Hr)%M_bind_Ok. injection Hf as E1 <-.
  destruct (sos_alerts (app_tables (e_state w)) !! id) as [row|] eqn:Hrow; [|done].
  apply M_bind_Ok in Hr as (w2 & now & [= <- <-] & Hr). destruct (sos_step _ _ _ _ _) as [row'|] eqn:Hs; [|done].
  apply M_bind_Ok in Hr as (w3 & [] & Hu & Hr). case_match; [done|]. apply external_Ok in Hu. injection Hu as E3.
  apply M_bind_Ok in Hr as (w4 & after & Ha%external_Ok & Hr). injection Ha as E4 <-.
  assert (e_state w' = e_state w4) as -> by (case_match; [by injection Hr as <- _|done]).
  rewrite <- E4, <- E3, <- E1. unfold continued. rewrite tables_set.
  destruct Hok as [T1 T2 T3 T4]. pose proof (T1 _ _ Hrow) as [K1 K2 K3 K4].
  destruct (step_life _ _ _ _ _ _ Hs K4) as [L1 L2]. pose proof (later_alert _ _ L2) as Ea. split; [split; cbn; [| |done|done]|].
  - apply map_Forall_insert_2; [|done]. split; [by rewrite Ea..|done].
  - intros k1 k2 r1 r2 [[<- <-]|[? R1]]%lookup_insert_Some [[<- <-]|[? R2]]%lookup_insert_Some E; [done|..].
    + eapply (T2 _ _ _ _ Hrow R2). unfold alert_key in *. by rewrite <- Ea.
    + eapply (T2 _ _ _ _ R1 Hrow). unfold alert_key in *. by rewrite <- Ea.
    + by eapply T2.
  - trans (app_tables (e_state w)); [done|]. split; [|done]. cbn. apply carried_insert; [apply _|]. intros a0. rewrite Hrow.
    by intros [= <-].
Qed.
End keeps.

Lemma keeps_relabel {S E E' A} (P : S → Prop) (f : E → E') (m : M S E A) : keeps P m → keeps P (relabel f m).
Proof. intros Hm w Hw. rewrite relabel_state. by apply Hm. Qed.

Section requests.
Context `{Math} (ST_Intersects : string → string → bool) (uuid : nat → string) (marshal : json → string).
Context (cfg : config).
Implicit Types (w : env app_world).

(** The requests of the mobile surface. *)
Inductive app_request :=
| RqServe (wired : bool) (body : http_body appReportRequest)
| RqListSOS (p : option Principal) (limit : string)
| RqTransition (wired : bool) (p : option Principal) (id action : string) (body : http_body string).
Definition app_handle (r : app_request) : M app_world handler_error response :=
  match r with
  | RqServe wired body => serve ST_Intersects uuid marshal cfg wired body
  | RqListSOS p limit => listSOS p limit
  | RqTransition wired p id action body => transitionSOS uuid cfg wired p id action body
  end.
Fixpoint app_run (rs : list app_request) : M app_world handler_error (list response) :=
  match rs with
  | [] => mret []
  | r :: rs' => a ← app_handle r; l ← app_run rs'; mret (a :: l)
  end.

Lemma keeps_answer {A} P (m : M app_world handler_error A) failed next :
  keeps P m → (∀ a, keeps P (next a)) → keeps P (or_answer m failed next).
Proof.
  intros Hm Hn. unfold or_answer. apply keeps_bind; [by apply keeps_attempt|]. intros [a|e]; [apply Hn|apply keeps_ret].
Qed.
Lemma keeps_pipeline {A} d0 (m : M world perror A) : keeps (continued d0) (on_pipeline m).
Proof. apply keeps_relabel, keeps_zoom. by intros s t Ht. Qed.
Lemma keeps_handle d0 r : keeps (continued d0) (app_handle r).
Proof.
  destruct r as [wired body|p limit|wired p id action body]; cbn [app_handle].
  - unfold serve. do 2 (case_match; try apply keeps_ret). do 2 (case_match; try apply keeps_ret).
    apply keeps_bind; [apply keeps_gets|]. intros receivedAt. case_match.
    + unfold serveSOS. case_match; [apply keeps_ret|]. apply keeps_bind; [apply keeps_pipeline|]. intros uid.
      apply keeps_answer; [apply keeps_relabel, keeps_insert_alert|]. intros []; cbn [negb]; [|apply keeps_ret].
      apply keeps_answer; [apply keeps_pipeline|]. intros ?. apply keeps_bind; [apply keeps_pipeline|]. intros ?. apply keeps_ret.
    + unfold serveReport. apply keeps_bind; [apply keeps_pipeline|]. intros uid.
      apply keeps_answer; [apply keeps_relabel, keeps_insert_report|]. intros []; cbn [negb]; [|apply keeps_ret].
      do 2 (apply keeps_answer; [apply keeps_pipeline|]; intros ?). apply keeps_ret.
  - unfold listSOS, principalOrFail. do 2 (case_match; try apply keeps_ret).
    apply keeps_answer; [by apply keeps_relabel, keeps_external|]. intros ?. apply keeps_ret.
  - unfold transitionSOS, principalOrFail. do 5 (case_match; try apply keeps_ret).
    apply keeps_answer; [apply keeps_relabel, keeps_transition|]. intros alert. apply keeps_bind; [apply keeps_gets|].
    intros now. unfold lifecycle_payload. case_match; case_match; simplify_eq; (apply keeps_answer; [apply keeps_pipeline|]; intros ?;
      apply keeps_bind; [apply keeps_pipeline|]; intros ?; apply keeps_ret).
Qed.
Lemma keeps_app_run d0 rs : keeps (continued d0) (app_run rs).
Proof.
  induction rs as [|r rs IH]; cbn [app_run]; [apply keeps_ret|].
  apply keeps_bind; [apply keeps_handle|]. intros a. apply keeps_bind; [apply IH|]. intros l. apply keeps_ret.
Qed.

(** Every request is answered. *)
Lemma answer_total {A} (m : M app_world handler_error A) failed next w :
  (∀ a w, ∃ w' r, next a w = (w', Ok r)) → ∃ w' r, or_answer m failed next w = (w', Ok r).
Proof.
  intros Hn. unfold or_answer, attempt, mbind, M_bind. destruct (m w) as [w1 [a|e]]; [apply Hn|by eexists _, _].
Qed.
Lemma on_fresh w :
  ∃ w1, aw_tables (e_state w1) = aw_tables (e_state w) ∧ w_kafka (aw_pipeline (e_state w1)) = w_kafka (aw_pipeline (e_state w)) ∧
    w_now (aw_pipeline (e_state w1)) = w_now (aw_pipeline (e_state w)) ∧ e_faults w1 = e_faults w ∧
    on_pipeline (fresh uuid) w = (w1, Ok (uuid (w_uuids (aw_pipeline (e_state w))))).
Proof.
  exists (mkEnv (e_faults w) (set_pipeline (upd_uuids (S (w_uuids (aw_pipeline (e_state w)))) (aw_pipeline (e_state w))) (e_state w))).
  split_and!; done.
Qed.
Lemma handle_total r w : ∃ w' a, app_handle r w = (w', Ok a).
Proof.
  destruct r as [wired body|p limit|wired p id action body]; cbn [app_handle].
  - unfold serve. do 2 (case_match; try by eexists _, _). do 2 (case_match; try by eexists _, _).
    unfold gets. erewrite M_bind_run by reflexivity. case_match.
    + unfold serveSOS. case_match; [by eexists _, _|].
      destruct (on_fresh w) as (w1 & _ & _ & _ & _ & Hf). rewrite (M_bind_run _ _ _ _ _ Hf). apply answer_total. intros [] w2; cbn [negb]; [|by eexists _, _].
      apply answer_total. intros ? w3. by eexists _, _.
    + unfold serveReport. destruct (on_fresh w) as (w1 & _ & _ & _ & _ & Hf). rewrite (M_bind_run _ _ _ _ _ Hf).
      apply answer_total. intros [] w2; cbn [negb]; [|by eexists _, _]. do 2 (apply answer_total; intros ? ?). by eexists _, _.
  - unfold listSOS, principalOrFail. do 2 (case_match; try by eexists _, _). apply answer_total. intros ? ?. by eexists _, _.
  - unfold transitionSOS, principalOrFail. do 5 (case_match; try by eexists _, _). apply answer_total. intros alert w1.
    unfold gets. erewrite M_bind_run by reflexivity. destruct (lifecycle_payload _ _ _ _ _).
    apply answer_total. intros ? ?. by eexists _, _.
Qed.
Lemma app_run_total rs w : ∃ w' l, app_run rs w = (w', Ok l) ∧ length l = length rs.
Proof.
  revert w. induction rs as [|r rs IH]; intros w; cbn [app_run]; [by eexists _, []|].
  destruct (handle_total r w) as (w1 & a & H1). rewrite (M_bind_run _ _ _ _ _ H1).
  destruct (IH w1) as (w2 & l & H2 & Hl). rewrite (M_bind_run _ _ _ _ _ H2). eexists _, (a :: l). split; [done|]. cbn. by rewrite Hl.
Qed.
End requests.

(** The tables of the mobile surface.  Every sequence of requests is answered, with
    any faults of the database and of the bus, and under it: an alert keeps its key,
    the RESTRICTED floor and its bounded text; its state and the entries of its ledger
    agree; at most one row is kept per reporter and outbox entry; and no row is ever
    removed, no report changed, no alert's contents changed, no state taken back, no
    acknowledgement overwritten, and a resolved alert stays as it is. *)
Theorem mobile_tables_kept `{Math} (ST_Intersects : string → string → bool) (uuid : nat → string)
  (marshal : json → string) (cfg : config) (rs : list app_request) (w : env app_world) :
  tables_ok (aw_tables (e_state w)) →
  ∃ w' answers, app_run ST_Intersects uuid marshal cfg rs w = (w', Ok answers) ∧ length answers = length rs ∧
    tables_ok (aw_tables (e_state w')) ∧ tables_later (aw_tables (e_state w)) (aw_tables (e_state w')).
Proof.
  intros Hok. pose proof (keeps_app_run ST_Intersects uuid marshal cfg (aw_tables (e_state w)) rs w) as Hk.
  destruct (app_run_total ST_Intersects uuid marshal cfg rs w) as (w' & l & E & Hl). rewrite E in Hk.
  exists w', l. split_and!; [done|done|by apply Hk..].
Qed.

(** ** What an accepted answer promises *)

(** A signed envelope with the payload, under the key and with the headers. *)
Definition announced_on (cfg : config) (et id : string) (p : payload) (headers : gmap string string) (new : list message) : Prop :=
  ∃ e rt, mkMessage TopicVesselEvents (envelopeKey p) (VEnvelope e)
            (<["classification" := env_Classification e]> (<["event-type" := et]> headers)) ∈ new ∧
    built cfg et id e ∧ eventResourceType !! et = Some rt ∧
    Resource (FHIR e) = with_type (typeURLPrefix +:+ rt) (payload_fields p).
Lemma announced_on_app cfg et id p hs l1 l2 : announced_on cfg et id p hs l2 → announced_on cfg et id p hs (l1 ++ l2).
Proof. intros (e & rt & Hin & Hr). exists e, rt. rewrite elem_of_app. auto. Qed.

Lemma NewEnvelope_resource Sign et cid p at_ pr b e v env :
  NewEnvelope (Some Sign) et cid p at_ pr b e v = Ok env →
  ∃ rt, eventResourceType !! et = Some rt ∧ Resource (FHIR env) = with_type (typeURLPrefix +:+ rt) (payload_fields p).
Proof.
  unfold NewEnvelope. destruct (eventResourceType !! et) as [rt|]; [|done]. do 4 (case_match; [done|]).
  destruct (field "@type" _); [done|]. intros (c & _ & He)%bind_Ok. do 2 (case_match; [done|]).
  destruct (Sign _) as [sig|]; [|done]. injection He as <-. by exists rt.
Qed.

Section promises.
Context `{Math} (ST_Intersects : string → string → bool) (uuid : nat → string) (marshal : json → string).
Context (cfg : config).
Implicit Types (w : env app_world).

Lemma publish_announces et cid p at_ cl hs (w w' : env world) u :
  PublishSignedEnvelope uuid cfg et cid p at_ cl hs w = (w', Ok u) →
  ∃ new, w_kafka (e_state w') = w_kafka (e_state w) ++ new ∧ announced_on cfg et cid p hs new.
Proof.
  unfold PublishSignedEnvelope. destruct (ParseClassification cl); [|done].
  intros (w1 & b & [= <- <-] & Hr)%M_bind_Ok. apply M_bind_Ok in Hr as (w2 & e & [= <- <-] & Hr).
  apply M_bind_Ok in Hr as (w3 & v & [= <- <-] & Hr).
  destruct (NewEnvelope _ _ _ _ _ _ _ _ _) as [env|] eqn:E; [|done].
  pose proof (NewEnvelope_resource _ _ _ _ _ _ _ _ _ _ E) as (rt & Hrt & Hres).
  apply NewEnvelope_sound in E as (u0 & sig & Hs & He & Het & Hcid & Hl & Hfl). destruct (negb _); [done|].
  match type of Hr with Publish _ ?m ?w = _ => destruct (Publish_spec cfg m w) as (k & _ & Hst & Hk) end.
  rewrite Hr in Hst, Hk. simpl in Hst, Hk. destruct u. specialize (Hk eq_refl). rewrite Hst. simpl.
  eexists. split; [reflexivity|]. exists env, rt. split_and!; [destruct k; [lia|left]|by split; eauto|done|done].
Qed.
Lemma HandlePosition_grows i (w w' : env world) r :
  HandlePosition ST_Intersects uuid marshal cfg i w = (w', r) → ∃ new, w_kafka (e_state w') = w_kafka (e_state w) ++ new.
Proof.
  intros Hr. set (k := w_kafka (e_state w)).
  assert (keeps (extends k (λ _, True)) (HandlePosition ST_Intersects uuid marshal cfg i)) as Hk.
  { apply path_HandlePosition; [by apply extends_stable|by intros m _; apply extends_admits|]. intros p.
    apply keeps_bind; [by apply keeps_persist, extends_blind|]. intros _.
    apply path_tail; auto using extends_stable, extends_admits, extends_envelopes, keeps_evaluate, extends_blind.
    by intros m _; apply extends_admits. }
  specialize (Hk w). rewrite Hr in Hk. destruct Hk as (n & Hn & _); [exists []; by rewrite app_nil_r|]. by exists n.
Qed.

Lemma on_pipeline_Ok {A} (m : M world perror A) w w' a :
  on_pipeline m w = (w', Ok a) →
  ∃ w1 : env world, m (mkEnv (e_faults w) (aw_pipeline (e_state w))) = (w1, Ok a) ∧
        w' = mkEnv (e_faults w1) (mkAppWorld (e_state w1) (aw_tables (e_state w))).
Proof. unfold on_pipeline. by rewrite relabel_Ok, zoom_Ok. Qed.
Lemma or_answer_Ok {A} (m : M app_world handler_error A) failed next w w' r :
  or_answer m failed next w = (w', Ok r) →
  (∃ e, m w = (w', Err e) ∧ r = failed e) ∨ ∃ w1 a, m w = (w1, Ok a) ∧ next a w1 = (w', Ok r).
Proof. unfold or_answer, attempt, mbind, M_bind. destruct (m w) as [w1 [a|e]]; [eauto|intros [= <- <-]; eauto]. Qed.

Lemma InsertSOSAlert_true a w w' :
  InsertSOSAlert a w = (w', Ok true) →
  aw_pipeline (e_state w') = aw_pipeline (e_state w) ∧
  sos_alerts (aw_tables (e_state w')) !! sos_SosAlertID a = Some (alert_row (w_now (aw_pipeline (e_state w))) a).
Proof.
  unfold InsertSOSAlert. do 2 (case_match; [done|]). intros (w1 & tag & Hx%external_Ok & Hr)%M_bind_Ok.
  destruct (insert_on_conflict _ _ _ _ _) as [[m written]|] eqn:E; injection Hx as Hs <-; [|done].
  apply insert_on_conflict_Some in E. destruct written.
  - injection Hr as <-. rewrite <- Hs. destruct E as (_ & -> & _). cbn. by rewrite lookup_insert_eq.
  - apply M_bind_Ok in Hr as (w2 & ex & _ & Hr). destruct ex; [case_match|]; done.
Qed.
Lemma InsertAppReport_true r w w' :
  InsertAppReport r w = (w', Ok true) →
  aw_pipeline (e_state w') = aw_pipeline (e_state w) ∧ report_checks r = true ∧
  app_position_reports (aw_tables (e_state w')) !! ar_PositionReportID r = Some (report_row r).
Proof.
  unfold InsertAppReport. intros (w1 & tag & Hx%external_Ok & Hr)%M_bind_Ok.
  destruct (insert_on_conflict _ _ _ _ _) as [[m written]|] eqn:E; injection Hx as Hs <-; [|done].
  assert (report_checks r = true) as Hc by (unfold insert_on_conflict in E; by destruct (report_checks r)).
  apply insert_on_conflict_Some in E. destruct written.
  - injection Hr as <-. rewrite <- Hs. destruct E as (_ & -> & _). cbn. by rewrite lookup_insert_eq.
  - apply M_bind_Ok in Hr as (w2 & ex & _ & Hr). destruct ex; [case_match|]; done.
Qed.

Lemma serveSOS_accepted p text at_ received w w' key id :
  serveSOS uuid cfg p text at_ received w = (w', Ok (accepted "accepted" key id)) →
  key = "sosAlertId" ∧ sos_alerts (aw_tables (e_state w')) !! id =
    Some (alert_row (w_now (aw_pipeline (e_state w))) (sos_alert id p text at_)) ∧
  ∃ new, w_kafka (aw_pipeline (e_state w')) = w_kafka (aw_pipeline (e_state w)) ++ new ∧
    announced_on cfg EventSOS id (sos_payload id p text at_) safety_priority new.
Proof.
  unfold serveSOS. case_match; [done|]. destruct (on_fresh uuid w) as (w1 & Ht & Hk & Hn & _ & Hf).
  rewrite (M_bind_run _ _ _ _ _ Hf). set (i := "sos-" +:+ _).
  intros [(e & _ & He)|(w2 & ins & Hi%relabel_Ok & Hr)]%or_answer_Ok; [by destruct e as [[]|]|]. destruct ins; [|done]. cbn [negb] in Hr.
  apply InsertSOSAlert_true in Hi as [Hp Hrow].
  apply or_answer_Ok in Hr as [(e & _ & He)|(w3 & [] & Hpub & Hr)]; [done|].
  apply on_pipeline_Ok in Hpub as (w4 & Hpub & ->). apply publish_announces in Hpub as (new & Hnew & Hann).
  apply M_bind_Ok in Hr as (w5 & [] & Hinc & Hr). apply on_pipeline_Ok in Hinc as (w6 & [= <-] & ->). cbn in *.
  injection Hr as <- <- <-. rewrite Hn in Hrow. split_and!; [done|exact Hrow|]. exists new. cbn. by rewrite Hnew, Hp, Hk.
Qed.
Lemma serveReport_accepted p at_ received w w' key id :
  serveReport ST_Intersects uuid marshal cfg p at_ received w = (w', Ok (accepted "accepted" key id)) →
  key = "positionReportId" ∧ report_checks (app_report id p at_) = true ∧
  app_position_reports (aw_tables (e_state w')) !! id = Some (report_row (app_report id p at_)) ∧
  ∃ new, w_kafka (aw_pipeline (e_state w')) = w_kafka (aw_pipeline (e_state w)) ++ new ∧
    announced_on cfg EventAppPositionReport id (app_payload id p at_) ∅ new.
Proof.
  unfold serveReport. destruct (on_fresh uuid w) as (w1 & Ht & Hk & Hn & _ & Hf). rewrite (M_bind_run _ _ _ _ _ Hf).
  set (i := "apr-" +:+ _). intros [(e & _ & He)|(w2 & ins & Hi%relabel_Ok & Hr)]%or_answer_Ok; [by destruct e as [[]|]|].
  destruct ins; [|done]. cbn [negb] in Hr. apply InsertAppReport_true in Hi as (Hp & Hc & Hrow).
  apply or_answer_Ok in Hr as [(e & _ & He)|(w3 & [] & Hh & Hr)]; [done|].
  apply on_pipeline_Ok in Hh as (w4 & Hh & ->). apply HandlePosition_grows in Hh as (n1 & Hn1).
  apply or_answer_Ok in Hr as [(e & _ & He)|(w5 & [] & Hpub & Hr)]; [done|].
  apply on_pipeline_Ok in Hpub as (w6 & Hpub & ->). apply publish_announces in Hpub as (n2 & Hn2 & Hann). cbn in *.
  injection Hr as <- <- <-. split_and!; [done|exact Hc|exact Hrow|]. exists (n1 ++ n2).
  cbn. rewrite Hn2, Hn1, Hp, Hk, app_assoc. split; [done|]. by apply announced_on_app.
Qed.
End promises.

(** What an accepted answer promises.  A flush that is answered accepted passed the
    contract's constraints; the report, or the alert as RAISED and RESTRICTED, is in its
    table under the identifier of the answer; and a signed envelope with its contents,
    keyed by the reporter, is on the event topic, for an alert with the SAFETY
    priority. *)
Theorem accepted_reports_announced `{Math} (ST_Intersects : string → string → bool) (uuid : nat → string)
  (marshal : json → string) (cfg : config) (wired : bool) (body : http_body appReportRequest)
  (w w' : env app_world) (key id : string) :
  serve ST_Intersects uuid marshal cfg wired body w = (w', Ok (accepted "accepted" key id)) →
  ∃ p at_ new, body = Body p ∧ validateAppReport p = None ∧ parse_rfc3339 (rq_RecordedAt p) = Some at_ ∧
    w_kafka (aw_pipeline (e_state w')) = w_kafka (aw_pipeline (e_state w)) ++ new ∧
    match rq_SOS p with
    | Some text =>
        key = "sosAlertId" ∧
        sos_alerts (aw_tables (e_state w')) !! id =
          Some (alert_row (w_now (aw_pipeline (e_state w))) (sos_alert id p text at_)) ∧
        announced_on cfg EventSOS id (sos_payload id p text at_) safety_priority new
    | None =>
        key = "positionReportId" ∧
        app_position_reports (aw_tables (e_state w')) !! id = Some (report_row (app_report id p at_)) ∧
        announced_on cfg EventAppPositionReport id (app_payload id p at_) ∅ new
    end.
Proof.
  unfold serve. destruct wired; [|done]. cbn [negb]. destruct body as [| |p]; [done..|].
  destruct (validateAppReport p) eqn:Hv; [done|]. destruct (parse_rfc3339 _) as [at_|] eqn:Hat; [|done].
  unfold gets. erewrite M_bind_run by reflexivity. destruct (rq_SOS p) as [text|] eqn:Hs.
  - intros (? & Hrow & new & Hnew & Hann)%serveSOS_accepted. exists p, at_, new. by rewrite Hs.
  - intros (? & _ & Hrow & new & Hnew & Hann)%serveReport_accepted. exists p, at_, new. by rewrite Hs.
Qed.

(** ** Replays *)

Lemma insert_on_conflict_conflict {A} (m : gmap string A) key (same : A → bool) row k r :
  m !! k = Some r → same r = true → insert_on_conflict m key same true row = Some (m, false).
Proof.
  intros Hk Hs. unfold insert_on_conflict. cbn. destruct (existsb _ _) eqn:E; [done|]. apply not_true_iff_false in E. destruct E.
  apply existsb_exists. exists (k, r). split; [|done]. by apply list_elem_of_In, elem_of_map_to_list.
Qed.
(** The row of the conflict is the one row with the outbox entry. *)
Lemma row_of_unique {A} (key : A → string * string) (m : gmap string A) (same : A → bool) k r :
  one_per_outbox key m → m !! k = Some r → (∀ x, same x = bool_decide (key x = key r)) → row_of m same = Some r.
Proof.
  intros Hu Hk Hs. unfold row_of. destruct (List.find _ _) as [[k' x]|] eqn:E.
  - apply List.find_some in E as [Hin Hx]. cbn in *. rewrite Hs, bool_decide_eq_true in Hx.
    apply list_elem_of_In, elem_of_map_to_list in Hin. assert (k' = k) as -> by (by eapply Hu). by simplify_eq.
  - apply (List.find_none _ _ ) with (x := (k, r)) in E; [|by apply list_elem_of_In, elem_of_map_to_list].
    cbn in E. by rewrite Hs, bool_decide_eq_true_2 in E.
Qed.

Section replays.
Implicit Types (w : env app_world).
(** What a call does that finds the outbox entry taken by a row of another
    identifier: nothing, and it never succeeds. *)
Definition refused {A} (e : app_error) (m : M app_world app_error A) (w : env app_world) : Prop :=
  e_state (m w).1 = e_state w ∧ (∃ e', (m w).2 = Err e') ∧ (e_faults w = [] → m w = (w, Err e)).

Lemma conflict_run {A} (act : app_world → app_world * option bool) (look : app_world → option A) (same : A → bool) w r :
  act (e_state w) = (e_state w, Some false) → look (e_state w) = Some r → same r = false →
  refused ErrDuplicateOutbox
    (tag ← external AppInsert act;
     match tag with
     | None => fail AppInsert
     | Some true => mret true
     | Some false =>
         existing ← external AppRead (λ s : app_world, (s, look s));
         match existing with
         | None => fail AppRead
         | Some stored => if same stored then mret false else fail ErrDuplicateOutbox
         end
     end) w.
Proof.
  intros Ha Hl Hs. destruct w as [fs s]. unfold refused, external, mbind, M_bind. cbn in *. rewrite Ha.
  destruct fs as [|[] fs]; cbn; rewrite ?Hl; cbn; rewrite ?Hs; [by split_and!; eauto| |by split_and!; eauto..].
  destruct fs as [|[] fs]; cbn; rewrite ?Hs; by split_and!; eauto.
Qed.

Lemma replayed_alert a w k r :
  tables_ok (aw_tables (e_state w)) → sos_alerts (aw_tables (e_state w)) !! k = Some r →
  alert_key r = (sos_ReporterID a, sos_OutboxID a) → k ≠ sos_SosAlertID a →
  sos_floor (sos_Classification a) = true → (String.length (sos_FreeText a) ≤ 280)%nat →
  refused ErrDuplicateOutbox (InsertSOSAlert a) w.
Proof.
  intros [H1 H2 _ _] Hr Hkey Hk Hf Ht. unfold InsertSOSAlert. rewrite Hf. cbn [negb].
  rewrite (proj2 (Nat.ltb_ge _ _)) by done.
  assert (∀ x, sos_outbox (sos_ReporterID a) (sos_OutboxID a) x = bool_decide (alert_key x = alert_key r)) as Hs
    by (intros x; by rewrite sos_outbox_key, Hkey).
  apply (conflict_run _ (λ s : app_world, row_of (sos_alerts (app_tables s)) (sos_outbox (sos_ReporterID a) (sos_OutboxID a)))
           (λ stored, identical_alert (sw_alert stored) a) w r).
  - cbv zeta. erewrite insert_on_conflict_conflict; [|exact Hr|by rewrite Hs, bool_decide_eq_true_2]. by destruct (e_state w) as [pl []].
  - by apply (row_of_unique alert_key _ _ k).
  - unfold identical_alert. rewrite (ok_key _ _ (H1 _ _ Hr)). by rewrite (proj2 (String.eqb_neq _ _)).
Qed.
Lemma replayed_report a w k r :
  tables_ok (aw_tables (e_state w)) → app_position_reports (aw_tables (e_state w)) !! k = Some r →
  report_key r = report_key a → k ≠ ar_PositionReportID a → report_checks a = true →
  refused ErrDuplicateOutbox (InsertAppReport a) w.
Proof.
  intros [_ _ H1 H2] Hr Hkey Hk Hc. unfold InsertAppReport. rewrite Hc.
  assert (∀ x, report_outbox (ar_ReporterID a) (ar_OutboxID a) x = bool_decide (report_key x = report_key r)) as Hs
    by (intros x; by rewrite report_outbox_key, Hkey).
  apply (conflict_run _ (λ s : app_world, row_of (app_position_reports (app_tables s)) (report_outbox (ar_ReporterID a) (ar_OutboxID a)))
           (λ stored, identical_report stored a) w r).
  - cbv zeta. erewrite insert_on_conflict_conflict; [|exact Hr|by rewrite Hs, bool_decide_eq_true_2]. by destruct (e_state w) as [pl []].
  - by apply (row_of_unique report_key _ _ k).
  - unfold identical_report. rewrite (H1 _ _ Hr). by rewrite (proj2 (String.eqb_neq _ _)).
Qed.
(** The answer of a flush whose insert is refused. *)
Lemma refused_answer uuid (m : string → M app_world app_error bool) message next w :
  (∀ id w1, aw_tables (e_state w1) = aw_tables (e_state w) → id = uuid (w_uuids (aw_pipeline (e_state w))) →
     refused ErrDuplicateOutbox (m id) w1) →
  ∃ w' r, (id ← on_pipeline (fresh uuid); or_answer (on_store (m id)) (persistence_error message) (next id)) w = (w', Ok r) ∧
    aw_tables (e_state w') = aw_tables (e_state w) ∧
    w_kafka (aw_pipeline (e_state w')) = w_kafka (aw_pipeline (e_state w)) ∧ rs_status r ≠ StatusOK ∧
    (e_faults w = [] → r = writeError StatusConflict "outbox_id already used with a different payload").
Proof.
  intros Hm. destruct (on_fresh uuid w) as (w1 & Ht & Hk & Hn & Hfs & Hf). rewrite (M_bind_run _ _ _ _ _ Hf).
  destruct (Hm _ w1 Ht eq_refl) as (Hst & [e' He] & Hcalm). unfold or_answer, on_store, relabel, attempt, mbind, M_bind.
  destruct (m _ w1) as [w2 x]. cbn in Hst, He. subst x. eexists _, _. split; [done|]. rewrite Hst. split_and!; [done|done| |].
  - by destruct e'.
  - intros Hempty. rewrite Hfs in Hcalm. specialize (Hcalm Hempty). by injection Hcalm as _ ->.
Qed.
End replays.

(** A replay has no effect, and is refused.  When an alert or a report of the same
    reporter and outbox entry is in the table, whatever the rest of the request says,
    a further flush of the entry changes no table and publishes nothing under any
    faults, and is never answered 200; without faults it is answered 409, an exact
    repetition too, because the identifier it is compared by is a fresh one. *)
Theorem replayed_flush_refused `{Math} (ST_Intersects : string → string → bool) (uuid : nat → string)
  (marshal : json → string) (cfg : config) (p : appReportRequest) (at_ : Z) (w : env app_world) (k : string) :
  tables_ok (aw_tables (e_state w)) → validateAppReport p = None → parse_rfc3339 (rq_RecordedAt p) = Some at_ →
  match rq_SOS p with
  | Some text =>
      (String.length text ≤ 280)%nat ∧ k ≠ "sos-" +:+ uuid (w_uuids (aw_pipeline (e_state w))) ∧
      ∃ r, sos_alerts (aw_tables (e_state w)) !! k = Some r ∧ alert_key r = (rq_ReporterID p, rq_OutboxID p)
  | None =>
      fits_int4 (rq_AccuracyM p) && fits_int4 (default 0 (rq_Speed p)) = true ∧
      k ≠ "apr-" +:+ uuid (w_uuids (aw_pipeline (e_state w))) ∧
      ∃ r, app_position_reports (aw_tables (e_state w)) !! k = Some r ∧ report_key r = (rq_ReporterID p, rq_OutboxID p)
  end →
  ∃ w' r, serve ST_Intersects uuid marshal cfg true (Body p) w = (w', Ok r) ∧
    aw_tables (e_state w') = aw_tables (e_state w) ∧
    w_kafka (aw_pipeline (e_state w')) = w_kafka (aw_pipeline (e_state w)) ∧ rs_status r ≠ StatusOK ∧
    (e_faults w = [] → r = writeError StatusConflict "outbox_id already used with a different payload").
Proof.
  intros Hok Hv Hat Hcase. unfold serve. cbn [negb]. rewrite Hv, Hat. unfold gets. erewrite M_bind_run by reflexivity.
  destruct (rq_SOS p) as [text|]; destruct Hcase as (Hc & Hk & r & Hr & Hkey).
  - unfold serveSOS. rewrite (proj2 (Nat.ltb_ge _ _)), andb_false_r by done.
    apply (refused_answer uuid (λ id, InsertSOSAlert (sos_alert ("sos-" +:+ id) p text at_))). intros id w1 Ht ->.
    apply (replayed_alert _ w1 k r); by rewrite ?Ht.
  - unfold serveReport. apply (refused_answer uuid (λ id, InsertAppReport (app_report ("apr-" +:+ id) p at_))).
    intros id w1 Ht ->. apply (replayed_report _ w1 k r); by rewrite ?Ht.
Qed.

(** ** The life cycle *)

Lemma TransitionSOSAlert_Ok id actor action note (w w' : env app_world) r :
  TransitionSOSAlert id actor action note w = (w', Ok r) →
  ∃ row row', sos_alerts (aw_tables (e_state w)) !! id = Some row ∧ blank actor = false ∧
    sos_step action actor note (w_now (aw_pipeline (e_state w))) row = Ok row' ∧ r = scanSOSRow row' ∧
    e_state w' = mkAppWorld (aw_pipeline (e_state w)) (set_alerts <[id := row']> (aw_tables (e_state w))).
Proof.
  unfold TransitionSOSAlert. destruct (blank actor); [done|]. do 2 (case_match; [done|]).
  unfold transaction. destruct (external (A := unit) _ _ w) as [w1 [[]|]] eqn:E1; [|done].
  apply external_Ok in E1. injection E1 as E1.
  destruct ((external SosTransaction (λ w0, (w0, sos_alerts (app_tables w0) !! id)) ≫= _) w1) as [w2 [x|]] eqn:E2; [|done].
  intros Hc. assert (x = r ∧ e_state w' = e_state w2) as [-> Hw']
    by (destruct (e_faults w2) as [|[] fs]; by simplify_eq).
  rewrite Hw'. clear Hc Hw'. apply M_bind_Ok in E2 as (w3 & found & Hx%external_Ok & Hr). injection Hx as E3 <-.
  destruct (sos_alerts _ !! id) as [row|] eqn:Hrow; [|done].
  apply M_bind_Ok in Hr as (w4 & now & [= <- <-] & Hr). destruct (sos_step _ _ _ _ _) as [row'|] eqn:Hs; [|done].
  apply M_bind_Ok in Hr as (w5 & [] & Hu & Hr). case_match; [done|]. apply external_Ok in Hu. injection Hu as E5.
  apply M_bind_Ok in Hr as (w6 & after & Ha%external_Ok & Hr). injection Ha as E6 <-.
  rewrite <- E5 in Hr. cbn in Hr. rewrite lookup_insert_eq in Hr. injection Hr as <- <-.
  rewrite E1, <- E6, <- E5, <- E3. rewrite <- E3 in Hs. exists row, row'. split_and!; try done.
Qed.

(** A step of the life cycle.  An acknowledgement or resolution that is answered 200
    was asked for by a principal cleared for RESTRICTED or above; the alert was in a
    state the step is legal from; its row, and no other, carries the new state with the
    principal, the time of the database and the note; and a signed envelope that names
    the same principal is on the event topic with the SAFETY priority. *)
Theorem lifecycle_steps_announced (uuid : nat → string) (cfg : config) (wired : bool) (p : option Principal)
  (id action : string) (body : http_body string) (w w' : env app_world) (r : response) :
  transitionSOS uuid cfg wired p id action body w = (w', Ok r) → rs_status r = StatusOK →
  ∃ principal note row row' new, p = Some principal ∧ body = Body note ∧
    (∃ l, ParseClassification (Clearance principal) = Ok l ∧ Rank ClassificationRestricted ≤ Rank l) ∧
    sos_alerts (aw_tables (e_state w)) !! id = Some row ∧
    sos_step action (Subject principal) note (w_now (aw_pipeline (e_state w))) row = Ok row' ∧
    aw_tables (e_state w') = set_alerts <[id := row']> (aw_tables (e_state w)) ∧
    w_kafka (aw_pipeline (e_state w')) = w_kafka (aw_pipeline (e_state w)) ++ new ∧
    let event := lifecycle_payload action principal (scanSOSRow row') note (pg_time (w_now (aw_pipeline (e_state w)))) in
    announced_on cfg event.1 (sos_SosAlertID (sw_alert row)) event.2 safety_priority new.
Proof.
  unfold transitionSOS, principalOrFail, PrincipalFrom. destruct p as [principal|]; [|by intros [= <- <-]]. cbn [mbind option_bind].
  destruct (String.eqb (Subject principal) ""); [by intros [= <- <-]|].
  destruct (restricted_clearance principal) eqn:Hcl; [|by intros [= <- <-]]. destruct wired; [|by intros [= <- <-]]. cbn [negb].
  destruct (sosIDPattern id); [|by intros [= <- <-]]. destruct body as [| |note]; [by intros [= <- <-]..|]. cbn [negb].
  intros [(e & _ & ->)|(w1 & alert & Ht%relabel_Ok & Hr)]%or_answer_Ok.
  { by destruct e as [[]|]. }
  apply TransitionSOSAlert_Ok in Ht as (row & row' & Hrow & _ & Hs & -> & Hw1).
  unfold gets in Hr. erewrite M_bind_run in Hr by reflexivity. rewrite Hw1 in Hr. cbn [app_clock app_world_app aw_pipeline] in Hr.
  set (now := w_now (aw_pipeline (e_state w))) in *.
  assert (default now (if String.eqb action "acknowledge" then sr_AcknowledgedAt (scanSOSRow row') else sr_ResolvedAt (scanSOSRow row'))
          = pg_time now ∧ sw_alert row' = sw_alert row) as [Hat Ha].
  { unfold sos_step in Hs. destruct (String.eqb action "acknowledge"); repeat case_match; by simplify_eq. }
  rewrite Hat in Hr. destruct (lifecycle_payload _ _ _ _ _) as [et event] eqn:He.
  intros Hok. apply or_answer_Ok in Hr as [(e & _ & ->)|(w2 & [] & Hp & Hr)]; [done|].
  apply on_pipeline_Ok in Hp as (w3 & Hp & ->). apply publish_announces in Hp as (new & Hnew & Hann).
  apply M_bind_Ok in Hr as (w4 & [] & Hinc & Hr). apply on_pipeline_Ok in Hinc as (w5 & [= <-] & ->). injection Hr as <- <-.
  exists principal, note, row, row', new. split_and!; [done|done| |done|done|..].
  - unfold restricted_clearance in Hcl. destruct (ParseClassification (Clearance principal)) as [l|] eqn:El; [|done]. exists l.
    split; [done|]. apply ParseClassification_Ok in El as [El _]. rewrite Covers_ladder in Hcl; [lia|done|]. apply list_elem_of_In. vm_compute. tauto.
  - cbn. by rewrite Hw1.
  - cbn. rewrite Hnew. cbn. by rewrite Hw1.
  - cbn in Hann. rewrite Ha in Hann. by rewrite He.
Qed.

(** ** The theorems at work *)

Module AppSamples.
Definition flush (sos : option string) : appReportRequest :=
  mkAppRequest "fisher-1" "canoe-7" 6450000 3400000 5 (Some 2000) "2026-08-29T09:14:21Z" "outbox-1" sos.
Definition start : app_world := mkAppWorld demo_world (mkAppDB ∅ ∅).
Definition serve_ (p : appReportRequest) (w : env app_world) : env app_world * result handler_error response :=
  serve (H := small_angle_math) (λ _ _, false) demo_uuid (λ _, "") demo_cfg true (Body p) w.
Definition officer : Principal := mkPrincipal "officer-1" {["geo-sos-reader"]} "RESTRICTED" "nimasa".
Definition acknowledge_ (w : env app_world) : env app_world * result handler_error response :=
  acknowledgeSOS demo_uuid demo_cfg true (Some officer) "sos-0" (Body "on it") w.
(** After one accepted alert, and after one accepted report. *)
Definition raised : env app_world := (serve_ (flush (Some "engine fire")) (mkEnv [] start)).1.
Definition reported : env app_world := (serve_ (flush None) (mkEnv [] start)).1.
Lemma start_ok : tables_ok (aw_tables start).
Proof. split; cbn; try apply map_Forall_empty; intros ? ? ? ? []%lookup_empty_Some. Qed.
Lemma raised_ok : tables_ok (aw_tables (e_state raised)).
Proof.
  apply (keeps_handle (H := small_angle_math) (λ _ _, false) demo_uuid (λ _, "") demo_cfg (aw_tables start)
           (RqServe true (Body (flush (Some "engine fire")))) (mkEnv [] start)).
  split; [apply start_ok|done].
Qed.
End AppSamples.
Import AppSamples.

Lemma mobile_tables_kept_witness :
  ∃ w' answers,
    app_run (H := small_angle_math) (λ _ _, false) demo_uuid (λ _, "") demo_cfg
      [RqServe true (Body (flush (Some "engine fire"))); RqTransition true (Some officer) "sos-0" "resolve" (Body "")]
      (mkEnv [] start) = (w', Ok answers) ∧ length answers = 2%nat ∧
    tables_ok (aw_tables (e_state w')) ∧ tables_later (aw_tables start) (aw_tables (e_state w')).
Proof.
  apply (mobile_tables_kept (H := small_angle_math) (λ _ _, false) demo_uuid (λ _, "") demo_cfg
    [RqServe true (Body (flush (Some "engine fire"))); RqTransition true (Some officer) "sos-0" "resolve" (Body "")] (mkEnv [] start)).
  exact start_ok.
Defined.

Lemma accepted_reports_announced_witness :
  ∃ p at_ new, Body (flush (Some "engine fire")) = Body p ∧ validateAppReport p = None ∧
    parse_rfc3339 (rq_RecordedAt p) = Some at_ ∧
    w_kafka (aw_pipeline (e_state raised)) = [] ++ new ∧
    match rq_SOS p with
    | Some text =>
        "sosAlertId" = "sosAlertId" ∧
        sos_alerts (aw_tables (e_state raised)) !! "sos-0" = Some (alert_row (1000 * second) (sos_alert "sos-0" p text at_)) ∧
        announced_on demo_cfg EventSOS "sos-0" (sos_payload "sos-0" p text at_) safety_priority new
    | None =>
        "sosAlertId" = "positionReportId" ∧
        app_position_reports (aw_tables (e_state raised)) !! "sos-0" = Some (report_row (app_report "sos-0" p at_)) ∧
        announced_on demo_cfg EventAppPositionReport "sos-0" (app_payload "sos-0" p at_) ∅ new
    end.
Proof.
  apply (accepted_reports_announced (H := small_angle_math) (λ _ _, false) demo_uuid (λ _, "") demo_cfg true
           (Body (flush (Some "engine fire"))) (mkEnv [] start) raised "sosAlertId" "sos-0").
  vm_compute. reflexivity.
Defined.

(** The very request that was accepted, sent again. *)
Lemma replayed_flush_refused_witness :
  ∃ w' r, serve_ (flush (Some "engine fire")) raised = (w', Ok r) ∧
    aw_tables (e_state w') = aw_tables (e_state raised) ∧
    w_kafka (aw_pipeline (e_state w')) = w_kafka (aw_pipeline (e_state raised)) ∧ rs_status r ≠ StatusOK ∧
    (e_faults raised = [] → r = writeError StatusConflict "outbox_id already used with a different payload").
Proof.
  apply (replayed_flush_refused (H := small_angle_math) (λ _ _, false) demo_uuid (λ _, "") demo_cfg (flush (Some "engine fire"))
           (1787994861 * second) raised "sos-0").
  - exact raised_ok.
  - vm_compute. reflexivity.
  - vm_compute. reflexivity.
  - split_and!; [cbn; lia|by vm_compute|]. eexists. split; vm_compute; reflexivity.
Defined.

Lemma lifecycle_steps_announced_witness :
  ∃ principal note row row' new, Some officer = Some principal ∧ Body "on it" = Body note ∧
    (∃ l, ParseClassification (Clearance principal) = Ok l ∧ Rank ClassificationRestricted ≤ Rank l) ∧
    sos_alerts (aw_tables (e_state raised)) !! "sos-0" = Some row ∧
    sos_step "acknowledge" (Subject principal) note (w_now (aw_pipeline (e_state raised))) row = Ok row' ∧
    aw_tables (e_state (acknowledge_ raised).1) = set_alerts <["sos-0" := row']> (aw_tables (e_state raised)) ∧
    w_kafka (aw_pipeline (e_state (acknowledge_ raised).1)) = w_kafka (aw_pipeline (e_state raised)) ++ new ∧
    let event := lifecycle_payload "acknowledge" principal (scanSOSRow row') note (pg_time (w_now (aw_pipeline (e_state raised)))) in
    announced_on demo_cfg event.1 (sos_SosAlertID (sw_alert row)) event.2 safety_priority new.
Proof.
  eapply (lifecycle_steps_announced demo_uuid demo_cfg true (Some officer) "sos-0" "acknowledge" (Body "on it") raised
            (acknowledge_ raised).1).
  - vm_compute. reflexivity.
  - vm_compute. reflexivity.
Defined.

(** The announcement fails after the step is durable: the alert is acknowledged, nobody
    is told, and the retry is refused without telling either. *)
Example unannounced_acknowledgement :
  let '(w1, r1) := acknowledge_ (mkEnv (replicate 5 NoFault ++ [FailBefore; FailBefore]) (e_state raised)) in
  let '(w2, r2) := acknowledge_ (mkEnv [] (e_state w1)) in
  rs_status <$> r1 = Ok 500 ∧ rs_status <$> r2 = Ok 409 ∧
  sw_State <$> (sos_alerts (aw_tables (e_state w2)) !! "sos-0") = Some "ACKNOWLEDGED" ∧
  w_kafka (aw_pipeline (e_state w2)) = w_kafka (aw_pipeline (e_state raised)).
Proof. vm_compute. split_and!; reflexivity. Qed.

(** Reports of the app have no MMSI and no receiver, so all of them share one track: a
    second vessel's report from elsewhere is taken for a jump of the first, goes to
    quarantine, and is answered accepted. *)
Definition elsewhere : appReportRequest :=
  mkAppRequest "fisher-2" "trawler-1" 4300000 7100000 5 None "2026-08-29T09:14:22Z" "outbox-9" None.
Example two_vessels_one_track :
  let '(w1, r) := serve_ elsewhere reported in
  rs_status <$> r = Ok 200 ∧ latest_by_ref (w_db (aw_pipeline (e_state w1))) !! "trawler-1" = None ∧
  length (filter (λ m, m_topic m = TopicVesselQuarantine) (w_kafka (aw_pipeline (e_state w1)))) = 1%nat.
Proof. vm_compute. split_and!; reflexivity. Qed.
(** A speed the table accepts is converted without wrapping. *)
Lemma speed_in_range v : 0 ≤ v < 2 ^ 31 →
  speedMMSToMilliknots (Some v) = Some ((v * 19438445 + 5000000) / 10000000).
Proof.
  intros Hv. unfold speedMMSToMilliknots, uint64, uint32. cbn [fmap option_fmap option_map].
  rewrite (Z.mod_small (v * 19438445)), (Z.mod_small (v * 19438445 + 5000000)) by lia. rewrite Z.mod_small; [done|].
  split; [apply Z.div_pos; lia|apply Z.div_lt_upper_bound; lia].
Qed.
