(* ===== verification/Congestion.v ===== *)
(** * The port-congestion baseline

    [internal/congestion/forecast.go]: seasonal indices and damped Holt smoothing
    over the recorded queue series, with a rolling-origin backtest.  Arithmetic is
    binary64 and int is 64 bits wide; an index outside a slice or a slice too large to
    make, which panics, is [None]. *)
From S2P Require Import Prelude GoTime GoFloat.

Record Observation := mkObservation { ObservedAtUnix : Z; QueueLength : float64 }.
Record PointForecast := mkPointForecast {
  pt_Step : Z; pt_AtUnix : Z; pt_QueueLength : float64; pt_Lower80 : float64; pt_Upper80 : float64;
  pt_Lower95 : float64; pt_Upper95 : float64 }.
Record backtestScores := mkScores { modelMAE : float64; modelMAPE : float64; naiveMAE : float64; naiveMAPE : float64 }.
Record Forecast := mkForecast {
  fc_PortCode : string; fc_Model : string; fc_SeasonalPeriod : nat; fc_TrainedOn : nat; fc_Points : list PointForecast;
  fc_Backtest : backtestScores }.
Inductive forecast_error := ErrInsufficientHistory | HorizonInvalid.

Definition minHistory : nat := 8.
Definition holtAlpha : float64 := f_lit 4 10.
Definition holtBeta : float64 := f_lit 1 10.
Definition holtPhi : float64 := f_lit 9 10.
Definition ModelLabel : string := "seasonal-naive+holt-damped baseline v1.0.0".

Definition f0 : float64 := f_of_Z 0.
Definition f1 : float64 := f_of_Z 1.
Definition f_nat (n : nat) : float64 := f_of_Z (Z.of_nat n).
(** [math.Abs]. *)
Definition f_abs (x : float64) : float64 := SFabs x.
Definition clampNonNeg (v : float64) : float64 := if f_lt v f0 || f_is_nan v then f0 else v.

(** A loop whose body may panic. *)
Fixpoint foldM {A B} (f : A → B → option A) (l : list B) (a : A) : option A :=
  match l with [] => Some a | x :: l' => a' ← f a x; foldM f l' a' end.

(** [make([]T, n)] of elements of [size] bytes panics on a negative length and above the
    largest allocation of a 64-bit platform; running out of memory below it is not
    modelled. *)
Definition max_alloc : Z := 2 ^ 48.
Definition can_make (size n : Z) : bool := (0 <=? n) && (n * size <=? max_alloc).

(** ** The model *)

(** The sums and counts of the ratios of a season's positions. *)
Definition season_ratio (y : list float64) (period i : nat) (windowMean : float64) (acc : list float64 * list Z) (k : nat) :
  option (list float64 * list Z) :=
  let p := ((i + k) mod period)%nat in
  v ← y !! (i + k)%nat;
  s ← acc.1 !! p;
  c ← acc.2 !! p;
  Some (<[p := f_add s (f_div v windowMean)]> acc.1, <[p := c + 1]> acc.2).
Definition season_window (y : list float64) (period : nat) (acc : list float64 * list Z) (i : nat) : option (list float64 * list Z) :=
  total ← foldM (λ t k, v ← y !! (i + k)%nat; Some (f_add t v)) (seq 0 period) f0;
  let windowMean := f_div total (f_nat period) in
  if f_le windowMean f0 then Some acc else foldM (season_ratio y period i windowMean) (seq 0 period) acc.
Definition season_index (sums : list float64) (counts : list Z) (acc : list float64 * float64) (p : nat) : option (list float64 * float64) :=
  c ← counts !! p;
  s ← sums !! p;
  let index := if 0 <? c then f_div s (f_of_Z c) else f1 in
  Some (acc.1 ++ [index], f_add acc.2 index).
Definition seasonalIndices (y : list float64) (period : nat) : option (list float64) :=
  if negb (can_make 8 (Z.of_nat period)) then None else
  '(sums, counts) ← foldM (season_window y period) (seq 0 (length y - period)) (repeat f0 period, repeat 0 period);
  '(indices, total) ← foldM (season_index sums counts) (seq 0 period) ([], f0);
  let mean := f_div total (f_nat period) in
  let mean := if f_le mean f0 then f1 else mean in
  Some (map (λ x, f_div x mean) indices).

(** Dividing each value by the index of its position. *)
Definition deseasonalize (y seasonal : list float64) (period : nat) : option (list float64) :=
  mapM (λ iv : nat * float64,
    s ← seasonal !! (iv.1 mod period)%nat;
    Some (f_div iv.2 (if f_le s f0 then f1 else s))) (zip (seq 0 (length y)) y).

Record holt := mkHolt { h_level : float64; h_trend : float64; h_fitted : list float64 }.
Definition holt_step (alpha beta phi : float64) (h : holt) (v : float64) : holt :=
  let ahead := f_add (h_level h) (f_mul phi (h_trend h)) in
  let level := f_add (f_mul alpha v) (f_mul (f_sub f1 alpha) ahead) in
  mkHolt level
    (f_add (f_mul beta (f_sub level (h_level h))) (f_mul (f_mul (f_sub f1 beta) phi) (h_trend h)))
    (h_fitted h ++ [ahead]).
Definition holtDamped (y : list float64) (alpha beta phi : float64) : option holt :=
  first ← y !! 0%nat;
  trend ← (if (1 <? length y)%nat then second_ ← y !! 1%nat; Some (f_sub second_ first) else Some f0);
  Some (fold_left (holt_step alpha beta phi) (drop 1 y) (mkHolt first trend [first])).

Definition predictOneStep (train : list float64) (seasonalPeriod stepIdx : nat) : option float64 :=
  let period := if (seasonalPeriod <? 2)%nat || (Z.of_nat (length train) <? int64 (2 * Z.of_nat seasonalPeriod)) then 0%nat else seasonalPeriod in
  if Nat.eqb period 0 then
    h ← holtDamped train holtAlpha holtBeta holtPhi;
    Some (clampNonNeg (f_mul (f_add (h_level h) (f_mul holtPhi (h_trend h))) f1))
  else
    seasonal ← seasonalIndices train period;
    d ← deseasonalize train seasonal period;
    h ← holtDamped d holtAlpha holtBeta holtPhi;
    scale ← seasonal !! (stepIdx mod period)%nat;
    Some (clampNonNeg (f_mul (f_add (h_level h) (f_mul holtPhi (h_trend h))) scale)).

(** ** The backtest *)

Definition backtest_window (n : nat) : nat := Nat.max 4 (Nat.min 48 (n / 4)).
Record errors := mkErrors { e_model : float64; e_modelAPE : float64; e_naive : float64; e_naiveAPE : float64 }.
Definition hundred : float64 := f_of_Z 100.
Definition backtest_step (y : list float64) (seasonalPeriod : nat) (acc : errors) (i : nat) : option errors :=
  actual ← y !! i;
  model ← predictOneStep (take i y) seasonalPeriod i;
  let ref := if (0 <? seasonalPeriod)%nat && (seasonalPeriod <=? i)%nat then (i - seasonalPeriod)%nat else (i - 1)%nat in
  naive ← y !! ref;
  let model_error := f_abs (f_sub actual model) in
  let naive_error := f_abs (f_sub actual naive) in
  let counted := f_lt f0 actual in
  Some (mkErrors (f_add (e_model acc) model_error)
          (if counted then f_add (e_modelAPE acc) (f_mul (f_div model_error actual) hundred) else e_modelAPE acc)
          (f_add (e_naive acc) naive_error)
          (if counted then f_add (e_naiveAPE acc) (f_mul (f_div naive_error actual) hundred) else e_naiveAPE acc)).
(** At least four origins are used, so there is no empty case. *)
Definition backtest (y : list float64) (seasonalPeriod : nat) : option backtestScores :=
  let n := length y in
  let window := backtest_window n in
  e ← foldM (backtest_step y seasonalPeriod) (seq (n - window) window) (mkErrors f0 f0 f0 f0);
  let used := f_nat window in
  Some (mkScores (f_div (e_model e) used) (f_div (e_modelAPE e) used) (f_div (e_naive e) used) (f_div (e_naiveAPE e) used)).

(** ** The forecast *)

Definition by_time (a b : Observation) : Prop := ObservedAtUnix a ≤ ObservedAtUnix b.
#[export] Instance by_time_dec a b : Decision (by_time a b).
Proof. unfold by_time. apply _. Defined.
#[export] Instance by_time_total : Total by_time.
Proof. intros a b. unfold by_time. lia. Qed.
#[export] Instance by_time_trans : Transitive by_time.
Proof. intros a b c. unfold by_time. lia. Qed.

Section forecast.
Context `{MathPow}.
Definition residual_std (y fitted : list float64) (seasonal : option (list float64)) (period : nat) : option float64 :=
  total ← foldM (λ acc i,
      scale ← match seasonal with None => Some f1 | Some s => s !! (i mod period)%nat end;
      v ← y !! i;
      f ← fitted !! i;
      let resid := f_sub v (f_mul f scale) in
      Some (f_add acc (f_mul resid resid))) (seq 1 (length y - 1)) f0;
  Some (if (1 <? length y)%nat then f_sqrt (f_div total (f_nat (length y - 1))) else f0).
Definition forecast_point (n : nat) (lastAt stepSeconds : Z) (level trend residualStd : float64) (seasonal : option (list float64))
  (period : nat) (acc : list PointForecast * float64) (h : nat) : option (list PointForecast * float64) :=
  let dampedSum := f_add acc.2 (math_Pow holtPhi (f_nat h)) in
  let base := f_add level (f_mul dampedSum trend) in
  scale ← match seasonal with None => Some f1 | Some s => s !! ((n + h - 1) mod period)%nat end;
  let mean := f_mul base scale in
  let w := f_mul residualStd (f_sqrt (f_nat h)) in
  let z80 := f_mul (f_lit 12816 10000) w in
  let z95 := f_mul (f_lit 19599 10000) w in
  Some (acc.1 ++ [mkPointForecast (Z.of_nat h) (int64 (lastAt + int64 (Z.of_nat h * stepSeconds))) (clampNonNeg mean)
                    (clampNonNeg (f_sub mean z80)) (clampNonNeg (f_add mean z80))
                    (clampNonNeg (f_sub mean z95)) (clampNonNeg (f_add mean z95))], dampedSum).

(** [sort.Slice] leaves the order of observations of the same time open; here it is that of
    the argument. *)
Definition ForecastSeries (portCode : string) (observations : list Observation) (stepSeconds horizon seasonalPeriod : Z) :
  option (result forecast_error Forecast) :=
  if (length observations <? minHistory)%nat then Some (Err ErrInsufficientHistory)
  else if (horizon <=? 0) || (stepSeconds <=? 0) then Some (Err HorizonInvalid)
  else
    let obs := merge_sort by_time observations in
    let y := QueueLength <$> obs in
    let n := length y in
    let period := if (seasonalPeriod <? 2) || (Z.of_nat n <? int64 (2 * seasonalPeriod)) then 0%nat else Z.to_nat seasonalPeriod in
    seasonal ← (if Nat.eqb period 0 then Some None else Some <$> seasonalIndices y period);
    d ← match seasonal with None => Some y | Some s => deseasonalize y s period end;
    h ← holtDamped d holtAlpha holtBeta holtPhi;
    residualStd ← residual_std y (h_fitted h) seasonal period;
    bt ← backtest y period;
    last_ ← last obs;
    _ ← (if can_make 56 horizon then Some tt else None);
    points ← foldM (forecast_point n (ObservedAtUnix last_) stepSeconds (h_level h) (h_trend h) residualStd seasonal period)
               (seq 1 (Z.to_nat horizon)) ([], f0);
    Some (Ok (mkForecast portCode ModelLabel period n points.1 bt)).
End forecast.

(** ** Cadence *)

(** The positive differences of neighbours. *)
Fixpoint positive_deltas (times : list Z) : list Z :=
  match times with
  | a :: (b :: _) as rest => if 0 <? b - a then (b - a) :: positive_deltas rest else positive_deltas rest
  | _ => []
  end.
Definition MedianIntervalSeconds (observations : list Observation) : Z :=
  if (length observations <? 2)%nat then 0
  else
    let times := merge_sort Z.le (ObservedAtUnix <$> observations) in
    let deltas := merge_sort Z.le (positive_deltas times) in
    default 0 (deltas !! (length deltas / 2)%nat).

(** The quotient is that of the float division, below 86401. *)
Definition DailySeasonalPeriod (stepSeconds : Z) : Z :=
  if (stepSeconds <=? 0) || (12 * 3600 <? stepSeconds) then 0
  else
    let period := default 0 (f_round (f_div (f_of_Z 86400) (f_of_Z stepSeconds))) in
    if period <? 2 then 0 else period.

(** ** The port-congestion baseline: properties

    No index of the computation leaves its slice, the forecast has the shape its
    caller asked for, it does not depend on the order the observations come in, and
    the cadence it is labelled with is one of the recorded series. *)

(** ** Loops that do not panic *)

Lemma foldM_inv {A B} (P : A → Prop) (f : A → B → option A) l a :
  P a → (∀ a x, x ∈ l → P a → ∃ a', f a x = Some a' ∧ P a') → ∃ a', foldM f l a = Some a' ∧ P a'.
Proof.
  revert a. induction l as [|x l IH]; intros a Ha Hf; [by exists a|]. cbn [foldM].
  destruct (Hf a x) as (a1 & -> & H1); [left|done|]. cbn. apply IH; [done|]. intros. apply Hf; [by right|done].
Qed.
(** A loop that appends one element a turn. *)
Lemma foldM_append {A B C} (f : list C * A → B → option (list C * A)) (Q : B → C → Prop) l acc :
  (∀ acc x, x ∈ l → ∃ c a', f acc x = Some (acc.1 ++ [c], a') ∧ Q x c) →
  ∃ cs a', foldM f l acc = Some (acc.1 ++ cs, a') ∧ Forall2 Q l cs.
Proof.
  revert acc. induction l as [|x l IH]; intros acc Hf; cbn [foldM]; [exists [], acc.2; rewrite app_nil_r; by destruct acc|].
  destruct (Hf acc x) as (c & a1 & -> & Hc); [left|]. cbn.
  destruct (IH (acc.1 ++ [c], a1)) as (cs & a' & -> & Hcs); [intros; apply Hf; by right|].
  exists (c :: cs), a'. cbn. rewrite <- app_assoc. split; [done|by constructor].
Qed.
Lemma lookup_lt_exists {A} (l : list A) i : (i < length l)%nat → ∃ x, l !! i = Some x.
Proof. apply lookup_lt_is_Some_2. Qed.

Lemma seasonalIndices_total y period : (0 < period)%nat → can_make 8 (Z.of_nat period) = true → ∃ s, seasonalIndices y period = Some s ∧ length s = period.
Proof.
  intros Hp Hmake. unfold seasonalIndices. rewrite Hmake. cbn [negb].
  set (P := λ acc : list float64 * list Z, length acc.1 = period ∧ length acc.2 = period).
  destruct (foldM_inv P (season_window y period) (seq 0 (length y - period)) (repeat f0 period, repeat 0 period)) as ([sums counts] & -> & Hs & Hc).
  { split; cbn; apply repeat_length. }
  { intros acc i [_ Hi]%elem_of_seq [Ha Hb]. unfold season_window.
    destruct (foldM_inv (λ _, True) (λ t k, v ← y !! (i + k)%nat; Some (f_add t v)) (seq 0 period) f0) as (t & -> & _); [done| |].
    { intros a k [_ Hk]%elem_of_seq _. destruct (lookup_lt_exists y (i + k)) as [v ->]; [lia|]. by eexists. }
    cbn [mbind option_bind]. case_match; [by eexists|]. apply foldM_inv; [done|]. intros acc' k [_ Hk]%elem_of_seq [Ha' Hb'].
    unfold season_ratio. pose proof (Nat.mod_upper_bound (i + k) period ltac:(lia)) as Hm.
    destruct (lookup_lt_exists y (i + k)) as [v ->]; [lia|]. destruct (lookup_lt_exists acc'.1 ((i + k) mod period)) as [s ->]; [lia|].
    destruct (lookup_lt_exists acc'.2 ((i + k) mod period)) as [c ->]; [lia|]. eexists. split; [done|].
    split; cbn; by rewrite length_insert. }
  cbn in Hs, Hc. cbn [mbind option_bind].
  destruct (foldM_append (season_index sums counts) (λ _ _, True) (seq 0 period) ([], f0)) as (cs & t & -> & Hcs).
  { intros acc p [_ Hk]%elem_of_seq. unfold season_index. destruct (lookup_lt_exists counts p) as [c ->]; [lia|].
    destruct (lookup_lt_exists sums p) as [s ->]; [lia|]. by eexists _, _. }
  cbn. eexists. split; [done|]. apply Forall2_length in Hcs. rewrite length_map, <- Hcs. by rewrite length_seq.
Qed.
Lemma deseasonalize_total y seasonal period :
  (0 < period)%nat → length seasonal = period → ∃ d, deseasonalize y seasonal period = Some d ∧ length d = length y.
Proof.
  intros Hp Hs. unfold deseasonalize.
  assert (is_Some (mapM (λ iv : nat * float64, s ← seasonal !! (iv.1 mod period)%nat; Some (f_div iv.2 (if f_le s f0 then f1 else s)))
            (zip (seq 0 (length y)) y))) as [d Hd].
  { apply mapM_is_Some_2, Forall_forall. intros iv _. cbn beta delta [compose]. pose proof (Nat.mod_upper_bound iv.1 period ltac:(lia)).
    destruct (lookup_lt_exists seasonal (iv.1 mod period)) as [s ->]; [lia|]. by eexists. }
  exists d. split; [done|]. apply length_mapM in Hd. rewrite <- Hd, length_zip_with, length_seq. lia.
Qed.
Lemma holt_fitted_length alpha beta phi l h :
  length (h_fitted (fold_left (holt_step alpha beta phi) l h)) = (length (h_fitted h) + length l)%nat.
Proof. revert h. induction l as [|v l IH]; intros h; cbn [fold_left]; [cbn; lia|]. rewrite IH. cbn. rewrite length_app. cbn. lia. Qed.
Lemma holtDamped_total y alpha beta phi :
  (0 < length y)%nat → ∃ h, holtDamped y alpha beta phi = Some h ∧ length (h_fitted h) = length y.
Proof.
  intros Hy. unfold holtDamped. destruct (lookup_lt_exists y 0) as [a ->]; [done|]. cbn [mbind option_bind].
  destruct (1 <? length y)%nat eqn:E.
  - apply Nat.ltb_lt in E. destruct (lookup_lt_exists y 1) as [b ->]; [done|]. eexists. split; [done|].
    rewrite holt_fitted_length, length_drop. cbn [h_fitted length]. lia.
  - apply Nat.ltb_ge in E. eexists. split; [done|]. rewrite holt_fitted_length, length_drop. cbn [h_fitted length]. lia.
Qed.
Lemma predictOneStep_total train period i :
  (0 < length train)%nat → can_make 8 (Z.of_nat period) = true → is_Some (predictOneStep train period i).
Proof.
  intros Ht Hmake. unfold predictOneStep. set (p := if _ || _ then _ else _).
  assert (p ≠ 0%nat → can_make 8 (Z.of_nat p) = true) as Hmp by (unfold p; by case_match). destruct (Nat.eqb_spec p 0) as [_|Hp].
  - destruct (holtDamped_total train holtAlpha holtBeta holtPhi) as (h & -> & _); [done|]. by eexists.
  - destruct (seasonalIndices_total train p) as (s & -> & Hs); [lia|by apply Hmp|]. cbn [mbind option_bind].
    destruct (deseasonalize_total train s p) as (d & -> & Hd); [lia|done|]. cbn [mbind option_bind].
    destruct (holtDamped_total d holtAlpha holtBeta holtPhi) as (h & -> & _); [lia|]. cbn [mbind option_bind].
    pose proof (Nat.mod_upper_bound i p ltac:(lia)). destruct (lookup_lt_exists s (i mod p)) as [x ->]; [lia|]. by eexists.
Qed.
Lemma backtest_total y period :
  (minHistory ≤ length y)%nat → can_make 8 (Z.of_nat period) = true → is_Some (backtest y period).
Proof.
  intros Hy Hmake. unfold backtest, minHistory in *. set (n := length y) in *.
  assert (4 ≤ backtest_window n)%nat as H4 by (unfold backtest_window; lia).
  assert (backtest_window n ≤ n - 4)%nat as Hn.
  { unfold backtest_window. assert (n / 4 ≤ n - 4)%nat; [|lia]. apply Nat.Div0.div_le_upper_bound. lia. }
  destruct (foldM_inv (λ _, True) (backtest_step y period) (seq (n - backtest_window n) (backtest_window n)) (mkErrors f0 f0 f0 f0))
    as (e & -> & _); [done| |by eexists].
  intros acc i Hi%elem_of_seq _. unfold backtest_step. destruct (lookup_lt_exists y i) as [a ->]; [lia|]. cbn [mbind option_bind].
  destruct (predictOneStep_total (take i y) period i) as [m ->]; [rewrite length_take; lia|done|]. cbn [mbind option_bind].
  set (ref := if _ && _ then _ else _). destruct (lookup_lt_exists y ref) as [r ->]; [unfold ref; case_match; lia|]. by eexists.
Qed.

Lemma residual_std_total y fitted seasonal period :
  (∀ i, ∃ x, match seasonal with None => Some f1 | Some s => s !! (i mod period)%nat end = Some x) →
  length fitted = length y → is_Some (residual_std y fitted seasonal period).
Proof.
  intros Hscale Hl. unfold residual_std.
  match goal with |- is_Some (foldM ?f ?l ?a ≫= _) => destruct (foldM_inv (λ _, True) f l a) as (t & -> & _); [done| |by eexists] end.
  intros acc i Hi%elem_of_seq _. destruct (Hscale i) as [x ->]. cbn [mbind option_bind].
  destruct (lookup_lt_exists y i) as [v ->]; [lia|]. destruct (lookup_lt_exists fitted i) as [f ->]; [lia|]. by eexists.
Qed.

(** ** The forecast *)

(** A value that is a number and not negative. *)
Definition non_negative (x : float64) : Prop := f_is_nan x = false ∧ f_lt x f0 = false.
Lemma clampNonNeg_ok v : non_negative (clampNonNeg v).
Proof. unfold clampNonNeg, non_negative. destruct (f_lt v f0) eqn:E; [done|]. by destruct (f_is_nan v) eqn:En. Qed.

(** The point of a horizon step. *)
Record point_ok (lastAt stepSeconds : Z) (h : nat) (p : PointForecast) : Prop := {
  point_step : pt_Step p = Z.of_nat h;
  point_at : pt_AtUnix p = int64 (lastAt + int64 (Z.of_nat h * stepSeconds));
  point_values : Forall non_negative [pt_QueueLength p; pt_Lower80 p; pt_Upper80 p; pt_Lower95 p; pt_Upper95 p];
}.
(** The season is used when two of its cycles were recorded. *)
Definition used_period (n : nat) (seasonalPeriod : Z) : nat :=
  if decide (2 ≤ seasonalPeriod ∧ 2 * seasonalPeriod ≤ Z.of_nat n) then Z.to_nat seasonalPeriod else 0%nat.
(** Below [2^62] the product of the code does not wrap. *)
Lemma used_period_code n seasonalPeriod :
  seasonalPeriod < 2 ^ 62 →
  (if (seasonalPeriod <? 2) || (Z.of_nat n <? int64 (2 * seasonalPeriod)) then 0%nat else Z.to_nat seasonalPeriod)
  = used_period n seasonalPeriod.
Proof.
  intros Hs. unfold used_period. destruct (seasonalPeriod <? 2) eqn:E; bool_to_prop; cbn [orb].
  - rewrite decide_False by lia. done.
  - rewrite int64_id by (unfold is_int64; lia). destruct (Z.of_nat n <? 2 * seasonalPeriod) eqn:E2; bool_to_prop;
      [rewrite decide_False by lia|rewrite decide_True by lia]; done.
Qed.

(** C39: The forecaster answers.  For a series that fits in memory, a season below 2^62
    steps and a horizon whose points can be allocated, no index leaves its slice and no
    slice is too large to make: with fewer than eight observations it reports an
    insufficient history, with a horizon or a step that is not positive it refuses, and
    otherwise it returns one point for each step of the horizon, spaced by the step from
    the last observation, all of whose values are numbers that are not negative, fitted on
    every observation, with the season asked for exactly when two of its cycles were
    recorded. *)
Theorem forecast_always_answers `{MathPow} (portCode : string) (obs : list Observation) (stepSeconds horizon seasonalPeriod : Z)
  (Hobs : Z.of_nat (length obs) * 16 ≤ 2 ^ 48) (Hseason : seasonalPeriod < 2 ^ 62) (Hhorizon : horizon * 56 ≤ 2 ^ 48) :
  ∃ r, ForecastSeries portCode obs stepSeconds horizon seasonalPeriod = Some r ∧
    match r with
    | Err ErrInsufficientHistory => (length obs < 8)%nat
    | Err HorizonInvalid => (8 ≤ length obs)%nat ∧ (horizon ≤ 0 ∨ stepSeconds ≤ 0)
    | Ok fc =>
        (8 ≤ length obs)%nat ∧ 0 < horizon ∧ 0 < stepSeconds ∧ fc_TrainedOn fc = length obs ∧
        fc_SeasonalPeriod fc = used_period (length obs) seasonalPeriod ∧
        ∃ lastAt, lastAt ∈ ObservedAtUnix <$> obs ∧ (∀ o, o ∈ obs → ObservedAtUnix o ≤ lastAt) ∧
          Forall2 (point_ok lastAt stepSeconds) (seq 1 (Z.to_nat horizon)) (fc_Points fc)
    end.
Proof.
  unfold ForecastSeries. destruct (length obs <? minHistory)%nat eqn:El; [apply Nat.ltb_lt in El; by eexists|].
  apply Nat.ltb_ge in El. unfold minHistory in El. destruct ((horizon <=? 0) || (stepSeconds <=? 0)) eqn:Eh.
  { eexists. split; [done|]. split; [done|]. bool_to_prop. lia. }
  bool_to_prop. set (srt := merge_sort by_time obs). assert (srt ≡ₚ obs) as Hperm by apply merge_sort_Permutation.
  assert (length srt = length obs) as Hlen by (by rewrite Hperm). set (y := QueueLength <$> srt).
  assert (length y = length obs) as Hy by (unfold y; by rewrite length_fmap). rewrite Hy, used_period_code by done.
  set (period := used_period _ _).
  assert (can_make 8 (Z.of_nat period) = true) as Hmake.
  { unfold can_make, max_alloc. apply andb_true_iff. split; [lia|]. apply Z.leb_le. unfold period, used_period. case_decide; lia. }
  assert (∃ seasonal d, (if Nat.eqb period 0 then Some None else Some <$> seasonalIndices y period) = Some seasonal ∧
     match seasonal with None => Some y | Some s => deseasonalize y s period end = Some d ∧ length d = length y ∧
     (∀ s, seasonal = Some s → (0 < period)%nat ∧ length s = period)) as (seasonal & d & -> & Hd & Hdl & Hsl).
  { destruct (Nat.eqb_spec period 0); [by exists None, y|]. destruct (seasonalIndices_total y period) as (s & -> & Hs); [lia|done|].
    destruct (deseasonalize_total y s period) as (d & Hd & Hl); [lia|done|]. exists (Some s), d. split_and!; [done|done|done|].
    intros s' [= <-]. split; [lia|done]. }
  assert (∀ i, ∃ x, match seasonal with None => Some f1 | Some s => s !! (i mod period)%nat end = Some x) as Hscale.
  { intros i. destruct seasonal as [s|]; [|by eexists]. destruct (Hsl s eq_refl) as [Hp Hs].
    pose proof (Nat.mod_upper_bound i period ltac:(lia)). apply lookup_lt_exists. lia. }
  cbn [mbind option_bind]. rewrite Hd. cbn [mbind option_bind].
  destruct (holtDamped_total d holtAlpha holtBeta holtPhi) as (h & -> & Hf); [lia|]. cbn [mbind option_bind].
  assert (is_Some (residual_std y (h_fitted h) seasonal period)) as [rs ->].
  { apply residual_std_total; [done|by rewrite Hf, Hdl]. }
  destruct (backtest_total y period) as [bt Hbt]; [unfold minHistory; lia|done|]. cbn [mbind option_bind]. rewrite Hbt. cbn [mbind option_bind].
  destruct (last srt) as [lst|] eqn:Elast; [|apply last_None in Elast; rewrite Elast in Hlen; cbn in Hlen; lia]. cbn [mbind option_bind].
  assert (can_make 56 horizon = true) as ->. { unfold can_make, max_alloc. apply andb_true_iff. split; lia. } cbn [mbind option_bind].
  destruct (foldM_append (forecast_point (length obs) (ObservedAtUnix lst) stepSeconds (h_level h) (h_trend h) rs seasonal period)
              (point_ok (ObservedAtUnix lst) stepSeconds) (seq 1 (Z.to_nat horizon)) ([], f0)) as (pts & sum & -> & Hpts).
  { intros acc k _. unfold forecast_point. destruct (Hscale (length obs + k - 1)%nat) as [x ->]. cbn [mbind option_bind].
    eexists _, _. split; [done|]. split; [done|done|]. repeat constructor; apply clampNonNeg_ok. }
  eexists. split; [done|]. cbn. split_and!; [done|lia|lia|done|done|]. exists (ObservedAtUnix lst).
  apply last_Some in Elast as [l0 El0]. assert (StronglySorted by_time srt) as Hs by apply (StronglySorted_merge_sort by_time).
  split_and!; [|intros o Ho|exact Hpts].
  - apply list_elem_of_fmap. exists lst. split; [done|]. rewrite <- Hperm, El0. set_solver.
  - rewrite <- Hperm, El0 in Ho. rewrite El0 in Hs. apply elem_of_app in Ho as [Ho| ->%list_elem_of_singleton]; [|done].
    by eapply (StronglySorted_app_1_elem_of by_time); [exact Hs|exact Ho|left].
Qed.

(** From 2^62 on the doubled season wraps to a negative number, the fallback is not taken
    and the season is allocated: the forecaster panics. *)
Lemma overflowing_season_panics `{MathPow} portCode obs stepSeconds horizon seasonalPeriod :
  (8 ≤ length obs)%nat → 0 < stepSeconds → 0 < horizon → 2 ^ 62 ≤ seasonalPeriod < 2 ^ 63 →
  ForecastSeries portCode obs stepSeconds horizon seasonalPeriod = None.
Proof.
  intros Hl Hs Hh Hp. unfold ForecastSeries, minHistory. rewrite (proj2 (Nat.ltb_ge _ _)) by done.
  rewrite (proj2 (Z.leb_gt _ _)), (proj2 (Z.leb_gt _ _)) by lia. cbn [orb].
  rewrite (proj2 (Z.ltb_ge seasonalPeriod 2)) by lia. cbn [orb].
  assert (int64 (2 * seasonalPeriod) < 0) as Hw.
  { unfold int64. replace (2 * seasonalPeriod + 2 ^ 63) with (2 * seasonalPeriod - 2 ^ 63 + 1 * 2 ^ 64) by lia.
    rewrite Z_mod_plus_full, Z.mod_small by lia. lia. }
  rewrite (proj2 (Z.ltb_ge _ (int64 _))) by lia. rewrite (proj2 (Nat.eqb_neq _ 0)) by lia.
  unfold seasonalIndices, can_make, max_alloc. rewrite Z2Nat.id by lia.
  rewrite (proj2 (Z.leb_le 0 seasonalPeriod)), (proj2 (Z.leb_gt (seasonalPeriod * 8) (2 ^ 48))) by lia. done.
Qed.

(** The forecast is a function of the recorded series: observations of distinct
    times give the same forecast, backtest included, in whatever order the caller
    holds them. *)
Theorem forecast_order_independent `{MathPow} (portCode : string) (obs obs' : list Observation)
  (stepSeconds horizon seasonalPeriod : Z) :
  obs ≡ₚ obs' → NoDup (ObservedAtUnix <$> obs) →
  ForecastSeries portCode obs stepSeconds horizon seasonalPeriod = ForecastSeries portCode obs' stepSeconds horizon seasonalPeriod.
Proof.
  intros Hp Hnd.
  assert (merge_sort by_time obs = merge_sort by_time obs') as Hs.
  { apply (StronglySorted_unique_strong by_time).
    - intros a b (i & Hi)%list_elem_of_lookup (j & Hj)%list_elem_of_lookup Hab Hba. unfold by_time in *.
      assert (a ∈ obs ∧ b ∈ obs) as [(i' & Hi')%list_elem_of_lookup (j' & Hj')%list_elem_of_lookup].
      { split; [rewrite <- (merge_sort_Permutation by_time obs)|rewrite Hp, <- (merge_sort_Permutation by_time obs')];
          by eapply list_elem_of_lookup_2. }
      assert (i' = j') as ->; [|by simplify_eq]. eapply (NoDup_lookup _ _ _ (ObservedAtUnix a) Hnd).
      + by rewrite list_lookup_fmap, Hi'.
      + rewrite list_lookup_fmap, Hj'. cbn. f_equal. lia.
    - apply (StronglySorted_merge_sort by_time).
    - apply (StronglySorted_merge_sort by_time).
    - by rewrite !merge_sort_Permutation. }
  unfold ForecastSeries. rewrite Hs. by rewrite (Permutation_length Hp).
Qed.

(** ** Cadence *)

Lemma positive_deltas_elem l d : d ∈ positive_deltas l → 0 < d ∧ ∃ a b, a ∈ l ∧ b ∈ l ∧ d = b - a.
Proof.
  induction l as [|a l IH]; [by intros ?%not_elem_of_nil|]. destruct l as [|b l]; [by intros ?%not_elem_of_nil|].
  cbn [positive_deltas]. destruct (0 <? b - a) eqn:E; bool_to_prop.
  - intros [->|Hd]%elem_of_cons; [split; [lia|]; exists a, b; set_solver|]. destruct (IH Hd) as (? & x & y & ? & ? & ?).
    split; [done|]. exists x, y. set_solver.
  - intros Hd. destruct (IH Hd) as (? & x & y & ? & ? & ?). split; [done|]. exists x, y. set_solver.
Qed.
Lemma positive_deltas_nil l : StronglySorted Z.le l → positive_deltas l = [] → ∀ x y, x ∈ l → y ∈ l → x = y.
Proof.
  induction l as [|a l IH]; intros Hs Hn x y; [by intros ?%not_elem_of_nil|].
  assert (∀ z, z ∈ l → z = a) as Ha.
  { intros z Hz. destruct l as [|b l]; [by apply not_elem_of_nil in Hz|]. cbn [positive_deltas] in Hn.
    destruct (0 <? b - a) eqn:E; [done|]. bool_to_prop. apply StronglySorted_inv in Hs as [Hs Ha]. rewrite Forall_forall in Ha.
    assert (z = b) as -> by (apply (IH Hs Hn); [done|left]). specialize (Ha b ltac:(left)). lia. }
  intros [->|Hx]%elem_of_cons [->|Hy]%elem_of_cons; [done|by rewrite (Ha y)|by apply Ha|by rewrite (Ha x), (Ha y)].
Qed.

(** The cadence is one of the series: it is positive exactly when two observations
    were recorded at different times, and it is then the time between two of them. *)
Theorem cadence_of_the_series (obs : list Observation) :
  let step := MedianIntervalSeconds obs in
  (0 < step ↔ ∃ a b, a ∈ obs ∧ b ∈ obs ∧ ObservedAtUnix a < ObservedAtUnix b) ∧
  (0 < step → ∃ a b, a ∈ obs ∧ b ∈ obs ∧ step = ObservedAtUnix b - ObservedAtUnix a) ∧ 0 ≤ step.
Proof.
  unfold MedianIntervalSeconds. cbv zeta.
  destruct (length obs <? 2)%nat eqn:El.
  { apply Nat.ltb_lt in El. split_and!; [|lia|lia]. split; [lia|]. intros (a & b & Ha & Hb & Hlt).
    destruct obs as [|o [|]]; cbn in El; [set_solver| |lia]. apply list_elem_of_singleton in Ha as ->, Hb as ->. lia. }
  set (times := merge_sort Z.le (ObservedAtUnix <$> obs)). set (deltas := merge_sort Z.le (positive_deltas times)).
  assert (∀ t, t ∈ times ↔ ∃ o, o ∈ obs ∧ ObservedAtUnix o = t) as Ht.
  { intros t. unfold times. rewrite merge_sort_Permutation, list_elem_of_fmap. naive_solver. }
  assert (∀ d, d ∈ deltas → 0 < d ∧ ∃ a b, a ∈ obs ∧ b ∈ obs ∧ d = ObservedAtUnix b - ObservedAtUnix a) as Hd.
  { intros d Hd. unfold deltas in Hd. rewrite merge_sort_Permutation in Hd.
    apply positive_deltas_elem in Hd as (? & a & b & (oa & ? & <-)%Ht & (ob & ? & <-)%Ht & ->). eauto 10. }
  assert (∀ d, deltas !! (length deltas / 2)%nat = Some d → d ∈ deltas) as Hin by (intros d; apply list_elem_of_lookup_2).
  destruct (deltas !! (length deltas / 2)%nat) as [d|] eqn:E; cbn.
  - destruct (Hd d) as (Hpos & a & b & Ha & Hb & ->); [by apply Hin|]. split_and!; [|eauto 10|lia]. split; [|lia].
    intros _. exists a, b. split_and!; [done|done|lia].
  - apply lookup_ge_None in E. assert (deltas = []) as Hnil.
    { apply nil_length_inv. destruct (Nat.eq_dec (length deltas) 0) as [|Hne]; [done|].
      pose proof (Nat.div_lt (length deltas) 2 ltac:(lia) ltac:(lia)). lia. }
    assert (positive_deltas times = []) as Hnil'.
    { apply Permutation_nil_r. rewrite <- (merge_sort_Permutation Z.le). fold deltas. by rewrite Hnil. }
    split_and!; [|lia|lia]. split; [lia|]. intros (a & b & Ha & Hb & Hlt).
    assert (ObservedAtUnix a = ObservedAtUnix b); [|lia].
    apply (positive_deltas_nil times); [apply (StronglySorted_merge_sort Z.le)|done|apply Ht; eauto|apply Ht; eauto].
Qed.

(** The period rounds the number of steps in a day; checked on every cadence. *)
Definition daily_ok (step : Z) : bool :=
  let p := DailySeasonalPeriod step in (2 <=? p) && (Z.abs (2 * (p * step - 86400)) <=? step).
Lemma daily_all : all_from daily_ok (Z.to_nat 43200) 1 = true.
Proof. vm_compute. reflexivity. Qed.

(** The daily season.  A cadence of up to twelve hours gives at least two steps a day
    and their number times the cadence is a day up to half a step; any other cadence
    gives none. *)
Theorem daily_period_spans_a_day (step : Z) :
  (0 < step ≤ 43200 → 2 ≤ DailySeasonalPeriod step ∧ Z.abs (2 * (DailySeasonalPeriod step * step - 86400)) ≤ step) ∧
  (¬ (0 < step ≤ 43200) → DailySeasonalPeriod step = 0).
Proof.
  split.
  - intros Hs. pose proof (all_from_spec daily_ok _ 1 step daily_all ltac:(lia)) as Hd. unfold daily_ok in Hd. bool_to_prop. lia.
  - intros Hs. unfold DailySeasonalPeriod. destruct ((step <=? 0) || (12 * 3600 <? step)) eqn:E; [done|]. bool_to_prop. lia.
Qed.

(** ** The theorems at work *)

Module ForecastSamples.
Instance square_pow : MathPow := {| math_Pow := λ x _, f_mul x x; uint64_overflow := λ _, 0 |}.
Definition hourly : list Observation := (λ i : nat, mkObservation (Z.of_nat i * 3600) (f_of_Z (10 + Z.of_nat i))) <$> seq 0 9.
End ForecastSamples.
#[local] Existing Instance ForecastSamples.square_pow.
Import ForecastSamples.

Lemma hourly_latest t : t ∈ ObservedAtUnix <$> hourly → t ≤ 28800.
Proof. revert t. apply Forall_forall. apply (bool_decide_unpack _). by vm_compute. Qed.
Lemma hourly_last : mkObservation 28800 (f_of_Z 18) ∈ hourly.
Proof. apply list_elem_of_lookup. exists 8%nat. by vm_compute. Qed.

Lemma forecast_always_answers_witness :
  ∃ fc, ForecastSeries "KEMBA" hourly 3600 3 4 = Some (Ok fc) ∧ fc_SeasonalPeriod fc = 4%nat ∧
    Forall2 (point_ok 28800 3600) [1; 2; 3]%nat (fc_Points fc).
Proof.
  destruct (forecast_always_answers "KEMBA" hourly 3600 3 4) as (r & Hr & Hspec); [vm_compute; discriminate|lia|lia|].
  assert (∃ fc, ForecastSeries "KEMBA" hourly 3600 3 4 = Some (Ok fc)) as [fc E].
  { assert ((match ForecastSeries "KEMBA" hourly 3600 3 4 with Some (Ok _) => true | _ => false end) = true) as H by (vm_compute; reflexivity).
    destruct (ForecastSeries _ _ _ _ _) as [[fc|]|]; [by eexists|done|done]. }
  exists fc. split; [exact E|]. rewrite Hr in E. injection E as ->. destruct Hspec as (_ & _ & _ & _ & Hp & lastAt & Hin & Hmax & Hpts).
  split; [rewrite Hp; vm_compute; reflexivity|].
  replace 28800 with lastAt; [exact Hpts|]. apply Z.le_antisymm; [by apply hourly_latest|].
  apply (Hmax (mkObservation 28800 (f_of_Z 18))), hourly_last.
Defined.

Lemma forecast_order_independent_witness :
  ForecastSeries "KEMBA" hourly 3600 3 24 = ForecastSeries "KEMBA" (reverse hourly) 3600 3 24.
Proof.
  apply (forecast_order_independent "KEMBA" hourly (reverse hourly) 3600 3 24).
  - symmetry. apply reverse_Permutation.
  - by apply (bool_decide_unpack _); vm_compute.
Defined.
Example hourly_forecast :
  MedianIntervalSeconds hourly = 3600 ∧ DailySeasonalPeriod 3600 = 24 ∧ DailySeasonalPeriod 300 = 288 ∧
  match ForecastSeries "KEMBA" hourly 3600 3 24 with
  | Some (Ok fc) => (map pt_AtUnix (fc_Points fc), fc_SeasonalPeriod fc)
  | _ => ([], 99%nat)
  end = ([32400; 36000; 39600], 0%nat).
Proof. vm_compute. split_and!; reflexivity. Qed.
