(* ===== verification/Track.v ===== *)
(** * Track windows and port approaches

    [internal/track/track.go]: gaps of a recorded track, the surface distance and the
    arrival estimate with its confidence label. *)
From S2P Require Import Prelude GoFloat.

Record TrackPoint := mkTrackPoint { tp_LatMicros : Z; tp_LonMicros : Z; tp_AtUnix : Z; tp_SogMillikn : Z }.
Record Gap := mkGap {
  g_StartUnix : Z; g_EndUnix : Z; g_DurationS : Z; g_FromLatMicros : Z; g_FromLonMicros : Z; g_ToLatMicros : Z;
  g_ToLonMicros : Z }.

Definition gap_between (prev cur : TrackPoint) : Gap :=
  mkGap (tp_AtUnix prev) (tp_AtUnix cur) (int64 (tp_AtUnix cur - tp_AtUnix prev)) (tp_LatMicros prev) (tp_LonMicros prev)
    (tp_LatMicros cur) (tp_LonMicros cur).
Fixpoint gaps_from (prev : TrackPoint) (points : list TrackPoint) (maxGapSeconds : Z) : list Gap :=
  match points with
  | [] => []
  | cur :: rest =>
      let later := gaps_from cur rest maxGapSeconds in
      if maxGapSeconds <? int64 (tp_AtUnix cur - tp_AtUnix prev) then gap_between prev cur :: later else later
  end.
Definition DetectGaps (points : list TrackPoint) (maxGapSeconds : Z) : list Gap :=
  if (maxGapSeconds <=? 0) || (length points <? 2)%nat then []
  else match points with [] => [] | p :: rest => gaps_from p rest maxGapSeconds end.

Section distance.
Context `{Math}.
Definition earthRadiusM : float64 := f_lit 63710088 10.
Definition radians (degrees : float64) : float64 := f_div (f_mul degrees math_Pi) (f_of_Z 180).
Definition degrees_of (micros : Z) : float64 := f_div (f_of_Z micros) (f_of_Z 1000000).
Definition DistanceMeters (aLat aLon bLat bLon : Z) : float64 :=
  let lat1 := radians (degrees_of aLat) in
  let lat2 := radians (degrees_of bLat) in
  let dLat := f_sub lat2 lat1 in
  let dLonDeg := degrees_of (int32 (bLon - aLon)) in
  let dLonDeg := if f_lt (f_of_Z 180) dLonDeg then f_sub dLonDeg (f_of_Z 360)
                 else if f_lt dLonDeg (f_of_Z (-180)) then f_add dLonDeg (f_of_Z 360) else dLonDeg in
  let x := f_mul (radians dLonDeg) (math_Cos (f_div (f_add lat1 lat2) (f_of_Z 2))) in
  f_mul (f_sqrt (f_add (f_mul x x) (f_mul dLat dLat))) earthRadiusM.

Inductive ETAConfidence := ConfidenceHigh | ConfidenceMedium | ConfidenceLow.
Record ApproachETA := mkApproach {
  ap_DistanceMeters : float64; ap_ETASeconds : Z; ap_SpeedKnots : float64; ap_Confidence : ETAConfidence; ap_Explanation : string }.

(** What the conversion to int64 gives for a value it cannot hold. *)
Context (int64_overflow : float64 → Z).
Definition to_int64 (x : float64) : Z :=
  match f_trunc x with
  | Some z => if (- 2 ^ 63 <=? z) && (z <? 2 ^ 63) then z else int64 (int64_overflow x)
  | None => int64 (int64_overflow x)
  end.
Definition approach_confidence (age : Z) : ETAConfidence :=
  if 2 * 3600 <? age then ConfidenceLow else if 15 * 60 <? age then ConfidenceMedium else ConfidenceHigh.
Definition EstimateApproach (p : TrackPoint) (portLat portLon nowUnix : Z) : ApproachETA :=
  let dist := DistanceMeters (tp_LatMicros p) (tp_LonMicros p) portLat portLon in
  let confidence := approach_confidence (int64 (nowUnix - tp_AtUnix p)) in
  if tp_SogMillikn p <? 500 then
    mkApproach dist (-1) (f_of_Z 0) confidence "vessel not making way (SOG < 0.5 kn) or speed unknown: no honest ETA"
  else
    let knots := f_div (f_of_Z (tp_SogMillikn p)) (f_of_Z 1000) in
    let speedMS := f_mul knots (f_lit 514444 1000000) in
    mkApproach dist (to_int64 (f_div dist speedMS)) knots confidence
      (match confidence with
       | ConfidenceHigh => "distance/recorded-speed heuristic; assumes constant course and speed"
       | _ => "distance/recorded-speed heuristic on a STALE position; treat as indicative only"
       end).
End distance.

(** ** Properties *)

(** Times of a track that the subtraction does not wrap on. *)
Definition plain_time (t : Z) : Prop := 0 ≤ t < 2 ^ 62.
Lemma plain_sub a b : plain_time a → plain_time b → int64 (b - a) = b - a.
Proof. unfold plain_time, int64. intros. rewrite Z.mod_small; lia. Qed.

(** The times of a stretch in which nothing was recorded. *)
Definition silent (times : list Z) (maxGap s e : Z) : Prop :=
  s ∈ times ∧ e ∈ times ∧ maxGap < e - s ∧ ∀ t, t ∈ times → t ≤ s ∨ e ≤ t.
Lemma gaps_from_spec prev points maxGap :
  0 < maxGap → StronglySorted Z.le (tp_AtUnix prev :: (tp_AtUnix <$> points)) →
  Forall (λ p, plain_time (tp_AtUnix p)) (prev :: points) →
  ∀ s e, (∃ g, g ∈ gaps_from prev points maxGap ∧ g_StartUnix g = s ∧ g_EndUnix g = e) ↔
         silent (tp_AtUnix <$> prev :: points) maxGap s e.
Proof.
  intros Hm. revert prev. induction points as [|cur points IH]; intros prev Hs Hp s e.
  { cbn. split; [intros (g & ?%not_elem_of_nil & _); done|]. intros (->%list_elem_of_singleton & ->%list_elem_of_singleton & ? & _). lia. }
  apply Forall_cons in Hp as [Hprev Hp]. pose proof (Forall_inv Hp) as Hcur. cbn [gaps_from fmap list_fmap] in *.
  apply StronglySorted_inv in Hs as [Hs Hle]. rewrite Forall_forall in Hle. specialize (IH cur Hs Hp s e).
  assert (tp_AtUnix prev ≤ tp_AtUnix cur) as Hpc by (apply Hle; left).
  assert (∀ t, t ∈ tp_AtUnix cur :: (tp_AtUnix <$> points) → tp_AtUnix cur ≤ t) as Hafter.
  { intros t [->|Ht]%elem_of_cons; [lia|]. apply StronglySorted_inv in Hs as [_ Hc]. rewrite Forall_forall in Hc. by apply Hc. }
  rewrite plain_sub by done. cbn [fmap list_fmap] in IH. set (rest := tp_AtUnix cur :: (tp_AtUnix <$> points)) in *.
  assert (silent (tp_AtUnix prev :: rest) maxGap s e ↔
    (maxGap < tp_AtUnix cur - tp_AtUnix prev ∧ s = tp_AtUnix prev ∧ e = tp_AtUnix cur) ∨ silent rest maxGap s e) as Hsplit.
  { assert (tp_AtUnix cur ∈ rest) as Hcr by left. split.
    - intros (Hs1 & He1 & Hgap & Hbtw). apply elem_of_cons in Hs1, He1.
      assert (e ∈ rest) as He2 by (destruct He1 as [->|]; [|done]; destruct Hs1 as [->|Hs2]; [lia|]; specialize (Hle _ Hs2); lia).
      destruct (Hbtw (tp_AtUnix cur)) as [Hc|Hc]; [by right| |].
      + right. split_and!; [|done|lia|intros t Ht; apply Hbtw; by right]. destruct Hs1 as [->|]; [|done].
        assert (tp_AtUnix prev = tp_AtUnix cur) as -> by lia. done.
      + left. pose proof (Hafter _ He2). assert (e = tp_AtUnix cur) as -> by lia.
        destruct Hs1 as [->|Hs2]; [by split_and!; lia|]. pose proof (Hafter _ Hs2). lia.
    - intros [(Hg & -> & ->)|(Hs1 & He1 & Hg & Hbtw)].
      + split_and!; [left|by right|lia|]. intros t [->|Ht]%elem_of_cons; [by left|right; by apply Hafter].
      + split_and!; [by right|by right|done|]. intros t [->|Ht]%elem_of_cons; [|by apply Hbtw]. left. apply Hafter in Hs1. lia. }
  rewrite Hsplit, <- IH. destruct (Z.ltb_spec maxGap (tp_AtUnix cur - tp_AtUnix prev)).
  - split.
    + intros (g & [->|Hg]%elem_of_cons & <- & <-); [by left|right; eauto].
    + intros [(_ & -> & ->)|(g & Hg & <- & <-)]; [eexists; split; [left|done]|exists g; split; [by right|done]].
  - split; [by right|]. intros [(? & _)|?]; [lia|done].
Qed.

(** Gaps are reported, never filled, and all of them are.  On a track in the order of
    time, with a positive threshold, the stretches reported are exactly those between
    two recorded times that are further apart than the threshold and have no recorded
    time between them. *)
Theorem gaps_are_the_silences (points : list TrackPoint) (maxGap : Z) :
  0 < maxGap → StronglySorted Z.le (tp_AtUnix <$> points) → Forall (λ p, plain_time (tp_AtUnix p)) points →
  ∀ s e, (∃ g, g ∈ DetectGaps points maxGap ∧ g_StartUnix g = s ∧ g_EndUnix g = e) ↔ silent (tp_AtUnix <$> points) maxGap s e.
Proof.
  intros Hm Hs Hp s e. unfold DetectGaps. rewrite (proj2 (Z.leb_gt _ _)) by done. cbn [orb].
  destruct points as [|p [|q rest]].
  - cbn. split; [intros (g & ?%not_elem_of_nil & _); done|]. intros (?%not_elem_of_nil & _). done.
  - cbn. split; [intros (g & ?%not_elem_of_nil & _); done|].
    intros (->%list_elem_of_singleton & ->%list_elem_of_singleton & ? & _). lia.
  - cbn [length Nat.ltb Nat.leb]. by apply gaps_from_spec.
Qed.
Lemma gaps_are_the_silences_witness :
  (∃ g, g ∈ DetectGaps [mkTrackPoint 0 0 100 0; mkTrackPoint 1 1 160 0; mkTrackPoint 2 2 4000 0] 1800 ∧
        g_StartUnix g = 160 ∧ g_EndUnix g = 4000) ↔
  silent [100; 160; 4000] 1800 160 4000.
Proof.
  apply (gaps_are_the_silences [mkTrackPoint 0 0 100 0; mkTrackPoint 1 1 160 0; mkTrackPoint 2 2 4000 0] 1800).
  - lia.
  - cbn. repeat constructor; lia.
  - unfold plain_time. repeat constructor; cbn; lia.
Defined.

(** No estimate is invented: a vessel that makes less than half a knot, or whose speed
    was not recorded, gets none, whatever the distance. *)
Lemma no_invented_eta `{Math} overflow p lat lon now :
  tp_SogMillikn p < 500 → ap_ETASeconds (EstimateApproach overflow p lat lon now) = -1.
Proof. intros Hs. unfold EstimateApproach. by rewrite (proj2 (Z.ltb_lt _ _)). Qed.
