(* ===== verification/GeoStore.v ===== *)
(** * Queries, zones and versioned fences

    [internal/store/queries.go] (the vessel picture, zone administration),
    [fences.go] (versioned geofences, transition events, tracks, the queue series) and
    [density.go].  The statements run on the tables of the ingest state, with the
    ledger of zone approvals and the queue observations beside them.  A session that
    binds a tenant sees the tenant's rows; one that binds none sees no row of a
    tenant-scoped table, unless its role bypasses row security. *)
From S2P Require Import Prelude GoTime GoParse Types Fence GoFloat Effects Store Pipeline.
Import Fence.Geometry Fence.Zone.

(** ** State *)

Record ZoneApproval := mkZoneApproval { za_ZoneID : string; za_PrincipalID : string; za_DecidedAt : Z }.
Record QueueObservationRow := mkQueueRow { qo_PortCode : string; qo_QueueLength : Z; qo_Source : string; qo_ObservedAt : Z }.
Record geo_world := mkGeoWorld {
  gw_pipeline : world; gw_approvals : list ZoneApproval; gw_queue : gmap (string * Z) QueueObservationRow }.

Definition gw_db (g : geo_world) : ingest_db := w_db (gw_pipeline g).
(** What a transaction of the API can write. *)
Record geo_tables := mkGeoTables { gt_db : ingest_db; gt_approvals : list ZoneApproval; gt_fences : list FenceRow; gt_events : list FenceEventRow }.
Definition geo_tables_of (g : geo_world) : geo_tables :=
  mkGeoTables (gw_db g) (gw_approvals g) (w_fence_rows (gw_pipeline g)) (w_fence_events (gw_pipeline g)).
Definition set_geo_tables (t : geo_tables) (g : geo_world) : geo_world :=
  mkGeoWorld (upd_fence_events (gt_events t) (upd_fence_rows (gt_fences t) (upd_db (gt_db t) (gw_pipeline g)))) (gt_approvals t) (gw_queue g).

Inductive geo_error :=
| GeoUnavailable | GeoTenantRequired | TrackWindow | ZoneIDRequired | ZoneMakerRequired | ZoneFloorInvalid | ZoneRefused
| CheckerRequired | ZoneNotFound | ErrMakerCheckerConflict | ErrZoneNotDraft | ZoneNotApproved
| FenceNoRows | VersionConflict (latest expected : Z) | VerticesInvalid | RingTooShort | FenceRefused | FenceEventTenant
| CellSize | TooManyCells (n : Z).

(** ** Read models *)

Record VesselSummary := mkSummary {
  vm_MMSI : string; vm_VesselRef : string; vm_SourceClass : string; vm_LatitudeMicros : Z; vm_LongitudeMicros : Z;
  vm_Speed : option Z; vm_Course : option Z; vm_Classification : string; vm_ObservedAt : Z; vm_ShipName : string;
  vm_ShipTypeCode : option Z }.
(** The members of a zone event that are read back. *)
Record Vessel360 := mkVessel360 { v3_Latest : option VesselSummary; v3_Static : option StaticReport; v3_RecentZones : list GeofenceEvent }.
Record TrackPointRow := mkTrackRow { tr_LatitudeMicros : Z; tr_LongitudeMicros : Z; tr_SogMilliknots : Z; tr_ObservedAt : Z }.
Record NearestVesselRow := mkNearest {
  nv_MMSI : string; nv_ShipName : string; nv_LatitudeMicros : Z; nv_LongitudeMicros : Z; nv_SogMilliknots : Z;
  nv_DistanceMeters : float64; nv_ObservedAt : Z }.
Record DensityCellRow := mkDensityCell { dc_CellLatMicros : Z; dc_CellLonMicros : Z; dc_VesselCount : Z; dc_LatestObservedAt : Z }.

(** The rows of [latest_positions] with their identity. *)
Definition latest_rows (d : ingest_db) : list (string * string * LatestRow) :=
  ((λ kv, (kv.1, "", kv.2)) <$> map_to_list (latest_by_mmsi d)) ++ ((λ kv, ("", kv.1, kv.2)) <$> map_to_list (latest_by_ref d)).
(** LEFT JOIN vessels_static s ON s.mmsi = l.mmsi AND s.valid_to IS NULL. *)
Definition open_static (d : ingest_db) (mmsi : string) : list StaticReport :=
  if String.eqb mmsi "" then []
  else sr_report <$> filter (λ r, s_MMSI (sr_report r) = mmsi ∧ valid_to r = None) (vessels_static d).
Definition summary (m : string * string * LatestRow) (s : option StaticReport) : VesselSummary :=
  let '(mmsi, ref, l) := m in
  mkSummary mmsi ref (l_SourceClass l) (l_LatitudeMicros l) (l_LongitudeMicros l) (l_Speed l) (l_Course l) (l_Classification l)
    (l_ObservedAt l) (default "" (s_ShipName <$> s)) (ShipTypeCode <$> s).
Definition joined (d : ingest_db) (m : string * string * LatestRow) : list VesselSummary :=
  match open_static d m.1.1 with [] => [summary m None] | ss => summary m ∘ Some <$> ss end.

Definition newest_first {A} (at_ : A → Z) (a b : A) : Prop := at_ b ≤ at_ a.
#[export] Instance newest_first_dec {A} (at_ : A → Z) a b : Decision (newest_first at_ a b).
Proof. unfold newest_first. apply _. Defined.
Definition oldest_first {A} (at_ : A → Z) (a b : A) : Prop := at_ a ≤ at_ b.
#[export] Instance oldest_first_dec {A} (at_ : A → Z) a b : Decision (oldest_first at_ a b).
Proof. unfold oldest_first. apply _. Defined.

Section queries.
(** [ST_Intersects] of a stored point with the envelope of a box, [ST_Intersects] of a
    stored point with a zone, and the GeoJSON of a line. *)
Context (in_box : string → Z → Z → Z → Z → bool) (in_zone : string → string → bool) (line_geojson : list (Z * Z) → string).
Abbreviation IO := (M geo_world geo_error).
Definition read {A} (f : geo_world → A) : IO A := external GeoUnavailable (λ g, (g, f g)).

Definition ListVessels (minLon minLat maxLon maxLat : Z) (clearedLabels : list string) (limit : Z) : IO (list VesselSummary) :=
  read (λ g, take (Z.to_nat limit) (merge_sort (newest_first vm_ObservedAt)
    (concat (joined (gw_db g) <$>
       filter (λ m, l_Classification m.2 ∈ clearedLabels ∧ in_box (l_geom m.2) minLon minLat maxLon maxLat = true)
         (latest_rows (gw_db g)))))).

(** [WithTenant], on the tables of the API. *)
Definition with_tenant {A} (tenantID : string) (fn : IO A) : IO A :=
  tenant_transaction geo_tables_of set_geo_tables GeoTenantRequired GeoUnavailable tenantID fn.

Definition recent_zones (tenantID mmsi : string) (clearedLabels : list string) : IO (list GeofenceEvent) :=
  if String.eqb tenantID "" then mret []
  else with_tenant tenantID (read (λ g, take 20 (merge_sort (newest_first ge_OccurredAt)
         (filter (λ e, ge_TenantID e = tenantID ∧ ge_MMSI e = mmsi ∧ ge_Classification e ∈ clearedLabels)
            (geofence_events (gw_db g)))))).
Definition GetVessel360 (mmsi tenantID : string) (clearedLabels : list string) : IO (option Vessel360) :=
  latest ← read (λ g, head (concat (joined (gw_db g) <$>
             filter (λ m, m.1.1 = mmsi ∧ l_Classification m.2 ∈ clearedLabels) (latest_rows (gw_db g)))));
  static ← read (λ g, sr_report <$> head (merge_sort (newest_first valid_from)
             (filter (λ r, s_MMSI (sr_report r) = mmsi ∧ valid_to r = None ∧ s_Classification (sr_report r) ∈ clearedLabels)
                (vessels_static (gw_db g)))));
  zones ← recent_zones tenantID mmsi clearedLabels;
  mret (match latest, static with None, None => None | _, _ => Some (mkVessel360 latest static zones) end).

Definition GetTrack (mmsi : string) (from_ to_ : Z) (clearedLabels : list string) : IO (string * nat) :=
  if negb (from_ <? to_) then fail TrackWindow
  else
    points ← read (λ g, merge_sort (oldest_first ObservedAt)
      (filter (λ p, MMSI p = mmsi ∧ from_ ≤ ObservedAt p ∧ ObservedAt p ≤ to_ ∧ Types.Classification p ∈ clearedLabels)
         (ais_positions (gw_db g))));
    mret (line_geojson ((λ p, (LongitudeMicros p, LatitudeMicros p)) <$> points), length points).

(** ** Zones *)

(** A tenant's own rows of [geofence_zones]. *)
Definition tenant_zones (tenantID : string) (d : ingest_db) : list Zone := filter (λ z, z_TenantID z = tenantID) (geofence_zones d).
Definition labelCleared (label : string) (clearedLabels : list string) : bool := existsb (String.eqb label) clearedLabels.
Definition ListZones (tenantID : string) (clearedLabels : list string) : IO (list Zone) :=
  with_tenant tenantID (read (λ g,
    filter (λ z, labelCleared (z_ClassificationFloor z) clearedLabels = true)
      (merge_sort (newest_first z_CreatedAt) (tenant_zones tenantID (gw_db g))))).

Definition set_zones (f : list Zone → list Zone) (d : ingest_db) : ingest_db :=
  mkDB (ais_positions d) (partitions d) (latest_by_mmsi d) (latest_by_ref d) (f (geofence_zones d)) (geofence_events d) (vessels_static d).
Definition upd_zone_table (f : list Zone → list Zone) (g : geo_world) : geo_world :=
  mkGeoWorld (upd_db (set_zones f (gw_db g)) (gw_pipeline g)) (gw_approvals g) (gw_queue g).
(** [ST_GeomFromGeoJSON($4)::geography], when it is a polygon. *)
Context (polygon_of_geojson : string → option string).
(** The checks of the table. *)
Definition zone_checks (z : Zone) : bool :=
  identifier 127 (z_ZoneID z) && identifier 127 (z_TenantID z) && (char_count (z_Name z) <=? 200)
  && (char_count (z_MakerPrincipalID z) <=? 512).
Definition insert_zone (z : Zone) : IO unit :=
  r ← external GeoUnavailable (λ g,
    if zone_checks z && negb (existsb (λ z', String.eqb (z_ZoneID z') (z_ZoneID z)) (geofence_zones (gw_db g)))
    then (upd_zone_table (λ zs, zs ++ [z]) g, true) else (g, false));
  require r ZoneRefused.
Definition zone_floors : list string := ["PUBLIC"; "INTERNAL"; "RESTRICTED"; "CONFIDENTIAL"; "SECRET"].
Definition CreateZone (tenantID zoneID name floor maker polygonGeoJSON : string) : IO unit :=
  if blank zoneID || blank name then fail ZoneIDRequired
  else if blank maker then fail ZoneMakerRequired
  else if negb (bool_decide (floor ∈ zone_floors)) then fail ZoneFloorInvalid
  else
    with_tenant tenantID
      (now ← gets (λ g, w_now (gw_pipeline g));
       match polygon_of_geojson polygonGeoJSON with
       | None => fail ZoneRefused
       | Some geom => insert_zone (mkZone zoneID tenantID name floor "draft" geom maker (pg_time now) None None)
       end).

Definition approve_row (zoneID checker : string) (now : Z) (z : Zone) : Zone :=
  if String.eqb (z_ZoneID z) zoneID
  then mkZone (z_ZoneID z) (z_TenantID z) (z_Name z) (z_ClassificationFloor z) "approved" (z_geom z) (z_MakerPrincipalID z)
         (z_CreatedAt z) (Some checker) (Some (pg_time now))
  else z.
Definition ApproveZone (tenantID zoneID checker : string) : IO unit :=
  if blank checker then fail CheckerRequired
  else
    with_tenant tenantID
      (found ← read (λ g, List.find (λ z, String.eqb (z_ZoneID z) zoneID) (tenant_zones tenantID (gw_db g)));
       match found with
       | None => fail ZoneNotFound
       | Some z =>
           if String.eqb (z_MakerPrincipalID z) checker then fail ErrMakerCheckerConflict
           else if negb (String.eqb (z_State z) "draft") then fail ErrZoneNotDraft
           else
             now ← gets (λ g, w_now (gw_pipeline g));
             r ← external GeoUnavailable (λ g,
               if (512 <? char_count checker)
                  || existsb (λ a, String.eqb (za_ZoneID a) zoneID && String.eqb (za_PrincipalID a) checker) (gw_approvals g)
               then (g, false)
               else (mkGeoWorld (gw_pipeline g) (gw_approvals g ++ [mkZoneApproval zoneID checker (pg_time now)]) (gw_queue g), true));
             _ ← require r ZoneRefused;
             external GeoUnavailable (λ g, (upd_zone_table (map (approve_row zoneID checker now)) g, tt))
       end).

Definition VesselsInZone (tenantID zoneID : string) (clearedLabels : list string) (limit : Z) : IO (list VesselSummary) :=
  with_tenant tenantID
    (found ← read (λ g, List.find (λ z, String.eqb (z_ZoneID z) zoneID && String.eqb (z_State z) "approved")
                          (tenant_zones tenantID (gw_db g)));
     match found with
     | None => fail ZoneNotApproved
     | Some z =>
         read (λ g, take (Z.to_nat limit) (merge_sort (newest_first vm_ObservedAt)
           (concat (joined (gw_db g) <$>
              filter (λ m, l_Classification m.2 ∈ clearedLabels ∧ in_zone (z_geom z) (l_geom m.2) = true) (latest_rows (gw_db g))))))
     end).
End queries.

(** ** Versioned fences *)

Section fences.
(** Whether the role of the pool is subject to row security, and the distance in metres
    of a stored point from a point, when it is within a radius. *)
Context (row_security : bool) (distance_within : string → string → float64 → option float64).
Abbreviation IO := (M geo_world geo_error).

(** The rows of [geofences] a session without a tenant sees. *)
Definition pool_fences (g : geo_world) : list FenceRow := if row_security then [] else w_fence_rows (gw_pipeline g).
Definition upd_fences (f : list FenceRow → list FenceRow) (g : geo_world) : geo_world :=
  mkGeoWorld (upd_fence_rows (f (w_fence_rows (gw_pipeline g))) (gw_pipeline g)) (gw_approvals g) (gw_queue g).

Definition fence_id_le (a b : FenceRow) : Prop := str_le (fr_GeofenceID a) (fr_GeofenceID b).
#[local] Instance fence_id_le_dec a b : Decision (fence_id_le a b).
Proof. unfold fence_id_le. apply _. Defined.
Definition ListActiveGeofences (tenantID : string) (clearedLabels : list string) : IO (list FenceRow) :=
  read (λ g, merge_sort fence_id_le
    (filter (λ r, fr_State r = "ACTIVE" ∧ fr_TenantID r = tenantID ∧ fr_Classification r ∈ clearedLabels) (pool_fences g))).
Definition of_fence (tenantID geofenceID : string) (r : FenceRow) : bool :=
  String.eqb (fr_GeofenceID r) geofenceID && String.eqb (fr_TenantID r) tenantID.
Definition GetGeofenceHistory (tenantID geofenceID : string) : IO (list FenceRow) :=
  rows ← read (λ g, merge_sort (newest_first fr_Version) (filter (λ r, of_fence tenantID geofenceID r = true) (pool_fences g)));
  if bool_decide (rows = []) then fail FenceNoRows else mret rows.

(** [microsText]: the rendering of [renderMicros] on int64. *)
Definition microsText (v : Z) : string := renderMicros v.
Fixpoint join (sep : string) (l : list string) : string :=
  match l with [] => "" | [s] => s | s :: l' => s +:+ sep +:+ join sep l' end.
Definition polygonWKT (vertices : list Point) : option string :=
  if (length vertices <? 4)%nat then None
  else Some ("SRID=4326;POLYGON((" +:+
             join ", " ((λ v, microsText (LonMicros v) +:+ " " +:+ microsText (LatMicros v)) <$> vertices) +:+ "))").

Definition retire_row (tenantID geofenceID : string) (now : Z) (r : FenceRow) : FenceRow :=
  if of_fence tenantID geofenceID r && String.eqb (fr_State r) "ACTIVE"
  then mkFenceRow (fr_GeofenceID r) (fr_Version r) (fr_TenantID r) (fr_Name r) (fr_Classification r) (fr_Vertices r)
         (fr_DwellThresholdSeconds r) (fr_DwellSpeedGateMilliknots r) "RETIRED" (fr_ZoneCategory r) (fr_CreatedBy r)
         (fr_CreatedAt r) (Some (pg_time now))
  else r.
Definition max_version (rows : list FenceRow) : Z := fold_right (λ r v, Z.max (fr_Version r) v) 0 rows.
(** The checks and unique indexes of the table. *)
Definition zone_categories : list string := ["general"; "mpa"; "eez_restricted"; "traffic_separation"; "fishing_closure"; "anchorage"].
Definition fence_checks (r : FenceRow) : bool :=
  identifier 63 (fr_GeofenceID r) && (1 <=? fr_Version r) && (1 <=? char_count (fr_TenantID r)) && (char_count (fr_TenantID r) <=? 128)
  && (1 <=? char_count (fr_Name r)) && (char_count (fr_Name r) <=? 256) && bool_decide (fr_Classification r ∈ zone_floors)
  && (0 <=? fr_DwellThresholdSeconds r) && (fr_DwellThresholdSeconds r <=? 86400)
  && (0 <=? fr_DwellSpeedGateMilliknots r) && (fr_DwellSpeedGateMilliknots r <=? 102300)
  && bool_decide (fr_ZoneCategory r ∈ zone_categories)
  && (1 <=? char_count (fr_CreatedBy r)) && (char_count (fr_CreatedBy r) <=? 128).
Definition fence_clash (r r' : FenceRow) : bool :=
  String.eqb (fr_GeofenceID r') (fr_GeofenceID r) && ((fr_Version r' =? fr_Version r) || String.eqb (fr_State r') "ACTIVE").

(** [CreateGeofenceVersion]; its transaction binds no tenant. *)
Definition CreateGeofenceVersion (row : FenceRow) (expectedVersion : Z) : IO FenceRow :=
  transaction geo_tables_of set_geo_tables GeoUnavailable GeoUnavailable
    (latest ← read (λ g, max_version (filter (λ r, of_fence (fr_TenantID row) (fr_GeofenceID row) r = true) (pool_fences g)));
     if negb (latest =? expectedVersion) then fail (VersionConflict latest expectedVersion)
     else
       match fr_Vertices row with
       | None => fail VerticesInvalid
       | Some vertices =>
           match polygonWKT vertices with
           | None => fail RingTooShort
           | Some _ =>
               now ← gets (λ g, w_now (gw_pipeline g));
               _ ← external GeoUnavailable (λ g,
                     (if row_security then g else upd_fences (map (retire_row (fr_TenantID row) (fr_GeofenceID row) now)) g, tt));
               let created := mkFenceRow (fr_GeofenceID row) (latest + 1) (fr_TenantID row) (fr_Name row) (fr_Classification row)
                                (fr_Vertices row) (fr_DwellThresholdSeconds row) (fr_DwellSpeedGateMilliknots row) "ACTIVE"
                                (zoneCategoryOrGeneral (fr_ZoneCategory row)) (fr_CreatedBy row) (pg_time now) None in
               r ← external GeoUnavailable (λ g,
                     if row_security || negb (fence_checks created) || existsb (fence_clash created) (w_fence_rows (gw_pipeline g))
                     then (g, false) else (upd_fences (λ rows, rows ++ [created]) g, true));
               _ ← require r FenceRefused;
               mret created
           end
       end).
Definition RetireGeofence (tenantID geofenceID : string) : IO unit :=
  now ← gets (λ g, w_now (gw_pipeline g));
  n ← external GeoUnavailable (λ g,
        let hit := existsb (λ r, of_fence tenantID geofenceID r && String.eqb (fr_State r) "ACTIVE") (pool_fences g) in
        (if hit then upd_fences (map (retire_row tenantID geofenceID now)) g else g, hit));
  require n FenceNoRows.

(** The checks of the table, its key and its reference to a version of a fence. *)
Definition lower_hex (c : char) : bool := is_digit c || (97 <=? byte_of c) && (byte_of c <=? 102).
Definition event_checks (g : geo_world) (ev : FenceEventRow) : bool :=
  identifier 127 (fe_EventID ev) && negb (existsb (λ e, String.eqb (fe_EventID e) (fe_EventID ev)) (w_fence_events (gw_pipeline g)))
  && existsb (λ r, String.eqb (fr_GeofenceID r) (fe_GeofenceID ev) && (fr_Version r =? fe_GeofenceVersion ev)) (w_fence_rows (gw_pipeline g))
  && bool_decide (fe_EventType ev ∈ ["ENTER"; "EXIT"; "DWELL"]) && mmsiPattern (fe_MMSI ev)
  && (-90000000 <=? fe_LatitudeMicros ev) && (fe_LatitudeMicros ev <=? 90000000)
  && (-180000000 <=? fe_LongitudeMicros ev) && (fe_LongitudeMicros ev <=? 180000000)
  && bool_decide (fe_Classification ev ∈ zone_floors)
  && (String.eqb (fe_EnvelopeDigest ev) "" || Nat.eqb (String.length (fe_EnvelopeDigest ev)) 64 && all_chars lower_hex (fe_EnvelopeDigest ev))
  && bool_decide (fe_ZoneCategory ev ∈ zone_categories).
Definition event_row (ev : FenceEventRow) : FenceEventRow :=
  mkFenceEventRow (fe_EventID ev) (fe_GeofenceID ev) (fe_GeofenceVersion ev) (fe_TenantID ev) (fe_EventType ev) (fe_MMSI ev)
    (fe_LatitudeMicros ev) (fe_LongitudeMicros ev) (fe_Classification ev) (fe_EnvelopeDigest ev) (fe_OccurredAt ev)
    (zoneCategoryOrGeneral (fe_ZoneCategory ev)).
(** [InsertGeofenceEvent]: one statement in a transaction that binds the tenant. *)
Definition InsertGeofenceEvent (ev : FenceEventRow) : IO unit :=
  if blank (fe_TenantID ev) then fail FenceEventTenant
  else with_tenant (fe_TenantID ev)
         (r ← external GeoUnavailable (λ g,
            if event_checks g (event_row ev)
            then (mkGeoWorld (upd_fence_events (w_fence_events (gw_pipeline g) ++ [event_row ev]) (gw_pipeline g)) (gw_approvals g) (gw_queue g), true)
            else (g, false));
          require r FenceRefused).
Definition ListGeofenceEvents (tenantID geofenceID : string) (clearedLabels : list string) (limit : Z) : IO (list FenceEventRow) :=
  with_tenant tenantID (read (λ g, take (Z.to_nat limit) (merge_sort (newest_first fe_OccurredAt)
    (filter (λ e, fe_TenantID e = tenantID ∧ fe_GeofenceID e = geofenceID ∧ fe_Classification e ∈ clearedLabels ∧ fe_EnvelopeDigest e ≠ "")
       (w_fence_events (gw_pipeline g)))))).

(** ** Tracks *)

Definition track_row (p : Position) : TrackPointRow :=
  mkTrackRow (LatitudeMicros p) (LongitudeMicros p) (default (-1) (SpeedOverGroundMilliknots p)) (ObservedAt p).
Definition QueryTrack (mmsi : string) (from_ to_ : Z) (clearedLabels : list string) (limit : Z) : IO (list TrackPointRow) :=
  read (λ g, take (Z.to_nat limit) (track_row <$> merge_sort (oldest_first ObservedAt)
    (filter (λ p, MMSI p = mmsi ∧ from_ ≤ ObservedAt p ∧ ObservedAt p ≤ to_ ∧ Types.Classification p ∈ clearedLabels)
       (ais_positions (gw_db g))))).
Definition LatestPosition (mmsi : string) (clearedLabels : list string) : IO TrackPointRow :=
  rows ← read (λ g, merge_sort (newest_first ObservedAt)
            (filter (λ p, MMSI p = mmsi ∧ Types.Classification p ∈ clearedLabels) (ais_positions (gw_db g))));
  match rows with [] => fail FenceNoRows | p :: _ => mret (track_row p) end.

(** The sort of the rows in memory: insertion by neighbour swaps while the distance is
    smaller. *)
Fixpoint insert_nearest (r : NearestVesselRow) (sorted_rev : list NearestVesselRow) : list NearestVesselRow :=
  match sorted_rev with
  | [] => [r]
  | x :: rest => if f_lt (nv_DistanceMeters r) (nv_DistanceMeters x) then x :: insert_nearest r rest else r :: sorted_rev
  end.
Definition sort_nearest (rows : list NearestVesselRow) : list NearestVesselRow := rev (fold_left (λ acc r, insert_nearest r acc) rows []).
(** The statement's own order and limit: [near] picks the rows it returns. *)
Context (near : list NearestVesselRow → Z → list NearestVesselRow).
Definition nearest_row (point : string) (radius : float64) (m : string * string * LatestRow) (s : option StaticReport) : option NearestVesselRow :=
  (λ dist, mkNearest m.1.1 (default "" (s_ShipName <$> s)) (l_LatitudeMicros m.2) (l_LongitudeMicros m.2) (default (-1) (l_Speed m.2))
             dist (l_ObservedAt m.2)) <$> distance_within (l_geom m.2) point radius.
Definition NearestVessels (lat lon : Z) (radius : float64) (clearedLabels : list string) (limit : Z) : IO (list NearestVesselRow) :=
  let point := "SRID=4326;POINT(" +:+ microsText lon +:+ " " +:+ microsText lat +:+ ")" in
  rows ← read (λ g, near (omap id (concat ((λ m, match open_static (gw_db g) m.1.1 with
                       | [] => [nearest_row point radius m None] | ss => nearest_row point radius m ∘ Some <$> ss end)
             <$> filter (λ m, m.1.1 ≠ "" ∧ l_Classification m.2 ∈ clearedLabels) (latest_rows (gw_db g))))) limit);
  mret (take (Z.to_nat limit) (sort_nearest rows)).

(** ** The queue series *)

Definition QueueObservations (portCode : string) (since limit : Z) : IO (list QueueObservationRow) :=
  read (λ g, take (Z.to_nat limit) (merge_sort (oldest_first qo_ObservedAt)
    (filter (λ r, qo_PortCode r = portCode ∧ since ≤ qo_ObservedAt r) (snd <$> map_to_list (gw_queue g))))).
(** [^[A-Z]{5}$], a length that is not negative, a source of 1 to 128 characters. *)
Definition queue_checks (r : QueueObservationRow) : bool :=
  Nat.eqb (String.length (qo_PortCode r)) 5 && all_chars (λ c, (65 <=? byte_of c) && (byte_of c <=? 90)) (qo_PortCode r)
  && (0 <=? qo_QueueLength r) && (qo_QueueLength r <? 2 ^ 31) && (1 <=? char_count (qo_Source r)) && (char_count (qo_Source r) <=? 128).
(** The statement updates the row of a conflict, so the role needs the right to update:
    [may_update]. *)
Definition InsertQueueObservation (may_update : bool) (row : QueueObservationRow) : IO unit :=
  r ← external GeoUnavailable (λ g,
        if may_update && queue_checks row
        then (mkGeoWorld (gw_pipeline g) (gw_approvals g) (<[(qo_PortCode row, pg_time (qo_ObservedAt row)) :=
                mkQueueRow (qo_PortCode row) (qo_QueueLength row) (qo_Source row) (pg_time (qo_ObservedAt row))]> (gw_queue g)), true)
        else (g, false));
  require r GeoUnavailable.

(** ** Density *)

Definition MaxDensityCells : Z := 250000.
Definition cell_of (size micros : Z) : Z := micros / size * size.
Definition density_cells (size : Z) (rows : list LatestRow) : list DensityCellRow :=
  let keys := remove_dups ((λ l, (cell_of size (l_LatitudeMicros l), cell_of size (l_LongitudeMicros l))) <$> rows) in
  (λ k, let own := filter (λ l, (cell_of size (l_LatitudeMicros l), cell_of size (l_LongitudeMicros l)) = k) rows in
        mkDensityCell (int32 k.1) (int32 k.2) (Z.of_nat (length own)) (fold_right (λ l t, Z.max (l_ObservedAt l) t) zero_time own)) <$> keys.
Context (in_box : string → Z → Z → Z → Z → bool).
Definition DensityGrid (minLon minLat maxLon maxLat size : Z) (clearedLabels : list string) : IO (list DensityCellRow * Z) :=
  if size <=? 0 then fail CellSize
  else
    let cellsLat := Z.quot (maxLat - minLat) size + 1 in
    let cellsLon := Z.quot (maxLon - minLon) size + 1 in
    if MaxDensityCells <? int64 (cellsLat * cellsLon) then fail (TooManyCells (int64 (cellsLat * cellsLon)))
    else
      cells ← read (λ g, density_cells size (snd <$> filter
                (λ m, l_Classification m.2 ∈ clearedLabels ∧ in_box (l_geom m.2) minLon minLat maxLon maxLat = true)
                (latest_rows (gw_db g))));
      mret (cells, fold_right (λ c t, Z.max (dc_LatestObservedAt c) t) zero_time cells).
End fences.
