(* ===== verification/GeoProps.v ===== *)
(** * Zones and fences: properties

    The writes of [GeoStore] refine a step relation on the tables; what every state that
    the steps reach has: a zone goes live on a second person's word, a fence keeps its
    whole history, one version of it is in force, and no version is drawn over one its
    author has not seen.  What a reader is shown is cleared and is the reader's own. *)
From S2P Require Import Prelude GoTime GoParse Types Fence GoFloat Effects Store Pipeline PipelineProps GeoStore.
Import Fence.Geometry Fence.Zone.

(** A read that works leaves the state and returns its value there. *)
Lemma read_Ok {A} (f : geo_world → A) w w' a : read f w = (w', Ok a) → e_state w' = e_state w ∧ a = f (e_state w).
Proof. unfold read. intros E%external_Ok. by injection E as -> ->. Qed.

(** ** The abstract steps *)

(** Rows stay where they are, each in relation to what it was; new rows come after. *)
Definition grown {A} (R : A → A → Prop) (l l' : list A) : Prop := ∃ l1 l2, l' = l1 ++ l2 ∧ Forall2 R l l1.
#[export] Instance grown_pre {A} (R : A → A → Prop) : PreOrder R → PreOrder (grown R).
Proof.
  intros HR. split.
  - intros l. exists l, []. rewrite app_nil_r. done.
  - intros a b c (b1 & b2 & -> & H1) (c1 & c2 & -> & H2).
    apply Forall2_app_inv_l in H2 as (d1 & d2 & Hd1 & Hd2 & ->). exists d1, (d2 ++ c2). rewrite <- app_assoc. split; [done|].
    by etrans.
Qed.
Lemma grown_app {A} (R : A → A → Prop) `{!Reflexive R} l l2 : grown R l (l ++ l2).
Proof. by exists l, l2. Qed.
Lemma grown_map {A} (R : A → A → Prop) (f : A → A) l l2 : (∀ a, R a (f a)) → grown R l (map f l ++ l2).
Proof. intros Hf. exists (map f l), l2. split; [done|]. induction l; by constructor. Qed.
Lemma grown_lookup {A} (R : A → A → Prop) l l' i a : grown R l l' → l !! i = Some a → ∃ a', l' !! i = Some a' ∧ R a a'.
Proof.
  intros (l1 & l2 & -> & H) Hi. destruct (Forall2_lookup_l _ _ _ _ _ H Hi) as (a' & Ha & HR).
  exists a'. split; [|done]. by apply lookup_app_l_Some.
Qed.

Definition own_fences (tenantID geofenceID : string) (rows : list FenceRow) : list FenceRow :=
  filter (λ r, of_fence tenantID geofenceID r = true) rows.
Definition zone_row_ids (t : geo_tables) : list string := z_ZoneID <$> geofence_zones (gt_db t).

Inductive geo_step (t : geo_tables) : geo_tables → Prop :=
| zone_drafted z :
    z_State z = "draft" → z_ApprovedBy z = None → z_ZoneID z ∉ zone_row_ids t →
    geo_step t (mkGeoTables (set_zones (λ zs, zs ++ [z]) (gt_db t)) (gt_approvals t) (gt_fences t) (gt_events t))
| zone_cleared z checker now :
    z ∈ geofence_zones (gt_db t) → z_State z = "draft" → z_MakerPrincipalID z ≠ checker → blank checker = false →
    geo_step t (mkGeoTables (set_zones (map (approve_row (z_ZoneID z) checker now)) (gt_db t))
      (gt_approvals t ++ [mkZoneApproval (z_ZoneID z) checker (pg_time now)]) (gt_fences t) (gt_events t))
| fence_drawn r now :
    fr_State r = "ACTIVE" → fr_RetiredAt r = None →
    fr_Version r = max_version (own_fences (fr_TenantID r) (fr_GeofenceID r) (gt_fences t)) + 1 →
    Forall (λ r', fence_clash r r' = false) (map (retire_row (fr_TenantID r) (fr_GeofenceID r) now) (gt_fences t)) →
    geo_step t (mkGeoTables (gt_db t) (gt_approvals t)
      (map (retire_row (fr_TenantID r) (fr_GeofenceID r) now) (gt_fences t) ++ [r]) (gt_events t))
| fence_withdrawn tenantID geofenceID now :
    geo_step t (mkGeoTables (gt_db t) (gt_approvals t) (map (retire_row tenantID geofenceID now) (gt_fences t)) (gt_events t))
| crossing_recorded e : geo_step t (mkGeoTables (gt_db t) (gt_approvals t) (gt_fences t) (gt_events t ++ [e])).

Inductive geo_op :=
| DoCreateZone (tenantID zoneID name floor maker polygon : string)
| DoApproveZone (tenantID zoneID checker : string)
| DoCreateFence (row : FenceRow) (expected : Z)
| DoRetireFence (tenantID geofenceID : string)
| DoRecordEvent (ev : FenceEventRow).

Section refinement.
Context (polygon_of_geojson : string → option string) (row_security : bool).

Definition geo_do (op : geo_op) : M geo_world geo_error unit :=
  match op with
  | DoCreateZone tn id name floor maker poly => CreateZone polygon_of_geojson tn id name floor maker poly
  | DoApproveZone tn id checker => ApproveZone tn id checker
  | DoCreateFence row expected => _ ← CreateGeofenceVersion row_security row expected; mret tt
  | DoRetireFence tn id => RetireGeofence row_security tn id
  | DoRecordEvent ev => InsertGeofenceEvent ev
  end.
Fixpoint geo_run (ops : list geo_op) (w : env geo_world) : env geo_world :=
  match ops with [] => w | op :: ops' => geo_run ops' (geo_do op w).1 end.

Lemma geo_tables_of_set t g : geo_tables_of (set_geo_tables t g) = t.
Proof. by destruct t. Qed.

Lemma insert_zone_step z w w' u :
  z_State z = "draft" → z_ApprovedBy z = None → insert_zone z w = (w', Ok u) →
  geo_step (geo_tables_of (e_state w)) (geo_tables_of (e_state w')).
Proof.
  intros Hs Ha. unfold insert_zone. intros (w1 & ok & E1 & E2)%M_bind_Ok. apply external_Ok in E1.
  destruct (zone_checks z) eqn:Hc; cbn [andb] in E1; [|by simplify_eq/=].
  destruct (existsb _ _) eqn:Hx; cbn [negb] in E1; [by simplify_eq/=|].
  injection E1 as E1 <-. unfold require, mret, M_ret in E2. injection E2 as -> _. rewrite <- E1.
  apply (zone_drafted (geo_tables_of (e_state w)) z Hs Ha).
  intros (z' & E & Hz)%list_elem_of_fmap. apply not_true_iff_false in Hx. apply Hx, existsb_exists.
  exists z'. split; [by apply list_elem_of_In|]. by rewrite E, String.eqb_refl.
Qed.

Lemma CreateZone_refines tn id name floor maker poly :
  refines_on geo_tables_of geo_step (CreateZone polygon_of_geojson tn id name floor maker poly).
Proof.
  unfold CreateZone. destruct (blank id || blank name); [apply refines_fail|]. destruct (blank maker); [apply refines_fail|].
  destruct (negb _); [apply refines_fail|].
  apply tenant_transaction_refines; [apply geo_tables_of_set|]. intros w w' a (w1 & now & [= <- <-] & E)%M_bind_Ok.
  case_match; [|done]. by eapply insert_zone_step in E.
Qed.

Lemma ApproveZone_refines tn id checker : refines_on geo_tables_of geo_step (ApproveZone tn id checker).
Proof.
  unfold ApproveZone. destruct (blank checker) eqn:Hb; [apply refines_fail|].
  apply tenant_transaction_refines; [apply geo_tables_of_set|].
  intros w w' a (w1 & found & E1 & E)%M_bind_Ok. apply read_Ok in E1 as [E1 ->].
  case_match eqn:Hf; [|done]. apply find_some in Hf as [Hin Hid%String.eqb_eq].
  apply list_elem_of_In, list_elem_of_filter in Hin as [_ Hin].
  destruct (String.eqb_spec (z_MakerPrincipalID z) checker); [done|].
  destruct (String.eqb_spec (z_State z) "draft"); [|done]. cbn [negb] in E.
  apply M_bind_Ok in E as (w2 & now & [= <- <-] & E). apply M_bind_Ok in E as (w3 & ok & E3 & E). apply external_Ok in E3.
  destruct (_ || _); injection E3 as E3 <-; [by apply M_bind_Ok in E as (? & ? & ? & ?)|].
  apply M_bind_Ok in E as (w4 & ? & [= <- <-] & E). apply external_Ok in E. injection E as E.
  rewrite <- E, <- E3, E1. subst id. by apply (zone_cleared (geo_tables_of (e_state w)) z checker).
Qed.

Lemma transaction_refines {A} step (body : M geo_world geo_error A) :
  (∀ w w' a, body w = (w', Ok a) → step (geo_tables_of (e_state w)) (geo_tables_of (e_state w'))) →
  refines_on geo_tables_of step (transaction geo_tables_of set_geo_tables GeoUnavailable GeoUnavailable body).
Proof.
  intros Hb w. unfold transaction.
  destruct (external (A := unit) GeoUnavailable (λ s, (s, tt)) w) as [w1 [u|e]] eqn:E1; cycle 1.
  { split; [left|done]. simpl. unfold external in E1. by destruct (e_faults w) as [|[] ?]; simplify_eq/=. }
  apply external_Ok in E1. injection E1 as E1 _. destruct (body w1) as [w2 [a|e]] eqn:E2; cycle 1.
  { split; [|done]. left. simpl. by rewrite geo_tables_of_set. }
  apply Hb in E2. rewrite <- E1 in E2.
  destruct (e_faults w2) as [|[] fs]; cbn [fst snd e_state]; rewrite ?geo_tables_of_set; (split; [auto|]); done.
Qed.

Lemma CreateGeofenceVersion_body row expected w w' created :
  (latest ← read (λ g, max_version (filter (λ r, of_fence (fr_TenantID row) (fr_GeofenceID row) r = true) (pool_fences row_security g)));
   if negb (latest =? expected) then fail (VersionConflict latest expected) else
   match fr_Vertices row with
   | None => fail VerticesInvalid
   | Some vertices => match polygonWKT vertices with
     | None => fail RingTooShort
     | Some _ =>
       now ← gets (λ g, w_now (gw_pipeline g));
       _ ← external GeoUnavailable (λ g,
             (if row_security then g else upd_fences (map (retire_row (fr_TenantID row) (fr_GeofenceID row) now)) g, tt));
       let created := mkFenceRow (fr_GeofenceID row) (latest + 1) (fr_TenantID row) (fr_Name row) (fr_Classification row)
                        (fr_Vertices row) (fr_DwellThresholdSeconds row) (fr_DwellSpeedGateMilliknots row) "ACTIVE"
                        (zoneCategoryOrGeneral (fr_ZoneCategory row)) (fr_CreatedBy row) (pg_time now) None in
       r ← external GeoUnavailable (λ g,
             if row_security || negb (fence_checks created) || existsb (fence_clash created) (w_fence_rows (gw_pipeline g))
             then (g, false) else (upd_fences (λ rows, rows ++ [created]) g, true));
       _ ← require r FenceRefused;
       mret created
     end
   end) w = (w', Ok created) →
  ∃ now, row_security = false ∧
    expected = max_version (own_fences (fr_TenantID row) (fr_GeofenceID row) (gt_fences (geo_tables_of (e_state w)))) ∧
    created = mkFenceRow (fr_GeofenceID row) (expected + 1) (fr_TenantID row) (fr_Name row) (fr_Classification row)
                (fr_Vertices row) (fr_DwellThresholdSeconds row) (fr_DwellSpeedGateMilliknots row) "ACTIVE"
                (zoneCategoryOrGeneral (fr_ZoneCategory row)) (fr_CreatedBy row) (pg_time now) None ∧
    let retired := map (retire_row (fr_TenantID row) (fr_GeofenceID row) now) (gt_fences (geo_tables_of (e_state w))) in
    Forall (λ r', fence_clash created r' = false) retired ∧
    geo_tables_of (e_state w') = mkGeoTables (gw_db (e_state w)) (gw_approvals (e_state w)) (retired ++ [created])
      (w_fence_events (gw_pipeline (e_state w))).
Proof.
  intros (w1 & latest & E1 & E)%M_bind_Ok. apply read_Ok in E1 as [E1 ->].
  destruct (_ =? expected) eqn:Hv; [|done]. apply Z.eqb_eq in Hv. cbn [negb] in E.
  destruct (fr_Vertices row) eqn:HV; [|done]. destruct (polygonWKT l); [|done].
  apply M_bind_Ok in E as (w2 & now & [= <- <-] & E). apply M_bind_Ok in E as (w3 & ? & E3 & E). apply external_Ok in E3.
  cbn zeta in E. apply M_bind_Ok in E as (w4 & ok & E4 & E). apply external_Ok in E4.
  rewrite Hv in *. unfold pool_fences in *.
  destruct row_security; [injection E4 as _ <-; by apply M_bind_Ok in E as (? & ? & ? & ?)|].
  cbn [orb] in E4. case_match eqn:Hc; injection E4 as E4 <-; [by apply M_bind_Ok in E as (? & ? & ? & ?)|].
  apply M_bind_Ok in E as (w5 & ? & [= <- _] & E). injection E as -> <-. apply orb_false_iff in Hc as [_ Hc].
  injection E3 as E3 _. exists (w_now (gw_pipeline (e_state w1))). rewrite E1. split_and!; [done|done|done|..].
  - apply Forall_forall. intros r' Hr'. apply not_true_iff_false. intros Ht. apply not_true_iff_false in Hc. apply Hc, existsb_exists.
    exists r'. split; [|done]. rewrite <- E3, E1. by apply list_elem_of_In.
  - by rewrite <- E4, <- E3, E1.
Qed.

Lemma CreateGeofenceVersion_step row expected w w' created :
  CreateGeofenceVersion row_security row expected w = (w', Ok created) →
  expected = max_version (own_fences (fr_TenantID row) (fr_GeofenceID row) (gt_fences (geo_tables_of (e_state w)))) ∧
  fr_Version created = expected + 1 ∧ of_fence (fr_TenantID row) (fr_GeofenceID row) created = true ∧
  created ∈ gt_fences (geo_tables_of (e_state w')).
Proof.
  unfold CreateGeofenceVersion, transaction.
  destruct (external _ _ w) as [w1 [u|e]] eqn:E1; [|done]. apply external_Ok in E1. injection E1 as E1 _. rewrite E1.
  match goal with |- match ?b with _ => _ end = _ → _ => destruct b as [w2 [a|e]] eqn:E2 end; [|done].
  apply CreateGeofenceVersion_body in E2 as (now & _ & He & -> & _ & Ht). intros E.
  assert (geo_tables_of (e_state w') = geo_tables_of (e_state w2) ∧
    created = mkFenceRow (fr_GeofenceID row) (expected + 1) (fr_TenantID row) (fr_Name row) (fr_Classification row)
                (fr_Vertices row) (fr_DwellThresholdSeconds row) (fr_DwellSpeedGateMilliknots row) "ACTIVE"
                (zoneCategoryOrGeneral (fr_ZoneCategory row)) (fr_CreatedBy row) (pg_time now) None) as [-> ->].
  { destruct (e_faults w2) as [|[] fs]; by simplify_eq/=. }
  split_and!; [done|done|unfold of_fence; cbn; by rewrite !String.eqb_refl|]. rewrite Ht. cbn. set_solver.
Qed.

Lemma geo_do_refines op w :
  geo_tables_of (e_state (geo_do op w).1) = geo_tables_of (e_state w) ∨
  geo_step (geo_tables_of (e_state w)) (geo_tables_of (e_state (geo_do op w).1)).
Proof.
  destruct op as [tn id name floor maker poly|tn id checker|row expected|tn id|ev]; cbn [geo_do].
  - apply CreateZone_refines.
  - apply ApproveZone_refines.
  - enough (refines_on geo_tables_of geo_step (CreateGeofenceVersion row_security row expected)) as Hr.
    { apply (refines_then _ _ _ (λ _, mret tt)); [apply Hr|done]. }
    apply transaction_refines. intros w1 w2 a (now & _ & He & -> & Hc & ->)%CreateGeofenceVersion_body.
    eapply (fence_drawn (geo_tables_of (e_state w1)) (mkFenceRow _ _ _ _ _ _ _ _ _ _ _ _ _)); [done|done| |exact Hc]. cbn. by rewrite He.
  - unfold RetireGeofence, mbind, M_bind, gets.
    destruct (external _ _ w) as [w1 r] eqn:E. unfold external in E.
    assert (geo_tables_of (e_state w1) = geo_tables_of (e_state w) ∨ geo_step (geo_tables_of (e_state w)) (geo_tables_of (e_state w1))) as Hw.
    { unfold pool_fences in E. destruct row_security, (existsb _ _), (e_faults w) as [|[] fs]; simplify_eq/=; eauto;
        right; apply fence_withdrawn. }
    destruct r as [[]|]; done.
  - unfold InsertGeofenceEvent. case_match; [by left|].
    apply tenant_transaction_refines; [apply geo_tables_of_set|]. intros w1 w2 a (w3 & ok & E & Hr)%M_bind_Ok.
    apply external_Ok in E. destruct (event_checks _ _); injection E as E <-; [|done]. injection Hr as <- _. rewrite <- E.
    apply crossing_recorded.
Qed.
(** Every sequence of requests, under every pattern of faults, is a path of the steps. *)
Lemma geo_run_steps ops : ∀ w, rtc geo_step (geo_tables_of (e_state w)) (geo_tables_of (e_state (geo_run ops w))).
Proof.
  induction ops as [|op ops IH]; intros w; cbn [geo_run]; [done|].
  destruct (geo_do_refines op w) as [<-|Hs]; [apply IH|]. eapply rtc_l; [done|apply IH].
Qed.
End refinement.

(** ** Invariant and evolution *)

Record zone_ok (ledger : list ZoneApproval) (z : Zone) : Prop := {
  zone_states : (z_State z = "draft" ∧ z_ApprovedBy z = None) ∨
    z_State z = "approved" ∧ ∃ c at_, z_ApprovedBy z = Some c ∧ z_ApprovedAt z = Some at_ ∧ blank c = false ∧
      c ≠ z_MakerPrincipalID z ∧ mkZoneApproval (z_ZoneID z) c at_ ∈ ledger;
}.
(** A draft is approved once; nothing else of a zone changes. *)
Definition zone_later (z z' : Zone) : Prop :=
  z' = z ∨ z_State z = "draft" ∧ ∃ checker now, z' = approve_row (z_ZoneID z) checker now z.
#[export] Instance zone_later_pre : PreOrder zone_later.
Proof.
  split; [by left|]. intros a b c [->|[Ha (ck & now & ->)]] [->|[Hb (ck' & now' & ->)]]; unfold zone_later; eauto 8.
  exfalso. revert Hb. unfold approve_row. by rewrite String.eqb_refl.
Qed.

Definition retired_of (r : FenceRow) (at_ : Z) : FenceRow :=
  mkFenceRow (fr_GeofenceID r) (fr_Version r) (fr_TenantID r) (fr_Name r) (fr_Classification r) (fr_Vertices r)
    (fr_DwellThresholdSeconds r) (fr_DwellSpeedGateMilliknots r) "RETIRED" (fr_ZoneCategory r) (fr_CreatedBy r) (fr_CreatedAt r) (Some at_).
(** A version in force is retired once; nothing else of it changes. *)
Definition fence_later (r r' : FenceRow) : Prop := r' = r ∨ fr_State r = "ACTIVE" ∧ ∃ at_, r' = retired_of r at_.
#[export] Instance fence_later_pre : PreOrder fence_later.
Proof.
  split; [by left|]. intros a b c [->|[Ha (t1 & ->)]] [->|[Hb (t2 & ->)]]; unfold fence_later; eauto 8.
Qed.
Lemma retire_row_later tn id now r : fence_later r (retire_row tn id now r).
Proof.
  unfold retire_row. destruct (_ && _) eqn:E; [|by left]. apply andb_true_iff in E as [_ E%String.eqb_eq]. right. eauto.
Qed.
Lemma later_same_fence r r' tn id : fence_later r r' →
  of_fence tn id r' = of_fence tn id r ∧ fr_Version r' = fr_Version r ∧ fr_GeofenceID r' = fr_GeofenceID r ∧ fr_TenantID r' = fr_TenantID r.
Proof. by intros [->|[_ (? & ->)]]. Qed.

Record fences_ok (rows : list FenceRow) : Prop := {
  fence_keys : NoDup ((λ r, (fr_GeofenceID r, fr_Version r)) <$> rows);
  (* the versions of a fence are 1, 2, ... in the order they were drawn *)
  fence_versions tn id : fr_Version <$> own_fences tn id rows = seqZ 1 (Z.of_nat (length (own_fences tn id rows)));
  (* every version but the latest is retired, with the time *)
  fence_in_force : Forall (λ r, fr_State r = "RETIRED" ∧ is_Some (fr_RetiredAt r) ∨
      fr_State r = "ACTIVE" ∧ fr_RetiredAt r = None ∧
      fr_Version r = Z.of_nat (length (own_fences (fr_TenantID r) (fr_GeofenceID r) rows))) rows;
}.
Record geo_ok (t : geo_tables) : Prop := {
  geo_zone_ids : NoDup (zone_row_ids t);
  geo_zones_ok : Forall (zone_ok (gt_approvals t)) (geofence_zones (gt_db t));
  geo_fences_ok : fences_ok (gt_fences t);
}.
Record geo_later (t t' : geo_tables) : Prop := {
  geo_zones_later : grown zone_later (geofence_zones (gt_db t)) (geofence_zones (gt_db t'));
  geo_ledger_later : grown eq (gt_approvals t) (gt_approvals t');
  geo_fences_later : grown fence_later (gt_fences t) (gt_fences t');
  geo_events_later : grown eq (gt_events t) (gt_events t');
}.
#[export] Instance geo_later_pre : PreOrder geo_later.
Proof. split; [intros t; by split|]. intros a b c [] []. split; by etrans. Qed.

(** *** Fences *)

Lemma own_fences_later tn id rows rows' :
  Forall2 fence_later rows rows' → Forall2 fence_later (own_fences tn id rows) (own_fences tn id rows').
Proof.
  unfold own_fences. induction 1 as [|r r' l l' Hr Hl IH]; [done|]. destruct (later_same_fence r r' tn id Hr) as [E _].
  rewrite !filter_cons, E. case_decide; [by constructor|done].
Qed.
Lemma own_fences_retired tn id tn' id' now rows :
  Forall2 fence_later (own_fences tn id rows) (own_fences tn id (map (retire_row tn' id' now) rows)).
Proof. apply own_fences_later. induction rows; constructor; [apply retire_row_later|done]. Qed.
Lemma max_version_seq rows n : fr_Version <$> rows = seqZ 1 (Z.of_nat n) → max_version rows = Z.of_nat n.
Proof.
  intros E. assert (∀ v, v ∈ fr_Version <$> rows ↔ 1 ≤ v ≤ Z.of_nat n) as Hv.
  { intros v. rewrite E, elem_of_seqZ. lia. } clear E.
  assert (∀ r, r ∈ rows → fr_Version r ≤ max_version rows) as Hle.
  { clear. induction rows as [|r0 rows IH]; intros r Hr; [by apply not_elem_of_nil in Hr|]. cbn.
    apply elem_of_cons in Hr as [->|Hr]; [lia|]. specialize (IH r Hr). unfold max_version in IH. lia. }
  assert (0 ≤ max_version rows) by (clear; induction rows; cbn; unfold max_version in *; lia).
  assert (max_version rows = 0 ∨ max_version rows ∈ fr_Version <$> rows) as [E|Hm].
  { clear. induction rows as [|r rows IH]; [by left|]. change (max_version (r :: rows)) with (fr_Version r `max` max_version rows).
    rewrite fmap_cons. destruct (Z.max_spec (fr_Version r) (max_version rows)) as [[? ->]|[? ->]]; [|right; left].
    destruct IH as [->|IH]; [by left|right; by right]. }
  - rewrite E. destruct n as [|n]; [done|]. exfalso. assert (1 ∈ fr_Version <$> rows) as (r & Hr & Hin)%list_elem_of_fmap by (apply Hv; lia).
    specialize (Hle r Hin). lia.
  - apply Hv in Hm as [? Hm]. destruct n as [|n]; [lia|].
    assert (Z.of_nat (S n) ∈ fr_Version <$> rows) as (r & Hr & Hin)%list_elem_of_fmap by (apply Hv; lia).
    specialize (Hle r Hin). lia.
Qed.
Lemma Forall2_later_fmap {B} (f : FenceRow → B) rows rows' :
  (∀ r r', fence_later r r' → f r' = f r) → Forall2 fence_later rows rows' → f <$> rows' = f <$> rows.
Proof. intros Hf. induction 1 as [|r r' l l' Hr Hl IH]; [done|]. rewrite !fmap_cons, IH. f_equal. by apply Hf. Qed.

Lemma own_fences_snoc tn id rows r :
  own_fences tn id (rows ++ [r]) = own_fences tn id rows ++ (if of_fence tn id r then [r] else []).
Proof.
  unfold own_fences. rewrite filter_app. f_equal. rewrite filter_cons, filter_nil. by destruct (of_fence tn id r).
Qed.
Lemma of_fence_spec tn id r : of_fence tn id r = true ↔ fr_GeofenceID r = id ∧ fr_TenantID r = tn.
Proof. unfold of_fence. by rewrite andb_true_iff, !String.eqb_eq. Qed.

Lemma fences_ok_retired tn id now rows : fences_ok rows → fences_ok (map (retire_row tn id now) rows).
Proof.
  intros [Hk Hv Hf].
  assert (Forall2 fence_later rows (map (retire_row tn id now) rows)) as Hl.
  { clear. induction rows; constructor; [apply retire_row_later|done]. }
  assert (∀ tn' id', length (own_fences tn' id' (map (retire_row tn id now) rows)) = length (own_fences tn' id' rows)) as Hlen.
  { intros. symmetry. eapply Forall2_length, own_fences_later, Hl. }
  split.
  - rewrite (Forall2_later_fmap _ rows) by (try done; intros r r' Hr; by destruct (later_same_fence r r' tn id Hr) as (_ & -> & -> & _)). done.
  - intros tn' id'. rewrite Hlen, <- Hv. eapply Forall2_later_fmap; [|apply own_fences_later, Hl].
    intros r r' Hr. by destruct (later_same_fence r r' tn id Hr) as (_ & -> & _).
  - rewrite Forall_fmap. eapply Forall_impl; [done|]. intros r Hr. cbn. rewrite Hlen. unfold retire_row.
    destruct (_ && _); [left; naive_solver|done].
Qed.
Lemma fences_ok_drawn rows r now :
  fr_State r = "ACTIVE" → fr_RetiredAt r = None →
  fr_Version r = max_version (own_fences (fr_TenantID r) (fr_GeofenceID r) rows) + 1 →
  Forall (λ r', fence_clash r r' = false) (map (retire_row (fr_TenantID r) (fr_GeofenceID r) now) rows) →
  fences_ok rows → fences_ok (map (retire_row (fr_TenantID r) (fr_GeofenceID r) now) rows ++ [r]).
Proof.
  intros Hs Hr Hver Hc Hok. set (rows' := map _ rows) in *.
  assert (fr_Version r = Z.of_nat (length (own_fences (fr_TenantID r) (fr_GeofenceID r) rows')) + 1) as Hver'.
  { rewrite Hver. f_equal. rewrite (max_version_seq _ _ (fence_versions _ Hok _ _)). f_equal.
    eapply Forall2_length, own_fences_retired. }
  apply (fences_ok_retired (fr_TenantID r) (fr_GeofenceID r) now) in Hok as [Hk Hv Hf]. fold rows' in Hk, Hv, Hf.
  split.
  - rewrite fmap_app. apply NoDup_app. split_and!; [done| |apply NoDup_singleton].
    intros k (r' & -> & Hr')%list_elem_of_fmap Hin. apply list_elem_of_singleton in Hin. injection Hin as Hid Hve.
    rewrite Forall_forall in Hc. specialize (Hc r' Hr'). unfold fence_clash in Hc. rewrite Hid, Hve, String.eqb_refl, Z.eqb_refl in Hc. done.
  - intros tn id. rewrite own_fences_snoc. destruct (of_fence tn id r) eqn:E; [|by rewrite app_nil_r].
    apply of_fence_spec in E as [<- <-]. rewrite fmap_app, length_app, Hv, Nat2Z.inj_add, seqZ_app by lia. f_equal.
    rewrite (seqZ_S _ 0), Z.add_0_r, fmap_cons, Hver', Z.add_comm. done.
  - apply Forall_app. split; [|apply Forall_singleton; right; split_and!; [done|done|]].
    + rewrite Forall_forall in *. intros r' Hin. specialize (Hf r' Hin). specialize (Hc r' Hin).
      destruct Hf as [|(Ha & Hn & Hve)]; [by left|]. right. split_and!; [done|done|]. rewrite own_fences_snoc.
      destruct (of_fence _ _ r) eqn:E; [|by rewrite app_nil_r]. apply of_fence_spec in E as [E1 E2].
      unfold fence_clash in Hc. rewrite E1, Ha, String.eqb_refl, orb_true_r in Hc. done.
    + rewrite own_fences_snoc. assert (of_fence (fr_TenantID r) (fr_GeofenceID r) r = true) as -> by (by apply of_fence_spec).
      rewrite length_app, Hver'. cbn. lia.
Qed.

(** *** Zones *)

Lemma approve_row_id id checker now z : z_ZoneID (approve_row id checker now z) = z_ZoneID z.
Proof. unfold approve_row. by destruct (String.eqb _ _). Qed.
Lemma zone_ids_approved id checker now zs : z_ZoneID <$> map (approve_row id checker now) zs = z_ZoneID <$> zs.
Proof. induction zs as [|z zs IH]; [done|]. cbn. by rewrite approve_row_id, <- IH. Qed.
Lemma zone_by_id zs z z' : NoDup (z_ZoneID <$> zs) → z ∈ zs → z' ∈ zs → z_ZoneID z = z_ZoneID z' → z = z'.
Proof.
  intros Hnd [i Hi]%list_elem_of_lookup [j Hj]%list_elem_of_lookup E.
  assert (i = j) as ->; [|by simplify_eq]. eapply (NoDup_lookup _ _ _ (z_ZoneID z) Hnd); rewrite list_lookup_fmap; [by rewrite Hi|by rewrite Hj, E].
Qed.
Lemma zone_ok_mono l l' z : zone_ok l z → zone_ok (l ++ l') z.
Proof.
  intros [[?|(? & c & at_ & ? & ? & ? & ? & ?)]]; split; [by left|]. right. split; [done|]. exists c, at_. set_solver.
Qed.

Lemma geo_step_ok t t' : geo_step t t' → geo_ok t → geo_ok t' ∧ geo_later t t'.
Proof.
  intros Hs [Hid Hz Hf]. destruct Hs as [z Hd Ha Hn|z checker now Hin Hd Hm Hb|r now Hs Hr Hv Hc|tn id now|e];
    (split; [split|split]); cbn; try done; try reflexivity.
  - unfold zone_row_ids. cbn. rewrite fmap_app. apply NoDup_app. split_and!; [done| |apply NoDup_singleton].
    intros x Hx Hx'. apply list_elem_of_singleton in Hx'. by subst x.
  - apply Forall_app. split; [done|]. apply Forall_singleton. split. by left.
  - apply grown_app; apply _.
  - unfold zone_row_ids. cbn. by rewrite zone_ids_approved.
  - rewrite Forall_fmap. rewrite Forall_forall in *. intros z' Hz'. specialize (Hz z' Hz'). cbn. unfold approve_row.
    destruct (String.eqb_spec (z_ZoneID z') (z_ZoneID z)) as [E|]; [|by apply zone_ok_mono].
    assert (z' = z) as -> by (by eapply zone_by_id). split. right. split; [done|]. exists checker, (pg_time now). cbn.
    split_and!; [done|done|done|done|set_solver].
  - exists (map (approve_row (z_ZoneID z) checker now) (geofence_zones (gt_db t))), []. split; [by rewrite app_nil_r|].
    assert (∀ zs, zs ⊆ geofence_zones (gt_db t) → Forall2 zone_later zs (map (approve_row (z_ZoneID z) checker now) zs)) as Hl.
    2: { by apply Hl. }
    induction zs as [|z' zs IH]; intros Hsub; constructor; [|apply IH; set_solver].
    destruct (String.eqb_spec (z_ZoneID z') (z_ZoneID z)) as [E|E].
    + assert (z' = z) as -> by (eapply zone_by_id; [done|set_solver|done|done]). right. eauto.
    + left. unfold approve_row. by destruct (String.eqb_spec (z_ZoneID z') (z_ZoneID z)).
  - by apply grown_app.
  - by apply fences_ok_drawn.
  - apply grown_map. intros a. apply retire_row_later.
  - by apply fences_ok_retired.
  - rewrite <- (app_nil_r (map _ _)). apply grown_map. intros a. apply retire_row_later.
  - by apply grown_app.
Qed.
Lemma geo_steps_ok t t' : rtc geo_step t t' → geo_ok t → geo_ok t' ∧ geo_later t t'.
Proof.
  induction 1 as [t|t1 t2 t3 Hs _ IH]; intros Hok; [done|]. destruct (geo_step_ok _ _ Hs Hok) as [H2 L2].
  destruct (IH H2) as [H3 L3]. split; [done|]. by etrans.
Qed.

(** ** Properties *)

(** C18: under every sequence of zone and fence requests, with every pattern of faults of the
    database and whether or not row security hides the fences, the tables keep their
    invariant: a zone id is used once; a zone is a draft without an approver, or approved
    by somebody who is not blank, is not its maker and stands in the ledger of approvals
    with that time; the versions of a fence are 1, 2, ... in the order they were drawn, one
    row each, all but the latest retired with a time.  And nothing is rewritten: a zone only
    goes from draft to approved, a version from in force to retired, and the ledger, the
    crossings and the rows of both tables only grow. *)
Theorem geo_tables_kept polygon_of_geojson row_security ops w :
  geo_ok (geo_tables_of (e_state w)) →
  let w' := geo_run polygon_of_geojson row_security ops w in
  geo_ok (geo_tables_of (e_state w')) ∧ geo_later (geo_tables_of (e_state w)) (geo_tables_of (e_state w')).
Proof. intros Hok. eapply geo_steps_ok; [apply geo_run_steps|done]. Qed.

Lemma max_version_later tn id rows rows' :
  fences_ok rows → fences_ok rows' → grown fence_later rows rows' →
  max_version (own_fences tn id rows) ≤ max_version (own_fences tn id rows').
Proof.
  intros H1 H2 (l1 & l2 & -> & Hl).
  rewrite (max_version_seq _ _ (fence_versions _ H1 tn id)), (max_version_seq _ _ (fence_versions _ H2 tn id)).
  unfold own_fences. rewrite filter_app, length_app. apply (own_fences_later tn id) in Hl. apply Forall2_length in Hl.
  unfold own_fences in Hl. lia.
Qed.
Lemma max_version_in tn id rows r : r ∈ own_fences tn id rows → fr_Version r ≤ max_version (own_fences tn id rows).
Proof.
  generalize (own_fences tn id rows). intros l. induction l as [|r0 l IH]; intros Hr; [by apply not_elem_of_nil in Hr|].
  change (max_version (r0 :: l)) with (fr_Version r0 `max` max_version l). apply elem_of_cons in Hr as [->|Hr]; [lia|].
  specialize (IH Hr). lia.
Qed.

(** no update of a fence is lost: when a version was drawn over version [expected],
    then whatever happens afterwards, no other request that expects the same version of the
    same fence is ever answered with success. *)
Theorem no_lost_fence_update polygon_of_geojson row_security row row' expected w w1 created ops :
  geo_ok (geo_tables_of (e_state w)) →
  CreateGeofenceVersion row_security row expected w = (w1, Ok created) →
  fr_TenantID row' = fr_TenantID row → fr_GeofenceID row' = fr_GeofenceID row →
  let w2 := geo_run polygon_of_geojson row_security ops w1 in
  ∀ w3 created', CreateGeofenceVersion row_security row' expected w2 ≠ (w3, Ok created').
Proof.
  intros Hok E Ht Hi w2 w3 created' E'. subst w2.
  assert (geo_ok (geo_tables_of (e_state w1))) as Hok1.
  { pose proof (geo_do_refines polygon_of_geojson row_security (DoCreateFence row expected) w) as Hr. cbn [geo_do] in Hr.
    unfold mbind, M_bind in Hr. rewrite E in Hr. cbn in Hr. destruct Hr as [->|Hr]; [done|]. by eapply geo_step_ok in Hr as [? _]. }
  apply CreateGeofenceVersion_step in E as (He & Hv & Hf & Hin).
  apply CreateGeofenceVersion_step in E' as (He' & _). rewrite Ht, Hi in He'.
  destruct (geo_steps_ok _ _ (geo_run_steps polygon_of_geojson row_security ops w1) Hok1) as [Hok2 Hl].
  pose proof (max_version_later (fr_TenantID row) (fr_GeofenceID row) _ _ (geo_fences_ok _ Hok1) (geo_fences_ok _ Hok2) (geo_fences_later _ _ Hl)).
  assert (expected + 1 ≤ max_version (own_fences (fr_TenantID row) (fr_GeofenceID row) (gt_fences (geo_tables_of (e_state w1))))); [|lia].
  rewrite <- Hv. apply max_version_in. unfold own_fences. by apply list_elem_of_filter.
Qed.

(** *** Reads *)

Lemma with_tenant_read {A} tenantID (f : geo_world → A) w w' a :
  with_tenant tenantID (read f) w = (w', Ok a) → blank tenantID = false ∧ a = f (e_state w).
Proof.
  unfold with_tenant, tenant_transaction, transaction. destruct (blank tenantID); [done|].
  destruct (external _ _ w) as [w1 [u|e]] eqn:E1; [|done]. apply external_Ok in E1. injection E1 as E1 _.
  destruct ((external _ _ ≫= _) w1) as [w2 [b|e]] eqn:E2; [|done].
  apply M_bind_Ok in E2 as (w3 & ? & E2 & E3). apply external_Ok in E2. injection E2 as E2 _. apply read_Ok in E3 as [_ ->].
  rewrite <- E2, <- E1. destruct (e_faults w2) as [|[] ?]; naive_solver.
Qed.
Lemma joined_class d m v : v ∈ joined d m → vm_Classification v = l_Classification m.2 ∧ vm_MMSI v = m.1.1.
Proof.
  destruct m as [[mmsi ref] l]. unfold joined. destruct (open_static d _) as [|s ss].
  - intros ->%list_elem_of_singleton. done.
  - intros (s' & -> & _)%list_elem_of_fmap. done.
Qed.
Lemma joined_rows_class d (P : string * string * LatestRow → Prop) `{∀ m, Decision (P m)} v ms :
  v ∈ concat (joined d <$> filter P ms) → ∃ m, m ∈ ms ∧ P m ∧ vm_Classification v = l_Classification m.2 ∧ vm_MMSI v = m.1.1.
Proof.
  intros (l & Hl%list_elem_of_In & Hv%list_elem_of_In)%list_elem_of_In%in_concat. apply list_elem_of_fmap in Hl as (m & -> & Hm).
  apply list_elem_of_filter in Hm as [HP Hm]. apply joined_class in Hv as [? ?]. eauto.
Qed.

(** what the readers are shown is theirs to see, and the fences and zones are shown in
    full.  Vessels carry a cleared label and number at most the limit; the zones listed are
    exactly the tenant's with a cleared floor; the fences listed are exactly the tenant's in
    force with a cleared label; the crossings are of the asked fence and tenant, cleared,
    and carry their envelope's digest; the view of a vessel shows its own cleared position,
    its own cleared static record, and crossings of the tenant that are cleared. *)
Theorem readers_see_their_own in_box row_security tenantID mmsi geofenceID cleared (limit minLon minLat maxLon maxLat : Z) w w' :
  (∀ vs, ListVessels in_box minLon minLat maxLon maxLat cleared limit w = (w', Ok vs) →
    Forall (λ v, vm_Classification v ∈ cleared) vs ∧ (length vs ≤ Z.to_nat limit)%nat) ∧
  (∀ zs, ListZones tenantID cleared w = (w', Ok zs) →
    ∀ z, z ∈ zs ↔ z ∈ geofence_zones (gw_db (e_state w)) ∧ z_TenantID z = tenantID ∧ z_ClassificationFloor z ∈ cleared) ∧
  (∀ rows, ListActiveGeofences row_security tenantID cleared w = (w', Ok rows) →
    ∀ r, r ∈ rows ↔ row_security = false ∧ r ∈ w_fence_rows (gw_pipeline (e_state w)) ∧ fr_State r = "ACTIVE" ∧
      fr_TenantID r = tenantID ∧ fr_Classification r ∈ cleared) ∧
  (∀ evs, ListGeofenceEvents tenantID geofenceID cleared limit w = (w', Ok evs) →
    Forall (λ e, fe_TenantID e = tenantID ∧ fe_GeofenceID e = geofenceID ∧ fe_Classification e ∈ cleared ∧ fe_EnvelopeDigest e ≠ "") evs) ∧
  (∀ v, GetVessel360 mmsi tenantID cleared w = (w', Ok (Some v)) →
    (∀ p, v3_Latest v = Some p → vm_MMSI p = mmsi ∧ vm_Classification p ∈ cleared) ∧
    (∀ s, v3_Static v = Some s → s_MMSI s = mmsi ∧ s_Classification s ∈ cleared) ∧
    Forall (λ e, ge_TenantID e = tenantID ∧ ge_MMSI e = mmsi ∧ ge_Classification e ∈ cleared) (v3_RecentZones v)).
Proof.
  split_and!.
  - intros vs [_ ->]%read_Ok. split; [|rewrite length_take; lia]. apply Forall_take. rewrite merge_sort_Permutation.
    apply Forall_forall. intros v (m & _ & [Hm _] & -> & _)%joined_rows_class. done.
  - intros zs [_ ->]%with_tenant_read z. rewrite list_elem_of_filter, merge_sort_Permutation. unfold tenant_zones.
    rewrite list_elem_of_filter. unfold labelCleared. rewrite existsb_exists.
    setoid_rewrite String.eqb_eq. setoid_rewrite <- list_elem_of_In. naive_solver.
  - intros rows [_ ->]%read_Ok r. rewrite merge_sort_Permutation, list_elem_of_filter. unfold pool_fences.
    destruct row_security; [|naive_solver]. rewrite elem_of_nil. naive_solver.
  - intros evs [_ ->]%with_tenant_read. apply Forall_take. rewrite merge_sort_Permutation. apply Forall_forall.
    intros e [He _]%list_elem_of_filter. done.
  - intros v. unfold GetVessel360. intros (w1 & latest & E1 & E)%M_bind_Ok. apply read_Ok in E1 as [_ ->].
    apply M_bind_Ok in E as (w2 & static & E2 & E). apply read_Ok in E2 as [_ ->].
    apply M_bind_Ok in E as (w3 & zones & E3 & E).
    assert (Forall (λ e, ge_TenantID e = tenantID ∧ ge_MMSI e = mmsi ∧ ge_Classification e ∈ cleared) zones) as Hz.
    { revert E3. unfold recent_zones. destruct (String.eqb tenantID ""); [by intros [= <- <-]|].
      intros [_ ->]%with_tenant_read. apply Forall_take. rewrite merge_sort_Permutation. apply Forall_forall.
      intros e [He _]%list_elem_of_filter. done. }
    assert (∃ l s, v = mkVessel360 l s zones ∧
      l = head (concat (joined (gw_db (e_state w)) <$> filter (λ m, m.1.1 = mmsi ∧ l_Classification m.2 ∈ cleared) (latest_rows (gw_db (e_state w))))) ∧
      s = sr_report <$> head (merge_sort (newest_first valid_from)
             (filter (λ r, s_MMSI (sr_report r) = mmsi ∧ valid_to r = None ∧ s_Classification (sr_report r) ∈ cleared)
                (vessels_static (gw_db (e_state w1)))))) as (l & s & -> & -> & ->).
    { unfold mret, M_ret in E. injection E as _ E. repeat case_match; simplify_eq; do 2 eexists; split_and!; try done; by rewrite ?H, ?H0. }
    cbn. split_and!; [..|done].
    + intros p Hp. destruct (concat _) eqn:Ec; [done|]. injection Hp as ->.
      assert (p ∈ concat (joined (gw_db (e_state w)) <$> filter (λ m, m.1.1 = mmsi ∧ l_Classification m.2 ∈ cleared) (latest_rows (gw_db (e_state w)))))
        as (m & _ & [Hm Hc] & -> & ->)%joined_rows_class by (rewrite Ec; left). done.
    + intros s Hs. apply fmap_Some in Hs as (r & Hr & ->).
      assert (r ∈ filter (λ r, s_MMSI (sr_report r) = mmsi ∧ valid_to r = None ∧ s_Classification (sr_report r) ∈ cleared) (vessels_static (gw_db (e_state w1))))
        as [(? & _ & ?) _]%list_elem_of_filter; [|done].
      rewrite <- (merge_sort_Permutation (newest_first valid_from)). destruct (merge_sort _ _); [done|]. injection Hr as ->. left.
Qed.

(** ** On concrete tables *)

Definition geo_start : geo_world := mkGeoWorld demo_world [] ∅.
Lemma empty_geo_ok fs : geo_ok (geo_tables_of (e_state (mkEnv fs geo_start))).
Proof. split; [constructor|constructor|]. split; [constructor|done|constructor]. Qed.
Definition square : list Point := [mkPoint 0 0; mkPoint 0 1000000; mkPoint 1000000 1000000; mkPoint 0 0].
Definition sketch (name label : string) : FenceRow :=
  mkFenceRow "lagos-roads" 0 "nimasa" name label (Some square) 600 500 "" "anchorage" "ada" 0 None.
Definition after_drawing : env geo_world := (CreateGeofenceVersion false (sketch "Roads" "INTERNAL") 0 (mkEnv [] geo_start)).1.

Lemma geo_tables_kept_witness :
  let ops := [DoCreateZone "nimasa" "z1" "Bonny" "INTERNAL" "ada" "{}"; DoApproveZone "nimasa" "z1" "ada";
              DoApproveZone "nimasa" "z1" "bello"; DoCreateFence (sketch "Roads" "INTERNAL") 0;
              DoCreateFence (sketch "Outer roads" "INTERNAL") 1; DoRetireFence "nimasa" "lagos-roads"] in
  let t := geo_tables_of (e_state (geo_run Some false ops (mkEnv [] geo_start))) in
  (z_ApprovedBy <$> geofence_zones (gt_db t)) = [Some "bello"] ∧
  ((λ r, (fr_Version r, fr_Name r, fr_State r)) <$> gt_fences t) = [(1, "Roads", "RETIRED"); (2, "Outer roads", "RETIRED")] ∧ geo_ok t.
Proof.
  cbv zeta. split; [vm_compute; reflexivity|]. split; [vm_compute; reflexivity|].
  apply (geo_tables_kept Some false _ (mkEnv [] geo_start)), empty_geo_ok.
Defined.
Lemma no_lost_fence_update_witness :
  (CreateGeofenceVersion false (sketch "Roads" "INTERNAL") 0 (mkEnv [] geo_start)).2 =
    Ok (mkFenceRow "lagos-roads" 1 "nimasa" "Roads" "INTERNAL" (Some square) 600 500 "ACTIVE" "anchorage" "ada" (pg_time (1000 * second)) None) ∧
  ∀ w3 created', CreateGeofenceVersion false (sketch "Mine" "PUBLIC") 0 after_drawing ≠ (w3, Ok created').
Proof.
  split; [vm_compute; reflexivity|].
  refine (no_lost_fence_update Some false (sketch "Roads" "INTERNAL") (sketch "Mine" "PUBLIC") 0 (mkEnv [] geo_start) after_drawing
    _ [] (empty_geo_ok []) _ eq_refl eq_refl). vm_compute. reflexivity.
Defined.

(** A session whose role is subject to row security draws no fence and lists none. *)
Lemma unbound_session_has_no_fences row expected tenantID cleared w w' :
  (∀ created, CreateGeofenceVersion true row expected w ≠ (w', Ok created)) ∧
  (∀ rows, ListActiveGeofences true tenantID cleared w = (w', Ok rows) → rows = []).
Proof.
  split.
  - intros created. unfold CreateGeofenceVersion, transaction. destruct (external _ _ w) as [w1 [u|e]]; [|done].
    match goal with |- match ?b with _ => _ end ≠ _ => destruct b as [w2 [a|e]] eqn:E2 end; [|done].
    by apply CreateGeofenceVersion_body in E2 as (? & ? & _).
  - by intros rows [_ ->]%read_Ok.
Qed.

Definition seen (label : string) : LatestRow := mkLatest "p-1" SourceAIS "" 6450000 3400000 (Some 8400) None None None label (1000 * second).
Definition identity (label : string) : StaticRow :=
  mkStaticRow (mkStatic "s-1" "657000001" "" "5NAB" "NNS ARADU" 35 10 10 5 5 0 "" None "" "" label (900 * second)) (900 * second) None.
Definition at_sea (d_label s_label : string) : geo_world :=
  mkGeoWorld (upd_db (mkDB [] [] {[ "657000001" := seen d_label ]} ∅ [] [] [identity s_label]) demo_world) [] ∅.

(** The name in a static record is shown with a public position whatever label the record
    carries; the view of the vessel withholds the record itself. *)
Example static_name_below_its_label :
  let w := mkEnv [] (at_sea "PUBLIC" "SECRET") in
  (∃ vs, (ListVessels (λ _ _ _ _ _, true) 0 0 0 0 ["PUBLIC"] 10 w).2 = Ok vs ∧ (vm_ShipName <$> vs) = ["NNS ARADU"]) ∧
  (∃ v, (GetVessel360 "657000001" "nimasa" ["PUBLIC"] w).2 = Ok (Some v) ∧ v3_Static v = None ∧ (vm_ShipName <$> v3_Latest v) = Some "NNS ARADU").
Proof. split; eexists; vm_compute; split_and?; reflexivity. Qed.

Lemma readers_see_their_own_witness :
  let w := mkEnv [] (at_sea "INTERNAL" "PUBLIC") in
  (∃ vs, (ListVessels (λ _ _ _ _ _, true) 0 0 0 0 ["PUBLIC"; "INTERNAL"] 10 w).2 = Ok vs ∧ length vs = 1%nat ∧
    Forall (λ v, vm_Classification v ∈ ["PUBLIC"; "INTERNAL"]) vs) ∧
  (ListVessels (λ _ _ _ _ _, true) 0 0 0 0 ["PUBLIC"] 10 w).2 = Ok [].
Proof.
  cbv zeta. split; [|vm_compute; reflexivity]. eexists. split; [vm_compute; reflexivity|]. split; [reflexivity|].
  refine (proj1 (proj1 (readers_see_their_own (λ _ _ _ _ _, true) false "nimasa" "657000001" "" ["PUBLIC"; "INTERNAL"] 10 0 0 0 0
    (mkEnv [] (at_sea "INTERNAL" "PUBLIC")) _) _ _)). vm_compute. reflexivity.
Defined.
