(* ===== verification/GeoServer.v ===== *)
(** * The vessel and zone handlers

    [internal/api/server.go]: the vessel picture, track replay, zone administration and
    the table of routes with their roles.  An answer keeps the value a handler writes; how
    the encoder lays it out is left out, like the texts of wrapped errors. *)
From S2P Require Import Prelude GoTime GoParse Classification Types Effects Store Auth Http Pipeline GeoStore.

Inductive geo_body :=
| ErrorBody (message : string)
| Vessels (vessels : list VesselSummary)
| VesselView (view : Vessel360)
| TrackLine (geojson : string)
| Zones (zones : list Zone)
| ZoneStateBody (zoneID state : string).
Definition refuse (r : response) : answer geo_body :=
  mkAnswer (rs_status r) (ErrorBody (match rs_body r with (_, Sign.JStr m) :: _ => m | _ => "" end)).
Definition error (status : Z) (message : string) : answer geo_body := refuse (writeError status message).

(** ** Query parameters *)

Definition world_box : Z * Z * Z * Z := (-180000000, -90000000, 180000000, 90000000).
Inductive bbox_error := BoxArity | BoxValue | BoxOrder.
Definition parse_values (parts : list string) : option (list Z) := mapM (λ part, ParseInt 32 (TrimSpace part)) parts.
(** The box of a text that is not empty. *)
Definition parse_box (bbox : string) : result bbox_error (Z * Z * Z * Z) :=
  match split_on (char_of 44) bbox with
  | [_; _; _; _] as parts =>
      match parse_values parts with
      | Some [minLon; minLat; maxLon; maxLat] => Ok (minLon, minLat, maxLon, maxLat)
      | _ => Err BoxValue
      end
  | _ => Err BoxArity
  end.
Definition ordered_box (b : Z * Z * Z * Z) : result bbox_error (Z * Z * Z * Z) :=
  let '(minLon, minLat, maxLon, maxLat) := b in
  if (maxLon <=? minLon) || (maxLat <=? minLat) then Err BoxOrder else Ok b.
Definition bbox_message (e : bbox_error) : string :=
  match e with
  | BoxArity => "bbox must be minLon,minLat,maxLon,maxLat in micro-degrees"
  | BoxValue => "bbox values must be fixed-point micro-degrees"
  | BoxOrder => "bbox min must be below max"
  end.

(** ** Handlers *)

Section handlers.
Context (in_box : string → Z → Z → Z → Z → bool) (in_zone : string → string → bool) (line_geojson : list (Z * Z) → string).
Context (polygon_of_geojson : string → option string).
Abbreviation IO := (M geo_world geo_error).
Abbreviation guarded_by p := (principalOrFail p (λ r, mret (refuse r))).
Abbreviation tenant_of principal := (tenantOrFail principal (λ r, mret (refuse r))).

Definition listVessels (p : option Principal) (bbox limit : string) : IO (answer geo_body) :=
  guarded_by p (λ principal,
    let bbox := TrimSpace bbox in
    match (if String.eqb bbox "" then Ok world_box else parse_box bbox) ≫= ordered_box with
    | Err e => mret (error StatusBadRequest (bbox_message e))
    | Ok (minLon, minLat, maxLon, maxLat) =>
        answering (ListVessels in_box minLon minLat maxLon maxLat (clearedLabels (Clearance principal)) (parseLimit limit 500 5000))
          (λ _, error StatusInternalServerError "vessel query failed")
          (λ vessels, mret (mkAnswer StatusOK (Vessels vessels)))
    end).

Definition vessel360 (p : option Principal) (mmsi : string) : IO (answer geo_body) :=
  guarded_by p (λ principal,
    if negb (mmsiPattern mmsi) then mret (error StatusBadRequest "mmsi must be 9 digits")
    else
      answering (GetVessel360 mmsi (TenantID principal) (clearedLabels (Clearance principal)))
        (λ _, error StatusInternalServerError "vessel-360 query failed")
        (λ view, mret (match view with
                       | None => error StatusNotFound "vessel not found at caller clearance"
                       | Some v => mkAnswer StatusOK (VesselView v)
                       end))).

Definition quoted (s : string) : string := String (char_of 34) (s +:+ String (char_of 34) "").
Definition empty_line : string := "{" +:+ quoted "type" +:+ ":" +:+ quoted "LineString" +:+ "," +:+ quoted "coordinates" +:+ ":[]}".
Definition track (p : option Principal) (mmsi from_ to_ : string) : IO (answer geo_body) :=
  guarded_by p (λ principal,
    if negb (mmsiPattern mmsi) then mret (error StatusBadRequest "mmsi must be 9 digits")
    else
      match parse_rfc3339 (TrimSpace from_), parse_rfc3339 (TrimSpace to_) with
      | None, _ => mret (error StatusBadRequest "from must be RFC 3339")
      | _, None => mret (error StatusBadRequest "to must be RFC 3339")
      | Some from, Some to =>
          answering (GetTrack line_geojson mmsi from to (clearedLabels (Clearance principal)))
            (λ _, error StatusBadRequest "track query failed")
            (λ t, mret (mkAnswer StatusOK (TrackLine (if Nat.eqb t.2 0 then empty_line else t.1))))
      end).

Definition listZones (p : option Principal) : IO (answer geo_body) :=
  guarded_by p (λ principal, tenant_of principal (λ tenant,
    answering (ListZones tenant (clearedLabels (Clearance principal)))
      (λ _, error StatusInternalServerError "zone query failed")
      (λ zones, mret (mkAnswer StatusOK (Zones zones))))).

(** The maker's payload: the geometry is its text with the type it names, when it is
    JSON. *)
Record createZoneRequest := mkCreateZone {
  cz_ZoneID : string; cz_Name : string; cz_ClassificationFloor : string; cz_Geometry : string; cz_GeometryType : option string }.
Definition createZone (p : option Principal) (body : http_body createZoneRequest) : IO (answer geo_body) :=
  guarded_by p (λ principal, tenant_of principal (λ tenant,
    match body with
    | BodyUnreadable | BodyInvalid => mret (error StatusBadRequest "request body is not valid JSON")
    | Body payload =>
        if negb (bool_decide (cz_GeometryType payload = Some "Polygon"))
        then mret (error StatusBadRequest "geometry must be a GeoJSON Polygon")
        else
          answering (CreateZone polygon_of_geojson tenant (cz_ZoneID payload) (cz_Name payload) (cz_ClassificationFloor payload)
                       (Subject principal) (cz_Geometry payload))
            (λ _, error StatusBadRequest "zone creation failed: ")
            (λ _, mret (mkAnswer StatusCreated (ZoneStateBody (cz_ZoneID payload) "draft")))
    end)).

Definition approveZone (p : option Principal) (zoneID : string) : IO (answer geo_body) :=
  guarded_by p (λ principal, tenant_of principal (λ tenant,
    if blank zoneID then mret (error StatusBadRequest "zone id is required")
    else
      answering (ApproveZone tenant zoneID (Subject principal))
        (λ e, match e with
              | ErrMakerCheckerConflict => error StatusConflict "maker may not approve own zone (four-eyes)"
              | ErrZoneNotDraft => error StatusConflict "zone is not in draft state"
              | _ => error StatusInternalServerError "zone approval failed"
              end)
        (λ _, mret (mkAnswer StatusOK (ZoneStateBody zoneID "approved"))))).

Definition vesselsInZone (p : option Principal) (zoneID limit : string) : IO (answer geo_body) :=
  guarded_by p (λ principal, tenant_of principal (λ tenant,
    answering (VesselsInZone in_zone tenant zoneID (clearedLabels (Clearance principal)) (parseLimit limit 500 5000))
      (λ _, error StatusInternalServerError "vessels-in-zone query failed")
      (λ vessels, mret (mkAnswer StatusOK (Vessels vessels))))).

(** ** Routes *)

Inductive geo_request :=
| GetVessels (bbox limit : string)
| GetVessel (mmsi : string)
| GetVesselTrack (mmsi from_ to_ : string)
| GetZones
| GetZoneVessels (zoneID limit : string)
| PostZone (body : http_body createZoneRequest)
| PostZoneApproval (zoneID : string).
Definition read_roles : list string := ["geo-reader"; "geo-zone-maker"; "geo-zone-checker"; "geo-admin"].
Definition geo_roles (r : geo_request) : list string :=
  match r with
  | GetVessels _ _ | GetVessel _ | GetVesselTrack _ _ _ | GetZones | GetZoneVessels _ _ => read_roles
  | PostZone _ => ["geo-zone-maker"; "geo-admin"]
  | PostZoneApproval _ => ["geo-zone-checker"; "geo-admin"]
  end.
Definition geo_dispatch (r : geo_request) (p : option Principal) : IO (answer geo_body) :=
  match r with
  | GetVessels bbox limit => listVessels p bbox limit
  | GetVessel mmsi => vessel360 p mmsi
  | GetVesselTrack mmsi from_ to_ => track p mmsi from_ to_
  | GetZones => listZones p
  | GetZoneVessels zoneID limit => vesselsInZone p zoneID limit
  | PostZone body => createZone p body
  | PostZoneApproval zoneID => approveZone p zoneID
  end.
(** [Handler]: the authenticator, the roles of the route, the handler. *)
Definition geo_handler (outcome : result auth_error Principal) (r : geo_request) : guarded (IO (answer geo_body)) :=
  Middleware outcome (RequireRoles (geo_roles r) (λ p, geo_dispatch r (Some p))).
End handlers.
