(* ===== verification/GeoV2.v ===== *)
(** * Versioned fences, tracks, density and congestion: handlers

    [internal/api/geo_v2.go] and [density.go].  The surface has a fence engine of its own,
    beside that of the ingest path.  The clock is read where the handlers read it: a handler
    that reads it twice takes both readings.  [ToUpper] and [ParseFloat] are those of the
    standard library. *)
From S2P Require Import Prelude GoTime GoParse Classification Types Fence GoFloat Effects Store Sign Auth Http Pipeline Track Congestion GeoStore GeoServer.
Import Fence.Geometry Fence.Zone.

Record provenance := mkProv { pv_Source : string; pv_AsOf : string; pv_Stale : bool }.
(** [prov]; [now] is the clock when it runs. *)
Definition prov (source : string) (dataAsOf staleAfter now : Z) : provenance :=
  mkProv source (format_rfc3339 dataAsOf) (negb (dataAsOf =? zero_time) && (staleAfter <? time_Sub now dataAsOf)).

Record fenceView := mkFenceView {
  fw_GeofenceID : string; fw_Version : Z; fw_Name : string; fw_Classification : string; fw_Vertices : option (list Point);
  fw_DwellThresholdSeconds : Z; fw_DwellSpeedGateMilliknots : Z; fw_State : string; fw_ZoneCategory : string;
  fw_CreatedBy : string; fw_CreatedAt : string; fw_RetiredAt : option string }.
Definition normalizeCategory (category : string) : string := default CategoryGeneral (NormalizeZoneCategory category).
Definition viewOf (row : FenceRow) : fenceView :=
  mkFenceView (fr_GeofenceID row) (fr_Version row) (fr_Name row) (fr_Classification row) (fr_Vertices row)
    (fr_DwellThresholdSeconds row) (fr_DwellSpeedGateMilliknots row) (fr_State row) (normalizeCategory (fr_ZoneCategory row))
    (fr_CreatedBy row) (format_rfc3339 (fr_CreatedAt row)) (format_rfc3339 <$> fr_RetiredAt row).

Record emission := mkEmission {
  em_EventID : string; em_GeofenceID : string; em_Version : Z; em_EventType : EventType; em_MMSI : string; em_OccurredAt : Z;
  em_Digest : string; em_ZoneCategory : string; em_Alert : string }.
Record approachView := mkApproachView {
  av_MMSI : string; av_DistanceMeters : float64; av_EtaSeconds : Z; av_EtaAt : option string; av_SpeedKnots : float64;
  av_Confidence : ETAConfidence; av_Explanation : string; av_PositionAsOf : string }.

Inductive v2_body :=
| V2Error (message : string)
| Fences (fences : list fenceView) (p : provenance)
| FenceVersions (versions : list fenceView) (p : provenance)
| FenceCreated (fence : fenceView)
| FenceRetired (geofenceID : string)
| Evaluated (evaluated : nat) (emitted : list emission) (rejected : list (nat * string)) (activeFences : nat) (p : provenance)
| FenceEvents (events : list FenceEventRow) (p : provenance)
| TrackWindowBody (mmsi : string) (points : list TrackPointRow) (gaps : list Gap) (maxGap : Z) (message : string) (p : provenance)
| Nearest (vessels : list NearestVesselRow) (p : provenance)
| Approach (port : string) (view : approachView) (p : provenance)
| Approaches (port : string) (views : list approachView) (p : provenance)
| Insufficient (port message : string) (recorded : nat)
| ForecastBody (port : string) (forecast : Forecast) (p : provenance)
| Recorded (port : string)
| Density (cells : list DensityCellRow) (cellMeters : float64) (cellMicros : Z) (p : provenance).
Definition v2_refuse (r : response) : answer v2_body :=
  mkAnswer (rs_status r) (V2Error (match rs_body r with (_, JStr m) :: _ => m | _ => "" end)).
Definition v2_error (status : Z) (message : string) : answer v2_body := v2_refuse (writeError status message).

(** The state of the surface: the store and the engine. *)
Record api_world := mkApi { ap_geo : geo_world; ap_engine : Engine.t }.
(** [APanic]: a slice indexed out of range. *)
Inductive api_fault := AStore (e : geo_error) | APipe (e : perror) | APanic.

Section handlers.
Context `{Math} `{MathPow} (int64_overflow : float64 → Z).
Context (uuid : nat → string) (marshal : json → string) (cfg : config).
Context (row_security may_update : bool) (in_box : string → Z → Z → Z → Z → bool).
Context (distance_within : string → string → float64 → option float64) (near : list NearestVesselRow → Z → list NearestVesselRow).
Context (ToUpper : string → string) (ParseFloat : string → option float64).
Abbreviation IO := (M api_world api_fault).
Abbreviation guarded_by p := (principalOrFail p (λ r, mret (v2_refuse r))).
Abbreviation tenant_of principal := (tenantOrFail principal (λ r, mret (v2_refuse r))).

Definition set_geo (g : geo_world) (a : api_world) : api_world := mkApi g (ap_engine a).
Definition set_api_pipeline (p : world) (g : geo_world) : geo_world := mkGeoWorld p (gw_approvals g) (gw_queue g).
Definition api_store {A} (m : M geo_world geo_error A) : IO A := relabel AStore (zoom ap_geo set_geo m).
Definition api_pipeline {A} (m : M world perror A) : IO A := relabel APipe (zoom ap_geo set_geo (zoom gw_pipeline set_api_pipeline m)).

(** ** Fences *)

Definition listFences (p : option Principal) (now1 now2 : Z) : IO (answer v2_body) :=
  guarded_by p (λ principal, tenant_of principal (λ tenantID,
    answering (api_store (ListActiveGeofences row_security tenantID (clearedLabels (Clearance principal))))
      (λ _, v2_error StatusServiceUnavailable "FENCE_STORE_UNAVAILABLE: ")
      (λ rows, mret (mkAnswer StatusOK (Fences (viewOf <$> rows) (prov "geofences" now1 0 now2)))))).

Definition getFenceHistory (p : option Principal) (geofenceID : string) (now1 now2 : Z) : IO (answer v2_body) :=
  guarded_by p (λ principal, tenant_of principal (λ tenantID,
    answering (api_store (GetGeofenceHistory row_security tenantID geofenceID))
      (λ _, v2_error StatusNotFound "geofence not found")
      (λ rows, mret (mkAnswer StatusOK (FenceVersions (viewOf <$> rows) (prov "geofences" now1 0 now2)))))).

(** [^[A-Za-z0-9][A-Za-z0-9._:-]{0,63}$] *)
Definition geofenceIDPattern (s : string) : bool := identifier 63 s.
(** The vertices are those of the text, when it is a list of pairs. *)
Record fenceUpsertRequest := mkUpsert {
  fu_GeofenceID : string; fu_Name : string; fu_Classification : string; fu_Vertices : option (list Point);
  fu_DwellThresholdSeconds : Z; fu_DwellSpeedGateMilliknots : Z; fu_ZoneCategory : string; fu_ExpectedVersion : Z }.
Definition is_label (label : string) : bool := match ParseClassification label with Ok _ => true | Err _ => false end.
Definition decodeFenceRequest (body : http_body fenceUpsertRequest) : result (answer v2_body) fenceUpsertRequest :=
  match body with
  | BodyUnreadable | BodyInvalid => Err (v2_error StatusBadRequest "invalid fence body: ")
  | Body req =>
      if negb (geofenceIDPattern (fu_GeofenceID req))
      then Err (v2_error StatusBadRequest "geofenceId must match ^[A-Za-z0-9][A-Za-z0-9._:-]{0,63}$")
      else if blank (fu_Name req) then Err (v2_error StatusBadRequest "name is required")
      else if negb (is_label (fu_Classification req)) then Err (v2_error StatusBadRequest "classification must be one of PUBLIC..SECRET")
      else if negb (bool_decide (is_Some (NormalizeZoneCategory (fu_ZoneCategory req))))
      then Err (v2_error StatusBadRequest "zoneCategory must be one of general, mpa, eez_restricted, traffic_separation, fishing_closure, anchorage")
      else
        match fu_Vertices req with
        | None => Err (v2_error StatusBadRequest "verticesMicros must be [[latMicros,lonMicros],...]")
        | Some vertices =>
            match ValidateGeometry vertices with
            | Err _ => Err (v2_error StatusBadRequest "invalid geometry: ")
            | Ok _ => Ok req
            end
        end
  end.

Definition upsert_row (tenantID subject : string) (req : fenceUpsertRequest) : FenceRow :=
  mkFenceRow (fu_GeofenceID req) 0 tenantID (fu_Name req) (fu_Classification req) (fu_Vertices req) (fu_DwellThresholdSeconds req)
    (fu_DwellSpeedGateMilliknots req) "" (normalizeCategory (fu_ZoneCategory req)) subject zero_time None.
Definition upsertFence (p : option Principal) (req : fenceUpsertRequest) (expectedVersion : Z) : IO (answer v2_body) :=
  guarded_by p (λ principal, tenant_of principal (λ tenantID,
    answering (api_store (CreateGeofenceVersion row_security (upsert_row tenantID (Subject principal) req) expectedVersion))
      (λ e, match e with
            | AStore (VersionConflict _ _) => v2_error StatusConflict "VERSION_CONFLICT: "
            | _ => v2_error StatusServiceUnavailable "FENCE_STORE_UNAVAILABLE: "
            end)
      (λ created, mret (mkAnswer StatusCreated (FenceCreated (viewOf created)))))).
Definition createFence (p : option Principal) (body : http_body fenceUpsertRequest) : IO (answer v2_body) :=
  match decodeFenceRequest body with Err a => mret a | Ok req => upsertFence p req 0 end.
Definition createFenceVersion (p : option Principal) (pathID : string) (body : http_body fenceUpsertRequest) : IO (answer v2_body) :=
  match decodeFenceRequest body with
  | Err a => mret a
  | Ok req =>
      if negb (String.eqb pathID (fu_GeofenceID req))
      then mret (v2_error StatusBadRequest "path geofence id must match body geofenceId")
      else if fu_ExpectedVersion req <? 1
      then mret (v2_error StatusBadRequest "expectedVersion (the current latest version) is required for a new version")
      else upsertFence p req (fu_ExpectedVersion req)
  end.
Definition retireFence (p : option Principal) (geofenceID : string) : IO (answer v2_body) :=
  guarded_by p (λ principal, tenant_of principal (λ tenantID,
    answering (api_store (RetireGeofence row_security tenantID geofenceID))
      (λ _, v2_error StatusNotFound "no ACTIVE version of this geofence")
      (λ _, mret (mkAnswer StatusOK (FenceRetired geofenceID))))).

(** ** Evaluation of a batch *)

Record positionReport := mkReport { ps_MMSI : string; ps_LatMicros : Z; ps_LonMicros : Z; ps_SogMillikn : Z; ps_ObservedAt : Z }.
(** The last row of an id gives its name and category, as in the maps the loop fills. *)
Definition row_of (rows : list FenceRow) (id : string) : option FenceRow := last (filter (λ r, fr_GeofenceID r = id) rows).
Definition event_name (rows : list FenceRow) (id : string) : string := default "" (fr_Name <$> row_of rows id).
Definition event_category (rows : list FenceRow) (id : string) : string :=
  let category := default "" (normalizeCategory ∘ fr_ZoneCategory <$> row_of rows id) in
  if String.eqb category "" then CategoryGeneral else category.
Definition crossing (rows : list FenceRow) (rep : positionReport) (ev : Engine.Event) (eventID : string) : GeofenceEventRecorded :=
  let category := event_category rows (Engine.ev_GeofenceID ev) in
  mkGER eventID (Engine.ev_GeofenceID ev) (event_name rows (Engine.ev_GeofenceID ev)) (event_type_text (Engine.ev_Type ev)) (ps_MMSI rep) ""
    (ps_LatMicros rep) (ps_LonMicros rep) (Engine.ev_OccurredAtUnix ev * second) "INTERNAL" category (ZoneAlert category (Engine.ev_Type ev)).
Definition crossing_row (tenantID : string) (rows : list FenceRow) (rep : positionReport) (ev : Engine.Event) (eventID : string) : FenceEventRow :=
  mkFenceEventRow eventID (Engine.ev_GeofenceID ev) (Engine.ev_Version ev) tenantID (event_type_text (Engine.ev_Type ev)) (ps_MMSI rep)
    (ps_LatMicros rep) (ps_LonMicros rep) "INTERNAL" (crossing_digest marshal (crossing rows rep ev eventID)) (Engine.ev_OccurredAtUnix ev * second)
    (event_category rows (Engine.ev_GeofenceID ev)).
Definition crossing_headers (category alert : string) : gmap string string :=
  let headers : gmap string string := <["producer" := "geo-fence-engine"]> {["zoneCategory" := category]} in
  if String.eqb alert "" then headers else <["alert" := alert]> headers.
Definition emission_of (rows : list FenceRow) (rep : positionReport) (ev : Engine.Event) (eventID : string) : emission :=
  let category := event_category rows (Engine.ev_GeofenceID ev) in
  mkEmission eventID (Engine.ev_GeofenceID ev) (Engine.ev_Version ev) (Engine.ev_Type ev) (ps_MMSI rep) (Engine.ev_OccurredAtUnix ev * second)
    (crossing_digest marshal (crossing rows rep ev eventID)) category (ZoneAlert category (Engine.ev_Type ev)).

(** One transition: announced, then stored. *)
Definition emit (tenantID : string) (rows : list FenceRow) (rep : positionReport) (ev : Engine.Event) : IO emission :=
  eventID ← api_pipeline (fresh uuid);
  let payload := crossing rows rep ev eventID in
  let category := event_category rows (Engine.ev_GeofenceID ev) in
  _ ← api_pipeline (PublishSignedEnvelope uuid cfg EventGeofenceEvent eventID (PGeofenceEvent payload) (Engine.ev_OccurredAtUnix ev * second)
                      "INTERNAL" (crossing_headers category (ZoneAlert category (Engine.ev_Type ev))));
  _ ← api_store (InsertGeofenceEvent (crossing_row tenantID rows rep ev eventID));
  mret (emission_of rows rep ev eventID).
Fixpoint emit_all (tenantID : string) (rows : list FenceRow) (rep : positionReport) (evs : list Engine.Event) : IO (list emission) :=
  match evs with
  | [] => mret []
  | ev :: evs' => e ← emit tenantID rows rep ev; es ← emit_all tenantID rows rep evs'; mret (e :: es)
  end.
Definition observe (rep : positionReport) (fences : list Engine.Fence) : IO (list Engine.Event) := λ w,
  let '(engine', evs) := Engine.Observe (ap_engine (e_state w)) (ps_MMSI rep) (mkPoint (ps_LatMicros rep) (ps_LonMicros rep))
        (ps_SogMillikn rep) (ps_ObservedAt rep) fences in
  (mkEnv (e_faults w) (mkApi (ap_geo (e_state w)) engine'), Ok evs).
Definition reject_reason (rep : positionReport) : option string :=
  if negb (mmsiPattern (ps_MMSI rep)) then Some "mmsi must be 9 digits"
  else if ps_ObservedAt rep <=? 0 then Some "observedAtUnix must be positive"
  else None.
Fixpoint evaluate_reports (tenantID : string) (rows : list FenceRow) (fences : list Engine.Fence) (i : nat) (reps : list positionReport) :
  IO (list emission * list (nat * string)) :=
  match reps with
  | [] => mret ([], [])
  | rep :: reps' =>
      match reject_reason rep with
      | Some reason =>
          out ← evaluate_reports tenantID rows fences (S i) reps';
          mret (out.1, (i, reason) :: out.2)
      | None =>
          evs ← observe rep fences;
          emitted ← emit_all tenantID rows rep evs;
          out ← evaluate_reports tenantID rows fences (S i) reps';
          mret (emitted ++ out.1, out.2)
      end
  end.
Definition evaluatePositions (wired : bool) (p : option Principal) (body : http_body (list positionReport)) (now1 now2 : Z) :
  IO (answer v2_body) :=
  guarded_by p (λ principal, tenant_of principal (λ tenantID,
    if negb wired then mret (v2_error StatusServiceUnavailable
      "FENCE_EVENTS_UNWIRED: geo.geofence-event.v1 publisher is not configured; transitions are never silently persisted")
    else
      match body with
      | BodyUnreadable | BodyInvalid => mret (v2_error StatusBadRequest "invalid evaluate body: ")
      | Body reports =>
          if Nat.eqb (length reports) 0 || (1000 <? length reports)%nat
          then mret (v2_error StatusBadRequest "reports must contain 1..1000 position reports")
          else
            answering (api_store (ListActiveGeofences row_security tenantID (clearedLabels (Clearance principal))))
              (λ _, v2_error StatusServiceUnavailable "FENCE_STORE_UNAVAILABLE: ")
              (λ rows,
                match mapM fence_of_row rows with
                | None => mret (v2_error StatusServiceUnavailable "FENCE_STORE_CORRUPT: persisted ring unreadable for ")
                | Some fences =>
                    answering (evaluate_reports tenantID rows fences 0 reports)
                      (λ e, v2_error StatusServiceUnavailable
                              (match e with AStore _ => "FENCE_EVENT_PERSIST_FAILED: " | _ => "FENCE_EVENT_PUBLISH_FAILED: " end))
                      (λ out, mret (mkAnswer StatusOK (Evaluated (length reports) out.1 out.2 (length fences) (prov "geo-fence-engine" now1 0 now2))))
                end)
      end)).

Definition listFenceEvents (p : option Principal) (geofenceID limit : string) (now1 now2 : Z) : IO (answer v2_body) :=
  guarded_by p (λ principal, tenant_of principal (λ tenantID,
    answering (api_store (ListGeofenceEvents tenantID geofenceID (clearedLabels (Clearance principal)) (parseLimit limit 100 1000)))
      (λ _, v2_error StatusServiceUnavailable "FENCE_STORE_UNAVAILABLE: ")
      (λ rows, mret (mkAnswer StatusOK (FenceEvents rows (prov "geofence_transition_events" now1 0 now2)))))).

(** ** Tracks *)

(** [time.Unix(s, 0)]: the seconds since year 1 wrap in 64 bits. *)
Definition unix_instant (s : Z) : Z := (int64 (s + 62135596800) - 62135596800) * second.
Definition parseUnixParam (raw : string) : option Z :=
  let raw := TrimSpace raw in if String.eqb raw "" then None else ParseInt 64 raw.
Definition track_point (r : TrackPointRow) : TrackPoint :=
  mkTrackPoint (tr_LatitudeMicros r) (tr_LongitudeMicros r) (time_Unix (tr_ObservedAt r)) (tr_SogMilliknots r).
Definition parse_max_gap (raw : string) : option Z :=
  let raw := TrimSpace raw in
  if String.eqb raw "" then Some 1800
  else match ParseInt 64 raw with Some v => if v <=? 0 then None else Some v | None => None end.
Definition no_track : string := "NO_TRACK_DATA: no recorded positions in the window (gaps are reported, never filled)".
Definition queryTrack (p : option Principal) (mmsi from_ to_ maxGapSeconds : string) (now : Z) : IO (answer v2_body) :=
  guarded_by p (λ principal,
    if negb (mmsiPattern mmsi) then mret (v2_error StatusBadRequest "mmsi must be 9 digits")
    else
      match parseUnixParam from_, parseUnixParam to_ with
      | None, _ => mret (v2_error StatusBadRequest "from")
      | _, None => mret (v2_error StatusBadRequest "to")
      | Some fromUnix, Some toUnix =>
          if toUnix <=? fromUnix then mret (v2_error StatusBadRequest "to must be after from")
          else
            match parse_max_gap maxGapSeconds with
            | None => mret (v2_error StatusBadRequest "maxGapSeconds must be a positive integer")
            | Some maxGap =>
                answering (api_store (QueryTrack mmsi (unix_instant fromUnix) (unix_instant toUnix) (clearedLabels (Clearance principal)) 10000))
                  (λ _, v2_error StatusServiceUnavailable "TRACK_STORE_UNAVAILABLE: ")
                  (λ rows, mret (mkAnswer StatusOK
                     (TrackWindowBody mmsi rows (DetectGaps (track_point <$> rows) maxGap) maxGap
                        (if bool_decide (rows = []) then no_track else "")
                        (prov "ais_positions" (default zero_time (tr_ObservedAt <$> last rows)) (15 * 60 * second) now))))
            end
      end).

Definition newest (rows : list NearestVesselRow) : Z := fold_left (λ t r, if t <? nv_ObservedAt r then nv_ObservedAt r else t) rows zero_time.
(** A radius in metres, with the default of the route; a value that is neither too small
    nor too large passes. *)
Definition parse_radius (fallback : Z) (raw : string) : option float64 :=
  let raw := TrimSpace raw in
  if String.eqb raw "" then Some (f_of_Z fallback)
  else match ParseFloat raw with
       | None => None
       | Some radius => if f_le radius (f_of_Z 0) || f_lt (f_of_Z 500000) radius then None else Some radius
       end.
Definition radius_message : string := "radiusMeters must be in (0, 500000]".
Definition nearestVessels (p : option Principal) (lat lon radiusMeters limit : string) (now : Z) : IO (answer v2_body) :=
  guarded_by p (λ principal,
    match parseMicrosParam lat, parseMicrosParam lon with
    | None, _ => mret (v2_error StatusBadRequest "lat")
    | _, None => mret (v2_error StatusBadRequest "lon")
    | Some lat, Some lon =>
        match parse_radius 50000 radiusMeters with
        | None => mret (v2_error StatusBadRequest radius_message)
        | Some radius =>
            answering (api_store (NearestVessels distance_within near lat lon radius (clearedLabels (Clearance principal)) (parseLimit limit 20 200)))
              (λ _, v2_error StatusServiceUnavailable "TRACK_STORE_UNAVAILABLE: ")
              (λ rows, mret (mkAnswer StatusOK (Nearest rows (prov "ais_positions" (newest rows) (15 * 60 * second) now))))
        end
    end).

(** ** Port approaches *)

Definition portAnchors : gmap string (Z * Z) :=
  list_to_map [("KEMBA", (-4062000, 39672000)); ("KEKIS", (-4290000, 39420000)); ("TZDAR", (-6830000, 39290000))].
Definition approach_view (anchor : Z * Z) (nowUnix : Z) (mmsi : string) (p : TrackPoint) : approachView :=
  let eta := EstimateApproach int64_overflow p anchor.1 anchor.2 nowUnix in
  mkApproachView mmsi (ap_DistanceMeters eta) (ap_ETASeconds eta)
    (if 0 <? ap_ETASeconds eta then Some (format_rfc3339 (unix_instant (int64 (nowUnix + ap_ETASeconds eta)))) else None)
    (ap_SpeedKnots eta) (ap_Confidence eta) (ap_Explanation eta) (format_rfc3339 (unix_instant (tp_AtUnix p))).
Definition nearest_point (r : NearestVesselRow) : TrackPoint :=
  mkTrackPoint (nv_LatitudeMicros r) (nv_LongitudeMicros r) (time_Unix (nv_ObservedAt r)) (nv_SogMilliknots r).
(** [now1] gives the time of the estimates, [now2] that of the provenance. *)
Definition portApproaches (p : option Principal) (code mmsi radiusMeters : string) (now1 now2 : Z) : IO (answer v2_body) :=
  guarded_by p (λ principal,
    let code := ToUpper code in
    match portAnchors !! code with
    | None => mret (v2_error StatusNotFound "unknown port code (no governed anchor position)")
    | Some anchor =>
        let nowUnix := time_Unix now1 in
        let labels := clearedLabels (Clearance principal) in
        let mmsi := TrimSpace mmsi in
        if negb (String.eqb mmsi "") then
          if negb (mmsiPattern mmsi) then mret (v2_error StatusBadRequest "mmsi must be 9 digits")
          else
            answering (api_store (LatestPosition mmsi labels))
              (λ _, v2_error StatusNotFound "NO_POSITION_DATA: no recorded position for this vessel")
              (λ row, mret (mkAnswer StatusOK (Approach code (approach_view anchor nowUnix mmsi (track_point row))
                                                 (prov "ais_positions" (tr_ObservedAt row) (15 * 60 * second) now2))))
        else
          match parse_radius 100000 radiusMeters with
          | None => mret (v2_error StatusBadRequest radius_message)
          | Some radius =>
              answering (api_store (NearestVessels distance_within near anchor.1 anchor.2 radius labels 100))
                (λ _, v2_error StatusServiceUnavailable "TRACK_STORE_UNAVAILABLE: ")
                (λ rows, mret (mkAnswer StatusOK
                   (Approaches code ((λ r, approach_view anchor nowUnix (nv_MMSI r) (nearest_point r)) <$> rows)
                      (prov "ais_positions" (newest rows) (15 * 60 * second) now2))))
          end
    end).

(** ** Congestion *)

Definition parse_horizon (raw : string) : option Z :=
  let raw := TrimSpace raw in
  if String.eqb raw "" then Some 24
  else match Atoi raw with Some v => if (v <? 1) || (168 <? v) then None else Some v | None => None end.
Definition observation_of (r : QueueObservationRow) : Observation :=
  mkObservation (time_Unix (qo_ObservedAt r)) (f_of_Z (qo_QueueLength r)).
Definition horizon_steps (horizon step : Z) : Z :=
  Z.max 1 (default 0 (f_round (f_div (f_mul (f_of_Z horizon) (f_of_Z 3600)) (f_of_Z step)))).
Definition no_cadence : string := "INSUFFICIENT_HISTORY: recorded queue series has no usable observation cadence".
(** [now1] bounds the series, [now2] is the clock of the provenance. *)
Definition congestionForecast (code horizonHours : string) (now1 now2 : Z) : IO (answer v2_body) :=
  let code := ToUpper code in
  if negb (Nat.eqb (String.length code) 5) then mret (v2_error StatusBadRequest "port code must be the 5-letter UN/LOCODE")
  else
    match parse_horizon horizonHours with
    | None => mret (v2_error StatusBadRequest "horizonHours must be in 1..168")
    | Some horizon =>
        answering (api_store (QueueObservations code (now1 - 90 * day) (24 * 90)))
          (λ _, v2_error StatusServiceUnavailable "QUEUE_STORE_UNAVAILABLE: ")
          (λ rows,
            let obs := observation_of <$> rows in
            let step := MedianIntervalSeconds obs in
            if step <=? 0 then mret (mkAnswer StatusConflict (Insufficient code no_cadence (length obs)))
            else
              match ForecastSeries code obs step (horizon_steps horizon step) (DailySeasonalPeriod step) with
              | None => fail APanic
              | Some (Err ErrInsufficientHistory) => mret (mkAnswer StatusConflict (Insufficient code "INSUFFICIENT_HISTORY" (length obs)))
              | Some (Err _) => mret (v2_error StatusBadRequest "horizon")
              | Some (Ok fc) =>
                  mret (mkAnswer StatusOK (ForecastBody code fc
                    (prov "port_queue_observations" (default zero_time (qo_ObservedAt <$> last rows)) (2 * 3600 * second) now2)))
              end)
    end.

Record queueObservationRequest := mkQueueRequest { qr_QueueLength : Z; qr_Source : string; qr_ObservedAt : Z }.
Definition recordQueueObservation (code : string) (body : http_body queueObservationRequest) : IO (answer v2_body) :=
  let code := ToUpper code in
  if negb (Nat.eqb (String.length code) 5) then mret (v2_error StatusBadRequest "port code must be the 5-letter UN/LOCODE")
  else
    match body with
    | BodyUnreadable | BodyInvalid => mret (v2_error StatusBadRequest "invalid observation body: ")
    | Body req =>
        if (qr_QueueLength req <? 0) || blank (qr_Source req) || (qr_ObservedAt req <=? 0)
        then mret (v2_error StatusBadRequest "queueLength>=0, source and observedAtUnix>0 are required")
        else
          answering (api_store (InsertQueueObservation may_update (mkQueueRow code (qr_QueueLength req) (qr_Source req) (unix_instant (qr_ObservedAt req)))))
            (λ _, v2_error StatusServiceUnavailable "QUEUE_STORE_UNAVAILABLE: ")
            (λ _, mret (mkAnswer StatusCreated (Recorded code)))
    end.

(** ** Density *)

Definition parse_cell (raw : string) : option float64 :=
  let raw := TrimSpace raw in
  if String.eqb raw "" then Some (f_of_Z 5000)
  else match ParseFloat raw with
       | None => None
       | Some parsed => if f_lt parsed (f_of_Z 100) || f_lt (f_of_Z 100000) parsed then None else Some parsed
       end.
Definition cell_micros (cellMeters : float64) : Z :=
  let micros := to_int64 int64_overflow (f_div (f_mul cellMeters (f_of_Z 1000000)) (f_of_Z 111320)) in
  if micros <=? 0 then 1 else micros.
Definition densityGrid (p : option Principal) (bbox cellSizeMeters : string) (now : Z) : IO (answer v2_body) :=
  guarded_by p (λ principal,
    let bbox := TrimSpace bbox in
    if String.eqb bbox "" then mret (v2_error StatusBadRequest "bbox=minLon,minLat,maxLon,maxLat (micro-degrees) is required")
    else
      match parse_box bbox ≫= ordered_box with
      | Err e => mret (v2_error StatusBadRequest (bbox_message e))
      | Ok (minLon, minLat, maxLon, maxLat) =>
          match parse_cell cellSizeMeters with
          | None => mret (v2_error StatusBadRequest "cellSizeMeters must be in [100, 100000]")
          | Some cellMeters =>
              answering (api_store (DensityGrid in_box minLon minLat maxLon maxLat (cell_micros cellMeters) (clearedLabels (Clearance principal))))
                (λ e, match e with
                      | AStore (TooManyCells _) => v2_error StatusBadRequest "cells (max"
                      | _ => v2_error StatusServiceUnavailable "DENSITY_STORE_UNAVAILABLE: "
                      end)
                (λ out, mret (mkAnswer StatusOK (Density out.1 cellMeters (cell_micros cellMeters)
                                                   (prov "latest_positions" out.2 (15 * 60 * second) now))))
          end
      end).

(** ** Routes *)

Inductive v2_request :=
| GetFences | GetFence (id : string) | GetFenceEvents (id limit : string)
| PostFence (body : http_body fenceUpsertRequest) | PostFenceVersion (id : string) (body : http_body fenceUpsertRequest)
| PostFenceRetire (id : string) | PostEvaluate (body : http_body (list positionReport))
| GetWindow (mmsi from_ to_ maxGapSeconds : string) | GetNearest (lat lon radiusMeters limit : string)
| GetDensity (bbox cellSizeMeters : string) | GetApproaches (code mmsi radiusMeters : string)
| GetForecast (code horizonHours : string) | PostQueue (code : string) (body : http_body queueObservationRequest).
Definition v2_roles (r : v2_request) : list string :=
  match r with
  | PostFence _ | PostFenceVersion _ _ => ["geo-zone-maker"; "geo-admin"]
  | PostFenceRetire _ => ["geo-zone-checker"; "geo-admin"]
  | PostEvaluate _ | PostQueue _ _ => ["geo-ingest"; "geo-admin"]
  | _ => read_roles
  end.
Definition v2_dispatch (wired : bool) (now1 now2 : Z) (r : v2_request) (p : option Principal) : IO (answer v2_body) :=
  match r with
  | GetFences => listFences p now1 now2
  | GetFence id => getFenceHistory p id now1 now2
  | GetFenceEvents id limit => listFenceEvents p id limit now1 now2
  | PostFence body => createFence p body
  | PostFenceVersion id body => createFenceVersion p id body
  | PostFenceRetire id => retireFence p id
  | PostEvaluate body => evaluatePositions wired p body now1 now2
  | GetWindow mmsi from_ to_ maxGap => queryTrack p mmsi from_ to_ maxGap now1
  | GetNearest lat lon radius limit => nearestVessels p lat lon radius limit now1
  | GetDensity bbox cell => densityGrid p bbox cell now1
  | GetApproaches code mmsi radius => portApproaches p code mmsi radius now1 now2
  | GetForecast code horizon => congestionForecast code horizon now1 now2
  | PostQueue code body => recordQueueObservation code body
  end.
(** [registerGeoV2Routes] behind the authenticator. *)
Definition v2_handler (outcome : result auth_error Principal) (wired : bool) (now1 now2 : Z) (r : v2_request) : guarded (IO (answer v2_body)) :=
  Middleware outcome (RequireRoles (v2_roles r) (λ p, v2_dispatch wired now1 now2 r (Some p))).
End handlers.
