(* ===== verification/GeoApiProps.v ===== *)
(** * The geo surface over HTTP: properties

    What the requests of [GeoServer] and [GeoV2] can do to the tables, by whom, and what
    their answers promise. *)
From S2P Require Import Prelude GoTime GoParse Classification Types Fence FenceProps Sha256 GoFloat Effects Store Sign Auth Http Pipeline PipelineProps AppReports AppProps Track Congestion GeoStore GeoProps GeoServer GeoV2.
Import Fence.Geometry Fence.Zone.

(** ** Zones: two principals *)

Section zones.
Context (in_box : string → Z → Z → Z → Z → bool) (in_zone : string → string → bool) (line_geojson : list (Z * Z) → string).
Context (polygon_of_geojson : string → option string).

(** One request, with what the authenticator made of its caller. *)
Definition geo_http (req : result auth_error Principal * geo_request) (w : env geo_world) : env geo_world :=
  match geo_handler in_box in_zone line_geojson polygon_of_geojson req.1 req.2 with
  | Served m => (m w).1
  | _ => w
  end.
Fixpoint geo_http_run (reqs : list (result auth_error Principal * geo_request)) (w : env geo_world) : env geo_world :=
  match reqs with [] => w | r :: reqs' => geo_http_run reqs' (geo_http r w) end.

Definition sent (reqs : list (result auth_error Principal * geo_request)) (p : Principal) (r : geo_request) : Prop :=
  (Ok p, r) ∈ reqs ∧ existsb (HasRole p) (geo_roles r) = true.
Definition made_by (reqs : list (result auth_error Principal * geo_request)) (z : Zone) : Prop :=
  ∃ p b, sent reqs p (PostZone (Body b)) ∧ cz_ZoneID b = z_ZoneID z ∧ Subject p = z_MakerPrincipalID z ∧ TenantID p = z_TenantID z.
Definition cleared_by (reqs : list (result auth_error Principal * geo_request)) (z : Zone) : Prop :=
  ∃ p, sent reqs p (PostZoneApproval (z_ZoneID z)) ∧ z_ApprovedBy z = Some (Subject p) ∧ TenantID p = z_TenantID z ∧
    Subject p ≠ z_MakerPrincipalID z.
Definition accounted (reqs : list (result auth_error Principal * geo_request)) (g : geo_world) : Prop :=
  NoDup (z_ZoneID <$> geofence_zones (gw_db g)) ∧
  Forall (λ z, made_by reqs z ∧ (z_State z = "draft" ∨ cleared_by reqs z)) (geofence_zones (gw_db g)).

Lemma accounted_tables reqs g g' : geofence_zones (gw_db g') = geofence_zones (gw_db g) → accounted reqs g → accounted reqs g'.
Proof. unfold accounted. by intros ->. Qed.
Lemma with_tenant_keeps {A} reqs tn (fn : M geo_world geo_error A) : keeps (accounted reqs) fn → keeps (accounted reqs) (with_tenant tn fn).
Proof.
  intros Hf. unfold with_tenant, tenant_transaction. destruct (blank tn); [apply keeps_fail|].
  apply keeps_transaction_body; [|intros s0 s H0 _; by eapply accounted_tables].
  apply keeps_bind; [by apply keeps_external|]. intros _. apply Hf.
Qed.
Lemma read_keeps {A} P (f : geo_world → A) : keeps P (read f).
Proof. by apply keeps_external. Qed.

Section request.
Context (reqs : list (result auth_error Principal * geo_request)) (p : Principal).

Lemma createZone_accounted body : sent reqs p (PostZone body) → keeps (accounted reqs) (createZone polygon_of_geojson (Some p) body).
Proof.
  intros Hs. unfold createZone, principalOrFail, tenantOrFail. destruct (PrincipalFrom (Some p)) as [q|] eqn:Hq; [|apply keeps_ret].
  apply PrincipalFrom_id in Hq as ->. destruct (blank (TenantID p)); [apply keeps_ret|].
  destruct body as [| |b]; [apply keeps_ret..|]. destruct (negb _); [apply keeps_ret|].
  apply answering_keeps; [|intros ?; apply keeps_ret]. unfold CreateZone. destruct (_ || _); [apply keeps_fail|].
  destruct (blank (Subject p)); [apply keeps_fail|]. destruct (negb _); [apply keeps_fail|]. apply with_tenant_keeps.
  apply keeps_bind; [apply keeps_gets|]. intros now. destruct (polygon_of_geojson _); [|apply keeps_fail].
  unfold insert_zone. apply keeps_bind; [|intros ?; apply keeps_require]. apply keeps_external. intros g Hg.
  destruct (zone_checks _); [|done]. destruct (existsb _ _) eqn:Hx; [done|]. destruct Hg as [Hnd Hf]. cbn. split; cbn.
  - rewrite fmap_app. apply NoDup_app. split_and!; [done| |apply NoDup_singleton].
    intros x (z & -> & Hz)%list_elem_of_fmap Hx'. apply list_elem_of_singleton in Hx'. cbn in Hx'. apply not_true_iff_false in Hx.
    apply Hx, existsb_exists. exists z. split; [by apply list_elem_of_In|]. by rewrite Hx', String.eqb_refl.
  - apply Forall_app. split; [done|]. apply Forall_singleton. split; [|by left]. by exists p, b.
Qed.

Lemma approveZone_accounted id : sent reqs p (PostZoneApproval id) → keeps (accounted reqs) (approveZone (Some p) id).
Proof.
  intros Hs. unfold approveZone, principalOrFail, tenantOrFail. destruct (PrincipalFrom (Some p)) as [q|] eqn:Hq; [|apply keeps_ret].
  apply PrincipalFrom_id in Hq as ->. destruct (blank (TenantID p)); [apply keeps_ret|].
  destruct (blank id); [apply keeps_ret|]. apply answering_keeps; [|intros ?; apply keeps_ret].
  unfold ApproveZone. destruct (blank (Subject p)); [apply keeps_fail|].
  unfold with_tenant, tenant_transaction. destruct (blank (TenantID p)); [apply keeps_fail|].
  apply keeps_transaction; [|intros s0 s H0; by eapply accounted_tables].
  intros w w' a Hw (w1 & ? & E1 & E)%M_bind_Ok. apply external_Ok in E1. injection E1 as E1 _. rewrite E1 in Hw.
  apply M_bind_Ok in E as (w2 & found & E2 & E). apply read_Ok in E2 as [E2 ->].
  case_match eqn:Hf; [|done]. apply find_some in Hf as [Hin Hid%String.eqb_eq].
  apply list_elem_of_In, list_elem_of_filter in Hin as [Htn Hin].
  destruct (String.eqb_spec (z_MakerPrincipalID z) (Subject p)); [done|].
  destruct (String.eqb_spec (z_State z) "draft"); [|done]. cbn [negb] in E.
  apply M_bind_Ok in E as (w3 & now & [= <- <-] & E). apply M_bind_Ok in E as (w4 & ok & E4 & E). apply external_Ok in E4.
  destruct (_ || _); injection E4 as E4 <-; [by apply M_bind_Ok in E as (? & ? & ? & ?)|].
  apply M_bind_Ok in E as (w5 & ? & [= <- <-] & E). apply external_Ok in E. injection E as E.
  rewrite <- E, <- E4, E2. destruct Hw as [Hnd Hf]. split; cbn; [by rewrite zone_ids_approved|].
  rewrite Forall_fmap. rewrite Forall_forall in *. intros z' Hz'. destruct (Hf z' Hz') as [Hm Hc]. cbn. unfold approve_row.
  destruct (String.eqb_spec (z_ZoneID z') id) as [Ei|]; [|done].
  assert (z' = z) as -> by (eapply zone_by_id; eauto; congruence). split; [exact Hm|]. right. exists p. cbn. rewrite Ei. done.
Qed.

Lemma dispatch_accounted r :
  sent reqs p r → keeps (accounted reqs) (geo_dispatch in_box in_zone line_geojson polygon_of_geojson r (Some p)).
Proof.
  intros Hs. destruct r; cbn [geo_dispatch]; [..|by apply createZone_accounted|by apply approveZone_accounted];
    unfold listVessels, vessel360, track, listZones, vesselsInZone, principalOrFail, tenantOrFail;
    (destruct (PrincipalFrom (Some p)) as [q|]; [|apply keeps_ret]).
  - destruct (_ ≫= _) as [[[[? ?] ?] ?]|]; [|apply keeps_ret]. apply answering_keeps; [apply read_keeps|intros ?; apply keeps_ret].
  - destruct (negb _); [apply keeps_ret|]. apply answering_keeps; [|intros ?; apply keeps_ret]. unfold GetVessel360, recent_zones.
    repeat (apply keeps_bind; [apply read_keeps|intros ?]). apply keeps_bind; [|intros ?; apply keeps_ret].
    destruct (String.eqb _ _); [apply keeps_ret|]. apply with_tenant_keeps, read_keeps.
  - destruct (negb _); [apply keeps_ret|]. destruct (parse_rfc3339 _); [|apply keeps_ret]. destruct (parse_rfc3339 _); [|apply keeps_ret].
    apply answering_keeps; [|intros ?; apply keeps_ret]. unfold GetTrack. destruct (negb _); [apply keeps_fail|].
    apply keeps_bind; [apply read_keeps|intros ?; apply keeps_ret].
  - destruct (blank _); [apply keeps_ret|]. apply answering_keeps; [apply with_tenant_keeps, read_keeps|intros ?; apply keeps_ret].
  - destruct (blank _); [apply keeps_ret|]. apply answering_keeps; [|intros ?; apply keeps_ret]. apply with_tenant_keeps.
    apply keeps_bind; [apply read_keeps|]. intros [z|]; [apply read_keeps|apply keeps_fail].
Qed.
End request.

Lemma geo_http_accounted reqs req w : req ∈ reqs → accounted reqs (e_state w) → accounted reqs (e_state (geo_http req w)).
Proof.
  intros Hin Hw. unfold geo_http, geo_handler, Middleware, RequireRoles. destruct req as [[p|] r]; cbn [fst snd]; [|done].
  destruct (PrincipalFrom (Some p)) as [q|] eqn:Hq; [|done]. apply PrincipalFrom_id in Hq as ->.
  destruct (existsb _ _) eqn:Hr; [|done]. by apply dispatch_accounted.
Qed.
Lemma geo_http_run_accounted reqs : ∀ todo w, todo ⊆ reqs → accounted reqs (e_state w) → accounted reqs (e_state (geo_http_run todo w)).
Proof.
  induction todo as [|r todo IH]; intros w Hsub Hw; cbn [geo_http_run]; [done|].
  apply IH; [set_solver|]. apply geo_http_accounted; [set_solver|done].
Qed.
End zones.

(** C17: a zone that is in force went through two people.  Whatever requests reach the
    service, whoever sends them and whichever calls of the database fail, every zone that
    is not a draft was drafted by a principal with the role of a maker or administrator
    and approved by a different one with the role of a checker or administrator, both
    authenticated and both bound to the tenant of the zone. *)
Theorem zones_take_two_principals in_box in_zone line_geojson polygon_of_geojson reqs w z :
  geofence_zones (gw_db (e_state w)) = [] →
  z ∈ geofence_zones (gw_db (e_state (geo_http_run in_box in_zone line_geojson polygon_of_geojson reqs w))) →
  z_State z ≠ "draft" →
  ∃ maker checker b,
    (Ok maker, PostZone (Body b)) ∈ reqs ∧ cz_ZoneID b = z_ZoneID z ∧ (Ok checker, PostZoneApproval (z_ZoneID z)) ∈ reqs ∧
    (HasRole maker "geo-zone-maker" || HasRole maker "geo-admin") = true ∧
    (HasRole checker "geo-zone-checker" || HasRole checker "geo-admin") = true ∧
    Subject maker = z_MakerPrincipalID z ∧ z_ApprovedBy z = Some (Subject checker) ∧ Subject maker ≠ Subject checker ∧
    TenantID maker = z_TenantID z ∧ TenantID checker = z_TenantID z.
Proof.
  intros H0 Hz Hs. assert (accounted reqs (e_state w)) as Hw. { unfold accounted. rewrite H0. split; constructor. }
  apply (geo_http_run_accounted in_box in_zone line_geojson polygon_of_geojson reqs reqs w) in Hw as [_ Hw]; [|done].
  rewrite Forall_forall in Hw. destruct (Hw z Hz) as [(m & b & [Hm Hmr] & Hb & Hsm & Htm) [|(c & [Hc Hcr] & Ha & Htc & Hne)]]; [done|].
  exists m, c, b. cbn in Hmr, Hcr. rewrite orb_false_r in Hmr, Hcr. split_and!; try done. congruence.
Qed.

(** ** Evaluation of a batch *)

Definition accepted_reports (reps : list positionReport) : list positionReport := filter (λ rep, reject_reason rep = None) reps.
Definition rejected_reports (i : nat) (reps : list positionReport) : list (nat * string) :=
  omap id (imap (λ j rep, (λ reason, ((i + j)%nat, reason)) <$> reject_reason rep) reps).
Definition observation (fences : list Engine.Fence) (rep : positionReport) : Engine.obs :=
  Engine.mkObs (ps_MMSI rep) (mkPoint (ps_LatMicros rep) (ps_LonMicros rep)) (ps_SogMillikn rep) (ps_ObservedAt rep) fences.
(** The crossings of the engine's run over the reports, each with its report. *)
Definition crossings (reps : list positionReport) (log : list (Engine.obs * list Engine.Event)) : list (positionReport * Engine.Event) :=
  concat (zip_with (λ rep o, pair rep <$> o.2) reps log).

Lemma rejected_cons i rep reps :
  rejected_reports i (rep :: reps) =
    (match reject_reason rep with Some reason => [(i, reason)] | None => [] end) ++ rejected_reports (S i) reps.
Proof.
  unfold rejected_reports. cbn [imap]. rewrite Nat.add_0_r.
  assert (imap ((λ j rep, (λ reason, ((i + j)%nat, reason)) <$> reject_reason rep) ∘ S) reps =
          imap (λ j rep, (λ reason, ((S i + j)%nat, reason)) <$> reject_reason rep) reps) as ->.
  { apply imap_ext. intros j x _. cbn. by rewrite Nat.add_succ_r. }
  by destruct (reject_reason rep).
Qed.

Section evaluation.
Context (uuid : nat → string) (marshal : json → string) (cfg : config) (tenantID : string) (rows : list FenceRow).

Definition events_of (a : api_world) : list FenceEventRow := w_fence_events (gw_pipeline (ap_geo a)).
Definition log_of (a : api_world) : list message := w_kafka (gw_pipeline (ap_geo a)).
(** A crossing with the identifier it was given, on the wire. *)
Definition on_the_wire (new : list message) (c : positionReport * Engine.Event * string) : Prop :=
  let '(rep, ev, id) := c in
  announced_on cfg EventGeofenceEvent id (PGeofenceEvent (crossing rows rep ev id))
    (crossing_headers (event_category rows (Engine.ev_GeofenceID ev))
       (ZoneAlert (event_category rows (Engine.ev_GeofenceID ev)) (Engine.ev_Type ev))) new.
(** What the stored row of a crossing says. *)
Record stored_as (c : positionReport * Engine.Event * string) (row : FenceEventRow) : Prop := {
  sa_id : fe_EventID row = c.2;
  sa_fence : fe_GeofenceID row = Engine.ev_GeofenceID c.1.2;
  sa_version : fe_GeofenceVersion row = Engine.ev_Version c.1.2;
  sa_tenant : fe_TenantID row = tenantID;
  sa_type : fe_EventType row = event_type_text (Engine.ev_Type c.1.2);
  sa_mmsi : fe_MMSI row = ps_MMSI c.1.1;
  sa_lat : fe_LatitudeMicros row = ps_LatMicros c.1.1;
  sa_lon : fe_LongitudeMicros row = ps_LonMicros c.1.1;
  sa_label : fe_Classification row = "INTERNAL";
  sa_digest : fe_EnvelopeDigest row =
    sha256_hex (marshal (JObj (payload_fields (PGeofenceEvent (crossing rows c.1.1 c.1.2 c.2)))));
  sa_at : fe_OccurredAt row = Engine.ev_OccurredAtUnix c.1.2 * second;
  sa_category : fe_ZoneCategory row = event_category rows (Engine.ev_GeofenceID c.1.2);
}.
Definition emission_for (c : positionReport * Engine.Event * string) : emission :=
  let '(rep, ev, id) := c in emission_of marshal rows rep ev id.
(** What a piece of the evaluation did: it stored and announced the crossings [cs]. *)
Definition did (w w' : env api_world) (cs : list (positionReport * Engine.Event * string)) : Prop :=
  (∃ stored, events_of (e_state w') = events_of (e_state w) ++ stored ∧ Forall2 stored_as cs stored) ∧
  ∃ new, log_of (e_state w') = log_of (e_state w) ++ new ∧ Forall (on_the_wire new) cs.

Lemma on_the_wire_grows l1 l2 l3 c : on_the_wire l2 c → on_the_wire (l1 ++ l2 ++ l3) c.
Proof.
  destruct c as [[rep ev] id]. intros (e & rt & Hin & Hr). exists e, rt. rewrite !elem_of_app. auto.
Qed.
Lemma did_nil w : did w w [].
Proof. split; exists []; by rewrite app_nil_r. Qed.
Lemma did_app w1 w2 w3 cs cs' : did w1 w2 cs → did w2 w3 cs' → did w1 w3 (cs ++ cs').
Proof.
  intros ((r1 & E1 & G1) & n1 & K1 & F1) ((r2 & E2 & G2) & n2 & K2 & F2).
  split; [exists (r1 ++ r2); rewrite E2, E1, app_assoc; split; [done|by apply Forall2_app]|].
  exists (n1 ++ n2). split; [by rewrite K2, K1, app_assoc|]. apply Forall_app. split.
  - eapply Forall_impl; [exact F1|]. intros c Hc. apply (on_the_wire_grows [] n1 n2 c Hc).
  - eapply Forall_impl; [exact F2|]. intros c Hc. rewrite <- (app_nil_r n2). by apply (on_the_wire_grows n1 n2 []).
Qed.

Lemma publish_only et cid p at_ cl hs (w w' : env world) r :
  PublishSignedEnvelope uuid cfg et cid p at_ cl hs w = (w', r) → w_fence_events (e_state w') = w_fence_events (e_state w).
Proof.
  intros Hr. enough (keeps (λ s, w_fence_events s = w_fence_events (e_state w)) (PublishSignedEnvelope uuid cfg et cid p at_ cl hs)) as Hk.
  { specialize (Hk w eq_refl). by rewrite Hr in Hk. }
  assert (∀ A (f : string → M world perror A), (∀ a, keeps (λ s, w_fence_events s = w_fence_events (e_state w)) (f a)) →
            keeps (λ s, w_fence_events s = w_fence_events (e_state w)) (fresh uuid ≫= f)) as Hf.
  { intros A f Hf. apply keeps_bind; [by intros v Hv|done]. }
  unfold PublishSignedEnvelope. destruct (ParseClassification cl); [|apply keeps_fail]. do 3 (apply Hf; intros ?).
  destruct (NewEnvelope _ _ _ _ _ _ _ _ _) as [env|]; [|apply keeps_fail]. destruct (negb _); [apply keeps_fail|].
  intros v Hv. match goal with |- context [Publish _ ?m v] => destruct (Publish_spec cfg m v) as (k & _ & Hst & _) end. by rewrite Hst.
Qed.
Lemma InsertGeofenceEvent_Ok ev w w' u :
  InsertGeofenceEvent ev w = (w', Ok u) →
  w_fence_events (gw_pipeline (e_state w')) = w_fence_events (gw_pipeline (e_state w)) ++ [event_row ev] ∧
  w_kafka (gw_pipeline (e_state w')) = w_kafka (gw_pipeline (e_state w)).
Proof.
  unfold InsertGeofenceEvent, with_tenant, tenant_transaction, transaction. destruct (blank _); [done|]. 
  destruct (external _ _ w) as [w1 [x|e]] eqn:E1; [|done]. apply external_Ok in E1. injection E1 as E1 _.
  destruct ((external _ _ ≫= _) w1) as [w2 [b|e]] eqn:E2; [|done].
  apply M_bind_Ok in E2 as (w3 & ? & E2 & E3). apply external_Ok in E2. injection E2 as E2 _. apply M_bind_Ok in E3 as (w4 & ok & E3 & E4).
  apply external_Ok in E3. destruct (event_checks _ _); injection E3 as E3 <-; [|done]. injection E4 as -> _. intros E. assert (e_state w' = e_state w2) as -> by (destruct (e_faults w2) as [|[] ?]; by simplify_eq/=).
  rewrite <- E3, <- E2, <- E1. done.
Qed.

Lemma normalized_not_blank c : blank (normalizeCategory c) = false.
Proof using Type.
  unfold normalizeCategory, NormalizeZoneCategory. destruct (String.eqb c ""); [done|].
  destruct (AdmittedZoneCategory c) eqn:E; [|done]. apply bool_decide_eq_true, list_elem_of_In in E.
  cbn. repeat destruct E as [<-|E]; done.
Qed.
Lemma category_kept id : zoneCategoryOrGeneral (event_category rows id) = event_category rows id.
Proof using Type.
  unfold event_category, zoneCategoryOrGeneral. destruct (row_of rows id) as [r|]; [|done].
  change (default _ _) with (normalizeCategory (fr_ZoneCategory r)).
  pose proof (normalized_not_blank (fr_ZoneCategory r)) as H.
  destruct (String.eqb (normalizeCategory (fr_ZoneCategory r)) ""); [reflexivity|]. by rewrite H.
Qed.
Lemma emit_Ok rep ev w w' e :
  emit uuid marshal cfg tenantID rows rep ev w = (w', Ok e) →
  ∃ id, e = emission_for (rep, ev, id) ∧ ap_engine (e_state w') = ap_engine (e_state w) ∧ did w w' [(rep, ev, id)].
Proof.
  unfold emit. intros (w1 & id & E1 & E)%M_bind_Ok. apply relabel_Ok, zoom_Ok in E1 as (v1 & E1 & ->).
  apply zoom_Ok in E1 as (u1 & [= <- <-] & ->). cbn zeta in E.
  apply M_bind_Ok in E as (w2 & u & E2 & E). apply relabel_Ok, zoom_Ok in E2 as (v2 & E2 & ->). apply zoom_Ok in E2 as (u2 & E2 & ->).
  apply M_bind_Ok in E as (w3 & u' & E3 & E). apply relabel_Ok, zoom_Ok in E3 as (v3 & E3 & ->). injection E as <- <-.
  apply InsertGeofenceEvent_Ok in E3 as [H3 K3]. pose proof (publish_only _ _ _ _ _ _ _ _ _ E2) as H2.
  apply publish_announces in E2 as (new & K2 & Hann). cbn in *.
  eexists. split_and!; [done|done|]. split.
  - eexists. unfold events_of. cbn. rewrite H3, H2. split; [done|]. constructor; [|done]. split; try done. cbn.
    apply category_kept.
  - exists new. unfold log_of. cbn. rewrite K3, K2. split; [done|]. apply Forall_singleton. exact Hann.
Qed.
Lemma emit_all_Ok rep evs : ∀ w w' es,
  emit_all uuid marshal cfg tenantID rows rep evs w = (w', Ok es) →
  ∃ ids, length ids = length evs ∧ es = emission_for <$> zip (pair rep <$> evs) ids ∧
    ap_engine (e_state w') = ap_engine (e_state w) ∧ did w w' (zip (pair rep <$> evs) ids).
Proof.
  induction evs as [|ev evs IH]; intros w w' es; cbn [emit_all].
  { intros [= <- <-]. exists []. split_and!; [done|done|done|apply did_nil]. }
  intros (w1 & e & (id & -> & H1 & D1)%emit_Ok & E)%M_bind_Ok. apply M_bind_Ok in E as (w2 & es' & (ids & Hl & -> & H2 & D2)%IH & E).
  injection E as <- <-. exists (id :: ids). cbn. split_and!; [by rewrite Hl|done|congruence|]. by apply (did_app w w1 w2 [_]).
Qed.

Lemma evaluate_reports_Ok fences reps : ∀ i w w' out,
  evaluate_reports uuid marshal cfg tenantID rows fences i reps w = (w', Ok out) →
  let '(engine', log) := Engine.run (ap_engine (e_state w)) (observation fences <$> accepted_reports reps) in
  ∃ cs, cs.*1 = crossings (accepted_reports reps) log ∧ out = (emission_for <$> cs, rejected_reports i reps) ∧
    ap_engine (e_state w') = engine' ∧ did w w' cs.
Proof.
  induction reps as [|rep reps IH]; intros i w w' out; cbn [evaluate_reports].
  { intros [= <- <-]. exists []. split_and!; [done|done|done|apply did_nil]. }
  rewrite rejected_cons. unfold accepted_reports. rewrite filter_cons. fold (accepted_reports reps).
  destruct (reject_reason rep) as [reason|] eqn:Hr.
  - rewrite decide_False by done. intros (w1 & o & E & E')%M_bind_Ok. specialize (IH _ _ _ _ E). injection E' as <- <-.
    destruct (Engine.run _ _) as [eng log]. destruct IH as (cs & ? & -> & ? & ?). exists cs. done.
  - rewrite decide_True by done. rewrite fmap_cons. cbn [Engine.run]. unfold Engine.observe1 at 1, observation at 1. cbn.
    intros (w1 & evs & E1 & E)%M_bind_Ok. unfold observe in E1. destruct (Engine.Observe _ _ _ _ _ _) as [eng1 evs1]. injection E1 as <- <-.
    apply M_bind_Ok in E as (w2 & es & (ids & Hl & -> & H2 & D2)%emit_all_Ok & E). apply M_bind_Ok in E as (w3 & o & E3 & E).
    specialize (IH _ _ _ _ E3). injection E as <- <-. rewrite H2 in IH. cbn in IH. destruct (Engine.run eng1 _) as [eng2 log].
    destruct IH as (cs & Hcs & -> & He & D3). exists (zip (pair rep <$> evs1) ids ++ cs). split_and!; [|by rewrite fmap_app|done|].
    + rewrite fmap_app, fst_zip by (rewrite length_fmap; lia). unfold crossings. cbn. by f_equal.
    + by eapply did_app.
Qed.
End evaluation.

(** C19: An evaluated batch is the engine's run over its reports, announced in full.  When a
    batch is answered 200, the reports rejected are exactly those without a nine-digit
    number or a positive time, with their positions; the engine went through the others in
    order, against the fences in force of the tenant that the caller is cleared for; the
    crossings of the answer are those of that run, in order; for each of them a signed
    envelope with the crossing is on the event topic and a row of the tenant is stored, whose
    digest is the SHA-256 of the JSON of the crossing (the payload of the envelope, not the
    envelope), and nothing else was stored. *)
Theorem evaluated_crossings_announced (uuid : nat → string) (marshal : json → string) (cfg : config)
  (row_security wired : bool) (p : option Principal) (body : http_body (list positionReport)) (now1 now2 : Z)
  (w w' : env api_world) n es rj k pv :
  evaluatePositions uuid marshal cfg row_security wired p body now1 now2 w = (w', Ok (mkAnswer StatusOK (Evaluated n es rj k pv))) →
  ∃ principal rows fences reps cs,
    p = Some principal ∧ body = Body reps ∧ n = length reps ∧ (1 ≤ n ≤ 1000)%nat ∧
    (∀ r, r ∈ rows ↔ row_security = false ∧ r ∈ w_fence_rows (gw_pipeline (ap_geo (e_state w))) ∧ fr_State r = "ACTIVE" ∧
       fr_TenantID r = TenantID principal ∧ fr_Classification r ∈ clearedLabels (Clearance principal)) ∧
    mapM fence_of_row rows = Some fences ∧ k = length fences ∧ rj = rejected_reports 0 reps ∧
    let '(engine', log) := Engine.run (ap_engine (e_state w)) (observation fences <$> accepted_reports reps) in
    ap_engine (e_state w') = engine' ∧ cs.*1 = crossings (accepted_reports reps) log ∧ es = emission_for marshal rows <$> cs ∧
    did marshal cfg (TenantID principal) rows w w' cs.
Proof.
  unfold evaluatePositions, principalOrFail, tenantOrFail. destruct p as [p|]; [|done].
  destruct (PrincipalFrom (Some p)) as [q|] eqn:Hq; [|done]. apply PrincipalFrom_id in Hq as ->.
  destruct (blank _); [done|]. destruct wired; [|done]. cbn [negb]. destruct body as [| |reps]; [done..|].
  destruct (Nat.eqb _ 0) eqn:H0; [done|]. destruct (1000 <? _)%nat eqn:H1; [done|]. cbn [orb].
  intros [(e & _ & He)|(w1 & rows & E1 & E)]%answering_Ok; [done|].
  apply relabel_Ok, zoom_Ok in E1 as (v1 & E1 & ->). apply read_Ok in E1 as [E1 ->].
  destruct (mapM _ _) as [fences|] eqn:Hm; [|done].
  apply answering_Ok in E as [(e & _ & He)|(w2 & out & E & Hout)]; [by destruct e|].
  apply evaluate_reports_Ok in E. injection Hout as <- <- <- <- <- <-. cbn [e_state ap_engine] in E.
  unfold set_geo in E. rewrite E1 in E. cbn in E.
  destruct (Engine.run _ _) as [eng log] eqn:Hrun. destruct E as (cs & Hcs & -> & He & Hd).
  eexists p, _, fences, reps, cs. rewrite Hrun. apply Nat.eqb_neq in H0. apply Nat.ltb_ge in H1.
  split_and!; try done; [lia|]. intros r. rewrite merge_sort_Permutation, list_elem_of_filter. unfold pool_fences.
  destruct row_security; [|naive_solver]. rewrite elem_of_nil. naive_solver.
Qed.

(** ** The series a forecast reads *)

(** A query for the series with a limit drops the newest rows: whatever it leaves out is
    no older than anything it returns. *)
Lemma forecast_series_is_the_oldest portCode since limit w w' rows r :
  QueueObservations portCode since limit w = (w', Ok rows) →
  r ∈ (snd <$> map_to_list (gw_queue (e_state w))) → qo_PortCode r = portCode → since ≤ qo_ObservedAt r → r ∉ rows →
  length rows = Z.to_nat limit ∧ Forall (λ r', qo_ObservedAt r' ≤ qo_ObservedAt r) rows.
Proof.
  intros [_ ->]%read_Ok Hin Hp Hs Hn. set (all := merge_sort _ _) in *.
  assert (r ∈ all) as Hr. { unfold all. rewrite merge_sort_Permutation. by apply list_elem_of_filter. }
  rewrite <- (take_drop (Z.to_nat limit) all) in Hr. apply elem_of_app in Hr as [|Hr]; [done|]. split.
  - rewrite length_take. apply Nat.min_l. destruct (decide (Z.to_nat limit ≤ length all)%nat); [done|].
    rewrite drop_ge in Hr by lia. by apply elem_of_nil in Hr.
  - apply Forall_forall. intros r' Hr'. assert (StronglySorted (oldest_first qo_ObservedAt) all) as Hall.
    { apply StronglySorted_merge_sort; intros ?; unfold oldest_first; [intros ? ?; lia|intros ?; lia]. }
    rewrite <- (take_drop (Z.to_nat limit) all) in Hall. by eapply (StronglySorted_app_1_elem_of (oldest_first qo_ObservedAt)) in Hall.
Qed.

(** ** On concrete requests *)

Definition person (subject role clearance : string) : Principal := mkPrincipal subject {[ role ]} clearance "nimasa".
Definition bonny : geo_request := PostZone (Body (mkCreateZone "z1" "Bonny" "INTERNAL" "{}" (Some "Polygon"))).
Lemma zones_take_two_principals_witness :
  let reqs := [(Ok (person "ada" "geo-zone-maker" "INTERNAL"), bonny);
               (Ok (person "ada" "geo-admin" "INTERNAL"), PostZoneApproval "z1");
               (Ok (person "bello" "geo-reader" "INTERNAL"), PostZoneApproval "z1");
               (Ok (person "chidi" "geo-zone-checker" "INTERNAL"), PostZoneApproval "z1")] in
  let run := geo_http_run (λ _ _ _ _ _, true) (λ _ _, true) (λ _, "") Some reqs (mkEnv [] geo_start) in
  (z_ApprovedBy <$> geofence_zones (gw_db (e_state run))) = [Some "chidi"] ∧
  ∀ z, z ∈ geofence_zones (gw_db (e_state run)) → ∃ maker checker b,
    (Ok maker, PostZone (Body b)) ∈ reqs ∧ cz_ZoneID b = z_ZoneID z ∧ (Ok checker, PostZoneApproval (z_ZoneID z)) ∈ reqs ∧
    (HasRole maker "geo-zone-maker" || HasRole maker "geo-admin") = true ∧
    (HasRole checker "geo-zone-checker" || HasRole checker "geo-admin") = true ∧
    Subject maker = z_MakerPrincipalID z ∧ z_ApprovedBy z = Some (Subject checker) ∧ Subject maker ≠ Subject checker ∧
    TenantID maker = z_TenantID z ∧ TenantID checker = z_TenantID z.
Proof.
  cbv zeta. split; [vm_compute; reflexivity|]. intros z Hz.
  apply (zones_take_two_principals (λ _ _ _ _ _, true) (λ _ _, true) (λ _, "") Some _ (mkEnv [] geo_start) z); [reflexivity|exact Hz|].
  revert z Hz. apply Forall_forall. vm_compute. repeat constructor; discriminate.
Defined.

(** The tenant's fence around the roads, drawn and in force; a vessel in it and one out. *)
Definition roads (label : string) : env api_world :=
  mkEnv [] (mkApi (e_state (CreateGeofenceVersion false (sketch "Roads" label) 0 (mkEnv [] geo_start)).1) Engine.NewEngine).
Definition inside_report (at_ : Z) : positionReport := mkReport "657000001" 200000 500000 8000 at_.
(** A JSON text that shows the first field only. *)
Definition demo_marshal (j : json) : string := match j with JObj ((k, JStr v) :: _) => "{" +:+ k +:+ ":" +:+ v +:+ "}" | _ => "" end.
Definition evaluate_roads (w : env api_world) (reps : list positionReport) : env api_world * result api_fault (answer v2_body) :=
  evaluatePositions demo_uuid demo_marshal demo_cfg false true (Some (person "feed" "geo-ingest" "SECRET")) (Body reps) 0 0 w.
Definition emitted_of (r : result api_fault (answer v2_body)) : option (Z * list (EventType * string)) :=
  match r with
  | Ok (mkAnswer s (Evaluated _ es _ _ _)) => Some (s, (λ e, (em_EventType e, em_GeofenceID e)) <$> es)
  | Ok (mkAnswer s _) => Some (s, [])
  | Err _ => None
  end.
Lemma evaluated_crossings_announced_witness :
  let reps := [inside_report 1000; mkReport "abc" 0 0 0 1000] in
  emitted_of (evaluate_roads (roads "INTERNAL") reps).2 = Some (200, [(EventEnter, "lagos-roads")]) ∧
  ∃ w' es rj k pv, evaluate_roads (roads "INTERNAL") reps = (w', Ok (mkAnswer StatusOK (Evaluated 2 es rj k pv))) ∧
    rj = rejected_reports 0 reps ∧ length (events_of (e_state w')) = 1%nat.
Proof.
  cbv zeta. split; [vm_compute; reflexivity|].
  destruct (evaluate_roads (roads "INTERNAL") [inside_report 1000; mkReport "abc" 0 0 0 1000]) as [w' r] eqn:E.
  assert (∃ es rj k pv, r = Ok (mkAnswer StatusOK (Evaluated 2 es rj k pv))) as (es & rj & k & pv & ->).
  { apply (f_equal snd) in E. cbn [snd] in E. rewrite <- E. vm_compute. eauto. }
  exists w', es, rj, k, pv. split; [reflexivity|]. split.
  - unfold evaluate_roads in E. apply evaluated_crossings_announced in E as (q & rows & fences & reps & cs & _ & Hb & _ & _ & _ & _ & _ & Hrj & _).
    injection Hb as <-. exact Hrj.
  - apply (f_equal (λ x, length (events_of (e_state x.1)))) in E. cbn [fst] in E. rewrite <- E. vm_compute. reflexivity.
Defined.

(** A crossing whose announcement failed is not announced by a retry of the batch: the
    engine has already moved. *)
Example unannounced_crossing_is_lost :
  let faulty := mkEnv [NoFault; FailBefore; FailBefore] (e_state (roads "INTERNAL")) in
  let first := evaluate_roads faulty [inside_report 1000] in
  emitted_of first.2 = Some (503, []) ∧ emitted_of (evaluate_roads first.1 [inside_report 1000]).2 = Some (200, []).
Proof. vm_compute. split; reflexivity. Qed.
(** A report outside the ranges of the table is evaluated: its crossing is announced, the
    row is refused, and the answer is an error. *)
Example announced_then_refused :
  let out := evaluate_roads (roads "INTERNAL") [inside_report 1000; mkReport "657000001" 95000000 0 8000 1001] in
  emitted_of out.2 = Some (503, []) ∧ length (events_of (e_state out.1)) = 1%nat ∧ length (log_of (e_state out.1)) = 2%nat.
Proof. vm_compute. split_and!; reflexivity. Qed.
(** A secret fence announces its crossings as INTERNAL; its history is shown to anybody of
    the tenant. *)
Example secret_fence_is_shown :
  (fe_Classification <$> events_of (e_state (evaluate_roads (roads "SECRET") [inside_report 1000]).1)) = ["INTERNAL"] ∧
  (∃ v pv, (getFenceHistory false (Some (person "obi" "geo-reader" "PUBLIC")) "lagos-roads" 0 0 (roads "SECRET")).2 =
     Ok (mkAnswer StatusOK (FenceVersions [v] pv)) ∧ fw_Classification v = "SECRET") ∧
  (∃ pv, (listFences false (Some (person "obi" "geo-reader" "PUBLIC")) 0 0 (roads "SECRET")).2 = Ok (mkAnswer StatusOK (Fences [] pv))).
Proof. split; [vm_compute; reflexivity|]. split; repeat eexists; vm_compute; reflexivity. Qed.
(** The list of fences calls itself stale as soon as the clock moves between the two
    readings. *)
Lemma fresh_fences_are_stale now1 now2 : zero_time < now1 → now1 < now2 → pv_Stale (prov "geofences" now1 0 now2) = true.
Proof.
  intros H0 H1. unfold prov. cbn. apply andb_true_iff. split; [by apply negb_true_iff, Z.eqb_neq; lia|].
  apply Z.ltb_lt, time_Sub_pos. done.
Qed.
(** A radius that is not a number passes the check of its range. *)
Example nan_radius : parse_radius (λ _, Some S754_nan) 50000 "NaN" = Some S754_nan.
Proof. vm_compute. reflexivity. Qed.
