(* ===== verification/Transit.v ===== *)
(** * The transit registry

    [internal/store/transit.go] on the tables of migration 0009: agencies, routes, stops,
    calendars, trips, stop times, vessel assignments and alerts, with the constraints, the
    references and the row security of the migration.  A reference is checked against every
    row of its table, whatever the tenant; a statement sees the rows of its tenant only.  The
    shared positions of the ingest state are beside the registry. *)
From S2P Require Import Prelude GoTime GoParse Types Effects Store.

(** ** Rows *)

Record TransitAgency := mkAgency {
  ta_AgencyID : string; ta_TenantID : string; ta_Name : string; ta_URL : string; ta_Timezone : string; ta_Lang : string; ta_Phone : string }.
Record TransitRoute := mkRoute {
  ro_RouteID : string; ro_TenantID : string; ro_AgencyID : string; ro_ShortName : string; ro_LongName : string; ro_RouteType : Z;
  ro_DefaultSpeedMilliknots : Z; ro_Active : bool }.
Record TransitStop := mkStop {
  sp_StopID : string; sp_TenantID : string; sp_Name : string; sp_LatitudeMicros : Z; sp_LongitudeMicros : Z; sp_ZoneID : string }.
(** The weekdays from Monday to Sunday; the dates as instants of their midnight UTC. *)
Record TransitCalendar := mkCalendar {
  cal_ServiceID : string; cal_TenantID : string; cal_Weekdays : list bool; cal_StartDate : Z; cal_EndDate : Z }.
Record TransitTrip := mkTrip {
  tp_TripID : string; tp_TenantID : string; tp_RouteID : string; tp_ServiceID : string; tp_Headsign : string; tp_DirectionID : option Z }.
Record TransitStopTime := mkStopTime {
  stm_TripID : string; stm_StopSequence : Z; stm_StopID : string; stm_ArrivalSeconds : Z; stm_DepartureSeconds : Z }.
Record RouteVessel := mkRouteVessel {
  rv_RouteID : string; rv_MMSI : string; rv_IMO : string; rv_ValidFrom : option Z; rv_ValidTo : option Z }.
(** An empty route or stop is NULL. *)
Record TransitAlert := mkAlert {
  al_AlertID : string; al_TenantID : string; al_Cause : string; al_Effect : string; al_RouteID : string; al_StopID : string;
  al_StartsAt : option Z; al_EndsAt : option Z; al_HeaderText : string; al_DescriptionText : string; al_URL : string; al_Active : bool;
  al_CreatedBy : string; al_CreatedAt : Z }.
Record TransitRegistry := mkRegistry {
  Agencies : list TransitAgency; Routes : list TransitRoute; Stops : list TransitStop; Calendars : list TransitCalendar;
  Trips : list TransitTrip; StopTimes : list TransitStopTime; Assignments : list RouteVessel }.

(** ** Tables *)

(** Stop times and assignments carry the tenant beside the row. *)
Record transit_db := mkTransitDB {
  transit_agencies : gmap string TransitAgency;
  transit_routes : gmap string TransitRoute;
  transit_stops : gmap string TransitStop;
  transit_calendars : gmap string TransitCalendar;
  transit_trips : gmap string TransitTrip;
  transit_stop_times : gmap (string * Z) (string * TransitStopTime);
  transit_route_vessels : gmap (string * string) (string * RouteVessel);
  transit_alerts : gmap string TransitAlert;
}.
Definition empty_transit : transit_db := mkTransitDB ∅ ∅ ∅ ∅ ∅ ∅ ∅ ∅.
Definition on_agencies f d := mkTransitDB (f (transit_agencies d)) (transit_routes d) (transit_stops d) (transit_calendars d)
  (transit_trips d) (transit_stop_times d) (transit_route_vessels d) (transit_alerts d).
Definition on_routes f d := mkTransitDB (transit_agencies d) (f (transit_routes d)) (transit_stops d) (transit_calendars d)
  (transit_trips d) (transit_stop_times d) (transit_route_vessels d) (transit_alerts d).
Definition on_stops f d := mkTransitDB (transit_agencies d) (transit_routes d) (f (transit_stops d)) (transit_calendars d)
  (transit_trips d) (transit_stop_times d) (transit_route_vessels d) (transit_alerts d).
Definition on_calendars f d := mkTransitDB (transit_agencies d) (transit_routes d) (transit_stops d) (f (transit_calendars d))
  (transit_trips d) (transit_stop_times d) (transit_route_vessels d) (transit_alerts d).
Definition on_trips f d := mkTransitDB (transit_agencies d) (transit_routes d) (transit_stops d) (transit_calendars d)
  (f (transit_trips d)) (transit_stop_times d) (transit_route_vessels d) (transit_alerts d).
Definition on_stop_times f d := mkTransitDB (transit_agencies d) (transit_routes d) (transit_stops d) (transit_calendars d)
  (transit_trips d) (f (transit_stop_times d)) (transit_route_vessels d) (transit_alerts d).
Definition on_route_vessels f d := mkTransitDB (transit_agencies d) (transit_routes d) (transit_stops d) (transit_calendars d)
  (transit_trips d) (transit_stop_times d) (f (transit_route_vessels d)) (transit_alerts d).
Definition on_alerts f d := mkTransitDB (transit_agencies d) (transit_routes d) (transit_stops d) (transit_calendars d)
  (transit_trips d) (transit_stop_times d) (transit_route_vessels d) (f (transit_alerts d)).

(** The registry, the position plane, the clock of the database, and the counters of the
    feed builders. *)
Record transit_world := mkTransitWorld {
  tw_db : transit_db; tw_plane : ingest_db; tw_now : Z; tw_counts : list (string * string * Z) }.
Definition set_tw_db (d : transit_db) (w : transit_world) : transit_world := mkTransitWorld d (tw_plane w) (tw_now w) (tw_counts w).

Inductive transit_error :=
| TransitUnavailable | TransitTenantRequired
| IDRequired (name : string) | StopTimesEmpty | StopIDRequired (i : nat) | NotMonotonic (i : nat) | MMSILength | AlertScope | AlertCreator
| CheckViolation | ForeignKeyViolation | DuplicateKey | RowSecurity
| SeedMissing | SeedWeekdays | SeedDate (name : string) | SeedTime (name : string) | SeedAt (section : string) (i : nat) (cause : transit_error).

(** ** Constraints of migration 0009 *)

Definition between (lo hi z : Z) : bool := (lo <=? z) && (z <=? hi).
Definition length_between (lo hi : Z) (s : string) : bool := between lo hi (char_count s).
Definition agency_checks (a : TransitAgency) : bool :=
  identifier 127 (ta_AgencyID a) && identifier 127 (ta_TenantID a) && length_between 1 200 (ta_Name a) && length_between 1 512 (ta_URL a)
  && length_between 1 64 (ta_Timezone a) && length_between 0 16 (ta_Lang a) && length_between 0 64 (ta_Phone a).
Definition route_checks (r : TransitRoute) : bool :=
  identifier 127 (ro_RouteID r) && identifier 127 (ro_TenantID r) && length_between 0 64 (ro_ShortName r)
  && length_between 0 200 (ro_LongName r) && between 0 1702 (ro_RouteType r) && between 500 60000 (ro_DefaultSpeedMilliknots r)
  && (negb (String.eqb (ro_ShortName r) "") || negb (String.eqb (ro_LongName r) "")).
Definition stop_checks (s : TransitStop) : bool :=
  identifier 127 (sp_StopID s) && identifier 127 (sp_TenantID s) && length_between 1 200 (sp_Name s)
  && between (-90000000) 90000000 (sp_LatitudeMicros s) && between (-180000000) 180000000 (sp_LongitudeMicros s)
  && length_between 0 64 (sp_ZoneID s).
Definition calendar_checks (c : TransitCalendar) : bool :=
  identifier 127 (cal_ServiceID c) && identifier 127 (cal_TenantID c) && (cal_StartDate c <=? cal_EndDate c).
Definition trip_checks (t : TransitTrip) : bool :=
  identifier 127 (tp_TripID t) && identifier 127 (tp_TenantID t) && length_between 0 200 (tp_Headsign t)
  && match tp_DirectionID t with None => true | Some d => (d =? 0) || (d =? 1) end.
Definition stop_time_checks (tenant : string) (t : TransitStopTime) : bool :=
  identifier 127 tenant && (0 <? stm_StopSequence t) && (stm_StopSequence t <? 2 ^ 31) && (0 <=? stm_ArrivalSeconds t) && (stm_ArrivalSeconds t <? 172800)
  && (0 <=? stm_DepartureSeconds t) && (stm_DepartureSeconds t <? 172800) && (stm_ArrivalSeconds t <=? stm_DepartureSeconds t).
Definition digits (n : nat) (s : string) : bool := Nat.eqb (String.length s) n && all_chars is_digit s.
Definition window_ok (from to : option Z) : bool := match from, to with Some f, Some t => f <? t | _, _ => true end.
Definition assignment_checks (tenant : string) (v : RouteVessel) : bool :=
  identifier 127 tenant && digits 9 (rv_MMSI v) && (String.eqb (rv_IMO v) "" || digits 7 (rv_IMO v)) && window_ok (rv_ValidFrom v) (rv_ValidTo v).
Definition alert_causes : list string :=
  ["UNKNOWN_CAUSE"; "OTHER_CAUSE"; "TECHNICAL_PROBLEM"; "STRIKE"; "DEMONSTRATION"; "ACCIDENT"; "HOLIDAY"; "WEATHER"; "MAINTENANCE";
   "CONSTRUCTION"; "POLICE_ACTIVITY"; "MEDICAL_EMERGENCY"].
Definition alert_effects : list string :=
  ["NO_SERVICE"; "REDUCED_SERVICE"; "SIGNIFICANT_DELAYS"; "DETOUR"; "ADDITIONAL_SERVICE"; "MODIFIED_SERVICE"; "OTHER_EFFECT";
   "UNKNOWN_EFFECT"; "STOP_MOVED"; "NO_EFFECT"; "ACCESSIBILITY_ISSUE"].
Definition alert_checks (a : TransitAlert) : bool :=
  identifier 127 (al_AlertID a) && identifier 127 (al_TenantID a) && bool_decide (al_Cause a ∈ alert_causes)
  && bool_decide (al_Effect a ∈ alert_effects) && length_between 1 512 (al_HeaderText a) && length_between 0 4096 (al_DescriptionText a)
  && length_between 0 512 (al_URL a) && length_between 1 512 (al_CreatedBy a)
  && (negb (String.eqb (al_RouteID a) "") || negb (String.eqb (al_StopID a) "")) && window_ok (al_StartsAt a) (al_EndsAt a).
Definition known {A} (table : gmap string A) (id : string) : bool := bool_decide (is_Some (table !! id)).
Definition known_or_null {A} (table : gmap string A) (id : string) : bool := String.eqb id "" || known table id.

(** ** Statements *)

Abbreviation IO := (M transit_world transit_error).
(** A statement that PostgreSQL may refuse; the transaction ends with it. *)
Definition statement (f : transit_db → result transit_error transit_db) : IO unit :=
  r ← external TransitUnavailable (λ w, match f (tw_db w) with Ok d => (set_tw_db d w, None) | Err e => (w, Some e) end);
  match r with None => mret tt | Some e => fail e end.
Definition query {A} (f : transit_world → A) : IO A := external TransitUnavailable (λ w, (w, f w)).
Definition WithTenant {A} (tenantID : string) (fn : IO A) : IO A :=
  tenant_transaction tw_db set_tw_db TransitTenantRequired TransitUnavailable tenantID fn.

(** INSERT … ON CONFLICT (key) DO UPDATE of the row of the tenant: the checks come first,
    then the row security on the row it meets, then the references. *)
Definition upsert {K A} `{Countable K} (table : transit_db → gmap K A) (on : (gmap K A → gmap K A) → transit_db → transit_db)
  (tenant_of : A → string) (checks references : bool) (tenant : string) (key : K) (row : A) (d : transit_db) : result transit_error transit_db :=
  if negb checks then Err CheckViolation
  else
    match table d !! key with
    | Some old => if negb (String.eqb (tenant_of old) tenant) then Err RowSecurity
                  else if references then Ok (on <[key := row]> d) else Err ForeignKeyViolation
    | None => if references then Ok (on <[key := row]> d) else Err ForeignKeyViolation
    end.
Definition requireID {A} (name value : string) (next : IO A) : IO A := if blank value then fail (IDRequired name) else next.

(** ** Registry *)

Definition UpsertTransitAgency (tenantID : string) (agency : TransitAgency) : IO unit :=
  requireID "agency_id" (ta_AgencyID agency)
    (let row := mkAgency (ta_AgencyID agency) tenantID (ta_Name agency) (ta_URL agency) (ta_Timezone agency) (ta_Lang agency) (ta_Phone agency) in
     WithTenant tenantID (statement (upsert transit_agencies on_agencies ta_TenantID (agency_checks row) true tenantID (ta_AgencyID row) row))).
Definition UpsertTransitRoute (tenantID : string) (route : TransitRoute) : IO unit :=
  requireID "route_id" (ro_RouteID route)
    (let row := mkRoute (ro_RouteID route) tenantID (ro_AgencyID route) (ro_ShortName route) (ro_LongName route)
                  (if ro_RouteType route =? 0 then 4 else ro_RouteType route)
                  (if ro_DefaultSpeedMilliknots route =? 0 then 6000 else ro_DefaultSpeedMilliknots route) (ro_Active route) in
     WithTenant tenantID (statement (λ d, upsert transit_routes on_routes ro_TenantID (route_checks row)
       (known (transit_agencies d) (ro_AgencyID row)) tenantID (ro_RouteID row) row d))).
(** The geography is the point of the coordinates. *)
Definition UpsertTransitStop (tenantID : string) (stop : TransitStop) : IO unit :=
  requireID "stop_id" (sp_StopID stop)
    (let row := mkStop (sp_StopID stop) tenantID (sp_Name stop) (sp_LatitudeMicros stop) (sp_LongitudeMicros stop) (sp_ZoneID stop) in
     WithTenant tenantID (statement (upsert transit_stops on_stops sp_TenantID (stop_checks row) true tenantID (sp_StopID row) row))).
(** A DATE is the day of the instant. *)
Definition date_column (t : Z) : Z := t / day * day.
Definition UpsertTransitCalendar (tenantID : string) (calendar : TransitCalendar) : IO unit :=
  requireID "service_id" (cal_ServiceID calendar)
    (let row := mkCalendar (cal_ServiceID calendar) tenantID (cal_Weekdays calendar) (date_column (cal_StartDate calendar))
                  (date_column (cal_EndDate calendar)) in
     WithTenant tenantID (statement (upsert transit_calendars on_calendars cal_TenantID (calendar_checks row) true tenantID (cal_ServiceID row) row))).
Definition UpsertTransitTrip (tenantID : string) (trip : TransitTrip) : IO unit :=
  requireID "trip_id" (tp_TripID trip)
    (let row := mkTrip (tp_TripID trip) tenantID (tp_RouteID trip) (tp_ServiceID trip) (tp_Headsign trip) (tp_DirectionID trip) in
     WithTenant tenantID (statement (λ d, upsert transit_trips on_trips tp_TenantID (trip_checks row)
       (known (transit_routes d) (tp_RouteID row) && known (transit_calendars d) (tp_ServiceID row)) tenantID (tp_TripID row) row d))).

(** The checks of [ReplaceTransitStopTimes] before its transaction. *)
Fixpoint check_times (i : nat) (previous : Z) (times : list TransitStopTime) : option transit_error :=
  match times with
  | [] => None
  | t :: rest =>
      if String.eqb (stm_StopID t) "" then Some (StopIDRequired i)
      else if stm_ArrivalSeconds t <? previous then Some (NotMonotonic i)
      else check_times (S i) (stm_ArrivalSeconds t) rest
  end.
Definition of_trip (tenantID tripID : string) (row : string * TransitStopTime) : bool :=
  String.eqb row.1 tenantID && String.eqb (stm_TripID row.2) tripID.
Definition delete_times (p : string * TransitStopTime → bool) (d : transit_db) : transit_db :=
  on_stop_times (filter (λ kv, p kv.2 = false)) d.
Definition insert_time (tenantID tripID : string) (t : TransitStopTime) (d : transit_db) : result transit_error transit_db :=
  let row := mkStopTime tripID (stm_StopSequence t) (stm_StopID t) (stm_ArrivalSeconds t) (stm_DepartureSeconds t) in
  if negb (stop_time_checks tenantID row) then Err CheckViolation
  else if bool_decide (is_Some (transit_stop_times d !! (tripID, stm_StopSequence t))) then Err DuplicateKey
  else if known (transit_trips d) tripID && known (transit_stops d) (stm_StopID t)
       then Ok (on_stop_times <[(tripID, stm_StopSequence t) := (tenantID, row)]> d) else Err ForeignKeyViolation.
Definition ReplaceTransitStopTimes (tenantID tripID : string) (times : list TransitStopTime) : IO unit :=
  requireID "trip_id" tripID
    (if bool_decide (times = []) then fail StopTimesEmpty
     else match check_times 0 (-1) times with
          | Some e => fail e
          | None =>
              WithTenant tenantID
                (_ ← statement (λ d, Ok (delete_times (of_trip tenantID tripID) d));
                 each (λ t, statement (insert_time tenantID tripID t)) times)
          end).

Definition AssignRouteVessel (tenantID : string) (assignment : RouteVessel) : IO unit :=
  requireID "route_id" (rv_RouteID assignment)
    (if negb (Nat.eqb (String.length (rv_MMSI assignment)) 9) then fail MMSILength
     else
       let row := mkRouteVessel (rv_RouteID assignment) (rv_MMSI assignment) (rv_IMO assignment) (pg_time <$> rv_ValidFrom assignment)
                    (pg_time <$> rv_ValidTo assignment) in
       WithTenant tenantID (statement (λ d, upsert transit_route_vessels on_route_vessels fst (assignment_checks tenantID row)
         (known (transit_routes d) (rv_RouteID row)) tenantID (rv_RouteID row, rv_MMSI row) (tenantID, row) d))).

(** A DELETE of the tenant's rows under a condition, refused while a row that remains
    refers to one of them. *)
Definition mine (tenant_of_row tenantID : string) (b : bool) : bool := String.eqb tenant_of_row tenantID && b.
Definition delete_trips (tenantID routeID : string) (d : transit_db) : result transit_error transit_db :=
  let gone (t : TransitTrip) := mine (tp_TenantID t) tenantID (String.eqb (tp_RouteID t) routeID) in
  if bool_decide (map_Forall (λ _ row, match transit_trips d !! stm_TripID row.2 with Some t => negb (gone t) | None => true end = true)
                    (transit_stop_times d))
  then Ok (on_trips (filter (λ kv, gone kv.2 = false)) d) else Err ForeignKeyViolation.
Definition delete_route_row (tenantID routeID : string) (d : transit_db) : result transit_error transit_db :=
  match transit_routes d !! routeID with
  | Some r =>
      if negb (String.eqb (ro_TenantID r) tenantID) then Ok d
      else if bool_decide (map_Forall (λ _ t, tp_RouteID t ≠ routeID) (transit_trips d))
              && bool_decide (map_Forall (λ _ v, rv_RouteID v.2 ≠ routeID) (transit_route_vessels d))
              && bool_decide (map_Forall (λ _ a, al_RouteID a ≠ routeID) (transit_alerts d))
           then Ok (on_routes (delete routeID) d) else Err ForeignKeyViolation
  | None => Ok d
  end.
Definition DeleteTransitRoute (tenantID routeID : string) : IO unit :=
  WithTenant tenantID
    (_ ← statement (λ d, Ok (delete_times (λ row, mine row.1 tenantID
           match transit_trips d !! stm_TripID row.2 with
           | Some t => mine (tp_TenantID t) tenantID (String.eqb (tp_RouteID t) routeID)
           | None => false
           end) d));
     _ ← statement (delete_trips tenantID routeID);
     _ ← statement (λ d, Ok (on_route_vessels (filter (λ kv, mine kv.2.1 tenantID (String.eqb (rv_RouteID kv.2.2) routeID) = false)) d));
     statement (delete_route_row tenantID routeID)).
Definition delete_stop_row (tenantID stopID : string) (d : transit_db) : result transit_error transit_db :=
  match transit_stops d !! stopID with
  | Some s =>
      if negb (String.eqb (sp_TenantID s) tenantID) then Ok d
      else if bool_decide (map_Forall (λ _ row, stm_StopID row.2 ≠ stopID) (transit_stop_times d))
              && bool_decide (map_Forall (λ _ a, al_StopID a ≠ stopID) (transit_alerts d))
           then Ok (on_stops (delete stopID) d) else Err ForeignKeyViolation
  | None => Ok d
  end.
Definition DeleteTransitStop (tenantID stopID : string) : IO unit :=
  WithTenant tenantID
    (_ ← statement (λ d, Ok (delete_times (λ row, mine row.1 tenantID (String.eqb (stm_StopID row.2) stopID)) d));
     statement (delete_stop_row tenantID stopID)).

(** ** Alerts *)

Definition insert_alert (row : TransitAlert) (d : transit_db) : result transit_error transit_db :=
  if negb (alert_checks row) then Err CheckViolation
  else if known (transit_alerts d) (al_AlertID row) then Err DuplicateKey
  else if known_or_null (transit_routes d) (al_RouteID row) && known_or_null (transit_stops d) (al_StopID row)
       then Ok (on_alerts <[al_AlertID row := row]> d) else Err ForeignKeyViolation.
Definition CreateTransitAlert (tenantID : string) (alert : TransitAlert) : IO unit :=
  requireID "alert_id" (al_AlertID alert)
    (if String.eqb (al_RouteID alert) "" && String.eqb (al_StopID alert) "" then fail AlertScope
     else if blank (al_CreatedBy alert) then fail AlertCreator
     else
       now ← gets tw_now;
       WithTenant tenantID (statement (insert_alert
         (mkAlert (al_AlertID alert) tenantID (al_Cause alert) (al_Effect alert) (al_RouteID alert) (al_StopID alert)
            (pg_time <$> al_StartsAt alert) (pg_time <$> al_EndsAt alert) (al_HeaderText alert) (al_DescriptionText alert) (al_URL alert)
            true (al_CreatedBy alert) (pg_time now))))).
Definition retire_alert (a : TransitAlert) : TransitAlert :=
  mkAlert (al_AlertID a) (al_TenantID a) (al_Cause a) (al_Effect a) (al_RouteID a) (al_StopID a) (al_StartsAt a) (al_EndsAt a)
    (al_HeaderText a) (al_DescriptionText a) (al_URL a) false (al_CreatedBy a) (al_CreatedAt a).
Definition alert_of (tenantID alertID : string) (d : transit_db) : option TransitAlert :=
  a ← transit_alerts d !! alertID; if String.eqb (al_TenantID a) tenantID then Some a else None.
Definition DeactivateTransitAlert (tenantID alertID : string) : IO bool :=
  WithTenant tenantID
    (external TransitUnavailable (λ w,
       match alert_of tenantID alertID (tw_db w) with
       | Some a => (set_tw_db (on_alerts <[alertID := retire_alert a]> (tw_db w)) w, true)
       | None => (w, false)
       end)).

(** ** Reads *)

(** ORDER BY on texts, under the collation of the database. *)
Section reads.
Context (text_le : relation string) `{∀ a b, Decision (text_le a b)}.
Definition by_text {A} (key : A → string) (a b : A) : Prop := text_le (key a) (key b).
#[export] Instance by_text_dec {A} (key : A → string) a b : Decision (by_text key a b).
Proof. unfold by_text. apply _. Defined.
Definition by_text_then {A} (key : A → string) (next : relation A) (a b : A) : Prop :=
  text_le (key a) (key b) ∧ (key a = key b → next a b).
#[export] Instance by_text_then_dec {A} (key : A → string) (next : relation A) `{∀ a b, Decision (next a b)} a b :
  Decision (by_text_then key next a b).
Proof. unfold by_text_then. apply _. Defined.

Definition rows_of {K A} `{Countable K} (table : gmap K A) (tenant_of : A → string) (tenantID : string) : list A :=
  filter (λ r, tenant_of r = tenantID) (map_to_list table).*2.
Definition active_at (now : Z) (a : TransitAlert) : bool :=
  al_Active a && match al_StartsAt a with None => true | Some t => t <=? now end
  && match al_EndsAt a with None => true | Some t => now <? t end.
Definition ListActiveTransitAlerts (tenantID : string) (now : Z) : IO (list TransitAlert) :=
  WithTenant tenantID (query (λ w, merge_sort (by_text al_AlertID)
    (filter (λ a, active_at (pg_time now) a = true) (rows_of (transit_alerts (tw_db w)) al_TenantID tenantID)))).

Definition by_sequence (a b : TransitStopTime) : Prop := stm_StopSequence a ≤ stm_StopSequence b.
#[export] Instance by_sequence_dec a b : Decision (by_sequence a b).
Proof. unfold by_sequence. apply _. Defined.
Definition LoadTransitRegistry (tenantID : string) : IO TransitRegistry :=
  WithTenant tenantID
    (agencies ← query (λ w, merge_sort (by_text ta_AgencyID) (rows_of (transit_agencies (tw_db w)) ta_TenantID tenantID));
     routes ← query (λ w, merge_sort (by_text ro_RouteID) (rows_of (transit_routes (tw_db w)) ro_TenantID tenantID));
     stops ← query (λ w, merge_sort (by_text sp_StopID) (rows_of (transit_stops (tw_db w)) sp_TenantID tenantID));
     calendars ← query (λ w, merge_sort (by_text cal_ServiceID) (rows_of (transit_calendars (tw_db w)) cal_TenantID tenantID));
     trips ← query (λ w, merge_sort (by_text tp_TripID) (rows_of (transit_trips (tw_db w)) tp_TenantID tenantID));
     times ← query (λ w, merge_sort (by_text_then stm_TripID by_sequence) (rows_of (transit_stop_times (tw_db w)) fst tenantID).*2);
     vessels ← query (λ w, merge_sort (by_text_then rv_RouteID (by_text rv_MMSI)) (rows_of (transit_route_vessels (tw_db w)) fst tenantID).*2);
     mret (mkRegistry agencies routes stops calendars trips times vessels)).
End reads.

Record LatestPosition := mkLatestPosition {
  lp_MMSI : string; lp_LatitudeMicros : Z; lp_LongitudeMicros : Z; lp_Speed : option Z; lp_Course : option Z; lp_ObservedAt : Z }.
Definition latest_position (mmsi : string) (l : LatestRow) : LatestPosition :=
  mkLatestPosition mmsi (l_LatitudeMicros l) (l_LongitudeMicros l) (l_Speed l) (l_Course l) (l_ObservedAt l).
Definition LatestPositionsByMMSI (mmsis clearedLabels : list string) : IO (gmap string LatestPosition) :=
  if bool_decide (mmsis = []) then mret ∅
  else query (λ w, map_imap (λ mmsi l, Some (latest_position mmsi l))
         (filter (λ kv, kv.1 ∈ mmsis ∧ l_Classification kv.2 ∈ clearedLabels) (latest_by_mmsi (tw_plane w)))).
Definition newest_position (a b : Position) : Prop := ObservedAt b ≤ ObservedAt a.
#[export] Instance newest_position_dec a b : Decision (newest_position a b).
Proof. unfold newest_position. apply _. Defined.
Definition RecentSpeedSamples (mmsi : string) (limit : Z) (clearedLabels : list string) : IO (list Z) :=
  query (λ w, take (Z.to_nat (if limit <=? 0 then 5 else limit)) (omap SpeedOverGroundMilliknots
    (merge_sort newest_position (filter (λ p, MMSI p = mmsi ∧ is_Some (SpeedOverGroundMilliknots p) ∧ Types.Classification p ∈ clearedLabels)
       (ais_positions (tw_plane w)))))).
