(* ===== verification/Eta.v ===== *)
(** * The ETA engine

    [internal/gtfsrt/eta.go] on IEEE binary64: the polyline of a trip, the projection of a
    vessel onto it, the median of the reported speeds, arrival predictions and the choice of
    the trip a vessel serves.  [math.Hypot] is the formula of the Go library; the
    trigonometric functions are the interface [Math]. *)
From S2P Require Import Prelude GoFloat Track.
From Stdlib Require Import SpecFloat.

Definition f_abs : float64 → float64 := SFabs.
Definition f_inf : float64 := S754_infinity false.
Definition f_zero : float64 := S754_zero false.
Definition f_eq (a b : float64) : bool := SFeqb a b.
(** [math.Max], with its special cases. *)
Definition f_max (x y : float64) : float64 :=
  match x, y with
  | S754_infinity false, _ | _, S754_infinity false => f_inf
  | S754_nan, _ | _, S754_nan => S754_nan
  | S754_zero sx, S754_zero _ => if sx then y else x
  | _, _ => if f_lt y x then x else y
  end.
Definition math_Hypot (p q : float64) : float64 :=
  if f_is_inf p || f_is_inf q then f_inf
  else if f_is_nan p || f_is_nan q then S754_nan
  else
    let '(p, q) := (f_abs p, f_abs q) in
    let '(p, q) := if f_lt p q then (q, p) else (p, q) in
    if f_eq p f_zero then f_zero else let q := f_div q p in f_mul p (f_sqrt (f_add (f_of_Z 1) (f_mul q q))).

(** The constants: [knotsPerMilliknot * metersPerSecondPerKnot] is applied in two steps. *)
Definition earthRadiusMeters : float64 := f_lit 63710088 10.
Definition knotsPerMilliknot : float64 := f_lit 1 1000.
Definition metersPerSecondPerKnot : float64 := f_lit 1852 3600.
Definition milliknotsToMetersPerSecond (milliknots : float64) : float64 :=
  f_mul (f_mul milliknots knotsPerMilliknot) metersPerSecondPerKnot.

Record Coord := mkCoord { co_LatitudeMicros : Z; co_LongitudeMicros : Z }.
Definition micro_radians (micros : Z) : float64 := f_div (f_mul (f_div (f_of_Z micros) (f_of_Z 1000000)) math_Pi) (f_of_Z 180).
Definition latRadians (c : Coord) : float64 := micro_radians (co_LatitudeMicros c).
Definition lonRadians (c : Coord) : float64 := micro_radians (co_LongitudeMicros c).

Record RoutePath := mkPath {
  Cumulative : list float64; Total : float64; xs : list float64; ys : list float64; xsOrigin : float64; ysOrigin : float64; meanLat : float64 }.

Section eta.
Context `{Math}.
Definition haversineMeters (a b : Coord) : float64 :=
  let lat1 := latRadians a in
  let lat2 := latRadians b in
  let deltaLat := f_sub lat2 lat1 in
  let deltaLon := f_sub (lonRadians b) (lonRadians a) in
  let s1 := math_Sin (f_div deltaLat (f_of_Z 2)) in
  let s2 := math_Sin (f_div deltaLon (f_of_Z 2)) in
  let h := f_add (f_mul s1 s1) (f_mul (f_mul (f_mul (math_Cos lat1) (math_Cos lat2)) s2) s2) in
  f_mul (f_mul (f_of_Z 2) earthRadiusMeters) (math_Asin (f_sqrt h)).

(** Distances from the first stop, given the distance of the stop before. *)
Fixpoint cumulate (sofar : float64) (prev : Coord) (stops : list Coord) : list float64 :=
  match stops with
  | [] => []
  | stop :: rest => let d := f_add sofar (haversineMeters prev stop) in d :: cumulate d stop rest
  end.
Definition mean_latitude (stops : list Coord) : float64 :=
  f_div (fold_left (λ acc c, f_add acc (latRadians c)) stops f_zero) (f_of_Z (Z.of_nat (length stops))).
Definition NewRoutePath (stops : list Coord) : RoutePath :=
  match stops with
  | [] => mkPath [] f_zero [] [] f_zero f_zero f_zero
  | origin :: rest =>
      let mean := mean_latitude stops in
      let cosLat := math_Cos mean in
      let cumulative := f_zero :: cumulate f_zero origin rest in
      mkPath cumulative (List.last cumulative f_zero)
        ((λ c, f_mul (f_mul (f_sub (lonRadians c) (lonRadians origin)) cosLat) earthRadiusMeters) <$> stops)
        ((λ c, f_mul (f_sub (latRadians c) (latRadians origin)) earthRadiusMeters) <$> stops)
        (lonRadians origin) (latRadians origin) mean
  end.

(** The loop over the legs: the best distance and progress so far. *)
Fixpoint snap_legs (vx vy : float64) (points : list (float64 * float64)) (cumulative : list float64) (best : float64 * float64) :
  float64 * float64 :=
  match points, cumulative with
  | (ax, ay) :: (((bx, by_) :: _) as rest), c :: cs =>
      let segX := f_sub bx ax in
      let segY := f_sub by_ ay in
      let segLen2 := f_add (f_mul segX segX) (f_mul segY segY) in
      let t := if f_lt f_zero segLen2
               then f_max f_zero (f_min (f_of_Z 1) (f_div (f_add (f_mul (f_sub vx ax) segX) (f_mul (f_sub vy ay) segY)) segLen2))
               else f_zero in
      let projX := f_add ax (f_mul t segX) in
      let projY := f_add ay (f_mul t segY) in
      let distance := math_Hypot (f_sub vx projX) (f_sub vy projY) in
      snap_legs vx vy rest cs
        (if f_lt distance best.2 then (f_add c (f_mul t (f_sqrt segLen2)), distance) else best)
  | _, _ => best
  end.
(** Progress along the route and the distance from it. *)
Definition Snap (path : RoutePath) (vessel : Coord) : float64 * float64 :=
  match xs path, ys path with
  | x0 :: xs', y0 :: _ =>
      let vx := f_mul (f_mul (f_sub (lonRadians vessel) (xsOrigin path)) (math_Cos (meanLat path))) earthRadiusMeters in
      let vy := f_mul (f_sub (latRadians vessel) (ysOrigin path)) earthRadiusMeters in
      match xs' with
      | [] => (f_zero, math_Hypot (f_sub vx x0) (f_sub vy y0))
      | _ => snap_legs vx vy (zip (xs path) (ys path)) (Cumulative path) (f_zero, f_inf)
      end
  | _, _ => (f_zero, f_inf)
  end.
End eta.

(** [sort.Slice] on values; the sum of the two middle values is a uint32. *)
Definition MedianMilliknots (samples : list Z) : float64 * bool :=
  match samples with
  | [] => (f_zero, false)
  | _ =>
      let ordered := merge_sort Z.le samples in
      let middle := (length ordered / 2)%nat in
      if Nat.odd (length ordered) then (f_of_Z (nth middle ordered 0), true)
      else (f_div (f_of_Z (uint32 (nth (middle - 1) ordered 0 + nth middle ordered 0))) (f_of_Z 2), true)
  end.

Record StopETA := mkStopETA { eta_StopIndex : nat; eta_RemainingMeters : float64; eta_ETA : Z }.
Section predictions.
(** What the conversion to int64 gives for a value it cannot hold. *)
Context (int64_overflow : float64 → Z).
Fixpoint etas_from (i : nat) (cumulative : list float64) (progress speed : float64) (now : Z) : list StopETA :=
  match cumulative with
  | [] => []
  | c :: cs =>
      let later := etas_from (S i) cs progress speed now in
      let remaining := f_sub c progress in
      if f_lt remaining f_zero then later
      else mkStopETA i remaining (now + to_int64 int64_overflow (f_mul (f_div remaining speed) (f_of_Z second))) :: later
  end.
Definition ComputeETAs (path : RoutePath) (progress speed : float64) (now : Z) : list StopETA :=
  if f_le speed f_zero then [] else etas_from 0 (Cumulative path) progress speed now.
End predictions.

Record TripWindow := mkTripWindow { tw_TripID : string; tw_FirstDeparture : Z; tw_LastArrival : Z }.
Definition in_window (now preSlack postSlack : Z) (w : TripWindow) : bool :=
  negb ((now <? tw_FirstDeparture w - preSlack) || (tw_LastArrival w + postSlack <? now)).
Definition MatchTrip (windows : list TripWindow) (now preSlack postSlack : Z) : option TripWindow :=
  fold_left (λ best w,
    if negb (in_window now preSlack postSlack w) then best
    else match best with
         | None => Some w
         | Some b => if tw_FirstDeparture b <? tw_FirstDeparture w then Some w else Some b
         end) windows None.
