(* ===== verification/GtfsStatic.v ===== *)
(** * The static feed

    [internal/gtfs/static.go]: the registry as the six text files of a GTFS archive, after
    the check of its references.  The CSV writer is that of [encoding/csv]; the archive is
    the list of its entries, which the zip writer (a parameter) turns into bytes. *)
From S2P Require Import Prelude GoTime Dedup Sha256 Store StoreProps Transit.

Inductive static_error :=
| TimeOfUnknownTrip (trip : string) | TimeAtUnknownStop (stop trip : string) | NonMonotonicTimes (trip : string)
| TripOnUnknownRoute (trip : string) | TripOfUnknownService (trip : string) | TripWithoutTimes (trip : string)
| RouteOfUnknownAgency (route : string) | ZipFailed.

(** ** CSV *)

Definition quote : char := char_of 34.
Definition comma : char := char_of 44.
Definition colon : char := char_of 58.
Definition newline : char := char_of 10.
Definition carriage_return : char := char_of 13.
Definition special (c : char) : bool :=
  Ascii.eqb c newline || Ascii.eqb c carriage_return || Ascii.eqb c quote || Ascii.eqb c comma.
(** [unicode.IsSpace] of the first rune. *)
Definition starts_with_space (s : string) : bool := match strip_any unicode_spaces s with Some _ => true | None => false end.
Definition end_of_data : string := String (char_of 92) ".".
Definition fieldNeedsQuotes (field : string) : bool :=
  if String.eqb field "" then false
  else if String.eqb field end_of_data then true
  else if negb (all_chars (λ c, negb (special c)) field) then true
  else starts_with_space field.
(** A quote is doubled; with [UseCRLF] unset the other characters are kept. *)
Fixpoint escape (s : string) : string :=
  match s with
  | EmptyString => EmptyString
  | String c rest => if Ascii.eqb c quote then String quote (String quote (escape rest)) else String c (escape rest)
  end.
Definition write_field (field : string) : string :=
  if fieldNeedsQuotes field then String quote (escape field +:+ String quote "") else field.
Fixpoint write_fields (fields : list string) : string :=
  match fields with
  | [] => ""
  | [f] => write_field f
  | f :: rest => write_field f +:+ String comma (write_fields rest)
  end.
Definition write_record (record : list string) : string := write_fields record +:+ String newline "".
Definition renderCSV (header : list string) (rows : list (list string)) : string :=
  foldr (λ record text, write_record record +:+ text) "" (header :: rows).

(** ** Texts *)

(** [%02d]: of a negative number, the sign counts as one of the two places. *)
Definition fmt_02d (z : Z) : string := if (0 <=? z) && (z <? 100) then show_pad 2 z else show_Z z.
Definition renderHMS (seconds : Z) : string :=
  fmt_02d (Z.quot seconds 3600) +:+ ":" +:+ fmt_02d (Z.quot (Z.rem seconds 3600) 60) +:+ ":" +:+ fmt_02d (Z.rem seconds 60).
Definition renderBool (value : bool) : string := if value then "1" else "0".
Definition format_compact (t : Z) : string :=
  let c := date_of_instant t in show_year (c_year c) +:+ show_pad 2 (c_month c) +:+ show_pad 2 (c_day c).

(** ** Files *)

Definition has {A} (key : A → string) (l : list A) (id : string) : bool := existsb (λ x, String.eqb (key x) id) l.
Fixpoint monotonic (previous : Z) (times : list TransitStopTime) : bool :=
  match times with
  | [] => true
  | t :: rest => negb (stm_ArrivalSeconds t <? previous) && monotonic (stm_ArrivalSeconds t) rest
  end.
Definition times_of (r : TransitRegistry) (trip : string) : list TransitStopTime :=
  List.filter (λ t, String.eqb (stm_TripID t) trip) (StopTimes r).
Definition check_stop_time (r : TransitRegistry) (t : TransitStopTime) : option static_error :=
  if negb (has tp_TripID (Trips r) (stm_TripID t)) then Some (TimeOfUnknownTrip (stm_TripID t))
  else if negb (has sp_StopID (Stops r) (stm_StopID t)) then Some (TimeAtUnknownStop (stm_StopID t) (stm_TripID t)) else None.
Definition check_order (r : TransitRegistry) (t : TransitStopTime) : option static_error :=
  if monotonic (-1) (times_of r (stm_TripID t)) then None else Some (NonMonotonicTimes (stm_TripID t)).
Definition check_trip (r : TransitRegistry) (t : TransitTrip) : option static_error :=
  if negb (has ro_RouteID (Routes r) (tp_RouteID t)) then Some (TripOnUnknownRoute (tp_TripID t))
  else if negb (has cal_ServiceID (Calendars r) (tp_ServiceID t)) then Some (TripOfUnknownService (tp_TripID t))
  else if bool_decide (times_of r (tp_TripID t) = []) then Some (TripWithoutTimes (tp_TripID t)) else None.
Definition check_route (r : TransitRegistry) (route : TransitRoute) : option static_error :=
  if negb (has ta_AgencyID (Agencies r) (ro_AgencyID route)) then Some (RouteOfUnknownAgency (ro_RouteID route)) else None.
(** The first failure of a loop. *)
Fixpoint first_error {A} (check : A → option static_error) (l : list A) : option static_error :=
  match l with [] => None | x :: rest => match check x with Some e => Some e | None => first_error check rest end end.
(** The order in which the trips of the map are visited is not fixed; it decides only which
    trip an error names. *)
Definition integrity (r : TransitRegistry) : option static_error :=
  match first_error (check_stop_time r) (StopTimes r) with
  | Some e => Some e
  | None =>
      match first_error (check_order r) (StopTimes r) with
      | Some e => Some e
      | None => match first_error (check_trip r) (Trips r) with Some e => Some e | None => first_error (check_route r) (Routes r) end
      end
  end.

Definition agency_rows (r : TransitRegistry) : list (list string) :=
  (λ a, [ta_AgencyID a; ta_Name a; ta_URL a; ta_Timezone a; ta_Lang a; ta_Phone a]) <$> Agencies r.
Definition route_rows (r : TransitRegistry) : list (list string) :=
  (λ o, [ro_RouteID o; ro_AgencyID o; ro_ShortName o; ro_LongName o; show_Z (ro_RouteType o)]) <$> List.filter ro_Active (Routes r).
Definition stop_rows (r : TransitRegistry) : list (list string) :=
  (λ s, [sp_StopID s; sp_Name s; renderMicros (sp_LatitudeMicros s); renderMicros (sp_LongitudeMicros s); sp_ZoneID s]) <$> Stops r.
Definition trip_rows (r : TransitRegistry) : list (list string) :=
  (λ t, [tp_RouteID t; tp_ServiceID t; tp_TripID t; tp_Headsign t; match tp_DirectionID t with Some d => show_Z d | None => "" end]) <$> Trips r.
Definition stop_time_rows (r : TransitRegistry) : list (list string) :=
  (λ t, [stm_TripID t; renderHMS (stm_ArrivalSeconds t); renderHMS (stm_DepartureSeconds t); stm_StopID t; show_Z (stm_StopSequence t)])
    <$> StopTimes r.
Definition calendar_rows (r : TransitRegistry) : list (list string) :=
  (λ c, cal_ServiceID c :: (renderBool <$> cal_Weekdays c) ++ [format_compact (cal_StartDate c); format_compact (cal_EndDate c)]) <$> Calendars r.
(** The six files with their headers and rows. *)
Definition tables_of (r : TransitRegistry) : list (string * (list string * list (list string))) :=
  [("agency.txt", (["agency_id"; "agency_name"; "agency_url"; "agency_timezone"; "agency_lang"; "agency_phone"], agency_rows r));
   ("routes.txt", (["route_id"; "agency_id"; "route_short_name"; "route_long_name"; "route_type"], route_rows r));
   ("stops.txt", (["stop_id"; "stop_name"; "stop_lat"; "stop_lon"; "zone_id"], stop_rows r));
   ("trips.txt", (["route_id"; "service_id"; "trip_id"; "trip_headsign"; "direction_id"], trip_rows r));
   ("stop_times.txt", (["trip_id"; "arrival_time"; "departure_time"; "stop_id"; "stop_sequence"], stop_time_rows r));
   ("calendar.txt", (["service_id"; "monday"; "tuesday"; "wednesday"; "thursday"; "friday"; "saturday"; "sunday"; "start_date"; "end_date"],
                     calendar_rows r))].
Definition renderFiles (r : TransitRegistry) : result static_error (list (string * string)) :=
  match integrity r with
  | Some e => Err e
  | None => Ok ((λ f, (f.1, renderCSV f.2.1 f.2.2)) <$> tables_of r)
  end.

(** ** The archive *)

Section archive.
Context (zip_bytes : list (string * string) → option (list Z)).
Definition entity_tag (payload : list Z) : string := String quote (hex_encode (sha256 payload) +:+ String quote "").
Definition BuildStaticZip (r : TransitRegistry) : result static_error (list Z * string) :=
  files ← renderFiles r;
  match zip_bytes (sort_by fst files) with
  | None => Err ZipFailed
  | Some payload => Ok (payload, entity_tag payload)
  end.
End archive.

(** ** The static feed, read back

    A reader of the archive that knows GTFS and RFC 4180 and not the writer: it unzips the
    payload, reads the CSV, and finds the columns by the names in the header.  What it finds
    in them is what the registry holds. *)

(** ** A reader *)

(** Outside quotes with the text so far, inside them, or after a quote that may end the
    field or be the first of two. *)
Inductive csv_state := Bare (text : string) | Inside (text : string) | After (text : string).
Definition snoc (s : string) (c : char) : string := s +:+ String c "".
(** The records; [fields] are the fields of the record that is being read.  A carriage return
    outside quotes is refused, and a record ends with a line feed. *)
Fixpoint read_from (st : csv_state) (fields : list string) (s : string) : option (list (list string)) :=
  match s with
  | EmptyString => match st, fields with Bare EmptyString, [] => Some [] | _, _ => None end
  | String c rest =>
      let next_field text := read_from (Bare "") (fields ++ [text]) rest in
      let next_record text := cons (fields ++ [text]) <$> read_from (Bare "") [] rest in
      match st with
      | Bare text =>
          if Ascii.eqb c quote then (if String.eqb text "" then read_from (Inside "") fields rest else None)
          else if Ascii.eqb c comma then next_field text
          else if Ascii.eqb c newline then next_record text
          else if Ascii.eqb c carriage_return then None
          else read_from (Bare (snoc text c)) fields rest
      | Inside text => if Ascii.eqb c quote then read_from (After text) fields rest else read_from (Inside (snoc text c)) fields rest
      | After text =>
          if Ascii.eqb c quote then read_from (Inside (snoc text c)) fields rest
          else if Ascii.eqb c comma then next_field text
          else if Ascii.eqb c newline then next_record text
          else None
      end
  end.
Definition read_csv (s : string) : option (list (list string)) := read_from (Bare "") [] s.

Lemma snoc_app s c t : snoc s c +:+ t = s +:+ String c t.
Proof. unfold snoc. by rewrite <- string_app_assoc. Qed.
Lemma read_plain f : all_chars (λ c, negb (special c)) f = true →
  ∀ text fields rest, read_from (Bare text) fields (f +:+ rest) = read_from (Bare (text +:+ f)) fields rest.
Proof.
  induction f as [|c f IH]; intros Hf text fields rest; [by rewrite string_app_nil_r|].
  cbn in Hf. apply andb_true_iff in Hf as [Hc Hf]. unfold special in Hc. apply negb_true_iff in Hc.
  apply orb_false_iff in Hc as [[[H1 H2]%orb_false_iff H3]%orb_false_iff H4].
  change (String c f +:+ rest) with (String c (f +:+ rest)). cbn [read_from]. rewrite H1, H2, H3, H4, IH by done. by rewrite snoc_app.
Qed.
Lemma read_quoted f text fields rest : read_from (Inside text) fields (escape f +:+ rest) = read_from (Inside (text +:+ f)) fields rest.
Proof.
  revert text. induction f as [|c f IH]; intros text; [by rewrite string_app_nil_r|].
  cbn [escape]. destruct (Ascii.eqb c quote) eqn:Hq.
  - apply Ascii.eqb_eq in Hq as ->. change (String quote (String quote (escape f)) +:+ rest) with (String quote (String quote (escape f +:+ rest))).
    cbn [read_from]. rewrite !Ascii.eqb_refl, IH. by rewrite snoc_app.
  - change (String c (escape f) +:+ rest) with (String c (escape f +:+ rest)). cbn [read_from]. rewrite Hq, IH. by rewrite snoc_app.
Qed.
(** A field is read up to the comma or line feed behind it. *)
Lemma read_field f c fields rest : c = comma ∨ c = newline →
  read_from (Bare "") fields (write_field f +:+ String c rest) = read_from (Bare f) fields (String c rest).
Proof.
  intros Hc. unfold write_field. destruct (fieldNeedsQuotes f) eqn:Hq.
  - change (String quote (escape f +:+ String quote "") +:+ String c rest) with
      (String quote ((escape f +:+ String quote "") +:+ String c rest)).
    cbn [read_from]. rewrite Ascii.eqb_refl, <- string_app_assoc. cbn [String.eqb]. rewrite read_quoted.
    change (String quote "" +:+ String c rest) with (String quote (String c rest)). by destruct Hc as [-> | ->].
  - rewrite read_plain; [done|]. unfold fieldNeedsQuotes in Hq. destruct (String.eqb_spec f ""); [by subst|].
    destruct (String.eqb _ _); [done|]. by destruct (all_chars _ f).
Qed.
Lemma write_fields_cons f f' record : write_fields (f :: f' :: record) = write_field f +:+ String comma (write_fields (f' :: record)).
Proof. done. Qed.
Lemma string_app_cons c s t : String c s +:+ t = String c (s +:+ t).
Proof. done. Qed.
Lemma read_record record fields rest : record ≠ [] →
  read_from (Bare "") fields (write_record record +:+ rest) = cons (fields ++ record) <$> read_csv rest.
Proof.
  unfold write_record. revert fields. induction record as [|f record IH]; intros fields Hne; [done|].
  destruct record as [|f' record].
  - cbn [write_fields]. rewrite <- string_app_assoc, string_app_cons, read_field by auto. done.
  - rewrite write_fields_cons, <- string_app_assoc, <- string_app_assoc, string_app_cons, read_field by auto.
    cbn [read_from]. change (Ascii.eqb comma quote) with false. change (Ascii.eqb comma comma) with true. cbv iota zeta.
    rewrite string_app_assoc, IH by done. by rewrite <- app_assoc.
Qed.
Lemma read_renderCSV header rows : header ≠ [] → Forall (λ row, row ≠ []) rows → read_csv (renderCSV header rows) = Some (header :: rows).
Proof.
  intros Hh Hr. unfold renderCSV. assert (Forall (λ row, row ≠ []) (header :: rows)) as H by by constructor. revert H.
  generalize (header :: rows). intros l. induction 1 as [|row l Hrow Hl IH]; [done|].
  cbn [foldr]. unfold read_csv at 1. rewrite read_record by done. by rewrite IH.
Qed.

(** ** References *)

(** What the feed promises its readers: a stop time belongs to a trip and a stop of the
    feed, a trip to a route and a service and has a stop time, a route to an agency, and the
    arrivals of a trip do not go back in time. *)
Record consistent (r : TransitRegistry) : Prop := mkConsistent {
  times_resolve : ∀ t, t ∈ StopTimes r → stm_TripID t ∈ tp_TripID <$> Trips r ∧ stm_StopID t ∈ sp_StopID <$> Stops r;
  trips_resolve : ∀ t, t ∈ Trips r → tp_RouteID t ∈ ro_RouteID <$> Routes r ∧ tp_ServiceID t ∈ cal_ServiceID <$> Calendars r ∧
                    tp_TripID t ∈ stm_TripID <$> StopTimes r;
  routes_resolve : ∀ o, o ∈ Routes r → ro_AgencyID o ∈ ta_AgencyID <$> Agencies r;
  times_forward : ∀ trip, StronglySorted Z.le (-1 :: (stm_ArrivalSeconds <$> filter (λ t, stm_TripID t = trip) (StopTimes r)));
}.

Lemma has_spec {A} (key : A → string) l id : has key l id = true ↔ id ∈ key <$> l.
Proof.
  unfold has. rewrite existsb_exists, list_elem_of_fmap. setoid_rewrite String.eqb_eq. setoid_rewrite list_elem_of_In. naive_solver.
Qed.
Lemma times_of_filter r trip : times_of r trip = filter (λ t, stm_TripID t = trip) (StopTimes r).
Proof.
  unfold times_of. induction (StopTimes r) as [|t l IH]; [done|]. rewrite filter_cons. cbn [List.filter]. rewrite IH.
  destruct (String.eqb_spec (stm_TripID t) trip); by case_decide.
Qed.
Lemma monotonic_spec previous times : monotonic previous times = true ↔ StronglySorted Z.le (previous :: (stm_ArrivalSeconds <$> times)).
Proof.
  split.
  - intros Hm. apply Sorted_StronglySorted; [intros ? ? ?; lia|]. revert previous Hm.
    induction times as [|t times IH]; intros previous Hm; [by repeat constructor|]. cbn in Hm. bool_to_prop.
    constructor; [by apply IH|]. constructor. lia.
  - revert previous. induction times as [|t times IH]; intros previous Hs; [done|]. cbn. apply andb_true_iff.
    inversion Hs as [|? ? Hs' Hf]; subst. inversion Hf; subst. split; [|by apply IH]. apply negb_true_iff, Z.ltb_ge. done.
Qed.
Lemma first_error_None {A} (check : A → option static_error) l : first_error check l = None ↔ Forall (λ x, check x = None) l.
Proof.
  induction l as [|x l IH]; cbn; [done|]. rewrite Forall_cons. destruct (check x); [naive_solver|]. naive_solver.
Qed.
Lemma first_error_in {A} (check : A → option static_error) l e : first_error check l = Some e → ∃ x, check x = Some e.
Proof. induction l as [|x l IH]; cbn; [done|]. destruct (check x) eqn:E; [|done]. intros [= <-]. eauto. Qed.
Lemma integrity_not_zip r : integrity r ≠ Some ZipFailed.
Proof.
  unfold integrity. intros H. repeat case_match; simplify_eq;
    match goal with H : first_error _ _ = Some ZipFailed |- _ => apply first_error_in in H as [x Hx] end;
    unfold check_stop_time, check_order, check_trip, check_route in Hx; repeat case_match; done.
Qed.
Lemma integrity_None r : integrity r = None ↔ consistent r.
Proof.
  unfold integrity. split.
  - destruct (first_error (check_stop_time r) _) eqn:E1; [done|]. destruct (first_error (check_order r) _) eqn:E2; [done|].
    destruct (first_error (check_trip r) _) eqn:E3; [done|]. apply first_error_None in E1, E2, E3. intros E4%first_error_None.
    rewrite Forall_forall in E1, E2. rewrite Forall_forall in E3. rewrite Forall_forall in E4. split.
    + intros t Ht. specialize (E1 t Ht). unfold check_stop_time in E1. rewrite <- !has_spec. by destruct (has _ _ _), (has _ _ _).
    + intros t Ht. specialize (E3 t Ht). unfold check_trip in E3. rewrite <- !has_spec.
      destruct (has _ _ _); [|done]. destruct (has _ _ _); [|done]. cbn in E3. case_bool_decide as Hn; [done|]. split_and!; [done..|].
      destruct (times_of r (tp_TripID t)) as [|x l] eqn:Ex; [done|]. rewrite times_of_filter in Ex.
      assert (x ∈ filter (λ t', stm_TripID t' = tp_TripID t) (StopTimes r)) as [<- Hx]%list_elem_of_filter by (rewrite Ex; left).
      by apply has_spec, list_elem_of_fmap_2.
    + intros o Ho. specialize (E4 o Ho). unfold check_route in E4. rewrite <- has_spec. by destruct (has _ _ _).
    + intros trip. destruct (filter _ _) as [|x l] eqn:Ex; [by repeat constructor|].
      assert (x ∈ filter (λ t, stm_TripID t = trip) (StopTimes r)) as [<- Hx]%list_elem_of_filter by (rewrite Ex; left).
      specialize (E2 x Hx). unfold check_order in E2. destruct (monotonic _ _) eqn:Hm; [|done].
      by rewrite <- Ex, <- times_of_filter, <- monotonic_spec.
  - intros [H1 H2 H3 H4].
    assert (first_error (check_stop_time r) (StopTimes r) = None) as ->.
    { apply first_error_None, Forall_forall. intros t [Ht1%has_spec Ht2%has_spec]%H1. unfold check_stop_time. by rewrite Ht1, Ht2. }
    assert (first_error (check_order r) (StopTimes r) = None) as ->.
    { apply first_error_None, Forall_forall. intros t _. unfold check_order. specialize (H4 (stm_TripID t)).
      rewrite <- times_of_filter, <- monotonic_spec in H4. by rewrite H4. }
    assert (first_error (check_trip r) (Trips r) = None) as ->.
    { apply first_error_None, Forall_forall. intros t (Ht1%has_spec & Ht2%has_spec & (x & Hx & Hin)%list_elem_of_fmap)%H2. unfold check_trip.
      rewrite Ht1, Ht2. cbn [negb]. rewrite bool_decide_eq_false_2; [done|]. rewrite times_of_filter. intros Hn.
      assert (x ∈ filter (λ t', stm_TripID t' = tp_TripID t) (StopTimes r)) as Hf by by apply list_elem_of_filter.
      rewrite Hn in Hf. by apply elem_of_nil in Hf. }
    apply first_error_None, Forall_forall. intros o Ho%H3%has_spec. unfold check_route. by rewrite Ho.
Qed.

(** ** Columns *)

(** The records of a file under the names of its header; a record of another length is
    refused. *)
Definition named_rows (text : string) : option (list (list (string * string))) :=
  match read_csv text with
  | Some (header :: rows) => if forallb (λ row, (length row =? length header)%nat) rows then Some (zip header <$> rows) else None
  | _ => None
  end.
Definition col (row : list (string * string)) (name : string) : option string := snd <$> List.find (λ c, String.eqb name c.1) row.
Definition entry (files : list (string * string)) (name : string) : option string := snd <$> List.find (λ f, String.eqb name f.1) files.
(** The rows of the file [name] of the archive. *)
Definition lines (files : list (string * string)) (name : string) : list (list (string * string)) :=
  default [] (entry files name ≫= named_rows).
Definition column (files : list (string * string)) (name c : string) : list string := omap (λ row, col row c) (lines files name).

Fixpoint cut_at (sep : char) (s : string) : option (string * string) :=
  match s with
  | EmptyString => None
  | String c rest => if Ascii.eqb c sep then Some ("", rest) else (λ ab, (String c ab.1, ab.2)) <$> cut_at sep rest
  end.
Definition read_digits (s : string) : option Z := if String.eqb s "" || negb (all_chars is_digit s) then None else Some (dec_value s).
Definition read_int (s : string) : option Z :=
  match strip_prefix "-" s with Some rest => Z.opp <$> read_digits rest | None => read_digits s end.
Definition read_flag (s : string) : option bool := if String.eqb s "1" then Some true else if String.eqb s "0" then Some false else None.
(** An optional number: the empty text is no number. *)
Definition read_optional (s : string) : option (option Z) := if String.eqb s "" then Some None else Some <$> read_int s.
(** [H+:MM:SS]. *)
Definition read_hms (s : string) : option Z :=
  '(h, ms) ← cut_at colon s;
  '(m, sec) ← cut_at colon ms;
  h ← read_digits h;
  if digits_exactly 2 m && digits_exactly 2 sec then Some (h * 3600 + dec_value m * 60 + dec_value sec) else None.
(** [YYYYMMDD]. *)
Definition read_date (s : string) : option civil :=
  if digits_exactly 8 s then
    let v := dec_value s in Some (mkCivil (v / 10000) (v / 100 mod 100) (v mod 100))
  else None.

(** What a row of each file says, column by column. *)
Record agency_line (a : TransitAgency) (row : list (string * string)) : Prop := {
  al_id : col row "agency_id" = Some (ta_AgencyID a);
  al_name : col row "agency_name" = Some (ta_Name a);
  al_url : col row "agency_url" = Some (ta_URL a);
  al_timezone : col row "agency_timezone" = Some (ta_Timezone a);
  al_lang : col row "agency_lang" = Some (ta_Lang a);
  al_phone : col row "agency_phone" = Some (ta_Phone a);
}.
Record route_line (o : TransitRoute) (row : list (string * string)) : Prop := {
  rl_id : col row "route_id" = Some (ro_RouteID o);
  rl_agency : col row "agency_id" = Some (ro_AgencyID o);
  rl_short : col row "route_short_name" = Some (ro_ShortName o);
  rl_long : col row "route_long_name" = Some (ro_LongName o);
  rl_type : col row "route_type" ≫= read_int = Some (ro_RouteType o);
}.
Record stop_line (s : TransitStop) (row : list (string * string)) : Prop := {
  sl_id : col row "stop_id" = Some (sp_StopID s);
  sl_name : col row "stop_name" = Some (sp_Name s);
  sl_lat : col row "stop_lat" ≫= read_micros = Some (sp_LatitudeMicros s);
  sl_lon : col row "stop_lon" ≫= read_micros = Some (sp_LongitudeMicros s);
  sl_zone : col row "zone_id" = Some (sp_ZoneID s);
}.
Record trip_line (t : TransitTrip) (row : list (string * string)) : Prop := {
  tl_route : col row "route_id" = Some (tp_RouteID t);
  tl_service : col row "service_id" = Some (tp_ServiceID t);
  tl_id : col row "trip_id" = Some (tp_TripID t);
  tl_headsign : col row "trip_headsign" = Some (tp_Headsign t);
  tl_direction : col row "direction_id" ≫= read_optional = Some (tp_DirectionID t);
}.
Record stop_time_line (t : TransitStopTime) (row : list (string * string)) : Prop := {
  xl_trip : col row "trip_id" = Some (stm_TripID t);
  xl_arrival : col row "arrival_time" ≫= read_hms = Some (stm_ArrivalSeconds t);
  xl_departure : col row "departure_time" ≫= read_hms = Some (stm_DepartureSeconds t);
  xl_stop : col row "stop_id" = Some (stm_StopID t);
  xl_sequence : col row "stop_sequence" ≫= read_int = Some (stm_StopSequence t);
}.
Definition weekday_names : list string := ["monday"; "tuesday"; "wednesday"; "thursday"; "friday"; "saturday"; "sunday"].
Record calendar_line (c : TransitCalendar) (row : list (string * string)) : Prop := {
  cl_id : col row "service_id" = Some (cal_ServiceID c);
  cl_days : mapM (λ day, col row day ≫= read_flag) weekday_names = Some (cal_Weekdays c);
  cl_start : col row "start_date" ≫= read_date = Some (date_of_instant (cal_StartDate c));
  cl_end : col row "end_date" ≫= read_date = Some (date_of_instant (cal_EndDate c));
}.

(** The archive says what the registry says. *)
Record says (files : list (string * string)) (r : TransitRegistry) : Prop := {
  says_names : files.*1 = ["agency.txt"; "calendar.txt"; "routes.txt"; "stop_times.txt"; "stops.txt"; "trips.txt"];
  says_agencies : Forall2 agency_line (Agencies r) (lines files "agency.txt");
  says_routes : Forall2 route_line (filter (λ o, ro_Active o = true) (Routes r)) (lines files "routes.txt");
  says_stops : Forall2 stop_line (Stops r) (lines files "stops.txt");
  says_trips : Forall2 trip_line (Trips r) (lines files "trips.txt");
  says_times : Forall2 stop_time_line (StopTimes r) (lines files "stop_times.txt");
  says_calendars : Forall2 calendar_line (Calendars r) (lines files "calendar.txt");
}.
(** Every reference of the archive resolves inside the archive. *)
Record closed_feed (files : list (string * string)) : Prop := {
  cf_route_agency : column files "routes.txt" "agency_id" ⊆ column files "agency.txt" "agency_id";
  cf_trip_route : column files "trips.txt" "route_id" ⊆ column files "routes.txt" "route_id";
  cf_trip_service : column files "trips.txt" "service_id" ⊆ column files "calendar.txt" "service_id";
  cf_trip_timed : column files "trips.txt" "trip_id" ⊆ column files "stop_times.txt" "trip_id";
  cf_time_trip : column files "stop_times.txt" "trip_id" ⊆ column files "trips.txt" "trip_id";
  cf_time_stop : column files "stop_times.txt" "stop_id" ⊆ column files "stops.txt" "stop_id";
}.
(** Ranges of the columns of migration 0009 and of the dates the format can write. *)
Record presentable (r : TransitRegistry) : Prop := {
  pr_times : Forall (λ t, 0 ≤ stm_ArrivalSeconds t ∧ 0 ≤ stm_DepartureSeconds t) (StopTimes r);
  pr_days : Forall (λ c, length (cal_Weekdays c) = 7%nat) (Calendars r);
  pr_dates : Forall (λ c, 0 ≤ time_Year (cal_StartDate c) ≤ 9999 ∧ 0 ≤ time_Year (cal_EndDate c) ≤ 9999) (Calendars r);
}.

(** ** The texts read back *)

Lemma read_digits_show z : 0 ≤ z → read_digits (show_dec z) = Some z.
Proof.
  intros Hz. destruct (show_dec_spec z Hz) as [Hv Hd]. unfold read_digits.
  destruct (String.eqb_spec (show_dec z) ""); [by destruct (show_dec_nonempty z)|]. by rewrite Hd, Hv.
Qed.
Lemma show_dec_unsigned z : 0 ≤ z → strip_prefix "-" (show_dec z) = None.
Proof.
  intros Hz. rewrite <- (string_app_nil_r (show_dec z)).
  apply digits_no_minus; [by apply show_dec_spec|apply show_dec_nonempty].
Qed.
Lemma read_int_show z : read_int (show_Z z) = Some z.
Proof.
  unfold show_Z, read_int. destruct (z <? 0) eqn:E; bool_to_prop.
  - rewrite strip_minus, read_digits_show by lia. cbn. f_equal. lia.
  - by rewrite show_dec_unsigned, read_digits_show.
Qed.
Lemma read_optional_show (d : option Z) : read_optional (match d with Some d => show_Z d | None => "" end) = Some d.
Proof.
  destruct d as [d|]; [|done]. unfold read_optional. destruct (String.eqb_spec (show_Z d) "") as [E|].
  - pose proof (read_int_show d) as H. by rewrite E in H.
  - by rewrite read_int_show.
Qed.
Lemma read_flag_render b : read_flag (renderBool b) = Some b.
Proof. by destruct b. Qed.

Lemma cut_at_digits w rest : all_chars is_digit w = true → cut_at colon (w +:+ ":" +:+ rest) = Some (w, rest).
Proof.
  induction w as [|c w IH]; [done|]. cbn [all_chars]. intros [Hc Hw]%andb_true_iff.
  change (String c w +:+ ":" +:+ rest) with (String c (w +:+ ":" +:+ rest)). cbn [cut_at].
  destruct (Ascii.eqb_spec c colon) as [->|]; [done|]. by rewrite IH.
Qed.
Lemma fmt_02d_digits z : 0 ≤ z → read_digits (fmt_02d z) = Some z ∧ all_chars is_digit (fmt_02d z) = true.
Proof.
  intros Hz. unfold fmt_02d. rewrite (proj2 (Z.leb_le 0 z)) by done. cbn [andb].
  destruct (z <? 100) eqn:E; bool_to_prop.
  - destruct (show_pad_spec 2 z) as (Hv & Hd & Hl); [lia|]. unfold read_digits. rewrite Hd, Hv.
    split; [|done]. by destruct (show_pad 2 z).
  - unfold show_Z. rewrite (proj2 (Z.ltb_ge z 0)) by done. split; [by apply read_digits_show|by apply show_dec_spec].
Qed.
Lemma fmt_02d_two z : 0 ≤ z < 60 → digits_exactly 2 (fmt_02d z) = true ∧ dec_value (fmt_02d z) = z ∧ all_chars is_digit (fmt_02d z) = true.
Proof.
  intros Hz. unfold fmt_02d. rewrite (proj2 (Z.leb_le 0 z)), (proj2 (Z.ltb_lt z 100)) by lia.
  destruct (show_pad_spec 2 z) as (Hv & Hd & Hl); [lia|]. unfold digits_exactly. cbn [andb]. rewrite Hl, Hd. done.
Qed.
Lemma read_hms_render s : 0 ≤ s → read_hms (renderHMS s) = Some s.
Proof.
  intros Hs. unfold renderHMS, read_hms. pose proof (Z.mod_pos_bound s 3600) as Hr.
  rewrite !Z.rem_mod_nonneg, !Z.quot_div_nonneg by lia.
  destruct (fmt_02d_digits (s / 3600)) as [Hh Hhd]; [apply Z.div_pos; lia|].
  destruct (fmt_02d_two (s mod 3600 / 60)) as (Hm & Hmv & Hmd).
  { split; [apply Z.div_pos; lia|apply Z.div_lt_upper_bound; lia]. }
  destruct (fmt_02d_two (s mod 60)) as (Hx & Hxv & Hxd); [apply Z.mod_pos_bound; lia|].
  rewrite (cut_at_digits _ _ Hhd). cbn [mbind option_bind]. rewrite (cut_at_digits _ _ Hmd). cbn [mbind option_bind].
  rewrite Hh. cbn [mbind option_bind]. rewrite Hm, Hx, Hmv, Hxv. cbn [andb]. f_equal.
  Z.to_euclidean_division_equations. lia.
Qed.

Lemma dec_value_from_app acc s t : dec_value_from acc (s +:+ t) = dec_value_from (dec_value_from acc s) t.
Proof. revert acc. induction s as [|c s IH]; intros acc; [done|]. apply IH. Qed.
Lemma dec_value_from_shift acc s : dec_value_from acc s = acc * 10 ^ Z.of_nat (String.length s) + dec_value s.
Proof.
  unfold dec_value. revert acc. induction s as [|c s IH]; intros acc; [simpl; lia|].
  cbn [dec_value_from String.length]. rewrite (IH (acc * 10 + _)), (IH (0 * 10 + _)), Nat2Z.inj_succ, Z.pow_succ_r by lia. lia.
Qed.
Lemma read_date_format t : 0 ≤ time_Year t ≤ 9999 → read_date (format_compact t) = Some (date_of_instant t).
Proof.
  unfold time_Year, format_compact, read_date, date_of_instant. intros Hy.
  pose proof (civil_from_days_spec (t / day)) as Hc. destruct (civil_from_days (t / day)) as [y m d]. cbn [c_year c_month c_day] in *.
  assert (1 ≤ m ≤ 12 ∧ 1 ≤ d ≤ 31) as [Hm Hd].
  { destruct Hc as (_ & Hm & Hd). split; [lia|]. unfold days_in in Hd. repeat case_match; lia. }
  unfold show_year. rewrite (proj2 (Z.ltb_ge y 0)), (proj2 (Z.ltb_lt y 10000)) by lia.
  destruct (show_pad_spec 4 y) as (Hyv & Hyd & Hyl); [lia|].
  destruct (show_pad_spec 2 m) as (Hmv & Hmd & Hml); [lia|]. destruct (show_pad_spec 2 d) as (Hdv & Hdd & Hdl); [lia|].
  unfold digits_exactly. rewrite !all_chars_app, !string_length_app, Hyd, Hmd, Hdd, Hyl, Hml, Hdl. cbn [andb Nat.add Nat.eqb].
  unfold dec_value at 1 2 3. rewrite !dec_value_from_app, (dec_value_from_shift _ (show_pad 2 d)), (dec_value_from_shift _ (show_pad 2 m)), Hml, Hdl, Hmv, Hdv.
  change (dec_value_from 0 (show_pad 4 y)) with (dec_value (show_pad 4 y)). rewrite Hyv. change (10 ^ Z.of_nat 2) with 100.
  do 2 f_equal; Z.to_euclidean_division_equations; lia.
Qed.

(** ** The archive read back *)

Lemma table_lines {A} (line : A → list (string * string) → Prop) header (f : A → list string) xs :
  header ≠ [] → Forall (λ x, length (f x) = length header ∧ line x (zip header (f x))) xs →
  ∃ rows, named_rows (renderCSV header (f <$> xs)) = Some rows ∧ Forall2 line xs rows.
Proof.
  intros Hh Hxs. exists (zip header <$> (f <$> xs)). unfold named_rows. rewrite read_renderCSV; [|done|].
  - assert (forallb (λ row, (length row =? length header)%nat) (f <$> xs) = true) as ->.
    { apply forallb_forall. intros row Hr. apply list_elem_of_In, list_elem_of_fmap in Hr as (x & -> & Hx).
      rewrite Forall_forall in Hxs. apply Nat.eqb_eq, Hxs, Hx. }
    split; [done|]. rewrite <- list_fmap_compose. induction Hxs as [|x xs [_ Hx] _ IH]; constructor; done.
  - apply Forall_fmap. eapply Forall_impl; [exact Hxs|]. intros x [Hl _]. cbn. by destruct (f x), header.
Qed.
Lemma lines_entry files name text rows : entry files name = Some text → named_rows text = Some rows → lines files name = rows.
Proof. intros He Hn. unfold lines. rewrite He. cbn. by rewrite Hn. Qed.
Lemma filter_active l : List.filter ro_Active l = filter (λ o, ro_Active o = true) l.
Proof. induction l as [|o l IH]; [done|]. rewrite filter_cons. cbn [List.filter]. rewrite IH. destruct (ro_Active o); by case_decide. Qed.

Lemma sorted_entries (a b c d e f : string) :
  sort_by fst [("agency.txt", a); ("routes.txt", b); ("stops.txt", c); ("trips.txt", d); ("stop_times.txt", e); ("calendar.txt", f)] =
    [("agency.txt", a); ("calendar.txt", f); ("routes.txt", b); ("stop_times.txt", e); ("stops.txt", c); ("trips.txt", d)].
Proof. reflexivity. Qed.

Lemma seven_days {A} (l : list A) : length l = 7%nat → ∃ a b c d e f g, l = [a; b; c; d; e; f; g].
Proof. do 7 (destruct l as [|? l]; [done|]). destruct l; [|done]. intros _. by repeat eexists. Qed.

Lemma archive_says r files : presentable r → renderFiles r = Ok files → says (sort_by fst files) r.
Proof.
  intros [Hts Hdays Hdates] Hf. unfold renderFiles in Hf. destruct (integrity r); [done|]. injection Hf as <-.
  unfold tables_of. cbn [fmap list_fmap fst snd]. rewrite sorted_entries.
  unfold agency_rows, route_rows, stop_rows, trip_rows, stop_time_rows, calendar_rows. rewrite filter_active.
  split; [done|..].
  - edestruct (table_lines agency_line) as (rows & Hn & Hr); cycle 2; [by erewrite lines_entry by done|done|].
    apply Forall_forall. intros a _. split; [done|]. split; reflexivity.
  - edestruct (table_lines route_line) as (rows & Hn & Hr); cycle 2; [by erewrite lines_entry by done|done|].
    apply Forall_forall. intros a _. split; [done|]. split; try reflexivity. apply read_int_show.
  - edestruct (table_lines stop_line) as (rows & Hn & Hr); cycle 2; [by erewrite lines_entry by done|done|].
    apply Forall_forall. intros a _. split; [done|]. split; try reflexivity; apply renderMicros_roundtrip.
  - edestruct (table_lines trip_line) as (rows & Hn & Hr); cycle 2; [by erewrite lines_entry by done|done|].
    apply Forall_forall. intros a _. split; [done|]. split; try reflexivity. apply read_optional_show.
  - edestruct (table_lines stop_time_line) as (rows & Hn & Hr); cycle 2; [by erewrite lines_entry by done|done|].
    eapply Forall_impl; [exact Hts|]. intros t [Ha Hd]. split; [done|].
    split; try reflexivity; [by apply read_hms_render|by apply read_hms_render|apply read_int_show].
  - edestruct (table_lines calendar_line) as (rows & Hn & Hr); cycle 2; [by erewrite lines_entry by done|done|].
    apply Forall_forall. intros c Hc. rewrite Forall_forall in Hdays, Hdates. specialize (Hdates c Hc) as [H1 H2].
    destruct (seven_days _ (Hdays c Hc)) as (d1 & d2 & d3 & d4 & d5 & d6 & d7 & Ew). rewrite Ew. split; [done|].
    split; [reflexivity| |by apply read_date_format|by apply read_date_format].
    rewrite Ew. cbn [fmap list_fmap app zip_with mapM weekday_names]. by destruct d1, d2, d3, d4, d5, d6, d7.
Qed.
Lemma column_keys {A} (line : A → list (string * string) → Prop) (key : A → string) files name c xs :
  (∀ x row, line x row → col row c = Some (key x)) → Forall2 line xs (lines files name) → column files name c = key <$> xs.
Proof. unfold column. intros Hk. induction 1 as [|x row xs rows Hx _ IH]; [done|]. cbn. rewrite (Hk _ _ Hx). cbn. by rewrite IH. Qed.

Lemma archive_closed r files :
  says files r → consistent r → (∀ t, t ∈ Trips r → ∃ o, o ∈ Routes r ∧ ro_RouteID o = tp_RouteID t ∧ ro_Active o = true) → closed_feed files.
Proof.
  intros [_ Ha Ho Hp Ht Hx Hc] [C1 C2 C3 _] Hactive.
  split; intros id;
    rewrite ?(column_keys _ _ _ _ _ _ al_id Ha), ?(column_keys _ _ _ _ _ _ rl_id Ho), ?(column_keys _ _ _ _ _ _ rl_agency Ho),
      ?(column_keys _ _ _ _ _ _ sl_id Hp), ?(column_keys _ _ _ _ _ _ tl_id Ht), ?(column_keys _ _ _ _ _ _ tl_route Ht),
      ?(column_keys _ _ _ _ _ _ tl_service Ht), ?(column_keys _ _ _ _ _ _ xl_trip Hx), ?(column_keys _ _ _ _ _ _ xl_stop Hx),
      ?(column_keys _ _ _ _ _ _ cl_id Hc); intros (x & -> & Hin)%list_elem_of_fmap.
  - apply list_elem_of_filter in Hin as [_ Hin]. by apply C3.
  - destruct (Hactive x Hin) as (o & Hor & <- & Hact). by apply list_elem_of_fmap_2, list_elem_of_filter.
  - by apply C2.
  - by apply C2.
  - by apply C1.
  - by apply C1.
Qed.

(** C16: The archive says what the registry says, or is not built.  For a zip library whose
    reader gives back the entries of its writer, and a snapshot in the ranges of the schema
    whose trips run on active routes: [BuildStaticZip] fails exactly when a reference of the
    registry does not resolve, a trip has no stop time or goes back in time (or the zip
    writer fails); a payload it returns unzips to the six files of GTFS, every row of which,
    read by an independent CSV reader under the column names of the header, has exactly the
    texts, numbers, coordinates, times, weekdays and dates of the row of the registry it
    stands for, whatever commas, quotes and line breaks the texts contain; every reference
    of the archive resolves inside the archive; and the entity tag is the quoted SHA-256 of
    the payload. *)
Theorem static_feed_reads_back (zip_bytes : list (string * string) → option (list Z))
  (unzip : list Z → option (list (string * string))) (r : TransitRegistry)
  (Hzip : ∀ entries payload, zip_bytes entries = Some payload → unzip payload = Some entries)
  (Hrange : presentable r)
  (Hactive : ∀ t, t ∈ Trips r → ∃ o, o ∈ Routes r ∧ ro_RouteID o = tp_RouteID t ∧ ro_Active o = true) :
  match BuildStaticZip zip_bytes r with
  | Ok (payload, etag) =>
      consistent r ∧ etag = String quote (hex_encode (sha256 payload) +:+ String quote "") ∧
      ∃ files, unzip payload = Some files ∧ says files r ∧ closed_feed files
  | Err ZipFailed => consistent r ∧ ∃ entries, zip_bytes entries = None
  | Err _ => ¬ consistent r
  end.
Proof.
  unfold BuildStaticZip. destruct (renderFiles r) as [files|e] eqn:Ef; cbn [mbind result_bind].
  - assert (consistent r) as Hc.
    { apply integrity_None. unfold renderFiles in Ef. by destruct (integrity r). }
    apply archive_says in Ef; [|done]. destruct (zip_bytes _) as [payload|] eqn:Ez; [|by eauto].
    split_and!; [done..|]. exists (sort_by fst files). split; [by apply Hzip|]. split; [done|]. by eapply archive_closed.
  - assert (integrity r = Some e) as Hi by (unfold renderFiles in Ef; destruct (integrity r); by simplify_eq).
    assert (¬ consistent r) as Hn by (intros Hc%integrity_None; congruence).
    destruct e; try done. exfalso. by apply integrity_not_zip in Hi.
Qed.

(** An archive that is only encoded. *)
Definition packed (entries : list (string * string)) : option (list Z) := Some [Zpos (encode entries)].
Definition unpacked (payload : list Z) : option (list (string * string)) :=
  match payload with [Zpos p] => decode p | _ => None end.
Definition ferry_registry : TransitRegistry :=
  mkRegistry [mkAgency "niwa" "niwa" "Waterways, Inland" "https://niwa.example" "Africa/Lagos" "en" ""]
    [mkRoute "R-1" "niwa" "niwa" "F1" "" 4 8000 true]
    [mkStop "J-1" "niwa" "Marina Jetty" 6450000 3400000 ""; mkStop "J-2" "niwa" "Falomo" (-5) 3430001 "Z"]
    [mkCalendar "WEEK" "niwa" [true; true; true; true; true; false; false] 0 (365 * day)]
    [mkTrip "T-1" "niwa" "R-1" "WEEK" "Falomo" None] [mkStopTime "T-1" 1 "J-1" 28800 28860; mkStopTime "T-1" 2 "J-2" 90061 90061] [].

Lemma static_feed_reads_back_witness :
  match BuildStaticZip packed ferry_registry with
  | Ok (payload, etag) =>
      consistent ferry_registry ∧ etag = String quote (hex_encode (sha256 payload) +:+ String quote "") ∧
      ∃ files, unpacked payload = Some files ∧ says files ferry_registry ∧ closed_feed files
  | Err _ => False
  end.
Proof.
  assert (∃ out, BuildStaticZip packed ferry_registry = Ok out) as [[payload etag] E].
  { unfold BuildStaticZip. assert (renderFiles ferry_registry = Ok (default [] (match renderFiles ferry_registry with Ok f => Some f | Err _ => None end)))
      as -> by (vm_compute; reflexivity). cbn [mbind result_bind packed]. by eexists. }
  pose proof (static_feed_reads_back packed unpacked ferry_registry) as H. rewrite E in H |- *. apply H.
  - intros entries p [= <-]. unfold unpacked. apply decode_encode.
  - split; repeat constructor; vm_compute; discriminate.
  - intros t ->%list_elem_of_singleton. exists (mkRoute "R-1" "niwa" "niwa" "F1" "" 4 8000 true). split; [left|done].
Defined.
