(* ===== verification/GtfsFeed.v ===== *)
(** * The realtime feeds

    [internal/gtfsrt/feed.go]: vehicle positions, trip updates and alerts from the registry
    of a tenant and the shared positions.  A feed is the message that is marshalled; the
    encoder is a parameter of the handlers.  Time zones are an interface; spans and the
    duration of a build are not part of the model. *)
From S2P Require Import Prelude GoTime GoParse GoFloat Track Types Effects Store Transit Eta.
From Stdlib Require Import SpecFloat.

(** ** Configuration *)

Record Config := mkConfig {
  StaleAfter : Z; SnapMaxMeters : float64; StopArriveMeters : float64; StopSpeedMilliknots : Z; ETAMinSpeedMilliknots : Z;
  SpeedSampleCount : Z; TripMatchPreSlack : Z; TripMatchPostSlack : Z }.
Definition withDefaults (c : Config) : Config :=
  mkConfig (if StaleAfter c <=? 0 then 120 * second else StaleAfter c)
    (if f_le (SnapMaxMeters c) f_zero then f_of_Z 200 else SnapMaxMeters c)
    (if f_le (StopArriveMeters c) f_zero then f_of_Z 20 else StopArriveMeters c)
    (if StopSpeedMilliknots c =? 0 then 500 else StopSpeedMilliknots c)
    (if ETAMinSpeedMilliknots c =? 0 then 1000 else ETAMinSpeedMilliknots c)
    (if SpeedSampleCount c <=? 0 then 5 else SpeedSampleCount c)
    (if TripMatchPreSlack c <=? 0 then 15 * (60 * second) else TripMatchPreSlack c)
    (if TripMatchPostSlack c <=? 0 then 30 * (60 * second) else TripMatchPostSlack c).

(** ** Messages *)

Definition float32 : Type := spec_float.
Definition f32_of_Z (z : Z) : float32 := binary_normalize 24 128 z 0 false.
Definition f32_div : float32 → float32 → float32 := SFdiv 24 128.
(** [float32(x)] of a float64. *)
Definition f32_of_f64 (x : float64) : float32 :=
  match x with S754_finite s m e => binary_normalize 24 128 (if s then Zneg m else Zpos m) e s | _ => x end.

Inductive stop_status := STOPPED_AT | IN_TRANSIT_TO.
Record TripDescriptor := mkTripDescriptor { td_TripId : option string; td_RouteId : string; td_Scheduled : bool }.
Record VehiclePosition := mkVehiclePosition {
  vp_VehicleId : string; vp_Latitude : float32; vp_Longitude : float32; vp_Bearing : option float32; vp_Speed : option float32;
  vp_Timestamp : Z; vp_Trip : option TripDescriptor; vp_Stop : option (Z * string * stop_status) }.
(** The delays of arrival and departure against the schedule; both predict the same time. *)
Record StopTimeUpdate := mkStopTimeUpdate {
  su_StopSequence : Z; su_StopId : string; su_ArrivalDelay : Z; su_DepartureDelay : Z; su_Time : Z; su_Uncertainty : Z }.
Record TripUpdate := mkTripUpdate { tu_Trip : TripDescriptor; tu_VehicleId : string; tu_Timestamp : Z; tu_StopTimeUpdates : list StopTimeUpdate }.
Record AlertMessage := mkAlertMessage {
  am_Cause : string; am_Effect : string; am_RouteId : option string; am_StopId : option string; am_Start : option Z; am_End : option Z;
  am_Header : string; am_Description : option string; am_Url : option string }.
Inductive entity_content := EVehicle (v : VehiclePosition) | ETripUpdate (t : TripUpdate) | EAlert (a : AlertMessage).
Record FeedEntity := mkEntity { fe_Id : string; fe_Content : entity_content }.
(** The header has version 2.0 and is a full dataset. *)
Record FeedMessage := mkFeed { fm_Timestamp : Z; fm_Entities : list FeedEntity }.
Definition Unix (t : Z) : Z := t / second.

(** ** Plans *)

Record stopVisit := mkVisit { vi_stopTime : TransitStopTime; vi_stop : TransitStop }.
Record tripPlan := mkTripPlan { pl_trip : TransitTrip; pl_visits : list stopVisit; pl_path : RoutePath }.
Record routePlan := mkRoutePlan { rp_route : TransitRoute; rp_agency : option TransitAgency; rp_trips : list tripPlan }.
Definition index {A} (key : A → string) (l : list A) : gmap string A := fold_left (λ m x, <[key x := x]> m) l ∅.
Definition stop_coord (s : TransitStop) : Coord := mkCoord (sp_LatitudeMicros s) (sp_LongitudeMicros s).

Record location := mkLocation { loc_civil : Z → civil; loc_Date : civil → Z }.
Definition UTC : location := mkLocation date_of_instant (λ c, time_Date (c_year c) (c_month c) (c_day c)).

Section feeds.
Context `{Math} (int64_overflow : float64 → Z) (LoadLocation : string → option location).
Context (text_le : relation string) `{∀ a b, Decision (text_le a b)}.
Context (config : Config).

Definition plan_trip (r : TransitRegistry) (trip : TransitTrip) : option tripPlan :=
  match List.filter (λ t, String.eqb (stm_TripID t) (tp_TripID trip)) (StopTimes r) with
  | [] => None
  | times =>
      visits ← mapM (λ t, s ← index sp_StopID (Stops r) !! stm_StopID t; Some (mkVisit t s)) times;
      Some (mkTripPlan trip visits (NewRoutePath (stop_coord ∘ vi_stop <$> visits)))
  end.
Definition plan_route (r : TransitRegistry) (route : TransitRoute) : routePlan :=
  mkRoutePlan route (index ta_AgencyID (Agencies r) !! ro_AgencyID route)
    (omap (plan_trip r) (List.filter (λ t, String.eqb (tp_RouteID t) (ro_RouteID route)) (Trips r))).
Definition buildPlans (r : TransitRegistry) : gmap string routePlan * gmap string TransitCalendar :=
  (plan_route r <$> index ro_RouteID (List.filter ro_Active (Routes r)), index cal_ServiceID (Calendars r)).

(** ** The schedule of a day *)

Definition location_of (agency : option TransitAgency) : location :=
  match agency with Some a => default UTC (LoadLocation (ta_Timezone a)) | None => UTC end.
Definition serviceMidnight (agency : option TransitAgency) (now : Z) : Z :=
  let l := location_of agency in loc_Date l (loc_civil l now).
Definition civil_text (c : civil) : string := show_year (c_year c) +:+ "-" +:+ show_pad 2 (c_month c) +:+ "-" +:+ show_pad 2 (c_day c).
(** Monday is 0; the first of January 1970 was a Thursday. *)
Definition weekday_index (c : civil) : nat := Z.to_nat ((days_from_civil (c_year c) (c_month c) (c_day c) + 3) mod 7).
Definition calendarActiveOn (calendar : TransitCalendar) (l : location) (midnight : Z) : bool :=
  let day := loc_civil l midnight in
  if String.ltb (civil_text day) (format_date (cal_StartDate calendar)) || String.ltb (format_date (cal_EndDate calendar)) (civil_text day)
  then false else nth (weekday_index day) (cal_Weekdays calendar) false.
Definition at_seconds (midnight seconds : Z) : Z := midnight + seconds * second.
Definition trip_window (calendars : gmap string TransitCalendar) (l : location) (midnight : Z) (p : tripPlan) : option TripWindow :=
  match calendars !! tp_ServiceID (pl_trip p), pl_visits p with
  | Some calendar, first :: rest =>
      if calendarActiveOn calendar l midnight
      then Some (mkTripWindow (tp_TripID (pl_trip p)) (at_seconds midnight (stm_DepartureSeconds (vi_stopTime first)))
                   (at_seconds midnight (stm_ArrivalSeconds (vi_stopTime (List.last rest first)))))
      else None
  | _, _ => None
  end.
Definition tripWindows (plan : routePlan) (calendars : gmap string TransitCalendar) (now : Z) : list TripWindow :=
  omap (trip_window calendars (location_of (rp_agency plan)) (serviceMidnight (rp_agency plan) now)) (rp_trips plan).
Definition matchAssignmentTrip (plan : routePlan) (calendars : gmap string TransitCalendar) (now : Z) : option tripPlan :=
  window ← MatchTrip (tripWindows plan calendars now) now (TripMatchPreSlack config) (TripMatchPostSlack config);
  List.find (λ p, String.eqb (tp_TripID (pl_trip p)) (tw_TripID window)) (rp_trips plan).

Definition valid_now (now : Z) (a : RouteVessel) : bool :=
  match rv_ValidFrom a with Some f => negb (now <? f) | None => true end && match rv_ValidTo a with Some t => now <? t | None => true end.
Definition activeAssignments (r : TransitRegistry) (plans : gmap string routePlan) (now : Z) : list RouteVessel :=
  List.filter (λ a, bool_decide (is_Some (plans !! rv_RouteID a)) && valid_now now a) (Assignments r).

(** ** Positions *)

Definition count (name label : string) (n : Z) : IO unit :=
  modify (λ w, mkTransitWorld (tw_db w) (tw_plane w) (tw_now w) (tw_counts w ++ [(name, label, n)])).
Definition fresh_position (positions : gmap string LatestPosition) (now : Z) (a : RouteVessel) : result string LatestPosition :=
  match positions !! rv_MMSI a with
  | None => Err "no_position"
  | Some p => if StaleAfter config <? time_Sub now (lp_ObservedAt p) then Err "stale" else Ok p
  end.
Fixpoint keep_fresh (positions : gmap string LatestPosition) (now : Z) (feedName : string) (assignments : list RouteVessel)
  (fresh : gmap string LatestPosition) : IO (gmap string LatestPosition) :=
  match assignments with
  | [] => mret fresh
  | a :: rest =>
      match fresh_position positions now a with
      | Err reason => _ ← count "geo_gtfsrt_entities_omitted_total" (feedName +:+ ":" +:+ reason) 1; keep_fresh positions now feedName rest fresh
      | Ok p => keep_fresh positions now feedName rest (<[rv_MMSI a := p]> fresh)
      end
  end.
Definition freshPositions (assignments : list RouteVessel) (clearedLabels : list string) (now : Z) (feedName : string) :
  IO (gmap string LatestPosition) :=
  positions ← LatestPositionsByMMSI (rv_MMSI <$> assignments) clearedLabels;
  keep_fresh positions now feedName assignments ∅.

(** ** Attribution *)

Definition abs64 (value : float64) : float64 := if f_lt value f_zero then f_neg value else value.
Fixpoint nearest_stop (i : nat) (cumulative : list float64) (progress : float64) (best : nat * float64) : nat :=
  match cumulative with
  | [] => best.1
  | c :: cs => let d := abs64 (f_sub c progress) in nearest_stop (S i) cs progress (if f_lt d best.2 then (i, d) else best)
  end.
Fixpoint first_ahead (visits : list stopVisit) (cumulative : list float64) (progress : float64) : option stopVisit :=
  match visits, cumulative with
  | v :: vs, c :: cs => if f_lt f_zero (f_sub c progress) then Some v else first_ahead vs cs progress
  | _, _ => None
  end.
Definition attributed_to (v : stopVisit) (status : stop_status) : Z * string * stop_status :=
  (uint32 (stm_StopSequence (vi_stopTime v)), sp_StopID (vi_stop v), status).
(** A plan has at least one visit. *)
Definition stopAttribution (p : tripPlan) (vessel : Coord) (speedMilliknots : option Z) : option (Z * string * stop_status) :=
  let '(progress, offRoute) := Snap (pl_path p) vessel in
  if f_lt (SnapMaxMeters config) offRoute then None
  else
    nearest ← pl_visits p !! nearest_stop 0 (Cumulative (pl_path p)) progress (0%nat, Total (pl_path p));
    if match speedMilliknots with Some s => s <? StopSpeedMilliknots config | None => false end
       && f_le (haversineMeters vessel (stop_coord (vi_stop nearest))) (StopArriveMeters config)
    then Some (attributed_to nearest STOPPED_AT)
    else (λ v, attributed_to v IN_TRANSIT_TO) <$> first_ahead (pl_visits p) (Cumulative (pl_path p)) progress.

(** ** Vehicle positions *)

Definition position_coord (p : LatestPosition) : Coord := mkCoord (lp_LatitudeMicros p) (lp_LongitudeMicros p).
Definition vehicle_position (plans : gmap string routePlan) (calendars : gmap string TransitCalendar) (now : Z) (a : RouteVessel)
  (p : LatestPosition) : VehiclePosition :=
  let matched := plan ← plans !! rv_RouteID a; matchAssignmentTrip plan calendars now in
  mkVehiclePosition (rv_MMSI a) (f32_div (f32_of_Z (lp_LatitudeMicros p)) (f32_of_Z 1000000))
    (f32_div (f32_of_Z (lp_LongitudeMicros p)) (f32_of_Z 1000000))
    ((λ c, f32_div (f32_of_Z c) (f32_of_Z 1000)) <$> lp_Course p)
    ((λ s, f32_of_f64 (milliknotsToMetersPerSecond (f_of_Z s))) <$> lp_Speed p)
    (uint64 (Unix (lp_ObservedAt p)))
    (match plans !! rv_RouteID a with
     | Some _ => Some (mkTripDescriptor (tp_TripID ∘ pl_trip <$> matched) (rv_RouteID a) false)
     | None => None
     end)
    (plan ← matched; stopAttribution plan (position_coord p) (lp_Speed p)).
Definition vehicle_entity (plans : gmap string routePlan) (calendars : gmap string TransitCalendar) (fresh : gmap string LatestPosition)
  (now : Z) (a : RouteVessel) : option FeedEntity :=
  (λ p, mkEntity ("vp:" +:+ rv_MMSI a) (EVehicle (vehicle_position plans calendars now a p))) <$> fresh !! rv_MMSI a.

Definition recordBuild (feedName : string) (emitted : nat) : IO unit :=
  _ ← count "geo_feed_build_total" feedName 1; count "geo_gtfsrt_entities_emitted_total" feedName (Z.of_nat emitted).
Definition build_error {A} (feedName : string) (m : IO A) : IO A :=
  r ← attempt m;
  match r with Ok a => mret a | Err e => _ ← count "geo_feed_build_errors_total" feedName 1; fail e end.
Definition BuildVehiclePositions (started : Z) (tenantID : string) (clearedLabels : list string) : IO FeedMessage :=
  registry ← build_error "vehiclepositions" (LoadTransitRegistry text_le tenantID);
  let '(plans, calendars) := buildPlans registry in
  let assignments := activeAssignments registry plans started in
  fresh ← build_error "vehiclepositions" (freshPositions assignments clearedLabels started "vehiclepositions");
  let entities := omap (vehicle_entity plans calendars fresh started) assignments in
  _ ← recordBuild "vehiclepositions" (length entities);
  mret (mkFeed (uint64 (Unix started)) entities).

(** ** Trip updates *)

Definition stop_update (p : tripPlan) (midnight uncertainty : Z) (e : StopETA) : option StopTimeUpdate :=
  v ← pl_visits p !! eta_StopIndex e;
  let arrival := at_seconds midnight (stm_ArrivalSeconds (vi_stopTime v)) in
  let departure := at_seconds midnight (stm_DepartureSeconds (vi_stopTime v)) in
  Some (mkStopTimeUpdate (uint32 (stm_StopSequence (vi_stopTime v))) (sp_StopID (vi_stop v))
          (int32 (Unix (eta_ETA e) - Unix arrival)) (int32 (Unix (eta_ETA e) - Unix departure)) (Unix (eta_ETA e)) uncertainty).
(** The speed to predict with, its uncertainty and the mode; [None] when the vessel is not
    moving. *)
Definition prediction_speed (route : TransitRoute) (samples : list Z) : option (float64 * Z * string) :=
  let '(median, observed) := MedianMilliknots samples in
  if negb observed then Some (f_of_Z (ro_DefaultSpeedMilliknots route), 300, "scheduled_fallback")
  else if f_lt median (f_of_Z (ETAMinSpeedMilliknots config)) then None
  else Some (median, 60, "live").
Definition trip_update (a : RouteVessel) (position : LatestPosition) (p : tripPlan) (progress speed : float64) (midnight now uncertainty : Z) :
  TripUpdate :=
  mkTripUpdate (mkTripDescriptor (Some (tp_TripID (pl_trip p))) (rv_RouteID a) true) (rv_MMSI a) (uint64 (Unix (lp_ObservedAt position)))
    (omap (stop_update p midnight uncertainty)
       (ComputeETAs int64_overflow (pl_path p) progress (milliknotsToMetersPerSecond speed) now)).
Definition omitted (reason : string) : IO (option FeedEntity) := _ ← count "geo_gtfsrt_eta_omitted_total" reason 1; mret None.
Definition update_entity (plans : gmap string routePlan) (calendars : gmap string TransitCalendar) (fresh : gmap string LatestPosition)
  (clearedLabels : list string) (now : Z) (a : RouteVessel) : IO (option FeedEntity) :=
  match fresh !! rv_MMSI a, plans !! rv_RouteID a with
  | Some position, Some plan =>
      match matchAssignmentTrip plan calendars now with
      | None => omitted "no_trip"
      | Some p =>
          let '(progress, offRoute) := Snap (pl_path p) (position_coord position) in
          if f_lt (SnapMaxMeters config) offRoute then omitted "off_route"
          else
            samples ← build_error "tripupdates" (RecentSpeedSamples (rv_MMSI a) (SpeedSampleCount config) clearedLabels);
            _ ← count "geo_gtfsrt_speed_samples_total" "" (Z.of_nat (length samples));
            match prediction_speed (rp_route plan) samples with
            | None => omitted "not_moving"
            | Some (speed, uncertainty, mode) =>
                _ ← count "geo_gtfsrt_eta_total" mode 1;
                mret (Some (mkEntity ("tu:" +:+ rv_MMSI a)
                  (ETripUpdate (trip_update a position p progress speed (serviceMidnight (rp_agency plan) now) now uncertainty))))
            end
      end
  | _, _ => mret None
  end.
Fixpoint update_entities (plans : gmap string routePlan) (calendars : gmap string TransitCalendar) (fresh : gmap string LatestPosition)
  (clearedLabels : list string) (now : Z) (assignments : list RouteVessel) : IO (list FeedEntity) :=
  match assignments with
  | [] => mret []
  | a :: rest =>
      e ← update_entity plans calendars fresh clearedLabels now a;
      es ← update_entities plans calendars fresh clearedLabels now rest;
      mret (match e with Some x => x :: es | None => es end)
  end.
Definition BuildTripUpdates (started : Z) (tenantID : string) (clearedLabels : list string) : IO FeedMessage :=
  registry ← build_error "tripupdates" (LoadTransitRegistry text_le tenantID);
  let '(plans, calendars) := buildPlans registry in
  let assignments := activeAssignments registry plans started in
  fresh ← build_error "tripupdates" (freshPositions assignments clearedLabels started "tripupdates");
  entities ← update_entities plans calendars fresh clearedLabels started assignments;
  _ ← recordBuild "tripupdates" (length entities);
  mret (mkFeed (uint64 (Unix started)) entities).

(** ** Alerts *)

(** The names of the enumeration; a text outside it is the unknown one. *)
Definition alertCause (text : string) : string := if bool_decide (text ∈ alert_causes) then text else "UNKNOWN_CAUSE".
Definition alertEffect (text : string) : string := if bool_decide (text ∈ alert_effects) then text else "UNKNOWN_EFFECT".
Definition unless_empty (s : string) : option string := if String.eqb s "" then None else Some s.
Definition alert_entity (row : TransitAlert) : FeedEntity :=
  mkEntity ("alert:" +:+ al_AlertID row) (EAlert (mkAlertMessage (alertCause (al_Cause row)) (alertEffect (al_Effect row))
    (unless_empty (al_RouteID row)) (unless_empty (al_StopID row)) (uint64 ∘ Unix <$> al_StartsAt row) (uint64 ∘ Unix <$> al_EndsAt row)
    (al_HeaderText row) (unless_empty (al_DescriptionText row)) (unless_empty (al_URL row)))).
Definition BuildAlerts (started : Z) (tenantID : string) : IO FeedMessage :=
  alerts ← build_error "alerts" (ListActiveTransitAlerts text_le tenantID started);
  let entities := alert_entity <$> alerts in
  _ ← recordBuild "alerts" (length entities);
  mret (mkFeed (uint64 (Unix started)) entities).
End feeds.
