(* ===== verification/RealtimeProps.v ===== *)
(** * What the realtime feeds report

    The vessels on duty, read off the tables: an assignment of the tenant that is valid now,
    on an active route of the tenant, whose vessel has a position the caller may see that is
    not stale.  The vehicle feed has exactly one entity per such assignment and each trip
    update is one of theirs; the alert feed has exactly the alerts in force. *)
From S2P Require Import Prelude GoTime GoParse GoFloat Track Types Effects Store Transit Eta GtfsFeed.

(** ** The tables, read *)

Record on_duty (s : transit_world) (tenant : string) (labels : list string) (now stale : Z) (v : RouteVessel) (l : LatestRow) : Prop := mkOnDuty {
  od_assigned : ∃ k, transit_route_vessels (tw_db s) !! k = Some (tenant, v);
  od_from : ∀ t, rv_ValidFrom v = Some t → t ≤ now;
  od_to : ∀ t, rv_ValidTo v = Some t → now < t;
  od_route : ∃ k r, transit_routes (tw_db s) !! k = Some r ∧ ro_TenantID r = tenant ∧ ro_RouteID r = rv_RouteID v ∧ ro_Active r = true;
  od_position : latest_by_mmsi (tw_plane s) !! rv_MMSI v = Some l;
  od_cleared : l_Classification l ∈ labels;
  od_fresh : time_Sub now (l_ObservedAt l) ≤ stale;
}.
(** The tables and the positions are the same. *)
Definition same_data (s s' : transit_world) : Prop := tw_db s' = tw_db s ∧ tw_plane s' = tw_plane s.

Lemma same_data_trans s1 s2 s3 : same_data s1 s2 → same_data s2 s3 → same_data s1 s3.
Proof. unfold same_data. intuition congruence. Qed.
Lemma on_duty_same s s' tenant labels now stale v l : same_data s s' → on_duty s tenant labels now stale v l → on_duty s' tenant labels now stale v l.
Proof. intros [Hd Hp] []. constructor; rewrite ?Hd, ?Hp; done. Qed.

Lemma WithTenant_Ok {A} tenant (fn : IO A) w w' a :
  WithTenant tenant fn w = (w', Ok a) → ∃ w1 w2, e_state w1 = e_state w ∧ fn w1 = (w2, Ok a) ∧ e_state w' = e_state w2.
Proof.
  unfold WithTenant, tenant_transaction, transaction. destruct (blank tenant); [done|].
  destruct (external (A := unit) TransitUnavailable (λ s, (s, tt)) w) as [w1 [u|e]] eqn:E1; [|done].
  match goal with |- context [(?m ≫= ?f) w1] => destruct ((m ≫= f) w1) as [w2 [b|e]] eqn:E2; [|done] end. intros E.
  apply M_bind_Ok in E2 as (w3 & ? & E3 & E4). apply external_Ok in E1, E3. injection E1 as E1. injection E3 as E3.
  exists w3, w2. rewrite <- E3, <- E1. destruct (e_faults w2) as [|[] fs]; simplify_eq; by split_and!.
Qed.
Lemma query_reads {A} (f : transit_world → A) w w' a : query f w = (w', Ok a) → e_state w' = e_state w ∧ a = f (e_state w).
Proof. unfold query. intros E%external_Ok. by injection E as -> ->. Qed.
Lemma count_Ok name label n w w' u : count name label n w = (w', Ok u) → same_data (e_state w) (e_state w').
Proof. by intros [= <- _]. Qed.
Lemma build_error_Ok {A} name (m : IO A) w w' a : build_error name m w = (w', Ok a) → m w = (w', Ok a).
Proof.
  unfold build_error, attempt. intros (w1 & r & E1 & E2)%M_bind_Ok. destruct (m w) as [w2 [b|e]]; simplify_eq/=.
  by injection E2 as -> ->.
Qed.
Lemma recordBuild_Ok name n w w' u : recordBuild name n w = (w', Ok u) → same_data (e_state w) (e_state w').
Proof. unfold recordBuild. intros (w1 & ? & E1%count_Ok & E2%count_Ok)%M_bind_Ok. by eapply same_data_trans. Qed.

Section reading.
Context (text_le : relation string) `{∀ a b, Decision (text_le a b)}.
Lemma rows_of_spec {K A} `{Countable K} (table : gmap K A) tof tenant x :
  x ∈ rows_of table tof tenant ↔ tof x = tenant ∧ ∃ k, table !! k = Some x.
Proof.
  unfold rows_of. rewrite list_elem_of_filter, list_elem_of_fmap. split.
  - intros (? & [k y] & -> & Hk%elem_of_map_to_list). eauto.
  - intros (? & k & Hk). split; [done|]. exists (k, x). by rewrite elem_of_map_to_list.
Qed.
Lemma sorted_same {A} (R : relation A) `{∀ a b, Decision (R a b)} (l : list A) x : x ∈ merge_sort R l ↔ x ∈ l.
Proof. by rewrite merge_sort_Permutation. Qed.
(** What [LoadTransitRegistry] returns. *)
Lemma LoadTransitRegistry_Ok tenant w w' r :
  LoadTransitRegistry text_le tenant w = (w', Ok r) →
  let d := tw_db (e_state w) in
  e_state w' = e_state w ∧
  (∀ x, x ∈ Agencies r ↔ ta_TenantID x = tenant ∧ ∃ k, transit_agencies d !! k = Some x) ∧
  (∀ x, x ∈ Routes r ↔ ro_TenantID x = tenant ∧ ∃ k, transit_routes d !! k = Some x) ∧
  (∀ x, x ∈ Stops r ↔ sp_TenantID x = tenant ∧ ∃ k, transit_stops d !! k = Some x) ∧
  (∀ x, x ∈ Calendars r ↔ cal_TenantID x = tenant ∧ ∃ k, transit_calendars d !! k = Some x) ∧
  (∀ x, x ∈ Trips r ↔ tp_TenantID x = tenant ∧ ∃ k, transit_trips d !! k = Some x) ∧
  (∀ x, x ∈ StopTimes r ↔ ∃ k, transit_stop_times d !! k = Some (tenant, x)) ∧
  (∀ x, x ∈ Assignments r ↔ ∃ k, transit_route_vessels d !! k = Some (tenant, x)).
Proof.
  intros (w1 & w2 & E1 & E & E2)%WithTenant_Ok. cbn. rewrite E2, <- E1. clear E1 E2 w w'. rename w1 into w, w2 into w'.
  repeat (apply M_bind_Ok in E as (? & ? & [? ->]%query_reads & E)). injection E as <- <-. cbn.
  repeat match goal with H : e_state _ = e_state _ |- _ => rewrite H; clear H end. split; [done|].
  split_and!; intros y; rewrite ?sorted_same; rewrite ?rows_of_spec; [done..| |];
    rewrite list_elem_of_fmap; setoid_rewrite rows_of_spec;
    (split; [intros ([? ?] & -> & <- & k & Hk); by exists k|intros [k Hk]; exists (tenant, y); eauto]).
Qed.
End reading.

(** ** Positions *)

Lemma LatestPositionsByMMSI_Ok mmsis labels w w' m :
  LatestPositionsByMMSI mmsis labels w = (w', Ok m) →
  e_state w' = e_state w ∧
  ∀ k p, m !! k = Some p ↔ k ∈ mmsis ∧ ∃ l, latest_by_mmsi (tw_plane (e_state w)) !! k = Some l ∧ l_Classification l ∈ labels ∧ p = latest_position k l.
Proof.
  unfold LatestPositionsByMMSI. case_bool_decide as Hn.
  - intros [= <- <-]. split; [done|]. intros k p. rewrite lookup_empty. split; [done|]. intros [Hk _]. subst mmsis. by apply elem_of_nil in Hk.
  - intros [? ->]%query_reads. split; [done|]. intros k p. rewrite map_lookup_imap. split.
    + intros (l & [Hl [? ?]]%map_lookup_filter_Some & [= <-])%bind_Some. eauto.
    + intros (Hk & l & Hl & Hc & ->). apply bind_Some. exists l. split; [|done]. by apply map_lookup_filter_Some.
Qed.

Section feeds.
Context (config : Config).
(** A position of the map that is not stale. *)
Definition usable (positions : gmap string LatestPosition) (now : Z) (k : string) (p : LatestPosition) : Prop :=
  positions !! k = Some p ∧ time_Sub now (lp_ObservedAt p) ≤ StaleAfter config.
Lemma fresh_position_Ok positions now a p : fresh_position config positions now a = Ok p ↔ usable positions now (rv_MMSI a) p.
Proof.
  unfold fresh_position, usable. destruct (positions !! rv_MMSI a) as [q|]; [|naive_solver].
  destruct (Z.ltb_spec (StaleAfter config) (time_Sub now (lp_ObservedAt q))); [split; [done|]|]; [|naive_solver].
  intros [[= ->] ?]. lia.
Qed.
Lemma keep_fresh_Ok positions now name assignments fresh w w' m :
  (∀ k p, fresh !! k = Some p → usable positions now k p) →
  keep_fresh config positions now name assignments fresh w = (w', Ok m) →
  same_data (e_state w) (e_state w') ∧
  ∀ k p, m !! k = Some p ↔ fresh !! k = Some p ∨ k ∈ rv_MMSI <$> assignments ∧ usable positions now k p.
Proof.
  revert fresh w. induction assignments as [|a rest IH]; intros fresh w Hf; cbn [keep_fresh].
  { intros [= <- <-]. split; [done|]. intros k p. split; [by left|]. by intros [?|[?%elem_of_nil _]]. }
  destruct (fresh_position config positions now a) as [q|reason] eqn:Hq.
  - apply fresh_position_Ok in Hq. intros E. apply IH in E as [Hs Hm].
    + split; [done|]. intros k p. rewrite Hm, fmap_cons, elem_of_cons. destruct (decide (rv_MMSI a = k)) as [<-|].
      * rewrite lookup_insert_eq. destruct Hq as [Hq1 Hq2]. specialize (Hf (rv_MMSI a) p). unfold usable in *. rewrite Hq1 in *. naive_solver.
      * rewrite lookup_insert_ne by done. naive_solver.
    + intros k p [[<- <-]|[? ?]]%lookup_insert_Some; [done|by apply Hf].
  - intros (w1 & ? & E1%count_Ok & E)%M_bind_Ok. apply IH in E as [Hs Hm]; [|done]. split; [by eapply same_data_trans|].
    intros k p. rewrite Hm, fmap_cons, elem_of_cons. split; [naive_solver|]. intros [?|[[->|?] Hu]]; [by left| |by right; split].
    apply fresh_position_Ok in Hu. congruence.
Qed.
Lemma freshPositions_Ok assignments labels now name w w' m :
  freshPositions config assignments labels now name w = (w', Ok m) →
  same_data (e_state w) (e_state w') ∧
  ∀ k p, m !! k = Some p ↔ k ∈ rv_MMSI <$> assignments ∧
    ∃ l, latest_by_mmsi (tw_plane (e_state w)) !! k = Some l ∧ l_Classification l ∈ labels ∧ p = latest_position k l ∧
         time_Sub now (l_ObservedAt l) ≤ StaleAfter config.
Proof.
  intros (w1 & positions & [Hs Hp]%LatestPositionsByMMSI_Ok & E)%M_bind_Ok. apply keep_fresh_Ok in E as [Hd Hm].
  - rewrite Hs in Hd. split; [done|]. intros k p. rewrite Hm, lookup_empty. unfold usable. setoid_rewrite Hp. split; [|naive_solver].
    intros [?|(? & (? & l & ? & ? & ->) & ?)]; [done|]. eauto 10.
  - intros k p. by rewrite lookup_empty.
Qed.
End feeds.

(** ** Plans *)

Lemma index_snoc {A} (key : A → string) l x : index key (l ++ [x]) = <[key x := x]> (index key l).
Proof. unfold index. by rewrite fold_left_app. Qed.
Lemma index_Some {A} (key : A → string) l k x : index key l !! k = Some x → x ∈ l ∧ key x = k.
Proof.
  induction l as [|y l IH] using rev_ind; [unfold index; cbn [fold_left]; by rewrite lookup_empty|]. rewrite index_snoc, elem_of_app, list_elem_of_singleton.
  intros [[<- <-]|[? ?]]%lookup_insert_Some; [by auto|]. destruct IH; auto.
Qed.
Lemma index_filed {A} (key : A → string) l k : is_Some (index key l !! k) ↔ ∃ x, x ∈ l ∧ key x = k.
Proof.
  split; [intros [x Hx%index_Some]; eauto|]. intros (x & Hx & <-). revert Hx.
  induction l as [|y l IH] using rev_ind; [by intros ?%elem_of_nil|]. rewrite index_snoc, elem_of_app, list_elem_of_singleton.
  intros [Hx| ->]; [|by rewrite lookup_insert_eq]. apply lookup_insert_is_Some'. auto.
Qed.
Lemma valid_now_spec now a :
  valid_now now a = true ↔ (∀ t, rv_ValidFrom a = Some t → t ≤ now) ∧ (∀ t, rv_ValidTo a = Some t → now < t).
Proof.
  unfold valid_now. rewrite andb_true_iff. apply Morphisms_Prop.and_iff_morphism.
  - destruct (rv_ValidFrom a) as [f|]; [|naive_solver]. rewrite negb_true_iff, Z.ltb_ge. naive_solver.
  - destruct (rv_ValidTo a) as [t|]; [|naive_solver]. rewrite Z.ltb_lt. naive_solver.
Qed.

Section vehicles.
Context `{Math} (int64_overflow : float64 → Z) (LoadLocation : string → option location).
Context (text_le : relation string) `{∀ a b, Decision (text_le a b)} (config : Config).

Lemma plans_Some r id plan :
  (buildPlans r).1 !! id = Some plan →
  plan = plan_route r (rp_route plan) ∧ rp_route plan ∈ Routes r ∧ ro_RouteID (rp_route plan) = id ∧ ro_Active (rp_route plan) = true.
Proof.
  cbn. rewrite lookup_fmap. intros (o & [Ho Hid]%index_Some & ->)%fmap_Some. apply list_elem_of_In, filter_In in Ho as [Ho Ha].
  apply list_elem_of_In in Ho. done.
Qed.
Lemma activeAssignments_spec r now a :
  a ∈ activeAssignments r (buildPlans r).1 now ↔
  a ∈ Assignments r ∧ (∃ o, o ∈ Routes r ∧ ro_RouteID o = rv_RouteID a ∧ ro_Active o = true) ∧ valid_now now a = true.
Proof.
  unfold activeAssignments. rewrite list_elem_of_In, filter_In, <- list_elem_of_In, andb_true_iff, bool_decide_eq_true. cbn.
  rewrite lookup_fmap, fmap_is_Some, index_filed. setoid_rewrite list_elem_of_In. setoid_rewrite filter_In. naive_solver.
Qed.
(** The assignments the feeds walk, with the positions they use, are those on duty. *)
Lemma on_duty_iff tenant labels now name w w1 w2 r fresh v p :
  LoadTransitRegistry text_le tenant w = (w1, Ok r) →
  freshPositions config (activeAssignments r (buildPlans r).1 now) labels now name w1 = (w2, Ok fresh) →
  v ∈ activeAssignments r (buildPlans r).1 now ∧ fresh !! rv_MMSI v = Some p ↔
  ∃ l, on_duty (e_state w) tenant labels now (StaleAfter config) v l ∧ p = latest_position (rv_MMSI v) l.
Proof.
  intros (Hs & _ & Hro & _ & _ & _ & _ & Hve)%LoadTransitRegistry_Ok [_ Hf]%freshPositions_Ok. rewrite Hf, Hs, activeAssignments_spec, valid_now_spec, Hve.
  setoid_rewrite Hro. split.
  - intros (Hv & (_ & l & ? & ? & -> & ?)). exists l. split; [|done]. constructor; naive_solver.
  - intros (l & [] & ->).
    assert (v ∈ activeAssignments r (buildPlans r).1 now) as Hv.
    { apply activeAssignments_spec. rewrite valid_now_spec, Hve. setoid_rewrite Hro. naive_solver. }
    split; [naive_solver|]. split; [by apply list_elem_of_fmap_2|]. exists l. done.
Qed.

(** What an entity says of a vessel on duty: its number, the route it serves, and the
    position and time of the report, none of them changed. *)
Record reports (v : RouteVessel) (l : LatestRow) (e : FeedEntity) (vp : VehiclePosition) : Prop := mkReports {
  rp_Id : fe_Id e = "vp:" +:+ rv_MMSI v;
  rp_Content : fe_Content e = EVehicle vp;
  rp_Vehicle : vp_VehicleId vp = rv_MMSI v;
  rp_Latitude : vp_Latitude vp = f32_div (f32_of_Z (l_LatitudeMicros l)) (f32_of_Z 1000000);
  rp_Longitude : vp_Longitude vp = f32_div (f32_of_Z (l_LongitudeMicros l)) (f32_of_Z 1000000);
  rp_Timestamp : vp_Timestamp vp = uint64 (Unix (l_ObservedAt l));
  rp_Route : ∃ t, vp_Trip vp = Some t ∧ td_RouteId t = rv_RouteID v;
}.

Lemma vehicle_reports plans calendars now v l :
  is_Some (plans !! rv_RouteID v) →
  reports v l (mkEntity ("vp:" +:+ rv_MMSI v) (EVehicle (vehicle_position LoadLocation config plans calendars now v (latest_position (rv_MMSI v) l))))
    (vehicle_position LoadLocation config plans calendars now v (latest_position (rv_MMSI v) l)).
Proof. intros [plan Hp]. split; try done. cbn. rewrite Hp. eauto. Qed.
Lemma active_planned r plans now v :
  (buildPlans r).1 = plans → v ∈ activeAssignments r plans now → is_Some (plans !! rv_RouteID v).
Proof.
  intros <- (_ & (o & Ho & Hid & Ha) & _)%activeAssignments_spec. cbn. rewrite lookup_fmap, fmap_is_Some, index_filed.
  exists o. rewrite list_elem_of_In, filter_In, <- list_elem_of_In. naive_solver.
Qed.

(** C14: the vehicle feed shows the vessels on duty, all of them and nothing else. When the
    feed of a tenant is built for a caller, every entity is the report of a vessel that the
    tenant has assigned, at the time of the build, to one of its active routes, and whose
    last position the caller is cleared for and is no older than the limit; the position and
    the time are those of the stored report. Conversely every such vessel has an entity. The
    build changes neither the registry nor the positions. *)
Theorem vehicle_feed_exact (started : Z) (tenant : string) (labels : list string) (w w' : env transit_world) (feed : FeedMessage) :
  BuildVehiclePositions LoadLocation text_le config started tenant labels w = (w', Ok feed) →
  let duty := on_duty (e_state w) tenant labels started (StaleAfter config) in
  (∀ e, e ∈ fm_Entities feed → ∃ v l vp, duty v l ∧ reports v l e vp) ∧
  (∀ v l, duty v l → ∃ e vp, e ∈ fm_Entities feed ∧ reports v l e vp) ∧
  same_data (e_state w) (e_state w').
Proof.
  intros (w1 & r & E1%build_error_Ok & E)%M_bind_Ok duty. destruct (buildPlans r) as [plans calendars] eqn:Hb.
  assert ((buildPlans r).1 = plans) as Hp by by rewrite Hb.
  apply M_bind_Ok in E as (w2 & fresh & E2%build_error_Ok & E). apply M_bind_Ok in E as (w3 & ? & E3%recordBuild_Ok & [= <- <-]).
  cbn [fm_Entities]. rewrite <- Hp in E2. pose proof (λ v p, on_duty_iff tenant labels started _ w w1 w2 r fresh v p E1 E2) as Hduty.
  rewrite Hp in Hduty. split_and!.
  - intros e (v & Hv & He)%list_elem_of_omap. unfold vehicle_entity in He. apply fmap_Some in He as (p & Hf & ->). destruct (proj1 (Hduty v p)) as (l & Hl & ->); [done|].
    eexists v, l, _. split; [exact Hl|]. apply vehicle_reports. by eapply active_planned.
  - intros v l Hl. destruct (proj2 (Hduty v (latest_position (rv_MMSI v) l))) as [Hv Hf]; [by exists l|].
    eexists _, _. split; [|apply vehicle_reports; by eapply active_planned].
    apply list_elem_of_omap. exists v. split; [done|]. unfold vehicle_entity. by rewrite Hf.
  - apply LoadTransitRegistry_Ok in E1 as [Hs _]. apply freshPositions_Ok in E2 as [Hs2 _]. rewrite Hs in Hs2. by eapply same_data_trans.
Qed.

(** ** Trip updates *)

(** The speeds the median is taken of. *)
Definition recent_speeds (s : transit_world) (mmsi : string) (limit : Z) (labels : list string) : list Z :=
  take (Z.to_nat (if limit <=? 0 then 5 else limit)) (omap SpeedOverGroundMilliknots
    (merge_sort newest_position (filter (λ p, MMSI p = mmsi ∧ is_Some (SpeedOverGroundMilliknots p) ∧ Types.Classification p ∈ labels)
       (ais_positions (tw_plane s))))).
(** A prediction for a vessel on duty: of a trip of its route, at stops of that trip; and
    either the vessel has been seen moving at the least speed, with a minute of uncertainty,
    or nothing is known of its speed, with five. *)
Record predicts (s : transit_world) (tenant : string) (labels : list string) (v : RouteVessel) (l : LatestRow) (e : FeedEntity)
  (t : TransitTrip) (u : TripUpdate) : Prop := mkPredicts {
  pr_Id : fe_Id e = "tu:" +:+ rv_MMSI v;
  pr_Content : fe_Content e = ETripUpdate u;
  pr_Trip : ∃ k, transit_trips (tw_db s) !! k = Some t ∧ tp_TenantID t = tenant ∧ tp_RouteID t = rv_RouteID v;
  pr_Descriptor : tu_Trip u = mkTripDescriptor (Some (tp_TripID t)) (rv_RouteID v) true;
  pr_Observed : tu_Timestamp u = uint64 (Unix (l_ObservedAt l));
  pr_Stops : ∀ x, x ∈ tu_StopTimeUpdates u → ∃ k st, transit_stop_times (tw_db s) !! k = Some (tenant, st) ∧
               stm_TripID st = tp_TripID t ∧ su_StopId x = stm_StopID st;
  pr_Honest : let samples := recent_speeds s (rv_MMSI v) (SpeedSampleCount config) labels in
              (samples = [] ∧ ∀ x, x ∈ tu_StopTimeUpdates u → su_Uncertainty x = 300) ∨
              (samples ≠ [] ∧ f_lt (MedianMilliknots samples).1 (f_of_Z (ETAMinSpeedMilliknots config)) = false ∧
               ∀ x, x ∈ tu_StopTimeUpdates u → su_Uncertainty x = 60);
}.

(** A plan follows the stop times of its trip. *)
Lemma plan_trip_visits r trip p v :
  plan_trip r trip = Some p → v ∈ pl_visits p → vi_stopTime v ∈ StopTimes r ∧ stm_TripID (vi_stopTime v) = tp_TripID trip ∧
  sp_StopID (vi_stop v) = stm_StopID (vi_stopTime v).
Proof.
  unfold plan_trip. destruct (List.filter _ _) as [|t0 times] eqn:Ef; [done|]. intros (visits & Hm & [= <-])%bind_Some. cbn. intros Hv.
  apply mapM_Some in Hm. apply list_elem_of_lookup in Hv as [i Hi]. destruct (Forall2_lookup_r _ _ _ _ _ Hm Hi) as (t & Ht & Hx).
  apply bind_Some in Hx as (st & [_ Hst]%index_Some & [= <-]). cbn. apply list_elem_of_lookup_2 in Ht. rewrite <- Ef in Ht.
  apply list_elem_of_In, filter_In in Ht as [Ht Hid%String.eqb_eq]. by rewrite list_elem_of_In.
Qed.
Lemma matched_trip plan calendars now p :
  matchAssignmentTrip LoadLocation config plan calendars now = Some p → p ∈ rp_trips plan.
Proof. intros (x & _ & Hf%find_some)%bind_Some. apply list_elem_of_In, Hf. Qed.
Lemma trip_update_stops a position p progress speed midnight now uncertainty x :
  x ∈ tu_StopTimeUpdates (trip_update int64_overflow a position p progress speed midnight now uncertainty) →
  su_Uncertainty x = uncertainty ∧ ∃ v, v ∈ pl_visits p ∧ su_StopId x = sp_StopID (vi_stop v).
Proof.
  cbn. intros (e & _ & (v & Hv%list_elem_of_lookup_2 & [= <-])%bind_Some)%list_elem_of_omap. cbn. eauto.
Qed.
Lemma omitted_None reason w w' r : omitted reason w = (w', Ok r) → r = None ∧ same_data (e_state w) (e_state w').
Proof. unfold omitted. by intros (w1 & ? & E%count_Ok & [= <- <-])%M_bind_Ok. Qed.
Lemma prediction_speed_Some route samples speed uncertainty mode :
  prediction_speed config route samples = Some (speed, uncertainty, mode) →
  (samples = [] ∧ uncertainty = 300) ∨
  (samples ≠ [] ∧ f_lt (MedianMilliknots samples).1 (f_of_Z (ETAMinSpeedMilliknots config)) = false ∧ uncertainty = 60).
Proof.
  unfold prediction_speed. destruct samples as [|x samples]; [cbn; intros [= <- <- <-]; auto|].
  assert ((MedianMilliknots (x :: samples)).2 = true) as Ho by (unfold MedianMilliknots; by destruct (Nat.odd _)).
  destruct (MedianMilliknots (x :: samples)) as [median observed]. cbn in Ho. subst observed. cbn.
  destruct (f_lt median _) eqn:Hm; [done|]. intros [= <- <- <-]. right. done.
Qed.
Lemma RecentSpeedSamples_Ok mmsi limit labels w w' l :
  RecentSpeedSamples mmsi limit labels w = (w', Ok l) → e_state w' = e_state w ∧ l = recent_speeds (e_state w) mmsi limit labels.
Proof. apply query_reads. Qed.

(** One turn of the loop: nothing is emitted, or a prediction for the vessel. *)
Lemma update_entity_Ok plans calendars fresh labels now a w w' r :
  update_entity int64_overflow LoadLocation config plans calendars fresh labels now a w = (w', Ok r) →
  same_data (e_state w) (e_state w') ∧
  ∀ e, r = Some e → ∃ position plan p progress speed uncertainty midnight,
    fresh !! rv_MMSI a = Some position ∧ plans !! rv_RouteID a = Some plan ∧ p ∈ rp_trips plan ∧
    f_lt (SnapMaxMeters config) (Snap (pl_path p) (position_coord position)).2 = false ∧
    (let samples := recent_speeds (e_state w) (rv_MMSI a) (SpeedSampleCount config) labels in
     (samples = [] ∧ uncertainty = 300) ∨
     (samples ≠ [] ∧ f_lt (MedianMilliknots samples).1 (f_of_Z (ETAMinSpeedMilliknots config)) = false ∧ uncertainty = 60)) ∧
    e = mkEntity ("tu:" +:+ rv_MMSI a) (ETripUpdate (trip_update int64_overflow a position p progress speed midnight now uncertainty)).
Proof.
  unfold update_entity. destruct (fresh !! rv_MMSI a) as [position|]; [|by intros [= <- <-]].
  destruct (plans !! rv_RouteID a) as [plan|]; [|by intros [= <- <-]].
  destruct (matchAssignmentTrip _ _ _ _ _) as [p|] eqn:Hp; [|by intros [-> ?]%omitted_None]. apply matched_trip in Hp.
  destruct (Snap _ _) as [progress off] eqn:Hs. destruct (f_lt _ off) eqn:Ho; [by intros [-> ?]%omitted_None|].
  intros (w1 & samples & [E1 ->]%build_error_Ok%RecentSpeedSamples_Ok & E)%M_bind_Ok. apply M_bind_Ok in E as (w2 & ? & E2%count_Ok & E).
  rewrite E1 in E2. destruct (prediction_speed _ _ _) as [[[speed uncertainty] mode]|] eqn:Hsp.
  - apply M_bind_Ok in E as (w3 & ? & E3%count_Ok & [= <- <-]). split; [by eapply same_data_trans|]. intros e [= <-].
    apply prediction_speed_Some in Hsp. exists position, plan, p, progress, speed, uncertainty, (serviceMidnight LoadLocation (rp_agency plan) now).
    rewrite Hs. done.
  - apply omitted_None in E as [-> E]. split; [by eapply same_data_trans|done].
Qed.
Lemma recent_speeds_same s s' mmsi limit labels : same_data s s' → recent_speeds s' mmsi limit labels = recent_speeds s mmsi limit labels.
Proof. intros [_ Hp]. unfold recent_speeds. by rewrite Hp. Qed.
Lemma update_entities_Ok plans calendars fresh labels now assignments w w' es :
  update_entities int64_overflow LoadLocation config plans calendars fresh labels now assignments w = (w', Ok es) →
  same_data (e_state w) (e_state w') ∧
  ∀ e, e ∈ es → ∃ a w1 w2, a ∈ assignments ∧ same_data (e_state w) (e_state w1) ∧
    update_entity int64_overflow LoadLocation config plans calendars fresh labels now a w1 = (w2, Ok (Some e)).
Proof.
  revert w es. induction assignments as [|a rest IH]; intros w es; cbn [update_entities].
  { intros [= <- <-]. split; [done|]. by intros e ?%elem_of_nil. }
  intros (w1 & r & E1 & E)%M_bind_Ok. apply M_bind_Ok in E as (w2 & es' & E2 & [= <- <-]).
  pose proof (update_entity_Ok _ _ _ _ _ _ _ _ _ E1) as [Hs1 _]. apply IH in E2 as [Hs2 IHe]. split; [by eapply same_data_trans|].
  assert (∀ e, e ∈ es' → ∃ a0 w3 w4, a0 ∈ a :: rest ∧ same_data (e_state w) (e_state w3) ∧
    update_entity int64_overflow LoadLocation config plans calendars fresh labels now a0 w3 = (w4, Ok (Some e))) as Hrest.
  { intros e He. destruct (IHe e He) as (b & w3 & w4 & Hb & Hs3 & Hu). exists b, w3, w4. split_and!; [by right|by eapply same_data_trans|done]. }
  destruct r as [x|]; [|done]. intros e [->|He]%elem_of_cons; [|by apply Hrest]. exists a, w, w1. split_and!; [by left|done..].
Qed.

(** C15: a trip update is earned. When the feed of a tenant is built for a caller, every
    entity belongs to a vessel on duty in the sense of the vehicle feed; it names a trip that
    the tenant runs on the vessel's route and predicts only stops of that trip; and the
    prediction is honest about its basis: with no cleared speed on record it carries five
    minutes of uncertainty, and otherwise the median of the recent speeds is at least the
    configured floor and the uncertainty is one minute, so that a vessel that lies still has
    no prediction. *)
Theorem trip_updates_are_earned (started : Z) (tenant : string) (labels : list string) (w w' : env transit_world) (feed : FeedMessage) :
  BuildTripUpdates int64_overflow LoadLocation text_le config started tenant labels w = (w', Ok feed) →
  ∀ e, e ∈ fm_Entities feed →
  ∃ v l t u, on_duty (e_state w) tenant labels started (StaleAfter config) v l ∧ predicts (e_state w) tenant labels v l e t u.
Proof.
  intros (w1 & r & E1%build_error_Ok & E)%M_bind_Ok. destruct (buildPlans r) as [plans calendars] eqn:Hb.
  assert ((buildPlans r).1 = plans) as Hp by by rewrite Hb.
  apply M_bind_Ok in E as (w2 & fresh & E2%build_error_Ok & E). apply M_bind_Ok in E as (w3 & es & [_ Hes]%update_entities_Ok & E).
  apply M_bind_Ok in E as (w4 & ? & _ & [= <- <-]). cbn [fm_Entities].
  rewrite <- Hp in E2. pose proof (λ v p, on_duty_iff tenant labels started _ w w1 w2 r fresh v p E1 E2) as Hduty. rewrite Hp in Hduty.
  pose proof (LoadTransitRegistry_Ok _ _ _ _ _ E1) as (Hs1 & _ & _ & _ & _ & Htr & Hst & _). apply freshPositions_Ok in E2 as [Hs2 _]. rewrite Hs1 in Hs2.
  intros e (v & w5 & w6 & Hv & Hs & He)%Hes. pose proof (same_data_trans _ _ _ Hs2 Hs) as Hs5.
  apply update_entity_Ok in He as [_ He]. destruct (He e eq_refl) as (position & plan & p & progress & speed & unc & midnight & Hf & Hpl & Hin & _ & Hh & ->).
  destruct (proj1 (Hduty v position)) as (l & Hl & ->); [done|]. subst plans. apply plans_Some in Hpl as (Hplan & _ & Hid & _).
  rewrite Hplan in Hin. cbn in Hin. apply list_elem_of_omap in Hin as (trip & Htrip & Hpt).
  apply list_elem_of_In, filter_In in Htrip as [Htrip Hroute%String.eqb_eq]. apply list_elem_of_In, Htr in Htrip as [Htn Htk].
  assert (pl_trip p = trip) as Hpp.
  { unfold plan_trip in Hpt. destruct (List.filter _ _); [done|]. by apply bind_Some in Hpt as (? & _ & [= <-]). }
  eexists v, l, trip, _. split; [exact Hl|]. rewrite (recent_speeds_same _ _ _ _ _ Hs5) in Hh. split; try done.
  - destruct Htk as [k Hk]. exists k. split_and!; [done..|congruence].
  - cbn. by rewrite Hpp.
  - intros y [_ (vis & Hvis & ->)]%trip_update_stops. destruct (plan_trip_visits _ _ _ _ Hpt Hvis) as (Hx & Hxt & ->).
    apply Hst in Hx as [k Hk]. eauto.
  - destruct Hh as [[Hn ->]|(Hn & Hm & ->)]; [left|right]; (split_and!; [done..|]); intros y Hy%trip_update_stops; apply Hy.
Qed.

(** ** Alerts *)

Lemma alert_feed started tenant w w' feed :
  BuildAlerts text_le started tenant w = (w', Ok feed) →
  ∀ e, e ∈ fm_Entities feed ↔
  ∃ k a, transit_alerts (tw_db (e_state w)) !! k = Some a ∧ al_TenantID a = tenant ∧ active_at (pg_time started) a = true ∧ e = alert_entity a.
Proof.
  intros (w1 & alerts & E1%build_error_Ok & E)%M_bind_Ok. apply M_bind_Ok in E as (w2 & ? & _ & [= <- <-]). cbn [fm_Entities].
  apply WithTenant_Ok in E1 as (w3 & w4 & Hs & [_ ->]%query_reads & _). intros e. rewrite list_elem_of_fmap. setoid_rewrite sorted_same.
  setoid_rewrite list_elem_of_filter. setoid_rewrite rows_of_spec. rewrite Hs. naive_solver.
Qed.
End vehicles.
