(* ===== verification/TransitSeed.v ===== *)
(** * The transit seed loader

    [internal/store/transit_seed.go]: a decoded seed document is applied section by section
    with the upserts of the registry, each in a transaction of its own; the first failure
    ends the load.  The YAML decoder is left out: the document is its value. *)
From S2P Require Import Prelude GoTime GoParse Effects Store Transit.

Record SeedAgency := mkSeedAgency {
  sa_AgencyID : string; sa_Name : string; sa_URL : string; sa_Timezone : string; sa_Lang : string; sa_Phone : string }.
Record SeedRoute := mkSeedRoute {
  se_RouteID : string; se_AgencyID : string; se_ShortName : string; se_LongName : string; se_RouteType : Z;
  se_DefaultSpeedMilliknots : Z; se_Active : option bool }.
Record SeedStop := mkSeedStop {
  ss_StopID : string; ss_Name : string; ss_LatitudeMicros : Z; ss_LongitudeMicros : Z; ss_ZoneID : string }.
Record SeedCalendar := mkSeedCalendar {
  sc_ServiceID : string; sc_Weekdays : list bool; sc_StartDate : string; sc_EndDate : string }.
Record SeedTrip := mkSeedTrip {
  str_TripID : string; str_RouteID : string; str_ServiceID : string; str_Headsign : string; str_DirectionID : option Z }.
Record SeedVisit := mkSeedVisit { sv_StopID : string; sv_ArrivalSeconds : Z; sv_DepartureSeconds : Z }.
Record SeedStopTimes := mkSeedStopTimes { sst_TripID : string; sst_Stops : list SeedVisit }.
Record SeedAssignment := mkSeedAssignment {
  sas_RouteID : string; sas_MMSI : string; sas_IMO : string; sas_ValidFrom : string; sas_ValidTo : string }.
Record TransitSeed := mkTransitSeed {
  seed_Agencies : list SeedAgency; seed_Routes : list SeedRoute; seed_Stops : list SeedStop; seed_Calendars : list SeedCalendar;
  seed_Trips : list SeedTrip; seed_StopTimes : list SeedStopTimes; seed_Assignments : list SeedAssignment }.

(** [time.Parse("2006-01-02", s)]. *)
Definition parse_day (s : string) : option Z :=
  '(year, s) ← four_digits s;
  s ← strip_prefix "-" s;
  '(month, s) ← ranged true 1 12 s;
  s ← strip_prefix "-" s;
  '(d, s) ← getnum true s;
  if negb (String.eqb s "") then None
  else if (d <? 1) || (days_in month year <? d) then None
  else Some (time_Date year month d).
Definition parseSeedTime (raw : string) : option (option Z) :=
  if String.eqb raw "" then Some None else Some <$> parse_rfc3339 raw.

(** One section: the element's index names the failure. *)
Definition section {A} (name : string) (apply : A → IO unit) (elements : list A) : IO unit :=
  each (λ x, relabel (SeedAt name x.1) (apply x.2)) (imap pair elements).
Definition parsed {A} (r : option A) (e : transit_error) (next : A → IO unit) : IO unit :=
  match r with Some a => next a | None => fail e end.

Section seed.
Context (tenantID : string).
Definition seed_agency (a : SeedAgency) : IO unit :=
  UpsertTransitAgency tenantID (mkAgency (sa_AgencyID a) "" (sa_Name a) (sa_URL a) (sa_Timezone a) (sa_Lang a) (sa_Phone a)).
Definition seed_route (r : SeedRoute) : IO unit :=
  UpsertTransitRoute tenantID (mkRoute (se_RouteID r) "" (se_AgencyID r) (se_ShortName r) (se_LongName r) (se_RouteType r)
    (se_DefaultSpeedMilliknots r) (default true (se_Active r))).
Definition seed_stop (s : SeedStop) : IO unit :=
  UpsertTransitStop tenantID (mkStop (ss_StopID s) "" (ss_Name s) (ss_LatitudeMicros s) (ss_LongitudeMicros s) (ss_ZoneID s)).
Definition seed_calendar (c : SeedCalendar) : IO unit :=
  if negb (Nat.eqb (length (sc_Weekdays c)) 7) then fail SeedWeekdays
  else parsed (parse_day (sc_StartDate c)) (SeedDate "start_date") (λ start,
       parsed (parse_day (sc_EndDate c)) (SeedDate "end_date") (λ end_,
         UpsertTransitCalendar tenantID (mkCalendar (sc_ServiceID c) "" (sc_Weekdays c) start end_))).
Definition seed_trip (t : SeedTrip) : IO unit :=
  UpsertTransitTrip tenantID (mkTrip (str_TripID t) "" (str_RouteID t) (str_ServiceID t) (str_Headsign t) (str_DirectionID t)).
Definition visits_of (g : SeedStopTimes) : list TransitStopTime :=
  imap (λ i v, mkStopTime (sst_TripID g) (Z.of_nat i + 1) (sv_StopID v) (sv_ArrivalSeconds v) (sv_DepartureSeconds v)) (sst_Stops g).
Definition seed_stop_times (g : SeedStopTimes) : IO unit := ReplaceTransitStopTimes tenantID (sst_TripID g) (visits_of g).
Definition seed_assignment (a : SeedAssignment) : IO unit :=
  parsed (parseSeedTime (sas_ValidFrom a)) (SeedTime "valid_from") (λ from_,
  parsed (parseSeedTime (sas_ValidTo a)) (SeedTime "valid_to") (λ to_,
    AssignRouteVessel tenantID (mkRouteVessel (sas_RouteID a) (sas_MMSI a) (sas_IMO a) from_ to_))).

Definition SeedTransitRegistry (seed : option TransitSeed) : IO unit :=
  match seed with
  | None => fail SeedMissing
  | Some seed =>
      _ ← section "agencies" seed_agency (seed_Agencies seed);
      _ ← section "routes" seed_route (seed_Routes seed);
      _ ← section "stops" seed_stop (seed_Stops seed);
      _ ← section "calendars" seed_calendar (seed_Calendars seed);
      _ ← section "trips" seed_trip (seed_Trips seed);
      _ ← section "stop_times" seed_stop_times (seed_StopTimes seed);
      section "assignments" seed_assignment (seed_Assignments seed)
  end.
End seed.

(** ** Loading a seed twice

    A program of statements that meets no fault is a function of the tables
    ([implements]); the load is such a function, and on a document that names nothing twice
    its result is a fixed point of it. *)

(** ** Programs as functions of the tables *)

Abbreviation db_fun := (transit_db → result transit_error transit_db).
(** A run that succeeds computes [f], whatever happened before; without faults the program
    succeeds wherever [f] does. *)
Definition implements (f : db_fun) (m : IO unit) : Prop :=
  (∀ w w', m w = (w', Ok tt) → f (tw_db (e_state w)) = Ok (tw_db (e_state w')) ∧ e_state w' = set_tw_db (tw_db (e_state w')) (e_state w)) ∧
  (∀ s d, f (tw_db s) = Ok d → m (mkEnv [] s) = (mkEnv [] (set_tw_db d s), Ok tt)).
Definition then_ (f g : db_fun) : db_fun := λ d, match f d with Ok d' => g d' | Err e => Err e end.
Fixpoint run_all {A} (f : A → db_fun) (xs : list A) : db_fun :=
  match xs with [] => λ d, Ok d | x :: xs' => then_ (f x) (run_all f xs') end.
Definition refused (e : transit_error) : db_fun := λ _, Err e.

Lemma set_tw_db_same s : set_tw_db (tw_db s) s = s.
Proof. by destruct s. Qed.
Lemma implements_ret : implements (λ d, Ok d) (mret tt).
Proof. split; [intros w w' [= <-]|intros s d [= <-]]; by rewrite set_tw_db_same. Qed.
Lemma implements_fail e : implements (refused e) (fail e).
Proof. done. Qed.
Lemma implements_statement f : implements f (statement f).
Proof.
  split.
  - unfold statement. intros w w' (w1 & r & E1%external_Ok & E)%M_bind_Ok. destruct (f (tw_db (e_state w))) as [d|e]; injection E1 as E1 <-; [|done].
    injection E as <-. by rewrite <- E1.
  - intros s d Hf. unfold statement, external, mbind, M_bind. cbn. by rewrite Hf.
Qed.
Lemma implements_bind f g m n : implements f m → implements g n → implements (then_ f g) (m ≫= λ _, n).
Proof.
  intros [Hm1 Hm2] [Hn1 Hn2]. split.
  - intros w w' (w1 & [] & E1%Hm1 & E2%Hn1)%M_bind_Ok. destruct E1 as [E1 H1], E2 as [E2 H2]. unfold then_. rewrite E1. split; [done|].
    rewrite H2, H1. done.
  - intros s d. unfold then_. destruct (f (tw_db s)) as [d1|] eqn:Ef; [|done]. intros Hg. rewrite (M_bind_run _ _ _ _ _ (Hm2 _ _ Ef)).
    rewrite (Hn2 (set_tw_db d1 s) d) by done. done.
Qed.
Lemma implements_each {A} (f : A → db_fun) (m : A → IO unit) xs : (∀ x, implements (f x) (m x)) → implements (run_all f xs) (each m xs).
Proof. intros Hx. induction xs as [|x xs IH]; cbn; [apply implements_ret|]. by apply implements_bind. Qed.
Lemma implements_relabel f (m : IO unit) (g : transit_error → transit_error) : implements f m → implements f (relabel g m).
Proof.
  intros [H1 H2]. split; [intros w w' E%relabel_Ok; by apply H1|]. intros s d Hf. apply relabel_Ok. by apply H2.
Qed.
Definition tenanted (tenant : string) (f : db_fun) : db_fun := if blank tenant then refused TransitTenantRequired else f.
Lemma implements_WithTenant tenant f m : implements f m → implements (tenanted tenant f) (WithTenant tenant m).
Proof.
  intros [H1 H2]. unfold tenanted, WithTenant, tenant_transaction. destruct (blank tenant); [apply implements_fail|]. split.
  - intros w w' E. unfold transaction in E. destruct (external _ _ w) as [w1 [u|e]] eqn:E1; [|done].
    match type of E with match ?b with _ => _ end = _ => destruct b as [w2 [[]|e]] eqn:E2 end; [|done].
    apply M_bind_Ok in E2 as (w3 & ? & E3 & E2). apply external_Ok in E1, E3. injection E1 as E1. injection E3 as E3.
    apply H1 in E2 as [Hf Hs]. rewrite <- E3, <- E1 in Hf, Hs. destruct (e_faults w2) as [|[] fs]; simplify_eq/=; done.
  - intros s d Hf. unfold transaction, external, mbind, M_bind. cbn. rewrite H2 with (d := d); done.
Qed.
Definition required (value : string) (name : string) (f : db_fun) : db_fun := if blank value then refused (IDRequired name) else f.
Lemma implements_requireID name v f m : implements f m → implements (required v name f) (requireID name v m).
Proof. intros. unfold required, requireID. destruct (blank v); [apply implements_fail|done]. Qed.

(** ** The elements of a document *)

Inductive element :=
| InAgency (a : SeedAgency) | InRoute (r : SeedRoute) | InStop (s : SeedStop) | InCalendar (c : SeedCalendar) | InTrip (t : SeedTrip)
| InTimes (g : SeedStopTimes) | InVessel (a : SeedAssignment).
(** What an element asks of the tables, once its texts are read. *)
Inductive change :=
| SetAgency (r : TransitAgency) | SetRoute (r : TransitRoute) | SetStop (r : TransitStop) | SetCalendar (r : TransitCalendar)
| SetTrip (r : TransitTrip) | SetTimes (trip : string) (times : list TransitStopTime) | SetVessel (r : RouteVessel).
Definition change_fun (tenant : string) (c : change) : db_fun :=
  match c with
  | SetAgency r => upsert transit_agencies on_agencies ta_TenantID (agency_checks r) true tenant (ta_AgencyID r) r
  | SetRoute r => λ d, upsert transit_routes on_routes ro_TenantID (route_checks r) (known (transit_agencies d) (ro_AgencyID r)) tenant (ro_RouteID r) r d
  | SetStop r => upsert transit_stops on_stops sp_TenantID (stop_checks r) true tenant (sp_StopID r) r
  | SetCalendar r => upsert transit_calendars on_calendars cal_TenantID (calendar_checks r) true tenant (cal_ServiceID r) r
  | SetTrip r => λ d, upsert transit_trips on_trips tp_TenantID (trip_checks r)
                   (known (transit_routes d) (tp_RouteID r) && known (transit_calendars d) (tp_ServiceID r)) tenant (tp_TripID r) r d
  | SetTimes trip times => then_ (λ d, Ok (delete_times (of_trip tenant trip) d)) (run_all (insert_time tenant trip) times)
  | SetVessel r => λ d, upsert transit_route_vessels on_route_vessels fst (assignment_checks tenant r) (known (transit_routes d) (rv_RouteID r))
                     tenant (rv_RouteID r, rv_MMSI r) (tenant, r) d
  end.
Definition named {A} (value name : string) (next : result transit_error A) : result transit_error A :=
  if blank value then Err (IDRequired name) else next.
Definition read_as {A B} (r : option A) (e : transit_error) (next : A → result transit_error B) : result transit_error B :=
  match r with Some a => next a | None => Err e end.
Definition change_of (tenant : string) (x : element) : result transit_error change :=
  match x with
  | InAgency a => named (sa_AgencyID a) "agency_id"
      (Ok (SetAgency (mkAgency (sa_AgencyID a) tenant (sa_Name a) (sa_URL a) (sa_Timezone a) (sa_Lang a) (sa_Phone a))))
  | InRoute r => named (se_RouteID r) "route_id"
      (Ok (SetRoute (mkRoute (se_RouteID r) tenant (se_AgencyID r) (se_ShortName r) (se_LongName r)
         (if se_RouteType r =? 0 then 4 else se_RouteType r)
         (if se_DefaultSpeedMilliknots r =? 0 then 6000 else se_DefaultSpeedMilliknots r) (default true (se_Active r)))))
  | InStop s => named (ss_StopID s) "stop_id"
      (Ok (SetStop (mkStop (ss_StopID s) tenant (ss_Name s) (ss_LatitudeMicros s) (ss_LongitudeMicros s) (ss_ZoneID s))))
  | InCalendar c =>
      if negb (Nat.eqb (length (sc_Weekdays c)) 7) then Err SeedWeekdays
      else read_as (parse_day (sc_StartDate c)) (SeedDate "start_date") (λ start,
           read_as (parse_day (sc_EndDate c)) (SeedDate "end_date") (λ end_,
             named (sc_ServiceID c) "service_id"
               (Ok (SetCalendar (mkCalendar (sc_ServiceID c) tenant (sc_Weekdays c) (date_column start) (date_column end_))))))
  | InTrip t => named (str_TripID t) "trip_id"
      (Ok (SetTrip (mkTrip (str_TripID t) tenant (str_RouteID t) (str_ServiceID t) (str_Headsign t) (str_DirectionID t))))
  | InTimes g => named (sst_TripID g) "trip_id"
      (if bool_decide (visits_of g = []) then Err StopTimesEmpty
       else match check_times 0 (-1) (visits_of g) with Some e => Err e | None => Ok (SetTimes (sst_TripID g) (visits_of g)) end)
  | InVessel a =>
      read_as (parseSeedTime (sas_ValidFrom a)) (SeedTime "valid_from") (λ from_,
      read_as (parseSeedTime (sas_ValidTo a)) (SeedTime "valid_to") (λ to_,
        named (sas_RouteID a) "route_id"
          (if negb (Nat.eqb (String.length (sas_MMSI a)) 9) then Err MMSILength
           else Ok (SetVessel (mkRouteVessel (sas_RouteID a) (sas_MMSI a) (sas_IMO a) (pg_time <$> from_) (pg_time <$> to_))))))
  end.
Definition element_fun (tenant : string) (x : element) : db_fun :=
  match change_of tenant x with Ok c => tenanted tenant (change_fun tenant c) | Err e => refused e end.
Definition element_io (tenant : string) (x : element) : IO unit :=
  match x with
  | InAgency a => seed_agency tenant a
  | InRoute r => seed_route tenant r
  | InStop s => seed_stop tenant s
  | InCalendar c => seed_calendar tenant c
  | InTrip t => seed_trip tenant t
  | InTimes g => seed_stop_times tenant g
  | InVessel a => seed_assignment tenant a
  end.

#[local] Arguments blank : simpl never.
#[local] Arguments upsert : simpl never.
#[local] Arguments statement : simpl never.
#[local] Arguments WithTenant : simpl never.
Lemma implements_element tenant x : implements (element_fun tenant x) (element_io tenant x).
Proof.
  unfold element_fun.
  destruct x; cbn [change_of element_io]; unfold named; unfold seed_agency, seed_route, seed_stop, seed_calendar, seed_trip, seed_stop_times, seed_assignment.
  - unfold UpsertTransitAgency, requireID. cbn. destruct (blank _); [apply implements_fail|]. apply implements_WithTenant, implements_statement.
  - unfold UpsertTransitRoute, requireID. cbn. destruct (blank _); [apply implements_fail|]. apply implements_WithTenant, implements_statement.
  - unfold UpsertTransitStop, requireID. cbn. destruct (blank _); [apply implements_fail|]. apply implements_WithTenant, implements_statement.
  - destruct (negb _); [apply implements_fail|]. destruct (parse_day _); cbn; [|apply implements_fail]. destruct (parse_day _); cbn; [|apply implements_fail].
    unfold UpsertTransitCalendar, requireID. cbn. destruct (blank _); [apply implements_fail|]. apply implements_WithTenant, implements_statement.
  - unfold UpsertTransitTrip, requireID. cbn. destruct (blank _); [apply implements_fail|]. apply implements_WithTenant, implements_statement.
  - unfold ReplaceTransitStopTimes, requireID. destruct (blank _); [apply implements_fail|]. destruct (bool_decide _); [apply implements_fail|].
    destruct (check_times _ _ _); [apply implements_fail|]. apply implements_WithTenant, implements_bind; [apply implements_statement|].
    apply implements_each. intros t. apply implements_statement.
  - destruct (parseSeedTime _); cbn; [|apply implements_fail]. destruct (parseSeedTime _); cbn; [|apply implements_fail].
    unfold AssignRouteVessel, requireID. cbn. destruct (blank _); [apply implements_fail|]. destruct (negb _); [apply implements_fail|].
    apply implements_WithTenant, implements_statement.
Qed.
Definition elements (seed : TransitSeed) : list element :=
  (InAgency <$> seed_Agencies seed) ++ (InRoute <$> seed_Routes seed) ++ (InStop <$> seed_Stops seed) ++ (InCalendar <$> seed_Calendars seed) ++
  (InTrip <$> seed_Trips seed) ++ (InTimes <$> seed_StopTimes seed) ++ (InVessel <$> seed_Assignments seed).
Lemma run_all_app {A} (f : A → db_fun) xs ys d : run_all f (xs ++ ys) d = then_ (run_all f xs) (run_all f ys) d.
Proof.
  revert d. induction xs as [|x xs IH]; intros d; [done|]. cbn [app run_all]. unfold then_ at 1 2 3. destruct (f x d); [apply IH|done].
Qed.
Lemma run_all_fmap {A B} (f : B → db_fun) (g : A → B) xs : run_all f (g <$> xs) = run_all (f ∘ g) xs.
Proof. induction xs as [|x xs IH]; [done|]. cbn. by rewrite IH. Qed.
Lemma implements_ext f g m : (∀ d, f d = g d) → implements f m → implements g m.
Proof. intros Hfg [H1 H2]. split; intros; rewrite <- Hfg in *; auto. Qed.
Lemma implements_section {A} tenant name (inj : A → element) (apply : A → IO unit) xs :
  (∀ x, apply x = element_io tenant (inj x)) → implements (run_all (element_fun tenant) (inj <$> xs)) (section name apply xs).
Proof.
  intros Hx. unfold section. rewrite run_all_fmap.
  assert (∀ (ys : list (nat * A)), implements (run_all (element_fun tenant ∘ inj ∘ snd) ys) (each (λ x, relabel (SeedAt name x.1) (apply x.2)) ys)) as He.
  { intros ys. apply implements_each. intros y. apply implements_relabel. rewrite Hx. apply implements_element. }
  specialize (He (imap pair xs)). rewrite <- run_all_fmap in He. replace (imap pair xs).*2 with xs in He; [done|].
  rewrite fmap_imap. symmetry. etrans; [apply (imap_const id)|]. by rewrite list_fmap_id.
Qed.
Lemma implements_seed tenant seed : implements (run_all (element_fun tenant) (elements seed)) (SeedTransitRegistry tenant (Some seed)).
Proof.
  unfold elements, SeedTransitRegistry. do 6 (eapply implements_ext; [intros; symmetry; apply run_all_app|]; apply implements_bind; [by apply implements_section|]).
  by apply implements_section.
Qed.

(** ** What a change leaves behind *)

Definition time_row (trip : string) (t : TransitStopTime) : TransitStopTime :=
  mkStopTime trip (stm_StopSequence t) (stm_StopID t) (stm_ArrivalSeconds t) (stm_DepartureSeconds t).
Definition time_key (trip : string) (t : TransitStopTime) : string * Z := (trip, stm_StopSequence t).
(** A visit that passes the checks and whose references resolve. *)
Definition time_fits (tenant trip : string) (d : transit_db) (t : TransitStopTime) : Prop :=
  stop_time_checks tenant (time_row trip t) = true ∧ known (transit_trips d) trip = true ∧ known (transit_stops d) (stm_StopID t) = true.
Definition left_by (tenant : string) (c : change) (d : transit_db) : Prop :=
  match c with
  | SetAgency r => agency_checks r = true ∧ transit_agencies d !! ta_AgencyID r = Some r
  | SetRoute r => route_checks r = true ∧ transit_routes d !! ro_RouteID r = Some r ∧ known (transit_agencies d) (ro_AgencyID r) = true
  | SetStop r => stop_checks r = true ∧ transit_stops d !! sp_StopID r = Some r
  | SetCalendar r => calendar_checks r = true ∧ transit_calendars d !! cal_ServiceID r = Some r
  | SetTrip r => trip_checks r = true ∧ transit_trips d !! tp_TripID r = Some r ∧
      known (transit_routes d) (tp_RouteID r) = true ∧ known (transit_calendars d) (tp_ServiceID r) = true
  | SetTimes trip times =>
      Forall (time_fits tenant trip d) times ∧
      (∀ t, t ∈ times → transit_stop_times d !! time_key trip t = Some (tenant, time_row trip t)) ∧
      (∀ k row, transit_stop_times d !! k = Some row → of_trip tenant trip row = true → ∃ t, t ∈ times ∧ k = time_key trip t)
  | SetVessel r => assignment_checks tenant r = true ∧ transit_route_vessels d !! (rv_RouteID r, rv_MMSI r) = Some (tenant, r) ∧
      known (transit_routes d) (rv_RouteID r) = true
  end.
(** The rows are the tenant's, and the visits of a trip have sequence numbers of their own. *)
Definition proper (tenant : string) (c : change) : Prop :=
  match c with
  | SetAgency r => ta_TenantID r = tenant
  | SetRoute r => ro_TenantID r = tenant
  | SetStop r => sp_TenantID r = tenant
  | SetCalendar r => cal_TenantID r = tenant
  | SetTrip r => tp_TenantID r = tenant
  | SetTimes _ times => NoDup (stm_StopSequence <$> times)
  | SetVessel _ => True
  end.
Inductive change_key := KAgency (id : string) | KRoute (id : string) | KStop (id : string) | KCalendar (id : string) | KTrip (id : string)
| KTimes (trip : string) | KVessel (route mmsi : string).
Definition key_of (c : change) : change_key :=
  match c with
  | SetAgency r => KAgency (ta_AgencyID r)
  | SetRoute r => KRoute (ro_RouteID r)
  | SetStop r => KStop (sp_StopID r)
  | SetCalendar r => KCalendar (cal_ServiceID r)
  | SetTrip r => KTrip (tp_TripID r)
  | SetTimes trip _ => KTimes trip
  | SetVessel r => KVessel (rv_RouteID r) (rv_MMSI r)
  end.

Lemma known_insert {A} (m : gmap string A) k x id : known m id = true → known (<[k := x]> m) id = true.
Proof. unfold known. rewrite !bool_decide_eq_true. intros. by apply lookup_insert_is_Some'; right. Qed.
Lemma upsert_Some {K A} `{Countable K} (table : transit_db → gmap K A) on tof checks refs tenant key row d d' :
  upsert table on tof checks refs tenant key row d = Ok d' → checks = true ∧ refs = true ∧ d' = on <[key := row]> d.
Proof.
  unfold upsert. destruct checks; [|done]. cbn [negb]. destruct (table d !! key) as [old|].
  - destruct (negb _); [done|]. destruct refs; [|done]. by intros [= <-].
  - destruct refs; [|done]. by intros [= <-].
Qed.
Lemma upsert_same {K A} `{Countable K} (table : transit_db → gmap K A) on tof tenant key row d :
  table d !! key = Some row → tof row = tenant → (∀ f, f (table d) = table d → on f d = d) →
  upsert table on tof true true tenant key row d = Ok d.
Proof.
  intros Hk Ht Hon. unfold upsert. cbn [negb]. rewrite Hk, Ht, String.eqb_refl. cbn [negb]. f_equal. apply Hon. by apply insert_id.
Qed.

(** *** Stop times *)

Lemma insert_times_spec tenant trip times d d' :
  run_all (insert_time tenant trip) times d = Ok d' →
  Forall (time_fits tenant trip d) times ∧ d' = on_stop_times (λ _, transit_stop_times d') d ∧
  (∀ t, t ∈ times → transit_stop_times d' !! time_key trip t = Some (tenant, time_row trip t)) ∧
  (∀ k row, transit_stop_times d !! k = Some row → transit_stop_times d' !! k = Some row) ∧
  (∀ k row, transit_stop_times d' !! k = Some row → transit_stop_times d !! k = Some row ∨ ∃ t, t ∈ times ∧ k = time_key trip t).
Proof.
  revert d. induction times as [|t times IH]; intros d; cbn [run_all].
  { intros [= <-]. split_and!; [done|by destruct d|by intros t ?%elem_of_nil|done|auto]. }
  unfold then_. destruct (insert_time tenant trip t d) as [d1|e] eqn:Ei; [|done]. unfold insert_time in Ei.
  destruct (stop_time_checks _ _) eqn:Hc; [|done]. cbn [negb] in Ei. case_bool_decide as Hn; [done|]. destruct (_ && _) eqn:Hk; [|done].
  apply andb_true_iff in Hk as [Hk1 Hk2]. injection Ei as <-. intros (Hf & Hd & H1 & H2 & H3)%IH. cbn in *.
  assert (transit_stop_times d !! time_key trip t = None) as Hnone by by apply eq_None_not_Some.
  split_and!.
  - constructor; [done|]. exact Hf.
  - rewrite Hd at 1. done.
  - intros t' [->|Ht']%elem_of_cons; [|by apply H1]. apply H2. apply lookup_insert_eq.
  - intros k row Hk. apply H2. rewrite lookup_insert_ne; [done|]. intros <-. unfold time_key in Hnone. congruence.
  - intros k row [Hk|(t' & ? & ?)]%H3; [|right; exists t'; split; [by right|done]].
    apply lookup_insert_Some in Hk as [[<- _]|[_ ?]]; [|by left]. right. exists t. split; [left|done].
Qed.
Lemma insert_times_run tenant trip times d :
  NoDup (stm_StopSequence <$> times) → Forall (time_fits tenant trip d) times →
  (∀ t, t ∈ times → transit_stop_times d !! time_key trip t = None) → ∃ d', run_all (insert_time tenant trip) times d = Ok d'.
Proof.
  revert d. induction times as [|t times IH]; intros d Hnd Hf Hn; [by eexists|]. rewrite fmap_cons in Hnd. apply NoDup_cons in Hnd as [Ht Hnd].
  inversion Hf as [|? ? (Hc & H1 & H2) Hf']; subst. cbn [run_all]. unfold then_, insert_time. fold (time_row trip t). rewrite Hc, H1, H2. cbn [negb andb].
  rewrite bool_decide_eq_false_2. 2: { intros [? Hs]. unfold time_key in Hn. rewrite Hn in Hs by left. done. }
  apply IH; [done|done|]. intros t' Ht'. cbn. rewrite lookup_insert_ne; [apply Hn; by right|].
  intros [= E]. apply Ht. rewrite E. by apply list_elem_of_fmap_2.
Qed.
Lemma on_stop_times_same d f : f (transit_stop_times d) = transit_stop_times d → on_stop_times f d = d.
Proof. intros Hf. unfold on_stop_times. rewrite Hf. by destruct d. Qed.
Lemma delete_times_lookup p d k row :
  transit_stop_times (delete_times p d) !! k = Some row ↔ transit_stop_times d !! k = Some row ∧ p row = false.
Proof. cbn. rewrite map_lookup_filter_Some. done. Qed.
Lemma of_trip_row tenant trip t : of_trip tenant trip (tenant, time_row trip t) = true.
Proof. unfold of_trip. cbn. by rewrite !String.eqb_refl. Qed.
Lemma of_trip_other tenant trip trip' t : trip ≠ trip' → of_trip tenant trip' (tenant, time_row trip t) = false.
Proof. intros. unfold of_trip. cbn. rewrite String.eqb_refl. by apply String.eqb_neq. Qed.

(** *** A change leaves its rows, keeps those of others, and is then without effect *)

Lemma change_leaves tenant c d d' : change_fun tenant c d = Ok d' → left_by tenant c d'.
Proof.
  destruct c; cbn [change_fun left_by].
  1,3,4: intros (? & _ & ->)%upsert_Some; cbn; by rewrite lookup_insert_eq.
  - intros (? & ? & ->)%upsert_Some. cbn. by rewrite lookup_insert_eq.
  - intros (? & [? ?]%andb_true_iff & ->)%upsert_Some. cbn. by rewrite lookup_insert_eq.
  - unfold then_. intros (Hf & Hd & H1 & H2 & H3)%insert_times_spec. split_and!; [|done|].
    + rewrite Hd. exact Hf.
    + intros k row [Hk|?]%H3 Ho; [|done]. apply delete_times_lookup in Hk as [_ Hk]. congruence.
  - intros (? & ? & ->)%upsert_Some. cbn. by rewrite lookup_insert_eq.
Qed.
Lemma left_fixed tenant c d : proper tenant c → left_by tenant c d → change_fun tenant c d = Ok d.
Proof.
  destruct c; cbn [change_fun left_by proper].
  - intros Hp (-> & ?). apply upsert_same; [done|done|]. intros f Hf. unfold on_agencies. rewrite Hf. by destruct d.
  - intros Hp (-> & ? & ->). apply upsert_same; [done|done|]. intros f Hf. unfold on_routes. rewrite Hf. by destruct d.
  - intros Hp (-> & ?). apply upsert_same; [done|done|]. intros f Hf. unfold on_stops. rewrite Hf. by destruct d.
  - intros Hp (-> & ?). apply upsert_same; [done|done|]. intros f Hf. unfold on_calendars. rewrite Hf. by destruct d.
  - intros Hp (-> & ? & -> & ->). apply upsert_same; [done|done|]. intros f Hf. unfold on_trips. rewrite Hf. by destruct d.
  - intros Hp (Hf & H1 & H2). unfold then_. set (d0 := delete_times (of_trip tenant trip) d).
    destruct (insert_times_run tenant trip times d0) as [d' Hd']; [done|done| |].
    { intros t Ht. apply eq_None_not_Some. intros [row [Hk Ho]%delete_times_lookup]. rewrite (H1 t Ht) in Hk. injection Hk as <-.
      by rewrite of_trip_row in Ho. }
    rewrite Hd'. f_equal. apply insert_times_spec in Hd' as (_ & Hd & H3 & H4 & H5).
    assert (transit_stop_times d' = transit_stop_times d) as Ht.
    { apply map_eq. intros k. apply option_eq. intros row. split; intros Hk.
      - destruct (H5 k row Hk) as [[? _]%delete_times_lookup|(t & Ht & ->)]; [done|]. rewrite (H3 t Ht) in Hk. rewrite (H1 t Ht). done.
      - destruct (of_trip tenant trip row) eqn:Ho; [|by apply H4, delete_times_lookup].
        destruct (H2 k row Hk Ho) as (t & Ht & ->). rewrite (H1 t Ht) in Hk. by rewrite (H3 t Ht). }
    rewrite Hd, Ht. apply (on_stop_times_same d (λ _, transit_stop_times d)). done.
  - intros _ (-> & ? & ->). apply upsert_same; [done|done|]. intros f Hf. unfold on_route_vessels. rewrite Hf. by destruct d.
Qed.

(** The other tables only grow. *)
Lemma upserted_keeps_times tenant trip times d d' :
  transit_stop_times d' = transit_stop_times d → (∀ id, known (transit_trips d) id = true → known (transit_trips d') id = true) →
  (∀ id, known (transit_stops d) id = true → known (transit_stops d') id = true) →
  left_by tenant (SetTimes trip times) d → left_by tenant (SetTimes trip times) d'.
Proof.
  cbn. intros -> Ht Hs (Hf & H1 & H2). split_and!; [|done..]. eapply Forall_impl; [exact Hf|]. intros t (? & ? & ?). split_and!; auto.
Qed.
Lemma replaced_keeps_times tenant trip times trip' times' d d' :
  trip ≠ trip' → change_fun tenant (SetTimes trip' times') d = Ok d' →
  left_by tenant (SetTimes trip times) d → left_by tenant (SetTimes trip times) d'.
Proof.
  cbn [change_fun]. unfold then_. intros Hne (_ & Hd & H3 & H4 & H5)%insert_times_spec (Hf & H1 & H2). split_and!.
  - rewrite Hd. exact Hf.
  - intros t Ht. apply H4, delete_times_lookup. rewrite (H1 t Ht). split; [done|]. by apply of_trip_other.
  - intros k row Hk Ho. destruct (H5 k row Hk) as [[? _]%delete_times_lookup|(t & Ht & ->)]; [by apply (H2 k row)|].
    rewrite (H3 t Ht) in Hk. injection Hk as <-. by rewrite of_trip_other in Ho.
Qed.
(** A replacement of stop times changes no other table. *)
Lemma replaced_tables tenant trip times d d' :
  change_fun tenant (SetTimes trip times) d = Ok d' → ∃ m, d' = on_stop_times (λ _, m) d.
Proof. cbn [change_fun]. unfold then_. intros (_ & Hd & _)%insert_times_spec. eexists. exact Hd. Qed.
Lemma change_frame tenant c c' d d' :
  key_of c ≠ key_of c' → change_fun tenant c' d = Ok d' → left_by tenant c d → left_by tenant c d'.
Proof.
  intros Hne Hc.
  destruct c' as [| | | | |trip times|].
  6: { destruct c; [..|eapply replaced_keeps_times; [|exact Hc]; naive_solver|]; apply replaced_tables in Hc as [m ->]; done. }
  all: cbn [change_fun] in Hc; apply upsert_Some in Hc as (_ & _ & ->);
    (destruct c; [..|apply upserted_keeps_times; [done|intros ? ?; first [done|by apply known_insert]..]|]);
    cbn in *; intros; destruct_and?; split_and?; rewrite ?lookup_insert_ne by congruence; auto using known_insert.
Qed.

(** ** The whole document *)

Definition element_key (x : element) : change_key :=
  match x with
  | InAgency a => KAgency (sa_AgencyID a)
  | InRoute r => KRoute (se_RouteID r)
  | InStop s => KStop (ss_StopID s)
  | InCalendar c => KCalendar (sc_ServiceID c)
  | InTrip t => KTrip (str_TripID t)
  | InTimes g => KTimes (sst_TripID g)
  | InVessel a => KVessel (sas_RouteID a) (sas_MMSI a)
  end.
Lemma visits_numbered g : NoDup (stm_StopSequence <$> visits_of g).
Proof.
  unfold visits_of. rewrite fmap_imap. apply NoDup_alt. intros i j x. rewrite !list_lookup_imap. intros (? & _ & ->)%fmap_Some (? & _ & H)%fmap_Some.
  cbn in H. lia.
Qed.
Lemma change_of_Ok tenant x c : change_of tenant x = Ok c → key_of c = element_key x ∧ proper tenant c.
Proof.
  destruct x; cbn [change_of]; unfold named, read_as; intros E; repeat case_match; simplify_eq; try done. split; [done|]. apply visits_numbered.
Qed.
Lemma element_fun_Ok tenant x d d' :
  element_fun tenant x d = Ok d' → ∃ c, change_of tenant x = Ok c ∧ blank tenant = false ∧ change_fun tenant c d = Ok d'.
Proof.
  unfold element_fun. destruct (change_of tenant x) as [c|]; [|done]. unfold tenanted. destruct (blank tenant); [done|]. eauto.
Qed.
Lemma run_keeps_left tenant c xs d d' :
  run_all (element_fun tenant) xs d = Ok d' → (∀ x, x ∈ xs → key_of c ≠ element_key x) → left_by tenant c d → left_by tenant c d'.
Proof.
  revert d. induction xs as [|x xs IH]; intros d; cbn [run_all]; [by intros [= ->]|]. unfold then_.
  destruct (element_fun tenant x d) as [d1|] eqn:E1; [|done]. intros E Hne Hl. apply element_fun_Ok in E1 as (c' & [Hk _]%change_of_Ok & _ & Hc).
  apply (IH d1); [done|intros y Hy; apply Hne; by right|]. eapply change_frame; [|done..]. rewrite Hk. apply Hne. left.
Qed.
Lemma run_settles tenant xs d d' :
  NoDup (element_key <$> xs) → run_all (element_fun tenant) xs d = Ok d' → ∀ x, x ∈ xs → element_fun tenant x d' = Ok d'.
Proof.
  revert d. induction xs as [|x xs IH]; intros d; cbn [run_all]; [by intros _ _ x ?%elem_of_nil|]. rewrite fmap_cons.
  intros [Hx Hnd]%NoDup_cons. unfold then_. destruct (element_fun tenant x d) as [d1|] eqn:E1; [|done]. intros E y [->|Hy]%elem_of_cons; [|by eapply IH].
  apply element_fun_Ok in E1 as (c & Hc & Hb & Hd). unfold element_fun, tenanted. rewrite Hc, Hb. apply change_of_Ok in Hc as [Hk Hp].
  apply left_fixed; [done|]. eapply run_keeps_left; [exact E| |by eapply change_leaves]. intros y Hy He. apply Hx. rewrite <- Hk, He. by apply list_elem_of_fmap_2.
Qed.
Lemma run_all_same {A} (f : A → db_fun) xs d : (∀ x, x ∈ xs → f x d = Ok d) → run_all f xs d = Ok d.
Proof.
  induction xs as [|x xs IH]; intros Hx; [done|]. cbn. unfold then_. rewrite Hx by left. apply IH. intros y Hy. apply Hx. by right.
Qed.

(** No section of the document names the same row twice. *)
Record names_once (seed : TransitSeed) : Prop := mkNamesOnce {
  once_agencies : NoDup (sa_AgencyID <$> seed_Agencies seed);
  once_routes : NoDup (se_RouteID <$> seed_Routes seed);
  once_stops : NoDup (ss_StopID <$> seed_Stops seed);
  once_calendars : NoDup (sc_ServiceID <$> seed_Calendars seed);
  once_trips : NoDup (str_TripID <$> seed_Trips seed);
  once_times : NoDup (sst_TripID <$> seed_StopTimes seed);
  once_vessels : NoDup ((λ a, (sas_RouteID a, sas_MMSI a)) <$> seed_Assignments seed);
}.
Lemma NoDup_inj_fmap {A B C} (f : A → B) (g : A → C) (xs : list A) :
  (∀ x y, g x = g y → f x = f y) → NoDup (f <$> xs) → NoDup (g <$> xs).
Proof.
  intros Hfg. induction xs as [|x xs IH]; [constructor|]. rewrite !fmap_cons. intros [Hx Hnd]%NoDup_cons. apply NoDup_cons. split; [|auto].
  intros (y & Hy & Hin)%list_elem_of_fmap. apply Hx. apply Hfg in Hy. rewrite Hy. by apply list_elem_of_fmap_2.
Qed.
Lemma names_once_keys seed : names_once seed → NoDup (element_key <$> elements seed).
Proof.
  intros []. unfold elements. rewrite !fmap_app, <- !list_fmap_compose.
  repeat (apply NoDup_app; split_and!; [| |]); try (eapply NoDup_inj_fmap; [|eassumption]; cbn; congruence).
  all: intros k (x & -> & _)%list_elem_of_fmap; rewrite ?elem_of_app, ?list_elem_of_fmap; naive_solver.
Qed.

(** C26: a seed may be loaded again. When a document that names no row twice was loaded,
    whatever faults that load got over, loading it once more without faults succeeds and
    leaves every table exactly as it was: the upserts write the rows that are there, and the
    stop times of each trip are deleted and inserted again as they were. *)
Theorem loading_is_idempotent (tenant : string) (seed : TransitSeed) (w w' : env transit_world) :
  names_once seed → SeedTransitRegistry tenant (Some seed) w = (w', Ok tt) →
  SeedTransitRegistry tenant (Some seed) (mkEnv [] (e_state w')) = (mkEnv [] (e_state w'), Ok tt).
Proof.
  intros Ho [E _]%implements_seed. assert (run_all (element_fun tenant) (elements seed) (tw_db (e_state w')) = Ok (tw_db (e_state w'))) as Hf.
  { apply run_all_same. eapply run_settles; [by apply names_once_keys|exact E]. }
  apply implements_seed in Hf. by rewrite set_tw_db_same in Hf.
Qed.
