(* ===== verification/TransitProps.v ===== *)
(** * The registry under its operations

    The tables of the registry keep their keys, checks and references under every sequence
    of the store's methods and seed loads, and a tenant's rows are out of reach of every
    other tenant. *)
From S2P Require Import Prelude GoTime GoParse Effects Store Transit TransitSeed.

(** ** The invariant *)

Definition on_file {A} (table : gmap string A) (id : string) : Prop := is_Some (table !! id).
Definition on_file_or_null {A} (table : gmap string A) (id : string) : Prop := id = "" ∨ on_file table id.
Record transit_ok (d : transit_db) : Prop := mkTransitOk {
  agencies_ok : map_Forall (λ k a, ta_AgencyID a = k ∧ agency_checks a = true) (transit_agencies d);
  routes_ok : map_Forall (λ k r, ro_RouteID r = k ∧ route_checks r = true ∧ on_file (transit_agencies d) (ro_AgencyID r)) (transit_routes d);
  stops_ok : map_Forall (λ k s, sp_StopID s = k ∧ stop_checks s = true) (transit_stops d);
  calendars_ok : map_Forall (λ k c, cal_ServiceID c = k ∧ calendar_checks c = true) (transit_calendars d);
  trips_ok : map_Forall (λ k t, tp_TripID t = k ∧ trip_checks t = true ∧
               on_file (transit_routes d) (tp_RouteID t) ∧ on_file (transit_calendars d) (tp_ServiceID t)) (transit_trips d);
  stop_times_ok : map_Forall (λ k r, (stm_TripID r.2, stm_StopSequence r.2) = k ∧ stop_time_checks r.1 r.2 = true ∧
               on_file (transit_trips d) (stm_TripID r.2) ∧ on_file (transit_stops d) (stm_StopID r.2)) (transit_stop_times d);
  route_vessels_ok : map_Forall (λ k r, (rv_RouteID r.2, rv_MMSI r.2) = k ∧ assignment_checks r.1 r.2 = true ∧
               on_file (transit_routes d) (rv_RouteID r.2)) (transit_route_vessels d);
  alerts_ok : map_Forall (λ k a, al_AlertID a = k ∧ alert_checks a = true ∧
               on_file_or_null (transit_routes d) (al_RouteID a) ∧ on_file_or_null (transit_stops d) (al_StopID a)) (transit_alerts d);
}.

(** The rows that are not of the tenant. *)
Definition others (tenant : string) (d : transit_db) : transit_db :=
  mkTransitDB (filter (λ kv, ta_TenantID kv.2 ≠ tenant) (transit_agencies d)) (filter (λ kv, ro_TenantID kv.2 ≠ tenant) (transit_routes d))
    (filter (λ kv, sp_TenantID kv.2 ≠ tenant) (transit_stops d)) (filter (λ kv, cal_TenantID kv.2 ≠ tenant) (transit_calendars d))
    (filter (λ kv, tp_TenantID kv.2 ≠ tenant) (transit_trips d)) (filter (λ kv, kv.2.1 ≠ tenant) (transit_stop_times d))
    (filter (λ kv, kv.2.1 ≠ tenant) (transit_route_vessels d)) (filter (λ kv, al_TenantID kv.2 ≠ tenant) (transit_alerts d)).

(** The rows of the tenant. *)
Definition own (tenant : string) (d : transit_db) : transit_db :=
  mkTransitDB (filter (λ kv, ta_TenantID kv.2 = tenant) (transit_agencies d)) (filter (λ kv, ro_TenantID kv.2 = tenant) (transit_routes d))
    (filter (λ kv, sp_TenantID kv.2 = tenant) (transit_stops d)) (filter (λ kv, cal_TenantID kv.2 = tenant) (transit_calendars d))
    (filter (λ kv, tp_TenantID kv.2 = tenant) (transit_trips d)) (filter (λ kv, kv.2.1 = tenant) (transit_stop_times d))
    (filter (λ kv, kv.2.1 = tenant) (transit_route_vessels d)) (filter (λ kv, al_TenantID kv.2 = tenant) (transit_alerts d)).

(** ** The operations of a tenant *)

Inductive transit_op :=
| PutAgency (a : TransitAgency) | PutRoute (r : TransitRoute) | PutStop (s : TransitStop) | PutCalendar (c : TransitCalendar)
| PutTrip (t : TransitTrip) | PutStopTimes (tripID : string) (times : list TransitStopTime) | PutAssignment (v : RouteVessel)
| DropRoute (routeID : string) | DropStop (stopID : string) | PutAlert (a : TransitAlert) | RetireAlert (alertID : string)
| LoadSeed (seed : option TransitSeed).
Definition transit_do (tenant : string) (op : transit_op) : IO unit :=
  match op with
  | PutAgency a => UpsertTransitAgency tenant a
  | PutRoute r => UpsertTransitRoute tenant r
  | PutStop s => UpsertTransitStop tenant s
  | PutCalendar c => UpsertTransitCalendar tenant c
  | PutTrip t => UpsertTransitTrip tenant t
  | PutStopTimes trip times => ReplaceTransitStopTimes tenant trip times
  | PutAssignment v => AssignRouteVessel tenant v
  | DropRoute id => DeleteTransitRoute tenant id
  | DropStop id => DeleteTransitStop tenant id
  | PutAlert a => CreateTransitAlert tenant a
  | RetireAlert id => _ ← DeactivateTransitAlert tenant id; mret tt
  | LoadSeed seed => SeedTransitRegistry tenant seed
  end.
Definition transit_run (ops : list (string * transit_op)) : IO unit :=
  each (λ op, _ ← attempt (transit_do op.1 op.2); mret tt) ops.

(** ** Rules for a property of the tables *)

Definition on_db (P : transit_db → Prop) (w : transit_world) : Prop := P (tw_db w).
(** A statement that succeeds keeps [P]. *)
Definition step_keeps (P : transit_db → Prop) (f : transit_db → result transit_error transit_db) : Prop :=
  ∀ d d', f d = Ok d' → P d → P d'.

Section rules.
Context (P : transit_db → Prop).
Lemma keeps_statement f : step_keeps P f → keeps (on_db P) (statement f).
Proof.
  intros Hf. unfold statement. apply keeps_bind; [|intros [e|]; [apply keeps_fail|apply keeps_ret]].
  apply keeps_external. intros w Hw. destruct (f (tw_db w)) as [d|e] eqn:E; [|done]. by apply (Hf _ _ E).
Qed.
Lemma keeps_WithTenant {A} tenant (fn : IO A) : keeps (on_db P) fn → keeps (on_db P) (WithTenant tenant fn).
Proof.
  intros Hf. unfold WithTenant, tenant_transaction. destruct (blank tenant); [apply keeps_fail|].
  apply keeps_transaction_body; [|done]. apply keeps_bind; [by apply keeps_external|done].
Qed.
Lemma keeps_requireID {A} name v (m : IO A) : keeps (on_db P) m → keeps (on_db P) (requireID name v m).
Proof. intros. unfold requireID. destruct (blank v); [apply keeps_fail|done]. Qed.
Lemma keeps_parsed {A} (r : option A) e next : (∀ a, keeps (on_db P) (next a)) → keeps (on_db P) (parsed r e next).
Proof. intros. destruct r; cbn; [done|apply keeps_fail]. Qed.
Lemma keeps_section {A} name (f : A → IO unit) xs : (∀ x, keeps (on_db P) (f x)) → keeps (on_db P) (section name f xs).
Proof.
  intros Hf. apply keeps_each. intros x _ w Hw. rewrite relabel_state. by apply Hf.
Qed.
End rules.

Lemma upsert_Ok {K A} `{Countable K} (table : transit_db → gmap K A) on tof checks refs tenant key row d d' :
  upsert table on tof checks refs tenant key row d = Ok d' →
  checks = true ∧ refs = true ∧ d' = on <[key := row]> d ∧ ∀ old, table d !! key = Some old → tof old = tenant.
Proof.
  unfold upsert. destruct checks; [|done]. cbn [negb]. destruct (table d !! key) as [old|].
  - destruct (String.eqb_spec (tof old) tenant); cbn [negb]; [|done]. destruct refs; [|done]. intros [= <-]. naive_solver.
  - destruct refs; [|done]. intros [= <-]. naive_solver.
Qed.

(** A property every statement of an operation keeps is kept by the operation. *)
Section operations.
Context (P : transit_db → Prop) (tenant : string).
Hypothesis agency_step : ∀ r, ta_TenantID r = tenant →
  step_keeps P (upsert transit_agencies on_agencies ta_TenantID (agency_checks r) true tenant (ta_AgencyID r) r).
Hypothesis route_step : ∀ r, ro_TenantID r = tenant →
  step_keeps P (λ d, upsert transit_routes on_routes ro_TenantID (route_checks r) (known (transit_agencies d) (ro_AgencyID r)) tenant (ro_RouteID r) r d).
Hypothesis stop_step : ∀ r, sp_TenantID r = tenant →
  step_keeps P (upsert transit_stops on_stops sp_TenantID (stop_checks r) true tenant (sp_StopID r) r).
Hypothesis calendar_step : ∀ r, cal_TenantID r = tenant →
  step_keeps P (upsert transit_calendars on_calendars cal_TenantID (calendar_checks r) true tenant (cal_ServiceID r) r).
Hypothesis trip_step : ∀ r, tp_TenantID r = tenant →
  step_keeps P (λ d, upsert transit_trips on_trips tp_TenantID (trip_checks r)
    (known (transit_routes d) (tp_RouteID r) && known (transit_calendars d) (tp_ServiceID r)) tenant (tp_TripID r) r d).
Hypothesis vessel_step : ∀ r, step_keeps P (λ d, upsert transit_route_vessels on_route_vessels fst (assignment_checks tenant r)
    (known (transit_routes d) (rv_RouteID r)) tenant (rv_RouteID r, rv_MMSI r) (tenant, r) d).
Hypothesis times_step : ∀ p d, (∀ row, p row = true → row.1 = tenant) → P d → P (delete_times p d).
Hypothesis time_step : ∀ trip t, step_keeps P (insert_time tenant trip t).
Hypothesis trips_step : ∀ id, step_keeps P (delete_trips tenant id).
Hypothesis vessels_step : ∀ id d, P d →
  P (on_route_vessels (filter (λ kv, mine kv.2.1 tenant (String.eqb (rv_RouteID kv.2.2) id) = false)) d).
Hypothesis drop_route_step : ∀ id, step_keeps P (delete_route_row tenant id).
Hypothesis drop_stop_step : ∀ id, step_keeps P (delete_stop_row tenant id).
Hypothesis alert_step : ∀ r, al_TenantID r = tenant → step_keeps P (insert_alert r).
Hypothesis retire_step : ∀ id a d, alert_of tenant id d = Some a → P d → P (on_alerts <[id := retire_alert a]> d).

Lemma mine_tenant t b : mine t tenant b = true → t = tenant.
Proof. unfold mine. intros. by bool_to_prop. Qed.
Lemma do_keeps op : keeps (on_db P) (transit_do tenant op).
Proof.
  assert (∀ a, keeps (on_db P) (UpsertTransitAgency tenant a)) as Ha.
  { intros. by apply keeps_requireID, keeps_WithTenant, keeps_statement, agency_step. }
  assert (∀ r, keeps (on_db P) (UpsertTransitRoute tenant r)) as Hr.
  { intros. by apply keeps_requireID, keeps_WithTenant, keeps_statement, route_step. }
  assert (∀ s, keeps (on_db P) (UpsertTransitStop tenant s)) as Hs.
  { intros. by apply keeps_requireID, keeps_WithTenant, keeps_statement, stop_step. }
  assert (∀ c, keeps (on_db P) (UpsertTransitCalendar tenant c)) as Hc.
  { intros. by apply keeps_requireID, keeps_WithTenant, keeps_statement, calendar_step. }
  assert (∀ t, keeps (on_db P) (UpsertTransitTrip tenant t)) as Ht.
  { intros. by apply keeps_requireID, keeps_WithTenant, keeps_statement, trip_step. }
  assert (∀ trip times, keeps (on_db P) (ReplaceTransitStopTimes tenant trip times)) as Hx.
  { intros. apply keeps_requireID. destruct (bool_decide _); [apply keeps_fail|]. destruct (check_times _ _ _); [apply keeps_fail|].
    apply keeps_WithTenant, keeps_bind; [|intros _; apply keeps_each; intros; by apply keeps_statement].
    apply keeps_statement. intros d d' [= <-]. apply times_step. unfold of_trip. intros. by bool_to_prop. }
  assert (∀ v, keeps (on_db P) (AssignRouteVessel tenant v)) as Hv.
  { intros. apply keeps_requireID. destruct (negb _); [apply keeps_fail|]. by apply keeps_WithTenant, keeps_statement. }
  destruct op; cbn [transit_do]; auto.
  - apply keeps_WithTenant. repeat (apply keeps_bind; [apply keeps_statement|intros _]); [|done| |by apply keeps_statement];
      intros d d' [= <-]; [|apply vessels_step]. apply times_step. intros row. apply mine_tenant.
  - apply keeps_WithTenant, keeps_bind; [apply keeps_statement|intros _; by apply keeps_statement].
    intros d d' [= <-]. apply times_step. intros row. apply mine_tenant.
  - apply keeps_requireID. destruct (_ && _); [apply keeps_fail|]. destruct (blank _); [apply keeps_fail|].
    apply keeps_bind; [apply keeps_gets|]. intros now. by apply keeps_WithTenant, keeps_statement, alert_step.
  - apply keeps_bind; [|intros; apply keeps_ret]. apply keeps_WithTenant, keeps_external. intros w Hw.
    destruct (alert_of _ _ _) eqn:E; [|done]. by apply retire_step.
  - destruct seed as [seed|]; [|apply keeps_fail]. repeat (apply keeps_bind; [|intros _]); apply keeps_section; intros x;
      try first [apply Ha|apply Hr|apply Hs|apply Ht|apply Hx].
    + unfold seed_calendar. destruct (negb _); [apply keeps_fail|]. do 2 (apply keeps_parsed; intros ?). done.
    + unfold seed_assignment. do 2 (apply keeps_parsed; intros ?). done.
Qed.
End operations.

(** ** Keys, checks and references *)

Lemma known_on_file {A} (table : gmap string A) id : known table id = true ↔ on_file table id.
Proof. unfold known, on_file. apply bool_decide_eq_true. Qed.
Lemma known_or_null_on_file {A} (table : gmap string A) id : known_or_null table id = true ↔ on_file_or_null table id.
Proof. unfold known_or_null, on_file_or_null. by rewrite orb_true_iff, String.eqb_eq, known_on_file. Qed.
Lemma on_file_insert {A} (table : gmap string A) k x id : on_file table id → on_file (<[k := x]> table) id.
Proof. intros. by apply lookup_insert_is_Some'; right. Qed.
Lemma on_file_or_null_insert {A} (table : gmap string A) k x id : on_file_or_null table id → on_file_or_null (<[k := x]> table) id.
Proof. intros [->|?]; [by left|right; by apply on_file_insert]. Qed.
Lemma on_file_delete {A} (table : gmap string A) k id : on_file table id → id ≠ k → on_file (delete k table) id.
Proof. intros. unfold on_file. by rewrite lookup_delete_ne. Qed.
Lemma map_Forall_filtered {K A} `{Countable K} (Q : K → A → Prop) (p : K * A → Prop) `{∀ x, Decision (p x)} (m : gmap K A) :
  map_Forall Q m → map_Forall Q (filter p m).
Proof. intros HQ k x [Hk _]%map_lookup_filter_Some. by apply HQ. Qed.
Create HintDb registry.
#[local] Hint Resolve on_file_insert on_file_or_null_insert on_file_delete map_Forall_filtered : registry.

(** The clauses of the invariant the change leaves, up to a larger table. *)
Ltac same_tables :=
  repeat match goal with
  | |- transit_ok _ => constructor; cbn
  | H : map_Forall _ ?m |- map_Forall _ ?m => eapply map_Forall_impl; [exact H|]; cbn; intros; naive_solver eauto with registry
  end.
Ltac open_step H := intros d d' H [? ? ? ? ? ? ? ?].

Lemma upsert_keeps_agency tenant r :
  step_keeps transit_ok (upsert transit_agencies on_agencies ta_TenantID (agency_checks r) true tenant (ta_AgencyID r) r).
Proof. open_step E. apply upsert_Ok in E as (? & _ & -> & _). same_tables. by apply map_Forall_insert_2. Qed.
Lemma upsert_keeps_route tenant r :
  step_keeps transit_ok (λ d, upsert transit_routes on_routes ro_TenantID (route_checks r) (known (transit_agencies d) (ro_AgencyID r))
    tenant (ro_RouteID r) r d).
Proof.
  open_step E. apply upsert_Ok in E as (? & Hk%known_on_file & -> & _). same_tables. by apply map_Forall_insert_2.
Qed.
Lemma upsert_keeps_stop tenant r :
  step_keeps transit_ok (upsert transit_stops on_stops sp_TenantID (stop_checks r) true tenant (sp_StopID r) r).
Proof. open_step E. apply upsert_Ok in E as (? & _ & -> & _). same_tables. by apply map_Forall_insert_2. Qed.
Lemma upsert_keeps_calendar tenant r :
  step_keeps transit_ok (upsert transit_calendars on_calendars cal_TenantID (calendar_checks r) true tenant (cal_ServiceID r) r).
Proof. open_step E. apply upsert_Ok in E as (? & _ & -> & _). same_tables. by apply map_Forall_insert_2. Qed.
Lemma upsert_keeps_trip tenant r :
  step_keeps transit_ok (λ d, upsert transit_trips on_trips tp_TenantID (trip_checks r)
    (known (transit_routes d) (tp_RouteID r) && known (transit_calendars d) (tp_ServiceID r)) tenant (tp_TripID r) r d).
Proof.
  open_step E. apply upsert_Ok in E as (? & [H1%known_on_file H2%known_on_file]%andb_true_iff & -> & _). same_tables. by apply map_Forall_insert_2.
Qed.
Lemma upsert_keeps_vessel tenant r :
  step_keeps transit_ok (λ d, upsert transit_route_vessels on_route_vessels fst (assignment_checks tenant r)
    (known (transit_routes d) (rv_RouteID r)) tenant (rv_RouteID r, rv_MMSI r) (tenant, r) d).
Proof. open_step E. apply upsert_Ok in E as (? & Hk%known_on_file & -> & _). same_tables. by apply map_Forall_insert_2. Qed.
Lemma insert_keeps_time tenant trip t : step_keeps transit_ok (insert_time tenant trip t).
Proof.
  open_step E. unfold insert_time in E. destruct (stop_time_checks _ _) eqn:Hc; [|done]. cbn [negb] in E.
  destruct (bool_decide _); [done|]. destruct (_ && _) eqn:Hk; [|done]. injection E as <-.
  apply andb_true_iff in Hk as [H1%known_on_file H2%known_on_file]. same_tables. by apply map_Forall_insert_2.
Qed.
Lemma insert_keeps_alert r : step_keeps transit_ok (insert_alert r).
Proof.
  open_step E. unfold insert_alert in E. destruct (alert_checks _) eqn:Hc; [|done]. cbn [negb] in E.
  destruct (known _ _); [done|]. destruct (_ && _) eqn:Hk; [|done]. injection E as <-.
  apply andb_true_iff in Hk as [H1%known_or_null_on_file H2%known_or_null_on_file]. same_tables. by apply map_Forall_insert_2.
Qed.
Lemma delete_keeps_times p d : transit_ok d → transit_ok (delete_times p d).
Proof. intros [? ? ? ? ? ? ? ?]. same_tables. by apply map_Forall_filtered. Qed.
Lemma delete_keeps_vessels p `{∀ x, Decision (p x)} d : transit_ok d → transit_ok (on_route_vessels (filter p) d).
Proof. intros [? ? ? ? ? ? ? ?]. same_tables. by apply map_Forall_filtered. Qed.
Lemma delete_keeps_trips tenant id : step_keeps transit_ok (delete_trips tenant id).
Proof.
  open_step E. unfold delete_trips in E. case_bool_decide as Hd; [|done]. injection E as <-. same_tables; [by apply map_Forall_filtered|].
  intros k row Hk. destruct (stop_times_ok0 k row Hk) as (? & ? & [t Ht] & ?). split_and!; [done..| |done].
  specialize (Hd k row Hk). cbn in Hd. rewrite Ht in Hd. exists t. apply map_lookup_filter_Some. by apply negb_true_iff in Hd.
Qed.
Lemma delete_keeps_route tenant id : step_keeps transit_ok (delete_route_row tenant id).
Proof.
  open_step E. unfold delete_route_row in E. destruct (_ !! id) as [r|]; [|by injection E as <-].
  destruct (negb _); [by injection E as <-|]. destruct (_ && _) eqn:Hd; [|done]. injection E as <-.
  apply andb_true_iff in Hd as [[H1%bool_decide_eq_true H2%bool_decide_eq_true]%andb_true_iff H3%bool_decide_eq_true].
  same_tables; [by apply map_Forall_delete|..]; intros k x Hk.
  - destruct (trips_ok0 k x Hk) as (? & ? & ? & ?). split_and!; [done..| |done]. apply on_file_delete; [done|]. by apply (H1 k).
  - destruct (route_vessels_ok0 k x Hk) as (? & ? & ?). split_and!; [done..|]. apply on_file_delete; [done|]. by apply (H2 k).
  - destruct (alerts_ok0 k x Hk) as (? & ? & [?|?] & ?); (split_and!; [done..| |done]); [by left|right].
    apply on_file_delete; [done|]. by apply (H3 k).
Qed.
Lemma delete_keeps_stop tenant id : step_keeps transit_ok (delete_stop_row tenant id).
Proof.
  open_step E. unfold delete_stop_row in E. destruct (_ !! id) as [r|]; [|by injection E as <-].
  destruct (negb _); [by injection E as <-|]. destruct (_ && _) eqn:Hd; [|done]. injection E as <-.
  apply andb_true_iff in Hd as [H1%bool_decide_eq_true H2%bool_decide_eq_true].
  same_tables; [by apply map_Forall_delete|..]; intros k x Hk.
  - destruct (stop_times_ok0 k x Hk) as (? & ? & ? & ?). split_and!; [done..|]. apply on_file_delete; [done|]. by apply (H1 k).
  - destruct (alerts_ok0 k x Hk) as (? & ? & ? & [?|?]); (split_and!; [done..|]); [by left|right].
    apply on_file_delete; [done|]. by apply (H2 k).
Qed.
Lemma alert_of_Some tenant id d a : alert_of tenant id d = Some a → transit_alerts d !! id = Some a ∧ al_TenantID a = tenant.
Proof.
  unfold alert_of. intros (x & Hx & E)%bind_Some. destruct (String.eqb_spec (al_TenantID x) tenant); [|done]. by injection E as <-.
Qed.
Lemma retire_keeps tenant id a d : alert_of tenant id d = Some a → transit_ok d → transit_ok (on_alerts <[id := retire_alert a]> d).
Proof.
  intros [Ha _]%alert_of_Some [? ? ? ? ? ? ? ?]. same_tables. apply map_Forall_insert_2; [|done]. exact (alerts_ok0 id a Ha).
Qed.

Lemma do_keeps_ok tenant op : keeps (on_db transit_ok) (transit_do tenant op).
Proof.
  apply do_keeps; intros.
  - apply upsert_keeps_agency.
  - apply upsert_keeps_route.
  - apply upsert_keeps_stop.
  - apply upsert_keeps_calendar.
  - apply upsert_keeps_trip.
  - apply upsert_keeps_vessel.
  - by apply delete_keeps_times.
  - apply insert_keeps_time.
  - apply delete_keeps_trips.
  - by apply delete_keeps_vessels.
  - apply delete_keeps_route.
  - apply delete_keeps_stop.
  - apply insert_keeps_alert.
  - by eapply retire_keeps.
Qed.

(** ** Rows of other tenants *)

Section foreign.
Context {K A} `{Countable K} (tof : A → string) (tenant : string).
Abbreviation foreign m := (filter (λ kv : K * A, tof kv.2 ≠ tenant) m).
Lemma foreign_ext (m m' : gmap K A) :
  (∀ k x, tof x ≠ tenant → m' !! k = Some x ↔ m !! k = Some x) → foreign m' = foreign m.
Proof. intros Hm. apply map_eq. intros k. apply option_eq. intros x. rewrite !map_lookup_filter_Some. cbn. naive_solver. Qed.
Lemma foreign_insert (m : gmap K A) k x :
  tof x = tenant → (∀ old, m !! k = Some old → tof old = tenant) → foreign (<[k := x]> m) = foreign m.
Proof.
  intros Hx Ho. apply foreign_ext. intros j y Hy. destruct (decide (k = j)) as [<-|]; [|by rewrite lookup_insert_ne].
  rewrite lookup_insert_eq. naive_solver.
Qed.
Lemma foreign_filter (m : gmap K A) (p : A → bool) :
  (∀ x, p x = true → tof x = tenant) → foreign (filter (λ kv, p kv.2 = false) m) = foreign m.
Proof.
  intros Hp. apply foreign_ext. intros k x Hx. rewrite map_lookup_filter_Some. cbn. specialize (Hp x). destruct (p x); naive_solver.
Qed.
Lemma foreign_delete (m : gmap K A) k x : m !! k = Some x → tof x = tenant → foreign (delete k m) = foreign m.
Proof.
  intros Hk Hx. apply foreign_ext. intros j y Hy. destruct (decide (k = j)) as [<-|]; [|by rewrite lookup_delete_ne].
  rewrite lookup_delete_eq. naive_solver.
Qed.
End foreign.

Ltac one_table := unfold others; cbn; f_equal.
Lemma do_keeps_others tenant D op : keeps (on_db (λ d, others tenant d = D)) (transit_do tenant op).
Proof.
  apply do_keeps.
  1-5: intros r Hr d d' (_ & _ & -> & Ho)%upsert_Ok <-; one_table; by apply foreign_insert.
  - intros r d d' (_ & _ & -> & Ho)%upsert_Ok <-. one_table. by apply foreign_insert.
  - intros p d Hp <-. one_table. by apply foreign_filter.
  - intros trip t d d' E <-. unfold insert_time in E. destruct (negb _); [done|]. case_bool_decide as Hn; [done|].
    destruct (_ && _); [|done]. injection E as <-. one_table. apply foreign_insert; [done|]. intros old Ho. by destruct Hn.
  - intros id d d' E <-. unfold delete_trips in E. case_bool_decide; [|done]. injection E as <-. one_table.
    apply (foreign_filter _ _ _ (λ t, mine (tp_TenantID t) tenant (String.eqb (tp_RouteID t) id))). intros x. apply mine_tenant.
  - intros id d <-. one_table. apply (foreign_filter _ _ _ (λ v, mine v.1 tenant (String.eqb (rv_RouteID v.2) id))). intros x. apply mine_tenant.
  - intros id d d' E <-. unfold delete_route_row in E. destruct (_ !! id) as [r|] eqn:Hr; [|by injection E as <-].
    destruct (String.eqb_spec (ro_TenantID r) tenant); cbn [negb] in E; [|by injection E as <-].
    destruct (_ && _); [|done]. injection E as <-. one_table. by eapply foreign_delete.
  - intros id d d' E <-. unfold delete_stop_row in E. destruct (_ !! id) as [r|] eqn:Hr; [|by injection E as <-].
    destruct (String.eqb_spec (sp_TenantID r) tenant); cbn [negb] in E; [|by injection E as <-].
    destruct (_ && _); [|done]. injection E as <-. one_table. by eapply foreign_delete.
  - intros r Hr d d' E <-. unfold insert_alert in E. destruct (negb _); [done|]. destruct (known _ _) eqn:Hk; [done|].
    destruct (_ && _); [|done]. injection E as <-. one_table. apply foreign_insert; [done|]. intros old Ho.
    exfalso. assert (known (transit_alerts d) (al_AlertID r) = true); [|congruence]. apply known_on_file. by exists old.
  - intros id a d [Ha Ht]%alert_of_Some <-. one_table. apply foreign_insert; [done|]. naive_solver.
Qed.

Lemma run_keeps (P : transit_db → Prop) ops :
  (∀ op, op ∈ ops → keeps (on_db P) (transit_do op.1 op.2)) → keeps (on_db P) (transit_run ops).
Proof.
  intros Hk. apply keeps_each. intros op Hop. apply keeps_bind; [|intros; apply keeps_ret]. by apply keeps_attempt, Hk.
Qed.

Lemma own_others tenant tenant' d : tenant ≠ tenant' → own tenant (others tenant' d) = own tenant d.
Proof.
  intros Hne. unfold own, others. cbn. f_equal; apply map_eq; intros k; apply option_eq; intros x; rewrite !map_lookup_filter_Some; cbn; naive_solver.
Qed.
Lemma do_keeps_own tenant tenant' D op : tenant ≠ tenant' → keeps (on_db (λ d, own tenant d = D)) (transit_do tenant' op).
Proof.
  intros Hne w Hw. unfold on_db in *. pose proof (do_keeps_others tenant' _ op w eq_refl) as Ho. cbn in Ho. unfold on_db in Ho.
  by rewrite <- (own_others _ tenant'), Ho, own_others.
Qed.

(** C13: the registry stays a registry. Whatever operations and seed loads the tenants run,
    in whatever order and whichever calls of the database fail, every row that is kept is
    filed under its own key, satisfies the checks of its table and refers to rows that
    exist (a trip to its route and calendar, a stop time to its trip and stop, an
    assignment to its route, an alert to its route or stop); and a tenant that runs none of
    the operations keeps exactly its rows, in every table. *)
Theorem registry_kept (ops : list (string * transit_op)) (w : env transit_world) :
  transit_ok (tw_db (e_state w)) →
  let d' := tw_db (e_state (transit_run ops w).1) in
  transit_ok d' ∧ ∀ tenant, (∀ op, op ∈ ops → op.1 ≠ tenant) → own tenant d' = own tenant (tw_db (e_state w)).
Proof.
  intros Hok. split.
  - apply (run_keeps transit_ok); [|done]. intros op _. apply do_keeps_ok.
  - intros tenant Hne. apply (run_keeps (λ d, own tenant d = own tenant (tw_db (e_state w)))); [|done].
    intros op Hop. apply do_keeps_own. symmetry. by apply Hne.
Qed.
