(* ===== verification/FeedsApi.v ===== *)
(** * The feed handlers

    [internal/api/feeds.go] and the rows of the route table in [internal/api/server.go] that
    reach it: the static archive, the realtime feeds, conditional answers by entity tag and
    the creation of alerts.  The zip and protobuf encoders are parameters. *)
From S2P Require Import Prelude GoTime GoParse GoFloat Track Classification Effects Store Auth Http Transit Eta GtfsStatic GtfsFeed.

Inductive feed_body :=
| FeedError (message : string)
| FeedPayload (etag contentType downloadName : string) (payload : list Z)
| FeedNotModified (etag : string)
| AlertCreated (alertID : string).
Definition refuse_feed (r : response) : answer feed_body :=
  mkAnswer (rs_status r) (FeedError (match rs_body r with (_, Sign.JStr m) :: _ => m | _ => "" end)).
Definition feed_error (status : Z) (message : string) : answer feed_body := refuse_feed (writeError status message).
Definition StatusNotModified : Z := 304.

Definition servePayload (if_none_match : string) (payload : list Z) (etag contentType downloadName : string) : answer feed_body :=
  let match_ := TrimSpace if_none_match in
  if negb (String.eqb match_ "") && String.eqb match_ etag then mkAnswer StatusNotModified (FeedNotModified etag)
  else mkAnswer StatusOK (FeedPayload etag contentType downloadName payload).

(** [strings.Contains]. *)
Fixpoint contains (needle s : string) : bool :=
  String.prefix needle s || match s with EmptyString => false | String _ rest => contains needle rest end.
Definition parseOptionalRFC3339 (raw : string) : option (option Z) :=
  let raw := TrimSpace raw in if String.eqb raw "" then Some None else Some <$> parse_rfc3339 raw.

(** The decoded body. *)
Record createAlertRequest := mkCreateAlert {
  ca_AlertID : string; ca_Cause : string; ca_Effect : string; ca_RouteID : string; ca_StopID : string; ca_StartsAt : string;
  ca_EndsAt : string; ca_HeaderText : string; ca_DescriptionText : string; ca_URL : string }.

Section handlers.
Context `{Math} (int64_overflow : float64 → Z) (LoadLocation : string → option location).
Context (text_le : relation string) `{∀ a b, Decision (text_le a b)} (config : Config).
Context (zip_bytes : list (string * string) → option (list Z)) (marshal : FeedMessage → option (list Z)).
(** [strings.ToUpper], the text of a failed connection, and an identifier drawn at random. *)
Context (ToUpper : string → string) (driver_text uuid : string).
Abbreviation guarded_by p := (principalOrFail p (λ r, mret (refuse_feed r))).
Abbreviation tenant_of principal := (tenantOrFail principal (λ r, mret (refuse_feed r))).

Definition serveGTFSZip (wired : bool) (p : option Principal) (if_none_match : string) : IO (answer feed_body) :=
  guarded_by p (λ principal, tenant_of principal (λ tenant,
    if negb wired then mret (feed_error StatusServiceUnavailable "static feed factory not wired")
    else
      let failed := feed_error StatusInternalServerError "gtfs static feed build failed" in
      answering (LoadTransitRegistry text_le tenant) (λ _, failed) (λ registry,
        match BuildStaticZip zip_bytes registry with
        | Err _ => mret failed
        | Ok (payload, etag) =>
            _ ← count "geo_feed_build_total" "gtfs" 1;
            mret (servePayload if_none_match payload etag "application/zip" "gtfs.zip")
        end))).

Inductive feed_kind := VehiclePositionsFeed | TripUpdatesFeed | AlertsFeed.
(** The builder of a kind of feed. *)
Definition build_feed (kind : feed_kind) (now : Z) (tenant : string) (labels : list string) : IO FeedMessage :=
  match kind with
  | VehiclePositionsFeed => BuildVehiclePositions LoadLocation text_le config now tenant labels
  | TripUpdatesFeed => BuildTripUpdates int64_overflow LoadLocation text_le config now tenant labels
  | AlertsFeed => BuildAlerts text_le now tenant
  end.
Definition serveRealtime (kind : feed_kind) (wired : bool) (p : option Principal) (now : Z) (if_none_match : string) :
  IO (answer feed_body) :=
  guarded_by p (λ principal, tenant_of principal (λ tenant,
    if negb wired then mret (feed_error StatusServiceUnavailable "gtfs-rt producer not wired")
    else
      let failed := feed_error StatusInternalServerError "gtfs-rt feed build failed" in
      answering (build_feed kind now tenant (clearedLabels (Clearance principal))) (λ _, failed) (λ feed,
        mret (match marshal feed with
              | None => failed
              | Some payload => servePayload if_none_match payload (entity_tag payload) "application/x-protobuf" ""
              end)))).

(** ** Alerts *)

(** [err.Error()] of what [CreateTransitAlert] returns; of PostgreSQL's messages, the
    phrase that names the kind of failure. *)
Definition alert_error_text (e : transit_error) : string :=
  match e with
  | IDRequired name => name +:+ " is required"
  | AlertScope => "alert must be scoped to a route or a stop"
  | AlertCreator => "alert created_by principal is required"
  | TransitTenantRequired => "tenant id is required for tenant-scoped access"
  | CheckViolation => "new row for relation transit_alerts violates check constraint"
  | ForeignKeyViolation => "insert or update on table transit_alerts violates foreign key constraint"
  | DuplicateKey => "duplicate key value violates unique constraint"
  | RowSecurity => "new row violates row-level security policy"
  | _ => driver_text
  end.
Definition alert_refused (e : transit_error) : answer feed_body :=
  let text := alert_error_text e in
  if contains "check" text || contains "violates" text
  then feed_error StatusBadRequest "alert rejected: invalid cause/effect, window or scope"
  else if contains "duplicate key" text then feed_error StatusConflict "alert_id already exists"
  else feed_error StatusInternalServerError "alert create failed".
Definition or_default (s d : string) : string := if String.eqb s "" then d else s.
Definition new_alert (principal : Principal) (body : createAlertRequest) (alertID : string) (startsAt endsAt : option Z) : TransitAlert :=
  mkAlert alertID "" (or_default (ToUpper (TrimSpace (ca_Cause body))) "UNKNOWN_CAUSE")
    (or_default (ToUpper (TrimSpace (ca_Effect body))) "UNKNOWN_EFFECT") (TrimSpace (ca_RouteID body)) (TrimSpace (ca_StopID body))
    startsAt endsAt (TrimSpace (ca_HeaderText body)) (TrimSpace (ca_DescriptionText body)) (TrimSpace (ca_URL body)) true (Subject principal) 0.
Definition createTransitAlert (p : option Principal) (body : http_body createAlertRequest) : IO (answer feed_body) :=
  guarded_by p (λ principal, tenant_of principal (λ tenant,
    match body with
    | BodyUnreadable | BodyInvalid => mret (feed_error StatusBadRequest "alert payload must be valid JSON")
    | Body body =>
        if String.eqb (ca_RouteID body) "" && String.eqb (ca_StopID body) ""
        then mret (feed_error StatusBadRequest "alert must be scoped to a route or a stop")
        else if blank (ca_HeaderText body) then mret (feed_error StatusBadRequest "header_text is required")
        else
          match parseOptionalRFC3339 (ca_StartsAt body), parseOptionalRFC3339 (ca_EndsAt body) with
          | None, _ => mret (feed_error StatusBadRequest "starts_at must be RFC 3339")
          | _, None => mret (feed_error StatusBadRequest "ends_at must be RFC 3339")
          | Some startsAt, Some endsAt =>
              let alertID := or_default (TrimSpace (ca_AlertID body)) ("alert-" +:+ uuid) in
              answering (CreateTransitAlert tenant (new_alert principal body alertID startsAt endsAt)) alert_refused (λ _,
                _ ← count "geo_transit_alerts_created_total" "" 1;
                mret (mkAnswer StatusCreated (AlertCreated alertID)))
          end
    end)).

(** ** Routes *)

Inductive feed_request :=
| GetGTFS (if_none_match : string)
| GetRealtime (kind : feed_kind) (now : Z) (if_none_match : string)
| PostTransitAlert (body : http_body createAlertRequest).
Definition feed_roles (r : feed_request) : list string :=
  match r with
  | GetGTFS _ | GetRealtime _ _ _ => ["geo-reader"; "geo-zone-maker"; "geo-zone-checker"; "geo-admin"]
  | PostTransitAlert _ => ["geo-transit-admin"; "geo-admin"]
  end.
Definition feed_dispatch (wired : bool) (r : feed_request) (p : option Principal) : IO (answer feed_body) :=
  match r with
  | GetGTFS if_none_match => serveGTFSZip wired p if_none_match
  | GetRealtime kind now if_none_match => serveRealtime kind wired p now if_none_match
  | PostTransitAlert body => createTransitAlert p body
  end.
Definition feed_handler (wired : bool) (outcome : result auth_error Principal) (r : feed_request) : guarded (IO (answer feed_body)) :=
  Middleware outcome (RequireRoles (feed_roles r) (λ p, feed_dispatch wired r (Some p))).
End handlers.
