(* ===== verification/TransitSamples.v ===== *)
(** * The example registry

    The seed document of [fixtures/transit_seed.example.yaml], loaded into empty tables, the
    ferry of its assignment under way on a Monday morning, and the feeds built from them. *)
From S2P Require Import Prelude GoTime GoParse GoFloat Track Classification Types Effects Store Auth Http Validate Transit Eta GtfsStatic GtfsFeed RealtimeProps TransitSeed TransitProps FeedsApi.
From Stdlib Require Import SpecFloat.

Module TransitSamples.
#[local] Existing Instance small_angle_math.
Definition no_location (name : string) : option GtfsFeed.location := None.
Definition no_overflow (x : float64) : Z := 0.
Definition defaults : Config := withDefaults (mkConfig 0 f_zero f_zero 0 0 0 0 0).

(** ** The document *)

Definition document : TransitSeed := mkTransitSeed
  [mkSeedAgency "niwa" "National Inland Waterways Authority" "https://niwa.gov.ng" "Africa/Lagos" "en" ""]
  [mkSeedRoute "R-MARINA-IKORODU" "niwa" "F1" "Marina — Ikorodu" 4 8000 (Some true)]
  [mkSeedStop "JETTY-MARINA" "Marina Jetty" 6451830 3400100 "LAGOS-CENTRAL";
   mkSeedStop "JETTY-FALOMO" "Falomo Jetty" 6435500 3417600 "LAGOS-CENTRAL";
   mkSeedStop "JETTY-IKORODU" "Ikorodu Terminal" 6619400 3503300 "IKORODU"]
  [mkSeedCalendar "WEEKDAY" [true; true; true; true; true; false; false] "2026-01-01" "2027-12-31"]
  [mkSeedTrip "F1-0800-OUT" "R-MARINA-IKORODU" "WEEKDAY" "Ikorodu" (Some 0)]
  [mkSeedStopTimes "F1-0800-OUT"
     [mkSeedVisit "JETTY-MARINA" 28800 28800; mkSeedVisit "JETTY-FALOMO" 29700 29820; mkSeedVisit "JETTY-IKORODU" 32400 32400]]
  [mkSeedAssignment "R-MARINA-IKORODU" "657123400" "" "2026-01-01T00:00:00Z" ""].

(** Monday, 31 August 2026, 08:10. *)
Definition morning : Z := time_Date_at 2026 8 31 8 10 0.
Definition under_way : LatestRow :=
  mkLatest "p-1" "AIS" "POINT(3.4088 6.4437)" 6443700 3408800 (Some 7500) (Some 135000) None None "PUBLIC" (morning - 30 * second).
Definition seen (id : string) (speed at_ : Z) : Position :=
  mkPosition id "657123400" "" "AIS" 6443700 3408800 (Some speed) None None None "" "rx-1" None "" "" "" "PUBLIC" (morning - at_ * second).
Definition plane : ingest_db :=
  mkDB [seen "p-1" 7500 30; seen "p-2" 8100 60; seen "p-3" 7900 90] [] {["657123400" := under_way]} ∅ [] [] [].
Definition harbour : env transit_world := mkEnv [] (mkTransitWorld empty_transit plane morning []).
Definition load : list (string * transit_op) := [("niwa", LoadSeed (Some document))].
Definition first_load := SeedTransitRegistry "niwa" (Some document) harbour.
Definition loaded : env transit_world := (transit_run load harbour).1.

Example document_loads : first_load.2 = Ok tt.
Proof. vm_compute. reflexivity. Qed.
Definition vehicles := BuildVehiclePositions no_location str_le defaults morning "niwa" ["PUBLIC"] loaded.
Definition updates := BuildTripUpdates no_overflow no_location str_le defaults morning "niwa" ["PUBLIC"] loaded.
Definition feed_of (run : env transit_world * result transit_error FeedMessage) : FeedMessage :=
  match run.2 with Ok feed => feed | Err _ => mkFeed 0 [] end.

Lemma registry_kept_witness :
  transit_ok (tw_db (e_state loaded)) ∧ ∀ tenant, tenant ≠ "niwa" → own tenant (tw_db (e_state loaded)) = own tenant empty_transit.
Proof.
  pose proof (registry_kept load harbour) as Hk. destruct Hk as [Hok Hown].
  - constructor; apply map_Forall_empty.
  - split; [exact Hok|]. intros tenant Hne. apply Hown. intros op [->|Hop]%elem_of_cons; [by apply not_eq_sym|by apply elem_of_nil in Hop].
Defined.
Lemma loading_is_idempotent_witness :
  SeedTransitRegistry "niwa" (Some document) (mkEnv [] (e_state first_load.1)) = (mkEnv [] (e_state first_load.1), Ok tt).
Proof.
  apply (loading_is_idempotent "niwa" document harbour first_load.1).
  - constructor; apply (bool_decide_unpack _); vm_compute; exact I.
  - vm_compute. reflexivity.
Defined.
(** The ferry is shown on its trip, on the way to the second jetty. *)
Lemma vehicle_feed_exact_witness :
  length (fm_Entities (feed_of vehicles)) = 1%nat ∧ ∀ e, e ∈ fm_Entities (feed_of vehicles) →
  ∃ v l vp, on_duty (e_state loaded) "niwa" ["PUBLIC"] morning (StaleAfter defaults) v l ∧ reports v l e vp.
Proof.
  destruct (vehicle_feed_exact no_location str_le defaults morning "niwa" ["PUBLIC"] loaded vehicles.1 (feed_of vehicles)) as [He _].
  - vm_compute. reflexivity.
  - split; [vm_compute; reflexivity|exact He].
Defined.
Lemma trip_updates_are_earned_witness :
  length (fm_Entities (feed_of updates)) = 1%nat ∧ ∀ e, e ∈ fm_Entities (feed_of updates) →
  ∃ v l t u, on_duty (e_state loaded) "niwa" ["PUBLIC"] morning (StaleAfter defaults) v l ∧
             predicts defaults (e_state loaded) "niwa" ["PUBLIC"] v l e t u.
Proof.
  split; [vm_compute; reflexivity|]. apply (trip_updates_are_earned no_overflow no_location str_le defaults morning "niwa" ["PUBLIC"] loaded updates.1 (feed_of updates)).
  vm_compute. reflexivity.
Defined.
Example ferry_shown :
  fe_Id <$> fm_Entities (feed_of vehicles) = ["vp:657123400"] ∧
  (λ e, match fe_Content e with EVehicle v => vp_Stop v | _ => None end) <$> fm_Entities (feed_of vehicles) =
    [Some (2, "JETTY-FALOMO", IN_TRANSIT_TO)] ∧
  (λ e, match fe_Content e with ETripUpdate u => (λ x, (su_StopId x, su_ArrivalDelay x)) <$> tu_StopTimeUpdates u | _ => [] end)
    <$> fm_Entities (feed_of updates) = [[("JETTY-FALOMO", 29); ("JETTY-IKORODU", 2880)]].
Proof. vm_compute. done. Qed.

(** ** What the code does on other documents *)

Definition with_routes (routes : list SeedRoute) (seed : TransitSeed) : TransitSeed :=
  mkTransitSeed (seed_Agencies seed) routes (seed_Stops seed) (seed_Calendars seed) (seed_Trips seed) (seed_StopTimes seed) (seed_Assignments seed).
Definition load_of (seed : TransitSeed) := SeedTransitRegistry "niwa" (Some seed) harbour.
Definition static_of (w : env transit_world) : option (list (string * string)) :=
  match (LoadTransitRegistry str_le "niwa" w).2 with
  | Ok r => match renderFiles r with Ok files => Some files | Err _ => None end
  | Err _ => None
  end.
Definition rows_in (name : string) (w : env transit_world) : list (list string) :=
  default [] (files ← static_of w; f ← List.find (λ f, String.eqb f.1 name) files; read_csv f.2).

(** A route that is not active is left out of [routes.txt] while its trip stays in
    [trips.txt]. *)
Definition resting : env transit_world :=
  (load_of (with_routes [mkSeedRoute "R-MARINA-IKORODU" "niwa" "F1" "" 4 8000 (Some false)] document)).1.
Example inactive_route_leaves_its_trips :
  length (rows_in "routes.txt" resting) = 1%nat ∧ "R-MARINA-IKORODU" ∈ omap head (rows_in "trips.txt" resting).
Proof. split; [vm_compute; reflexivity|]. apply (bool_decide_unpack _). vm_compute. exact I. Qed.
(** A load that fails at its second route leaves the first one and the agency behind. *)
Definition broken := load_of (with_routes (seed_Routes document ++ [mkSeedRoute "R-2" "nobody" "F2" "" 4 8000 None]) document).
Example aborted_load_stays :
  broken.2 = Err (SeedAt "routes" 1 ForeignKeyViolation) ∧
  on_file (transit_routes (tw_db (e_state broken.1))) "R-MARINA-IKORODU" ∧ transit_stops (tw_db (e_state broken.1)) = ∅.
Proof. split_and!; [vm_compute; reflexivity|eexists; vm_compute; reflexivity|vm_compute; reflexivity]. Qed.
(** A vessel may be assigned to two routes at once, and then its entity identifier is not
    unique. *)
Definition twice : env transit_world :=
  (SeedTransitRegistry "niwa" (Some (mkTransitSeed [] [mkSeedRoute "R-2" "niwa" "F2" "" 4 8000 None] [] [] [] []
     [mkSeedAssignment "R-2" "657123400" "" "" ""])) loaded).1.
Example vessel_on_two_routes :
  fe_Id <$> fm_Entities (feed_of (BuildVehiclePositions no_location str_le defaults morning "niwa" ["PUBLIC"] twice)) =
    ["vp:657123400"; "vp:657123400"].
Proof. vm_compute. reflexivity. Qed.
(** A trip that runs past midnight is not recognised once the day has changed: the windows
    are those of the service day that contains the time of the build. *)
Definition late_stop_times : TransitSeed :=
  mkTransitSeed [] [] [] [] [] [mkSeedStopTimes "F1-0800-OUT" [mkSeedVisit "JETTY-MARINA" 85800 85800; mkSeedVisit "JETTY-FALOMO" 88200 88200]] [].
Definition night : Z := time_Date_at 2026 9 1 0 10 0.
Definition night_world : env transit_world := (SeedTransitRegistry "niwa" (Some late_stop_times) loaded).1.
Definition late_trip (now : Z) : list (option string) :=
  match (LoadTransitRegistry str_le "niwa" night_world).2 with
  | Ok r => let '(plans, calendars) := buildPlans r in
            (λ kv, tp_TripID ∘ pl_trip <$> matchAssignmentTrip no_location defaults kv.2 calendars now) <$> map_to_list plans
  | Err _ => []
  end.
Example after_midnight_no_trip : late_trip (night - 15 * 60 * second) = [Some "F1-0800-OUT"] ∧ late_trip night = [None].
Proof. vm_compute. done. Qed.

(** An alert that exists already is answered as a bad request: the text of a duplicate key
    names a violation too. *)
Definition officer : Principal := mkPrincipal "officer" {["geo-transit-admin"]} "PUBLIC" "niwa".
Definition post (w : env transit_world) :=
  createTransitAlert id "" "u-1" (Some officer)
    (Body (mkCreateAlert "A-1" "WEATHER" "DETOUR" "R-MARINA-IKORODU" "" "" "" "High water" "" "")) w.
Definition status_of {B} (r : env transit_world * result transit_error (answer B)) : option Z :=
  match r.2 with Ok a => Some (an_status a) | Err _ => None end.
Example duplicate_alert_bad_request : status_of (post loaded) = Some 201 ∧ status_of (post (post loaded).1) = Some 400.
Proof. vm_compute. done. Qed.
End TransitSamples.
