(* ===== verification/SeedZones.v ===== *)
(** * The zone seed loader

    [internal/fence/geojson.go] and [cmd/geo-service/zoneseed.go]: a GeoJSON collection of
    polygons becomes version 1 of a geofence each.  The JSON decoder is left out: the
    document is its value, the coordinates of a feature absent when they are not rings of
    pairs. *)
From S2P Require Import Prelude Fence GoTime Types GoParse GoFloat Effects Store Decode Pipeline GeoStore GeoProps.

Import Fence.Geometry Fence.Zone.

Record SeedZone := mkSeedZone {
  sz_GeofenceID : string; sz_Name : string; sz_Category : string; sz_Classification : string; sz_VerticesMicros : list (Z * Z) }.
Record geoJSONFeature := mkFeature {
  ft_Type : string; ft_ID : string; ft_GeofenceID : string; ft_Name : string; ft_Category : string; ft_Classification : string;
  ft_GeometryType : string; ft_Coordinates : option (list (list (float64 * float64))) }.
Record geoJSONDocument := mkDocument { doc_Type : string; doc_Features : list geoJSONFeature }.

Inductive seed_zone_error :=
| SeedUnreadable | NotCollection | NoFeatures
| NotPolygon | RingsUnreadable | Holes (rings : nat) | ShortRing (n : nat) | PositionOutOfRange (i : nat) | BadRing (e : geometry_error)
| ZoneWithoutID | DuplicateZone (id : string) | ZoneWithoutName | CategoryRefused
| AtFeature (i : nat) (e : seed_zone_error)
| SeedTenantMissing | ZoneFailed (id : string) (e : geo_error).

Section zones.
Context `{FloatToInt}.
(** A position in range, in micro-degrees. *)
Definition position_micros (c : float64 * float64) : option (Z * Z) :=
  let '(lon, lat) := c in
  if f_lt lat (f_of_Z (-90)) || f_lt (f_of_Z 90) lat || f_lt lon (f_of_Z (-180)) || f_lt (f_of_Z 180) lon then None
  else Some (int32_round (f_mul lat million), int32_round (f_mul lon million)).
Fixpoint micro_positions (i : nat) (coords : list (float64 * float64)) : result seed_zone_error (list (Z * Z)) :=
  match coords with
  | [] => Ok []
  | c :: rest =>
      match position_micros c with
      | None => Err (PositionOutOfRange i)
      | Some v => ring ← micro_positions (S i) rest; Ok (v :: ring)
      end
  end.
Definition close_ring (ring : list (Z * Z)) : list (Z * Z) :=
  match ring with
  | [] => []
  | v :: _ => if bool_decide (v = List.last ring v) then ring else ring ++ [v]
  end.
Definition microRing (coords : list (float64 * float64)) : result seed_zone_error (list (Z * Z)) :=
  if (length coords <? 3)%nat then Err (ShortRing (length coords))
  else ring ← micro_positions 0 coords; Ok (close_ring ring).
Definition pointsOf (ring : list (Z * Z)) : list Point := (λ v, mkPoint v.1 v.2) <$> ring.

Definition feature_ring (f : geoJSONFeature) : result seed_zone_error (list (Z * Z)) :=
  match ft_Coordinates f with
  | None => Err RingsUnreadable
  | Some [coords] =>
      ring ← microRing coords;
      match ValidateGeometry (pointsOf ring) with Err e => Err (BadRing e) | Ok _ => Ok ring end
  | Some rings => Err (Holes (length rings))
  end.
Definition feature_id (f : geoJSONFeature) : string := if String.eqb (ft_GeofenceID f) "" then ft_ID f else ft_GeofenceID f.
Definition zone_of_feature (seen : list string) (f : geoJSONFeature) : result seed_zone_error SeedZone :=
  if negb (String.eqb (ft_Type f) "Feature" && String.eqb (ft_GeometryType f) "Polygon") then Err NotPolygon
  else
    ring ← feature_ring f;
    let id := feature_id f in
    if String.eqb id "" then Err ZoneWithoutID
    else if bool_decide (id ∈ seen) then Err (DuplicateZone id)
    else if String.eqb (ft_Name f) "" then Err ZoneWithoutName
    else match NormalizeZoneCategory (ft_Category f) with
         | None => Err CategoryRefused
         | Some category =>
             Ok (mkSeedZone id (ft_Name f) category (if String.eqb (ft_Classification f) "" then "INTERNAL" else ft_Classification f) ring)
         end.
Fixpoint load_features (i : nat) (seen : list string) (features : list geoJSONFeature) : result seed_zone_error (list SeedZone) :=
  match features with
  | [] => Ok []
  | f :: rest =>
      match zone_of_feature seen f with
      | Err e => Err (AtFeature i e)
      | Ok z => zones ← load_features (S i) (sz_GeofenceID z :: seen) rest; Ok (z :: zones)
      end
  end.
(** The file, when it is read and is JSON of the type. *)
Definition LoadSeedZones (doc : option geoJSONDocument) : result seed_zone_error (list SeedZone) :=
  match doc with
  | None => Err SeedUnreadable
  | Some doc =>
      if negb (String.eqb (doc_Type doc) "FeatureCollection") then Err NotCollection
      else if bool_decide (doc_Features doc = []) then Err NoFeatures
      else load_features 0 [] (doc_Features doc)
  end.

(** ** The boot loader *)

Context (row_security : bool).
Definition seed_row (tenantID : string) (zone : SeedZone) : FenceRow :=
  mkFenceRow (sz_GeofenceID zone) 0 tenantID (sz_Name zone) (sz_Classification zone) (Some (pointsOf (sz_VerticesMicros zone))) 0 0 ""
    (sz_Category zone) "zone-seed" 0 None.
(** Whether the zone was created; one that exists is skipped. *)
Definition seed_zone (tenantID : string) (zone : SeedZone) : M geo_world geo_error bool :=
  r ← attempt (GetGeofenceHistory row_security tenantID (sz_GeofenceID zone));
  match r with
  | Ok _ => mret false
  | Err FenceNoRows => _ ← CreateGeofenceVersion row_security (seed_row tenantID zone) 0; mret true
  | Err e => fail e
  end.
Fixpoint seed_zones (tenantID : string) (zones : list SeedZone) (seeded skipped : nat) : M geo_world seed_zone_error (nat * nat) :=
  match zones with
  | [] => mret (seeded, skipped)
  | zone :: rest =>
      created ← relabel (ZoneFailed (sz_GeofenceID zone)) (seed_zone tenantID zone);
      if created : bool then seed_zones tenantID rest (S seeded) skipped else seed_zones tenantID rest seeded (S skipped)
  end.
(** The two settings, and what the file at the path holds; the counts that are logged, when
    a path is set. *)
Definition seedZonesFromGeoJSON (path tenant : string) (files : string → option geoJSONDocument) :
  M geo_world seed_zone_error (option (nat * nat)) :=
  let path := TrimSpace path in
  if String.eqb path "" then mret None
  else
    let tenantID := TrimSpace tenant in
    if String.eqb tenantID "" then fail SeedTenantMissing
    else match LoadSeedZones (files path) with
         | Err e => fail e
         | Ok zones => counts ← seed_zones tenantID zones 0 0; mret (Some counts)
         end.
End zones.

(** ** Seeding protection zones

    A document is loaded whole or not at all, with closed rings in range; the boot loader
    adds first versions for the zones the tenant does not have and changes no other row. *)

Import Fence.Geometry Fence.Zone.

(** ** The document *)

Section document.
Context `{FloatToInt}.
Record zone_sound (z : SeedZone) : Prop := mkZoneSound {
  zs_ring : ValidateGeometry (pointsOf (sz_VerticesMicros z)) = Ok tt;
  zs_id : sz_GeofenceID z ≠ "";
  zs_name : sz_Name z ≠ "";
  zs_category : AdmittedZoneCategory (sz_Category z) = true;
}.
Lemma NormalizeZoneCategory_admitted c c' : NormalizeZoneCategory c = Some c' → AdmittedZoneCategory c' = true.
Proof.
  unfold NormalizeZoneCategory. destruct (String.eqb_spec c ""); [by intros [= <-]|]. destruct (AdmittedZoneCategory c) eqn:E; [|done].
  by intros [= <-].
Qed.
Lemma zone_of_feature_sound seen f z :
  zone_of_feature seen f = Ok z → zone_sound z ∧ sz_GeofenceID z = feature_id f ∧ sz_GeofenceID z ∉ seen.
Proof.
  unfold zone_of_feature. destruct (negb _); [done|]. destruct (feature_ring f) as [ring|e] eqn:Hr; [|done]. cbn.
  destruct (String.eqb_spec (feature_id f) ""); [done|]. case_bool_decide; [done|]. destruct (String.eqb_spec (ft_Name f) ""); [done|].
  destruct (NormalizeZoneCategory _) as [c|] eqn:Hc; [|done]. intros [= <-]. cbn. split_and!; [|done..]. split; cbn; try done.
  - unfold feature_ring in Hr. destruct (ft_Coordinates f) as [[|coords [|]]|]; try done. destruct (microRing coords); [|done]. cbn in Hr.
    destruct (ValidateGeometry _) as [[]|] eqn:Hv; [|done]. injection Hr as <-. done.
  - by eapply NormalizeZoneCategory_admitted.
Qed.
Lemma load_features_sound i seen features zones :
  load_features i seen features = Ok zones →
  Forall zone_sound zones ∧ sz_GeofenceID <$> zones = feature_id <$> features ∧ NoDup (sz_GeofenceID <$> zones) ∧
  ∀ id, id ∈ sz_GeofenceID <$> zones → id ∉ seen.
Proof.
  revert i seen zones. induction features as [|f features IH]; intros i seen zones; cbn [load_features].
  { intros [= <-]. split_and!; [done|done|constructor|]. by intros id ?%elem_of_nil. }
  destruct (zone_of_feature seen f) as [z|e] eqn:Hz; [|done]. destruct (load_features _ _ _) as [zs|e] eqn:Hl; [|done]. intros [= <-].
  apply zone_of_feature_sound in Hz as (Hs & Hid & Hnew). apply IH in Hl as (Hzs & Hids & Hnd & Hseen). split_and!.
  - by constructor.
  - rewrite !fmap_cons. congruence.
  - rewrite fmap_cons. constructor; [|done]. intros Hin. apply (Hseen _ Hin). left.
  - rewrite fmap_cons. intros id [->|Hin]%elem_of_cons; [done|]. specialize (Hseen _ Hin). set_solver.
Qed.
Lemma LoadSeedZones_sound doc zones :
  LoadSeedZones doc = Ok zones → Forall zone_sound zones ∧ NoDup (sz_GeofenceID <$> zones) ∧
  ∃ d, doc = Some d ∧ sz_GeofenceID <$> zones = feature_id <$> doc_Features d.
Proof.
  unfold LoadSeedZones. destruct doc as [d|]; [|done]. destruct (negb _); [done|]. case_bool_decide; [done|].
  intros (? & ? & ? & _)%load_features_sound. eauto.
Qed.
End document.

(** ** The loader *)

Lemma own_fences_none tn id rows now : own_fences tn id rows = [] → map (retire_row tn id now) rows = rows.
Proof.
  unfold own_fences. induction rows as [|r rows IH]; [done|]. rewrite filter_cons. case_decide as Hd; [done|]. intros Hn. cbn [map].
  rewrite IH by done. f_equal. unfold retire_row. by destruct (of_fence tn id r).
Qed.
Definition first_version (tenant : string) (z : SeedZone) (now : Z) : FenceRow :=
  mkFenceRow (sz_GeofenceID z) 1 tenant (sz_Name z) (sz_Classification z) (Some (pointsOf (sz_VerticesMicros z))) 0 0 "ACTIVE"
    (zoneCategoryOrGeneral (sz_Category z)) "zone-seed" (pg_time now) None.
Definition fence_table (w : env geo_world) : list FenceRow := gt_fences (geo_tables_of (e_state w)).

Section loader.
Context `{FloatToInt} (row_security : bool).
(** A creation leaves the table or appends the first version. *)
Definition adds (tenant : string) (z : SeedZone) (rows rows' : list FenceRow) : Prop := ∃ now, rows' = rows ++ [first_version tenant z now].
Lemma create_refines tenant z :
  refines_on geo_tables_of (λ t t', row_security = false ∧
      (own_fences tenant (sz_GeofenceID z) (gt_fences t) = [] → adds tenant z (gt_fences t) (gt_fences t')))
    (CreateGeofenceVersion row_security (seed_row tenant z) 0).
Proof.
  apply transaction_refines. intros w1 w2 a (now & ? & _ & -> & _ & Ht)%CreateGeofenceVersion_body. split; [done|]. intros Hn. exists now. rewrite Ht. cbn [gt_fences].
  cbn in Hn |- *. by rewrite own_fences_none.
Qed.
Lemma history_Ok tenant id w w' rows :
  GetGeofenceHistory row_security tenant id w = (w', Ok rows) → fence_table w' = fence_table w ∧ own_fences tenant id (fence_table w) ≠ [].
Proof.
  intros (w1 & l & [E1 ->]%read_Ok & E)%M_bind_Ok. case_bool_decide as Hn; [done|]. injection E as <- <-. unfold fence_table. rewrite E1. split; [done|].
  intros Hf. apply Hn. unfold own_fences, fence_table in Hf. cbn in Hf. unfold pool_fences. destruct row_security; [done|]. by rewrite Hf.
Qed.
Lemma history_Err tenant id w w' e :
  GetGeofenceHistory row_security tenant id w = (w', Err e) →
  fence_table w' = fence_table w ∧ (e = FenceNoRows → row_security = true ∨ own_fences tenant id (fence_table w) = []).
Proof.
  intros [E|(w1 & l & [E1 ->]%read_Ok & E)]%M_bind_Err.
  - unfold read, external in E. destruct (e_faults w) as [|[] fs]; simplify_eq/=; (split; [done|]); intros ?; done.
  - case_bool_decide as Hn; [|done]. injection E as <- <-. unfold fence_table. rewrite E1. split; [done|]. intros _.
    unfold pool_fences in Hn. destruct row_security; [by left|right]. unfold own_fences. cbn.
    apply Permutation_nil_r. by rewrite <- (merge_sort_Permutation (newest_first fr_Version)), Hn.
Qed.
Lemma own_fences_app tn id rows rows' : own_fences tn id (rows ++ rows') = own_fences tn id rows ++ own_fences tn id rows'.
Proof. apply filter_app. Qed.
Lemma first_version_own tenant z now : own_fences tenant (sz_GeofenceID z) [first_version tenant z now] ≠ [].
Proof. unfold own_fences. rewrite filter_cons, decide_True; [done|]. unfold of_fence. cbn. by rewrite !String.eqb_refl. Qed.

(** One zone: skipped when the tenant has it, created when it has not. *)
Lemma seed_zone_adds tenant z w :
  let out := seed_zone row_security tenant z w in
  (fence_table out.1 = fence_table w ∨
   own_fences tenant (sz_GeofenceID z) (fence_table w) = [] ∧ adds tenant z (fence_table w) (fence_table out.1)) ∧
  ∀ created, out.2 = Ok created →
    if created : bool then own_fences tenant (sz_GeofenceID z) (fence_table w) = [] ∧ adds tenant z (fence_table w) (fence_table out.1)
    else fence_table out.1 = fence_table w ∧ own_fences tenant (sz_GeofenceID z) (fence_table w) ≠ [].
Proof.
  unfold seed_zone, attempt, mbind, M_bind. destruct (GetGeofenceHistory _ _ _ w) as [w1 [rows|e]] eqn:Eh.
  { apply history_Ok in Eh as [Ht Hn]. cbn [fst snd mret M_ret]. rewrite Ht. split; [by left|]. intros created [= <-]. done. }
  apply history_Err in Eh as [Ht He]. destruct e; try (cbn [fst snd fail]; rewrite Ht; split; [by left|done]). specialize (He eq_refl).
  destruct (create_refines tenant z w1) as [Hc Hok]. destruct (CreateGeofenceVersion _ _ _ w1) as [w2 r] eqn:Ec. cbn [fst snd] in *.
  fold (fence_table w1) in Hc, Hok. fold (fence_table w2) in Hc, Hok. rewrite Ht in *.
  assert (fence_table w2 = fence_table w ∨ own_fences tenant (sz_GeofenceID z) (fence_table w) = [] ∧ adds tenant z (fence_table w) (fence_table w2)) as Hw.
  { destruct Hc as [Hc|[Hrs Hc]]; [left; unfold fence_table in *; congruence|]. destruct He as [He|He]; [congruence|]. auto. }
  destruct r as [row|e]; cbn [fst snd]; (split; [done|]); intros created [= <-].
  destruct (Hok row eq_refl) as [Hrs Ha]. destruct He as [He|He]; [congruence|]. auto.
Qed.

Lemma seed_zones_adds tenant zones seeded skipped w :
  let out := seed_zones row_security tenant zones seeded skipped w in
  ∃ new, fence_table out.1 = fence_table w ++ new ∧
    Forall (λ r, ∃ z now, z ∈ zones ∧ r = first_version tenant z now ∧ own_fences tenant (sz_GeofenceID z) (fence_table w) = []) new ∧
    ∀ seeded' skipped', out.2 = Ok (seeded', skipped') →
      seeded' = (seeded + length new)%nat ∧ (seeded' + skipped' = seeded + skipped + length zones)%nat ∧
      ∀ z, z ∈ zones → own_fences tenant (sz_GeofenceID z) (fence_table out.1) ≠ [].
Proof.
  revert seeded skipped w. induction zones as [|z zones IH]; intros seeded skipped w; cbn [seed_zones].
  { exists []. rewrite app_nil_r. split_and!; [done|done|]. intros ? ? [= <- <-]. split_and!; [cbn; lia..|]. by intros z ?%elem_of_nil. }
  pose proof (seed_zone_adds tenant z w) as [Hw Hok]. unfold relabel, mbind, M_bind.
  destruct (seed_zone row_security tenant z w) as [w1 [created|e]]; cbn [fst snd] in *; cycle 1.
  { destruct Hw as [->|[Hn [now ->]]].
    - exists []. rewrite app_nil_r. done.
    - eexists [_]. split_and!; [done| |done]. apply Forall_singleton. exists z, now. split_and!; [left|done..]. }
  specialize (Hok created eq_refl). destruct created.
  - destruct Hok as [Hn [now Ha]]. destruct (IH (S seeded) skipped w1) as (new & -> & Hf & Ho). rewrite Ha.
    exists (first_version tenant z now :: new). rewrite <- app_assoc. split_and!; [done| |].
    + constructor; [exists z, now; split_and!; [left|done..]|]. eapply Forall_impl; [exact Hf|]. intros r (z' & now' & ? & -> & Hz').
      exists z', now'. rewrite Ha, own_fences_app in Hz'. apply app_eq_nil in Hz' as [? _]. split_and!; [by right|done..].
    + intros ? ? (-> & Hl & Hz)%Ho. cbn [length]. split_and!; [lia|lia|]. intros z' [->|Hz']%elem_of_cons.
      * change (first_version tenant z now :: new) with ([first_version tenant z now] ++ new). rewrite !own_fences_app.
        intros [_ [Hx _]%app_eq_nil]%app_eq_nil.
        by apply first_version_own in Hx.
      * specialize (Hz z' Hz'). by rewrite Ha, <- app_assoc in Hz.
  - destruct Hok as [Ha Hn]. destruct (IH seeded (S skipped) w1) as (new & -> & Hf & Ho). rewrite Ha in *. exists new. split_and!; [done| |].
    + eapply Forall_impl; [exact Hf|]. intros r (z' & now' & ? & -> & Hz'). exists z', now'. split_and!; [by right|done..].
    + intros ? ? (-> & Hl & Hz)%Ho. cbn [length]. split_and!; [lia|lia|]. intros z' [->|Hz']%elem_of_cons; [|by apply Hz].
      rewrite own_fences_app. intros [? _]%app_eq_nil. done.
Qed.

(** seeding adds zones and never touches one. Whatever the settings, the file and the
    faults of the database, the boot loader appends rows to the fence table and changes
    none: each is the active first version, under the configured tenant, of a zone of the
    document that the tenant did not have, with a closed ring of four or more vertices in
    range and an admitted category. A document with a malformed feature adds nothing. When
    the loader succeeds it read the document whole, the rows it reports as seeded are those
    it added, every other zone was there, and every zone of the document now has a version. *)
Theorem seeding_only_adds (path tenant : string) (files : string → option geoJSONDocument) (w : env geo_world) :
  let out := seedZonesFromGeoJSON row_security path tenant files w in
  let zones := LoadSeedZones (files (TrimSpace path)) in
  ∃ new, fence_table out.1 = fence_table w ++ new ∧
    Forall (λ r, ∃ zs z now, zones = Ok zs ∧ z ∈ zs ∧ r = first_version (TrimSpace tenant) z now ∧ zone_sound z ∧
                 own_fences (TrimSpace tenant) (sz_GeofenceID z) (fence_table w) = []) new ∧
    ∀ seeded skipped, out.2 = Ok (Some (seeded, skipped)) →
      ∃ zs, zones = Ok zs ∧ length new = seeded ∧ (seeded + skipped = length zs)%nat ∧
        ∀ z, z ∈ zs → own_fences (TrimSpace tenant) (sz_GeofenceID z) (fence_table out.1) ≠ [].
Proof.
  cbn. unfold seedZonesFromGeoJSON. destruct (String.eqb _ _).
  { exists []. rewrite app_nil_r. done. }
  destruct (String.eqb _ _).
  { exists []. rewrite app_nil_r. done. }
  destruct (LoadSeedZones _) as [zs|e] eqn:Hl.
  2: { exists []. rewrite app_nil_r. done. }
  apply LoadSeedZones_sound in Hl as (Hs & _ & _). rewrite Forall_forall in Hs.
  destruct (seed_zones_adds (TrimSpace tenant) zs 0 0 w) as (new & Ht & Hf & Ho). unfold mbind, M_bind.
  destruct (seed_zones row_security (TrimSpace tenant) zs 0 0 w) as [w1 [[s k]|e]]; cbn [fst snd] in *; exists new; (split; [done|]).
  - split.
    + eapply Forall_impl; [exact Hf|]. intros r (z & now & Hz & -> & Hn). exists zs, z, now. split_and!; [done..|by apply Hs|done].
    + intros ? ? [= <- <-]. exists zs. destruct (Ho s k eq_refl) as (-> & ? & ?). done.
  - split; [|done]. eapply Forall_impl; [exact Hf|]. intros r (z & now & Hz & -> & Hn). exists zs, z, now. split_and!; [done..|by apply Hs|done].
Qed.
End loader.
