(* ===== verification/Recommend.v ===== *)
(** * Recommendations in shadow mode

    [internal/mlstack/client.go] (the client of the policy service),
    [internal/store/recommendations.go] with migration 0018 (the log) and
    [internal/api/recommend.go] (the handlers).  What the policy service replies, how JSON is
    decoded and encoded and what PostgreSQL takes for a uuid or for JSON are parameters. *)
From S2P Require Import Prelude GoTime Types GoParse Dedup Sha256 GoFloat Effects Store Auth Http Pipeline GeoStore.
From Stdlib Require Import SpecFloat.

(** ** The client *)

Record url := mkUrl { url_Scheme : string; url_Host : string; url_Path : string; url_RawQuery : string }.
Record MlConfig := mkMlConfig { ml_BaseURL : string; ml_ServiceToken : string; ml_Timeout : Z }.
Record MlClient := mkMlClient { mc_base : url; mc_token : string; mc_timeout : Z }.
Inductive client_error := UrlInvalid | UrlQuery | TokenMissing.
Section client.
(** [url.Parse]. *)
Context (parse_url : string → option url).
Definition NewClient (cfg : MlConfig) : result client_error MlClient :=
  match parse_url (TrimSpace (ml_BaseURL cfg)) with
  | None => Err UrlInvalid
  | Some base =>
      if negb (String.eqb (url_Scheme base) "http") && negb (String.eqb (url_Scheme base) "https") || String.eqb (url_Host base) ""
      then Err UrlInvalid
      else if negb (String.eqb (url_RawQuery base) "") then Err UrlQuery
      else
        let token := TrimSpace (ml_ServiceToken cfg) in
        if String.eqb token "" then Err TokenMissing
        else Ok (mkMlClient base token (if ml_Timeout cfg <=? 0 then 5 * second else ml_Timeout cfg))
  end.
End client.

Record VesselInput := mkVesselInput { vi_MMSI : string; vi_ETA : string; vi_LOAMeters : float64; vi_DraftMeters : float64 }.
Record BerthInput := mkBerthInput { bi_BerthID : string; bi_LengthMeters : float64; bi_DepthMeters : float64; bi_OccupiedUntil : string }.
Inductive score_request :=
| BerthAllocationRequest (requestID portCode : string) (vessels : list VesselInput) (berths : list BerthInput)
| RouteAdviceRequest (requestID origin destination : string) (vessel : option VesselInput) (departureTime : string).
Definition model_of (r : score_request) : string :=
  match r with BerthAllocationRequest _ _ _ _ => "berth-allocation" | RouteAdviceRequest _ _ _ _ _ => "route-advice" end.
Definition models (model : string) : string := "/score/" +:+ model.
(** [ResolveReference] with a reference that has an absolute path and nothing else. *)
Definition endpoint (c : MlClient) (r : score_request) : url := mkUrl (url_Scheme (mc_base c)) (url_Host (mc_base c)) (models (model_of r)) "".

(** The suggestion is its text, empty when the member is absent. *)
Record PolicyResponse := mkPolicyResponse {
  pr_Status : string; pr_Mode : string; pr_PolicyVersion : string; pr_Detail : string; pr_Suggestion : string }.
(** What comes back: a failed round trip (redirects are not followed), a body that cannot be
    read, or a status with the body as the two decoders see it. *)
Inductive http_reply :=
| RequestFailed (text : string) | ReplyUnreadable (text : string)
| Replied (status : Z) (refusal : option (string * string)) (policy : option PolicyResponse).
Inductive score_error := UntrainedError (model detail : string) | UnavailableError (model detail : string).
Definition score_error_text (e : score_error) : string :=
  match e with
  | UntrainedError model detail => "POLICY_UNTRAINED: " +:+ model +:+ ": " +:+ detail
  | UnavailableError model detail => "SCORING_UNAVAILABLE: " +:+ model +:+ ": " +:+ detail
  end.
Definition IsUntrained (e : score_error) : bool := match e with UntrainedError _ _ => true | UnavailableError _ _ => false end.

(** The long s, which folds to S, as a plain letter: with it [strings.EqualFold] against a
    text of ASCII letters other than K is the fold of ASCII. *)
Fixpoint plain_s (s : string) : string :=
  match s with
  | String a ((String b rest) as tail) =>
      if (byte_of a =? 197) && (byte_of b =? 191) then String (char_of 115) (plain_s rest) else String a (plain_s tail)
  | String a EmptyString => String a EmptyString
  | EmptyString => EmptyString
  end.
Definition or_text (s d : string) : string := if String.eqb s "" then d else s.
Definition conflict_detail (refusal : option (string * string)) : string :=
  match refusal with
  | Some (detail, error) => if negb (String.eqb detail "") then detail else or_text error "Conflict"
  | None => "Conflict"
  end.
Definition score (model : string) (reply : http_reply) : result score_error PolicyResponse :=
  match reply with
  | RequestFailed text => Err (UnavailableError model ("request failed: " +:+ text))
  | ReplyUnreadable text => Err (UnavailableError model ("read response: " +:+ text))
  | Replied status refusal policy =>
      if status =? StatusConflict then Err (UntrainedError model (conflict_detail refusal))
      else if negb (status =? StatusOK) then Err (UnavailableError model ("ml-stack answered HTTP " +:+ show_Z status))
      else
        match policy with
        | None => Err (UnavailableError model "response body is not valid JSON")
        | Some decoded =>
            if EqualFold (plain_s (pr_Status decoded)) "SCORING_UNAVAILABLE" || String.eqb (pr_Status decoded) "POLICY_UNTRAINED"
            then Err (UntrainedError model (or_text (pr_Detail decoded) "policy not trained/promoted"))
            else if String.eqb (pr_PolicyVersion decoded) ""
            then Err (UnavailableError model "response violates contract: policy_version missing")
            else Ok decoded
        end
  end.

(** ** The log *)

Record RecommendationLogRow := mkRecommendationRow {
  rl_RecommendationID : string; rl_Kind : string; rl_RequestHash : string; rl_Request : list Z; rl_PolicyVersion : string; rl_Mode : string;
  rl_Suggestion : string; rl_RequestedBy : string; rl_CreatedAt : Z }.
Record rec_world := mkRecWorld { rw_log : gmap string RecommendationLogRow; rw_now : Z; rw_counts : list (string * string) }.
Inductive rec_error := RecUnavailable | RecRefused.
Abbreviation IO := (M rec_world rec_error).

Section log.
(** What PostgreSQL reads as a uuid, and as JSON. *)
Context (uuid_input : string → bool) (jsonb_bytes : list Z → bool) (jsonb_text : string → bool).
Definition log_checks (r : RecommendationLogRow) : bool :=
  uuid_input (rl_RecommendationID r) && bool_decide (rl_Kind r ∈ ["berth_allocation"; "route_advice"])
  && Nat.eqb (String.length (rl_RequestHash r)) 64 && all_chars lower_hex (rl_RequestHash r) && jsonb_bytes (rl_Request r)
  && (1 <=? char_count (rl_PolicyVersion r)) && (char_count (rl_PolicyVersion r) <=? 128) && String.eqb (rl_Mode r) "shadow"
  && jsonb_text (rl_Suggestion r) && (1 <=? char_count (rl_RequestedBy r)) && (char_count (rl_RequestedBy r) <=? 512).
Definition log_row (r : RecommendationLogRow) : RecommendationLogRow :=
  mkRecommendationRow (rl_RecommendationID r) (rl_Kind r) (rl_RequestHash r) (rl_Request r) (rl_PolicyVersion r) (rl_Mode r) (rl_Suggestion r)
    (rl_RequestedBy r) (pg_time (rl_CreatedAt r)).
Definition InsertRecommendationLog (row : RecommendationLogRow) : IO unit :=
  ok ← external RecUnavailable (λ w,
    if log_checks row && bool_decide (rw_log w !! rl_RecommendationID row = None)
    then (mkRecWorld (<[rl_RecommendationID row := log_row row]> (rw_log w)) (rw_now w) (rw_counts w), true) else (w, false));
  require ok RecRefused.

(** ** Requests *)

Record berthRecommendationRequest := mkBerthRequest {
  br_PortCode : string; br_Vessels : list VesselInput; br_Berths : list BerthInput }.
Record routeAdviceRequest := mkRouteRequest {
  ra_Origin : string; ra_Destination : string; ra_Vessel : option VesselInput; ra_DepartureTime : string }.
Definition upper_or_digit (c : char) : bool := is_digit c || (65 <=? byte_of c) && (byte_of c <=? 90).
Definition portCodePattern (s : string) : bool :=
  (2 <=? String.length s)%nat && (String.length s <=? 16)%nat && all_chars upper_or_digit s.
Definition is_rfc3339 (s : string) : bool := bool_decide (is_Some (parse_rfc3339 s)).
Definition negative (x : float64) : bool := f_lt x (f_of_Z 0).
Definition validVessel (v : VesselInput) : bool :=
  if negb (mmsiPattern (vi_MMSI v)) then false
  else if negative (vi_LOAMeters v) || negative (vi_DraftMeters v) then false
  else String.eqb (vi_ETA v) "" || is_rfc3339 (vi_ETA v).
Definition berth_dimensions (b : BerthInput) : bool :=
  negb (String.eqb (bi_BerthID b) "" || (64 <? String.length (bi_BerthID b))%nat || negative (bi_LengthMeters b) || negative (bi_DepthMeters b)).
Definition occupied_ok (b : BerthInput) : bool := String.eqb (bi_OccupiedUntil b) "" || is_rfc3339 (bi_OccupiedUntil b).

(** ** Handlers *)

Inductive rec_body :=
| RecError (message : string)
| Suggestion (recommendationID mode policyVersion suggestion : string).
Definition refuse_rec (r : response) : answer rec_body :=
  mkAnswer (rs_status r) (RecError (match rs_body r with (_, Sign.JStr m) :: _ => m | _ => "" end)).
Definition rec_failure (status : Z) (message : string) : answer rec_body := refuse_rec (writeError status message).
Definition countRecommendation (kind result_ : string) : IO unit :=
  modify (λ w, mkRecWorld (rw_log w) (rw_now w) (rw_counts w ++ [(kind, result_)])).
Definition counted (kind result_ message : string) : IO (answer rec_body) :=
  _ ← countRecommendation kind result_; mret (rec_failure StatusServiceUnavailable message).
Definition scoreError (kind : string) (e : score_error) : IO (answer rec_body) :=
  if IsUntrained e then counted kind "untrained" (score_error_text e)
  else counted kind "unavailable" "SCORING_UNAVAILABLE: the policy scorer could not answer".
Definition unconfigured : string := "RECOMMENDATION_UNCONFIGURED: ML policy scoring is not wired (ML_STACK_HTTP_URL is not set)".
Definition log_failed : string :=
  "RECOMMENDATION_LOG_FAILED: the recommendation could not be logged, so it is not served (fail-closed reward trail)".

(** The row of a suggestion; [requestJSON] is the encoded request. *)
Definition rec_row (id logKind : string) (requestJSON : list Z) (response : PolicyResponse) (subject : string) (now : Z) : RecommendationLogRow :=
  mkRecommendationRow id logKind (hex_encode (sha256 requestJSON)) requestJSON (pr_PolicyVersion response) (or_text (pr_Mode response) "shadow")
    (or_text (pr_Suggestion response) "null") subject now.
Definition serveRecommendation (id kind logKind : string) (requestJSON : option (list Z)) (response : PolicyResponse) (subject : string) :
  IO (answer rec_body) :=
  match requestJSON with
  | None => counted kind "unavailable" "SCORING_UNAVAILABLE: recommendation request could not be hashed"
  | Some bytes =>
      now ← gets rw_now;
      let row := rec_row id logKind bytes response subject now in
      r ← attempt (InsertRecommendationLog row);
      match r with
      | Err _ => counted kind "log_failed" log_failed
      | Ok _ =>
          _ ← countRecommendation kind "served";
          mret (mkAnswer StatusOK (Suggestion (rl_RecommendationID row) (rl_Mode row) (rl_PolicyVersion row) (rl_Suggestion row)))
      end
  end.

(** What the policy service replies to a request, the encoders of the two payloads, and the
    identifiers drawn for a request and its recommendation. *)
Context (ml_stack : score_request → http_reply) (encode_berth : berthRecommendationRequest → option (list Z))
  (encode_route : routeAdviceRequest → option (list Z)).
Abbreviation guarded_by p := (principalOrFail p (λ r, mret (refuse_rec r))).
Abbreviation bad message := (mret (rec_failure StatusBadRequest message)).
Definition scored (kind : string) (r : score_request) (next : PolicyResponse → IO (answer rec_body)) : IO (answer rec_body) :=
  match score (model_of r) (ml_stack r) with Err e => scoreError kind e | Ok response => next response end.

Definition berthRecommendation (wired : bool) (requestID id : string) (p : option Principal) (body : http_body berthRecommendationRequest) :
  IO (answer rec_body) :=
  guarded_by p (λ principal,
    if negb wired then counted "berth" "unconfigured" unconfigured
    else
      match body with
      | BodyUnreadable | BodyInvalid => bad "request body is not valid JSON"
      | Body payload =>
          if negb (portCodePattern (br_PortCode payload))
          then bad "portCode must be 2-16 upper-case alphanumerics (UN/LOCODE-style)"
          else if bool_decide (br_Vessels payload = []) || (50 <? length (br_Vessels payload))%nat
          then bad "vessels must carry 1-50 incoming vessels"
          else if (200 <? length (br_Berths payload))%nat then bad "berths must carry at most 200 candidate slots"
          else if negb (forallb validVessel (br_Vessels payload))
          then bad "each vessel needs a 9-digit mmsi, non-negative dimensions and an RFC 3339 eta"
          else
            match List.find (λ b, negb (berth_dimensions b && occupied_ok b)) (br_Berths payload) with
            | Some b => if berth_dimensions b then bad "berth occupiedUntil must be RFC 3339"
                        else bad "each berth needs a berthId (<=64 chars) and non-negative dimensions"
            | None =>
                scored "berth" (BerthAllocationRequest requestID (br_PortCode payload) (br_Vessels payload) (br_Berths payload)) (λ response,
                  serveRecommendation id "berth" "berth_allocation" (encode_berth payload) response (Subject principal))
            end
      end).
Definition routeAdvice (wired : bool) (requestID id : string) (p : option Principal) (body : http_body routeAdviceRequest) : IO (answer rec_body) :=
  guarded_by p (λ principal,
    if negb wired then counted "route" "unconfigured" unconfigured
    else
      match body with
      | BodyUnreadable | BodyInvalid => bad "request body is not valid JSON"
      | Body payload =>
          if negb (portCodePattern (ra_Origin payload)) || negb (portCodePattern (ra_Destination payload))
          then bad "origin and destination must be 2-16 upper-case alphanumerics (UN/LOCODE-style)"
          else if match ra_Vessel payload with Some v => negb (validVessel v) | None => false end
          then bad "vessel needs a 9-digit mmsi, non-negative dimensions and an RFC 3339 eta"
          else if negb (String.eqb (ra_DepartureTime payload) "" || is_rfc3339 (ra_DepartureTime payload))
          then bad "departureTime must be RFC 3339"
          else
            scored "route" (RouteAdviceRequest requestID (ra_Origin payload) (ra_Destination payload) (ra_Vessel payload) (ra_DepartureTime payload))
              (λ response, serveRecommendation id "route" "route_advice" (encode_route payload) response (Subject principal))
      end).

(** ** Routes *)

Inductive rec_request :=
| PostBerth (requestID id : string) (body : http_body berthRecommendationRequest)
| PostRoute (requestID id : string) (body : http_body routeAdviceRequest).
Definition rec_roles : list string := ["geo-reader"; "geo-zone-maker"; "geo-zone-checker"; "geo-admin"].
Definition rec_dispatch (wired : bool) (r : rec_request) (p : option Principal) : IO (answer rec_body) :=
  match r with
  | PostBerth requestID id body => berthRecommendation wired requestID id p body
  | PostRoute requestID id body => routeAdvice wired requestID id p body
  end.
Definition rec_handler (wired : bool) (outcome : result auth_error Principal) (r : rec_request) : guarded (IO (answer rec_body)) :=
  Middleware outcome (RequireRoles rec_roles (λ p, rec_dispatch wired r (Some p))).
End log.

(** ** Nothing is suggested off the record *)

Section recommendations.
Context (uuid_input : string → bool) (jsonb_bytes : list Z → bool) (jsonb_text : string → bool).
Context (ml_stack : score_request → http_reply) (encode_berth : berthRecommendationRequest → option (list Z))
  (encode_route : routeAdviceRequest → option (list Z)).
Abbreviation dispatch := (rec_dispatch uuid_input jsonb_bytes jsonb_text ml_stack encode_berth encode_route).
Abbreviation insert := (InsertRecommendationLog uuid_input jsonb_bytes jsonb_text).

(** ** The log only grows *)

Lemma insert_grows row w : rw_log (e_state w) ⊆ rw_log (e_state (insert row w).1).
Proof.
  enough (keeps (λ s, rw_log (e_state w) ⊆ rw_log s) (insert row)) as Hk by by apply Hk.
  apply keeps_bind; [|intros; apply keeps_require]. apply keeps_external. intros s Hs. destruct (_ && _) eqn:Hc; [|done]. cbn.
  apply andb_true_iff in Hc as [_ Hn%bool_decide_eq_true]. etrans; [exact Hs|]. by apply insert_subseteq.
Qed.
Lemma insert_Ok row w w' u :
  insert row w = (w', Ok u) → log_checks uuid_input jsonb_bytes jsonb_text row = true ∧ rw_log (e_state w) !! rl_RecommendationID row = None ∧
  rw_log (e_state w') = <[rl_RecommendationID row := log_row row]> (rw_log (e_state w)).
Proof.
  intros (w1 & ok & E1%external_Ok & E)%M_bind_Ok. destruct (_ && _) eqn:Hc; injection E1 as E1 <-; [|done].
  apply andb_true_iff in Hc as [Hc Hn%bool_decide_eq_true]. injection E as <- _. by rewrite <- E1.
Qed.

(** ** One request *)

(** What a request asks of the policy service, its encoding and the kind and identifier of its row. *)
Definition asked (r : rec_request) : option (score_request * option (list Z) * string * string) :=
  match r with
  | PostBerth requestID id (Body b) =>
      Some (BerthAllocationRequest requestID (br_PortCode b) (br_Vessels b) (br_Berths b), encode_berth b, "berth_allocation", id)
  | PostRoute requestID id (Body b) =>
      Some (RouteAdviceRequest requestID (ra_Origin b) (ra_Destination b) (ra_Vessel b) (ra_DepartureTime b), encode_route b, "route_advice", id)
  | _ => None
  end.
(** A suggestion that was served: the policy service answered 200 with it, under a version,
    and its row is in the log, in shadow mode and by the caller. *)
Definition recorded (p : option Principal) (r : rec_request) (log : gmap string RecommendationLogRow) (a : answer rec_body) : Prop :=
  ∃ principal question bytes kind id refusal response at_,
    p = Some principal ∧ asked r = Some (question, Some bytes, kind, id) ∧
    ml_stack question = Replied 200 refusal (Some response) ∧ pr_PolicyVersion response ≠ "" ∧
    or_text (pr_Mode response) "shadow" = "shadow" ∧
    an_body a = Suggestion id "shadow" (pr_PolicyVersion response) (or_text (pr_Suggestion response) "null") ∧
    log !! id = Some (log_row (rec_row id kind bytes response (Subject principal) at_)).

Lemma score_Ok model reply response :
  score model reply = Ok response → pr_PolicyVersion response ≠ "" ∧ ∃ refusal, reply = Replied 200 refusal (Some response).
Proof.
  unfold score. destruct reply as [| |status refusal policy]; [done|done|]. destruct (status =? StatusConflict); [done|].
  destruct (Z.eqb_spec status StatusOK) as [->|]; [|done]. cbn [negb]. destruct policy as [decoded|]; [|done].
  destruct (_ || _); [done|]. destruct (String.eqb_spec (pr_PolicyVersion decoded) ""); [done|]. intros [= <-]. eauto.
Qed.
(** A run of a handler: it answers, the log grows, and a 200 is on record. *)
Definition fine (p : option Principal) (r : rec_request) (m : M rec_world rec_error (answer rec_body)) : Prop :=
  ∀ w, ∃ w' a, m w = (w', Ok a) ∧ rw_log (e_state w) ⊆ rw_log (e_state w') ∧ (an_status a = 200 → recorded p r (rw_log (e_state w')) a).
Lemma fine_ret p r a : an_status a ≠ 200 → fine p r (mret a).
Proof. intros Ha w. exists w, a. done. Qed.
Lemma fine_counted p r kind result_ message : fine p r (counted kind result_ message).
Proof.
  intros w. eexists _, _. split; [reflexivity|]. done.
Qed.
Lemma fine_serve principal r id kind question logKind encoded response :
  asked r = Some (question, encoded, logKind, id) → score (model_of question) (ml_stack question) = Ok response →
  fine (Some principal) r (serveRecommendation uuid_input jsonb_bytes jsonb_text id kind logKind encoded response (Subject principal)).
Proof.
  intros Ha [Hv [refusal Hr]]%score_Ok. destruct encoded as [bytes|]; [|apply fine_counted]. intros w. cbn [serveRecommendation].
  unfold gets at 1. erewrite M_bind_run by reflexivity. set (row := rec_row _ _ _ _ _ _). pose proof (insert_grows row w) as Hg.
  destruct (insert row w) as [w1 [u|e]] eqn:Ei; unfold attempt; erewrite M_bind_run by (rewrite Ei; reflexivity).
  - apply insert_Ok in Ei as (Hc & Hn & Hl). eexists _, _. split; [reflexivity|]. split; [exact Hg|]. intros _. cbn [e_state rw_log].
    exists principal, question, bytes, logKind, id, refusal, response, (rw_now (e_state w)).
    assert (rl_Mode row = "shadow") as Hm by (unfold log_checks in Hc; by bool_to_prop). cbn in Hm.
    split_and!; try done; [cbn; by rewrite Hm|]. cbn. rewrite Hl. apply lookup_insert_eq.
  - destruct (fine_counted (Some principal) r kind "log_failed" log_failed w1) as (w' & a & E & Hs & Hw). exists w', a.
    split_and!; [done|by etrans|done].
Qed.
Lemma fine_scored principal r id kind question logKind encoded :
  asked r = Some (question, encoded, logKind, id) →
  fine (Some principal) r (scored ml_stack kind question (λ response,
    serveRecommendation uuid_input jsonb_bytes jsonb_text id kind logKind encoded response (Subject principal))).
Proof.
  intros Ha. unfold scored. destruct (score _ _) as [response|e] eqn:Hs; [by eapply fine_serve|].
  unfold scoreError. destruct (IsUntrained e); apply fine_counted.
Qed.
Lemma dispatch_fine wired r p : fine p r (dispatch wired r p).
Proof.
  unfold rec_dispatch. destruct r as [requestID id body|requestID id body]; unfold berthRecommendation, routeAdvice, principalOrFail.
  - destruct (PrincipalFrom p) as [principal|] eqn:Hp; [|by apply fine_ret]. destruct p as [p|]; [|done]. apply PrincipalFrom_id in Hp as ->.
    destruct (negb wired); [apply fine_counted|]. destruct body as [| |b]; try by apply fine_ret.
    destruct (negb (portCodePattern _)); [by apply fine_ret|]. destruct (_ || _); [by apply fine_ret|].
    destruct (_ <? _)%nat; [by apply fine_ret|]. destruct (negb (forallb _ _)); [by apply fine_ret|].
    destruct (List.find _ _) as [x|]; [destruct (berth_dimensions x); by apply fine_ret|]. by apply fine_scored.
  - destruct (PrincipalFrom p) as [principal|] eqn:Hp; [|by apply fine_ret]. destruct p as [p|]; [|done]. apply PrincipalFrom_id in Hp as ->.
    destruct (negb wired); [apply fine_counted|]. destruct body as [| |b]; try by apply fine_ret.
    destruct (_ || _); [by apply fine_ret|]. destruct (match ra_Vessel b with Some _ => _ | None => _ end); [by apply fine_ret|].
    destruct (negb _); [by apply fine_ret|]. by apply fine_scored.
Qed.

(** ** Many requests *)

Fixpoint rec_run (wired : bool) (requests : list (option Principal * rec_request)) : M rec_world rec_error (list (answer rec_body)) :=
  match requests with
  | [] => mret []
  | (p, r) :: rest => a ← dispatch wired r p; answers ← rec_run wired rest; mret (a :: answers)
  end.
(** C24: nothing is suggested off the record. Whatever requests arrive, whatever the policy
    service replies and whichever writes fail, every request is answered, no row of the log
    is changed or removed, and for each request that is answered 200: the policy service
    replied 200 with a version and the suggestion that is passed on, word for word; and the
    log holds the row of that suggestion, in shadow mode, with the encoded request, its
    digest and the caller. *)
Theorem served_suggestions_are_logged (wired : bool) (requests : list (option Principal * rec_request)) (w : env rec_world) :
  ∃ w' answers, rec_run wired requests w = (w', Ok answers) ∧ rw_log (e_state w) ⊆ rw_log (e_state w') ∧
    Forall2 (λ request a, an_status a = 200 → recorded request.1 request.2 (rw_log (e_state w')) a) requests answers.
Proof.
  revert w. induction requests as [|[p r] requests IH]; intros w; cbn [rec_run]; [by eexists w, []|].
  destruct (dispatch_fine wired r p w) as (w1 & a & E & Hs & Ha). destruct (IH w1) as (w2 & answers & E2 & Hs2 & Hf).
  exists w2, (a :: answers). rewrite (M_bind_run _ _ _ _ _ E), (M_bind_run _ _ _ _ _ E2). split_and!; [done|by etrans|].
  constructor; [|done]. intros (principal & question & bytes & kind & id & refusal & response & at_ & Hr)%Ha.
  exists principal, question, bytes, kind, id, refusal, response, at_. destruct Hr as (? & ? & ? & ? & ? & ? & Hl). split_and!; [done..|].
  eapply lookup_weaken; done.
Qed.
End recommendations.

(** ** What the client and the log do beside that *)

Module RecommendSamples.
(** The path of the configured address is dropped. *)
Example base_path_dropped :
  url_Path (endpoint (mkMlClient (mkUrl "https" "ml.example" "/stack" "") "t" 0) (RouteAdviceRequest "r-1" "NGLOS" "NGAPP" None "")) =
    "/score/route-advice".
Proof. reflexivity. Qed.
(** A body with any other status than the two that are refused counts as a suggestion. *)
Definition degraded : PolicyResponse := mkPolicyResponse "DEGRADED" "" "v1" "" "1".
Example status_is_not_required : score "route-advice" (Replied 200 None (Some degraded)) = Ok degraded.
Proof. reflexivity. Qed.
(** A write that took effect although it was reported as failed leaves the row of a
    suggestion that nobody was shown. *)
Definition yes {A} (x : A) : bool := true.
Definition reader : Principal := mkPrincipal "ada" {["geo-reader"]} "PUBLIC" "niwa".
Definition question : rec_request := PostRoute "r-1" "id-1" (Body (mkRouteRequest "NGLOS" "NGAPP" None "")).
Definition unsure : env rec_world := mkEnv [FailAfter] (mkRecWorld ∅ 0 []).
Definition served (fs : env rec_world) :=
  rec_dispatch yes yes yes (λ _, Replied 200 None (Some degraded)) (λ _, Some []) (λ _, Some [123; 125]) true question (Some reader) fs.
Example logged_but_not_shown :
  match (served unsure).2 with Ok a => an_status a = 503 | Err _ => False end ∧ rw_log (e_state (served unsure).1) !! "id-1" ≠ None ∧
  match (served (mkEnv [] (e_state unsure))).2 with Ok a => an_status a = 200 | Err _ => False end.
Proof. vm_compute. split_and!; done. Qed.
End RecommendSamples.
