(* ===== verification/Metrics.v ===== *)
(** * Counters

    [internal/metrics/metrics.go]: series are named by their name and labels; an update finds
    or creates its counter under the lock and then adds to it atomically.  The atomic
    sections of concurrent updates interleave in any order. *)
From S2P Require Import Prelude GoParse.

(** ** The name of a series *)

Definition bslash : char := char_of 92.
Definition dquote : char := char_of 34.
Definition linefeed : char := char_of 10.
(** The replacer of [key]. *)
Fixpoint escape_label (s : string) : string :=
  match s with
  | EmptyString => EmptyString
  | String c rest =>
      if Ascii.eqb c bslash then String bslash (String bslash (escape_label rest))
      else if Ascii.eqb c dquote then String bslash (String dquote (escape_label rest))
      else if Ascii.eqb c linefeed then String bslash (String (char_of 110) (escape_label rest))
      else String c (escape_label rest)
  end.
Definition label_item (l : string * string) : string := l.1 +:+ String (char_of 61) (String dquote (escape_label l.2 +:+ String dquote "")).
(** The labels after the first. *)
Fixpoint more_labels (ls : list (string * string)) : string :=
  match ls with [] => "}" | l :: rest => String (char_of 44) (label_item l +:+ more_labels rest) end.
Definition label_le (a b : string * string) : Prop := str_le a.1 b.1.
#[export] Instance label_le_dec a b : Decision (label_le a b).
Proof. unfold label_le. apply _. Defined.
Definition sorted_labels (labels : gmap string string) : list (string * string) := merge_sort label_le (map_to_list labels).
Definition key (name : string) (labels : gmap string string) : string :=
  match sorted_labels labels with
  | [] => name
  | l :: rest => name +:+ String (char_of 123) (label_item l +:+ more_labels rest)
  end.

(** ** Counters and updates *)

(** The map from series to counters, and the counters. *)
Record Registry := mkRegistry_ { counters : gmap string nat; cells : list Z }.
Definition NewRegistry : Registry := mkRegistry_ ∅ [].
Inductive update := AddDelta (delta : Z) | StoreValue (value : Z).
Definition apply_update (u : update) (v : Z) : Z := match u with AddDelta d => int64 (v + d) | StoreValue x => x end.
(** Where an update stands: before the read lock, after a miss, with its counter, done. *)
Inductive phase := Looking | Missed | Holding (cell : nat) | Finished.
Record call := mkCall { c_series : string; c_update : update; c_phase : phase }.
Definition Add (name : string) (labels : gmap string string) (delta : Z) : call := mkCall (key name labels) (AddDelta delta) Looking.
Definition Inc (name : string) (labels : gmap string string) : call := Add name labels 1.
Definition Set_ (name : string) (labels : gmap string string) (value : Z) : call := mkCall (key name labels) (StoreValue value) Looking.

(** The next atomic section of a call. *)
Definition advance (r : Registry) (c : call) : Registry * call :=
  let to p := mkCall (c_series c) (c_update c) p in
  match c_phase c with
  | Looking => (r, to (match counters r !! c_series c with Some i => Holding i | None => Missed end))
  | Missed =>
      match counters r !! c_series c with
      | Some i => (r, to (Holding i))
      | None => (mkRegistry_ (<[c_series c := length (cells r)]> (counters r)) (cells r ++ [0]), to (Holding (length (cells r))))
      end
  | Holding i => (mkRegistry_ (counters r) (alter (apply_update (c_update c)) i (cells r)), to Finished)
  | Finished => (r, c)
  end.
(** The goroutine with the number takes its turn. *)
Definition turn (s : Registry * list call) (i : nat) : Registry * list call :=
  match s.2 !! i with
  | Some c => let '(r, c') := advance s.1 c in (r, <[i := c']> s.2)
  | None => s
  end.
Definition interleave (schedule : list nat) (s : Registry * list call) : Registry * list call := fold_left turn schedule s.

(** ** Reading *)

Definition Snapshot (r : Registry) : gmap string Z := omap (λ i, cells r !! i) (counters r).
Definition line_le (a b : string * Z) : Prop := str_le a.1 b.1.
#[export] Instance line_le_dec a b : Decision (line_le a b).
Proof. unfold line_le. apply _. Defined.
Definition WritePrometheus (r : Registry) : string :=
  foldr (λ l text, l.1 +:+ " " +:+ show_Z l.2 +:+ String linefeed text) "" (merge_sort line_le (map_to_list (Snapshot r))).

(** ** No increment is lost, and no two series share a counter *)

(** ** Names *)

Definition free_of (c : char) (s : string) : Prop := all_chars (λ a, negb (Ascii.eqb a c)) s = true.
(** Two texts cut at the first occurrence of a character. *)
Lemma cut_at c s s' t t' : free_of c s → free_of c s' → s +:+ String c t = s' +:+ String c t' → s = s' ∧ t = t'.
Proof.
  revert s'. induction s as [|a s IH]; intros [|a' s'] Hs Hs' E.
  - by injection E as <-.
  - injection E as <- _. unfold free_of in Hs'. cbn in Hs'. by rewrite Ascii.eqb_refl in Hs'.
  - injection E as -> _. unfold free_of in Hs. cbn in Hs. by rewrite Ascii.eqb_refl in Hs.
  - injection E as <- E. unfold free_of in *. cbn in Hs, Hs'. apply andb_true_iff in Hs as [_ Hs], Hs' as [_ Hs'].
    destruct (IH s' Hs Hs' E) as [-> ->]. done.
Qed.
Definition esc (c : char) : string := escape_label (String c "").
Lemma escape_label_cons c v : escape_label (String c v) = esc c +:+ escape_label v.
Proof. unfold esc. cbn. destruct (Ascii.eqb c bslash); [done|]. destruct (Ascii.eqb c dquote); [done|]. by destruct (Ascii.eqb c linefeed). Qed.
Lemma esc_spec c :
  (c = bslash ∧ esc c = String bslash (String bslash "")) ∨ (c = dquote ∧ esc c = String bslash (String dquote "")) ∨
  (c = linefeed ∧ esc c = String bslash (String (char_of 110) "")) ∨ (c ≠ bslash ∧ c ≠ dquote ∧ esc c = String c "").
Proof.
  unfold esc. cbn. destruct (Ascii.eqb_spec c bslash); [by left|]. destruct (Ascii.eqb_spec c dquote); [by right; left|].
  destruct (Ascii.eqb_spec c linefeed); [by right; right; left|]. by right; right; right.
Qed.
Lemma esc_inj c c' x x' : esc c +:+ x = esc c' +:+ x' → c = c' ∧ x = x'.
Proof.
  destruct (esc_spec c) as [[-> ->]|[[-> ->]|[[-> ->]|(H1 & H2 & ->)]]], (esc_spec c') as [[-> ->]|[[-> ->]|[[-> ->]|(H1' & H2' & ->)]]];
    intros E; simplify_eq/=; try done.
Qed.
Lemma esc_not_quote c x t : esc c +:+ x ≠ String dquote t.
Proof. destruct (esc_spec c) as [[-> ->]|[[-> ->]|[[-> ->]|(H1 & H2 & ->)]]]; intros E; by injection E. Qed.
Lemma escape_cut v v' t t' :
  escape_label v +:+ String dquote t = escape_label v' +:+ String dquote t' → v = v' ∧ t = t'.
Proof.
  revert v'. induction v as [|c v IH]; intros [|c' v'] E; rewrite ?escape_label_cons, <- ?string_app_assoc in E.
  - by injection E as <-.
  - symmetry in E. by apply esc_not_quote in E.
  - by apply esc_not_quote in E.
  - apply esc_inj in E as [<- E]. by apply IH in E as [<- <-].
Qed.
(** Label names do not contain an equals sign, names of series no brace. *)
Definition plain_labels (ls : list (string * string)) : Prop := Forall (λ l, free_of (char_of 61) l.1) ls.
Lemma label_item_cut l l' t t' :
  free_of (char_of 61) l.1 → free_of (char_of 61) l'.1 → label_item l +:+ t = label_item l' +:+ t' → l = l' ∧ t = t'.
Proof.
  destruct l as [n v], l' as [n' v']. unfold label_item. cbn [fst snd]. intros Hn Hn'. rewrite <- !string_app_assoc.
  intros [-> E]%cut_at; [|done..]. injection E as E. rewrite <- !string_app_assoc in E. apply escape_cut in E as [-> ->]. done.
Qed.
Lemma more_labels_inj ls ls' : plain_labels ls → plain_labels ls' → more_labels ls = more_labels ls' → ls = ls'.
Proof.
  intros Hl. revert ls'. induction Hl as [|l ls Hx Hl IH]; intros [|l' ls'] Hl' E; [done|done|done|].
  inversion Hl'; subst. cbn [more_labels] in E. injection E as E. apply label_item_cut in E as [-> E]; [|done..]. f_equal. by apply IH.
Qed.
Definition plain_series (name : string) (labels : gmap string string) : Prop :=
  free_of (char_of 123) name ∧ map_Forall (λ l _, free_of (char_of 61) l) labels.
Lemma sorted_labels_plain labels : map_Forall (λ l _, free_of (char_of 61) l) labels → plain_labels (sorted_labels labels).
Proof.
  intros Hl. unfold plain_labels, sorted_labels. rewrite merge_sort_Permutation.
  apply map_Forall_to_list in Hl. eapply Forall_impl; [exact Hl|]. by intros [? ?].
Qed.
Lemma sorted_labels_inj labels labels' : sorted_labels labels = sorted_labels labels' → labels = labels'.
Proof.
  intros E. rewrite <- (list_to_map_to_list labels), <- (list_to_map_to_list labels'). apply list_to_map_proper.
  - apply NoDup_fst_map_to_list.
  - rewrite <- (merge_sort_Permutation label_le (map_to_list labels)), <- (merge_sort_Permutation label_le (map_to_list labels')).
    unfold sorted_labels in E. by rewrite E.
Qed.
Lemma free_prefix c name x t : free_of c name → name = x +:+ String c t → False.
Proof. intros Hn ->. unfold free_of in Hn. rewrite all_chars_app in Hn. cbn in Hn. rewrite Ascii.eqb_refl in Hn. by rewrite andb_false_r in Hn. Qed.
(** Two series with the same identifier are the same. *)
Lemma series_key_inj name name' labels labels' :
  plain_series name labels → plain_series name' labels' → key name labels = key name' labels' → name = name' ∧ labels = labels'.
Proof.
  intros [Hn Hl] [Hn' Hl'] E. unfold key in E. apply sorted_labels_plain in Hl, Hl'.
  destruct (sorted_labels labels) as [|l ls] eqn:Es, (sorted_labels labels') as [|l' ls'] eqn:Es'.
  - split; [done|]. apply sorted_labels_inj. congruence.
  - by apply free_prefix in E.
  - symmetry in E. by apply free_prefix in E.
  - apply cut_at in E as [-> E]; [|done..]. split; [done|]. inversion Hl; inversion Hl'; subst.
    apply label_item_cut in E as [-> E]; [|done..]. apply more_labels_inj in E as ->; [|done..]. apply sorted_labels_inj. congruence.
Qed.

(** ** Counting *)

(** What a call adds to a series, and what the calls that have finished add. *)
Definition delta_of (series : string) (c : call) : Z :=
  match c_update c with AddDelta d => if String.eqb (c_series c) series then d else 0 | StoreValue _ => 0 end.
Definition finished (c : call) : bool := match c_phase c with Finished => true | _ => false end.
Fixpoint total (series : string) (cs : list call) : Z := match cs with [] => 0 | c :: rest => delta_of series c + total series rest end.
Fixpoint added (series : string) (cs : list call) : Z :=
  match cs with [] => 0 | c :: rest => (if finished c then delta_of series c else 0) + added series rest end.
Definition value (r : Registry) (series : string) : Z :=
  match counters r !! series with Some i => default 0 (cells r !! i) | None => 0 end.

Lemma added_insert series cs i c c' :
  cs !! i = Some c →
  added series (<[i := c']> cs) =
    added series cs - (if finished c then delta_of series c else 0) + (if finished c' then delta_of series c' else 0).
Proof.
  revert i. induction cs as [|x cs IH]; intros [|i] Hi; [done|done| |].
  - cbn in Hi. injection Hi as ->. cbn. lia.
  - cbn in Hi. change (<[S i := c']> (x :: cs)) with (x :: <[i := c']> cs). cbn [added]. rewrite (IH i Hi). lia.
Qed.
Lemma added_all series cs : Forall (λ c, finished c = true) cs → added series cs = total series cs.
Proof. induction 1 as [|c cs Hc _ IH]; [done|]. cbn. by rewrite Hc, IH. Qed.

(** The counters are distinct and exist, a call holds the counter of its series, and every
    counter is the sum of what has been added to it, at the width of the machine. *)
Record counting (s : Registry * list call) : Prop := mkCounting {
  co_exist : ∀ series i, counters s.1 !! series = Some i → (i < length (cells s.1))%nat;
  co_distinct : ∀ series series' i, counters s.1 !! series = Some i → counters s.1 !! series' = Some i → series = series';
  co_held : ∀ j c i, s.2 !! j = Some c → c_phase c = Holding i → counters s.1 !! c_series c = Some i;
  co_adds : ∀ j c, s.2 !! j = Some c → ∃ d, c_update c = AddDelta d;
  co_value : ∀ series, value s.1 series = int64 (added series s.2);
}.
(** A turn that changes only the phase of a call. *)
Lemma counting_phase r cs i c p :
  counting (r, cs) → cs !! i = Some c → finished c = false → p ≠ Finished →
  (∀ j, p = Holding j → counters r !! c_series c = Some j) → counting (r, <[i := mkCall (c_series c) (c_update c) p]> cs).
Proof.
  intros [H1 H2 H3 H4 H5] Hi Hc Hp Hj. cbn [fst snd] in *. split; cbn [fst snd]; [done|done| | |].
  - intros k x j [(<- & <- & _)|[_ Hx]]%list_lookup_insert_Some; [cbn; apply Hj|exact (H3 _ _ _ Hx)].
  - intros k x [(<- & <- & _)|[_ Hx]]%list_lookup_insert_Some; [exact (H4 _ _ Hi)|exact (H4 _ _ Hx)].
  - intros series. rewrite H5. f_equal. rewrite (added_insert _ _ _ _ _ Hi), Hc. unfold finished. cbn [c_phase]. destruct p; [lia|lia|lia|done].
Qed.
(** A counter that is created holds nothing yet. *)
Lemma counting_create r cs series :
  counting (r, cs) → counters r !! series = None →
  counting (mkRegistry_ (<[series := length (cells r)]> (counters r)) (cells r ++ [0]), cs).
Proof.
  intros [H1 H2 H3 H4 H5] Hn. cbn [fst snd] in *. split; cbn [fst snd counters cells].
  - intros x i [[<- <-]|[_ Hx%H1]]%lookup_insert_Some; rewrite length_app; cbn; lia.
  - intros x y i [[<- <-]|[? Hx]]%lookup_insert_Some [[<- ?]|[? Hy]]%lookup_insert_Some; [done| | |by eapply H2].
    + apply H1 in Hy. lia.
    + apply H1 in Hx. lia.
  - intros j c i Hc Hp. rewrite lookup_insert_ne; [exact (H3 _ _ _ Hc Hp)|]. intros ->. rewrite (H3 _ _ _ Hc Hp) in Hn. done.
  - done.
  - intros x. rewrite <- H5. unfold value. cbn. destruct (decide (series = x)) as [<-|].
    + rewrite lookup_insert_eq, Hn. rewrite list_lookup_middle by done. done.
    + rewrite lookup_insert_ne by done. destruct (counters r !! x) as [i|] eqn:Hx; [|done]. apply H1 in Hx. by rewrite lookup_app_l.
Qed.
(** The addition. *)
Lemma counting_add r cs i c j d :
  counting (r, cs) → cs !! i = Some c → c_phase c = Holding j → c_update c = AddDelta d →
  counting (mkRegistry_ (counters r) (alter (apply_update (AddDelta d)) j (cells r)), <[i := mkCall (c_series c) (c_update c) Finished]> cs).
Proof.
  intros [H1 H2 H3 H4 H5] Hi Hp Hu. cbn [fst snd] in *. pose proof (H3 i c j Hi Hp) as Hj. split; cbn [fst snd counters cells].
  - intros x k Hx. rewrite length_alter. by eapply H1.
  - done.
  - intros k x l [(<- & <- & _)|[_ Hx]]%list_lookup_insert_Some; [done|exact (H3 _ _ _ Hx)].
  - intros k x [(<- & <- & _)|[_ Hx]]%list_lookup_insert_Some; [exact (H4 _ _ Hi)|exact (H4 _ _ Hx)].
  - intros series. rewrite (added_insert _ _ _ _ _ Hi). unfold finished at 1. rewrite Hp. cbn. unfold delta_of. cbn. rewrite Hu.
    replace (added series cs - 0) with (added series cs) by lia. specialize (H5 series). unfold value in *. cbn.
    destruct (String.eqb_spec (c_series c) series) as [<-|Hne].
    + rewrite Hj in *. pose proof (H1 _ _ Hj) as [v Hv]%lookup_lt_is_Some_2. rewrite list_lookup_alter_eq, Hv. cbn. rewrite Hv in H5. cbn in H5.
      by rewrite H5, int64_add.
    + rewrite Z.add_0_r, <- H5. destruct (counters r !! series) as [k|] eqn:Hk; [|done]. rewrite list_lookup_alter_ne; [done|].
      intros <-. by apply Hne, (H2 _ _ j).
Qed.
Lemma turn_counting s i : counting s → counting (turn s i).
Proof.
  destruct s as [r cs]. intros Hs. unfold turn. cbn [fst snd]. destruct (cs !! i) as [c|] eqn:Hi; [|done].
  unfold advance. destruct (c_phase c) as [| |j|] eqn:Hp.
  - apply counting_phase; [done|done|unfold finished; by rewrite Hp|by destruct (counters r !! _)|].
    intros j. destruct (counters r !! c_series c); [by intros [= ->]|done].
  - destruct (counters r !! c_series c) as [j|] eqn:Hc.
    + apply counting_phase; [done|done|unfold finished; by rewrite Hp|done|]. by intros ? [= <-].
    + apply counting_phase; [by apply counting_create|done|unfold finished; by rewrite Hp|done|]. intros ? [= <-]. cbn. apply lookup_insert_eq.
  - destruct (co_adds _ Hs i c Hi) as [d Hu]. rewrite Hu. rewrite <- Hu at 2. by apply counting_add.
  - rewrite list_insert_id by done. done.
Qed.
Lemma interleave_counting schedule s : counting s → counting (interleave schedule s).
Proof. unfold interleave. revert s. induction schedule as [|i schedule IH]; intros s Hs; [done|]. cbn. by apply IH, turn_counting. Qed.

(** ** Every call ends *)

Definition turns_left (c : call) : nat := match c_phase c with Looking => 3 | Missed => 2 | Holding _ => 1 | Finished => 0 end.
Lemma advance_closer r c : (turns_left (advance r c).2 <= turns_left c - 1)%nat.
Proof. unfold advance, turns_left. destruct (c_phase c) eqn:Hp; cbn; rewrite ?Hp; try destruct (counters r !! _); cbn; lia. Qed.
Definition turns_of (s : Registry * list call) (i : nat) : nat := default 0%nat (turns_left <$> s.2 !! i).
Lemma turn_closer s j i : (turns_of (turn s j) i <= turns_of s i - (if decide (j = i) then 1 else 0))%nat.
Proof.
  destruct s as [r cs]. unfold turn, turns_of. cbn [fst snd]. destruct (cs !! j) as [c|] eqn:Hj.
  - pose proof (advance_closer r c) as Ha. destruct (advance r c) as [r' c']. cbn [fst snd] in *. destruct (decide (j = i)) as [->|].
    + rewrite list_lookup_insert_eq by (by eapply lookup_lt_Some). rewrite Hj. cbn. lia.
    + rewrite list_lookup_insert_ne by done. lia.
  - cbn [fst snd]. destruct (decide (j = i)) as [->|]; [rewrite Hj; cbn|]; lia.
Qed.
Lemma interleave_closer schedule s i : (turns_of (interleave schedule s) i <= turns_of s i - count_occ Nat.eq_dec schedule i)%nat.
Proof.
  unfold interleave. revert s. induction schedule as [|j schedule IH]; intros s; [cbn; lia|]. cbn [fold_left count_occ].
  specialize (IH (turn s j)). pose proof (turn_closer s j i) as Ht. destruct (Nat.eq_dec j i), (decide (j = i)); try done; lia.
Qed.
Lemma interleave_length schedule s : length (interleave schedule s).2 = length s.2.
Proof.
  unfold interleave. revert s. induction schedule as [|j schedule IH]; intros s; [done|]. cbn [fold_left]. rewrite IH. unfold turn.
  destruct (s.2 !! j); [|done]. destruct (advance _ _). cbn. by rewrite length_insert.
Qed.
(** The series and updates of the calls do not change. *)
Lemma total_interleave series schedule s : total series (interleave schedule s).2 = total series s.2.
Proof.
  unfold interleave. revert s. induction schedule as [|j schedule IH]; intros s; [done|]. cbn [fold_left]. rewrite IH. unfold turn.
  destruct (s.2 !! j) as [c|] eqn:Hj; [|done].
  assert (delta_of series (advance s.1 c).2 = delta_of series c) as Hd by (unfold advance; destruct (c_phase c); [|destruct (counters s.1 !! _)|..]; done).
  destruct (advance s.1 c) as [r' c']. cbn [snd] in *. revert j Hj. generalize s.2. intros cs. induction cs as [|x cs IHc]; intros [|j] Hj; [done|done| |].
  - cbn in Hj. injection Hj as ->. cbn. by rewrite Hd.
  - cbn in Hj. change (<[S j := c']> (x :: cs)) with (x :: <[j := c']> cs). cbn [total]. by rewrite IHc.
Qed.

Lemma Snapshot_value r series :
  (∀ i, counters r !! series = Some i → (i < length (cells r))%nat) → default 0 (Snapshot r !! series) = value r series.
Proof.
  intros Hr. unfold Snapshot, value. rewrite lookup_omap. destruct (counters r !! series) as [i|]; [|done]. cbn. by destruct (cells r !! i).
Qed.
(** What the calls add to one series. *)
Fixpoint sum_of (name : string) (labels : gmap string string) (adds : list (string * gmap string string * Z)) : Z :=
  match adds with
  | [] => 0
  | a :: rest => (if bool_decide (a.1 = (name, labels)) then a.2 else 0) + sum_of name labels rest
  end.
Definition calls_of (adds : list (string * gmap string string * Z)) : list call := (λ a, Add a.1.1 a.1.2 a.2) <$> adds.
Lemma total_sum name labels adds :
  plain_series name labels → Forall (λ a, plain_series a.1.1 a.1.2) adds → total (key name labels) (calls_of adds) = sum_of name labels adds.
Proof.
  intros Hp. induction 1 as [|[[n l] d] adds Ha _ IH]; [done|]. cbn [calls_of fmap list_fmap]. cbn [total sum_of]. fold (calls_of adds). rewrite IH. f_equal.
  unfold delta_of. cbn. case_bool_decide as He.
  - injection He as -> ->. by rewrite String.eqb_refl.
  - destruct (String.eqb_spec (key n l) (key name labels)) as [Hk|]; [|done]. destruct He. by apply series_key_inj in Hk as [-> ->].
Qed.

Lemma counting_start adds : counting (NewRegistry, calls_of adds).
Proof.
  split; cbn [fst snd].
  - intros series i. cbn. by rewrite lookup_empty.
  - intros series series' i. cbn. by rewrite lookup_empty.
  - intros j c i Hj Hp. unfold calls_of in Hj. apply list_lookup_fmap_Some_1 in Hj as (a & -> & _). done.
  - intros j c Hj. unfold calls_of in Hj. apply list_lookup_fmap_Some_1 in Hj as (a & -> & _). cbn. eauto.
  - intros series. unfold value. cbn [counters NewRegistry]. rewrite lookup_empty. assert (added series (calls_of adds) = 0) as ->; [|done].
    induction adds as [|a adds IH]; done.
Qed.

(** C25: No increment of a plain series is lost.  A series is plain when its name has no
    opening brace and its label names no equals sign, as every identifier of the exposition
    format; label values may contain anything.  Whatever goroutines add to whatever plain
    series, however the sections of their calls interleave (look-up under the read lock,
    creation under the write lock, atomic addition), once each has had three turns all have
    returned, and the exported value of every plain series is exactly the sum of what was
    added to that name with those labels, at the width of an int64: no counter is created
    twice, no update is overwritten, and no two plain series share a counter. *)
Theorem no_increment_lost (adds : list (string * gmap string string * Z)) (schedule : list nat) :
  Forall (λ a, plain_series a.1.1 a.1.2) adds → (∀ i, (i < length adds)%nat → (3 <= count_occ Nat.eq_dec schedule i)%nat) →
  let s := interleave schedule (NewRegistry, calls_of adds) in
  Forall (λ c, c_phase c = Finished) s.2 ∧
  ∀ name labels, plain_series name labels → default 0 (Snapshot s.1 !! key name labels) = int64 (sum_of name labels adds).
Proof.
  intros Hp Hs s. pose proof (interleave_counting schedule _ (counting_start adds)) as Hc. fold s in Hc.
  assert (Forall (λ c, c_phase c = Finished) s.2) as Hf.
  { apply Forall_lookup. intros i c Hi. assert (i < length adds)%nat as Hl.
    { apply lookup_lt_Some in Hi. unfold s in Hi. rewrite interleave_length in Hi. cbn [snd] in Hi. unfold calls_of in Hi. by rewrite length_fmap in Hi. }
    pose proof (interleave_closer schedule (NewRegistry, calls_of adds) i) as Ht. fold s in Ht. specialize (Hs i Hl). unfold turns_of in Ht. rewrite Hi in Ht.
    cbn [snd fmap option_fmap option_map default] in Ht.
    unfold calls_of in Ht. rewrite list_lookup_fmap in Ht. destruct (adds !! i); cbn in Ht; unfold turns_left in Ht; destruct (c_phase c); done || lia. }
  split; [done|]. intros name labels Hn. rewrite Snapshot_value by (intros i; apply (co_exist _ Hc)). rewrite (co_value _ Hc), added_all.
  - f_equal. unfold s. rewrite total_interleave. by apply total_sum.
  - eapply Forall_impl; [exact Hf|]. intros c Hph. unfold finished. by rewrite Hph.
Qed.
(** Series that are not plain can share a counter: the registry does not check names. *)
Example braces_in_names_collide :
  let quoted v := String (char_of 34) (v +:+ String (char_of 34) "") in
  key ("a{b=" +:+ quoted "c" +:+ "}") ∅ = key "a" {["b" := "c"]}.
Proof. vm_compute. reflexivity. Qed.
Lemma no_increment_lost_witness :
  let adds := [("hits", {["path" := "/v1"]}, 2); ("hits", {["path" := "/v1"]}, 3); ("hits", {["path" := "/v2"]}, 7)] in
  let s := interleave [0; 1; 0; 1; 2; 1; 2; 0; 2]%nat (NewRegistry, calls_of adds) in
  default 0 (Snapshot s.1 !! key "hits" {["path" := "/v1"]}) = int64 (sum_of "hits" {["path" := "/v1"]} adds).
Proof.
  intros adds s. apply (no_increment_lost adds [0; 1; 0; 1; 2; 1; 2; 0; 2]%nat).
  - repeat constructor; apply map_Forall_singleton; reflexivity.
  - intros [|[|[|i]]] Hi; [vm_compute; lia..|]. cbn in Hi. lia.
  - split; [reflexivity|]. apply map_Forall_singleton. reflexivity.
Defined.
