(* ===== verification/Migrate.v ===== *)
(** * The migration runner

    [internal/store/migrate.go]: the SQL files of a directory are applied in the order of
    their names, each in a transaction that also records its version.  What a file does to
    the schema is a parameter. *)
From S2P Require Import Prelude GoParse Effects.

(** [strings.HasSuffix] and [strings.TrimSuffix] at once: the text before the suffix. *)
Fixpoint before_suffix (suffix s : string) : option string :=
  if String.eqb s suffix then Some ""
  else match s with EmptyString => None | String c rest => String c <$> before_suffix suffix rest end.
Record dir_entry := mkEntry { de_Name : string; de_IsDir : bool }.

Section migrate.
Context {D : Type} (exec : string → D → option D).
(** The embedded directory, when it can be listed, and its files. *)
Context (entries : option (list dir_entry)) (ReadFile : string → option string).

(** The schema, and the versions once their table exists. *)
Record schema_state := mkSchema { sm_schema : D; sm_versions : option (gset string) }.
Inductive migrate_error :=
| CreateTable | ReadDirFailed | CheckFailed (version : string) | ReadFailed (name : string) | BeginFailed (name : string)
| ApplyFailed (name : string) | RecordFailed (name : string) | CommitFailed (name : string).
Abbreviation IO := (M schema_state migrate_error).

Definition migration_names (es : list dir_entry) : list string :=
  merge_sort str_le (omap (λ e, if negb (de_IsDir e) && bool_decide (is_Some (before_suffix ".sql" (de_Name e))) then Some (de_Name e) else None) es).
Definition version_of (name : string) : string := default name (before_suffix ".sql" name).
Definition applied (version : string) (s : schema_state) : bool :=
  match sm_versions s with Some vs => bool_decide (version ∈ vs) | None => false end.
(** The body of a file; the insert meets the primary key. *)
Definition run_body (name body : string) : IO unit :=
  ok ← external (ApplyFailed name) (λ s,
    match exec body (sm_schema s) with Some d => (mkSchema d (sm_versions s), true) | None => (s, false) end);
  _ ← require ok (ApplyFailed name);
  ok ← external (RecordFailed name) (λ s,
    match sm_versions s with
    | Some vs => if bool_decide (version_of name ∈ vs) then (s, false) else (mkSchema (sm_schema s) (Some ({[version_of name]} ∪ vs)), true)
    | None => (s, false)
    end);
  require ok (RecordFailed name).
Definition migrate_file (name : string) : IO unit :=
  done_ ← external (CheckFailed (version_of name)) (λ s, (s, applied (version_of name) s));
  if done_ : bool then mret tt
  else match ReadFile ("migrations/" +:+ name) with
       | None => fail (ReadFailed name)
       | Some body => transaction id (λ d _, d) (BeginFailed name) (CommitFailed name) (run_body name body)
       end.
Definition MigratePool : IO unit :=
  _ ← external CreateTable (λ s, (mkSchema (sm_schema s) (Some (default ∅ (sm_versions s))), tt));
  match entries with
  | None => fail ReadDirFailed
  | Some es => each migrate_file (migration_names es)
  end.
(** Start after start, until the process is left alone. *)
Fixpoint restarts (n : nat) (w : env schema_state) : env schema_state :=
  match n with O => w | S n' => restarts n' (MigratePool w).1 end.

(** ** The schema is that of a prefix of the files *)

Context (first : D).
Fixpoint apply_files (names : list string) (d : D) : option D :=
  match names with
  | [] => Some d
  | name :: rest => body ← ReadFile ("migrations/" +:+ name); d' ← exec body d; apply_files rest d'
  end.
Record at_prefix (names : list string) (s : schema_state) : Prop := mkAtPrefix {
  ap_schema : apply_files names first = Some (sm_schema s);
  ap_versions : default ∅ (sm_versions s) = list_to_set (version_of <$> names);
}.
Lemma apply_files_snoc names name body d d' d'' :
  apply_files names d = Some d' → ReadFile ("migrations/" +:+ name) = Some body → exec body d' = Some d'' → apply_files (names ++ [name]) d = Some d''.
Proof.
  revert d. induction names as [|n names IH]; intros d; cbn.
  - intros [= ->] -> Hd. cbn. by rewrite Hd.
  - intros (b & -> & (d1 & Hd1 & H1)%bind_Some)%bind_Some Hb Hd. cbn. rewrite Hd1. cbn. by apply IH.
Qed.
Lemma before_suffix_app suffix s p : before_suffix suffix s = Some p → s = p +:+ suffix.
Proof.
  revert p. induction s as [|c s IH]; intros p; cbn [before_suffix].
  - destruct (String.eqb_spec "" suffix) as [<-|]; [|done]. by intros [= <-].
  - destruct (String.eqb_spec (String c s) suffix) as [<-|]; [by intros [= <-]|]. intros H. apply fmap_Some in H as (q & Hq & ->).
    change (String c q +:+ suffix) with (String c (q +:+ suffix)). f_equal. by apply IH.
Qed.
Lemma version_of_inj a b pa pb :
  before_suffix ".sql" a = Some pa → before_suffix ".sql" b = Some pb → version_of a = version_of b → a = b.
Proof.
  intros Ha Hb. unfold version_of. rewrite Ha, Hb. cbn. intros ->. apply before_suffix_app in Ha, Hb. congruence.
Qed.

Lemma applied_spec names s v : at_prefix names s → applied v s = true ↔ v ∈ version_of <$> names.
Proof.
  intros [_ Hv]. unfold applied. destruct (sm_versions s) as [vs|]; cbn in Hv.
  - rewrite bool_decide_eq_true, Hv. apply elem_of_list_to_set.
  - split; [done|]. intros Hin. assert (v ∈ (list_to_set (version_of <$> names) : gset string)) as H by by apply elem_of_list_to_set.
    rewrite <- Hv in H. set_solver.
Qed.
Lemma run_body_prefix names name body w w' u :
  at_prefix names (e_state w) → ReadFile ("migrations/" +:+ name) = Some body → run_body name body w = (w', Ok u) →
  at_prefix (names ++ [name]) (e_state w').
Proof.
  intros [Hs Hv] Hr (w1 & ok & E1 & E)%M_bind_Ok. apply external_Ok in E1.
  destruct (exec body (sm_schema (e_state w))) as [d|] eqn:Hx; injection E1 as E1 <-; [|by apply M_bind_Ok in E as (? & ? & ? & _)].
  apply M_bind_Ok in E as (w2 & ? & [= <- _] & E). apply M_bind_Ok in E as (w3 & ok & E2 & E). apply external_Ok in E2. rewrite <- E1 in E2. cbn in E2.
  destruct (sm_versions (e_state w)) as [vs|] eqn:Hvs; [|by injection E2 as _ <-]. case_bool_decide; injection E2 as E2 <-; [done|].
  injection E as <- _. rewrite <- E2. split; cbn.
  - by eapply apply_files_snoc.
  - rewrite fmap_app, list_to_set_app_L. cbn. cbn in Hv. rewrite Hv. set_solver.
Qed.
(** One file: the state stays at its prefix or moves to the next. *)
Lemma migrate_file_prefix names name w :
  at_prefix names (e_state w) → version_of name ∉ version_of <$> names →
  let out := migrate_file name w in
  (at_prefix names (e_state out.1) ∨ at_prefix (names ++ [name]) (e_state out.1)) ∧
  ∀ u, out.2 = Ok u → at_prefix (names ++ [name]) (e_state out.1).
Proof.
  intros Hp Hn. unfold migrate_file, mbind, M_bind.
  destruct (external (CheckFailed (version_of name)) (λ s, (s, applied (version_of name) s)) w) as [w1 [b|e]] eqn:E1; cbn [fst snd].
  2: { split; [left|done]. assert (e_state w1 = e_state w) as ->; [|done]. unfold external in E1. destruct (e_faults w) as [|[] fs]; by simplify_eq/=. }
  apply external_Ok in E1. injection E1 as E1 <-. destruct (applied _ _) eqn:Ha; [by apply (applied_spec names) in Ha|].
  rewrite E1 in Hp. destruct (ReadFile _) as [body|] eqn:Hr; [|split; [by left|done]].
  unfold transaction. destruct (external (A := unit) (BeginFailed name) (λ s, (s, tt)) w1) as [w2 [u|e]] eqn:E2; cbn [fst snd].
  2: { split; [left|done]. assert (e_state w2 = e_state w1) as ->; [|done]. unfold external in E2. destruct (e_faults w1) as [|[] fs]; by simplify_eq/=. }
  apply external_Ok in E2. injection E2 as E2. destruct (run_body name body w2) as [w3 [u'|e]] eqn:E3; cbn [fst snd]; [|split; [by left|done]].
  apply (run_body_prefix names) in E3; [|by rewrite <- E2|done].
  destruct (e_faults w3) as [|[] fs]; cbn; (split; [|done]); auto.
Qed.
Lemma migrate_file_skips names name w :
  at_prefix names (e_state w) → version_of name ∈ version_of <$> names → e_state (migrate_file name w).1 = e_state w.
Proof.
  intros Hp Hin. unfold migrate_file, mbind, M_bind. apply (applied_spec names _ _ Hp) in Hin.
  unfold external. rewrite Hin. by destruct (e_faults w) as [|[] fs].
Qed.
(** The loop, from any prefix that covers the files it has passed. *)
Lemma loop_prefix (all : list string) : NoDup (version_of <$> all) →
  ∀ rest passed m w, all = passed ++ rest → (length passed <= m)%nat → at_prefix (take m all) (e_state w) →
  ∃ m', at_prefix (take m' all) (e_state (each migrate_file rest w).1) ∧ ∀ u, (each migrate_file rest w).2 = Ok u → take m' all = all.
Proof.
  intros Hnd. induction rest as [|name rest IH]; intros passed m w Hall Hm Hp.
  { exists m. split; [done|]. intros _ _. apply take_ge. rewrite Hall, app_nil_r. lia. }
  assert (all !! length passed = Some name) as Hl by (rewrite Hall; by apply list_lookup_middle).
  assert (∃ m1, at_prefix (take m1 all) (e_state (migrate_file name w).1) ∧ (length passed <= m1)%nat ∧
            ∀ u, (migrate_file name w).2 = Ok u → (length passed < m1)%nat) as (m1 & Hp1 & Hle & Hok).
  { destruct (decide (length passed < m)%nat) as [Hlt|Hge].
    - exists m. rewrite (migrate_file_skips (take m all)); [split_and!; [done|lia|done]|done|]. apply list_elem_of_fmap_2.
      apply (list_elem_of_lookup_2 _ (length passed)). rewrite lookup_take_lt by done. done.
    - assert (m = length passed) as -> by lia. destruct (migrate_file_prefix (take (length passed) all) name w) as [Hor Hok]; [done| |].
      { rewrite Hall, take_app_length. rewrite Hall, fmap_app, fmap_cons in Hnd. apply NoDup_app in Hnd as (_ & Hd & _). intros Hin. apply (Hd _ Hin). left. }
      rewrite <- (take_S_r _ _ _ Hl) in Hor, Hok. destruct (migrate_file name w) as [w1 [u|e]]; cbn [fst snd] in *.
      + exists (S (length passed)). split_and!; [by eapply Hok|lia|lia].
      + destruct Hor as [?|?]; [exists (length passed)|exists (S (length passed))]; (split_and!; [done|lia|done]). }
  cbn [each]. unfold mbind, M_bind. destruct (migrate_file name w) as [w1 [u|e]]; cbn [fst snd] in *.
  - destruct (IH (passed ++ [name]) m1 w1) as (m' & ? & ?); [by rewrite <- app_assoc|rewrite length_app; cbn; specialize (Hok u eq_refl); lia|done|]. eauto.
  - exists m1. done.
Qed.
Lemma migration_names_distinct es : NoDup (de_Name <$> es) → NoDup (version_of <$> migration_names es).
Proof.
  intros Hnd. unfold migration_names. rewrite merge_sort_Permutation. induction es as [|e es IH]; [constructor|].
  rewrite fmap_cons in Hnd. apply NoDup_cons in Hnd as [Hn Hnd]. cbn [omap list_omap]. destruct (_ && _) eqn:Hc; [|by apply IH]. rewrite fmap_cons.
  apply NoDup_cons. split; [|by apply IH]. intros (x & Hx & (e' & He' & Hs)%list_elem_of_omap)%list_elem_of_fmap.
  destruct (negb (de_IsDir e') && _) eqn:Hc'; [|done]. injection Hs as <-. apply andb_true_iff in Hc as [_ [p Hp]%bool_decide_eq_true], Hc' as [_ [p' Hp']%bool_decide_eq_true].
  apply Hn. rewrite (version_of_inj _ _ _ _ Hp Hp' Hx). by apply list_elem_of_fmap_2.
Qed.
Lemma MigratePool_prefix es m w :
  entries = Some es → NoDup (de_Name <$> es) → at_prefix (take m (migration_names es)) (e_state w) →
  ∃ m', at_prefix (take m' (migration_names es)) (e_state (MigratePool w).1) ∧
        ∀ u, (MigratePool w).2 = Ok u → take m' (migration_names es) = migration_names es.
Proof.
  intros He Hnd Hp. unfold MigratePool, mbind, M_bind.
  assert (at_prefix (take m (migration_names es)) (e_state (external CreateTable (λ s, (mkSchema (sm_schema s) (Some (default ∅ (sm_versions s))), tt)) w).1)) as Hp1.
  { apply (external_inv (at_prefix (take m (migration_names es)))); [done|]. destruct Hp. by split. }
  destruct (external _ _ w) as [w1 [u|e]]; cbn [fst snd] in *; [|by exists m]. rewrite He.
  apply (loop_prefix (migration_names es)) with (passed := []) (m := m); [by apply migration_names_distinct|done|cbn; lia|done].
Qed.

(** C23: the schema is always that of a prefix of the migrations. From an empty database and
    with a directory whose names are distinct, however often the runner is started and
    whichever calls fail, ambiguous commits included, there is a prefix of the files in the
    order of their names such that the schema is the result of running exactly these, each
    once and in that order, and the recorded versions are theirs: a failed start can be
    repeated, and one that succeeds has applied every file. *)
Theorem migrations_are_a_prefix (es : list dir_entry) (starts : nat) (faults : list fault) :
  entries = Some es → NoDup (de_Name <$> es) →
  let w := restarts starts (mkEnv faults (mkSchema first None)) in
  (∃ m, at_prefix (take m (migration_names es)) (e_state w)) ∧
  ∀ u, (MigratePool w).2 = Ok u → at_prefix (migration_names es) (e_state (MigratePool w).1).
Proof.
  intros He Hnd w.
  assert (∃ m, at_prefix (take m (migration_names es)) (e_state w)) as [m Hm].
  { unfold w. assert (∃ m, at_prefix (take m (migration_names es)) (e_state (mkEnv faults (mkSchema first None)))) as H0 by by exists 0%nat.
    revert H0. generalize (mkEnv faults (mkSchema first None)). clear w. induction starts as [|n IH]; intros w [m Hm]; [by exists m|]. cbn [restarts].
    apply IH. destruct (MigratePool_prefix es m w) as (m' & ? & _); eauto. }
  split; [by exists m|]. intros u Hu. destruct (MigratePool_prefix es m w) as (m' & Hp & Hall); [done..|]. by rewrite (Hall u Hu) in Hp.
Qed.
End migrate.

Module MigrateSample.
Definition run_sql (body : string) (d : list string) : option (list string) := Some (d ++ [body]).
Definition listing : list dir_entry := [mkEntry "0002_zones.sql" false; mkEntry "0001_core.sql" false; mkEntry "README.md" false].
Definition text_of (path : string) : option string := Some path.
(** The first start is cut off at the commit of the second file, which took effect. *)
Definition cut_off : list fault := repeat NoFault 10 ++ [FailAfter].
Definition after : env schema_state := restarts run_sql (Some listing) text_of 1 (mkEnv cut_off (mkSchema [] None)).
Lemma migrations_are_a_prefix_witness :
  ∃ m, at_prefix run_sql text_of [] (take m (migration_names listing)) (e_state after).
Proof.
  apply (migrations_are_a_prefix run_sql (Some listing) text_of [] listing 1 cut_off); [reflexivity|].
  apply (bool_decide_unpack _). vm_compute. exact I.
Defined.
Example second_start_finds_both :
  sm_schema (e_state after) = ["migrations/0001_core.sql"; "migrations/0002_zones.sql"] ∧ (MigratePool run_sql (Some listing) text_of after).2 = Ok tt.
Proof. vm_compute. done. Qed.
End MigrateSample.
