(* ===== verification/SafetyRows.v ===== *)
(** * Rows of the safety-compliance tables

    The row types of [internal/store/safety.go], one module per table, with the
    row an INSERT creates (the columns the statement names, the others at the
    defaults of migration 0016) and the SET clause of each UPDATE the lifecycle
    methods run. *)
From S2P Require Import Prelude.

(** Checklist templates *)
Module Checklist.
Record ChecklistTemplateRow := mkChecklistTemplateRow {
  TemplateID : string;
  TenantID : string;
  Regime : string;
  Version : Z;
  Title : string;
  Items : string;
  CreatedBy : string;
  CreatedAt : Z;
}.

(** The row an INSERT of the given columns creates, the others at their defaults. *)
Definition inserted (now : Z) (r : ChecklistTemplateRow) : ChecklistTemplateRow :=
  mkChecklistTemplateRow
    (TemplateID r) (TenantID r) (Regime r) (Version r) (Title r) (Items r) (CreatedBy r) now.
End Checklist.

(** FSC/PSC inspections *)
Module Inspection.
Record InspectionRow := mkInspectionRow {
  InspectionID : string;
  TenantID : string;
  Regime : string;
  TemplateID : string;
  VesselReference : string;
  PortCode : string;
  Classification : string;
  State : string;
  InspectorPrincipalID : string;
  CreatedAt : Z;
  StartedAt : option Z;
  CompletedAt : option Z;
  DetainedBy : option string;
  DetainedAt : option Z;
  DetentionGrounds : option string;
  RectificationStartedBy : option string;
  RectificationStartedAt : option Z;
  ReleasedBy : option string;
  ReleasedAt : option Z;
  ClosedBy : option string;
  ClosedAt : option Z;
}.

(** The row an INSERT of the given columns creates, the others at their defaults. *)
Definition inserted (now : Z) (r : InspectionRow) : InspectionRow :=
  mkInspectionRow
    (InspectionID r) (TenantID r) (Regime r) (TemplateID r) (VesselReference r) (PortCode r)
    (Classification r) "SCHEDULED" (InspectorPrincipalID r) now None None None None None None None
    None None None None.

(** SET state = IN_PROGRESS, started_at = now(). *)
Definition set_started (now : Z) (r : InspectionRow) : InspectionRow :=
  mkInspectionRow
    (InspectionID r) (TenantID r) (Regime r) (TemplateID r) (VesselReference r) (PortCode r)
    (Classification r) "IN_PROGRESS" (InspectorPrincipalID r) (CreatedAt r) (Some now)
    (CompletedAt r) (DetainedBy r) (DetainedAt r) (DetentionGrounds r) (RectificationStartedBy r)
    (RectificationStartedAt r) (ReleasedBy r) (ReleasedAt r) (ClosedBy r) (ClosedAt r).

(** SET state = COMPLETED, completed_at = now(). *)
Definition set_completed (now : Z) (r : InspectionRow) : InspectionRow :=
  mkInspectionRow
    (InspectionID r) (TenantID r) (Regime r) (TemplateID r) (VesselReference r) (PortCode r)
    (Classification r) "COMPLETED" (InspectorPrincipalID r) (CreatedAt r) (StartedAt r) (Some now)
    (DetainedBy r) (DetainedAt r) (DetentionGrounds r) (RectificationStartedBy r)
    (RectificationStartedAt r) (ReleasedBy r) (ReleasedAt r) (ClosedBy r) (ClosedAt r).

(** SET state = DETAINED, detained_by, detained_at = now(), detention_grounds. *)
Definition set_detained (now : Z) (actor note : string) (r : InspectionRow) : InspectionRow :=
  mkInspectionRow
    (InspectionID r) (TenantID r) (Regime r) (TemplateID r) (VesselReference r) (PortCode r)
    (Classification r) "DETAINED" (InspectorPrincipalID r) (CreatedAt r) (StartedAt r)
    (CompletedAt r) (Some actor) (Some now) (Some note) (RectificationStartedBy r)
    (RectificationStartedAt r) (ReleasedBy r) (ReleasedAt r) (ClosedBy r) (ClosedAt r).

(** SET state = RECTIFICATION, rectification_started_by and _at. *)
Definition set_rectification (now : Z) (actor : string) (r : InspectionRow) : InspectionRow :=
  mkInspectionRow
    (InspectionID r) (TenantID r) (Regime r) (TemplateID r) (VesselReference r) (PortCode r)
    (Classification r) "RECTIFICATION" (InspectorPrincipalID r) (CreatedAt r) (StartedAt r)
    (CompletedAt r) (DetainedBy r) (DetainedAt r) (DetentionGrounds r) (Some actor) (Some now)
    (ReleasedBy r) (ReleasedAt r) (ClosedBy r) (ClosedAt r).

(** SET state = RELEASED, released_by, released_at = now(). *)
Definition set_released (now : Z) (actor : string) (r : InspectionRow) : InspectionRow :=
  mkInspectionRow
    (InspectionID r) (TenantID r) (Regime r) (TemplateID r) (VesselReference r) (PortCode r)
    (Classification r) "RELEASED" (InspectorPrincipalID r) (CreatedAt r) (StartedAt r)
    (CompletedAt r) (DetainedBy r) (DetainedAt r) (DetentionGrounds r) (RectificationStartedBy r)
    (RectificationStartedAt r) (Some actor) (Some now) (ClosedBy r) (ClosedAt r).

(** SET state = CLOSED, closed_by, closed_at = now(). *)
Definition set_closed (now : Z) (actor : string) (r : InspectionRow) : InspectionRow :=
  mkInspectionRow
    (InspectionID r) (TenantID r) (Regime r) (TemplateID r) (VesselReference r) (PortCode r)
    (Classification r) "CLOSED" (InspectorPrincipalID r) (CreatedAt r) (StartedAt r) (CompletedAt r)
    (DetainedBy r) (DetainedAt r) (DetentionGrounds r) (RectificationStartedBy r)
    (RectificationStartedAt r) (ReleasedBy r) (ReleasedAt r) (Some actor) (Some now).
End Inspection.

(** Deficiencies *)
Module Deficiency.
Record DeficiencyRow := mkDeficiencyRow {
  DeficiencyID : string;
  InspectionID : string;
  Code : string;
  Description : string;
  Severity : string;
  State : string;
  RectificationDeadline : option Z;
  RecordedBy : string;
  RecordedAt : Z;
  RectifiedBy : option string;
  RectifiedAt : option Z;
  VerifiedBy : option string;
  VerifiedAt : option Z;
}.

(** The row an INSERT of the given columns creates, the others at their defaults. *)
Definition inserted (now : Z) (r : DeficiencyRow) : DeficiencyRow :=
  mkDeficiencyRow
    (DeficiencyID r) (InspectionID r) (Code r) (Description r) (Severity r) "OPEN"
    (RectificationDeadline r) (RecordedBy r) now None None None None.

(** SET state = RECTIFIED, rectified_by, rectified_at = now(). *)
Definition set_rectified (now : Z) (actor : string) (r : DeficiencyRow) : DeficiencyRow :=
  mkDeficiencyRow
    (DeficiencyID r) (InspectionID r) (Code r) (Description r) (Severity r) "RECTIFIED"
    (RectificationDeadline r) (RecordedBy r) (RecordedAt r) (Some actor) (Some now) (VerifiedBy r)
    (VerifiedAt r).

(** SET state = VERIFIED, verified_by, verified_at = now(). *)
Definition set_verified (now : Z) (actor : string) (r : DeficiencyRow) : DeficiencyRow :=
  mkDeficiencyRow
    (DeficiencyID r) (InspectionID r) (Code r) (Description r) (Severity r) "VERIFIED"
    (RectificationDeadline r) (RecordedBy r) (RecordedAt r) (RectifiedBy r) (RectifiedAt r)
    (Some actor) (Some now).
End Deficiency.

(** SAR incidents *)
Module Sar.
Record SarIncidentRow := mkSarIncidentRow {
  IncidentID : string;
  TenantID : string;
  SosAlertID : option string;
  Title : string;
  Classification : string;
  Phase : string;
  OpenedBy : string;
  OpenedAt : Z;
  AlertedBy : option string;
  AlertedAt : option Z;
  DistressDeclaredBy : option string;
  DistressDeclaredAt : option Z;
  RescueStartedBy : option string;
  RescueStartedAt : option Z;
  ClosedBy : option string;
  ClosedAt : option Z;
  ClosureReason : option string;
}.

(** The row an INSERT of the given columns creates, the others at their defaults. *)
Definition inserted (now : Z) (r : SarIncidentRow) : SarIncidentRow :=
  mkSarIncidentRow
    (IncidentID r) (TenantID r) (SosAlertID r) (Title r) (Classification r) "UNCERTAINTY"
    (OpenedBy r) now None None None None None None None None None.

(** SET phase = ALERT, alerted_by, alerted_at = now(). *)
Definition set_alert (now : Z) (actor : string) (r : SarIncidentRow) : SarIncidentRow :=
  mkSarIncidentRow
    (IncidentID r) (TenantID r) (SosAlertID r) (Title r) (Classification r) "ALERT" (OpenedBy r)
    (OpenedAt r) (Some actor) (Some now) (DistressDeclaredBy r) (DistressDeclaredAt r)
    (RescueStartedBy r) (RescueStartedAt r) (ClosedBy r) (ClosedAt r) (ClosureReason r).

(** SET phase = DISTRESS, distress_declared_by and _at. *)
Definition set_distress (now : Z) (actor : string) (r : SarIncidentRow) : SarIncidentRow :=
  mkSarIncidentRow
    (IncidentID r) (TenantID r) (SosAlertID r) (Title r) (Classification r) "DISTRESS" (OpenedBy r)
    (OpenedAt r) (AlertedBy r) (AlertedAt r) (Some actor) (Some now) (RescueStartedBy r)
    (RescueStartedAt r) (ClosedBy r) (ClosedAt r) (ClosureReason r).

(** SET phase = RESCUE, rescue_started_by and _at. *)
Definition set_rescue (now : Z) (actor : string) (r : SarIncidentRow) : SarIncidentRow :=
  mkSarIncidentRow
    (IncidentID r) (TenantID r) (SosAlertID r) (Title r) (Classification r) "RESCUE" (OpenedBy r)
    (OpenedAt r) (AlertedBy r) (AlertedAt r) (DistressDeclaredBy r) (DistressDeclaredAt r)
    (Some actor) (Some now) (ClosedBy r) (ClosedAt r) (ClosureReason r).

(** SET phase = CLOSED, closed_by, closed_at = now(), closure_reason. *)
Definition set_closed (now : Z) (actor reason : string) (r : SarIncidentRow) : SarIncidentRow :=
  mkSarIncidentRow
    (IncidentID r) (TenantID r) (SosAlertID r) (Title r) (Classification r) "CLOSED" (OpenedBy r)
    (OpenedAt r) (AlertedBy r) (AlertedAt r) (DistressDeclaredBy r) (DistressDeclaredAt r)
    (RescueStartedBy r) (RescueStartedAt r) (Some actor) (Some now) (Some reason).
End Sar.

(** Resource taskings *)
Module Tasking.
Record SarTaskingRow := mkSarTaskingRow {
  TaskingID : string;
  IncidentID : string;
  ResourceType : string;
  ResourceName : string;
  State : string;
  TaskedBy : string;
  TaskedAt : Z;
  ReleasedBy : option string;
  ReleasedAt : option Z;
}.

(** The row an INSERT of the given columns creates, the others at their defaults. *)
Definition inserted (now : Z) (r : SarTaskingRow) : SarTaskingRow :=
  mkSarTaskingRow
    (TaskingID r) (IncidentID r) (ResourceType r) (ResourceName r) "TASKED" (TaskedBy r) now None
    None.

(** SET state = EN_ROUTE. *)
Definition set_enroute (r : SarTaskingRow) : SarTaskingRow :=
  mkSarTaskingRow
    (TaskingID r) (IncidentID r) (ResourceType r) (ResourceName r) "EN_ROUTE" (TaskedBy r)
    (TaskedAt r) (ReleasedBy r) (ReleasedAt r).

(** SET state = ON_SCENE. *)
Definition set_onscene (r : SarTaskingRow) : SarTaskingRow :=
  mkSarTaskingRow
    (TaskingID r) (IncidentID r) (ResourceType r) (ResourceName r) "ON_SCENE" (TaskedBy r)
    (TaskedAt r) (ReleasedBy r) (ReleasedAt r).

(** SET state = RELEASED, released_by, released_at = now(). *)
Definition set_released (now : Z) (actor : string) (r : SarTaskingRow) : SarTaskingRow :=
  mkSarTaskingRow
    (TaskingID r) (IncidentID r) (ResourceType r) (ResourceName r) "RELEASED" (TaskedBy r)
    (TaskedAt r) (Some actor) (Some now).
End Tasking.

(** The comms ledger *)
Module Comms.
Record SarCommsRow := mkSarCommsRow {
  EntryID : Z;
  IncidentID : string;
  Direction : string;
  Channel : string;
  Message : string;
  LoggedBy : string;
  LoggedAt : Z;
}.

(** The row an INSERT of the given columns creates, the others at their defaults. *)
Definition inserted (now : Z) (entry : Z) (r : SarCommsRow) : SarCommsRow :=
  mkSarCommsRow
    entry (IncidentID r) (Direction r) (Channel r) (Message r) (LoggedBy r) now.
End Comms.

(** Investigation cases *)
Module Case.
Record InvestigationCaseRow := mkInvestigationCaseRow {
  CaseID : string;
  TenantID : string;
  CasualtyType : string;
  Severity : string;
  VesselReference : string;
  OccurredAt : Z;
  Classification : string;
  State : string;
  LeadInvestigator : string;
  OpenedAt : Z;
  ReportedBy : option string;
  ReportedAt : option Z;
  ClosedBy : option string;
  ClosedAt : option Z;
}.

(** The row an INSERT of the given columns creates, the others at their defaults. *)
Definition inserted (now : Z) (r : InvestigationCaseRow) : InvestigationCaseRow :=
  mkInvestigationCaseRow
    (CaseID r) (TenantID r) (CasualtyType r) (Severity r) (VesselReference r) (OccurredAt r)
    (Classification r) "OPEN" (LeadInvestigator r) now None None None None.

(** SET state = EVIDENCE. *)
Definition set_evidence (r : InvestigationCaseRow) : InvestigationCaseRow :=
  mkInvestigationCaseRow
    (CaseID r) (TenantID r) (CasualtyType r) (Severity r) (VesselReference r) (OccurredAt r)
    (Classification r) "EVIDENCE" (LeadInvestigator r) (OpenedAt r) (ReportedBy r) (ReportedAt r)
    (ClosedBy r) (ClosedAt r).

(** SET state = ANALYSIS. *)
Definition set_analysis (r : InvestigationCaseRow) : InvestigationCaseRow :=
  mkInvestigationCaseRow
    (CaseID r) (TenantID r) (CasualtyType r) (Severity r) (VesselReference r) (OccurredAt r)
    (Classification r) "ANALYSIS" (LeadInvestigator r) (OpenedAt r) (ReportedBy r) (ReportedAt r)
    (ClosedBy r) (ClosedAt r).

(** SET state = REPORTED, reported_by, reported_at = now(). *)
Definition set_reported (now : Z) (actor : string) (r : InvestigationCaseRow) : InvestigationCaseRow :=
  mkInvestigationCaseRow
    (CaseID r) (TenantID r) (CasualtyType r) (Severity r) (VesselReference r) (OccurredAt r)
    (Classification r) "REPORTED" (LeadInvestigator r) (OpenedAt r) (Some actor) (Some now)
    (ClosedBy r) (ClosedAt r).

(** SET state = CLOSED, closed_by, closed_at = now(). *)
Definition set_closed (now : Z) (actor : string) (r : InvestigationCaseRow) : InvestigationCaseRow :=
  mkInvestigationCaseRow
    (CaseID r) (TenantID r) (CasualtyType r) (Severity r) (VesselReference r) (OccurredAt r)
    (Classification r) "CLOSED" (LeadInvestigator r) (OpenedAt r) (ReportedBy r) (ReportedAt r)
    (Some actor) (Some now).
End Case.

(** Evidence items *)
Module Evidence.
Record EvidenceRow := mkEvidenceRow {
  EvidenceID : string;
  CaseID : string;
  Description : string;
  ContentHash : string;
  PrevChainHash : string;
  ChainHash : string;
  CollectedBy : string;
  CollectedAt : Z;
}.

(** The row an INSERT of the given columns creates, the others at their defaults. *)
Definition inserted (now : Z) (prev chain : string) (r : EvidenceRow) : EvidenceRow :=
  mkEvidenceRow
    (EvidenceID r) (CaseID r) (Description r) (ContentHash r) prev chain (CollectedBy r) now.
End Evidence.

(** Findings *)
Module Finding.
Record FindingRow := mkFindingRow {
  FindingID : string;
  CaseID : string;
  Finding : string;
  CreatedBy : string;
  CreatedAt : Z;
}.

(** The row an INSERT of the given columns creates, the others at their defaults. *)
Definition inserted (now : Z) (r : FindingRow) : FindingRow :=
  mkFindingRow
    (FindingID r) (CaseID r) (Finding r) (CreatedBy r) now.
End Finding.

(** Recommendations *)
Module Recommendation.
Record RecommendationRow := mkRecommendationRow {
  RecommendationID : string;
  CaseID : string;
  Recommendation : string;
  Status : string;
  CreatedBy : string;
  CreatedAt : Z;
  DecidedBy : option string;
  DecidedAt : option Z;
}.

(** The row an INSERT of the given columns creates, the others at their defaults. *)
Definition inserted (now : Z) (r : RecommendationRow) : RecommendationRow :=
  mkRecommendationRow
    (RecommendationID r) (CaseID r) (Recommendation r) "PROPOSED" (CreatedBy r) now None None.

(** SET status = next, decided_by, decided_at = now(). *)
Definition set_decided (now : Z) (next actor : string) (r : RecommendationRow) : RecommendationRow :=
  mkRecommendationRow
    (RecommendationID r) (CaseID r) (Recommendation r) next (CreatedBy r) (CreatedAt r) (Some actor)
    (Some now).

(** SET status = IMPLEMENTED. *)
Definition set_implemented (r : RecommendationRow) : RecommendationRow :=
  mkRecommendationRow
    (RecommendationID r) (CaseID r) (Recommendation r) "IMPLEMENTED" (CreatedBy r) (CreatedAt r)
    (DecidedBy r) (DecidedAt r).
End Recommendation.

