(* ===== verification/Safety.v ===== *)
(** * The safety-compliance store

    [internal/store/safety.go]: inspections with detention maker-checker, SAR
    coordination, accident investigation with hash-chained evidence; every method
    runs inside [WithTenant] of [internal/store/store.go].  A table is a map from
    its primary key; what a session bound to a tenant sees of it is the row-level
    security policy of migration 0016.  The methods lock the row they work on (FOR
    UPDATE), so that a run of the service is a sequence of whole transactions; the
    value of [now()], fixed when a transaction begins, is an argument of each
    method, because transactions need not take their locks in the order they began.
    A statement the server refuses (a CHECK, UNIQUE or foreign key constraint) is a
    fault of the call; primary keys are modelled. *)
From S2P Require Import Prelude Effects Sha256 SafetyRows.
Import Checklist Inspection Deficiency Sar Tasking Comms Case Evidence Finding Recommendation.

(** ** Tables *)

Record safety_db := mkSafetyDB {
  safety_checklist_templates : gmap string ChecklistTemplateRow;
  safety_inspections : gmap string InspectionRow;
  safety_inspection_deficiencies : gmap string DeficiencyRow;
  sar_incidents : gmap string SarIncidentRow;
  (** the position and location columns, which no query reads back *)
  sar_positions : gmap string (option string);
  sar_resource_taskings : gmap string SarTaskingRow;
  sar_comms_log : gmap Z SarCommsRow;
  investigation_cases : gmap string InvestigationCaseRow;
  case_locations : gmap string (option string);
  investigation_evidence : gmap string EvidenceRow;
  investigation_findings : gmap string FindingRow;
  investigation_recommendations : gmap string RecommendationRow;
}.

(** The tables and the identity sequence of the comms ledger, which a rollback
    does not turn back. *)
Record safety_store := mkSafetyStore { tables : safety_db; comms_sequence : Z }.
Definition set_tables (d : safety_db) (s : safety_store) : safety_store :=
  mkSafetyStore d (comms_sequence s).

Definition on_templates (g : gmap string ChecklistTemplateRow → gmap string ChecklistTemplateRow) (d : safety_db) : safety_db :=
  mkSafetyDB
    (g (safety_checklist_templates d)) (safety_inspections d) (safety_inspection_deficiencies d)
    (sar_incidents d) (sar_positions d) (sar_resource_taskings d) (sar_comms_log d)
    (investigation_cases d) (case_locations d) (investigation_evidence d) (investigation_findings d)
    (investigation_recommendations d).
Definition on_inspections (g : gmap string InspectionRow → gmap string InspectionRow) (d : safety_db) : safety_db :=
  mkSafetyDB
    (safety_checklist_templates d) (g (safety_inspections d)) (safety_inspection_deficiencies d)
    (sar_incidents d) (sar_positions d) (sar_resource_taskings d) (sar_comms_log d)
    (investigation_cases d) (case_locations d) (investigation_evidence d) (investigation_findings d)
    (investigation_recommendations d).
Definition on_deficiencies (g : gmap string DeficiencyRow → gmap string DeficiencyRow) (d : safety_db) : safety_db :=
  mkSafetyDB
    (safety_checklist_templates d) (safety_inspections d) (g (safety_inspection_deficiencies d))
    (sar_incidents d) (sar_positions d) (sar_resource_taskings d) (sar_comms_log d)
    (investigation_cases d) (case_locations d) (investigation_evidence d) (investigation_findings d)
    (investigation_recommendations d).
Definition on_incidents (g : gmap string SarIncidentRow → gmap string SarIncidentRow) (d : safety_db) : safety_db :=
  mkSafetyDB
    (safety_checklist_templates d) (safety_inspections d) (safety_inspection_deficiencies d)
    (g (sar_incidents d)) (sar_positions d) (sar_resource_taskings d) (sar_comms_log d)
    (investigation_cases d) (case_locations d) (investigation_evidence d) (investigation_findings d)
    (investigation_recommendations d).
Definition on_positions_of_incidents (g : gmap string (option string) → gmap string (option string)) (d : safety_db) : safety_db :=
  mkSafetyDB
    (safety_checklist_templates d) (safety_inspections d) (safety_inspection_deficiencies d)
    (sar_incidents d) (g (sar_positions d)) (sar_resource_taskings d) (sar_comms_log d)
    (investigation_cases d) (case_locations d) (investigation_evidence d) (investigation_findings d)
    (investigation_recommendations d).
Definition on_taskings (g : gmap string SarTaskingRow → gmap string SarTaskingRow) (d : safety_db) : safety_db :=
  mkSafetyDB
    (safety_checklist_templates d) (safety_inspections d) (safety_inspection_deficiencies d)
    (sar_incidents d) (sar_positions d) (g (sar_resource_taskings d)) (sar_comms_log d)
    (investigation_cases d) (case_locations d) (investigation_evidence d) (investigation_findings d)
    (investigation_recommendations d).
Definition on_comms (g : gmap Z SarCommsRow → gmap Z SarCommsRow) (d : safety_db) : safety_db :=
  mkSafetyDB
    (safety_checklist_templates d) (safety_inspections d) (safety_inspection_deficiencies d)
    (sar_incidents d) (sar_positions d) (sar_resource_taskings d) (g (sar_comms_log d))
    (investigation_cases d) (case_locations d) (investigation_evidence d) (investigation_findings d)
    (investigation_recommendations d).
Definition on_cases (g : gmap string InvestigationCaseRow → gmap string InvestigationCaseRow) (d : safety_db) : safety_db :=
  mkSafetyDB
    (safety_checklist_templates d) (safety_inspections d) (safety_inspection_deficiencies d)
    (sar_incidents d) (sar_positions d) (sar_resource_taskings d) (sar_comms_log d)
    (g (investigation_cases d)) (case_locations d) (investigation_evidence d)
    (investigation_findings d) (investigation_recommendations d).
Definition on_locations_of_cases (g : gmap string (option string) → gmap string (option string)) (d : safety_db) : safety_db :=
  mkSafetyDB
    (safety_checklist_templates d) (safety_inspections d) (safety_inspection_deficiencies d)
    (sar_incidents d) (sar_positions d) (sar_resource_taskings d) (sar_comms_log d)
    (investigation_cases d) (g (case_locations d)) (investigation_evidence d)
    (investigation_findings d) (investigation_recommendations d).
Definition on_evidence (g : gmap string EvidenceRow → gmap string EvidenceRow) (d : safety_db) : safety_db :=
  mkSafetyDB
    (safety_checklist_templates d) (safety_inspections d) (safety_inspection_deficiencies d)
    (sar_incidents d) (sar_positions d) (sar_resource_taskings d) (sar_comms_log d)
    (investigation_cases d) (case_locations d) (g (investigation_evidence d))
    (investigation_findings d) (investigation_recommendations d).
Definition on_findings (g : gmap string FindingRow → gmap string FindingRow) (d : safety_db) : safety_db :=
  mkSafetyDB
    (safety_checklist_templates d) (safety_inspections d) (safety_inspection_deficiencies d)
    (sar_incidents d) (sar_positions d) (sar_resource_taskings d) (sar_comms_log d)
    (investigation_cases d) (case_locations d) (investigation_evidence d)
    (g (investigation_findings d)) (investigation_recommendations d).
Definition on_recommendations (g : gmap string RecommendationRow → gmap string RecommendationRow) (d : safety_db) : safety_db :=
  mkSafetyDB
    (safety_checklist_templates d) (safety_inspections d) (safety_inspection_deficiencies d)
    (sar_incidents d) (sar_positions d) (sar_resource_taskings d) (sar_comms_log d)
    (investigation_cases d) (case_locations d) (investigation_evidence d) (investigation_findings d)
    (g (investigation_recommendations d)).

Definition empty_store : safety_store :=
  mkSafetyStore (mkSafetyDB ∅ ∅ ∅ ∅ ∅ ∅ ∅ ∅ ∅ ∅ ∅ ∅) 1.

(** ** Row-level security *)

Section rls.
Context (tenant : string) (d : safety_db).

Definition visible_template (r : ChecklistTemplateRow) : bool := String.eqb (Checklist.TenantID r) tenant.
Definition visible_inspection (r : InspectionRow) : bool := String.eqb (Inspection.TenantID r) tenant.
Definition visible_incident (r : SarIncidentRow) : bool := String.eqb (Sar.TenantID r) tenant.
Definition visible_case (r : InvestigationCaseRow) : bool := String.eqb (Case.TenantID r) tenant.

(** A child row is visible when its parent exists and belongs to the tenant. *)
Definition parent_in {A} (table : gmap string A) (visible : A → bool) (id : string) : bool :=
  match table !! id with Some r => visible r | None => false end.
Definition under_inspection (id : string) : bool := parent_in (safety_inspections d) visible_inspection id.
Definition under_incident (id : string) : bool := parent_in (sar_incidents d) visible_incident id.
Definition under_case (id : string) : bool := parent_in (investigation_cases d) visible_case id.

(** SELECT ... WHERE key = id, of the rows the policy lets through. *)
Definition lookup_visible {A} (table : gmap string A) (visible : A → bool) (id : string) : option A :=
  match table !! id with Some r => if visible r then Some r else None | None => None end.
Definition find_template := lookup_visible (safety_checklist_templates d) visible_template.
Definition find_inspection := lookup_visible (safety_inspections d) visible_inspection.
Definition find_deficiency :=
  lookup_visible (safety_inspection_deficiencies d) (under_inspection ∘ Deficiency.InspectionID).
Definition find_incident := lookup_visible (sar_incidents d) visible_incident.
Definition find_tasking := lookup_visible (sar_resource_taskings d) (under_incident ∘ Tasking.IncidentID).
Definition find_case := lookup_visible (investigation_cases d) visible_case.
Definition find_recommendation :=
  lookup_visible (investigation_recommendations d) (under_case ∘ Recommendation.CaseID).

(** The rows of a table that the policy and a WHERE clause let through. *)
Definition rows_where {K A} `{Countable K} (table : gmap K A) (p : A → bool) : list A :=
  filter (λ r, p r = true) (map_to_list table).*2.
End rls.

(** ** Transactions *)

Inductive safety_error :=
| TenantRequired
| StoreFailure
| DuplicateKey
| ErrSafetyNotFound
| ErrSafetyInvalidTransition
| ErrSafetyMakerChecker.

Abbreviation IO := (M safety_store safety_error).

Definition WithTenant {A} : string → IO A → IO A :=
  tenant_transaction tables set_tables TenantRequired StoreFailure.

Definition select {A} (f : safety_db → A) : IO A :=
  external StoreFailure (λ s, (s, f (tables s))).
(** A query for one row, whose absence is [ErrSafetyNotFound]. *)
Definition select_row {A} (f : safety_db → option A) : IO A :=
  o ← select f;
  match o with Some r => mret r | None => fail ErrSafetyNotFound end.
(** The same after a statement of the transaction wrote the row: its absence is
    the plain error of the scan. *)
Definition reselect_row {A} (f : safety_db → option A) : IO A :=
  o ← select f;
  match o with Some r => mret r | None => fail StoreFailure end.
Definition exec (f : safety_db → safety_db) : IO unit :=
  external StoreFailure (λ s, (set_tables (f (tables s)) s, tt)).
(** INSERT of a row with the primary key [id]. *)
Definition insert_row {K A} `{Countable K} (table : safety_db → gmap K A)
  (on : (gmap K A → gmap K A) → safety_db → safety_db) (id : K) (r : A) : IO A :=
  taken ← gets (λ s, bool_decide (is_Some (table (tables s) !! id)));
  if (taken : bool) then fail DuplicateKey
  else exec (on (insert id r)) ≫= λ _, mret r.

(** A guard of the code: an error unless [b]. *)
Definition legal (b : bool) : IO unit := require b ErrSafetyInvalidTransition.

(** ** Inspections *)

Section inspections.
(** The codes of the items of a template: [item->>'code'] over the elements of
    the JSONB array, which Postgres evaluates. *)
Context (item_codes : string → list string).

Definition CreateChecklistTemplate (now : Z) (row : ChecklistTemplateRow) : IO unit :=
  WithTenant (Checklist.TenantID row)
    (insert_row safety_checklist_templates on_templates (Checklist.TemplateID row)
       (Checklist.inserted now row) ≫= λ _, mret tt).

(** ORDER BY regime, version: an order of the texts under the collation of the
    database, then of the versions; the key is given as a relation. *)
Definition ListChecklistTemplates (by_regime_version : relation ChecklistTemplateRow)
  `{∀ a b, Decision (by_regime_version a b)} (tenantID regime : string) : IO (list ChecklistTemplateRow) :=
  WithTenant tenantID
    (select (λ d, merge_sort by_regime_version
       (rows_where (safety_checklist_templates d)
          (λ r, visible_template tenantID r
                && (String.eqb regime "" || String.eqb (Checklist.Regime r) regime))))).

Definition CreateInspection (now : Z) (row : InspectionRow) : IO InspectionRow :=
  WithTenant (Inspection.TenantID row)
    (template ← select_row (λ d, find_template (Inspection.TenantID row) d (Inspection.TemplateID row));
     _ ← legal (String.eqb (Checklist.Regime template) (Inspection.Regime row));
     insert_row safety_inspections on_inspections (Inspection.InspectionID row)
       (Inspection.inserted now row)).

Definition GetInspection (tenantID inspectionID : string) : IO InspectionRow :=
  WithTenant tenantID (select_row (λ d, find_inspection tenantID d inspectionID)).

Definition ListInspections (tenantID : string) (limit : nat) : IO (list InspectionRow) :=
  WithTenant tenantID
    (select (λ d, take limit (newest_first Inspection.CreatedAt
       (rows_where (safety_inspections d) (visible_inspection tenantID))))).

(** SELECT count( * ) of the CRITICAL deficiencies of the inspection that are not
    VERIFIED. *)
Definition open_critical (tenantID inspectionID : string) (d : safety_db) : nat :=
  length (rows_where (safety_inspection_deficiencies d)
    (λ r, under_inspection tenantID d (Deficiency.InspectionID r)
          && String.eqb (Deficiency.InspectionID r) inspectionID
          && String.eqb (Deficiency.Severity r) "CRITICAL"
          && negb (String.eqb (Deficiency.State r) "VERIFIED"))).

(** The switch over the action: its guards, and the SET clause of its UPDATE. *)
Definition inspection_switch (now : Z) (tenantID inspectionID actor action note : string)
  (row : InspectionRow) : IO (InspectionRow → InspectionRow) :=
  let state_is := String.eqb (Inspection.State row) in
  if String.eqb action "start" then
    _ ← legal (state_is "SCHEDULED"); mret (Inspection.set_started now)
  else if String.eqb action "complete" then
    _ ← legal (state_is "IN_PROGRESS"); mret (Inspection.set_completed now)
  else if String.eqb action "detain" then
    _ ← legal (state_is "IN_PROGRESS" || state_is "COMPLETED");
    _ ← legal (negb (blank note));
    mret (Inspection.set_detained now actor note)
  else if String.eqb action "rectify" then
    _ ← legal (state_is "DETAINED"); mret (Inspection.set_rectification now actor)
  else if String.eqb action "release" then
    _ ← legal (state_is "RECTIFICATION");
    _ ← require (negb (bool_decide (Inspection.DetainedBy row = Some actor))) ErrSafetyMakerChecker;
    openCritical ← select (open_critical tenantID inspectionID);
    _ ← legal (Nat.eqb openCritical 0);
    mret (Inspection.set_released now actor)
  else if String.eqb action "close" then
    _ ← legal (state_is "COMPLETED" || state_is "RELEASED"); mret (Inspection.set_closed now actor)
  else fail ErrSafetyInvalidTransition.

Definition TransitionInspection (now : Z) (tenantID inspectionID actor action note : string) :
  IO InspectionRow :=
  WithTenant tenantID
    (row ← select_row (λ d, find_inspection tenantID d inspectionID);
     query ← inspection_switch now tenantID inspectionID actor action note row;
     _ ← exec (on_inspections (alter query inspectionID));
     reselect_row (λ d, find_inspection tenantID d inspectionID)).

(** The items of the template the inspection was opened with; both rows of the
    join must be visible. *)
Definition template_items (tenantID inspectionID : string) (d : safety_db) : option string :=
  i ← find_inspection tenantID d inspectionID;
  t ← find_template tenantID d (Inspection.TemplateID i);
  Some (Checklist.Items t).

Definition RecordDeficiency (now : Z) (tenantID : string) (row : DeficiencyRow) : IO DeficiencyRow :=
  WithTenant tenantID
    (items ← select_row (template_items tenantID (Deficiency.InspectionID row));
     known ← select (λ _, bool_decide (Deficiency.Code row ∈ item_codes items));
     _ ← legal known;
     insert_row safety_inspection_deficiencies on_deficiencies (Deficiency.DeficiencyID row)
       (Deficiency.inserted now row)).

Definition ListDeficiencies (tenantID inspectionID : string) : IO (list DeficiencyRow) :=
  WithTenant tenantID
    (select (λ d, oldest_first Deficiency.RecordedAt
       (rows_where (safety_inspection_deficiencies d)
          (λ r, under_inspection tenantID d (Deficiency.InspectionID r)
                && String.eqb (Deficiency.InspectionID r) inspectionID)))).

Definition deficiency_switch (now : Z) (actor action : string) (row : DeficiencyRow) :
  IO (DeficiencyRow → DeficiencyRow) :=
  if String.eqb action "rectify" && String.eqb (Deficiency.State row) "OPEN" then
    mret (Deficiency.set_rectified now actor)
  else if String.eqb action "verify" && String.eqb (Deficiency.State row) "RECTIFIED" then
    _ ← require (negb (bool_decide (Deficiency.RectifiedBy row = Some actor))) ErrSafetyMakerChecker;
    mret (Deficiency.set_verified now actor)
  else fail ErrSafetyInvalidTransition.

Definition TransitionDeficiency (now : Z) (tenantID deficiencyID actor action : string) :
  IO DeficiencyRow :=
  WithTenant tenantID
    (row ← select_row (λ d, find_deficiency tenantID d deficiencyID);
     query ← deficiency_switch now actor action row;
     _ ← exec (on_deficiencies (alter query deficiencyID));
     reselect_row (λ d, find_deficiency tenantID d deficiencyID)).
End inspections.

(** ** SAR coordination *)

(** [%06d] of the remainder: six digits; the one negative remainder that arises,
    that of the most negative int32, has six digits of its own. *)
Definition fmt_06d (z : Z) : string := if z <? 0 then show_Z z else show_pad 6 z.

Definition microdegText (micros : Z) : string :=
  let neg := micros <? 0 in
  let abs := if neg then int32 (- micros) else micros in
  let text := show_Z (Z.quot abs 1000000) +:+ "." +:+ fmt_06d (Z.rem abs 1000000) in
  if neg then "-" +:+ text else text.

(** The EWKT argument of an optional position. *)
Definition position_arg (latMicros lonMicros : option Z) : option string :=
  match latMicros, lonMicros with
  | Some lat, Some lon =>
      Some ("SRID=4326;POINT(" +:+ microdegText lon +:+ " " +:+ microdegText lat +:+ ")")
  | _, _ => None
  end.

Definition CreateSarIncident (now : Z) (row : SarIncidentRow) (latMicros lonMicros : option Z) :
  IO SarIncidentRow :=
  WithTenant (Sar.TenantID row)
    (insert_row sar_incidents
       (λ g d, on_positions_of_incidents (insert (Sar.IncidentID row) (position_arg latMicros lonMicros))
                 (on_incidents g d))
       (Sar.IncidentID row) (Sar.inserted now row)).

Definition GetSarIncident (tenantID incidentID : string) : IO SarIncidentRow :=
  WithTenant tenantID (select_row (λ d, find_incident tenantID d incidentID)).

Definition ListSarIncidents (tenantID : string) (limit : nat) : IO (list SarIncidentRow) :=
  WithTenant tenantID
    (select (λ d, take limit (newest_first Sar.OpenedAt
       (rows_where (sar_incidents d) (visible_incident tenantID))))).

Definition sar_switch (now : Z) (actor action reason : string) (row : SarIncidentRow) :
  IO (SarIncidentRow → SarIncidentRow) :=
  let phase_is := String.eqb (Sar.Phase row) in
  if String.eqb action "alert" then
    _ ← legal (phase_is "UNCERTAINTY"); mret (Sar.set_alert now actor)
  else if String.eqb action "distress" then
    _ ← legal (phase_is "ALERT"); mret (Sar.set_distress now actor)
  else if String.eqb action "rescue" then
    _ ← legal (phase_is "DISTRESS"); mret (Sar.set_rescue now actor)
  else if String.eqb action "close" then
    _ ← legal (negb (phase_is "CLOSED"));
    _ ← legal (negb (blank reason));
    mret (Sar.set_closed now actor reason)
  else fail ErrSafetyInvalidTransition.

Definition TransitionSarIncident (now : Z) (tenantID incidentID actor action reason : string) :
  IO SarIncidentRow :=
  WithTenant tenantID
    (row ← select_row (λ d, find_incident tenantID d incidentID);
     query ← sar_switch now actor action reason row;
     _ ← exec (on_incidents (alter query incidentID));
     reselect_row (λ d, find_incident tenantID d incidentID)).

Definition TaskSarResource (now : Z) (tenantID : string) (row : SarTaskingRow) : IO SarTaskingRow :=
  WithTenant tenantID
    (incident ← select_row (λ d, find_incident tenantID d (Tasking.IncidentID row));
     _ ← legal (negb (String.eqb (Sar.Phase incident) "CLOSED"));
     insert_row sar_resource_taskings on_taskings (Tasking.TaskingID row) (Tasking.inserted now row)).

Definition tasking_switch (now : Z) (actor action : string) (row : SarTaskingRow) :
  IO (SarTaskingRow → SarTaskingRow) :=
  let state_is := String.eqb (Tasking.State row) in
  if String.eqb action "enroute" && state_is "TASKED" then mret Tasking.set_enroute
  else if String.eqb action "onscene" && (state_is "TASKED" || state_is "EN_ROUTE") then
    mret Tasking.set_onscene
  else if String.eqb action "release" && negb (state_is "RELEASED") then
    mret (Tasking.set_released now actor)
  else fail ErrSafetyInvalidTransition.

Definition TransitionSarTasking (now : Z) (tenantID taskingID actor action : string) : IO SarTaskingRow :=
  WithTenant tenantID
    (row ← select_row (λ d, find_tasking tenantID d taskingID);
     query ← tasking_switch now actor action row;
     _ ← exec (on_taskings (alter query taskingID));
     reselect_row (λ d, find_tasking tenantID d taskingID)).

(** The next value of the identity sequence, consumed whatever becomes of the
    transaction. *)
Definition next_entry : IO Z :=
  external StoreFailure (λ s, (mkSafetyStore (tables s) (comms_sequence s + 1), comms_sequence s)).

Definition AppendSarComms (now : Z) (tenantID : string) (row : SarCommsRow) : IO SarCommsRow :=
  WithTenant tenantID
    (exists_ ← select (λ d, bool_decide (is_Some (find_incident tenantID d (Comms.IncidentID row))));
     if (exists_ : bool) then
       entry ← next_entry;
       insert_row sar_comms_log on_comms entry (Comms.inserted now entry row)
     else fail ErrSafetyNotFound).

Definition ListSarComms (tenantID incidentID : string) (limit : nat) : IO (list SarCommsRow) :=
  WithTenant tenantID
    (select (λ d, take limit (oldest_first Comms.EntryID
       (rows_where (sar_comms_log d)
          (λ r, under_incident tenantID d (Comms.IncidentID r)
                && String.eqb (Comms.IncidentID r) incidentID))))).

(** ** Accident investigation *)

Definition EvidenceGenesisHash : string :=
  "0000000000000000000000000000000000000000000000000000000000000000".

Definition EvidenceChainHash (prevChainHash contentHash : string) : string :=
  sha256_hex (prevChainHash +:+ contentHash).

Definition CreateInvestigationCase (now : Z) (row : InvestigationCaseRow)
  (latMicros lonMicros : option Z) : IO InvestigationCaseRow :=
  WithTenant (Case.TenantID row)
    (insert_row investigation_cases
       (λ g d, on_locations_of_cases (insert (Case.CaseID row) (position_arg latMicros lonMicros))
                 (on_cases g d))
       (Case.CaseID row) (Case.inserted now row)).

Definition GetInvestigationCase (tenantID caseID : string) : IO InvestigationCaseRow :=
  WithTenant tenantID (select_row (λ d, find_case tenantID d caseID)).

Definition ListInvestigationCases (tenantID : string) (limit : nat) : IO (list InvestigationCaseRow) :=
  WithTenant tenantID
    (select (λ d, take limit (newest_first Case.OpenedAt
       (rows_where (investigation_cases d) (visible_case tenantID))))).

Definition case_switch (now : Z) (actor action : string) (row : InvestigationCaseRow) :
  IO (InvestigationCaseRow → InvestigationCaseRow) :=
  let state_is := String.eqb (Case.State row) in
  if String.eqb action "evidence" then
    _ ← legal (state_is "OPEN"); mret Case.set_evidence
  else if String.eqb action "analysis" then
    _ ← legal (state_is "EVIDENCE"); mret Case.set_analysis
  else if String.eqb action "report" then
    _ ← legal (state_is "ANALYSIS"); mret (Case.set_reported now actor)
  else if String.eqb action "close" then
    _ ← legal (state_is "REPORTED"); mret (Case.set_closed now actor)
  else fail ErrSafetyInvalidTransition.

Definition TransitionInvestigationCase (now : Z) (tenantID caseID actor action : string) :
  IO InvestigationCaseRow :=
  WithTenant tenantID
    (row ← select_row (λ d, find_case tenantID d caseID);
     query ← case_switch now actor action row;
     _ ← exec (on_cases (alter query caseID));
     reselect_row (λ d, find_case tenantID d caseID)).

Section evidence.
(** The order of texts under the collation of the database. *)
Context (id_le : relation string) `{∀ a b, Decision (id_le a b)}.

(** ORDER BY collected_at, evidence_id. *)
Definition evidence_le (a b : EvidenceRow) : Prop :=
  Evidence.CollectedAt a < Evidence.CollectedAt b ∨
  (Evidence.CollectedAt a = Evidence.CollectedAt b ∧ id_le (Evidence.EvidenceID a) (Evidence.EvidenceID b)).
#[export] Instance evidence_le_dec a b : Decision (evidence_le a b).
Proof. unfold evidence_le. apply _. Defined.

Definition evidence_in_order (tenantID caseID : string) (d : safety_db) : list EvidenceRow :=
  merge_sort evidence_le
    (rows_where (investigation_evidence d)
       (λ r, under_case tenantID d (Evidence.CaseID r) && String.eqb (Evidence.CaseID r) caseID)).

(** The head of the chain is the first row in the descending order, which is the
    last in the ascending one: identifiers are unique. *)
Definition AppendEvidence (now : Z) (tenantID : string) (row : EvidenceRow) : IO EvidenceRow :=
  WithTenant tenantID
    (case ← select_row (λ d, find_case tenantID d (Evidence.CaseID row));
     _ ← legal (String.eqb (Case.State case) "EVIDENCE");
     head ← select (λ d, Evidence.ChainHash <$> last (evidence_in_order tenantID (Evidence.CaseID row) d));
     let prev := default EvidenceGenesisHash head in
     let chainHash := EvidenceChainHash prev (Evidence.ContentHash row) in
     insert_row investigation_evidence on_evidence (Evidence.EvidenceID row)
       (Evidence.inserted now prev chainHash row)).

Definition ListEvidence (tenantID caseID : string) : IO (list EvidenceRow) :=
  WithTenant tenantID (select (evidence_in_order tenantID caseID)).

(** The loop of the verifier, from the chain hash it expects to continue. *)
Fixpoint verify_links (prev : string) (items : list EvidenceRow) : bool :=
  match items with
  | [] => true
  | item :: items' =>
      if negb (String.eqb (Evidence.PrevChainHash item) prev)
         || negb (String.eqb (Evidence.ChainHash item) (EvidenceChainHash prev (Evidence.ContentHash item)))
      then false
      else verify_links (Evidence.ChainHash item) items'
  end.

Definition VerifyEvidenceChain (tenantID caseID : string) : IO bool :=
  items ← ListEvidence tenantID caseID;
  mret (verify_links EvidenceGenesisHash items).
End evidence.

Definition AddFinding (now : Z) (tenantID : string) (row : FindingRow) : IO FindingRow :=
  WithTenant tenantID
    (case ← select_row (λ d, find_case tenantID d (Finding.CaseID row));
     _ ← legal (String.eqb (Case.State case) "ANALYSIS" || String.eqb (Case.State case) "REPORTED");
     insert_row investigation_findings on_findings (Finding.FindingID row) (Finding.inserted now row)).

Definition AddRecommendation (now : Z) (tenantID : string) (row : RecommendationRow) : IO RecommendationRow :=
  WithTenant tenantID
    (case ← select_row (λ d, find_case tenantID d (Recommendation.CaseID row));
     _ ← legal (String.eqb (Case.State case) "ANALYSIS" || String.eqb (Case.State case) "REPORTED");
     insert_row investigation_recommendations on_recommendations (Recommendation.RecommendationID row)
       (Recommendation.inserted now row)).

Definition recommendation_switch (now : Z) (actor action : string) (row : RecommendationRow) :
  IO (RecommendationRow → RecommendationRow) :=
  let status_is := String.eqb (Recommendation.Status row) in
  if (String.eqb action "accept" || String.eqb action "reject") && status_is "PROPOSED" then
    mret (Recommendation.set_decided now (if String.eqb action "reject" then "REJECTED" else "ACCEPTED") actor)
  else if String.eqb action "implement" && status_is "ACCEPTED" then mret Recommendation.set_implemented
  else fail ErrSafetyInvalidTransition.

Definition DecideRecommendation (now : Z) (tenantID recommendationID actor action : string) :
  IO RecommendationRow :=
  WithTenant tenantID
    (row ← select_row (λ d, find_recommendation tenantID d recommendationID);
     query ← recommendation_switch now actor action row;
     _ ← exec (on_recommendations (alter query recommendationID));
     reselect_row (λ d, find_recommendation tenantID d recommendationID)).

Definition ListFindings (tenantID caseID : string) : IO (list FindingRow) :=
  WithTenant tenantID
    (select (λ d, oldest_first Finding.CreatedAt
       (rows_where (investigation_findings d)
          (λ r, under_case tenantID d (Finding.CaseID r) && String.eqb (Finding.CaseID r) caseID)))).

Definition ListRecommendations (tenantID caseID : string) : IO (list RecommendationRow) :=
  WithTenant tenantID
    (select (λ d, oldest_first Recommendation.CreatedAt
       (rows_where (investigation_recommendations d)
          (λ r, under_case tenantID d (Recommendation.CaseID r)
                && String.eqb (Recommendation.CaseID r) caseID)))).
