(* ===== verification/SafetySpec.v ===== *)
(** * Abstract specification of the safety workflows, and refinement

    The lifecycles of [internal/store/safety.go] as step relations on the tables:
    one constructor per legal move, with the guards written as propositions.  The
    theorem [safety_refines] shows that a method call, whatever faults its database
    calls meet, either leaves the tables as they were or makes exactly the step it
    names, and that it makes the step when it returns no error. *)
From S2P Require Import Prelude Effects Sha256 SafetyRows Safety.
Import Checklist Inspection Deficiency Sar Tasking Comms Case Evidence Finding Recommendation.

#[local] Arguments find_inspection : simpl never.

(** ** Runs of the building blocks *)

Section blocks.
Implicit Types (w : env safety_store).

Lemma select_Ok {A} (f : safety_db → A) w w' a :
  select f w = (w', Ok a) → e_state w' = e_state w ∧ a = f (tables (e_state w)).
Proof. unfold select. intros H. apply external_Ok in H. by simplify_eq/=. Qed.

Lemma select_row_Ok {A} (f : safety_db → option A) w w' a :
  select_row f w = (w', Ok a) → e_state w' = e_state w ∧ f (tables (e_state w)) = Some a.
Proof.
  unfold select_row. intros (w1 & o & [H1 ->]%select_Ok & H2)%M_bind_Ok.
  case_match; [|done]. unfold mret, M_ret in H2. by simplify_eq.
Qed.

Lemma reselect_row_Ok {A} (f : safety_db → option A) w w' a :
  reselect_row f w = (w', Ok a) → e_state w' = e_state w ∧ f (tables (e_state w)) = Some a.
Proof.
  unfold reselect_row. intros (w1 & o & [H1 ->]%select_Ok & H2)%M_bind_Ok.
  case_match; [|done]. unfold mret, M_ret in H2. by simplify_eq.
Qed.

Lemma safety_exec_Ok (f : safety_db → safety_db) w w' a :
  exec f w = (w', Ok a) → e_state w' = set_tables (f (tables (e_state w))) (e_state w).
Proof. unfold exec. intros H. apply external_Ok in H. by simplify_eq/=. Qed.

Lemma require_Ok b e w w' u : require (S := safety_store) (E := safety_error) b e w = (w', Ok u) → b = true ∧ w' = w.
Proof. destruct b; [|done]. unfold require, mret, M_ret. naive_solver. Qed.

Lemma legal_Ok b w w' u : legal b w = (w', Ok u) → b = true ∧ w' = w.
Proof. apply require_Ok. Qed.

Lemma insert_row_Ok {K A} `{Countable K} (table : safety_db → gmap K A) on id r w w' a :
  insert_row table on id r w = (w', Ok a) →
  table (tables (e_state w)) !! id = None ∧ a = r ∧
  e_state w' = set_tables (on (insert id r) (tables (e_state w))) (e_state w).
Proof.
  unfold insert_row. intros (w1 & t & H1 & H2)%M_bind_Ok. unfold gets in H1. simplify_eq.
  case_bool_decide as Hs; [done|]. apply M_bind_Ok in H2 as (w2 & u & H2%safety_exec_Ok & H3).
  unfold mret, M_ret in H3. simplify_eq. split_and!; [|done|done].
  by rewrite <- eq_None_not_Some in Hs.
Qed.

(** A method leaves the tables alone or takes them where its body took them. *)
Lemma WithTenant_run {A} tenantID (fn : IO A) w :
  ∃ w1 w2 r,
    tables (e_state w1) = tables (e_state w) ∧ fn w1 = (w2, r) ∧
    (tables (e_state (WithTenant tenantID fn w).1) = tables (e_state w) ∨
     ∃ a, r = Ok a ∧ tables (e_state (WithTenant tenantID fn w).1) = tables (e_state w2)) ∧
    (∀ a, (WithTenant tenantID fn w).2 = Ok a →
       r = Ok a ∧ tables (e_state (WithTenant tenantID fn w).1) = tables (e_state w2)).
Proof.
  by apply (tenant_transaction_run tables set_tables).
Qed.
End blocks.

Lemma lookup_visible_Some {A} (table : gmap string A) visible id r :
  lookup_visible table visible id = Some r ↔ table !! id = Some r ∧ visible r = true.
Proof.
  unfold lookup_visible. destruct (table !! id) as [r'|]; [destruct (visible r') eqn:Hv|].
  - split; [by intros [= <-]|by intros [[= <-] _]].
  - split; [done|]. intros [[= <-] Hr]. congruence.
  - split; [done|]. by intros [? _].
Qed.

Lemma parent_in_true {A} (table : gmap string A) visible id :
  parent_in table visible id = true ↔ ∃ r, table !! id = Some r ∧ visible r = true.
Proof. unfold parent_in. destruct (table !! id); naive_solver. Qed.

Lemma elem_of_rows_where {K A} `{Countable K} (table : gmap K A) p r :
  r ∈ rows_where table p ↔ p r = true ∧ ∃ k, table !! k = Some r.
Proof.
  unfold rows_where. rewrite list_elem_of_filter, list_elem_of_fmap. split.
  - intros [Hp ([k r'] & -> & Hk%elem_of_map_to_list)]. eauto.
  - intros [Hp [k Hk]]. split; [done|]. exists (k, r). by rewrite elem_of_map_to_list.
Qed.

Lemma open_critical_none t id d :
  under_inspection t d id = true → open_critical t id d = 0%nat →
  ∀ k x, safety_inspection_deficiencies d !! k = Some x → Deficiency.InspectionID x = id →
    Deficiency.Severity x = "CRITICAL" → Deficiency.State x = "VERIFIED".
Proof.
  intros Hu H0%length_zero_iff_nil k x Hx Hid Hsev.
  destruct (decide (Deficiency.State x = "VERIFIED")) as [|Hne]; [done|].
  assert (x ∈ []) as []%not_elem_of_nil.
  rewrite <- H0. apply elem_of_rows_where. split; [|eauto].
  rewrite Hid, Hu, String.eqb_refl, Hsev. by apply String.eqb_neq in Hne as ->.
Qed.

(** Inverts a run of a body that ends well into the facts its calls establish. *)
Ltac run_step :=
  match goal with
  | H : (_ ≫= _) _ = (_, Ok _) |- _ =>
      let w := fresh "w" in let a := fresh "a" in
      apply M_bind_Ok in H as (w & a & ? & ?)
  | H : legal _ _ = (_, Ok _) |- _ => apply legal_Ok in H as [? ->]
  | H : require _ _ _ = (_, Ok _) |- _ => apply require_Ok in H as [? ->]
  | H : select _ _ = (_, Ok _) |- _ => apply select_Ok in H as [? ->]
  | H : select_row _ _ = (_, Ok _) |- _ => apply select_row_Ok in H as [? ?]
  | H : reselect_row _ _ = (_, Ok _) |- _ => apply reselect_row_Ok in H as [? ?]
  | H : exec _ _ = (_, Ok _) |- _ => apply safety_exec_Ok in H
  | H : insert_row _ _ _ _ _ = (_, Ok _) |- _ => apply insert_row_Ok in H as (? & -> & ?)
  | H : mret _ _ = (_, Ok _) |- _ => unfold mret, M_ret in H; injection H as ? ?; subst
  | H : fail _ _ = (_, Ok _) |- _ => discriminate H
  | H : e_state ?w = _ |- _ => rewrite H in *; clear H w
  | H : lookup_visible _ _ _ = Some _ |- _ => apply lookup_visible_Some in H as [? ?]
  | H : String.eqb _ _ = true |- _ => apply String.eqb_eq in H
  | H : negb _ = true |- _ => apply negb_true_iff in H
  | H : bool_decide _ = false |- _ => apply bool_decide_eq_false in H
  | H : bool_decide _ = true |- _ => apply bool_decide_eq_true in H
  | H : String.eqb _ _ = false |- _ => apply String.eqb_neq in H
  | H : (String.eqb _ _ || String.eqb _ _)%bool = true |- _ =>
      rewrite orb_true_iff, !String.eqb_eq in H
  | H : (_ && _)%bool = true |- _ => apply andb_true_iff in H as [? ?]
  end.
Ltac run_inv := repeat (run_step; simpl in * ).

(** ** The lifecycles *)

(** [inspection_move d now id actor action note r q]: in the tables [d], [actor]
    may perform [action] on the inspection [r], whose row then becomes [q r]. *)
Inductive inspection_move (d : safety_db) (now : Z) (id actor note : string) (r : InspectionRow) :
  string → (InspectionRow → InspectionRow) → Prop :=
| move_start : Inspection.State r = "SCHEDULED" →
    inspection_move d now id actor note r "start" (Inspection.set_started now)
| move_complete : Inspection.State r = "IN_PROGRESS" →
    inspection_move d now id actor note r "complete" (Inspection.set_completed now)
| move_detain : Inspection.State r = "IN_PROGRESS" ∨ Inspection.State r = "COMPLETED" →
    TrimSpace note ≠ "" →
    inspection_move d now id actor note r "detain" (Inspection.set_detained now actor note)
| move_rectify : Inspection.State r = "DETAINED" →
    inspection_move d now id actor note r "rectify" (Inspection.set_rectification now actor)
| move_release : Inspection.State r = "RECTIFICATION" → Inspection.DetainedBy r ≠ Some actor →
    (∀ k x, safety_inspection_deficiencies d !! k = Some x → Deficiency.InspectionID x = id →
       Deficiency.Severity x = "CRITICAL" → Deficiency.State x = "VERIFIED") →
    inspection_move d now id actor note r "release" (Inspection.set_released now actor)
| move_close : Inspection.State r = "COMPLETED" ∨ Inspection.State r = "RELEASED" →
    inspection_move d now id actor note r "close" (Inspection.set_closed now actor).

Inductive deficiency_move (now : Z) (actor : string) (r : DeficiencyRow) :
  string → (DeficiencyRow → DeficiencyRow) → Prop :=
| move_rectified : Deficiency.State r = "OPEN" →
    deficiency_move now actor r "rectify" (Deficiency.set_rectified now actor)
| move_verified : Deficiency.State r = "RECTIFIED" → Deficiency.RectifiedBy r ≠ Some actor →
    deficiency_move now actor r "verify" (Deficiency.set_verified now actor).

Inductive sar_move (now : Z) (actor reason : string) (r : SarIncidentRow) :
  string → (SarIncidentRow → SarIncidentRow) → Prop :=
| move_alert : Sar.Phase r = "UNCERTAINTY" → sar_move now actor reason r "alert" (Sar.set_alert now actor)
| move_distress : Sar.Phase r = "ALERT" → sar_move now actor reason r "distress" (Sar.set_distress now actor)
| move_rescue : Sar.Phase r = "DISTRESS" → sar_move now actor reason r "rescue" (Sar.set_rescue now actor)
| move_sar_close : Sar.Phase r ≠ "CLOSED" → TrimSpace reason ≠ "" →
    sar_move now actor reason r "close" (Sar.set_closed now actor reason).

Inductive tasking_move (now : Z) (actor : string) (r : SarTaskingRow) :
  string → (SarTaskingRow → SarTaskingRow) → Prop :=
| move_enroute : Tasking.State r = "TASKED" → tasking_move now actor r "enroute" Tasking.set_enroute
| move_onscene : Tasking.State r = "TASKED" ∨ Tasking.State r = "EN_ROUTE" →
    tasking_move now actor r "onscene" Tasking.set_onscene
| move_tasking_release : Tasking.State r ≠ "RELEASED" →
    tasking_move now actor r "release" (Tasking.set_released now actor).

Inductive case_move (now : Z) (actor : string) (r : InvestigationCaseRow) :
  string → (InvestigationCaseRow → InvestigationCaseRow) → Prop :=
| move_evidence : Case.State r = "OPEN" → case_move now actor r "evidence" Case.set_evidence
| move_analysis : Case.State r = "EVIDENCE" → case_move now actor r "analysis" Case.set_analysis
| move_report : Case.State r = "ANALYSIS" → case_move now actor r "report" (Case.set_reported now actor)
| move_case_close : Case.State r = "REPORTED" → case_move now actor r "close" (Case.set_closed now actor).

Inductive recommendation_move (now : Z) (actor : string) (r : RecommendationRow) :
  string → (RecommendationRow → RecommendationRow) → Prop :=
| move_accept : Recommendation.Status r = "PROPOSED" →
    recommendation_move now actor r "accept" (Recommendation.set_decided now "ACCEPTED" actor)
| move_reject : Recommendation.Status r = "PROPOSED" →
    recommendation_move now actor r "reject" (Recommendation.set_decided now "REJECTED" actor)
| move_implement : Recommendation.Status r = "ACCEPTED" →
    recommendation_move now actor r "implement" Recommendation.set_implemented.

(** ** Operations and their steps *)

(** The methods that write. *)
Inductive safety_op :=
| OpTemplate (row : ChecklistTemplateRow)
| OpInspection (row : InspectionRow)
| OpMoveInspection (tenant id actor action note : string)
| OpDeficiency (tenant : string) (row : DeficiencyRow)
| OpMoveDeficiency (tenant id actor action : string)
| OpIncident (row : SarIncidentRow) (lat lon : option Z)
| OpMoveIncident (tenant id actor action reason : string)
| OpTasking (tenant : string) (row : SarTaskingRow)
| OpMoveTasking (tenant id actor action : string)
| OpComms (tenant : string) (row : SarCommsRow)
| OpCase (row : InvestigationCaseRow) (lat lon : option Z)
| OpMoveCase (tenant id actor action : string)
| OpEvidence (tenant : string) (row : EvidenceRow)
| OpFinding (tenant : string) (row : FindingRow)
| OpRecommendation (tenant : string) (row : RecommendationRow)
| OpDecide (tenant id actor action : string).

Definition op_tenant (op : safety_op) : string :=
  match op with
  | OpTemplate row => Checklist.TenantID row
  | OpInspection row => Inspection.TenantID row
  | OpIncident row _ _ => Sar.TenantID row
  | OpCase row _ _ => Case.TenantID row
  | OpMoveInspection t _ _ _ _ | OpDeficiency t _ | OpMoveDeficiency t _ _ _
  | OpMoveIncident t _ _ _ _ | OpTasking t _ | OpMoveTasking t _ _ _ | OpComms t _
  | OpMoveCase t _ _ _ | OpEvidence t _ | OpFinding t _ | OpRecommendation t _ | OpDecide t _ _ _ => t
  end.

Section spec.
Context (item_codes : string → list string) (id_le : relation string) `{∀ a b, Decision (id_le a b)}.

Definition run_op (now : Z) (op : safety_op) : IO unit :=
  match op with
  | OpTemplate row => CreateChecklistTemplate now row
  | OpInspection row => CreateInspection now row ≫= λ _, mret tt
  | OpMoveInspection t id actor action note =>
      TransitionInspection now t id actor action note ≫= λ _, mret tt
  | OpDeficiency t row => RecordDeficiency item_codes now t row ≫= λ _, mret tt
  | OpMoveDeficiency t id actor action => TransitionDeficiency now t id actor action ≫= λ _, mret tt
  | OpIncident row lat lon => CreateSarIncident now row lat lon ≫= λ _, mret tt
  | OpMoveIncident t id actor action reason =>
      TransitionSarIncident now t id actor action reason ≫= λ _, mret tt
  | OpTasking t row => TaskSarResource now t row ≫= λ _, mret tt
  | OpMoveTasking t id actor action => TransitionSarTasking now t id actor action ≫= λ _, mret tt
  | OpComms t row => AppendSarComms now t row ≫= λ _, mret tt
  | OpCase row lat lon => CreateInvestigationCase now row lat lon ≫= λ _, mret tt
  | OpMoveCase t id actor action => TransitionInvestigationCase now t id actor action ≫= λ _, mret tt
  | OpEvidence t row => AppendEvidence id_le now t row ≫= λ _, mret tt
  | OpFinding t row => AddFinding now t row ≫= λ _, mret tt
  | OpRecommendation t row => AddRecommendation now t row ≫= λ _, mret tt
  | OpDecide t id actor action => DecideRecommendation now t id actor action ≫= λ _, mret tt
  end.

(** [safety_step now op d d']: the effect of [op] on the tables. *)
Inductive safety_step (now : Z) : safety_op → safety_db → safety_db → Prop :=
| step_template row d :
    safety_checklist_templates d !! Checklist.TemplateID row = None →
    safety_step now (OpTemplate row) d
      (on_templates (insert (Checklist.TemplateID row) (Checklist.inserted now row)) d)
| step_inspection row t d :
    safety_checklist_templates d !! Inspection.TemplateID row = Some t →
    Checklist.TenantID t = Inspection.TenantID row → Checklist.Regime t = Inspection.Regime row →
    safety_inspections d !! Inspection.InspectionID row = None →
    safety_step now (OpInspection row) d
      (on_inspections (insert (Inspection.InspectionID row) (Inspection.inserted now row)) d)
| step_move_inspection t id actor action note r q d :
    safety_inspections d !! id = Some r → Inspection.TenantID r = t →
    inspection_move d now id actor note r action q →
    safety_step now (OpMoveInspection t id actor action note) d (on_inspections (alter q id) d)
| step_deficiency t row i tm d :
    safety_inspections d !! Deficiency.InspectionID row = Some i → Inspection.TenantID i = t →
    safety_checklist_templates d !! Inspection.TemplateID i = Some tm →
    Deficiency.Code row ∈ item_codes (Checklist.Items tm) →
    safety_inspection_deficiencies d !! Deficiency.DeficiencyID row = None →
    safety_step now (OpDeficiency t row) d
      (on_deficiencies (insert (Deficiency.DeficiencyID row) (Deficiency.inserted now row)) d)
| step_move_deficiency t id actor action r i q d :
    safety_inspection_deficiencies d !! id = Some r →
    safety_inspections d !! Deficiency.InspectionID r = Some i → Inspection.TenantID i = t →
    deficiency_move now actor r action q →
    safety_step now (OpMoveDeficiency t id actor action) d (on_deficiencies (alter q id) d)
| step_incident row lat lon d :
    sar_incidents d !! Sar.IncidentID row = None →
    safety_step now (OpIncident row lat lon) d
      (on_positions_of_incidents (insert (Sar.IncidentID row) (position_arg lat lon))
         (on_incidents (insert (Sar.IncidentID row) (Sar.inserted now row)) d))
| step_move_incident t id actor action reason r q d :
    sar_incidents d !! id = Some r → Sar.TenantID r = t → sar_move now actor reason r action q →
    safety_step now (OpMoveIncident t id actor action reason) d (on_incidents (alter q id) d)
| step_tasking t row i d :
    sar_incidents d !! Tasking.IncidentID row = Some i → Sar.TenantID i = t → Sar.Phase i ≠ "CLOSED" →
    sar_resource_taskings d !! Tasking.TaskingID row = None →
    safety_step now (OpTasking t row) d
      (on_taskings (insert (Tasking.TaskingID row) (Tasking.inserted now row)) d)
| step_move_tasking t id actor action r i q d :
    sar_resource_taskings d !! id = Some r →
    sar_incidents d !! Tasking.IncidentID r = Some i → Sar.TenantID i = t →
    tasking_move now actor r action q →
    safety_step now (OpMoveTasking t id actor action) d (on_taskings (alter q id) d)
| step_comms t row i entry d :
    sar_incidents d !! Comms.IncidentID row = Some i → Sar.TenantID i = t →
    sar_comms_log d !! entry = None →
    safety_step now (OpComms t row) d (on_comms (insert entry (Comms.inserted now entry row)) d)
| step_case row lat lon d :
    investigation_cases d !! Case.CaseID row = None →
    safety_step now (OpCase row lat lon) d
      (on_locations_of_cases (insert (Case.CaseID row) (position_arg lat lon))
         (on_cases (insert (Case.CaseID row) (Case.inserted now row)) d))
| step_move_case t id actor action r q d :
    investigation_cases d !! id = Some r → Case.TenantID r = t → case_move now actor r action q →
    safety_step now (OpMoveCase t id actor action) d (on_cases (alter q id) d)
| step_evidence t row c prev d :
    investigation_cases d !! Evidence.CaseID row = Some c → Case.TenantID c = t →
    Case.State c = "EVIDENCE" →
    prev = default EvidenceGenesisHash
             (Evidence.ChainHash <$> last (evidence_in_order id_le t (Evidence.CaseID row) d)) →
    investigation_evidence d !! Evidence.EvidenceID row = None →
    safety_step now (OpEvidence t row) d
      (on_evidence (insert (Evidence.EvidenceID row)
         (Evidence.inserted now prev (EvidenceChainHash prev (Evidence.ContentHash row)) row)) d)
| step_finding t row c d :
    investigation_cases d !! Finding.CaseID row = Some c → Case.TenantID c = t →
    Case.State c = "ANALYSIS" ∨ Case.State c = "REPORTED" →
    investigation_findings d !! Finding.FindingID row = None →
    safety_step now (OpFinding t row) d
      (on_findings (insert (Finding.FindingID row) (Finding.inserted now row)) d)
| step_recommendation t row c d :
    investigation_cases d !! Recommendation.CaseID row = Some c → Case.TenantID c = t →
    Case.State c = "ANALYSIS" ∨ Case.State c = "REPORTED" →
    investigation_recommendations d !! Recommendation.RecommendationID row = None →
    safety_step now (OpRecommendation t row) d
      (on_recommendations (insert (Recommendation.RecommendationID row)
         (Recommendation.inserted now row)) d)
| step_decide t id actor action r c q d :
    investigation_recommendations d !! id = Some r →
    investigation_cases d !! Recommendation.CaseID r = Some c → Case.TenantID c = t →
    recommendation_move now actor r action q →
    safety_step now (OpDecide t id actor action) d (on_recommendations (alter q id) d).
End spec.

Create HintDb safety.
#[export] Hint Constructors inspection_move deficiency_move sar_move tasking_move case_move
  recommendation_move safety_step : safety.

(** ** Refinement *)

(** [m] leaves the tables or makes a step, and makes the step when it succeeds. *)
Definition refines {A} (step : safety_db → safety_db → Prop) (m : IO A) : Prop :=
  ∀ w, (tables (e_state (m w).1) = tables (e_state w) ∨ step (tables (e_state w)) (tables (e_state (m w).1))) ∧
       (∀ a, (m w).2 = Ok a → step (tables (e_state w)) (tables (e_state (m w).1))).

Lemma WithTenant_refines {A} tenantID (body : IO A) step :
  (∀ w w' a, body w = (w', Ok a) → step (tables (e_state w)) (tables (e_state w'))) →
  refines step (WithTenant tenantID body).
Proof.
  intros Hb w. destruct (WithTenant_run tenantID body w) as (w1 & w2 & r & H1 & H2 & H3 & H4).
  split.
  - destruct H3 as [?|(a & -> & H3)]; [by left|]. right. rewrite H3, <- H1. eauto.
  - intros a [-> H5]%H4. rewrite H5, <- H1. eauto.
Qed.

Lemma refines_discard {A} step (m : IO A) : refines step m → refines step (m ≫= λ _, mret tt).
Proof.
  intros Hm w. specialize (Hm w). unfold mbind, M_bind.
  destruct (m w) as [w' [a|e]]; simpl in *; [|naive_solver]. destruct Hm as [Hm1 Hm2].
  split; [done|]. eauto.
Qed.

Section switches.
Implicit Types (w : env safety_store).

(** Every branch of a switch that returns a SET clause is one of the moves. *)
Ltac switch_cases Hs :=
  repeat case_hyp Hs; run_inv; subst; try (split; [constructor; by eauto|done]).

Lemma inspection_switch_move now t id actor action note r w w' q :
  find_inspection t (tables (e_state w)) id = Some r →
  inspection_switch now t id actor action note r w = (w', Ok q) →
  inspection_move (tables (e_state w)) now id actor note r action q ∧ e_state w' = e_state w.
Proof.
  intros Hf. unfold inspection_switch, blank. intros Hs.
  switch_cases Hs.
  split; [|done]. constructor; [done|done|]. eapply open_critical_none; [|by apply Nat.eqb_eq].
  unfold find_inspection in *. run_inv. apply parent_in_true. eauto.
Qed.

Lemma deficiency_switch_move now actor action r w w' q :
  deficiency_switch now actor action r w = (w', Ok q) →
  deficiency_move now actor r action q ∧ e_state w' = e_state w.
Proof. unfold deficiency_switch. intros Hs. switch_cases Hs. Qed.

Lemma sar_switch_move now actor action reason r w w' q :
  sar_switch now actor action reason r w = (w', Ok q) →
  sar_move now actor reason r action q ∧ e_state w' = e_state w.
Proof. unfold sar_switch, blank. intros Hs. switch_cases Hs. Qed.

Lemma tasking_switch_move now actor action r w w' q :
  tasking_switch now actor action r w = (w', Ok q) →
  tasking_move now actor r action q ∧ e_state w' = e_state w.
Proof. unfold tasking_switch. intros Hs. switch_cases Hs. Qed.

Lemma case_switch_move now actor action r w w' q :
  case_switch now actor action r w = (w', Ok q) →
  case_move now actor r action q ∧ e_state w' = e_state w.
Proof. unfold case_switch. intros Hs. switch_cases Hs. Qed.

Lemma recommendation_switch_move now actor action r w w' q :
  recommendation_switch now actor action r w = (w', Ok q) →
  recommendation_move now actor r action q ∧ e_state w' = e_state w.
Proof.
  unfold recommendation_switch. intros Hs. switch_cases Hs.
  rewrite orb_false_r in *. run_inv. subst. by (split; [constructor|]).
Qed.
End switches.

Section refinement.
Context (item_codes : string → list string) (id_le : relation string) `{∀ a b, Decision (id_le a b)}.

(** A body that ends well makes the step of its operation. *)
Ltac switch_inv :=
  match goal with
  | H : inspection_switch _ _ _ _ _ _ _ _ = _ |- _ =>
      eapply inspection_switch_move in H as [? ?];
      [|match goal with E : e_state _ = e_state _ |- _ => rewrite E; eassumption end]
  | H : deficiency_switch _ _ _ _ _ = _ |- _ => apply deficiency_switch_move in H as [? ?]
  | H : sar_switch _ _ _ _ _ _ = _ |- _ => apply sar_switch_move in H as [? ?]
  | H : tasking_switch _ _ _ _ _ = _ |- _ => apply tasking_switch_move in H as [? ?]
  | H : case_switch _ _ _ _ _ = _ |- _ => apply case_switch_move in H as [? ?]
  | H : recommendation_switch _ _ _ _ _ = _ |- _ => apply recommendation_switch_move in H as [? ?]
  | H : next_entry _ = (_, Ok _) |- _ =>
      unfold next_entry in H; apply external_Ok in H; injection H as H ?; symmetry in H
  | H : context [if bool_decide ?P then _ else _] |- _ => destruct (bool_decide P) eqn:?
  | H : is_Some _ |- _ => destruct H as [? ?]
  | H : template_items _ _ _ = Some _ |- _ =>
      unfold template_items in H; apply bind_Some in H as (? & ? & H);
      apply bind_Some in H as (? & ? & H); injection H as ?; subst
  | H : parent_in _ _ _ = true |- _ => apply parent_in_true in H as (? & ? & ?)
  end.
Ltac body_step :=
  repeat (first [run_step|switch_inv]; simpl in * );
  unfold find_template, find_inspection, find_deficiency, find_incident, find_tasking, find_case,
    find_recommendation, under_inspection, under_incident, under_case in *; simpl in *;
  repeat (first [run_step|switch_inv]; simpl in * );
  unfold visible_template, visible_inspection, visible_incident, visible_case in *;
  run_inv; subst; eauto 8 with safety.

Lemma run_op_refines (now : Z) (op : safety_op) :
  refines (safety_step item_codes id_le now op) (run_op item_codes id_le now op).
Proof.
  destruct op; cbn [run_op]; try apply refines_discard; apply WithTenant_refines;
    intros w w' res Hb.
  all: body_step.
Qed.

(** C3: Every writing method of the safety store, on every store and under every
    sequence of faults of its database calls, either leaves the tables untouched or
    makes exactly the step of the abstract lifecycle specification; when it returns
    without an error it has made the step. *)
Theorem safety_refines (now : Z) (op : safety_op) :
  refines (safety_step item_codes id_le now op) (run_op item_codes id_le now op).
Proof. apply run_op_refines. Qed.

(** ** Runs of the service *)

(** The service handles the requests one transaction after the other; an error is
    answered to the client and the next request follows. *)
Definition run_ops (ops : list (Z * safety_op)) (w : env safety_store) : env safety_store :=
  fold_left (λ w '(now, op), (run_op item_codes id_le now op w).1) ops w.

Definition any_step (d d' : safety_db) : Prop := ∃ now op, safety_step item_codes id_le now op d d'.

Lemma run_ops_steps ops w :
  rtc any_step (tables (e_state w)) (tables (e_state (run_ops ops w))).
Proof.
  revert w. induction ops as [|[now op] ops IH]; intros w; [apply rtc_refl|].
  change (run_ops _ w) with (run_ops ops (run_op item_codes id_le now op w).1).
  specialize (IH (run_op item_codes id_le now op w).1).
  destruct (run_op_refines now op w) as [[Heq|Hs] _]; [by rewrite <- Heq|].
  eapply rtc_l; [|exact IH]. by exists now, op.
Qed.

(** An invariant of the steps holds after every run that starts in it. *)
Lemma run_ops_invariant (P : safety_db → Prop) ops w :
  (∀ now op d d', safety_step item_codes id_le now op d d' → P d → P d') →
  P (tables (e_state w)) → P (tables (e_state (run_ops ops w))).
Proof.
  intros Hstep Hw. induction (run_ops_steps ops w) as [d|d d1 d2 (now & op & Hs) _ IH]; eauto.
Qed.
End refinement.
