(* ===== verification/SafetyProps.v ===== *)
(** * Properties of the safety workflows

    The ledger columns agree with the states in every reachable store, detention
    and rectification pass through two people, a release needs every critical
    deficiency verified, a tenant's calls leave the rows of the others alone, and
    when the evidence chain of a case verifies. *)
From S2P Require Import Prelude Effects Dedup Sha256 SafetyRows Safety SafetySpec Store.
Import Checklist Inspection Deficiency Sar Tasking Comms Case Evidence Finding Recommendation.

(** ** The CHECK constraints of migration 0016 *)

Definition isnull {A} (o : option A) : bool := match o with None => true | Some _ => false end.
Definition one_of (s : string) (l : list string) : bool := existsb (String.eqb s) l.

(** safety_inspections_release_checker; a comparison with NULL passes. *)
Definition release_checker (r : InspectionRow) : bool :=
  match Inspection.ReleasedBy r, Inspection.DetainedBy r with
  | Some b, Some a => negb (String.eqb b a)
  | _, _ => true
  end.

(** safety_inspections_lifecycle_coherence. *)
Definition inspection_coherence (r : InspectionRow) : bool :=
  let state := Inspection.State r in
  eqb (isnull (Inspection.DetainedBy r)) (isnull (Inspection.DetainedAt r))
  && eqb (isnull (Inspection.ReleasedBy r)) (isnull (Inspection.ReleasedAt r))
  && eqb (isnull (Inspection.RectificationStartedBy r)) (isnull (Inspection.RectificationStartedAt r))
  && eqb (isnull (Inspection.ClosedBy r)) (isnull (Inspection.ClosedAt r))
  && (isnull (Inspection.DetainedBy r) || one_of state ["DETAINED"; "RECTIFICATION"; "RELEASED"; "CLOSED"])
  && (isnull (Inspection.RectificationStartedBy r) || one_of state ["RECTIFICATION"; "RELEASED"; "CLOSED"])
  && (isnull (Inspection.ReleasedBy r) || one_of state ["RELEASED"; "CLOSED"])
  && (negb (String.eqb state "RELEASED") || negb (isnull (Inspection.ReleasedBy r)))
  && eqb (String.eqb state "CLOSED") (negb (isnull (Inspection.ClosedBy r))).

(** safety_deficiency_lifecycle_coherence. *)
Definition deficiency_coherence (r : DeficiencyRow) : bool :=
  let state := Deficiency.State r in
  eqb (isnull (Deficiency.RectifiedBy r)) (isnull (Deficiency.RectifiedAt r))
  && eqb (isnull (Deficiency.VerifiedBy r)) (isnull (Deficiency.VerifiedAt r))
  && (isnull (Deficiency.RectifiedBy r) || one_of state ["RECTIFIED"; "VERIFIED"])
  && eqb (String.eqb state "VERIFIED") (negb (isnull (Deficiency.VerifiedBy r))).

(** sar_incidents_phase_coherence. *)
Definition sar_coherence (r : SarIncidentRow) : bool :=
  let phase := Sar.Phase r in
  eqb (isnull (Sar.AlertedBy r)) (isnull (Sar.AlertedAt r))
  && eqb (isnull (Sar.DistressDeclaredBy r)) (isnull (Sar.DistressDeclaredAt r))
  && eqb (isnull (Sar.RescueStartedBy r)) (isnull (Sar.RescueStartedAt r))
  && eqb (isnull (Sar.ClosedBy r)) (isnull (Sar.ClosedAt r))
  && (isnull (Sar.AlertedBy r) || one_of phase ["ALERT"; "DISTRESS"; "RESCUE"; "CLOSED"])
  && (isnull (Sar.DistressDeclaredBy r) || one_of phase ["DISTRESS"; "RESCUE"; "CLOSED"])
  && (isnull (Sar.RescueStartedBy r) || one_of phase ["RESCUE"; "CLOSED"])
  && eqb (String.eqb phase "CLOSED") (negb (isnull (Sar.ClosedBy r))).

(** sar_tasking_coherence. *)
Definition tasking_coherence (r : SarTaskingRow) : bool :=
  eqb (isnull (Tasking.ReleasedBy r)) (isnull (Tasking.ReleasedAt r))
  && eqb (String.eqb (Tasking.State r) "RELEASED") (negb (isnull (Tasking.ReleasedBy r))).

(** investigation_cases_state_coherence. *)
Definition case_coherence (r : InvestigationCaseRow) : bool :=
  let state := Case.State r in
  eqb (isnull (Case.ReportedBy r)) (isnull (Case.ReportedAt r))
  && eqb (isnull (Case.ClosedBy r)) (isnull (Case.ClosedAt r))
  && (isnull (Case.ReportedBy r) || one_of state ["REPORTED"; "CLOSED"])
  && eqb (String.eqb state "CLOSED") (negb (isnull (Case.ClosedBy r))).

(** investigation_recommendations_coherence. *)
Definition recommendation_coherence (r : RecommendationRow) : bool :=
  eqb (isnull (Recommendation.DecidedBy r)) (isnull (Recommendation.DecidedAt r))
  && (String.eqb (Recommendation.Status r) "PROPOSED" || negb (isnull (Recommendation.DecidedBy r))).

(** ** Ladders and four eyes *)

(** What the states say of the ledger columns, beyond the constraints: who
    detained and who released differ, and a row that reached a state passed
    through the ones below it. *)
Definition inspection_ladder (r : InspectionRow) : Prop :=
  (Inspection.State r ≠ "SCHEDULED" → is_Some (Inspection.StartedAt r)) ∧
  (Inspection.State r ∈ ["DETAINED"; "RECTIFICATION"; "RELEASED"] →
     is_Some (Inspection.DetainedBy r) ∧
     ∃ g, Inspection.DetentionGrounds r = Some g ∧ TrimSpace g ≠ "") ∧
  (Inspection.State r ∈ ["RECTIFICATION"; "RELEASED"] → is_Some (Inspection.RectificationStartedBy r)) ∧
  (∀ b, Inspection.ReleasedBy r = Some b →
     ∃ a, Inspection.DetainedBy r = Some a ∧ a ≠ b ∧ is_Some (Inspection.RectificationStartedBy r)).

Definition deficiency_ladder (r : DeficiencyRow) : Prop :=
  (Deficiency.State r = "RECTIFIED" → is_Some (Deficiency.RectifiedBy r)) ∧
  (∀ b, Deficiency.VerifiedBy r = Some b → ∃ a, Deficiency.RectifiedBy r = Some a ∧ a ≠ b).

Definition sar_ladder (r : SarIncidentRow) : Prop :=
  (Sar.Phase r ∈ ["ALERT"; "DISTRESS"; "RESCUE"] → is_Some (Sar.AlertedBy r)) ∧
  (Sar.Phase r ∈ ["DISTRESS"; "RESCUE"] → is_Some (Sar.DistressDeclaredBy r)) ∧
  (Sar.Phase r = "RESCUE" → is_Some (Sar.RescueStartedBy r)) ∧
  (Sar.Phase r = "CLOSED" → ∃ s, Sar.ClosureReason r = Some s ∧ TrimSpace s ≠ "").

Definition inspection_ok (r : InspectionRow) : Prop :=
  inspection_coherence r = true ∧ release_checker r = true ∧ inspection_ladder r.
Definition deficiency_ok (r : DeficiencyRow) : Prop := deficiency_coherence r = true ∧ deficiency_ladder r.
Definition sar_ok (r : SarIncidentRow) : Prop := sar_coherence r = true ∧ sar_ladder r.

(** The obligation of one move: the state is a literal, so that the constraints
    leave only a few combinations of the ledger columns. *)
Ltac split_facts :=
  repeat match goal with
  | H : (_ && _)%bool = true |- _ => apply andb_true_iff in H as [? ?]
  | H : eqb _ _ = true |- _ => apply eqb_prop in H
  | H : _ ∧ _ |- _ => destruct H
  | H : ∃ _, _ |- _ => destruct H
  | H : _ ∨ _ |- _ => destruct H
  | H : _ = ?s → _ |- _ => specialize (H eq_refl)
  | H : ?s ∈ ?l → _ |- _ =>
      let Hs := fresh in assert (s ∈ l) as Hs by (apply (bool_decide_unpack _); reflexivity);
      specialize (H Hs); clear Hs
  | H : is_Some _ |- _ => destruct H
  end.
Ltac literal_state :=
  repeat match goal with H : _ = String _ _ |- _ => rewrite H in *; clear H end.
Ltac move_ok :=
  intros Hm Hok; destruct Hm; split_facts; literal_state; simpl in *; split_facts; simpl in *;
  repeat match goal with
  | H : context [isnull ?o] |- _ => destruct o eqn:?; simpl in *; try discriminate
  | |- context [isnull ?o] => destruct o eqn:?; simpl in *; try discriminate
  end;
  split_and?; try done; intros; split_facts; simplify_eq/=;
  try match goal with H : ?s ∈ ?l |- _ =>
    exfalso; revert H; apply (bool_decide_unpack (¬ (s ∈ l))); exact I end;
  eauto; try (eexists; split_and!; eauto; congruence).

Lemma deficiency_move_ok now actor r action q :
  deficiency_move now actor r action q → deficiency_ok r → deficiency_ok (q r).
Proof. unfold deficiency_ok, deficiency_coherence, deficiency_ladder. move_ok. Qed.

Lemma sar_move_ok now actor reason r action q :
  sar_move now actor reason r action q → sar_ok r → sar_ok (q r).
Proof. unfold sar_ok, sar_coherence, sar_ladder. move_ok. Qed.

Lemma tasking_move_ok now actor r action q :
  tasking_move now actor r action q → tasking_coherence r = true → tasking_coherence (q r) = true.
Proof. unfold tasking_coherence. move_ok. Qed.

Lemma case_move_ok now actor r action q :
  case_move now actor r action q → case_coherence r = true → case_coherence (q r) = true.
Proof. unfold case_coherence. move_ok. Qed.

Lemma recommendation_move_ok now actor r action q :
  recommendation_move now actor r action q →
  recommendation_coherence r = true → recommendation_coherence (q r) = true.
Proof. unfold recommendation_coherence. move_ok. Qed.

Lemma inspection_move_ok d now id actor note r action q :
  inspection_move d now id actor note r action q → inspection_ok r → inspection_ok (q r).
Proof.
  unfold inspection_ok, inspection_coherence, release_checker, inspection_ladder. move_ok.
  apply negb_true_iff, String.eqb_neq. congruence.
Qed.

(** ** The invariant of the steps *)

(** Every row of every table passes the CHECK constraints of its table and has
    climbed its ladder. *)
Record rows_ok (d : safety_db) : Prop := {
  ok_inspections : map_Forall (λ _, inspection_ok) (safety_inspections d);
  ok_deficiencies : map_Forall (λ _, deficiency_ok) (safety_inspection_deficiencies d);
  ok_incidents : map_Forall (λ _, sar_ok) (sar_incidents d);
  ok_taskings : map_Forall (λ _ r, tasking_coherence r = true) (sar_resource_taskings d);
  ok_cases : map_Forall (λ _ r, case_coherence r = true) (investigation_cases d);
  ok_recommendations :
    map_Forall (λ _ r, recommendation_coherence r = true) (investigation_recommendations d);
}.

Lemma map_Forall_alter_row {A} (P : A → Prop) (m : gmap string A) id q r :
  m !! id = Some r → P (q r) → map_Forall (λ _, P) m → map_Forall (λ _, P) (alter q id m).
Proof.
  intros Hr Hq Hm k x. destruct (decide (k = id)) as [->|Hne].
  - rewrite lookup_alter_eq, Hr. by intros [= <-].
  - rewrite lookup_alter_ne by done. apply Hm.
Qed.

Lemma inserted_rows_ok now :
  (∀ r, inspection_ok (Inspection.inserted now r)) ∧ (∀ r, deficiency_ok (Deficiency.inserted now r)) ∧
  (∀ r, sar_ok (Sar.inserted now r)).
Proof.
  unfold inspection_ok, deficiency_ok, sar_ok, inspection_ladder, deficiency_ladder, sar_ladder.
  split_and!; intros r; split_and?; simpl; try done; intros Hs;
    match type of Hs with ?s ∈ ?l => exfalso; revert Hs; apply (bool_decide_unpack (¬ (s ∈ l))); exact I end.
Qed.

Section steps.
Context (item_codes : string → list string) (id_le : relation string) `{∀ a b, Decision (id_le a b)}.

Lemma step_rows_ok now op d d' : safety_step item_codes id_le now op d d' → rows_ok d → rows_ok d'.
Proof.
  destruct (inserted_rows_ok now) as (Hi & Hd & Hs).
  intros Hstep [H1 H2 H3 H4 H5 H6].
  destruct Hstep; split; simpl; try done; try (apply map_Forall_insert_2; [done|done]);
    (eapply map_Forall_alter_row; [done| |done]).
  - eapply inspection_move_ok; [done|]. by eapply H1.
  - eapply deficiency_move_ok; [done|]. by eapply H2.
  - eapply sar_move_ok; [done|]. by eapply H3.
  - eapply tasking_move_ok; [done|]. by eapply H4.
  - eapply case_move_ok; [done|]. by eapply H5.
  - eapply recommendation_move_ok; [done|]. by eapply H6.
Qed.

Lemma reachable_rows_ok faults ops :
  rows_ok (tables (e_state (run_ops item_codes id_le ops (mkEnv faults empty_store)))).
Proof.
  apply run_ops_invariant; [apply step_rows_ok|]. split; apply map_Forall_empty.
Qed.
End steps.

(** ** Properties of every run *)

Section runs.
Context (item_codes : string → list string) (id_le : relation string) `{∀ a b, Decision (id_le a b)}.

(** The tables after the requests [ops], from empty tables, under the faults
    [faults] of the database. *)
Definition tables_after (faults : list fault) (ops : list (Z * safety_op)) : safety_db :=
  tables (e_state (run_ops item_codes id_le ops (mkEnv faults empty_store))).

(** C5: Whatever requests the safety store serves and whatever faults its database
    calls meet, every row it commits satisfies the lifecycle coherence constraints
    that migration 0016 puts on its table; a detention that was released was detained
    by one person, went through rectification and was released by another; a verified
    deficiency was rectified by one person and verified by another; a SAR incident in
    a phase has the ledger entries of every phase below it, and a closed one a
    reason. *)
Theorem ledger_coherent_and_four_eyes (faults : list fault) (ops : list (Z * safety_op)) :
  let d := tables_after faults ops in
  (∀ k r, safety_inspections d !! k = Some r →
     inspection_coherence r = true ∧ release_checker r = true ∧ inspection_ladder r) ∧
  (∀ k r, safety_inspection_deficiencies d !! k = Some r →
     deficiency_coherence r = true ∧ deficiency_ladder r) ∧
  (∀ k r, sar_incidents d !! k = Some r → sar_coherence r = true ∧ sar_ladder r) ∧
  (∀ k r, sar_resource_taskings d !! k = Some r → tasking_coherence r = true) ∧
  (∀ k r, investigation_cases d !! k = Some r → case_coherence r = true) ∧
  (∀ k r, investigation_recommendations d !! k = Some r → recommendation_coherence r = true).
Proof.
  destruct (reachable_rows_ok item_codes id_le faults ops) as [H1 H2 H3 H4 H5 H6].
  split_and!; [exact H1|exact H2|exact H3|exact H4|exact H5|exact H6].
Qed.
End runs.

(** ** Release *)

Section release.
Context (item_codes : string → list string) (id_le : relation string) `{∀ a b, Decision (id_le a b)}.

Lemma release_move d now id actor note r q :
  inspection_move d now id actor note r "release" q →
  Inspection.State r = "RECTIFICATION" ∧ Inspection.DetainedBy r ≠ Some actor ∧
  (∀ k x, safety_inspection_deficiencies d !! k = Some x → Deficiency.InspectionID x = id →
     Deficiency.Severity x = "CRITICAL" → Deficiency.State x = "VERIFIED").
Proof. inversion 1; simplify_eq. eauto. Qed.

Lemma verified_by_two x :
  deficiency_ok x → Deficiency.State x = "VERIFIED" →
  ∃ a b, Deficiency.RectifiedBy x = Some a ∧ Deficiency.VerifiedBy x = Some b ∧ a ≠ b.
Proof.
  intros [Hc [_ Hl]] Hv. unfold deficiency_coherence in Hc. rewrite Hv in Hc. split_facts.
  destruct (Deficiency.VerifiedBy x) as [b|]; [|done]. destruct (Hl b eq_refl) as (a & ? & ?). eauto.
Qed.

(** In every run, a release that succeeds was requested by a session of the
    inspection's tenant, on a detention under rectification, by somebody other than
    the person who detained the vessel, and at that point every CRITICAL deficiency
    of the inspection had been rectified by one person and verified by another. *)
Theorem release_is_earned (faults : list fault) (ops : list (Z * safety_op)) (now : Z)
  (t id actor note : string) (row : InspectionRow)
  (w := run_ops item_codes id_le ops (mkEnv faults empty_store))
  (Hrun : (TransitionInspection now t id actor "release" note w).2 = Ok row) :
  ∃ r a, safety_inspections (tables (e_state w)) !! id = Some r ∧ Inspection.TenantID r = t ∧
    Inspection.State r = "RECTIFICATION" ∧ Inspection.DetainedBy r = Some a ∧ a ≠ actor ∧
    ∀ k x, safety_inspection_deficiencies (tables (e_state w)) !! k = Some x →
      Deficiency.InspectionID x = id → Deficiency.Severity x = "CRITICAL" →
      Deficiency.State x = "VERIFIED" ∧
      ∃ b c, Deficiency.RectifiedBy x = Some b ∧ Deficiency.VerifiedBy x = Some c ∧ b ≠ c.
Proof.
  destruct (run_op_refines item_codes id_le now (OpMoveInspection t id actor "release" note) w) as [_ Hs].
  specialize (Hs tt). cbn [run_op] in Hs. unfold mbind, M_bind in Hs.
  destruct (TransitionInspection now t id actor "release" note w) as [w' [?|?]]; [|done].
  specialize (Hs eq_refl). inversion Hs as [| |? ? ? ? ? r q ? Hr Ht Hm| | | | | | | | | | | | |]; subst.
  apply release_move in Hm as (Hst & Hdet & Hcrit).
  pose proof (reachable_rows_ok item_codes id_le faults ops) as [H1 H2 _ _ _ _]. fold w in H1, H2.
  destruct (H1 id r Hr) as (_ & _ & _ & Hl & _). destruct Hl as [[a1 Ha] _].
  { rewrite Hst. apply (bool_decide_unpack _). reflexivity. }
  exists r, a1. split_and!; try done; [congruence|].
  intros k x Hx Hid Hsev. split; [by eapply Hcrit|]. apply verified_by_two; [by eapply H2|by eapply Hcrit].
Qed.
End release.

(** ** Tenants *)

(** Between [d] and [d'] nothing changed outside the rows of the tenant [t]: the
    rows of the other tenants, and the rows under a parent that is not one of
    [t]'s, are the same. *)
Definition same_outside {K A} `{Countable K} (foreign : A → Prop) (m m' : gmap K A) : Prop :=
  ∀ k r, foreign r → m' !! k = Some r ↔ m !! k = Some r.

Definition others_untouched (t : string) (d d' : safety_db) : Prop :=
  same_outside (λ r, Checklist.TenantID r ≠ t) (safety_checklist_templates d) (safety_checklist_templates d') ∧
  same_outside (λ r, Inspection.TenantID r ≠ t) (safety_inspections d) (safety_inspections d') ∧
  same_outside (λ r, under_inspection t d (Deficiency.InspectionID r) = false)
    (safety_inspection_deficiencies d) (safety_inspection_deficiencies d') ∧
  same_outside (λ r, Sar.TenantID r ≠ t) (sar_incidents d) (sar_incidents d') ∧
  same_outside (λ r, under_incident t d (Tasking.IncidentID r) = false)
    (sar_resource_taskings d) (sar_resource_taskings d') ∧
  same_outside (λ r, under_incident t d (Comms.IncidentID r) = false) (sar_comms_log d) (sar_comms_log d') ∧
  same_outside (λ r, Case.TenantID r ≠ t) (investigation_cases d) (investigation_cases d') ∧
  same_outside (λ r, under_case t d (Evidence.CaseID r) = false)
    (investigation_evidence d) (investigation_evidence d') ∧
  same_outside (λ r, under_case t d (Finding.CaseID r) = false)
    (investigation_findings d) (investigation_findings d') ∧
  same_outside (λ r, under_case t d (Recommendation.CaseID r) = false)
    (investigation_recommendations d) (investigation_recommendations d').

Lemma same_outside_refl {K A} `{Countable K} (F : A → Prop) (m : gmap K A) : same_outside F m m.
Proof. by intros k r _. Qed.

Lemma same_outside_insert {K A} `{Countable K} (F : A → Prop) (m : gmap K A) id r :
  m !! id = None → ¬ F r → same_outside F m (<[id := r]> m).
Proof.
  intros Hid Hr k x Hx. destruct (decide (k = id)) as [->|].
  - rewrite lookup_insert_eq, Hid. split; [|done]. by intros [= ->].
  - by rewrite lookup_insert_ne.
Qed.

Lemma same_outside_alter {A} (F : A → Prop) (m : gmap string A) id q r :
  m !! id = Some r → ¬ F r → ¬ F (q r) → same_outside F m (alter q id m).
Proof.
  intros Hid Hr Hq k x Hx. destruct (decide (k = id)) as [->|].
  - rewrite lookup_alter_eq, Hid. simpl. split; by intros [= <-].
  - by rewrite lookup_alter_ne.
Qed.

Lemma under_true {A} (table : gmap string A) visible id r :
  table !! id = Some r → visible r = true → ¬ parent_in table visible id = false.
Proof. intros Hr Hv. unfold parent_in. by rewrite Hr, Hv. Qed.

(** A move keeps the identity of its row. *)
Lemma moves_keep_identity :
  (∀ d now id actor note r action q, inspection_move d now id actor note r action q →
     Inspection.TenantID (q r) = Inspection.TenantID r) ∧
  (∀ now actor r action q, deficiency_move now actor r action q →
     Deficiency.InspectionID (q r) = Deficiency.InspectionID r) ∧
  (∀ now actor reason r action q, sar_move now actor reason r action q → Sar.TenantID (q r) = Sar.TenantID r) ∧
  (∀ now actor r action q, tasking_move now actor r action q →
     Tasking.IncidentID (q r) = Tasking.IncidentID r) ∧
  (∀ now actor r action q, case_move now actor r action q → Case.TenantID (q r) = Case.TenantID r) ∧
  (∀ now actor r action q, recommendation_move now actor r action q →
     Recommendation.CaseID (q r) = Recommendation.CaseID r).
Proof. split_and!; intros *; by destruct 1. Qed.

Lemma step_isolated item_codes id_le `{∀ a b, Decision (id_le a b)} now op d d' :
  safety_step item_codes id_le now op d d' → others_untouched (op_tenant op) d d'.
Proof.
  destruct moves_keep_identity as (M1 & M2 & M3 & M4 & M5 & M6).
  unfold others_untouched, under_inspection, under_incident, under_case.
  destruct 1; simpl; split_and!; try apply same_outside_refl;
    first [apply same_outside_insert; [done|]
          |eapply same_outside_alter; [done| |erewrite ?M1, ?M2, ?M3, ?M4, ?M5, ?M6 by done]]; simpl;
    try congruence; try (by intros []);
    (eapply under_true; [by eauto|]); by apply String.eqb_eq.
Qed.

(** C9: A call of the safety store made for one tenant never adds, removes or
    changes a row of another tenant in any table, on any store and under any
    faults. *)
Theorem tenants_are_isolated (item_codes : string → list string) (id_le : relation string)
  `{∀ a b, Decision (id_le a b)} (now : Z) (op : safety_op) (w : env safety_store) :
  others_untouched (op_tenant op) (tables (e_state w))
    (tables (e_state (run_op item_codes id_le now op w).1)).
Proof.
  destruct (run_op_refines item_codes id_le now op w) as [[-> |Hs] _]; [|by eapply step_isolated].
  unfold others_untouched. split_and!; apply same_outside_refl.
Qed.

(** ** A detention and its release *)

Definition sample_template : ChecklistTemplateRow :=
  mkChecklistTemplateRow "psc-1" "tenant-a" "PSC" 1 "Port state control" "items" "chief" 0.
Definition sample_inspection : InspectionRow :=
  mkInspectionRow "insp-1" "tenant-a" "PSC" "psc-1" "vessel-1" "GBLON" "RESTRICTED" "" "inspector" 0
    None None None None None None None None None None None.
Definition sample_deficiency : DeficiencyRow :=
  mkDeficiencyRow "def-1" "insp-1" "FIRE-1" "fire pump" "CRITICAL" "" (Some 100) "inspector" 0
    None None None None.
Definition sample_codes (_ : string) : list string := ["FIRE-1"].
Definition detention : list (Z * safety_op) :=
  let move := OpMoveInspection "tenant-a" "insp-1" in
  [(1, OpTemplate sample_template); (2, OpInspection sample_inspection); (3, move "inspector" "start" "");
   (4, OpDeficiency "tenant-a" sample_deficiency); (5, move "inspector" "detain" "fire pump inoperative");
   (6, move "inspector" "rectify" ""); (7, OpMoveDeficiency "tenant-a" "def-1" "engineer" "rectify");
   (8, OpMoveDeficiency "tenant-a" "def-1" "surveyor" "verify")].
Abbreviation under_rectification := (run_ops sample_codes str_le detention (mkEnv [] empty_store)).
Definition released_row : InspectionRow :=
  mkInspectionRow "insp-1" "tenant-a" "PSC" "psc-1" "vessel-1" "GBLON" "RESTRICTED" "RELEASED" "inspector" 2
    (Some 3) None (Some "inspector") (Some 5) (Some "fire pump inoperative") (Some "inspector") (Some 6)
    (Some "chief") (Some 9) None None.

Lemma release_is_earned_witness :
  (TransitionInspection 9 "tenant-a" "insp-1" "chief" "release" "" under_rectification).2 = Ok released_row ∧
  ∃ r a, safety_inspections (tables (e_state under_rectification)) !! "insp-1" = Some r ∧
    Inspection.TenantID r = "tenant-a" ∧ Inspection.State r = "RECTIFICATION" ∧
    Inspection.DetainedBy r = Some a ∧ a ≠ "chief" ∧
    ∀ k x, safety_inspection_deficiencies (tables (e_state under_rectification)) !! k = Some x →
      Deficiency.InspectionID x = "insp-1" → Deficiency.Severity x = "CRITICAL" →
      Deficiency.State x = "VERIFIED" ∧
      ∃ b c, Deficiency.RectifiedBy x = Some b ∧ Deficiency.VerifiedBy x = Some c ∧ b ≠ c.
Proof.
  assert ((TransitionInspection 9 "tenant-a" "insp-1" "chief" "release" "" under_rectification).2
          = Ok released_row) as Hrun by (vm_compute; reflexivity).
  split; [exact Hrun|].
  exact (release_is_earned sample_codes str_le [] detention 9 "tenant-a" "insp-1" "chief" "" released_row Hrun).
Defined.

(** [microdegText] writes the exact decimal text of every int32 coordinate, the
    text [renderMicros] writes, except for the most negative one, whose absolute
    value does not fit an int32: there it writes two signs. *)
Theorem microdegText_exact (micros : Z) (H : is_int32 micros) :
  (micros ≠ - 2 ^ 31 → microdegText micros = renderMicros micros) ∧
  microdegText (- 2 ^ 31) = "--2147.-483648".
Proof.
  split; [|reflexivity]. intros Hne. unfold microdegText, renderMicros. unfold is_int32 in H.
  assert ((if micros <? 0 then int32 (- micros) else micros) = (if micros <? 0 then - micros else micros)) as ->.
  { case_match; bool_to_prop; [|done]. apply int32_id. unfold is_int32. lia. }
  assert (0 ≤ (if micros <? 0 then - micros else micros)) as Ha by (case_match; bool_to_prop; lia).
  revert Ha. generalize (if micros <? 0 then - micros else micros). intros a Ha.
  assert (fmt_06d (Z.rem a 1000000) = show_pad 6 (Z.rem a 1000000)) as ->; [|done].
  unfold fmt_06d. pose proof (Z.rem_bound_pos a 1000000). case_match; bool_to_prop; [lia|done].
Qed.

Lemma microdegText_exact_witness :
  microdegText (-1250000) = "-1.250000" ∧ microdegText (-1250000) = renderMicros (-1250000).
Proof.
  split; [vm_compute; reflexivity|].
  apply (microdegText_exact (-1250000)); [unfold is_int32; lia|lia].
Defined.
