(* ===== verification/SafetyEvidence.v ===== *)
(** * The evidence chain

    When [VerifyEvidenceChain] accepts what [AppendEvidence] wrote, what an
    accepted chain commits to, and a schedule on which the verifier rejects a chain
    nobody tampered with. *)
From S2P Require Import Prelude Effects Dedup Sha256 SafetyRows Safety SafetySpec.
Import Case Evidence.

(** ** The verifier on lists *)

Definition head_hash (prev : string) (l : list EvidenceRow) : string :=
  default prev (Evidence.ChainHash <$> last l).

Definition link_ok (prev : string) (x : EvidenceRow) : bool :=
  String.eqb (Evidence.PrevChainHash x) prev
  && String.eqb (Evidence.ChainHash x) (EvidenceChainHash prev (Evidence.ContentHash x)).

Lemma verify_links_cons prev x l :
  verify_links prev (x :: l) = link_ok prev x && verify_links (Evidence.ChainHash x) l.
Proof. cbn [verify_links]. unfold link_ok. destruct (String.eqb _ _), (String.eqb _ _); done. Qed.

Lemma verify_links_snoc prev l x :
  verify_links prev (l ++ [x]) = verify_links prev l && link_ok (head_hash prev l) x.
Proof.
  revert prev. induction l as [|y l IH]; intros prev.
  - change ([] ++ [x]) with [x]. rewrite verify_links_cons. simpl. by rewrite andb_true_r.
  - change ((y :: l) ++ [x]) with (y :: (l ++ [x])). rewrite !verify_links_cons, IH, andb_assoc.
    f_equal. f_equal. unfold head_hash. rewrite last_cons. by destruct (last l).
Qed.

(** ** Appends in the order their transactions began *)

Section chain.
Context (item_codes : string → list string) (id_le : relation string) `{∀ a b, Decision (id_le a b)}.
(** The collation orders the identifiers totally. *)
Context `{!Transitive id_le} `{!Total id_le}.

#[local] Instance evidence_le_trans : Transitive (evidence_le id_le).
Proof.
  intros a b c [Hab|[Hab Hab']] [Hbc|[Hbc Hbc']]; unfold evidence_le; [lia..|].
  right. split; [lia|]. by etrans.
Qed.
#[local] Instance evidence_le_total : Total (evidence_le id_le).
Proof.
  intros a b. unfold evidence_le.
  destruct (Z.lt_trichotomy (Evidence.CollectedAt a) (Evidence.CollectedAt b)) as [?|[?|?]]; [by left; left| |by right; left].
  destruct (total id_le (Evidence.EvidenceID a) (Evidence.EvidenceID b)); [by left; right|by right; right].
Qed.

(** No two rows of the table were collected at the same instant. *)
Definition instants_differ (m : gmap string EvidenceRow) : Prop :=
  ∀ k1 k2 r1 r2, m !! k1 = Some r1 → m !! k2 = Some r2 →
    Evidence.CollectedAt r1 = Evidence.CollectedAt r2 → k1 = k2.

Lemma rows_where_ext (m : gmap string EvidenceRow) p p' :
  (∀ k r, m !! k = Some r → p r = p' r) → rows_where m p = rows_where m p'.
Proof.
  intros Hp. unfold rows_where.
  assert (Forall (λ r, p r = p' r) (map_to_list m).*2) as Hall.
  { apply Forall_forall. intros r Hr. apply list_elem_of_fmap in Hr as ([k r'] & -> & Hk%elem_of_map_to_list).
    by apply (Hp k). }
  induction Hall as [|r l Hr _ IH]; [done|]. by rewrite !filter_cons, Hr, IH.
Qed.

Lemma rows_where_insert (m : gmap string EvidenceRow) p id r :
  m !! id = None →
  rows_where (<[id := r]> m) p ≡ₚ (if p r then r :: rows_where m p else rows_where m p).
Proof.
  intros Hid. unfold rows_where. rewrite map_to_list_insert by done. cbn [fmap list_fmap].
  rewrite filter_cons. simpl. destruct (p r); [by rewrite decide_True|by rewrite decide_False].
Qed.

(** A row collected after all the others comes last. *)
Lemma sort_latest m p id r :
  m !! id = None → instants_differ m →
  (∀ k x, m !! k = Some x → Evidence.CollectedAt x < Evidence.CollectedAt r) →
  merge_sort (evidence_le id_le) (rows_where (<[id := r]> m) p)
  = merge_sort (evidence_le id_le) (rows_where m p) ++ (if p r then [r] else []).
Proof.
  intros Hid Hd Hlt.
  set (old := merge_sort (evidence_le id_le) (rows_where m p)).
  assert (∀ x, x ∈ old → ∃ k, m !! k = Some x) as Hold.
  { intros x. unfold old. rewrite merge_sort_Permutation, elem_of_rows_where. naive_solver. }
  assert (rows_where (<[id := r]> m) p ≡ₚ old ++ (if p r then [r] else [])) as Hperm.
  { rewrite rows_where_insert by done. unfold old. rewrite merge_sort_Permutation.
    destruct (p r); [by rewrite Permutation_app_comm|by rewrite app_nil_r]. }
  eapply (StronglySorted_unique_strong (evidence_le id_le)); last first.
  - by rewrite merge_sort_Permutation.
  - apply StronglySorted_app_2; [|by apply (StronglySorted_merge_sort _)|].
    + intros x y [k Hk]%Hold Hy. destruct (p r); [|by apply not_elem_of_nil in Hy].
      apply list_elem_of_singleton in Hy as ->. left. eauto.
    + destruct (p r); repeat constructor.
  - apply (StronglySorted_merge_sort _).
  - intros x y Hx Hy Hxy Hyx.
    assert (Evidence.CollectedAt x = Evidence.CollectedAt y) as Heq by (unfold evidence_le in *; lia).
    rewrite merge_sort_Permutation, Hperm in Hx. apply elem_of_app in Hx, Hy.
    destruct (p r); rewrite ?list_elem_of_singleton, ?elem_of_nil in Hx, Hy;
      destruct Hx as [[k1 Hx]%Hold|Hx], Hy as [[k2 Hy]%Hold|Hy]; subst; try done;
      try (by pose proof (Hlt _ _ Hx); lia); try (by pose proof (Hlt _ _ Hy); lia);
      pose proof (Hd _ _ _ _ Hx Hy Heq); subst; congruence.
Qed.

(** Every row was collected by the instant [b], no two at the same one, each under
    an existing case, and every chain verifies. *)
Record chains_ok (b : Z) (d : safety_db) : Prop := {
  ch_bound k r : investigation_evidence d !! k = Some r → Evidence.CollectedAt r ≤ b;
  ch_differ : instants_differ (investigation_evidence d);
  ch_parent k r : investigation_evidence d !! k = Some r → is_Some (investigation_cases d !! Evidence.CaseID r);
  ch_verify t c : verify_links EvidenceGenesisHash (evidence_in_order id_le t c d) = true;
}.

(** A change that keeps the evidence and the tenants of the cases it belongs to
    keeps the chains. *)
Lemma chains_ok_frame b b' d d' :
  b ≤ b' → investigation_evidence d' = investigation_evidence d →
  (∀ id r, investigation_cases d !! id = Some r →
     ∃ r', investigation_cases d' !! id = Some r' ∧ Case.TenantID r' = Case.TenantID r) →
  chains_ok b d → chains_ok b' d'.
Proof.
  intros Hb He Hc [H1 H2 H3 H4]. split; [|by rewrite He| |].
  - intros k r Hr. rewrite He in Hr. apply H1 in Hr. lia.
  - intros k r Hr. rewrite He in Hr. destruct (H3 k r Hr) as [x Hx]. apply Hc in Hx as (x' & -> & _). done.
  - intros t c. rewrite <- (H4 t c). f_equal. unfold evidence_in_order. rewrite He. f_equal.
    apply rows_where_ext. intros k r Hr. f_equal. destruct (H3 k r Hr) as [x Hx].
    destruct (Hc _ _ Hx) as (x' & Hx' & Ht).
    unfold under_case, parent_in, visible_case. by rewrite Hx, Hx', Ht.
Qed.

Lemma case_move_tenant now actor r action q : case_move now actor r action q → Case.TenantID (q r) = Case.TenantID r.
Proof. by destruct 1. Qed.

(** The chain of the case the row belongs to grows by the row, the others stay. *)
Lemma evidence_in_order_insert b d t c id r :
  chains_ok b d → investigation_evidence d !! id = None → b < Evidence.CollectedAt r →
  evidence_in_order id_le t c (on_evidence (insert id r) d)
  = evidence_in_order id_le t c d ++
    (if under_case t d (Evidence.CaseID r) && String.eqb (Evidence.CaseID r) c then [r] else []).
Proof.
  intros [H1 H2 _ _] Hid Hb. apply sort_latest; [done..|]. intros k x Hx%H1. lia.
Qed.

Lemma step_chains now op b d d' :
  safety_step item_codes id_le now op d d' → b < now → chains_ok b d → chains_ok now d'.
Proof.
  intros Hstep Hb Hok.
  destruct Hstep; try (apply (chains_ok_frame b now d); [lia|done|simpl; by eauto|done]).
  - (* a new case *)
    apply (chains_ok_frame b now d); [lia|done| |done]. simpl. intros id r Hr. exists r.
    rewrite lookup_insert_ne; [done|]. by intros <-; congruence.
  - (* a move of a case *)
    apply (chains_ok_frame b now d); [lia|done| |done]. simpl. intros id' x Hx.
    destruct (decide (id' = id)) as [->|]; [|rewrite lookup_alter_ne by done; eauto].
    rewrite lookup_alter_eq, Hx. simpl. exists (q x). split; [done|].
    eapply case_move_tenant. by simplify_eq.
  - (* an append *)
    subst prev. set (x := Evidence.inserted _ _ _ _).
    assert (Evidence.CollectedAt x = now) as Hx by done.
    split.
    + simpl. intros k y. rewrite lookup_insert_Some. intros [[_ <-]|[_ Hy]]; [lia|].
      apply (ch_bound _ _ Hok) in Hy. lia.
    + simpl. intros k1 k2 r1 r2. rewrite !lookup_insert_Some.
      intros [[<- <-]|[Hk1 Hr1]] [[<- <-]|[Hk2 Hr2]] Heq; [done| | |by eapply (ch_differ _ _ Hok)].
      * apply (ch_bound _ _ Hok) in Hr2. lia.
      * apply (ch_bound _ _ Hok) in Hr1. lia.
    + simpl. intros k y. rewrite lookup_insert_Some. intros [[_ <-]|[_ Hy]]; [by eauto|].
      by eapply (ch_parent _ _ Hok).
    + intros t' c'. rewrite (evidence_in_order_insert b) by (done || lia).
      destruct (_ && _) eqn:Hin; [|rewrite app_nil_r; apply (ch_verify _ _ Hok)].
      apply andb_true_iff in Hin as [Ht' <-%String.eqb_eq].
      unfold under_case in Ht'. apply parent_in_true in Ht' as (c2 & Hc2 & Hv).
      apply String.eqb_eq in Hv. simpl in Hc2. simplify_eq.
      rewrite verify_links_snoc, (ch_verify _ _ Hok). unfold link_ok. simpl.
      by rewrite !String.eqb_refl.
Qed.

Lemma run_ops_chains ops w b :
  StronglySorted Z.lt (b :: ops.*1) → chains_ok b (tables (e_state w)) →
  ∃ b', chains_ok b' (tables (e_state (run_ops item_codes id_le ops w))).
Proof.
  revert w b. induction ops as [|[now op] ops IH]; intros w b Hs Hok; [by exists b|].
  apply StronglySorted_inv in Hs as [Hs Hb]. cbn [fmap list_fmap fst] in *.
  apply Forall_cons in Hb as [Hb _].
  change (run_ops _ _ _ w) with (run_ops item_codes id_le ops (run_op item_codes id_le now op w).1).
  apply IH with now; [done|].
  destruct (run_op_refines item_codes id_le now op w) as [[-> |Hstep] _]; [|by eapply step_chains].
  eapply (chains_ok_frame b now); [lia|done| |done]. eauto.
Qed.

(** When the transactions that serve the requests begin one after the other in
    the order in which they take their locks, every evidence chain a tenant can see
    verifies: [VerifyEvidenceChain], when its queries succeed, answers true for
    every tenant and every case, whatever other requests and faults there were. *)
Theorem serial_appends_verify (faults : list fault) (ops : list (Z * safety_op)) (t c : string) (ok : bool)
  (w := run_ops item_codes id_le ops (mkEnv faults empty_store))
  (Horder : StronglySorted Z.lt ops.*1)
  (Hverify : (VerifyEvidenceChain id_le t c w).2 = Ok ok) :
  ok = true.
Proof.
  assert (∃ b, chains_ok b (tables (e_state w))) as [b [_ _ _ Hv]].
  { destruct ops as [|[now op] ops]; [by exists 0; split|].
    apply (run_ops_chains _ _ (now - 1)); [|by split].
    constructor; [done|]. apply StronglySorted_inv in Horder as [_ Hf]. constructor; [simpl; lia|].
    eapply Forall_impl; [exact Hf|]. simpl. lia. }
  unfold VerifyEvidenceChain, ListEvidence, mbind, M_bind in Hverify.
  destruct (WithTenant_run t (select (evidence_in_order id_le t c)) w) as (w1 & w2 & r & H1 & H2 & _ & H3).
  destruct (WithTenant _ _ w) as [w3 [items|]]; [|done]. destruct (H3 items eq_refl) as [-> _].
  apply select_Ok in H2 as [_ ->]. simpl in Hverify. unfold mret, M_ret in Hverify. simplify_eq/=.
  by rewrite H1.
Qed.
End chain.

(** ** An investigation with two exhibits *)

Definition sample_case : InvestigationCaseRow :=
  mkInvestigationCaseRow "case-1" "tenant-a" "COLLISION" "SERIOUS" "vessel-1" 0 "RESTRICTED" "" "lead"
    0 None None None None.
Definition exhibit (id content : string) : EvidenceRow :=
  mkEvidenceRow id "case-1" "an exhibit" (sha256_hex content) "" "" "officer" 0.
(** The transactions of the two appends begin at [first] and [second]; they take
    the lock on the case in this order. *)
Definition two_exhibits (first second : Z) : list (Z * safety_op) :=
  [(1, OpCase sample_case None None); (2, OpMoveCase "tenant-a" "case-1" "lead" "evidence");
   (first, OpEvidence "tenant-a" (exhibit "ev-1" "log book"));
   (second, OpEvidence "tenant-a" (exhibit "ev-2" "radar plot"))].
Definition no_items (_ : string) : list string := [].
Definition after_exhibits (first second : Z) : env safety_store :=
  run_ops no_items str_le (two_exhibits first second) (mkEnv [] empty_store).

Lemma serial_appends_verify_witness :
  StronglySorted Z.lt (two_exhibits 10 20).*1 ∧
  (VerifyEvidenceChain str_le "tenant-a" "case-1" (after_exhibits 10 20)).2 = Ok true ∧ true = true.
Proof.
  assert (StronglySorted Z.lt (two_exhibits 10 20).*1) as Hs by (repeat constructor; lia).
  assert ((VerifyEvidenceChain str_le "tenant-a" "case-1" (after_exhibits 10 20)).2 = Ok true) as Hv
    by (vm_compute; reflexivity).
  split_and!; [exact Hs|exact Hv|].
  exact (serial_appends_verify no_items str_le [] (two_exhibits 10 20) "tenant-a" "case-1" true Hs Hv).
Defined.

(** The verifier orders the items by the instant their transaction began, the
    appends chain them in the order they took the lock.  When the second append's
    transaction began before the first one's, both succeed and nobody tampers with
    anything, yet [VerifyEvidenceChain] reports a broken chain. *)
Theorem late_lock_breaks_chain :
  let w := after_exhibits 20 10 in
  (ChainHash <$> investigation_evidence (tables (e_state w)) !! "ev-1")
    = Some (EvidenceChainHash EvidenceGenesisHash (sha256_hex "log book")) ∧
  (PrevChainHash <$> investigation_evidence (tables (e_state w)) !! "ev-2")
    = (ChainHash <$> investigation_evidence (tables (e_state w)) !! "ev-1") ∧
  (VerifyEvidenceChain str_le "tenant-a" "case-1" w).2 = Ok false.
Proof. vm_compute. done. Qed.

(** ** What a verified chain commits to *)

(** The texts the verifier hashes on a chain. *)
Fixpoint hashed_texts (prev : string) (l : list EvidenceRow) : list string :=
  match l with
  | [] => []
  | x :: l' => (prev +:+ Evidence.ContentHash x) :: hashed_texts (Evidence.ChainHash x) l'
  end.

Lemma hashed_texts_snoc prev l x :
  hashed_texts prev (l ++ [x]) = hashed_texts prev l ++ [head_hash prev l +:+ Evidence.ContentHash x].
Proof.
  revert prev. induction l as [|y l IH]; intros prev; [done|]. simpl. rewrite IH. f_equal. f_equal. f_equal.
  unfold head_hash. rewrite last_cons. by destruct (last l).
Qed.

Lemma head_hash_snoc prev l x : head_hash prev (l ++ [x]) = Evidence.ChainHash x.
Proof. unfold head_hash. by rewrite last_snoc. Qed.

Lemma verified_head_length l :
  verify_links EvidenceGenesisHash l = true → String.length (head_hash EvidenceGenesisHash l) = 64%nat.
Proof.
  destruct l as [|x l _] using rev_ind; [done|].
  rewrite verify_links_snoc, head_hash_snoc. unfold link_ok. intros Hv. bool_to_prop.
  match goal with H : ChainHash x = _ |- _ => rewrite H end. apply length_sha256_hex.
Qed.

Lemma string_app_inj s1 s2 t1 t2 :
  String.length s1 = String.length s2 → s1 +:+ t1 = s2 +:+ t2 → s1 = s2 ∧ t1 = t2.
Proof.
  revert s2. induction s1 as [|c s1 IH]; intros [|c2 s2] Hl; simpl in *; try done.
  intros [= -> Hs]. destruct (IH s2) as [-> ->]; [lia|done|done].
Qed.

(** The part of an item the chain covers. *)
Definition covered (x : EvidenceRow) : string * string * string :=
  (Evidence.ContentHash x, Evidence.PrevChainHash x, Evidence.ChainHash x).

(** C38: A verified chain commits to its contents.  If two lists of items verify and
    have the same head, they have the same number of items with the same content
    and chain hashes, unless two different texts hashed by the verifier on them have
    the same SHA-256 digest, or one of these texts hashes to the genesis value. *)
Theorem chain_commits_to_contents (l1 l2 : list EvidenceRow)
  (H1 : verify_links EvidenceGenesisHash l1 = true) (H2 : verify_links EvidenceGenesisHash l2 = true)
  (Hhead : head_hash EvidenceGenesisHash l1 = head_hash EvidenceGenesisHash l2) :
  covered <$> l1 = covered <$> l2 ∨
  (∃ x y, x ∈ hashed_texts EvidenceGenesisHash l1 ∧ y ∈ hashed_texts EvidenceGenesisHash l2 ∧
     x ≠ y ∧ sha256_hex x = sha256_hex y) ∨
  (∃ x, x ∈ hashed_texts EvidenceGenesisHash l1 ++ hashed_texts EvidenceGenesisHash l2 ∧
     sha256_hex x = EvidenceGenesisHash).
Proof.
  revert l2 H1 H2 Hhead. induction l1 as [|x l1 IH] using rev_ind; intros l2 H1 H2 Hhead;
    destruct l2 as [|y l2 _] using rev_ind; [by left|..].
  all: rewrite ?verify_links_snoc, ?head_hash_snoc, ?hashed_texts_snoc in *; unfold link_ok in *; bool_to_prop.
  - right; right. eexists. split; [apply elem_of_app; right; apply elem_of_app; right; by left|].
    unfold EvidenceChainHash in *. by etrans; [|symmetry; exact Hhead].
  - right; right. eexists. split; [apply elem_of_app; left; apply elem_of_app; right; by left|].
    unfold EvidenceChainHash in *. by etrans; [|exact Hhead].
  - set (p := head_hash EvidenceGenesisHash l1 +:+ ContentHash x) in *.
    set (q := head_hash EvidenceGenesisHash l2 +:+ ContentHash y) in *.
    assert (sha256_hex p = sha256_hex q) as Hpq.
    { change (EvidenceChainHash (head_hash EvidenceGenesisHash l1) (ContentHash x)
        = EvidenceChainHash (head_hash EvidenceGenesisHash l2) (ContentHash y)). congruence. }
    destruct (decide (p = q)) as [Heq|Hne]; cycle 1.
    { right; left. exists p, q. split_and!; try done; apply elem_of_app; right; by left. }
    apply string_app_inj in Heq as [Hh Hc]; [|by rewrite !verified_head_length].
    destruct (IH l2) as [Hl|[(a & b & Ha & Hb & ?)|(a & Ha & ?)]]; [done..| | |].
    + left. rewrite !fmap_app, Hl. f_equal. cbn [fmap list_fmap]. unfold covered.
      assert (PrevChainHash x = PrevChainHash y) as -> by congruence. by rewrite Hc, Hhead.
    + right; left. exists a, b. rewrite !elem_of_app. naive_solver.
    + right; right. exists a. rewrite !elem_of_app in *. naive_solver.
Qed.

(** The chain of [two_exhibits], and the same chain with another description on
    its first item, which the hashes do not cover. *)
Definition sample_chain : list EvidenceRow :=
  evidence_in_order str_le "tenant-a" "case-1" (tables (e_state (after_exhibits 10 20))).
Definition redescribe (x : EvidenceRow) : EvidenceRow :=
  mkEvidenceRow (EvidenceID x) (Evidence.CaseID x) "another exhibit" (ContentHash x) (PrevChainHash x)
    (ChainHash x) (CollectedBy x) (CollectedAt x).

Lemma chain_commits_to_contents_witness :
  verify_links EvidenceGenesisHash sample_chain = true ∧ length sample_chain = 2%nat ∧
  (covered <$> sample_chain = covered <$> (redescribe <$> sample_chain) ∨
   (∃ x y, x ∈ hashed_texts EvidenceGenesisHash sample_chain ∧
      y ∈ hashed_texts EvidenceGenesisHash (redescribe <$> sample_chain) ∧
      x ≠ y ∧ sha256_hex x = sha256_hex y) ∨
   (∃ x, x ∈ hashed_texts EvidenceGenesisHash sample_chain
           ++ hashed_texts EvidenceGenesisHash (redescribe <$> sample_chain) ∧
      sha256_hex x = EvidenceGenesisHash)).
Proof.
  assert (verify_links EvidenceGenesisHash sample_chain = true) as H1 by (vm_compute; reflexivity).
  assert (verify_links EvidenceGenesisHash (redescribe <$> sample_chain) = true) as H2
    by (vm_compute; reflexivity).
  assert (head_hash EvidenceGenesisHash sample_chain
          = head_hash EvidenceGenesisHash (redescribe <$> sample_chain)) as Hh by (vm_compute; reflexivity).
  split_and!; [exact H1|vm_compute; reflexivity|].
  exact (chain_commits_to_contents sample_chain (redescribe <$> sample_chain) H1 H2 Hh).
Defined.
