(* ===== verification/SafetyApi.v ===== *)
(** * HTTP boundary of the safety modules

    [internal/api/safety.go]: inspections, search and rescue, accident investigation.  The
    state is that of the pipeline, which signs and publishes, with the safety store beside
    it.  [now()] of a transaction is an argument of a request.  An answer keeps the value a
    handler writes; an empty body reads as the zero value of its type. *)
From S2P Require Import Prelude GoTime GoParse Classification Types Effects Sign Auth Http Pipeline SafetyRows Safety.
Import Checklist Inspection Deficiency Sar Tasking Comms Case Evidence Finding Recommendation.

Record safety_world := mkSafetyWorld { sf_pipeline : world; sf_store : safety_store }.
Inductive safety_fault := SfStore (e : safety_error) | SfPipe (e : perror).

Inductive safety_body :=
| SafetyMessage (message : string)
| TemplateCreated (templateID : string)
| TemplatesBody (rows : list ChecklistTemplateRow)
| InspectionBody (row : InspectionRow)
| InspectionsBody (rows : list InspectionRow)
| DeficiencyBody (row : DeficiencyRow)
| DeficienciesBody (rows : list DeficiencyRow)
| SarBody (row : SarIncidentRow)
| SarsBody (rows : list SarIncidentRow)
| TaskingBody (row : SarTaskingRow)
| CommsBody (row : SarCommsRow)
| CommsLogBody (rows : list SarCommsRow)
| CaseBody (row : InvestigationCaseRow)
| CasesBody (rows : list InvestigationCaseRow)
| EvidenceBody (row : EvidenceRow)
| EvidenceListBody (rows : list EvidenceRow) (chainValid : bool)
| FindingBody (row : FindingRow)
| FindingsBody (rows : list FindingRow)
| RecommendationBody (row : RecommendationRow)
| RecommendationsBody (rows : list RecommendationRow).

Definition safety_refuse (r : response) : answer safety_body :=
  mkAnswer (rs_status r) (SafetyMessage (match rs_body r with (_, JStr m) :: _ => m | _ => "" end)).
Definition safety_message (status : Z) (message : string) : answer safety_body := safety_refuse (writeError status message).
(** [safetyStoreError]: the text of a sentinel, without what a wrapping adds to it. *)
Definition safetyStoreError (context : string) (e : safety_fault) : answer safety_body :=
  match e with
  | SfStore ErrSafetyNotFound => safety_message StatusNotFound (context +:+ " not found")
  | SfStore ErrSafetyMakerChecker => safety_message StatusConflict "maker-checker violation: the acting principal must differ from the maker"
  | SfStore ErrSafetyInvalidTransition => safety_message StatusConflict "safety lifecycle transition is not legal from the current state"
  | _ => safety_message StatusInternalServerError (context +:+ " failed")
  end.

(** ** Requests *)

(** The codes of the items, when they are a JSON array of objects; an item without a text
    under [code] has the empty one. *)
Record checklistTemplateRequest := mkTemplateRequest {
  ct_TemplateID : string; ct_Regime : string; ct_Version : Z; ct_Title : string; ct_Items : string; ct_Codes : option (list string) }.
Record inspectionRequest := mkInspectionRequest {
  ir_InspectionID : string; ir_Regime : string; ir_TemplateID : string; ir_VesselReference : string; ir_PortCode : string;
  ir_Classification : string }.
Record transitionRequest := mkTransitionRequest { tq_Action : string; tq_Note : string; tq_Reason : string }.
Record deficiencyRequest := mkDeficiencyRequest {
  df_DeficiencyID : string; df_Code : string; df_Description : string; df_Severity : string; df_RectificationDeadline : option Z }.
Record sarIncidentRequest := mkSarRequest {
  si_IncidentID : string; si_SosAlertID : string; si_Title : string; si_Classification : string; si_LatitudeMicros : option Z;
  si_LongitudeMicros : option Z }.
Record sarTaskingRequest := mkTaskingRequest { st_TaskingID : string; st_ResourceType : string; st_ResourceName : string }.
Record sarCommsRequest := mkCommsRequest { cm_Direction : string; cm_Channel : string; cm_Message : string }.
Record investigationCaseRequest := mkCaseRequest {
  ic_CaseID : string; ic_CasualtyType : string; ic_Severity : string; ic_VesselReference : string; ic_OccurredAt : Z;
  ic_Classification : string; ic_LatitudeMicros : option Z; ic_LongitudeMicros : option Z }.
Record evidenceRequest := mkEvidenceRequest { eq_EvidenceID : string; eq_Description : string; eq_ContentHash : string }.
Record findingRequest := mkFindingRequest { fd_FindingID : string; fd_Finding : string }.
Record recommendationRequest := mkRecommendationRequest { rc_RecommendationID : string; rc_Recommendation : string }.

(** [^[A-Za-z0-9][A-Za-z0-9._:-]{0,127}$] and [^[0-9a-f]{64}$] *)
Definition safetyIDPattern (s : string) : bool := identifier 127 s.
Definition sha256HexPattern (s : string) : bool :=
  Nat.eqb (String.length s) 64 && all_chars (λ c, is_digit c || (97 <=? byte_of c) && (byte_of c <=? 102)) s.
Definition known_regime (regime : string) : bool := String.eqb regime "FSC" || String.eqb regime "PSC".
(** The classification floor of a payload. *)
Definition restricted_label (label : string) : bool :=
  match ParseClassification label with Err _ => false | Ok c => Covers c ClassificationRestricted end.

(** ** Payloads of the envelopes *)

Definition inspection_fields (row : InspectionRow) (actor action note : string) (occurredAt : Z) : list (string * json) :=
  [("inspectionId", JStr (Inspection.InspectionID row)); ("regime", JStr (Inspection.Regime row));
   ("vesselReference", JStr (Inspection.VesselReference row)); ("portCode", JStr (Inspection.PortCode row)); ("action", JStr action);
   ("state", JStr (Inspection.State row)); ("actor", JStr actor); ("occurredAt", JTime occurredAt)]
  ++ str_omit "note" note ++ [("classification", JStr (Inspection.Classification row))].
Definition sar_fields (row : SarIncidentRow) (actor action resourceName note : string) (occurredAt : Z) : list (string * json) :=
  [("incidentId", JStr (Sar.IncidentID row))] ++ str_omit "sosAlertId" (default "" (Sar.SosAlertID row))
  ++ [("action", JStr action); ("phase", JStr (Sar.Phase row)); ("actor", JStr actor); ("occurredAt", JTime occurredAt)]
  ++ str_omit "resourceName" resourceName ++ str_omit "note" note ++ [("classification", JStr (Sar.Classification row))].
Definition investigation_fields (row : InvestigationCaseRow) (actor action evidenceID chainHash : string) (occurredAt : Z) : list (string * json) :=
  [("caseId", JStr (Case.CaseID row)); ("casualtyType", JStr (Case.CasualtyType row)); ("action", JStr action);
   ("state", JStr (Case.State row)); ("actor", JStr actor); ("occurredAt", JTime occurredAt)]
  ++ str_omit "evidenceId" evidenceID ++ str_omit "chainHash" chainHash ++ [("classification", JStr (Case.Classification row))].

Section api.
Context (uuid : nat → string) (cfg : config).
(** The codes of a stored template, the orders under the collation of the database. *)
Context (item_codes : string → list string) (by_regime_version : relation ChecklistTemplateRow) `{∀ a b, Decision (by_regime_version a b)}.
Context (id_le : relation string) `{∀ a b, Decision (id_le a b)}.
Abbreviation Serving := (M safety_world safety_fault).
Abbreviation Reply := (Serving (answer safety_body)).

Definition set_sf_store (s : safety_store) (w : safety_world) : safety_world := mkSafetyWorld (sf_pipeline w) s.
Definition set_sf_pipeline (p : world) (w : safety_world) : safety_world := mkSafetyWorld p (sf_store w).
Definition on_safety {A} (m : M safety_store safety_error A) : Serving A := relabel SfStore (zoom sf_store set_sf_store m).
Definition on_events {A} (m : M world perror A) : Serving A := relabel SfPipe (zoom sf_pipeline set_sf_pipeline m).

(** [safetyPrincipal], [publisherReady], [safetyPathID], [decodeBody]. *)
Definition safetyPrincipal (p : option Principal) (next : Principal → Reply) : Reply :=
  principalOrFail p (λ r, mret (safety_refuse r)) (λ principal,
    if negb (restricted_clearance principal)
    then mret (safety_message StatusForbidden "safety endpoints require RESTRICTED or higher clearance")
    else next principal).
Definition publisherReady (wired : bool) (next : Reply) : Reply :=
  if wired then next else mret (safety_message StatusServiceUnavailable "safety event publisher is not wired").
Definition safetyPathID (id : string) (next : Reply) : Reply :=
  if safetyIDPattern id then next else mret (safety_message StatusBadRequest "path id is invalid").
Definition decodeBody {B} (body : http_body B) (next : B → Reply) : Reply :=
  match body with BodyUnreadable | BodyInvalid => mret (safety_message StatusBadRequest "request body is not valid JSON") | Body b => next b end.
Definition required (b : bool) (message : string) (next : Reply) : Reply :=
  if b then next else mret (safety_message StatusBadRequest message).
Definition safety_headers : gmap string string := {["priority" := "SAFETY"]}.

(** An envelope, then the answer; a failure of the publication is answered 500. *)
Definition announcing (eventType id : string) (fields : Z → list (string * json)) (classification message : string) (ok : answer safety_body) : Reply :=
  now ← gets (λ w, w_now (sf_pipeline w));
  answering (on_events (PublishSignedEnvelope uuid cfg eventType id (POther (fields now)) now classification safety_headers))
    (λ _, safety_message StatusInternalServerError message) (λ _, mret ok).
Definition publishInspection (row : InspectionRow) (actor action note : string) (ok : answer safety_body) : Reply :=
  announcing EventSafetyInspection (Inspection.InspectionID row) (inspection_fields row actor action note) (Inspection.Classification row)
    "safety inspection event publication failed" ok.
Definition publishSar (row : SarIncidentRow) (actor action resourceName note : string) (ok : answer safety_body) : Reply :=
  announcing EventSafetySAR (Sar.IncidentID row) (sar_fields row actor action resourceName note) (Sar.Classification row)
    "sar event publication failed" ok.
Definition publishInvestigation (row : InvestigationCaseRow) (actor action evidenceID chainHash : string) (ok : answer safety_body) : Reply :=
  announcing EventSafetyInvestigation (Case.CaseID row) (investigation_fields row actor action evidenceID chainHash) (Case.Classification row)
    "investigation event publication failed" ok.

(** ** Inspections *)

Definition createChecklistTemplate (tx_now : Z) (p : option Principal) (body : http_body checklistTemplateRequest) : Reply :=
  safetyPrincipal p (λ principal, decodeBody body (λ payload,
    required (safetyIDPattern (ct_TemplateID payload) && known_regime (ct_Regime payload) && (1 <=? ct_Version payload)
              && negb (String.eqb (ct_Title payload) "") && negb (String.eqb (ct_Items payload) ""))
      "template id, regime (FSC|PSC), version, title and items are required"
      match ct_Codes payload with
      | None | Some [] => mret (safety_message StatusBadRequest "items must be a non-empty JSON array")
      | Some codes =>
          required (forallb (λ c, negb (String.eqb c "")) codes) "every checklist item requires a code"
            (answering (on_safety (CreateChecklistTemplate tx_now
                (mkChecklistTemplateRow (ct_TemplateID payload) (Auth.TenantID principal) (ct_Regime payload) (ct_Version payload)
                   (ct_Title payload) (ct_Items payload) (Subject principal) zero_time)))
              (λ _, safety_message StatusInternalServerError "checklist template creation failed")
              (λ _, mret (mkAnswer StatusCreated (TemplateCreated (ct_TemplateID payload)))))
      end)).
Definition listChecklistTemplates (p : option Principal) (regime : string) : Reply :=
  safetyPrincipal p (λ principal,
    answering (on_safety (ListChecklistTemplates by_regime_version (Auth.TenantID principal) regime))
      (λ _, safety_message StatusInternalServerError "checklist template query failed")
      (λ rows, mret (mkAnswer StatusOK (TemplatesBody rows)))).

Definition new_inspection (payload : inspectionRequest) (principal : Principal) : InspectionRow :=
  mkInspectionRow (ir_InspectionID payload) (Auth.TenantID principal) (ir_Regime payload) (ir_TemplateID payload) (ir_VesselReference payload)
    (ir_PortCode payload) (ir_Classification payload) "" (Subject principal) zero_time None None None None None None None None None None None.
Definition createInspection (wired : bool) (tx_now : Z) (p : option Principal) (body : http_body inspectionRequest) : Reply :=
  safetyPrincipal p (λ principal, publisherReady wired (decodeBody body (λ payload,
    required (safetyIDPattern (ir_InspectionID payload) && known_regime (ir_Regime payload) && safetyIDPattern (ir_TemplateID payload)
              && negb (String.eqb (ir_VesselReference payload) ""))
      "inspection id, regime (FSC|PSC), template id and vessel reference are required"
      (required (restricted_label (ir_Classification payload)) "classification floor is RESTRICTED"
        (answering (on_safety (CreateInspection tx_now (new_inspection payload principal))) (safetyStoreError "inspection creation")
          (λ row, publishInspection row (Subject principal) "create" "" (mkAnswer StatusCreated (InspectionBody row)))))))).
Definition getInspection (p : option Principal) (id : string) : Reply :=
  safetyPrincipal p (λ principal, safetyPathID id
    (answering (on_safety (GetInspection (Auth.TenantID principal) id)) (safetyStoreError "inspection")
      (λ row, mret (mkAnswer StatusOK (InspectionBody row))))).
Definition listInspections (p : option Principal) (limit : string) : Reply :=
  safetyPrincipal p (λ principal,
    answering (on_safety (ListInspections (Auth.TenantID principal) (Z.to_nat (parseLimit limit 100 1000))))
      (λ _, safety_message StatusInternalServerError "inspection query failed")
      (λ rows, mret (mkAnswer StatusOK (InspectionsBody rows)))).
Definition checker_role (principal : Principal) : bool := HasRole principal "geo-inspection-checker" || HasRole principal "geo-admin".
Definition transitionInspection (wired : bool) (tx_now : Z) (p : option Principal) (id : string) (body : http_body transitionRequest) : Reply :=
  safetyPrincipal p (λ principal, publisherReady wired (safetyPathID id (decodeBody body (λ payload,
    if String.eqb (tq_Action payload) "release" && negb (checker_role principal)
    then mret (safety_message StatusForbidden "release requires the geo-inspection-checker role")
    else
      answering (on_safety (TransitionInspection tx_now (Auth.TenantID principal) id (Subject principal) (tq_Action payload) (tq_Note payload)))
        (safetyStoreError "inspection transition")
        (λ row, publishInspection row (Subject principal) (tq_Action payload) (tq_Note payload) (mkAnswer StatusOK (InspectionBody row))))))).

Definition new_deficiency (id : string) (payload : deficiencyRequest) (principal : Principal) : DeficiencyRow :=
  mkDeficiencyRow (df_DeficiencyID payload) id (df_Code payload) (df_Description payload) (df_Severity payload) ""
    (df_RectificationDeadline payload) (Subject principal) zero_time None None None None.
Definition recordDeficiency (tx_now : Z) (p : option Principal) (id : string) (body : http_body deficiencyRequest) : Reply :=
  safetyPrincipal p (λ principal, safetyPathID id (decodeBody body (λ payload,
    required (safetyIDPattern (df_DeficiencyID payload) && negb (String.eqb (df_Code payload) "") && negb (String.eqb (df_Description payload) "")
              && bool_decide (df_Severity payload ∈ ["MINOR"; "MAJOR"; "CRITICAL"]))
      "deficiency id, code, description and severity (MINOR|MAJOR|CRITICAL) are required"
      (answering (on_safety (RecordDeficiency item_codes tx_now (Auth.TenantID principal) (new_deficiency id payload principal)))
        (safetyStoreError "deficiency recording")
        (λ row, mret (mkAnswer StatusCreated (DeficiencyBody row))))))).
Definition listDeficiencies (p : option Principal) (id : string) : Reply :=
  safetyPrincipal p (λ principal, safetyPathID id
    (answering (on_safety (ListDeficiencies (Auth.TenantID principal) id))
      (λ _, safety_message StatusInternalServerError "deficiency query failed")
      (λ rows, mret (mkAnswer StatusOK (DeficienciesBody rows))))).
Definition transitionDeficiency (tx_now : Z) (p : option Principal) (id : string) (body : http_body transitionRequest) : Reply :=
  safetyPrincipal p (λ principal, safetyPathID id (decodeBody body (λ payload,
    if String.eqb (tq_Action payload) "verify" && negb (checker_role principal)
    then mret (safety_message StatusForbidden "verify requires the geo-inspection-checker role")
    else
      answering (on_safety (TransitionDeficiency tx_now (Auth.TenantID principal) id (Subject principal) (tq_Action payload)))
        (safetyStoreError "deficiency transition")
        (λ row, mret (mkAnswer StatusOK (DeficiencyBody row)))))).

(** ** Search and rescue *)

Definition createSarIncident (wired : bool) (tx_now : Z) (p : option Principal) (body : http_body sarIncidentRequest) : Reply :=
  safetyPrincipal p (λ principal, publisherReady wired (decodeBody body (λ payload,
    required (safetyIDPattern (si_IncidentID payload) && negb (String.eqb (si_Title payload) "")) "incident id and title are required"
      (required (restricted_label (si_Classification payload)) "classification floor is RESTRICTED"
        (required (String.eqb (si_SosAlertID payload) "" || safetyIDPattern (si_SosAlertID payload)) "sos alert id is invalid"
          (answering (on_safety (CreateSarIncident tx_now
              (mkSarIncidentRow (si_IncidentID payload) (Auth.TenantID principal)
                 (if String.eqb (si_SosAlertID payload) "" then None else Some (si_SosAlertID payload)) (si_Title payload)
                 (si_Classification payload) "" (Subject principal) zero_time None None None None None None None None None)
              (si_LatitudeMicros payload) (si_LongitudeMicros payload)))
            (safetyStoreError "sar incident creation")
            (λ row, publishSar row (Subject principal) "open" "" "" (mkAnswer StatusCreated (SarBody row))))))))).
Definition getSarIncident (p : option Principal) (id : string) : Reply :=
  safetyPrincipal p (λ principal, safetyPathID id
    (answering (on_safety (GetSarIncident (Auth.TenantID principal) id)) (safetyStoreError "sar incident")
      (λ row, mret (mkAnswer StatusOK (SarBody row))))).
Definition listSarIncidents (p : option Principal) (limit : string) : Reply :=
  safetyPrincipal p (λ principal,
    answering (on_safety (ListSarIncidents (Auth.TenantID principal) (Z.to_nat (parseLimit limit 100 1000))))
      (λ _, safety_message StatusInternalServerError "sar incident query failed")
      (λ rows, mret (mkAnswer StatusOK (SarsBody rows)))).
Definition transitionSarIncident (wired : bool) (tx_now : Z) (p : option Principal) (id : string) (body : http_body transitionRequest) : Reply :=
  safetyPrincipal p (λ principal, publisherReady wired (safetyPathID id (decodeBody body (λ payload,
    answering (on_safety (TransitionSarIncident tx_now (Auth.TenantID principal) id (Subject principal) (tq_Action payload) (tq_Reason payload)))
      (safetyStoreError "sar incident transition")
      (λ row, publishSar row (Subject principal) (tq_Action payload) "" (tq_Reason payload) (mkAnswer StatusOK (SarBody row))))))).
Definition taskSarResource (wired : bool) (tx_now : Z) (p : option Principal) (id : string) (body : http_body sarTaskingRequest) : Reply :=
  safetyPrincipal p (λ principal, publisherReady wired (safetyPathID id (decodeBody body (λ payload,
    required (safetyIDPattern (st_TaskingID payload) && negb (String.eqb (st_ResourceName payload) "")
              && bool_decide (st_ResourceType payload ∈ ["VESSEL"; "AIRCRAFT"; "TEAM"; "OTHER"]))
      "tasking id, resource type (VESSEL|AIRCRAFT|TEAM|OTHER) and resource name are required"
      (answering (on_safety (TaskSarResource tx_now (Auth.TenantID principal)
          (mkSarTaskingRow (st_TaskingID payload) id (st_ResourceType payload) (st_ResourceName payload) "" (Subject principal) zero_time None None)))
        (safetyStoreError "sar resource tasking")
        (λ row,
          answering (on_safety (GetSarIncident (Auth.TenantID principal) id)) (safetyStoreError "sar incident")
            (λ incident, publishSar incident (Subject principal) "task" (st_ResourceName payload) "" (mkAnswer StatusCreated (TaskingBody row))))))))).
Definition transitionSarTasking (tx_now : Z) (p : option Principal) (id : string) (body : http_body transitionRequest) : Reply :=
  safetyPrincipal p (λ principal, safetyPathID id (decodeBody body (λ payload,
    answering (on_safety (TransitionSarTasking tx_now (Auth.TenantID principal) id (Subject principal) (tq_Action payload)))
      (safetyStoreError "sar tasking transition")
      (λ row, mret (mkAnswer StatusOK (TaskingBody row)))))).
Definition appendSarComms (tx_now : Z) (p : option Principal) (id : string) (body : http_body sarCommsRequest) : Reply :=
  safetyPrincipal p (λ principal, safetyPathID id (decodeBody body (λ payload,
    required (bool_decide (cm_Direction payload ∈ ["INBOUND"; "OUTBOUND"]) && negb (String.eqb (cm_Channel payload) "")
              && negb (String.eqb (cm_Message payload) ""))
      "direction (INBOUND|OUTBOUND), channel and message are required"
      (answering (on_safety (AppendSarComms tx_now (Auth.TenantID principal)
          (mkSarCommsRow 0 id (cm_Direction payload) (cm_Channel payload) (cm_Message payload) (Subject principal) zero_time)))
        (safetyStoreError "sar comms entry")
        (λ row, mret (mkAnswer StatusCreated (CommsBody row))))))).
Definition listSarComms (p : option Principal) (id limit : string) : Reply :=
  safetyPrincipal p (λ principal, safetyPathID id
    (answering (on_safety (ListSarComms (Auth.TenantID principal) id (Z.to_nat (parseLimit limit 500 5000))))
      (λ _, safety_message StatusInternalServerError "sar comms query failed")
      (λ rows, mret (mkAnswer StatusOK (CommsLogBody rows))))).

(** ** Investigations *)

Definition createInvestigationCase (wired : bool) (tx_now : Z) (p : option Principal) (body : http_body investigationCaseRequest) : Reply :=
  safetyPrincipal p (λ principal, publisherReady wired (decodeBody body (λ payload,
    required (safetyIDPattern (ic_CaseID payload) && negb (String.eqb (ic_VesselReference payload) "") && negb (time_IsZero (ic_OccurredAt payload)))
      "case id, vessel reference and occurredAt are required"
      (required (restricted_label (ic_Classification payload)) "classification floor is RESTRICTED"
        (answering (on_safety (CreateInvestigationCase tx_now
            (mkInvestigationCaseRow (ic_CaseID payload) (Auth.TenantID principal) (ic_CasualtyType payload) (ic_Severity payload)
               (ic_VesselReference payload) (ic_OccurredAt payload) (ic_Classification payload) "" (Subject principal) zero_time None None None None)
            (ic_LatitudeMicros payload) (ic_LongitudeMicros payload)))
          (safetyStoreError "investigation case creation")
          (λ row, publishInvestigation row (Subject principal) "open" "" "" (mkAnswer StatusCreated (CaseBody row)))))))).
Definition getInvestigationCase (p : option Principal) (id : string) : Reply :=
  safetyPrincipal p (λ principal, safetyPathID id
    (answering (on_safety (GetInvestigationCase (Auth.TenantID principal) id)) (safetyStoreError "investigation case")
      (λ row, mret (mkAnswer StatusOK (CaseBody row))))).
Definition listInvestigationCases (p : option Principal) (limit : string) : Reply :=
  safetyPrincipal p (λ principal,
    answering (on_safety (ListInvestigationCases (Auth.TenantID principal) (Z.to_nat (parseLimit limit 100 1000))))
      (λ _, safety_message StatusInternalServerError "investigation case query failed")
      (λ rows, mret (mkAnswer StatusOK (CasesBody rows)))).
Definition transitionInvestigationCase (wired : bool) (tx_now : Z) (p : option Principal) (id : string) (body : http_body transitionRequest) : Reply :=
  safetyPrincipal p (λ principal, publisherReady wired (safetyPathID id (decodeBody body (λ payload,
    answering (on_safety (TransitionInvestigationCase tx_now (Auth.TenantID principal) id (Subject principal) (tq_Action payload)))
      (safetyStoreError "investigation case transition")
      (λ row, publishInvestigation row (Subject principal) (tq_Action payload) "" "" (mkAnswer StatusOK (CaseBody row))))))).
Definition appendEvidence (wired : bool) (tx_now : Z) (p : option Principal) (id : string) (body : http_body evidenceRequest) : Reply :=
  safetyPrincipal p (λ principal, publisherReady wired (safetyPathID id (decodeBody body (λ payload,
    required (safetyIDPattern (eq_EvidenceID payload) && negb (String.eqb (eq_Description payload) "") && sha256HexPattern (eq_ContentHash payload))
      "evidence id, description and a lowercase-hex sha256 contentHash are required"
      (answering (on_safety (AppendEvidence id_le tx_now (Auth.TenantID principal)
          (mkEvidenceRow (eq_EvidenceID payload) id (eq_Description payload) (eq_ContentHash payload) "" "" (Subject principal) zero_time)))
        (safetyStoreError "evidence append")
        (λ row,
          answering (on_safety (GetInvestigationCase (Auth.TenantID principal) id)) (safetyStoreError "investigation case")
            (λ caseRow, publishInvestigation caseRow (Subject principal) "evidence" (Evidence.EvidenceID row) (ChainHash row)
                          (mkAnswer StatusCreated (EvidenceBody row))))))))).
Definition listEvidence (p : option Principal) (id : string) : Reply :=
  safetyPrincipal p (λ principal, safetyPathID id
    (answering (on_safety (ListEvidence id_le (Auth.TenantID principal) id))
      (λ _, safety_message StatusInternalServerError "evidence query failed")
      (λ rows,
        answering (on_safety (VerifyEvidenceChain id_le (Auth.TenantID principal) id))
          (λ _, safety_message StatusInternalServerError "evidence chain verification failed")
          (λ valid, mret (mkAnswer StatusOK (EvidenceListBody rows valid)))))).
Definition addFinding (tx_now : Z) (p : option Principal) (id : string) (body : http_body findingRequest) : Reply :=
  safetyPrincipal p (λ principal, safetyPathID id (decodeBody body (λ payload,
    required (safetyIDPattern (fd_FindingID payload) && negb (String.eqb (fd_Finding payload) "")) "finding id and finding text are required"
      (answering (on_safety (AddFinding tx_now (Auth.TenantID principal)
          (mkFindingRow (fd_FindingID payload) id (fd_Finding payload) (Subject principal) zero_time)))
        (safetyStoreError "finding") (λ row, mret (mkAnswer StatusCreated (FindingBody row))))))).
Definition listFindings (p : option Principal) (id : string) : Reply :=
  safetyPrincipal p (λ principal, safetyPathID id
    (answering (on_safety (ListFindings (Auth.TenantID principal) id))
      (λ _, safety_message StatusInternalServerError "finding query failed")
      (λ rows, mret (mkAnswer StatusOK (FindingsBody rows))))).
Definition addRecommendation (tx_now : Z) (p : option Principal) (id : string) (body : http_body recommendationRequest) : Reply :=
  safetyPrincipal p (λ principal, safetyPathID id (decodeBody body (λ payload,
    required (safetyIDPattern (rc_RecommendationID payload) && negb (String.eqb (rc_Recommendation payload) ""))
      "recommendation id and text are required"
      (answering (on_safety (AddRecommendation tx_now (Auth.TenantID principal)
          (mkRecommendationRow (rc_RecommendationID payload) id (rc_Recommendation payload) "" (Subject principal) zero_time None None)))
        (safetyStoreError "recommendation") (λ row, mret (mkAnswer StatusCreated (RecommendationBody row))))))).
Definition listRecommendations (p : option Principal) (id : string) : Reply :=
  safetyPrincipal p (λ principal, safetyPathID id
    (answering (on_safety (ListRecommendations (Auth.TenantID principal) id))
      (λ _, safety_message StatusInternalServerError "recommendation query failed")
      (λ rows, mret (mkAnswer StatusOK (RecommendationsBody rows))))).
Definition decideRecommendation (tx_now : Z) (p : option Principal) (id : string) (body : http_body transitionRequest) : Reply :=
  safetyPrincipal p (λ principal, safetyPathID id (decodeBody body (λ payload,
    answering (on_safety (DecideRecommendation tx_now (Auth.TenantID principal) id (Subject principal) (tq_Action payload)))
      (safetyStoreError "recommendation transition")
      (λ row, mret (mkAnswer StatusOK (RecommendationBody row)))))).

(** ** Routes *)

Inductive safety_request :=
| PostTemplate (body : http_body checklistTemplateRequest) | GetTemplates (regime : string)
| PostInspection (body : http_body inspectionRequest) | GetInspectionRoute (id : string) | GetInspections (limit : string)
| PostInspectionTransition (id : string) (body : http_body transitionRequest)
| PostDeficiency (id : string) (body : http_body deficiencyRequest) | GetDeficiencies (id : string)
| PostDeficiencyTransition (id : string) (body : http_body transitionRequest)
| PostSar (body : http_body sarIncidentRequest) | GetSar (id : string) | GetSars (limit : string)
| PostSarTransition (id : string) (body : http_body transitionRequest)
| PostTasking (id : string) (body : http_body sarTaskingRequest) | PostTaskingTransition (id : string) (body : http_body transitionRequest)
| PostComms (id : string) (body : http_body sarCommsRequest) | GetComms (id limit : string)
| PostCase (body : http_body investigationCaseRequest) | GetCase (id : string) | GetCases (limit : string)
| PostCaseTransition (id : string) (body : http_body transitionRequest)
| PostEvidence (id : string) (body : http_body evidenceRequest) | GetEvidence (id : string)
| PostFinding (id : string) (body : http_body findingRequest) | GetFindings (id : string)
| PostRecommendation (id : string) (body : http_body recommendationRequest) | GetRecommendations (id : string)
| PostRecommendationTransition (id : string) (body : http_body transitionRequest).
Definition safety_read_roles : list string :=
  ["geo-reader"; "geo-inspector"; "geo-inspection-checker"; "geo-sar-coordinator"; "geo-investigator"; "geo-admin"].
Definition safety_roles (r : safety_request) : list string :=
  match r with
  | PostTemplate _ | PostInspection _ | PostDeficiency _ _ => ["geo-inspector"; "geo-admin"]
  | PostInspectionTransition _ _ | PostDeficiencyTransition _ _ => ["geo-inspector"; "geo-inspection-checker"; "geo-admin"]
  | PostSar _ | PostSarTransition _ _ | PostTasking _ _ | PostTaskingTransition _ _ | PostComms _ _ => ["geo-sar-coordinator"; "geo-admin"]
  | PostCase _ | PostCaseTransition _ _ | PostEvidence _ _ | PostFinding _ _ | PostRecommendation _ _ | PostRecommendationTransition _ _ =>
      ["geo-investigator"; "geo-admin"]
  | _ => safety_read_roles
  end.
Definition safety_dispatch (wired : bool) (tx_now : Z) (r : safety_request) (p : option Principal) : Reply :=
  match r with
  | PostTemplate body => createChecklistTemplate tx_now p body
  | GetTemplates regime => listChecklistTemplates p regime
  | PostInspection body => createInspection wired tx_now p body
  | GetInspectionRoute id => getInspection p id
  | GetInspections limit => listInspections p limit
  | PostInspectionTransition id body => transitionInspection wired tx_now p id body
  | PostDeficiency id body => recordDeficiency tx_now p id body
  | GetDeficiencies id => listDeficiencies p id
  | PostDeficiencyTransition id body => transitionDeficiency tx_now p id body
  | PostSar body => createSarIncident wired tx_now p body
  | GetSar id => getSarIncident p id
  | GetSars limit => listSarIncidents p limit
  | PostSarTransition id body => transitionSarIncident wired tx_now p id body
  | PostTasking id body => taskSarResource wired tx_now p id body
  | PostTaskingTransition id body => transitionSarTasking tx_now p id body
  | PostComms id body => appendSarComms tx_now p id body
  | GetComms id limit => listSarComms p id limit
  | PostCase body => createInvestigationCase wired tx_now p body
  | GetCase id => getInvestigationCase p id
  | GetCases limit => listInvestigationCases p limit
  | PostCaseTransition id body => transitionInvestigationCase wired tx_now p id body
  | PostEvidence id body => appendEvidence wired tx_now p id body
  | GetEvidence id => listEvidence p id
  | PostFinding id body => addFinding tx_now p id body
  | GetFindings id => listFindings p id
  | PostRecommendation id body => addRecommendation tx_now p id body
  | GetRecommendations id => listRecommendations p id
  | PostRecommendationTransition id body => decideRecommendation tx_now p id body
  end.
(** [registerSafetyRoutes] behind the authenticator. *)
Definition safety_handler (outcome : result auth_error Principal) (wired : bool) (tx_now : Z) (r : safety_request) : guarded Reply :=
  Middleware outcome (RequireRoles (safety_roles r) (λ p, safety_dispatch wired tx_now r (Some p))).
End api.
