(* ===== verification/SafetyApiProps.v ===== *)
(** * The safety modules over HTTP: properties

    What an answer of the handlers of [SafetyApi] promises about the tables and the event
    topic, and who stands behind a release. *)
From S2P Require Import Prelude GoTime GoParse Classification Types Effects Sign Auth Http Pipeline PipelineProps AppReports AppProps SafetyRows Safety SafetySpec SafetyProps SafetyApi.
Import Checklist Inspection Deficiency Sar Tasking Comms Case Evidence Finding Recommendation.

Section props.
Context (uuid : nat → string) (cfg : config).
Context (item_codes : string → list string) (by_regime_version : relation ChecklistTemplateRow) `{∀ a b, Decision (by_regime_version a b)}.
Context (id_le : relation string) `{∀ a b, Decision (id_le a b)}.
Abbreviation Reply := (M safety_world safety_fault (answer safety_body)).
Abbreviation ledger w := (Safety.tables (sf_store (e_state w))).
Abbreviation topic w := (w_kafka (sf_pipeline (e_state w))).
Abbreviation clock w := (w_now (sf_pipeline (e_state w))).

(** ** What a request stands for *)

Definition sar_of_request (b : sarIncidentRequest) (p : Principal) : SarIncidentRow :=
  mkSarIncidentRow (si_IncidentID b) (Auth.TenantID p) (if String.eqb (si_SosAlertID b) "" then None else Some (si_SosAlertID b))
    (si_Title b) (si_Classification b) "" (Subject p) zero_time None None None None None None None None None.
Definition case_of_request (b : investigationCaseRequest) (p : Principal) : InvestigationCaseRow :=
  mkInvestigationCaseRow (ic_CaseID b) (Auth.TenantID p) (ic_CasualtyType b) (ic_Severity b) (ic_VesselReference b) (ic_OccurredAt b)
    (ic_Classification b) "" (Subject p) zero_time None None None None.
(** The operation of the store; the reads have none. *)
Definition safety_op_of (p : Principal) (r : safety_request) : option safety_op :=
  let t := Auth.TenantID p in let actor := Subject p in
  match r with
  | PostTemplate (Body b) => Some (OpTemplate (mkChecklistTemplateRow (ct_TemplateID b) t (ct_Regime b) (ct_Version b) (ct_Title b)
      (ct_Items b) actor zero_time))
  | PostInspection (Body b) => Some (OpInspection (new_inspection b p))
  | PostInspectionTransition id (Body b) => Some (OpMoveInspection t id actor (tq_Action b) (tq_Note b))
  | PostDeficiency id (Body b) => Some (OpDeficiency t (new_deficiency id b p))
  | PostDeficiencyTransition id (Body b) => Some (OpMoveDeficiency t id actor (tq_Action b))
  | PostSar (Body b) => Some (OpIncident (sar_of_request b p) (si_LatitudeMicros b) (si_LongitudeMicros b))
  | PostSarTransition id (Body b) => Some (OpMoveIncident t id actor (tq_Action b) (tq_Reason b))
  | PostTasking id (Body b) => Some (OpTasking t (mkSarTaskingRow (st_TaskingID b) id (st_ResourceType b) (st_ResourceName b) "" actor
      zero_time None None))
  | PostTaskingTransition id (Body b) => Some (OpMoveTasking t id actor (tq_Action b))
  | PostComms id (Body b) => Some (OpComms t (mkSarCommsRow 0 id (cm_Direction b) (cm_Channel b) (cm_Message b) actor zero_time))
  | PostCase (Body b) => Some (OpCase (case_of_request b p) (ic_LatitudeMicros b) (ic_LongitudeMicros b))
  | PostCaseTransition id (Body b) => Some (OpMoveCase t id actor (tq_Action b))
  | PostEvidence id (Body b) => Some (OpEvidence t (mkEvidenceRow (eq_EvidenceID b) id (eq_Description b) (eq_ContentHash b) "" "" actor zero_time))
  | PostFinding id (Body b) => Some (OpFinding t (mkFindingRow (fd_FindingID b) id (fd_Finding b) actor zero_time))
  | PostRecommendation id (Body b) => Some (OpRecommendation t (mkRecommendationRow (rc_RecommendationID b) id (rc_Recommendation b) "" actor
      zero_time None None))
  | PostRecommendationTransition id (Body b) => Some (SafetySpec.OpDecide t id actor (tq_Action b))
  | _ => None
  end.
Definition safety_request_step (tx_now : Z) (p : Principal) (r : safety_request) (d d' : safety_db) : Prop :=
  match safety_op_of p r with Some op => safety_step item_codes id_le tx_now op d d' | None => d' = d end.

(** What is new on the event topic after an answer below 300: one signed envelope for the
    row of the answer, or for the incident or case it belongs to; nothing for the rest. *)
Definition said (p : Principal) (r : safety_request) (d : safety_db) (now : Z) (a : safety_body) (new : list message) : Prop :=
  let event et id fields := announced_on cfg et id (POther fields) safety_headers new in
  let actor := Subject p in
  match r, a with
  | PostInspection _, InspectionBody row =>
      event EventSafetyInspection (Inspection.InspectionID row) (inspection_fields row actor "create" "" now)
  | PostInspectionTransition _ (Body b), InspectionBody row =>
      event EventSafetyInspection (Inspection.InspectionID row) (inspection_fields row actor (tq_Action b) (tq_Note b) now)
  | PostSar _, SarBody row => event EventSafetySAR (Sar.IncidentID row) (sar_fields row actor "open" "" "" now)
  | PostSarTransition _ (Body b), SarBody row =>
      event EventSafetySAR (Sar.IncidentID row) (sar_fields row actor (tq_Action b) "" (tq_Reason b) now)
  | PostTasking id (Body b), TaskingBody _ =>
      ∃ row, sar_incidents d !! id = Some row ∧
        event EventSafetySAR (Sar.IncidentID row) (sar_fields row actor "task" (st_ResourceName b) "" now)
  | PostCase _, CaseBody row => event EventSafetyInvestigation (Case.CaseID row) (investigation_fields row actor "open" "" "" now)
  | PostCaseTransition _ (Body b), CaseBody row =>
      event EventSafetyInvestigation (Case.CaseID row) (investigation_fields row actor (tq_Action b) "" "" now)
  | PostEvidence id _, EvidenceBody ev =>
      ∃ row, investigation_cases d !! id = Some row ∧
        event EventSafetyInvestigation (Case.CaseID row)
          (investigation_fields row actor "evidence" (Evidence.EvidenceID ev) (Evidence.ChainHash ev) now)
  | PostInspection _, _ | PostInspectionTransition _ _, _ | PostSar _, _ | PostSarTransition _ _, _ | PostTasking _ _, _
  | PostCase _, _ | PostCaseTransition _ _, _ | PostEvidence _ _, _ => False
  | _, _ => new = []
  end.

(** ** Handlers *)

(** A handler leaves the tables or makes its step; an answer below 300 comes with the step
    and with the envelope. *)
Definition serves (step : safety_db → safety_db → Prop) (tell : safety_db → Z → safety_body → list message → Prop) (m : Reply) : Prop :=
  ∀ w w' res, m w = (w', res) →
    (ledger w' = ledger w ∨ step (ledger w) (ledger w')) ∧
    (∀ a, res = Ok a → an_status a < 300 → step (ledger w) (ledger w') ∧
       ∃ new, topic w' = topic w ++ new ∧ tell (ledger w') (clock w) (an_body a) new).
(** What follows the write. *)
Definition follows (tell : safety_db → Z → safety_body → list message → Prop) (m : Reply) : Prop :=
  ∀ w w' res, m w = (w', res) → ledger w' = ledger w ∧
    (∀ a, res = Ok a → an_status a < 300 → ∃ new, topic w' = topic w ++ new ∧ tell (ledger w') (clock w) (an_body a) new).

Lemma serves_refusal step tell a : 300 ≤ an_status a → serves step tell (mret a).
Proof. intros Ha w w' res [= <- <-]. split; [by left|]. intros a' [= <-] ?. lia. Qed.
Lemma follows_refusal tell a : 300 ≤ an_status a → follows tell (mret a).
Proof. intros Ha w w' res [= <- <-]. split; [done|]. intros a' [= <-] ?. lia. Qed.
Lemma follows_ret (tell : safety_db → Z → safety_body → list message → Prop) a : (∀ d now, tell d now (an_body a) []) → follows tell (mret a).
Proof. intros Ht w w' res [= <- <-]. split; [done|]. intros a' [= <-] _. exists []. by rewrite app_nil_r. Qed.

Lemma on_safety_run {A} (m : M safety_store safety_error A) w :
  let out := m (mkEnv (e_faults w) (sf_store (e_state w))) in
  on_safety m w = (mkEnv (e_faults out.1) (set_sf_store (e_state out.1) (e_state w)), match out.2 with Ok a => Ok a | Err e => Err (SfStore e) end).
Proof. unfold on_safety, relabel, zoom. by destruct (m _) as [w1 [a|e]]. Qed.
Lemma on_events_Ok {A} (m : M world perror A) w w' a :
  on_events m w = (w', Ok a) →
  ∃ w1 : env world, m (mkEnv (e_faults w) (sf_pipeline (e_state w))) = (w1, Ok a) ∧
    w' = mkEnv (e_faults w1) (mkSafetyWorld (e_state w1) (sf_store (e_state w))).
Proof. unfold on_events. by rewrite relabel_Ok, zoom_Ok. Qed.

Lemma serves_write {A} step tell (m : M safety_store safety_error A) failed next :
  refines step m → (∀ e, 300 ≤ an_status (failed e)) → (∀ a, follows tell (next a)) →
  serves step tell (answering (on_safety m) failed next).
Proof.
  intros Hm Hf Hn w w' res. unfold answering, attempt, mbind, M_bind. rewrite on_safety_run.
  specialize (Hm (mkEnv (e_faults w) (sf_store (e_state w)))) as [H1 H2]. destruct (m _) as [w1 [a|e]]; cbn in *.
  - intros [E Hok]%Hn. cbn in E, Hok. rewrite E in Hok |- *. split; [done|]. intros a' Ha Hs. split; [by apply (H2 a)|]. by apply Hok.
  - intros [= <- <-]. split; [done|]. intros a [= <-] Hs. specialize (Hf (SfStore e)). lia.
Qed.

Lemma follows_read {A} tell (P : safety_db → A → Prop) (m : M safety_store safety_error A) failed next :
  (∀ w, Safety.tables (e_state (m w).1) = Safety.tables (e_state w)) →
  (∀ w w' a, m w = (w', Ok a) → P (Safety.tables (e_state w)) a) → (∀ e, 300 ≤ an_status (failed e)) →
  (∀ a, follows (λ d now b new, P d a → tell d now b new) (next a)) →
  follows tell (answering (on_safety m) failed next).
Proof.
  intros Hq HP Hf Hn w w' res. unfold answering, attempt, mbind, M_bind. rewrite on_safety_run.
  specialize (Hq (mkEnv (e_faults w) (sf_store (e_state w)))). specialize (HP (mkEnv (e_faults w) (sf_store (e_state w)))).
  destruct (m _) as [w1 [a|e]]; cbn in *.
  - intros [E Hok]%Hn. cbn in E, Hok. rewrite E, Hq in Hok |- *. split; [done|]. intros a' Ha Hs.
    destruct (Hok a' Ha Hs) as (new & Hnew & Ht). exists new. split; [done|]. by eapply Ht, HP.
  - intros [= <- <-]. split; [done|]. intros a [= <-] Hs. specialize (Hf (SfStore e)). lia.
Qed.
Lemma follows_announcing tell et id fields cl message ok :
  (∀ d now new, announced_on cfg et id (POther (fields now)) safety_headers new → tell d now (an_body ok) new) →
  follows tell (announcing uuid cfg et id fields cl message ok).
Proof.
  intros Ht w w' res. unfold announcing. unfold gets. erewrite M_bind_run by reflexivity. cbn beta.
  unfold answering, attempt, mbind, M_bind.
  destruct (on_events _ w) as [w1 [[]|e]] eqn:E.
  - apply on_events_Ok in E as (w2 & E & ->). apply publish_announces in E as (new & Hnew & Ha).
    intros [= <- <-]. split; [done|]. intros a [= <-] _. exists new. split; [exact Hnew|]. by apply Ht.
  - intros [= <- <-]. split; [|intros a [= <-]; by vm_compute].
    unfold on_events, relabel, zoom in E. destruct (PublishSignedEnvelope _ _ _ _ _ _ _ _ _) as [w2 [?|?]]; simplify_eq; done.
Qed.
Lemma refines_undiscard {A} step (m : M safety_store safety_error A) : refines step (m ≫= λ _, mret tt) → refines step m.
Proof.
  intros Hm w. specialize (Hm w). unfold mbind, M_bind in Hm. destruct (m w) as [w1 [a|e]]; cbn in *; [|naive_solver].
  destruct Hm as [H1 H2]. split; [done|]. intros _ _. by apply (H2 tt).
Qed.

(** The guards before the call. *)
Section guards.
Context (step : safety_db → safety_db → Prop) (tell : safety_db → Z → safety_body → list message → Prop).
Lemma serves_principal p next : serves step tell (next p) → serves step tell (safetyPrincipal (Some p) next).
Proof.
  intros Hn. unfold safetyPrincipal, principalOrFail. destruct (PrincipalFrom _) as [q|] eqn:E; [|by apply serves_refusal].
  apply PrincipalFrom_id in E as ->. destruct (negb _); [by apply serves_refusal|done].
Qed.
Lemma serves_wired wired next : serves step tell next → serves step tell (publisherReady wired next).
Proof. intros Hn. destruct wired; [done|by apply serves_refusal]. Qed.
Lemma serves_path id next : serves step tell next → serves step tell (safetyPathID id next).
Proof. intros Hn. unfold safetyPathID. destruct (safetyIDPattern id); [done|by apply serves_refusal]. Qed.
Lemma serves_required b message next : serves step tell next → serves step tell (required b message next).
Proof. intros Hn. destruct b; [done|by apply serves_refusal]. Qed.
End guards.

(** Reads write nothing. *)
Abbreviation unchanged := (λ d d' : safety_db, d' = d).
Lemma read_select {A} t (f : safety_db → A) : refines unchanged (WithTenant t (select f)).
Proof. apply WithTenant_refines. intros w w' a [E _]%select_Ok. by rewrite E. Qed.
Lemma read_row {A} t (f : safety_db → option A) : refines unchanged (WithTenant t (select_row f)).
Proof. apply WithTenant_refines. intros w w' a [E _]%select_row_Ok. by rewrite E. Qed.
Lemma read_row_Some {A} t (f : safety_db → option A) w w' a :
  WithTenant t (select_row f) w = (w', Ok a) → f (Safety.tables (e_state w)) = Some a.
Proof.
  intros E. destruct (WithTenant_run t (select_row f) w) as (w1 & w2 & r & H1 & H2 & _ & H4). rewrite E in H4.
  destruct (H4 a eq_refl) as [-> _]. apply select_row_Ok in H2 as [_ H2]. by rewrite <- H1.
Qed.
Lemma refines_unchanged {A} (m : M safety_store safety_error A) : refines unchanged m → ∀ w, Safety.tables (e_state (m w).1) = Safety.tables (e_state w).
Proof. intros Hm w. by destruct (Hm w) as [[?|?] _]. Qed.
Lemma read_chain t id : refines unchanged (VerifyEvidenceChain id_le t id).
Proof.
  intros w. pose proof (read_select t (evidence_in_order id_le t id) w) as Hw. unfold VerifyEvidenceChain, mbind, M_bind.
  change (ListEvidence id_le t id) with (WithTenant t (select (evidence_in_order id_le t id))).
  destruct (WithTenant t _ w) as [w1 [a|e]]; cbn in *; [|naive_solver]. destruct Hw as [H1 H2]. split; [done|]. intros _ _. by eapply H2.
Qed.

(** ** Every route *)

Ltac refusals := let e := fresh in intros e; try done; by destruct e as [[]|].
Ltac guarded := apply serves_principal; repeat (first [apply serves_wired|apply serves_path|apply serves_required]; cbn [decodeBody]).
Ltac reading := guarded; apply serves_write; [first [apply read_select|apply read_row]|refusals|intros ?; by apply follows_ret].
Ltac written :=
  apply serves_write;
  [match goal with |- refines (λ d d', safety_step _ _ ?now ?op d d') _ =>
     first [exact (run_op_refines item_codes id_le now op)|apply refines_undiscard; exact (run_op_refines item_codes id_le now op)] end
  |refusals|intros ?].
Ltac announced := apply follows_announcing; by intros ???.

Lemma dispatch_serves wired tx_now p r :
  serves (safety_request_step tx_now p r) (said p r) (safety_dispatch uuid cfg item_codes by_regime_version id_le wired tx_now r (Some p)).
Proof.
  unfold safety_request_step. destruct r; cbn [safety_dispatch safety_op_of]; try (destruct body as [| |b]).
  all: try (by guarded; apply serves_refusal).
  all: try reading.
  all: guarded.
  - destruct (ct_Codes b) as [[|c codes]|]; [by apply serves_refusal| |by apply serves_refusal].
    apply serves_required. written. by apply follows_ret.
  - written. announced.
  - destruct (_ && _); [by apply serves_refusal|]. written. announced.
  - written. by apply follows_ret.
  - destruct (_ && _); [by apply serves_refusal|]. written. by apply follows_ret.
  - written. announced.
  - written. announced.
  - written. eapply (follows_read _ (λ d row, sar_incidents d !! id = Some row)); [apply refines_unchanged, read_row| |refusals|].
    + intros w w' row [Hr _]%read_row_Some%lookup_visible_Some. exact Hr.
    + intros row. apply follows_announcing. intros d now new Ha Hr. by exists row.
  - written. by apply follows_ret.
  - written. by apply follows_ret.
  - written. announced.
  - written. announced.
  - written. eapply (follows_read _ (λ d row, investigation_cases d !! id = Some row)); [apply refines_unchanged, read_row| |refusals|].
    + intros w w' row [Hr _]%read_row_Some%lookup_visible_Some. exact Hr.
    + intros row. apply follows_announcing. intros d now new Ha Hr. by exists row.
  - apply serves_write; [apply read_select|refusals|intros rows].
    eapply (follows_read _ (λ _ _, True)); [apply refines_unchanged, read_chain|done|refusals|]. intros valid. by apply follows_ret.
  - written. by apply follows_ret.
  - written. by apply follows_ret.
  - written. by apply follows_ret.
Qed.

(** The routes whose handler calls the publisher. *)
Definition publishes (r : safety_request) : bool :=
  match r with
  | PostInspection _ | PostInspectionTransition _ _ | PostSar _ | PostSarTransition _ _ | PostTasking _ _
  | PostCase _ | PostCaseTransition _ _ | PostEvidence _ _ => true
  | _ => false
  end.

(** C8: What an answer below 300 promises.  On every route, the step of the lifecycle
    specification that the request stands for, by its principal and in its tenant, is in the
    tables.  And on the routes whose handler calls the publisher (creation and transitions of
    inspections, SAR incidents and cases, tasking and evidence), a signed envelope with the
    SAFETY priority that names the principal and carries the row of the answer (the incident
    or case the row belongs to) is new on the event topic. *)
Theorem safety_answers_announced wired tx_now p r w w' a :
  safety_dispatch uuid cfg item_codes by_regime_version id_le wired tx_now r (Some p) w = (w', Ok a) → an_status a < 300 →
  safety_request_step tx_now p r (ledger w) (ledger w') ∧
  (publishes r = true → ∃ new, topic w' = topic w ++ new ∧ said p r (ledger w') (clock w) (an_body a) new).
Proof. intros E Ha. destruct (proj2 (dispatch_serves wired tx_now p r w w' (Ok a) E) a eq_refl Ha). by split. Qed.

(** The mutations the package comment counts in and no handler announces: checklists,
    deficiencies, transitions of taskings, the communications log, findings and
    recommendations are answered with success while the event topic stays as it was. *)
Lemma other_routes_are_silent wired tx_now p r w w' a :
  publishes r = false →
  safety_dispatch uuid cfg item_codes by_regime_version id_le wired tx_now r (Some p) w = (w', Ok a) → an_status a < 300 →
  topic w' = topic w.
Proof.
  intros Hr E Ha. destruct (proj2 (dispatch_serves wired tx_now p r w w' (Ok a) E) a eq_refl Ha) as [_ (new & -> & Hs)].
  assert (new = []) as ->; [|apply app_nil_r]. destruct r; try discriminate Hr; exact Hs.
Qed.

(** ** Who stands behind a row *)

Inductive safety_event := SafetyEvent (outcome : result auth_error Principal) (wired : bool) (tx_now : Z) (r : safety_request).
Definition safety_react (ev : safety_event) (w : env safety_world) : env safety_world :=
  let '(SafetyEvent outcome wired tx_now r) := ev in
  match safety_handler uuid cfg item_codes by_regime_version id_le outcome wired tx_now r with Served m => (m w).1 | _ => w end.
Definition safety_serve (evs : list safety_event) (w : env safety_world) : env safety_world := fold_left (λ w ev, safety_react ev w) evs w.

(** The actions the checker's role is asked for. *)
Definition checker_gate (p : Principal) (r : safety_request) : bool :=
  match r with
  | PostInspectionTransition _ (Body b) => negb (String.eqb (tq_Action b) "release") || checker_role p
  | PostDeficiencyTransition _ (Body b) => negb (String.eqb (tq_Action b) "verify") || checker_role p
  | _ => true
  end.
(** [p] sent [r], is cleared, and holds the roles the request takes. *)
Definition asked (evs : list safety_event) (p : Principal) (r : safety_request) : Prop :=
  (∃ wired tx_now, SafetyEvent (Ok p) wired tx_now r ∈ evs) ∧ existsb (HasRole p) (safety_roles r) = true ∧
  restricted_clearance p = true ∧ checker_gate p r = true.

Lemma dispatch_guarded wired tx_now r p :
  ∃ next, safety_dispatch uuid cfg item_codes by_regime_version id_le wired tx_now r (Some p) = safetyPrincipal (Some p) next.
Proof. destruct r; eexists; reflexivity. Qed.
Lemma ungated_refused wired tx_now r p w :
  restricted_clearance p && checker_gate p r = false →
  ledger (safety_dispatch uuid cfg item_codes by_regime_version id_le wired tx_now r (Some p) w).1 = ledger w.
Proof.
  destruct (restricted_clearance p) eqn:Hc; cbn [andb].
  - intros Hg. unfold checker_gate in Hg.
    destruct r; try discriminate Hg; destruct body as [| |b]; try discriminate Hg; apply orb_false_iff in Hg as [Ha Hr];
      apply negb_false_iff in Ha; cbn [safety_dispatch];
      unfold transitionInspection, transitionDeficiency, safetyPrincipal, principalOrFail, safetyPathID, decodeBody;
      destruct (PrincipalFrom _) as [q|] eqn:E; try done; apply PrincipalFrom_id in E as ->; rewrite Hc, Ha, Hr; cbn [negb andb];
      destruct (safetyIDPattern id); try done; by destruct wired.
  - intros _. destruct (dispatch_guarded wired tx_now r p) as [next ->]. unfold safetyPrincipal, principalOrFail.
    destruct (PrincipalFrom _) as [q|] eqn:E; [|done]. apply PrincipalFrom_id in E as ->. by rewrite Hc.
Qed.

(** One event leaves the tables, or makes the step of a request its principal may send. *)
Lemma react_steps ev evs w : ev ∈ evs →
  ledger (safety_react ev w) = ledger w ∨
  ∃ p r op now, asked evs p r ∧ safety_op_of p r = Some op ∧ safety_step item_codes id_le now op (ledger w) (ledger (safety_react ev w)).
Proof.
  intros Hin. destruct ev as [[p|e] wired tx_now r]; cbn [safety_react]; [|by left].
  unfold safety_handler, Middleware, RequireRoles. destruct (PrincipalFrom (Some p)) as [q|] eqn:E; [|by left].
  apply PrincipalFrom_id in E as ->. destruct (existsb _ _) eqn:Hr; [|by left].
  destruct (restricted_clearance p && checker_gate p r) eqn:Hg; [|left; by apply ungated_refused].
  apply andb_true_iff in Hg as [Hc Hg].
  destruct (safety_dispatch _ _ _ _ _ _ _ _ _ w) as [w' res] eqn:E. destruct (dispatch_serves wired tx_now p r w w' res E) as [[H1|H1] _]; [by left|].
  unfold safety_request_step in H1. destruct (safety_op_of p r) as [op|] eqn:Ho; [|by left].
  right. exists p, r, op, tx_now. split_and!; [|done..]. split_and!; try done. by exists wired, tx_now.
Qed.

Definition asked_inspection (evs : list safety_event) (id action : string) (r : InspectionRow) (actor : string) : Prop :=
  ∃ p b, asked evs p (PostInspectionTransition id (Body b)) ∧ tq_Action b = action ∧ Subject p = actor ∧ Auth.TenantID p = Inspection.TenantID r.
Definition asked_deficiency (evs : list safety_event) (id action actor : string) : Prop :=
  ∃ p b, asked evs p (PostDeficiencyTransition id (Body b)) ∧ tq_Action b = action ∧ Subject p = actor.
Record attributed (evs : list safety_event) (d : safety_db) : Prop := mkAttributed {
  at_inspections : map_Forall (λ id r,
    (∀ a, Inspection.DetainedBy r = Some a → asked_inspection evs id "detain" r a) ∧
    (∀ a, Inspection.ReleasedBy r = Some a → asked_inspection evs id "release" r a)) (safety_inspections d);
  at_deficiencies : map_Forall (λ id x,
    (∀ a, Deficiency.RectifiedBy x = Some a → asked_deficiency evs id "rectify" a) ∧
    (∀ a, Deficiency.VerifiedBy x = Some a → asked_deficiency evs id "verify" a)) (safety_inspection_deficiencies d);
}.
Lemma map_Forall_alter_key {A} (P : string → A → Prop) (m : gmap string A) id q r :
  m !! id = Some r → P id (q r) → map_Forall P m → map_Forall P (alter q id m).
Proof.
  intros Hr Hq Hm k x. destruct (decide (k = id)) as [->|Hne].
  - rewrite lookup_alter_eq, Hr. by intros [= <-].
  - rewrite lookup_alter_ne by done. apply Hm.
Qed.
Lemma step_attributed evs p r op now d d' :
  asked evs p r → safety_op_of p r = Some op → safety_step item_codes id_le now op d d' → attributed evs d → attributed evs d'.
Proof.
  intros Ha Ho Hstep [H1 H2]. destruct Hstep; try (by split; [exact H1|exact H2]);
    destruct r; try (destruct body); cbn in Ho; try discriminate Ho; simplify_eq.
  - split; cbn; [|done]. apply map_Forall_insert_2; [|done]. by split.
  - split; cbn; [|done]. eapply map_Forall_alter_key; [done| |done].
    match goal with H : safety_inspections _ !! _ = Some _ |- _ => destruct (H1 _ _ H) as [G1 G2] end.
    match goal with H : inspection_move _ _ _ _ _ _ _ _ |- _ => inversion H; subst end; (split; [|try exact G2]); try exact G1;
      intros a' [= <-]; by exists p, b.
  - split; cbn; [done|]. apply map_Forall_insert_2; [|done]. by split.
  - split; cbn; [done|]. eapply map_Forall_alter_key; [done| |done].
    match goal with H : safety_inspection_deficiencies _ !! _ = Some _ |- _ => destruct (H2 _ _ H) as [G1 G2] end.
    match goal with H : deficiency_move _ _ _ _ _ |- _ => inversion H; subst end; (split; [|try exact G2]); try exact G1;
      intros a' [= <-]; by exists p, b.
Qed.
Lemma serve_invariant all evs w :
  evs ⊆ all → rows_ok (ledger w) → attributed all (ledger w) →
  rows_ok (ledger (safety_serve evs w)) ∧ attributed all (ledger (safety_serve evs w)).
Proof.
  revert w. induction evs as [|ev evs IH]; intros w Hs Hw Ha; [done|].
  change (safety_serve (ev :: evs) w) with (safety_serve evs (safety_react ev w)).
  destruct (react_steps ev all w) as [E|(p & r & op & now & Hp & Ho & Hstep)]; [set_solver| |].
  - apply IH; [set_solver|..]; by rewrite E.
  - apply IH; [set_solver|by eapply step_rows_ok|by eapply step_attributed].
Qed.
Lemma asked_checker evs p r : asked evs p r → checker_gate p r = true.
Proof. by intros (_ & _ & _ & ?). Qed.

(** C7: A release takes two principals, one of them a checker, over HTTP: after any requests
    on empty tables, with the publisher wired or not and under any faults, a released
    inspection was detained on the request of a principal of its tenant, and released on the
    request of another one, who holds the checker's or the administrator's role; both are
    cleared for RESTRICTED.  A verified deficiency was rectified on the request of one
    principal and verified on that of another who holds such a role. *)
Theorem release_takes_a_checker evs faults pipe :
  let d := ledger (safety_serve evs (mkEnv faults (mkSafetyWorld pipe empty_store))) in
  map_Forall (λ id r, ∀ c, Inspection.ReleasedBy r = Some c →
    ∃ a detainer releaser nd nr, Inspection.DetainedBy r = Some a ∧ Subject detainer = a ∧ Subject releaser = c ∧ a ≠ c ∧
      asked evs detainer (PostInspectionTransition id (Body nd)) ∧ tq_Action nd = "detain" ∧
      asked evs releaser (PostInspectionTransition id (Body nr)) ∧ tq_Action nr = "release" ∧ checker_role releaser = true ∧
      Auth.TenantID detainer = Inspection.TenantID r ∧ Auth.TenantID releaser = Inspection.TenantID r) (safety_inspections d) ∧
  map_Forall (λ id x, ∀ c, Deficiency.VerifiedBy x = Some c →
    ∃ a rectifier verifier na nv, Deficiency.RectifiedBy x = Some a ∧ Subject rectifier = a ∧ Subject verifier = c ∧ a ≠ c ∧
      asked evs rectifier (PostDeficiencyTransition id (Body na)) ∧ tq_Action na = "rectify" ∧
      asked evs verifier (PostDeficiencyTransition id (Body nv)) ∧ tq_Action nv = "verify" ∧ checker_role verifier = true)
    (safety_inspection_deficiencies d).
Proof.
  intros d. destruct (serve_invariant evs evs (mkEnv faults (mkSafetyWorld pipe empty_store))) as [[Hi Hd _ _ _ _] [Ai Ad]];
    [done|split; apply map_Forall_empty|split; apply map_Forall_empty|]. fold d in Hi, Hd, Ai, Ad. split.
  - intros id r Hr c Hc. destruct (Hi id r Hr) as (_ & _ & _ & _ & _ & Hl). destruct (Hl c Hc) as (a & Ha & Hne & _).
    destruct (Ai id r Hr) as [A1 A2]. destruct (A1 a Ha) as (p1 & b1 & K1 & E1 & S1 & T1), (A2 c Hc) as (p2 & b2 & K2 & E2 & S2 & T2).
    pose proof (asked_checker _ _ _ K2) as Hg. cbn in Hg. rewrite E2 in Hg. exists a, p1, p2, b1, b2. by split_and!.
  - intros id x Hx c Hc. destruct (Hd id x Hx) as (_ & _ & Hl). destruct (Hl c Hc) as (a & Ha & Hne).
    destruct (Ad id x Hx) as [A1 A2]. destruct (A1 a Ha) as (p1 & b1 & K1 & E1 & S1), (A2 c Hc) as (p2 & b2 & K2 & E2 & S2).
    pose proof (asked_checker _ _ _ K2) as Hg. cbn in Hg. rewrite E2 in Hg. exists a, p1, p2, b1, b2. by split_and!.
Qed.
End props.

(** ** The theorems at work *)

Module SafetySamples.
Definition by_version (a b : ChecklistTemplateRow) : Prop := Checklist.Version a ≤ Checklist.Version b.
#[export] Instance by_version_dec a b : Decision (by_version a b) := decide (Checklist.Version a ≤ Checklist.Version b).
Definition inspector : Principal := mkPrincipal "inspector" {["geo-inspector"]} "RESTRICTED" "tenant-a".
Definition checker : Principal := mkPrincipal "checker" {["geo-inspection-checker"]} "SECRET" "tenant-a".
Definition reader : Principal := mkPrincipal "reader" {["geo-reader"]} "RESTRICTED" "tenant-a".
Definition send (wired : bool) (now : Z) (r : safety_request) (p : Principal) : M safety_world safety_fault (answer safety_body) :=
  safety_dispatch demo_uuid demo_cfg (λ _, ["FIRE-1"]) by_version str_le wired now r (Some p).
Definition move (action note : string) : http_body transitionRequest := Body (mkTransitionRequest action note "").
Definition ev (p : Principal) (now : Z) (r : safety_request) : safety_event := SafetyEvent (Ok p) true now r.
Definition detention_requests : list safety_event :=
  [ev inspector 1 (PostTemplate (Body (mkTemplateRequest "psc-1" "PSC" 1 "Port state control" "[..]" (Some ["FIRE-1"]))));
   ev inspector 2 (PostInspection (Body (mkInspectionRequest "insp-1" "PSC" "psc-1" "vessel-1" "NGLOS" "RESTRICTED")));
   ev inspector 3 (PostInspectionTransition "insp-1" (move "start" ""));
   ev inspector 4 (PostDeficiency "insp-1" (Body (mkDeficiencyRequest "def-1" "FIRE-1" "fire pump" "CRITICAL" None)));
   ev inspector 5 (PostInspectionTransition "insp-1" (move "detain" "fire pump inoperative"));
   ev inspector 6 (PostInspectionTransition "insp-1" (move "rectify" ""));
   ev inspector 7 (PostDeficiencyTransition "def-1" (move "rectify" ""))].
Definition rest : list safety_event :=
  [ (* refused: the inspector does not hold the checker's role *)
   ev inspector 8 (PostDeficiencyTransition "def-1" (move "verify" ""));
   ev inspector 8 (PostInspectionTransition "insp-1" (move "release" ""));
   (* refused: the deficiency is not verified yet *)
   ev checker 8 (PostInspectionTransition "insp-1" (move "release" ""));
   ev checker 9 (PostDeficiencyTransition "def-1" (move "verify" ""));
   ev checker 10 (PostInspectionTransition "insp-1" (move "release" ""))].
Definition serving : list safety_event → env safety_world → env safety_world :=
  safety_serve demo_uuid demo_cfg (λ _, ["FIRE-1"]) by_version str_le.
Definition rectifying : env safety_world := serving detention_requests (mkEnv [] (mkSafetyWorld demo_world empty_store)).
Definition inspection_of (w : env safety_world) : option InspectionRow :=
  safety_inspections (Safety.tables (sf_store (e_state w))) !! "insp-1".

Example released_over_http :
  let w := serving rest rectifying in
  (λ r, (Inspection.State r, Inspection.DetainedBy r, Inspection.ReleasedBy r)) <$> inspection_of w
    = Some ("RELEASED", Some "inspector", Some "checker") ∧
  length (w_kafka (sf_pipeline (e_state w))) = 5%nat.
Proof. vm_compute. auto. Qed.

(** The detention of the sample, as one request. *)
Definition underway : env safety_world := serving (take 4 detention_requests) (mkEnv [] (mkSafetyWorld demo_world empty_store)).
Definition detain_request : safety_request := PostInspectionTransition "insp-1" (move "detain" "fire pump inoperative").
Definition detained : env safety_world * result safety_fault (answer safety_body) := send true 5 detain_request inspector underway.
Definition detained_row : InspectionRow :=
  mkInspectionRow "insp-1" "tenant-a" "PSC" "psc-1" "vessel-1" "NGLOS" "RESTRICTED" "DETAINED" "inspector" 2 (Some 3) None
    (Some "inspector") (Some 5) (Some "fire pump inoperative") None None None None None None.

(** The publication fails after the transition is durable: the vessel is detained, nobody is
    told, and the retry is refused without telling either. *)
Example unannounced_detention :
  let w := underway in let detain := send true 5 detain_request inspector in
  let '(w1, r1) := detain (mkEnv (replicate 6 NoFault ++ [FailBefore; FailBefore]) (e_state w)) in
  let '(w2, r2) := detain (mkEnv [] (e_state w1)) in
  an_status <$> r1 = Ok 500 ∧ an_status <$> r2 = Ok 409 ∧
  Inspection.State <$> inspection_of w2 = Some "DETAINED" ∧
  w_kafka (sf_pipeline (e_state w2)) = w_kafka (sf_pipeline (e_state w)).
Proof. vm_compute. auto. Qed.

(** The reads ask for RESTRICTED only: a reader at that level is shown a SECRET case. *)
Example secret_case_is_shown :
  let investigator := mkPrincipal "lead" {["geo-investigator"]} "SECRET" "tenant-a" in
  let w := serving [ev investigator 1 (PostCase (Body (mkCaseRequest "case-1" "COLLISION" "SERIOUS" "vessel-1" second "SECRET" None None)))]
             (mkEnv [] (mkSafetyWorld demo_world empty_store)) in
  (λ a, match an_body a with CaseBody row => Case.Classification row | _ => "" end) <$> (send true 2 (GetCase "case-1") reader w).2
    = Ok "SECRET".
Proof. vm_compute. auto. Qed.
End SafetySamples.
Import SafetySamples.

Lemma safety_answers_announced_witness :
  ∃ row new, detained.2 = Ok (mkAnswer StatusOK (InspectionBody row)) ∧
    safety_request_step (λ _, ["FIRE-1"]) str_le 5 inspector detain_request (Safety.tables (sf_store (e_state underway)))
      (Safety.tables (sf_store (e_state detained.1))) ∧
    w_kafka (sf_pipeline (e_state detained.1)) = w_kafka (sf_pipeline (e_state underway)) ++ new ∧
    announced_on demo_cfg EventSafetyInspection "insp-1"
      (POther (inspection_fields row "inspector" "detain" "fire pump inoperative" (1000 * second))) safety_headers new.
Proof.
  destruct (safety_answers_announced demo_uuid demo_cfg (λ _, ["FIRE-1"]) by_version str_le true 5 inspector detain_request underway
              detained.1 (mkAnswer StatusOK (InspectionBody detained_row))) as [Hs Hn];
    [vm_compute; reflexivity|vm_compute; reflexivity|]. destruct (Hn eq_refl) as (new & Hnew & Hsaid). clear Hn. rename Hnew into Hn.
  exists detained_row, new. split; [vm_compute; reflexivity|]. split; [exact Hs|]. split; [exact Hn|].
  change (Subject inspector) with "inspector" in Hsaid. exact Hsaid.
Defined.
