(* ===== verification/Mrv.v ===== *)
(** * MRV emissions arithmetic

    [internal/mrv]: emission factors and the fixed-point CO2 product
    ([factors.go]), the allocation of reported fuel to a voyage window
    ([voyage_emissions.go]), the fixed-point parser and the rating bands of the
    carbon intensity indicator ([cii.go]) and the cross-check of the estimate
    against the reported values ([activity.go]).  Quantities are uint64; [big.Int]
    is [Z]. *)
From S2P Require Import Prelude.

(** ** Factors *)

Record FactorRow := mkFactorRow {
  FactorKey : string;
  Gas : string;
  FactorNano : Z;
  Unit : string;
  SourceCitation : string;
  ValidFrom : Z;
}.

Inductive mrv_error :=
| ErrFactorUnavailable (fuelGrade gas : string)
| FactorIsZero
| FixedPointOverflow.

(** The UTC date of an instant, as a day number. *)
Definition date_of (t : Z) : Z := t / (24 * hour).

(** ORDER BY valid_from DESC LIMIT 1 over the rows of the grade and gas that are
    valid on the date; [ValidFrom] is midnight of a DATE, and (factor_key, gas,
    valid_from) is the primary key. *)
Definition newer_factor (acc : option FactorRow) (r : FactorRow) : option FactorRow :=
  match acc with
  | None => Some r
  | Some a => if ValidFrom a <? ValidFrom r then Some r else Some a
  end.
Definition ResolveFactor (table : list FactorRow) (fuelGrade gas : string) (periodDate : Z) :
  result mrv_error FactorRow :=
  match fold_left newer_factor
          (filter (λ r, FactorKey r = fuelGrade ∧ Gas r = gas ∧ date_of (ValidFrom r) ≤ date_of periodDate) table)
          None with
  | Some row => Ok row
  | None => Err (ErrFactorUnavailable fuelGrade gas)
  end.

Definition CO2MilliTonnes (fuelTonnesMilli factorNano : Z) : result mrv_error Z :=
  if factorNano =? 0 then Err FactorIsZero
  else if (2 ^ 64 - 1) / factorNano <? fuelTonnesMilli then Err FixedPointOverflow
  else Ok (uint64 (fuelTonnesMilli * factorNano) / 1000000000).

(** ** Voyage windows *)

(** [Uint64] of a [big.Int] keeps the low 64 bits of the absolute value; [Div] is
    Euclidean, which on a positive divisor is [Z.div]. *)
Definition allocateOverlap (periodFrom periodTo windowFrom windowTo fuelTonnesMilli : Z) : Z :=
  let start := if periodFrom <? windowFrom then windowFrom else periodFrom in
  let end_ := if windowTo <? periodTo then windowTo else periodTo in
  let overlap := time_Sub end_ start in
  let period := time_Sub periodTo periodFrom in
  if (overlap <=? 0) || (period <=? 0) then 0
  else uint64 (fuelTonnesMilli * overlap / period).

Record FuelRow := mkFuelRow {
  fr_grade : string;
  fr_fuelMilli : Z;
  fr_periodFrom : Z;
  fr_periodTo : Z;
}.

Record VoyageGradeEmissions := mkGradeEmissions {
  FuelGrade : string;
  AllocatedFuelTonnesMilli : Z;
  CO2TonnesMilli : Z;
  ge_FactorNano : Z;
  FactorCitation : string;
}.

Record voyage_totals := mkVoyageTotals {
  (** the grades in the order they first appear, with their aggregates *)
  PerGrade : list VoyageGradeEmissions;
  TotalCO2TonnesMilli : Z;
  vt_AllocatedFuelTonnesMilli : Z;
  FuelReportCount : Z;
}.
Definition no_emissions : voyage_totals := mkVoyageTotals [] 0 0 0.

(** The aggregate of the grade, created by the first row of the grade with that
    row's factor; additions are modulo [2^64]. *)
Fixpoint add_grade (grade : string) (allocated co2 : Z) (factor : FactorRow)
  (l : list VoyageGradeEmissions) : list VoyageGradeEmissions :=
  match l with
  | [] => [mkGradeEmissions grade (uint64 allocated) (uint64 co2) (FactorNano factor) (SourceCitation factor)]
  | g :: l' =>
      if String.eqb (FuelGrade g) grade then
        mkGradeEmissions grade (uint64 (AllocatedFuelTonnesMilli g + allocated))
          (uint64 (CO2TonnesMilli g + co2)) (ge_FactorNano g) (FactorCitation g) :: l'
      else g :: add_grade grade allocated co2 factor l'
  end.

(** The loop over the fuel reports that overlap the window [from, to), with the
    registry it resolves the factors from; whether the driver lets a second query
    run while the rows are being read is not modelled. *)
Fixpoint voyage_loop (table : list FactorRow) (from to : Z) (rows : list FuelRow) (acc : voyage_totals) :
  result mrv_error voyage_totals :=
  match rows with
  | [] => Ok acc
  | r :: rows' =>
      let allocated := allocateOverlap (fr_periodFrom r) (fr_periodTo r) from to (fr_fuelMilli r) in
      if allocated =? 0 then voyage_loop table from to rows' acc
      else
        factor ← ResolveFactor table (fr_grade r) "CO2" (fr_periodTo r);
        co2Milli ← CO2MilliTonnes allocated (FactorNano factor);
        voyage_loop table from to rows'
          (mkVoyageTotals (add_grade (fr_grade r) allocated co2Milli factor (PerGrade acc))
             (uint64 (TotalCO2TonnesMilli acc + co2Milli))
             (uint64 (vt_AllocatedFuelTonnesMilli acc + allocated))
             (FuelReportCount acc + 1))
  end.

(** ** Carbon intensity *)

(** [strings.Cut] at the first point. *)
Fixpoint cut_point (s : string) : string * string * bool :=
  match s with
  | EmptyString => (EmptyString, EmptyString, false)
  | String c s' =>
      if byte_of c =? 46 then (EmptyString, s', true)
      else let '(w, f, h) := cut_point s' in (String c w, f, h)
  end.
(** [strings.Repeat] of the digit zero. *)
Fixpoint zeros (n : nat) : string :=
  match n with O => "" | S n' => String (digit_char 0) (zeros n') end.

Inductive nano_error :=
| NanoEmpty | NanoNegative | NanoNotDecimal | NanoTooManyDigits | NanoWholeInvalid | NanoOverflow.

(** [Sscanf] with [%d] of a non-empty string of digits into a uint64. *)
Definition scan_uint64 (s : string) : option Z :=
  let v := dec_value s in if v <? 2 ^ 64 then Some v else None.

Definition parseNano (raw : string) : result nano_error Z :=
  let text := TrimSpace raw in
  if String.eqb text "" then Err NanoEmpty
  else if HasPrefix text "-" then Err NanoNegative
  else
    let '(whole, fraction, hasFraction) := cut_point text in
    let whole := if String.eqb whole "" then "0" else whole in
    if negb (all_chars is_digit whole) then Err NanoNotDecimal
    else if hasFraction && (9 <? Z.of_nat (String.length fraction)) then Err NanoTooManyDigits
    else
      let fraction := fraction +:+ zeros (9 - String.length fraction) in
      if negb (all_chars is_digit fraction) then Err NanoNotDecimal
      else match scan_uint64 whole with
           | None => Err NanoWholeInvalid
           | Some wholePart =>
               match scan_uint64 fraction with
               | None => Err NanoNotDecimal
               | Some fractionPart =>
                   if (2 ^ 64 - 1 - fractionPart) / 1000000000 <? wholePart then Err NanoOverflow
                   else Ok (uint64 (wholePart * 1000000000 + fractionPart))
               end
           end.

Record CIIShipTypeCfg := mkCIIShipTypeCfg {
  CapacityField : string;
  ReferenceLineANano : string;
  ReferenceLineCNano : string;
  ReductionFactorsZNano : gmap string string;
  RatingBoundariesNano : list string;
  Citation : string;
}.

(** [boundaries[i], _ = parseNano(text)]: an entry that does not parse is zero. *)
Definition nano_or_zero (s : string) : Z := match parseNano s with Ok v => v | Err _ => 0 end.

Fixpoint rate (attainedNano requiredNano : Z) (bands : list (Z * string)) : string :=
  match bands with
  | [] => "E"
  | (multiplier, rating) :: bands' =>
      if attainedNano <=? requiredNano * multiplier / 1000000000 then rating
      else rate attainedNano requiredNano bands'
  end.
Definition ciiRating (attainedNano requiredNano : Z) (entry : CIIShipTypeCfg) : string :=
  rate attainedNano requiredNano (zip (nano_or_zero <$> RatingBoundariesNano entry) ["A"; "B"; "C"; "D"]).

(** The checks of [LoadCIIConfig] on one ship type. *)
Definition z_ok (z : string) : bool :=
  match parseNano z with Ok v => v <? 1000000000 | Err _ => false end.
Fixpoint ascending_from (previous : option Z) (l : list string) : bool :=
  match l with
  | [] => true
  | s :: l' =>
      match parseNano s with
      | Err _ => false
      | Ok v => match previous with
                | Some p => p <? v
                | None => true
                end && ascending_from (Some v) l'
      end
  end.
Definition ship_type_ok (entry : CIIShipTypeCfg) : bool :=
  (String.eqb (CapacityField entry) "DWT" || String.eqb (CapacityField entry) "GT")
  && match parseNano (ReferenceLineANano entry) with Ok _ => true | Err _ => false end
  && match parseNano (ReferenceLineCNano entry) with Ok _ => true | Err _ => false end
  && negb (bool_decide (ReductionFactorsZNano entry = ∅))
  && bool_decide (map_Forall (λ _ z, z_ok z = true) (ReductionFactorsZNano entry))
  && Nat.eqb (length (RatingBoundariesNano entry)) 4
  && ascending_from None (RatingBoundariesNano entry)
  && negb (blank (Citation entry)).

(** ** The cross-check *)

Inductive CrosscheckResult := CrosscheckMatch | CrosscheckDiscrepant | CrosscheckInsufficientCoverage
| CrosscheckNoReportedValues.

Record ActivityEstimate := mkEstimate {
  DistanceNmMilli : Z;
  HoursUnderwayMinutes : Z;
  InsufficientCoverage : bool;
  FixCount : Z;
  InputDigestSha256 : string;
}.

(** [within(reported, estimated)]; the products wrap at 64 bits. *)
Definition within_tolerance (tolerancePermille reported estimated : Z) : bool :=
  if reported =? 0 then estimated =? 0
  else
    let delta := if reported <? estimated then estimated - reported else reported - estimated in
    uint64 (delta * 1000) <=? uint64 (reported * tolerancePermille).

Definition Crosscheck (estimate : ActivityEstimate) (reportedDistanceNmMilli reportedHoursMinutes
  tolerancePermille : Z) : CrosscheckResult :=
  if InsufficientCoverage estimate then CrosscheckInsufficientCoverage
  else if (reportedDistanceNmMilli =? 0) && (reportedHoursMinutes =? 0) then CrosscheckNoReportedValues
  else if within_tolerance tolerancePermille reportedDistanceNmMilli (DistanceNmMilli estimate)
          && within_tolerance tolerancePermille reportedHoursMinutes (HoursUnderwayMinutes estimate)
       then CrosscheckMatch
       else CrosscheckDiscrepant.
