(* ===== verification/MrvProps.v ===== *)
(** * Properties of the MRV arithmetic

    The guarded product is exact, disjoint voyage windows never share out more fuel
    than was reported and complete ones lose less than a milli-tonne each, the
    totals of a voyage balance, fixed-point texts round-trip, and a rating counts
    the bands below the attained value. *)
From S2P Require Import Prelude Mrv.

(** ** The product *)

(** The fixed-point product is computed exactly when it is defined: a zero
    factor and a product beyond 64 bits are refused, and every other product is
    divided without any overflow, rounding down. *)
Theorem CO2MilliTonnes_exact (fuel factor : Z) (Hfuel : is_uint64 fuel) (Hfactor : is_uint64 factor) :
  CO2MilliTonnes fuel factor =
    if decide (factor = 0) then Err FactorIsZero
    else if decide (2 ^ 64 ≤ fuel * factor) then Err FixedPointOverflow
    else Ok (fuel * factor / 1000000000).
Proof.
  unfold is_uint64, CO2MilliTonnes in *. destruct (decide (factor = 0)) as [->|Hne]; [done|].
  destruct (Z.eqb_spec factor 0) as [?|_]; [lia|].
  pose proof (Z.div_mod (2 ^ 64 - 1) factor Hne) as Hdm.
  pose proof (Z.mod_pos_bound (2 ^ 64 - 1) factor ltac:(lia)) as Hm.
  destruct (decide (2 ^ 64 ≤ fuel * factor)) as [Hge|Hlt]; case_match eqn:E; bool_to_prop; try done.
  - exfalso. nia.
  - exfalso. nia.
  - rewrite uint64_id; [done|]. unfold is_uint64. nia.
Qed.

Lemma CO2MilliTonnes_exact_witness :
  is_uint64 12500 ∧ is_uint64 3114000000 ∧
  CO2MilliTonnes 12500 3114000000 =
    (if decide (3114000000 = 0) then Err FactorIsZero
     else if decide (2 ^ 64 ≤ 12500 * 3114000000) then Err FixedPointOverflow
     else Ok (12500 * 3114000000 / 1000000000)) ∧
  CO2MilliTonnes 12500 3114000000 = Ok 38925.
Proof.
  assert (is_uint64 12500) by (unfold is_uint64; lia).
  assert (is_uint64 3114000000) by (unfold is_uint64; lia).
  split_and!; [done|done|by apply CO2MilliTonnes_exact|reflexivity].
Defined.

(** ** Windows *)

Section windows.
(** A fuel report of [fuel] milli-tonnes over a period of less than the 292 years
    a duration can hold. *)
Context (periodFrom periodTo fuel : Z).
Context (Hperiod : periodFrom < periodTo) (Hspan : periodTo - periodFrom < 2 ^ 63) (Hfuel : is_uint64 fuel).

(** The point of the period nearest to [t]. *)
Definition clamp (t : Z) : Z := Z.max periodFrom (Z.min periodTo t).
Definition share (w : Z * Z) : Z := allocateOverlap periodFrom periodTo w.1 w.2 fuel.
Definition overlap (w : Z * Z) : Z := clamp w.2 - clamp w.1.

Lemma clamp_mono a b : a ≤ b → clamp a ≤ clamp b.
Proof. unfold clamp. lia. Qed.

(** The share is the exact proportion of the overlap, rounded down. *)
Lemma share_exact w : w.1 ≤ w.2 → share w = fuel * overlap w / (periodTo - periodFrom).
Proof.
  destruct w as [a b]; simpl. intros Hab. unfold share, allocateOverlap, overlap. simpl.
  unfold is_uint64 in Hfuel.
  set (start := if periodFrom <? a then a else periodFrom).
  set (stop := if b <? periodTo then b else periodTo).
  assert (start = Z.max periodFrom a) as Hs by (unfold start; case_match; bool_to_prop; lia).
  assert (stop = Z.min periodTo b) as He by (unfold stop; case_match; bool_to_prop; lia).
  assert (time_Sub periodTo periodFrom = periodTo - periodFrom) as -> by (unfold time_Sub; lia).
  destruct (decide (stop ≤ start)) as [Hle|Hgt].
  - assert (clamp b - clamp a = 0) as -> by (unfold clamp; lia).
    rewrite Z.mul_0_r, Z.div_0_l by lia.
    assert (time_Sub stop start <=? 0 = true) as -> by (apply Z.leb_le; unfold time_Sub; lia). done.
  - assert (clamp b - clamp a = stop - start) as -> by (unfold clamp; lia).
    assert (time_Sub stop start = stop - start) as -> by (unfold time_Sub; lia).
    case_match eqn:E; [apply orb_true_iff in E; rewrite !Z.leb_le in E; lia|].
    apply uint64_id. unfold is_uint64. split; [apply Z.div_pos; nia|].
    apply Z.le_lt_trans with fuel; [|lia]. apply Z.div_le_upper_bound; nia.
Qed.

Definition sumZ {A} (f : A → Z) (l : list A) : Z := fold_right (λ x acc, f x + acc) 0 l.

(** Windows one after the other, from [t] on: none overlaps another. *)
Fixpoint one_after_other (t : Z) (ws : list (Z * Z)) : Prop :=
  match ws with
  | [] => True
  | w :: ws' => t ≤ w.1 ∧ w.1 ≤ w.2 ∧ one_after_other w.2 ws'
  end.
(** Windows that follow each other without a gap from [t] to [stop]. *)
Fixpoint seamless (t : Z) (ws : list (Z * Z)) (stop : Z) : Prop :=
  match ws with
  | [] => t = stop
  | w :: ws' => w.1 = t ∧ w.1 ≤ w.2 ∧ seamless w.2 ws' stop
  end.

Lemma one_after_other_shares t ws :
  one_after_other t ws →
  (periodTo - periodFrom) * sumZ share ws ≤ fuel * (periodTo - clamp t).
Proof.
  unfold is_uint64 in Hfuel. revert t. induction ws as [|[a b] ws IH]; intros t; simpl.
  - intros _. unfold clamp. nia.
  - intros (Hta & Hab & Hws). specialize (IH b Hws). rewrite share_exact by done.
    unfold overlap. simpl.
    pose proof (Z.mul_div_le (fuel * (clamp b - clamp a)) (periodTo - periodFrom) ltac:(lia)).
    pose proof (clamp_mono t a Hta). nia.
Qed.

Lemma seamless_shares t ws stop :
  seamless t ws stop →
  fuel * (clamp stop - clamp t) ≤
    (periodTo - periodFrom) * sumZ share ws + Z.of_nat (length ws) * (periodTo - periodFrom - 1).
Proof.
  unfold is_uint64 in Hfuel. revert t. induction ws as [|[a b] ws IH]; intros t; simpl.
  - intros ->. lia.
  - intros (-> & Hab & Hws). specialize (IH b Hws). rewrite share_exact by done.
    unfold overlap. simpl.
    pose proof (Z.mod_pos_bound (fuel * (clamp b - clamp t)) (periodTo - periodFrom) ltac:(lia)).
    pose proof (Z.div_mod (fuel * (clamp b - clamp t)) (periodTo - periodFrom) ltac:(lia)). nia.
Qed.
End windows.

(** C40: Fuel is never counted twice.  For a report of a uint64 of milli-tonnes over a period
    of less than the 292 years a duration holds: a window is allocated the fuel in
    proportion to its overlap with the period, rounded down and without overflow; windows
    that follow one another share out at most the fuel of the report; and windows that
    cover its period without a gap lose less than one milli-tonne each to rounding. *)
Theorem windows_share_fuel (periodFrom periodTo fuel t stop : Z) (ws : list (Z * Z))
  (Hperiod : periodFrom < periodTo) (Hspan : periodTo - periodFrom < 2 ^ 63) (Hfuel : is_uint64 fuel) :
  (∀ a b, a ≤ b →
     allocateOverlap periodFrom periodTo a b fuel =
     fuel * (Z.max periodFrom (Z.min periodTo b) - Z.max periodFrom (Z.min periodTo a)) / (periodTo - periodFrom)) ∧
  (one_after_other t ws → sumZ (share periodFrom periodTo fuel) ws ≤ fuel) ∧
  (seamless t ws stop → t ≤ periodFrom → periodTo ≤ stop →
     fuel - Z.of_nat (length ws) < sumZ (share periodFrom periodTo fuel) ws).
Proof.
  split_and!.
  - intros a b Hab. by apply (share_exact periodFrom periodTo fuel Hperiod Hspan Hfuel (a, b)).
  - intros Hw. apply (one_after_other_shares periodFrom periodTo fuel) in Hw; [|done..].
    unfold clamp, is_uint64 in *. nia.
  - intros Hw Ht Hstop. destruct ws as [|w ws]; [simpl in Hw; lia|].
    apply (seamless_shares periodFrom periodTo fuel) in Hw; [|done..].
    assert (clamp periodFrom periodTo stop - clamp periodFrom periodTo t = periodTo - periodFrom) as Hc
      by (unfold clamp; lia).
    rewrite Hc in Hw. set (n := Z.of_nat (length (w :: ws))) in *.
    assert (1 ≤ n) by (unfold n; simpl length; lia).
    set (s := sumZ _ _) in *. clearbody s n. clear Hc. nia.
Qed.

Lemma windows_share_fuel_witness :
  let ws := [(0, 40); (40, 70); (70, 120)] in
  one_after_other 0 ws ∧ seamless 0 ws 120 ∧
  sumZ (share 10 110 1001) ws ≤ 1001 ∧ 1001 - 3 < sumZ (share 10 110 1001) ws.
Proof.
  intros ws.
  assert (one_after_other 0 ws) as H1 by (simpl; lia).
  assert (seamless 0 ws 120) as H2 by (simpl; lia).
  destruct (windows_share_fuel 10 110 1001 0 120 ws) as (_ & Ha & Hb); [lia|lia|unfold is_uint64; lia|].
  split_and!; [exact H1|exact H2|by apply Ha|by apply Hb].
Defined.

(** ** Totals of a voyage *)

Lemma add_grade_sums grade allocated co2 factor l :
  sumZ CO2TonnesMilli (add_grade grade allocated co2 factor l) mod 2 ^ 64
    = (sumZ CO2TonnesMilli l + co2) mod 2 ^ 64 ∧
  sumZ AllocatedFuelTonnesMilli (add_grade grade allocated co2 factor l) mod 2 ^ 64
    = (sumZ AllocatedFuelTonnesMilli l + allocated) mod 2 ^ 64.
Proof.
  unfold uint64. induction l as [|g l [IH1 IH2]]; cbn [add_grade sumZ fold_right].
  - simpl. rewrite !Z.add_0_r. split; apply Z.mod_mod; lia.
  - case_match; cbn [sumZ fold_right CO2TonnesMilli AllocatedFuelTonnesMilli].
    + unfold uint64. rewrite !Z.add_mod_idemp_l by lia. split; f_equal; lia.
    + unfold sumZ in *. rewrite <- Z.add_mod_idemp_r, IH1, <- (Z.add_mod_idemp_r (AllocatedFuelTonnesMilli g)), IH2 by lia.
      rewrite !Z.add_mod_idemp_r by lia. split; f_equal; lia.
Qed.

Lemma add_grade_grades grade allocated co2 factor l :
  FuelGrade <$> add_grade grade allocated co2 factor l
  = if decide (grade ∈ FuelGrade <$> l) then FuelGrade <$> l else (FuelGrade <$> l) ++ [grade].
Proof.
  induction l as [|g l IH]; cbn [add_grade fmap list_fmap]; [done|].
  destruct (String.eqb (FuelGrade g) grade) eqn:E; bool_to_prop.
  - subst. by rewrite decide_True by (left).
  - cbn [fmap list_fmap]. rewrite IH. do 2 case_decide; try done.
    + exfalso. eauto using list_elem_of_further.
    + exfalso. match goal with H : _ ∈ _ :: _ |- _ => apply elem_of_cons in H as [?|?] end; congruence.
Qed.

(** The totals agree with the aggregates per grade, modulo [2^64], and no grade
    is listed twice. *)
Definition balanced (t : voyage_totals) : Prop :=
  TotalCO2TonnesMilli t = sumZ CO2TonnesMilli (PerGrade t) mod 2 ^ 64 ∧
  vt_AllocatedFuelTonnesMilli t = sumZ AllocatedFuelTonnesMilli (PerGrade t) mod 2 ^ 64 ∧
  NoDup (FuelGrade <$> PerGrade t).

Lemma voyage_loop_balanced table from to rows acc t :
  voyage_loop table from to rows acc = Ok t → balanced acc → balanced t.
Proof.
  revert acc. induction rows as [|r rows IH]; intros acc; cbn [voyage_loop]; [by intros [= ->]|].
  case_match; [apply IH|].
  intros (factor & _ & (co2 & _ & Hl)%bind_Ok)%bind_Ok (H1 & H2 & H3).
  apply IH in Hl; [done|]. unfold balanced. cbn [PerGrade TotalCO2TonnesMilli vt_AllocatedFuelTonnesMilli].
  destruct (add_grade_sums (fr_grade r) (allocateOverlap (fr_periodFrom r) (fr_periodTo r) from to (fr_fuelMilli r))
              co2 factor (PerGrade acc)) as [-> ->].
  unfold uint64. rewrite H1, H2, !Z.add_mod_idemp_l by lia. split_and!; [done|done|].
  rewrite add_grade_grades. case_decide; [done|]. apply NoDup_app. split_and!; [done| |apply NoDup_singleton].
  intros x Hx Hg%list_elem_of_singleton. congruence.
Qed.

(** The emissions of a voyage balance: when the computation succeeds, the totals
    are the sums of the aggregates per grade (as 64-bit quantities) and every grade
    is listed once; and it fails closed: a report with an allocated share whose
    grade has no source-cited factor on its last day gives no result at all. *)
Theorem voyage_emissions_balance (table : list FactorRow) (from to : Z) (rows : list FuelRow) :
  (∀ t, voyage_loop table from to rows no_emissions = Ok t → balanced t) ∧
  (∀ r, r ∈ rows → allocateOverlap (fr_periodFrom r) (fr_periodTo r) from to (fr_fuelMilli r) ≠ 0 →
     ResolveFactor table (fr_grade r) "CO2" (fr_periodTo r) = Err (ErrFactorUnavailable (fr_grade r) "CO2") →
     ∃ e, voyage_loop table from to rows no_emissions = Err e).
Proof.
  split.
  - intros t Ht. eapply voyage_loop_balanced; [exact Ht|]. unfold balanced. simpl. split_and!; [done|done|constructor].
  - generalize no_emissions. induction rows as [|r' rows IH]; intros acc r Hr Ha Hf; [by apply not_elem_of_nil in Hr|].
    cbn [voyage_loop]. apply elem_of_cons in Hr as [<-|Hr].
    + case_match eqn:E; bool_to_prop; [done|]. rewrite Hf. simpl. eauto.
    + case_match; [by eapply IH|].
      destruct (ResolveFactor table (fr_grade r') "CO2" (fr_periodTo r')); simpl; [|eauto].
      destruct (CO2MilliTonnes _ _); simpl; [by eapply IH|eauto].
Qed.

(** ** Fixed-point texts *)

(** The canonical decimal text of a fixed-point value: whole part, point, nine
    digits. *)
Definition nano_text (n : Z) : string :=
  show_dec (n / 1000000000) +:+ "." +:+ show_pad 9 (n mod 1000000000).

Lemma is_digit_cases c : is_digit c = true → ∃ d, 0 ≤ d < 10 ∧ c = digit_char d.
Proof.
  unfold is_digit. intros H. bool_to_prop. exists (byte_of c - 48). split; [lia|].
  unfold digit_char. replace (48 + (byte_of c - 48)) with (byte_of c) by lia. symmetry. apply char_of_byte_of.
Qed.

(** A text that starts and ends with a digit has nothing to trim. *)
Lemma TrimSpace_digits c s d m :
  is_digit c = true → is_digit d = true → String c s = m +:+ String d "" → TrimSpace (String c s) = String c s.
Proof. intros Hc Hd. apply TrimSpace_solid; by apply digit_solid. Qed.

Lemma cut_point_digits w f : all_chars is_digit w = true → cut_point (w +:+ "." +:+ f) = (w, f, true).
Proof.
  induction w as [|c w IH]; intros Hw; [done|]. apply andb_true_iff in Hw as [Hc Hw].
  simpl. unfold is_digit in Hc. bool_to_prop. destruct (Z.eqb_spec (byte_of c) 46); [lia|].
  by rewrite (IH Hw).
Qed.

Lemma show_pad_snoc n z : ∃ s d, show_pad (S n) z = s +:+ String (digit_char d) "" ∧ 0 ≤ d < 10.
Proof. exists (show_pad n (z / 10)), (z mod 10). split; [done|]. apply Z.mod_pos_bound. lia. Qed.

(** Fixed-point configuration values survive the trip through their text: the
    canonical text of every value a uint64 can hold is read back exactly. *)
Theorem parseNano_roundtrip (n : Z) (Hn : is_uint64 n) : parseNano (nano_text n) = Ok n.
Proof.
  unfold is_uint64 in Hn.
  pose proof (Z.div_mod n 1000000000 ltac:(lia)) as Hdm.
  pose proof (Z.mod_pos_bound n 1000000000 ltac:(lia)) as Hf.
  pose proof (Z.div_pos n 1000000000 ltac:(lia) ltac:(lia)) as Hw.
  destruct (show_dec_spec (n / 1000000000) Hw) as [Hwv Hwd].
  destruct (show_pad_spec 9 (n mod 1000000000)) as (Hfv & Hfd & Hfl); [simpl; lia|].
  destruct (show_pad_snoc 8 (n mod 1000000000)) as (s & d & Hs & Hd).
  pose proof (show_dec_nonempty (n / 1000000000)) as Hne.
  assert (TrimSpace (nano_text n) = nano_text n) as Htrim.
  { unfold nano_text. destruct (show_dec (n / 1000000000)) as [|c w]; [done|].
    apply andb_true_iff in Hwd as [Hc _].
    apply (TrimSpace_digits c _ (digit_char d) (String c w +:+ "." +:+ s)); [done|by apply is_digit_digit_char|].
    rewrite Hs, !string_app_assoc. done. }
  unfold parseNano. rewrite Htrim. unfold nano_text, HasPrefix.
  rewrite digits_no_minus, cut_point_digits by done.
  destruct (show_dec (n / 1000000000)) as [|c w] eqn:Ew; [done|].
  cbn [String.app String.eqb]. rewrite Hwd, Hfl. cbn [negb andb zeros Nat.sub].
  rewrite string_app_nil_r, Hfd. unfold scan_uint64. rewrite Hwv, Hfv.
  change (String.eqb (String c w +:+ "." +:+ show_pad 9 (n mod 1000000000)) "") with false.
  change (9 <? Z.of_nat 9) with false. cbn [negb].
  assert (n / 1000000000 <? 2 ^ 64 = true) as -> by (apply Z.ltb_lt; lia).
  assert (n mod 1000000000 <? 2 ^ 64 = true) as -> by (apply Z.ltb_lt; lia).
  assert ((2 ^ 64 - 1 - n mod 1000000000) / 1000000000 <? n / 1000000000 = false) as ->.
  { apply Z.ltb_ge. apply Z.div_le_lower_bound; lia. }
  rewrite uint64_id; [f_equal; lia|]. unfold is_uint64. lia.
Qed.

Lemma parseNano_roundtrip_witness :
  is_uint64 474000000 ∧ nano_text 474000000 = "0.474000000" ∧ parseNano (nano_text 474000000) = Ok 474000000.
Proof.
  assert (is_uint64 474000000) as H by (unfold is_uint64; lia).
  split_and!; [exact H|vm_compute; reflexivity|exact (parseNano_roundtrip 474000000 H)].
Defined.

(** ** Ratings *)

(** The number of bands whose upper boundary lies below the attained value. *)
Definition bands_below (attainedNano requiredNano : Z) (multipliers : list Z) : nat :=
  length (filter (λ m, requiredNano * m / 1000000000 < attainedNano) multipliers).

Lemma ascending_parses previous l :
  ascending_from previous l = true → StronglySorted Z.le (nano_or_zero <$> l)
    ∧ Forall (λ v, ∀ p, previous = Some p → p < v) (nano_or_zero <$> l).
Proof.
  revert previous. induction l as [|s l IH]; intros previous; simpl; [repeat constructor|].
  destruct (parseNano s) as [v|] eqn:E; [|done]. intros [Hp [Hs Hf]%IH]%andb_true_iff.
  assert (nano_or_zero s = v) as -> by (unfold nano_or_zero; by rewrite E).
  split; constructor; try done.
  - eapply Forall_impl; [exact Hf|]. simpl. intros x Hx. specialize (Hx v eq_refl). lia.
  - intros p ->. bool_to_prop. lia.
  - eapply Forall_impl; [exact Hf|]. simpl. intros x Hx p ->. bool_to_prop. specialize (Hx v eq_refl). lia.
Qed.

Lemma rate_counts attained required ms letters :
  0 ≤ required → StronglySorted Z.le ms → length ms = length letters →
  rate attained required (zip ms letters)
  = nth (bands_below attained required ms) (letters ++ ["E"]) "E".
Proof.
  intros Hr Hs. revert letters. induction Hs as [|m ms Hs IH Hf]; intros [|x letters] Hl; try done.
  simpl. unfold bands_below. rewrite filter_cons.
  destruct (Z.leb_spec attained (required * m / 1000000000)) as [Hle|Hgt].
  - rewrite decide_False by lia. rewrite filter_none; [done|].
    eapply Forall_impl; [exact Hf|]. simpl. intros y Hy.
    assert (required * m / 1000000000 ≤ required * y / 1000000000); [|lia].
    apply Z.div_le_mono; [lia|]. nia.
  - rewrite decide_True by lia. simpl. apply IH. simpl in Hl. lia.
Qed.

(** For a configured ship type that the loader accepted, the rating is the
    letter that counts the boundaries below the attained intensity, from A when
    there is none to E when all four are: the first matching band is the right one,
    and a higher attained intensity never gets a better letter. *)
Theorem ciiRating_counts_bands (attainedNano requiredNano : Z) (entry : CIIShipTypeCfg)
  (Hcfg : ship_type_ok entry = true) (Hreq : is_uint64 requiredNano) :
  ciiRating attainedNano requiredNano entry
  = nth (bands_below attainedNano requiredNano (nano_or_zero <$> RatingBoundariesNano entry))
        ["A"; "B"; "C"; "D"; "E"] "E".
Proof.
  unfold ship_type_ok in Hcfg. bool_to_prop.
  match goal with H : ascending_from _ _ = true |- _ => apply ascending_parses in H as [Hs _] end.
  match goal with H : Nat.eqb _ _ = true |- _ => apply Nat.eqb_eq in H as Hlen end.
  unfold ciiRating. apply (rate_counts _ _ _ ["A"; "B"; "C"; "D"]); [unfold is_uint64 in *; lia|done|].
  by rewrite length_fmap.
Qed.

Definition sample_cfg : CIIShipTypeCfg :=
  mkCIIShipTypeCfg "DWT" "4745" "0.622" {["2026" := "0.11"]} ["0.86"; "0.94"; "1.06"; "1.18"] "MEPC.339(76)".

Lemma ciiRating_counts_bands_witness :
  ship_type_ok sample_cfg = true ∧ ciiRating 5000000000 5000000000 sample_cfg = "C" ∧
  ciiRating 5000000000 5000000000 sample_cfg
  = nth (bands_below 5000000000 5000000000 (nano_or_zero <$> RatingBoundariesNano sample_cfg))
        ["A"; "B"; "C"; "D"; "E"] "E".
Proof.
  assert (ship_type_ok sample_cfg = true) as H1 by (vm_compute; reflexivity).
  assert (is_uint64 5000000000) as H2 by (unfold is_uint64; lia).
  split_and!; [exact H1|vm_compute; reflexivity|].
  exact (ciiRating_counts_bands 5000000000 5000000000 sample_cfg H1 H2).
Defined.

(** ** The cross-check *)

(** Below [2^54] the products do not wrap and the tolerance is exact. *)
Lemma within_tolerance_exact tolerance reported estimated :
  0 ≤ tolerance ≤ 1000 → 0 ≤ reported < 2 ^ 54 → 0 ≤ estimated < 2 ^ 54 →
  within_tolerance tolerance reported estimated = true ↔
  Z.abs (estimated - reported) * 1000 ≤ reported * tolerance.
Proof.
  intros Ht Hr He. unfold within_tolerance.
  destruct (Z.eqb_spec reported 0) as [->|Hne]; [rewrite Z.eqb_eq; lia|].
  rewrite Z.leb_le, !uint64_id; [case_match; bool_to_prop; lia|..]; unfold is_uint64;
    [nia|case_match; bool_to_prop; lia].
Qed.
