(* ===== verification/MrvEstimate.v ===== *)
(** * Activity estimates, factor digests and carbon intensity

    The parts of [internal/mrv] around the arithmetic of [Mrv]: the estimate from
    the position plane ([activity.go]), the digest of the factor rows a
    computation used ([factors.go]), the configuration document, the attained and
    required carbon intensity and the compliance calendar ([cii.go]). *)
From S2P Require Import Prelude GoTime Sha256 GoFloat Validate Mrv MrvProps.

(** ** Activity *)

Record ActivityParams := mkActivityParams {
  SogThresholdMilliknots : Z;
  SegmentGap : Z;
  MinCoveragePermille : Z;
}.
Definition DefaultActivityParams : ActivityParams := mkActivityParams 1000 (2 * hour) 500.

Inductive activity_error :=
| SogThresholdInvalid | SegmentGapInvalid | CoverageInvalid
| PeriodInverted
| DivisionByZero.

(** [ActivityParams.Validate]. *)
Definition params_Validate (params : ActivityParams) : result activity_error unit :=
  if SogThresholdMilliknots params =? 0 then Err SogThresholdInvalid
  else if (SegmentGap params <=? 0) || (24 * hour <? SegmentGap params) then Err SegmentGapInvalid
  else if (MinCoveragePermille params =? 0) || (1000 <? MinCoveragePermille params) then Err CoverageInvalid
  else Ok tt.

Record ActivityFix := mkActivityFix {
  af_ObservedAt : Z;
  af_LatMicros : Z;
  af_LonMicros : Z;
  af_SogMilliknots : Z;
}.

Definition fix_line (fix_ : ActivityFix) : string :=
  format_rfc3339 (af_ObservedAt fix_) +:+ "|" +:+ show_Z (af_LatMicros fix_) +:+ "|"
    +:+ show_Z (af_LonMicros fix_) +:+ "|" +:+ show_Z (af_SogMilliknots fix_) +:+ bytes_string [10].
Definition digestFixes (fixes : list ActivityFix) : string :=
  "sha256:" +:+ sha256_hex (String.concat "" (fix_line <$> fixes)).

(** [Duration.Milliseconds]. *)
Definition Milliseconds (d : Z) : Z := Z.quot d 1000000.

Section activity.
Context `{Math} `{MathPow}.

Definition greatCircleMilliNM (latMicrosA lonMicrosA latMicrosB lonMicrosB : Z) : Z :=
  let latA := radians latMicrosA in
  let latB := radians latMicrosB in
  let dLat := f_sub latB latA in
  let dLon := f_sub (radians lonMicrosB) (radians lonMicrosA) in
  let sLat := math_Sin (f_div dLat (f_of_Z 2)) in
  let sLon := math_Sin (f_div dLon (f_of_Z 2)) in
  let h := f_add (f_mul sLat sLat)
             (f_mul (f_mul (f_mul (math_Cos latA) (math_Cos latB)) sLon) sLon) in
  let meters := f_mul (f_lit 127420176 10) (math_Asin (f_min (f_of_Z 1) (f_sqrt h))) in
  uint64_round (f_mul (f_div meters (f_lit 1852 1000)) (f_of_Z 1000)).

(** [int64(gap.Seconds())]; the argument is finite. *)
Definition whole_seconds (gap : Z) : Z := default 0 (f_trunc (Seconds gap)).

(** One iteration of the loop over the fixes: index, previous and current fix; the
    state is the start of the segment, the distance and the seconds under way. *)
Definition activity_step (params : ActivityParams) (i : Z) (previous current : ActivityFix)
  (st : Z * Z * Z) : Z * Z * Z :=
  let '(segmentStart, distance, underway) := st in
  let gap := time_Sub (af_ObservedAt current) (af_ObservedAt previous) in
  if SegmentGap params <? gap then (i, distance, underway)
  else if gap <=? 0 then st
  else if i =? segmentStart then st
  else if af_SogMilliknots current <? SogThresholdMilliknots params then st
  else (segmentStart,
        uint64 (distance + greatCircleMilliNM (af_LatMicros previous) (af_LonMicros previous)
                             (af_LatMicros current) (af_LonMicros current)),
        int64 (underway + whole_seconds gap)).
Fixpoint activity_loop (params : ActivityParams) (i : Z) (previous : ActivityFix)
  (fixes : list ActivityFix) (st : Z * Z * Z) : Z * Z * Z :=
  match fixes with
  | [] => st
  | current :: fixes' => activity_loop params (i + 1) current fixes' (activity_step params i previous current st)
  end.

(** The permille product is an int64; the quotient by a period below one
    millisecond is the division by zero of the runtime. *)
Definition coverage_permille (observedSpan periodSpan : Z) : result activity_error Z :=
  if 0 <? periodSpan then
    if Milliseconds periodSpan =? 0 then Err DivisionByZero
    else Ok (Z.quot (int64 (Milliseconds observedSpan * 1000)) (Milliseconds periodSpan))
  else Ok 0.

Definition EstimateActivity (fixes : list ActivityFix) (from to : Z) (params : ActivityParams) :
  result activity_error ActivityEstimate :=
  if negb (from <? to) then Err PeriodInverted
  else
    _ ← params_Validate params;
    let digest := digestFixes fixes in
    let count := Z.of_nat (length fixes) in
    match fixes with
    | [] | [_] => Ok (mkEstimate 0 0 true count digest)
    | first :: rest =>
        let observedSpan := time_Sub (af_ObservedAt (List.last rest first)) (af_ObservedAt first) in
        coveragePermille ← coverage_permille observedSpan (time_Sub to from);
        if coveragePermille <? MinCoveragePermille params then Ok (mkEstimate 0 0 true count digest)
        else
          let '(_, distance, underway) := activity_loop params 1 first rest (0, 0, 0) in
          Ok (mkEstimate distance (uint64 (Z.quot underway 60)) false count digest)
    end.
End activity.

(** ** The digest of a factor set *)

Definition factor_line (row : FactorRow) : string :=
  FactorKey row +:+ "|" +:+ Gas row +:+ "|" +:+ show_Z (FactorNano row) +:+ "|" +:+ Unit row +:+ "|"
    +:+ SourceCitation row +:+ "|" +:+ format_date (ValidFrom row).
(** [sort.Strings]. *)
Definition sort_strings (l : list string) : list string := merge_sort str_le l.
Definition FactorSetHash (rows : list FactorRow) : string :=
  "sha256:" +:+ sha256_hex (String.concat "" ((λ line, line +:+ bytes_string [10]) <$> sort_strings (factor_line <$> rows))).

(** ** Carbon intensity *)

Record CIIConfig := mkCIIConfig {
  cfg_Version : string;
  ApprovedBy : string;
  ApprovedAt : string;
  cfg_Citation : string;
  ShipTypes : gmap string CIIShipTypeCfg;
}.

Inductive config_error := ConfigUnreadable | ConfigNotJSON | ConfigUnsigned | ConfigEmpty | ConfigShipType.

(** The checks on a decoded document. *)
Definition config_checks (config : CIIConfig) : result config_error CIIConfig :=
  if blank (cfg_Version config) || blank (ApprovedBy config) || blank (cfg_Citation config) then Err ConfigUnsigned
  else if bool_decide (ShipTypes config = ∅) then Err ConfigEmpty
  else if bool_decide (map_Forall (λ _ entry, ship_type_ok entry = true) (ShipTypes config)) then Ok config
  else Err ConfigShipType.

(** [read] and [decode] are [os.ReadFile] and the strict JSON decoder. *)
Definition LoadCIIConfig (read : string → option string) (decode : string → option CIIConfig) (path : string) :
  result config_error (option CIIConfig) :=
  let path := TrimSpace path in
  if String.eqb path "" then Ok None
  else match read path with
       | None => Err ConfigUnreadable
       | Some raw => match decode raw with
                     | None => Err ConfigNotJSON
                     | Some config => Some <$> config_checks config
                     end
       end.

Record CIIOutcome := mkCIIOutcome {
  NotComputable : bool;
  AttainedNano : option Z;
  RequiredNano : option Z;
  co_Rating : string;
  ConfigVersion : string;
  ConfigCitation : string;
  co_Reason : string;
}.
Definition not_computable (reason : string) : CIIOutcome := mkCIIOutcome true None None "" "" "" reason.

Section cii.
Context `{MathPow}.

(** [float64(nano) / 1e9]. *)
Definition nano_float (n : Z) : float64 := f_div (f_of_Z n) (f_of_Z 1000000000).
Definition required_cii (aNano cNano zNano capacity : Z) : float64 :=
  f_mul (f_mul (f_sub (f_of_Z 1) (nano_float zNano)) (nano_float aNano))
    (math_Pow (f_of_Z capacity) (f_neg (nano_float cNano))).

Definition ComputeCII (config : option CIIConfig) (shipType : string) (gt dwt year co2TonnesMilli distanceNMMilli : Z) :
  CIIOutcome :=
  match config with
  | None => not_computable "no operator-approved CII configuration is loaded"
  | Some config =>
  match ShipTypes config !! shipType with
  | None => not_computable "ship type is not covered by the approved CII configuration"
  | Some entry =>
  match ReductionFactorsZNano entry !! show_Z year with
  | None => not_computable "calendar year is not covered by the approved CII configuration"
  | Some zText =>
      let capacity := if String.eqb (CapacityField entry) "DWT" then dwt else gt in
      if capacity =? 0 then not_computable ("capacity datum (" +:+ CapacityField entry +:+ ") is absent")
      else if distanceNMMilli =? 0 then not_computable "distance travelled is zero"
      else
        let attained := Z.quot (co2TonnesMilli * 1000000000000000) (capacity * distanceNMMilli) in
        if negb ((0 <=? attained) && (attained <? 2 ^ 64))
        then not_computable "attained CII overflows the fixed-point range"
        else
          let required := required_cii (nano_or_zero (ReferenceLineANano entry))
                            (nano_or_zero (ReferenceLineCNano entry)) (nano_or_zero zText) capacity in
          if f_le required (f_of_Z 0) || f_is_nan required || f_is_inf required
          then not_computable "required CII is not computable from the configured parameters"
          else
            let requiredNano := uint64_round (f_mul required (f_of_Z 1000000000)) in
            mkCIIOutcome false (Some attained) (Some requiredNano) (ciiRating attained requiredNano entry)
              (cfg_Version config) (Citation entry) ""
  end end end.
End cii.

Record CIIConfigSummary := mkCIISummary {
  Loaded : bool; sum_Version : string; sum_Citation : string; sum_ShipTypes : Z }.
Definition CIIConfig_Summary (config : option CIIConfig) : CIIConfigSummary :=
  match config with
  | None => mkCIISummary false "" "" 0
  | Some c => mkCIISummary true (cfg_Version c) (cfg_Citation c) (Z.of_nat (size (ShipTypes c)))
  end.

(** ** The compliance calendar *)

Record Deadlines := mkDeadlines { ReportSubmission : string; SoCIssuance : string; GISISForward : string }.

(** One entry: the default when the variable is blank, otherwise its date. *)
Definition deadline_of (env : string → string) (name default_ : string) : option string :=
  let raw := TrimSpace (env name) in
  if String.eqb raw "" then Some default_ else format_mm_dd <$> parse_mm_dd raw.
(** The loop stops at the first malformed value; [None] is its error. *)
Definition DeadlinesFromEnv (env : string → string) : option Deadlines :=
  report ← deadline_of env "MRV_DEADLINE_REPORT_MM_DD" "03-31";
  soc ← deadline_of env "MRV_DEADLINE_SOC_MM_DD" "05-31";
  gisis ← deadline_of env "MRV_DEADLINE_GISIS_MM_DD" "06-30";
  Some (mkDeadlines report soc gisis).

Definition PastDeadline (deadline : string) (at_ : Z) : bool :=
  match parse_mm_dd deadline with
  | None => false
  | Some (m, d) => negb (at_ <? time_Date (time_Year at_) m (d + 1))
  end.

(** ** Properties of the estimates and of the carbon intensity

    The loop over the fixes is the sum over the legs under way; the digest of a
    factor set does not depend on the order of the rows, which the code takes from
    a map; an intensity is computed from configured values only, exactly. *)

(** ** Activity *)

Section activity.
Context `{Math} `{MathPow} (params : ActivityParams).

(** The consecutive pairs, and those of them that count. *)
Fixpoint legs (previous : ActivityFix) (fixes : list ActivityFix) : list (ActivityFix * ActivityFix) :=
  match fixes with
  | [] => []
  | current :: fixes' => (previous, current) :: legs current fixes'
  end.
Definition leg_gap (l : ActivityFix * ActivityFix) : Z := time_Sub (af_ObservedAt l.2) (af_ObservedAt l.1).
Definition under_way (l : ActivityFix * ActivityFix) : Prop :=
  0 < leg_gap l ≤ SegmentGap params ∧ SogThresholdMilliknots params ≤ af_SogMilliknots l.2.
#[export] Instance under_way_dec l : Decision (under_way l).
Proof. unfold under_way. apply _. Defined.
Definition leg_length (l : ActivityFix * ActivityFix) : Z :=
  greatCircleMilliNM (af_LatMicros l.1) (af_LonMicros l.1) (af_LatMicros l.2) (af_LonMicros l.2).
Definition leg_seconds (l : ActivityFix * ActivityFix) : Z := whole_seconds (leg_gap l).

Lemma uint64_add a b : uint64 (uint64 a + b) = uint64 (a + b).
Proof. unfold uint64. by rewrite Zplus_mod_idemp_l. Qed.

(** The test of the segment start never fires: a leg within the gap does not start
    a segment. *)
Lemma activity_loop_sums i previous fixes s d u :
  s < i →
  let counted := filter under_way (legs previous fixes) in
  (activity_loop params i previous fixes (s, uint64 d, int64 u)).1.2 = uint64 (d + sumZ leg_length counted) ∧
  (activity_loop params i previous fixes (s, uint64 d, int64 u)).2 = int64 (u + sumZ leg_seconds counted).
Proof.
  revert i previous s d u. induction fixes as [|c fixes IH]; intros i p s d u Hs; simpl.
  { by rewrite !Z.add_0_r. }
  rewrite filter_cons.
  assert (leg_gap (p, c) = time_Sub (af_ObservedAt c) (af_ObservedAt p)) as Hgap by done.
  destruct (decide (under_way (p, c))) as [[Hg Hv]|Hn]; unfold under_way in *; rewrite Hgap in *; simpl in *.
  - rewrite (proj2 (Z.ltb_ge _ _)), (proj2 (Z.leb_gt _ _)), (proj2 (Z.eqb_neq i s)), (proj2 (Z.ltb_ge _ _)) by lia.
    rewrite uint64_add, int64_add, !Z.add_assoc. apply IH. lia.
  - destruct (Z.ltb_spec (SegmentGap params) (time_Sub (af_ObservedAt c) (af_ObservedAt p))); [apply IH; lia|].
    destruct (Z.leb_spec (time_Sub (af_ObservedAt c) (af_ObservedAt p)) 0); [apply IH; lia|].
    rewrite (proj2 (Z.eqb_neq i s)) by lia.
    rewrite (proj2 (Z.ltb_lt _ _)) by lia. apply IH. lia.
Qed.

(** The activity estimate is the sum over the legs under way (positive gap
    within the segmentation gap, speed of the later fix at the threshold or above)
    when the observed span covers the configured share of the period, and zero with
    the coverage flag set otherwise; it carries the number and the digest of its
    fixes. *)
Theorem EstimateActivity_sums_legs fixes from to est :
  EstimateActivity fixes from to params = Ok est →
  FixCount est = Z.of_nat (length fixes) ∧ InputDigestSha256 est = digestFixes fixes ∧
  if InsufficientCoverage est then DistanceNmMilli est = 0 ∧ HoursUnderwayMinutes est = 0
  else ∃ first rest c, fixes = first :: rest ∧
    coverage_permille (time_Sub (af_ObservedAt (List.last rest first)) (af_ObservedAt first)) (time_Sub to from) = Ok c ∧
    MinCoveragePermille params ≤ c ∧
    let counted := filter under_way (legs first rest) in
    DistanceNmMilli est = uint64 (sumZ leg_length counted) ∧
    HoursUnderwayMinutes est = uint64 (Z.quot (int64 (sumZ leg_seconds counted)) 60).
Proof.
  unfold EstimateActivity. destruct (from <? to); [|done]. simpl. intros (u & _ & He)%bind_Ok.
  destruct fixes as [|first [|second rest]]; [by injection He as <-..|].
  apply bind_Ok in He as (c & Hc & He).
  destruct (Z.ltb_spec c (MinCoveragePermille params)); [by injection He as <-|].
  pose proof (activity_loop_sums 1 first (second :: rest) 0 0 0 ltac:(lia)) as [Hd Hu].
  change (uint64 0) with 0 in *. change (int64 0) with 0 in *.
  destruct (activity_loop params 1 first (second :: rest) (0, 0, 0)) as [[s d] u'] eqn:E.
  injection He as <-. split_and!; [done..|]. exists first, (second :: rest), c.
  cbn [fst snd] in Hd, Hu. by subst.
Qed.

(** The estimator divides by zero exactly when its period is positive but
    shorter than a millisecond and at least two fixes fall into it. *)
Theorem EstimateActivity_panics_iff fixes from to :
  params_Validate params = Ok tt → 
  EstimateActivity fixes from to params = Err DivisionByZero ↔
  0 < to - from < 1000000 ∧ (2 ≤ length fixes)%nat.
Proof.
  intros Hp. unfold EstimateActivity. destruct (Z.ltb_spec from to) as [Hft|]; cbn [negb]; [|split; [done|intros [? _]; lia]].
  rewrite Hp. simpl. destruct fixes as [|first [|second rest]]; simpl; [split; [done|intros [_ ?]; lia]..|].
  unfold coverage_permille. rewrite (proj2 (Z.ltb_lt 0 (time_Sub to from))) by (by apply time_Sub_pos).
  unfold Milliseconds at 1 3.
  destruct (Z.eqb_spec (Z.quot (time_Sub to from) 1000000) 0) as [Hq|Hq]; simpl.
  - split; [intros _|done]. split; [|lia]. apply Z.quot_small_iff in Hq; [|lia].
    pose proof (proj2 (time_Sub_pos to from) Hft). unfold time_Sub in *. lia.
  - split; [repeat case_match; done|]. intros [Hd _]. exfalso. apply Hq, Z.quot_small.
    unfold time_Sub. lia.
Qed.
End activity.

(** ** The digest of a factor set *)

Lemma sort_strings_perm l l' : l ≡ₚ l' → sort_strings l = sort_strings l'.
Proof.
  intros Hp. apply (StronglySorted_unique str_le).
  - apply (StronglySorted_merge_sort _).
  - apply (StronglySorted_merge_sort _).
  - unfold sort_strings. by rewrite !merge_sort_Permutation.
Qed.

(** The digest of the factor rows a report used does not depend on the order in
    which the code collects them, which is the random iteration order of a map. *)
Theorem FactorSetHash_ignores_order rows rows' : rows ≡ₚ rows' → FactorSetHash rows = FactorSetHash rows'.
Proof. intros Hp. unfold FactorSetHash. do 4 f_equal. apply sort_strings_perm. by rewrite Hp. Qed.

Definition hfo : FactorRow := mkFactorRow "HFO_RME-RMK" "CO2" 3114000000 "tCO2/t_fuel" "MEPC.245(66)" 0.
Definition lng : FactorRow := mkFactorRow "LNG" "CO2" 2750000000 "tCO2/t_fuel" "MEPC.245(66)" 0.
Lemma FactorSetHash_ignores_order_witness :
  FactorSetHash [lng; hfo] = FactorSetHash [hfo; lng].
Proof. apply (FactorSetHash_ignores_order [lng; hfo] [hfo; lng]). apply perm_swap. Defined.

(** ** Carbon intensity *)

Section cii.
Context `{MathPow}.

Lemma uint64_round_range x : is_uint64 (uint64_round x).
Proof.
  unfold uint64_round. destruct (f_round x) as [z|]; [|apply uint64_range].
  destruct (_ && _) eqn:Hz; [|apply uint64_range].
  apply andb_true_iff in Hz as [H1%Z.leb_le H2%Z.ltb_lt]. by split.
Qed.

Lemma rate_letter a r bands letters :
  (∀ b, b ∈ bands → b.2 ∈ letters) → rate a r bands ∈ "E" :: letters.
Proof.
  induction bands as [|[m l] bands IH]; simpl; intros Hb; [left|].
  destruct (a <=? _).
  - right. apply (Hb (m, l)). left.
  - apply IH. intros b Hi. apply Hb. by right.
Qed.
Lemma ciiRating_letter a r entry : ciiRating a r entry ∈ ["E"; "A"; "B"; "C"; "D"].
Proof. apply rate_letter. intros [m l] Hi%list_elem_of_In%in_combine_r%list_elem_of_In. done. Qed.

(** A carbon intensity is computed from configured values only: without a
    configuration that covers the ship type and the year, or without capacity or
    distance, there is no attained value, no required value and no rating; when
    there is one, the attained value is the exact quotient rounded down, both
    values fit 64 bits and the rating is the band of the configuration. *)
Theorem ComputeCII_never_estimates config shipType gt dwt year co2 dist :
  0 ≤ co2 → 0 ≤ gt → 0 ≤ dwt → 0 ≤ dist →
  let o := ComputeCII config shipType gt dwt year co2 dist in
  if NotComputable o then AttainedNano o = None ∧ RequiredNano o = None ∧ co_Rating o = ""
  else ∃ c entry z, config = Some c ∧ ShipTypes c !! shipType = Some entry ∧
    ReductionFactorsZNano entry !! show_Z year = Some z ∧
    let capacity := if String.eqb (CapacityField entry) "DWT" then dwt else gt in
    0 < capacity ∧ 0 < dist ∧
    ∃ a r, AttainedNano o = Some a ∧ a = co2 * 10 ^ 15 / (capacity * dist) ∧ is_uint64 a ∧
      RequiredNano o = Some r ∧ is_uint64 r ∧
      co_Rating o = ciiRating a r entry ∧ co_Rating o ∈ ["E"; "A"; "B"; "C"; "D"].
Proof.
  intros Hco Hgt Hdwt Hdist. unfold ComputeCII. destruct config as [c|]; [|done].
  destruct (ShipTypes c !! shipType) as [entry|] eqn:He; [|done].
  destruct (ReductionFactorsZNano entry !! show_Z year) as [z|] eqn:Hz; [|done].
  set (capacity := if String.eqb (CapacityField entry) "DWT" then dwt else gt).
  assert (0 ≤ capacity) as Hcap by (unfold capacity; destruct (String.eqb _ _); lia).
  destruct (Z.eqb_spec capacity 0); [done|]. destruct (Z.eqb_spec dist 0); [done|].
  rewrite Z.quot_div_nonneg by nia.
  destruct (_ && _) eqn:Hr; [|done]. cbn [negb].
  apply andb_true_iff in Hr as [Hr1%Z.leb_le Hr2%Z.ltb_lt].
  destruct (_ || _); [done|]. cbn [NotComputable AttainedNano RequiredNano co_Rating].
  exists c, entry, z. do 3 (split; [done|]). fold capacity. cbv zeta. split; [lia|]. split; [lia|].
  eexists _, _. split; [done|]. split; [done|]. split; [done|]. split; [done|].
  split; [apply uint64_round_range|]. split; [done|apply ciiRating_letter].
Qed.

(** The parse errors [ComputeCII] drops cannot occur with a loaded document. *)
Lemma loaded_config_parses c entry shipType :
  config_checks c = Ok c → ShipTypes c !! shipType = Some entry →
  parseNano (ReferenceLineANano entry) = Ok (nano_or_zero (ReferenceLineANano entry)) ∧
  parseNano (ReferenceLineCNano entry) = Ok (nano_or_zero (ReferenceLineCNano entry)) ∧
  (∀ y z, ReductionFactorsZNano entry !! y = Some z →
     parseNano z = Ok (nano_or_zero z) ∧ nano_or_zero z < 10 ^ 9).
Proof.
  unfold config_checks. destruct (_ || _); [done|]. destruct (bool_decide (ShipTypes c = ∅)); [done|].
  case_bool_decide as Hf; [|done]. intros _ He. specialize (Hf _ _ He). simpl in Hf.
  unfold ship_type_ok in Hf. rewrite !andb_true_iff in Hf. unfold nano_or_zero.
  destruct Hf as [[[[[[[_ Ha] Hc] _] Hz] _] _] _].
  split; [revert Ha; by destruct (parseNano (ReferenceLineANano entry))|].
  split; [revert Hc; by destruct (parseNano (ReferenceLineCNano entry))|].
  intros y z Hyz. apply bool_decide_eq_true in Hz. specialize (Hz _ _ Hyz). simpl in Hz. unfold z_ok in Hz.
  revert Hz. destruct (parseNano z); [|done]. intros Hz. split; [done|]. by apply Z.ltb_lt.
Qed.
End cii.

(** ** Examples *)

#[local] Instance sample_pow : MathPow := {| math_Pow := λ _ _, f_lit 1 100; uint64_overflow := λ _, 0 |}.

Definition sample_config : CIIConfig :=
  mkCIIConfig "2026.1" "flag administration" "2026-01-10" "MEPC.339(76)" {["TANKER" := sample_cfg]}.

Lemma ComputeCII_never_estimates_witness :
  let o := ComputeCII (Some sample_config) "TANKER" 30000 50000 2026 12000000 80000000 in
  NotComputable o = false ∧ AttainedNano o = Some 3000000000 ∧ co_Rating o ∈ ["E"; "A"; "B"; "C"; "D"].
Proof.
  pose proof (ComputeCII_never_estimates (Some sample_config) "TANKER" 30000 50000 2026 12000000 80000000
    ltac:(lia) ltac:(lia) ltac:(lia) ltac:(lia)) as Hw.
  assert (NotComputable (ComputeCII (Some sample_config) "TANKER" 30000 50000 2026 12000000 80000000) = false) as Hn
    by (vm_compute; reflexivity).
  cbv zeta in *. rewrite Hn in Hw.
  destruct Hw as (c & e & z & Hc & He & Hz & _ & _ & a & r & Ha & Ea & _ & _ & _ & _ & Hin).
  split; [exact Hn|]. split; [vm_compute; reflexivity|exact Hin].
Defined.

Definition sample_params : ActivityParams := DefaultActivityParams.
Definition at_hour (h lat lon sog : Z) : ActivityFix := mkActivityFix (h * hour) lat lon sog.
Definition sample_fixes : list ActivityFix :=
  [at_hour 0 0 0 0; at_hour 1 0 100000 12000; at_hour 2 0 200000 12000; at_hour 6 0 300000 12000; at_hour 7 0 300000 0].

Lemma EstimateActivity_sums_legs_witness :
  ∃ est, EstimateActivity (H := small_angle_math) sample_fixes 0 (8 * hour) sample_params = Ok est ∧
    InsufficientCoverage est = false ∧ FixCount est = 5 ∧ HoursUnderwayMinutes est = 120 ∧
    InputDigestSha256 est = digestFixes sample_fixes.
Proof.
  destruct (EstimateActivity (H := small_angle_math) sample_fixes 0 (8 * hour) sample_params) as [est|e] eqn:E.
  2: { vm_compute in E. discriminate E. }
  pose proof (EstimateActivity_sums_legs (H := small_angle_math) sample_params sample_fixes 0 (8 * hour) est E)
    as (H1 & H2 & _).
  exists est. split; [reflexivity|]. rewrite H1, H2.
  vm_compute in E. injection E as <-. vm_compute. auto.
Defined.

Lemma EstimateActivity_panics_iff_witness :
  EstimateActivity (H := small_angle_math) [at_hour 0 0 0 0; at_hour 0 0 0 0] 0 1000 sample_params = Err DivisionByZero.
Proof.
  apply (EstimateActivity_panics_iff (H := small_angle_math)); [reflexivity|]. split; [lia|simpl; lia].
Defined.
