(* ===== verification/MrvRows.v ===== *)
(** * Data of the MRV workflow

    [internal/mrv/types.go], [service.go] and [payloads.go]: the event contracts,
    the states of plans and reports, the domain records, the event payloads with
    their JSON projection, and the tables of migration 0012. *)
From S2P Require Import Prelude Sign Mrv.

(** ** Contracts and wire values *)

Definition ProducerName : string := "blueeconomy-geo-service-mrv".

Definition EventFuelReport : string := "mrv.fuel-report.v1".
Definition EventVoyage : string := "mrv.voyage.v1".
Definition EventVerification : string := "mrv.verification.v1".
Definition EventEmissionsAnnual : string := "mrv.emissions-annual.v1".
Definition EventSoC : string := "mrv.soc.v1".
Definition EventActivityEstimate : string := "mrv.activity-estimate.v1".
Definition EventVoyageEmissions : string := "mrv.voyage-emissions.v1".

Record eventContract := mkContract { topic : string; resourceType : string; classification : string }.
Definition eventContracts : gmap string eventContract := list_to_map
  [(EventFuelReport, mkContract "mrv.fuel-reports" "MrvFuelReportRecorded" "CONFIDENTIAL");
   (EventVoyage, mkContract "mrv.voyages" "MrvVoyageRecorded" "CONFIDENTIAL");
   (EventVerification, mkContract "mrv.verifications" "MrvVerificationRecorded" "CONFIDENTIAL");
   (EventEmissionsAnnual, mkContract "mrv.annual-reports" "MrvEmissionsAnnualReportSubmitted" "CONFIDENTIAL");
   (EventSoC, mkContract "mrv.soc" "MrvStatementOfComplianceIssued" "INTERNAL");
   (EventActivityEstimate, mkContract "mrv.activity-estimates" "MrvActivityEstimateComputed" "INTERNAL");
   (EventVoyageEmissions, mkContract "mrv.voyage-emissions" "MrvVoyageEmissionsComputed" "CONFIDENTIAL")].

(** The CHECK on [mrv_outbox.event_type]. *)
Definition outbox_event_types : list string :=
  ["mrv.fuel-report.v1"; "mrv.voyage.v1"; "mrv.verification.v1"; "mrv.emissions-annual.v1"; "mrv.soc.v1";
   "mrv.activity-estimate.v1"].

Definition consumer_types : list string := ["MAIN_ENGINE"; "AUX_ENGINE"; "BOILER"; "INERT_GAS"; "NOT_UNDER_WAY"].
Definition monitoring_methods : list string := ["A"; "B"; "C"; "D"].
Definition is_consumer (s : string) : bool := bool_decide (s ∈ consumer_types).
Definition is_method (s : string) : bool := bool_decide (s ∈ monitoring_methods).

Inductive ReportState := Draft | Submitted | VerifierReview | Verified | Rejected.
#[export] Instance ReportState_eq_dec : EqDecision ReportState.
Proof. solve_decision. Defined.
Definition report_state_text (s : ReportState) : string :=
  match s with
  | Draft => "DRAFT" | Submitted => "SUBMITTED" | VerifierReview => "VERIFIER_REVIEW"
  | Verified => "VERIFIED" | Rejected => "REJECTED"
  end.

Inductive PlanState := PlanDraft | PlanSubmitted | PlanConfirmed | PlanSuperseded.
#[export] Instance PlanState_eq_dec : EqDecision PlanState.
Proof. solve_decision. Defined.

Inductive Decision_ := DecisionVerify | DecisionReject | DecisionClarify.
#[export] Instance Decision_eq_dec : EqDecision Decision_.
Proof. solve_decision. Defined.
Definition decision_text (d : Decision_) : string :=
  match d with DecisionVerify => "VERIFY" | DecisionReject => "REJECT" | DecisionClarify => "REQUEST_CLARIFICATION" end.
(** The switch that admits the contract decisions. *)
Definition parse_decision (s : string) : option Decision_ :=
  if String.eqb s "VERIFY" then Some DecisionVerify
  else if String.eqb s "REJECT" then Some DecisionReject
  else if String.eqb s "REQUEST_CLARIFICATION" then Some DecisionClarify
  else None.

(** ** Fixed-point quantities on the wire *)

(** [strconv.ParseUint(text, 10, 64)]. *)
Definition ParseUint64 (s : string) : option Z :=
  if negb (String.eqb s "") && all_chars is_digit s && (dec_value s <? 2 ^ 64) then Some (dec_value s) else None.
Definition U64_MarshalJSON (v : Z) : json := JStr (show_dec v).
(** The decimal string form, or a bare number. *)
Definition U64_UnmarshalJSON (j : json) : option Z :=
  match j with
  | JStr text => ParseUint64 text
  | JNum z => ParseUint64 (show_Z z)
  | _ => None
  end.

Lemma U64_json_roundtrip v : is_uint64 v → U64_UnmarshalJSON (U64_MarshalJSON v) = Some v.
Proof.
  intros [H0 H1]. simpl. unfold ParseUint64. destruct (show_dec_spec v H0) as [Hv Hd].
  rewrite Hd, Hv, (proj2 (Z.ltb_lt _ _)) by done.
  by rewrite (proj2 (String.eqb_neq _ _) (show_dec_nonempty v)).
Qed.

(** ** Domain records *)

(** The column mmsi is NULL when [MMSI] is empty. *)
Record Ship := mkShip {
  sh_ImoNumber : string; sh_MMSI : string; ShipName : string; GT : Z; DWT : option Z; ShipType : string;
  FlagState : string; InternationalVoyages : bool; DcsScope : bool; RegisteredBy : string; sh_CreatedAt : Z;
}.
Definition mmsi_column (s : Ship) : option string := if String.eqb (sh_MMSI s) "" then None else Some (sh_MMSI s).

(** Methods maps a consumer to its method; it is stored as a JSONB object. *)
Record MonitoringPlan := mkPlan {
  PlanID : string; pl_ImoNumber : string; Version : Z; Methods : gmap string string; FuelGrades : list string;
  pl_State : PlanState; pl_CreatedBy : string; pl_CreatedAt : Z; ConfirmedBy : option string; ConfirmedAt : option Z;
}.

Record FuelReport := mkFuelReport {
  fu_ReportID : string; fu_ImoNumber : string; ExternalRef : string; PeriodFrom : Z; PeriodTo : Z;
  Consumer : string; fu_FuelGrade : string; Method : string; FuelTonnesMilli : Z;
  fu_DistanceNmMilli : option Z; fu_HoursUnderwayMinutes : option Z; BdnRef : string;
  Evidence_ : string; EvidenceDigestSha256 : string; ReportedBy : string; fu_CreatedAt : Z;
}.

Record Voyage := mkVoyage {
  VoyageID : string; vo_ImoNumber : string; BospAt : option Z; BospPort : string; EospAt : option Z;
  EospPort : string; CargoTonnesMilli : option Z; LadenDistanceNmMilli : option Z; Source : string;
  GeofenceEvidence : list string; RecordedBy : string; vo_CreatedAt : Z;
}.

Record gradeTotal := mkGradeTotal {
  gt_FuelGrade : string; gt_FuelTonnesMilli : Z; gt_CO2TonnesMilli : Z; gt_FactorNano : Z; gt_FactorCitation : string }.
Record reportTotals := mkReportTotals {
  rt_PerGrade : list gradeTotal; TotalFuelTonnesMilli : Z; rt_CO2TonnesMilli : Z; rt_DistanceNmMilli : Z;
  rt_HoursUnderwayMinutes : Z; rt_FuelReportCount : Z }.

(** The totals document is kept decoded; its quantities survive the encoding
    ([U64_json_roundtrip]). *)
Record AnnualReport := mkAnnualReport {
  ReportID : string; ImoNumber : string; CalendarYear : Z; Totals : reportTotals;
  AttainedCiiNano : option Z; RequiredCiiNano : option Z; CiiRating : option string; FactorSetHash_ : string;
  State : ReportState; CompiledBy : string; SubmittedBy : option string; CreatedAt : Z; SubmittedAt : option Z;
}.

Record Verification := mkVerification {
  VerificationID : string; ve_ReportID : string; ve_Decision : Decision_; Verifier : string; Reason : string;
  AISCrosscheck : json; DecidedAt : Z;
}.

Record StatementOfCompliance := mkSoC {
  soc_ReportID : string; IssuedBy : string; soc_IssuedAt : Z; soc_artifact_sha256 : string }.
Record Artifact := mkArtifact { artifact_json : json; artifact_sha256 : string }.

Record OutboxRow := mkOutboxRow {
  aggregate_id : string; event_type : string; payload_ : Envelope; ob_created_at : Z; published_at : option Z }.

(** A SET state = s clause, and the one of a submit. *)
Definition set_report_state (s : ReportState) (r : AnnualReport) : AnnualReport :=
  mkAnnualReport (ReportID r) (ImoNumber r) (CalendarYear r) (Totals r) (AttainedCiiNano r) (RequiredCiiNano r)
    (CiiRating r) (FactorSetHash_ r) s (CompiledBy r) (SubmittedBy r) (CreatedAt r) (SubmittedAt r).
Definition set_submitted (actor : string) (now : Z) (r : AnnualReport) : AnnualReport :=
  mkAnnualReport (ReportID r) (ImoNumber r) (CalendarYear r) (Totals r) (AttainedCiiNano r) (RequiredCiiNano r)
    (CiiRating r) (FactorSetHash_ r) Submitted (CompiledBy r) (Some actor) (CreatedAt r) (Some now).
Definition set_compiled (totals : reportTotals) (attained required : option Z) (rating : option string) (hash actor : string)
  (r : AnnualReport) : AnnualReport :=
  mkAnnualReport (ReportID r) (ImoNumber r) (CalendarYear r) totals attained required rating hash
    (State r) actor (SubmittedBy r) (CreatedAt r) (SubmittedAt r).
Definition set_plan_state (s : PlanState) (p : MonitoringPlan) : MonitoringPlan :=
  mkPlan (PlanID p) (pl_ImoNumber p) (Version p) (Methods p) (FuelGrades p) s (pl_CreatedBy p) (pl_CreatedAt p)
    (ConfirmedBy p) (ConfirmedAt p).
Definition set_plan_confirmed (actor : string) (now : Z) (p : MonitoringPlan) : MonitoringPlan :=
  mkPlan (PlanID p) (pl_ImoNumber p) (Version p) (Methods p) (FuelGrades p) PlanConfirmed (pl_CreatedBy p)
    (pl_CreatedAt p) (Some actor) (Some now).
Definition set_published (now : Z) (o : OutboxRow) : OutboxRow :=
  mkOutboxRow (aggregate_id o) (event_type o) (payload_ o) (ob_created_at o) (Some now).

(** ** Event payloads *)

Definition u64_field (k : string) (v : Z) : list (string * json) := [(k, U64_MarshalJSON v)].
Definition fuel_report_resource (r : FuelReport) : list (string * json) :=
  [("reportId", JStr (fu_ReportID r)); ("imoNumber", JStr (fu_ImoNumber r));
   ("externalReference", JStr (ExternalRef r)); ("periodFrom", JTime (PeriodFrom r)); ("periodTo", JTime (PeriodTo r));
   ("consumer", JStr (Consumer r)); ("fuelGrade", JStr (fu_FuelGrade r)); ("method", JStr (Method r))]
  ++ u64_field "fuelTonnesMilli" (FuelTonnesMilli r)
  ++ opt_omit "distanceNmMilli" U64_MarshalJSON (fu_DistanceNmMilli r)
  ++ opt_omit "hoursUnderwayMinutes" U64_MarshalJSON (fu_HoursUnderwayMinutes r)
  ++ str_omit "bdnReference" (BdnRef r)
  ++ [("evidenceDigestSha256", JStr (EvidenceDigestSha256 r)); ("reportedAt", JTime (fu_CreatedAt r))].

Definition voyage_resource (v : Voyage) : list (string * json) :=
  [("voyageId", JStr (VoyageID v)); ("imoNumber", JStr (vo_ImoNumber v)); ("source", JStr (Source v))]
  ++ opt_omit "bospAt" JTime (BospAt v) ++ str_omit "bospPortCode" (BospPort v)
  ++ opt_omit "eospAt" JTime (EospAt v) ++ str_omit "eospPortCode" (EospPort v)
  ++ opt_omit "cargoTonnesMilli" U64_MarshalJSON (CargoTonnesMilli v)
  ++ opt_omit "ladenDistanceNmMilli" U64_MarshalJSON (LadenDistanceNmMilli v)
  ++ [("geofenceEvidenceDigestSha256", JArr (JStr <$> GeofenceEvidence v)); ("recordedAt", JTime (vo_CreatedAt v))].

Definition verification_resource (v : Verification) (reasonCode digest : string) : list (string * json) :=
  [("verificationId", JStr (VerificationID v)); ("annualReportId", JStr (ve_ReportID v));
   ("decision", JStr (decision_text (ve_Decision v))); ("reasonCode", JStr reasonCode)]
  ++ str_omit "aisCrosscheckDigestSha256" digest ++ [("decidedAt", JTime (DecidedAt v))].

Definition emissions_annual_resource (r : AnnualReport) (submittedAt : Z) : list (string * json) :=
  [("annualReportId", JStr (ReportID r)); ("imoNumber", JStr (ImoNumber r)); ("calendarYear", JNum (uint32 (CalendarYear r)));
   ("state", JStr (report_state_text (State r)))]
  ++ u64_field "co2TonnesMilli" (rt_CO2TonnesMilli (Totals r))
  ++ u64_field "distanceNmMilli" (rt_DistanceNmMilli (Totals r))
  ++ u64_field "hoursUnderwayMinutes" (rt_HoursUnderwayMinutes (Totals r))
  ++ [("factorSetDigestSha256", JStr (FactorSetHash_ r))]
  ++ opt_omit "attainedCiiNano" U64_MarshalJSON (AttainedCiiNano r)
  ++ opt_omit "requiredCiiNano" U64_MarshalJSON (RequiredCiiNano r)
  ++ str_omit "ciiRating" (default "" (CiiRating r)) ++ [("submittedAt", JTime submittedAt)].

Definition soc_resource (socID : string) (r : AnnualReport) (artifactDigest : string) (now : Z) : list (string * json) :=
  [("socId", JStr socID); ("annualReportId", JStr (ReportID r)); ("imoNumber", JStr (ImoNumber r));
   ("calendarYear", JNum (uint32 (CalendarYear r))); ("artifactDigestSha256", JStr artifactDigest); ("issuedAt", JTime now)].

Record ActivityEstimateResource := mkEstimateResource {
  EstimateID : string; er_ImoNumber : string; Mmsi : string; er_PeriodFrom : Z; er_PeriodTo : Z;
  er_Estimate : ActivityEstimate; er_ComputedAt : Z }.
Definition activity_resource (e : ActivityEstimateResource) : list (string * json) :=
  [("estimateId", JStr (EstimateID e)); ("imoNumber", JStr (er_ImoNumber e)); ("mmsi", JStr (Mmsi e));
   ("periodFrom", JTime (er_PeriodFrom e)); ("periodTo", JTime (er_PeriodTo e))]
  ++ u64_field "distanceNmMilli" (DistanceNmMilli (er_Estimate e))
  ++ u64_field "hoursUnderwayMinutes" (HoursUnderwayMinutes (er_Estimate e))
  ++ [("insufficientCoverage", JBool (InsufficientCoverage (er_Estimate e)));
      ("inputDigestSha256", JStr (InputDigestSha256 (er_Estimate e))); ("computedAt", JTime (er_ComputedAt e))].

Record VoyageEmissionsResource := mkVoyageEmissions {
  ComputationID : string; vr_VoyageID : string; vr_ImoNumber : string; vr_BospAt : Z; vr_EospAt : Z;
  vr_Totals : voyage_totals; ActivityCrosscheck : option ActivityEstimateResource; vr_ComputedAt : Z }.
Definition grade_json (g : VoyageGradeEmissions) : json :=
  JObj ([("fuelGrade", JStr (FuelGrade g))] ++ u64_field "allocatedFuelTonnesMilli" (AllocatedFuelTonnesMilli g)
    ++ u64_field "co2TonnesMilli" (Mrv.CO2TonnesMilli g) ++ u64_field "factorNano" (ge_FactorNano g)
    ++ [("factorCitation", JStr (FactorCitation g))]).
Definition AllocationMethod : string :=
  "time-proportional overlap of each fuel report period with the BOSP/EOSP voyage window; factors resolved per row from the source-cited registry".
Definition voyage_emissions_resource (v : VoyageEmissionsResource) : list (string * json) :=
  [("computationId", JStr (ComputationID v)); ("voyageId", JStr (vr_VoyageID v)); ("imoNumber", JStr (vr_ImoNumber v));
   ("bospAt", JTime (vr_BospAt v)); ("eospAt", JTime (vr_EospAt v));
   ("perGrade", JArr (grade_json <$> PerGrade (vr_Totals v)))]
  ++ u64_field "totalCo2TonnesMilli" (TotalCO2TonnesMilli (vr_Totals v))
  ++ u64_field "allocatedFuelTonnesMilli" (vt_AllocatedFuelTonnesMilli (vr_Totals v))
  ++ [("fuelReportCount", JNum (FuelReportCount (vr_Totals v))); ("allocationMethod", JStr AllocationMethod)]
  ++ opt_omit "activityCrosscheck" (JObj ∘ activity_resource) (ActivityCrosscheck v)
  ++ [("computedAt", JTime (vr_ComputedAt v))].

(** ** Tables *)

Record mrv_db := mkMrvDB {
  mrv_ships : gmap string Ship;
  mrv_monitoring_plans : gmap string MonitoringPlan;
  mrv_fuel_reports : gmap string FuelReport;
  mrv_voyages : gmap string Voyage;
  mrv_annual_reports : gmap string AnnualReport;
  mrv_verifications : gmap string Verification;
  mrv_statements_of_compliance : gmap string StatementOfCompliance;
  mrv_report_artifacts : gmap string Artifact;
  mrv_outbox : gmap string OutboxRow;
}.

Definition on_ships (g : gmap string Ship → gmap string Ship) (d : mrv_db) : mrv_db :=
  mkMrvDB (g (mrv_ships d)) (mrv_monitoring_plans d) (mrv_fuel_reports d) (mrv_voyages d) (mrv_annual_reports d)
    (mrv_verifications d) (mrv_statements_of_compliance d) (mrv_report_artifacts d) (mrv_outbox d).
Definition on_plans (g : gmap string MonitoringPlan → gmap string MonitoringPlan) (d : mrv_db) : mrv_db :=
  mkMrvDB (mrv_ships d) (g (mrv_monitoring_plans d)) (mrv_fuel_reports d) (mrv_voyages d) (mrv_annual_reports d)
    (mrv_verifications d) (mrv_statements_of_compliance d) (mrv_report_artifacts d) (mrv_outbox d).
Definition on_fuel (g : gmap string FuelReport → gmap string FuelReport) (d : mrv_db) : mrv_db :=
  mkMrvDB (mrv_ships d) (mrv_monitoring_plans d) (g (mrv_fuel_reports d)) (mrv_voyages d) (mrv_annual_reports d)
    (mrv_verifications d) (mrv_statements_of_compliance d) (mrv_report_artifacts d) (mrv_outbox d).
Definition on_voyages (g : gmap string Voyage → gmap string Voyage) (d : mrv_db) : mrv_db :=
  mkMrvDB (mrv_ships d) (mrv_monitoring_plans d) (mrv_fuel_reports d) (g (mrv_voyages d)) (mrv_annual_reports d)
    (mrv_verifications d) (mrv_statements_of_compliance d) (mrv_report_artifacts d) (mrv_outbox d).
Definition on_annual (g : gmap string AnnualReport → gmap string AnnualReport) (d : mrv_db) : mrv_db :=
  mkMrvDB (mrv_ships d) (mrv_monitoring_plans d) (mrv_fuel_reports d) (mrv_voyages d) (g (mrv_annual_reports d))
    (mrv_verifications d) (mrv_statements_of_compliance d) (mrv_report_artifacts d) (mrv_outbox d).
Definition on_verifications (g : gmap string Verification → gmap string Verification) (d : mrv_db) : mrv_db :=
  mkMrvDB (mrv_ships d) (mrv_monitoring_plans d) (mrv_fuel_reports d) (mrv_voyages d) (mrv_annual_reports d)
    (g (mrv_verifications d)) (mrv_statements_of_compliance d) (mrv_report_artifacts d) (mrv_outbox d).
Definition on_socs (g : gmap string StatementOfCompliance → gmap string StatementOfCompliance) (d : mrv_db) : mrv_db :=
  mkMrvDB (mrv_ships d) (mrv_monitoring_plans d) (mrv_fuel_reports d) (mrv_voyages d) (mrv_annual_reports d)
    (mrv_verifications d) (g (mrv_statements_of_compliance d)) (mrv_report_artifacts d) (mrv_outbox d).
Definition on_artifacts (g : gmap string Artifact → gmap string Artifact) (d : mrv_db) : mrv_db :=
  mkMrvDB (mrv_ships d) (mrv_monitoring_plans d) (mrv_fuel_reports d) (mrv_voyages d) (mrv_annual_reports d)
    (mrv_verifications d) (mrv_statements_of_compliance d) (g (mrv_report_artifacts d)) (mrv_outbox d).
Definition on_outbox (g : gmap string OutboxRow → gmap string OutboxRow) (d : mrv_db) : mrv_db :=
  mkMrvDB (mrv_ships d) (mrv_monitoring_plans d) (mrv_fuel_reports d) (mrv_voyages d) (mrv_annual_reports d)
    (mrv_verifications d) (mrv_statements_of_compliance d) (mrv_report_artifacts d) (g (mrv_outbox d)).

Definition empty_mrv_db : mrv_db := mkMrvDB ∅ ∅ ∅ ∅ ∅ ∅ ∅ ∅ ∅.

(** ** Triggers on the annual reports, verifications and statements *)

(** [mrv_annual_report_state_guard]: [true] when the UPDATE may proceed. *)
Definition state_guard (old new : AnnualReport) : bool :=
  negb (bool_decide (State old = State new) && negb (bool_decide (State old = Draft)))
  && match State old, State new with
     | Draft, Draft | Draft, Submitted | Submitted, VerifierReview
     | VerifierReview, Verified | VerifierReview, Rejected | VerifierReview, Submitted => true
     | _, _ => false
     end.

(** The totals, digest and intensity columns that are frozen after DRAFT. *)
Definition frozen_columns (r : AnnualReport) :=
  (Totals r, FactorSetHash_ r, AttainedCiiNano r, RequiredCiiNano r, CiiRating r).
#[export] Instance gradeTotal_eq_dec : EqDecision gradeTotal.
Proof. solve_decision. Defined.
#[export] Instance reportTotals_eq_dec : EqDecision reportTotals.
Proof. solve_decision. Defined.
Definition frozen_guard (old new : AnnualReport) : bool :=
  bool_decide (State old = Draft) || bool_decide (frozen_columns old = frozen_columns new).
(** [mrv_verification_four_eyes]. *)
Definition four_eyes_guard (d : mrv_db) (reportID verifier : string) : bool :=
  match mrv_annual_reports d !! reportID ≫= SubmittedBy with
  | Some maker => negb (String.eqb maker verifier)
  | None => true
  end.
(** [mrv_soc_requires_verified]. *)
Definition soc_guard (d : mrv_db) (reportID : string) : bool :=
  match mrv_annual_reports d !! reportID with
  | Some r => bool_decide (State r = Verified)
  | None => false
  end.
