(* ===== verification/MrvService.v ===== *)
(** * The MRV service

    [internal/mrv]: the transaction wrapper and the outbox ([service.go],
    [envelope.go]), ships, monitoring plans and fuel reports ([ops.go]), voyages and
    activity estimates ([voyage.go], [voyage_emissions.go]), annual reports,
    verification and statements of compliance ([report.go]), and the publisher
    ([outbox.go]).  The methods lock the rows they change or insert under a unique
    key, so that a run of the service is a sequence of whole transactions.  Fresh
    UUIDs and clock readings are arguments.  Every statement can fail; a failed
    statement leaves its transaction in the aborted state, in which every later
    statement fails and the commit rolls back.  Triggers and unique keys of
    migration 0012 and the CHECK on event types are modelled; any other refusal of
    the server is a fault of the call. *)
From S2P Require Import Prelude Effects Sha256 GoTime GoParse GoFloat Classification Sign Mrv MrvEstimate MrvRows.

Inductive workflow_error :=
| ActorRequired | StoreFailure | TransactionAborted | EncodeFailure
| UniqueViolation | CheckViolation | UndeterminedParameter | TriggerRaised
| ErrShipNotFound | ErrPlanNotFound | ErrPlanState | ErrMakerCheckerConflict
| ErrIdempotencyKeyNeeded | ErrIdempotencyConflict | ErrReportNotFound | ErrReportState
| ErrSoCExists | ErrNoConfirmedPlan | ErrVoyageNotFound
| ErrVoyageWindowIncomplete | ErrVoyageZeroDurationWindow
| ShipInvalid | PlanInvalid | FuelReportInvalid | EvidenceInvalid | VoyageInvalid | PeriodInvalid
| ClearanceEmpty | NoAISLink | YearOutOfRange | DecisionInvalid | ReasonRequired | NotTheCompiler
| ArithmeticError (e : mrv_error)
| EstimateError (e : activity_error)
| EnvelopeError (e : sign_error)
| EventIDInvalid | SignArtifactFailed
| UnknownOutboxType | PublishFailed.

(** A message on a Kafka topic. *)
Record message := mkMessage {
  msg_topic : string; msg_key : string; msg_value : Envelope; msg_eventType : string; msg_eventId : string }.

Record mrv_store := mkMrvStore {
  tables : mrv_db;
  tx_failed : bool;
  kafka : list message;
  publish_ok : Z;
  publish_error : Z;
}.
Definition set_tables (d : mrv_db) (s : mrv_store) : mrv_store :=
  mkMrvStore d (tx_failed s) (kafka s) (publish_ok s) (publish_error s).
Definition set_failed (b : bool) (s : mrv_store) : mrv_store :=
  mkMrvStore (tables s) b (kafka s) (publish_ok s) (publish_error s).
Definition deliver (m : message) (s : mrv_store) : mrv_store :=
  mkMrvStore (tables s) (tx_failed s) (kafka s ++ [m]) (publish_ok s) (publish_error s).
Definition count_ok (s : mrv_store) : mrv_store :=
  mkMrvStore (tables s) (tx_failed s) (kafka s) (publish_ok s + 1) (publish_error s).
Definition count_error (s : mrv_store) : mrv_store :=
  mkMrvStore (tables s) (tx_failed s) (kafka s) (publish_ok s) (publish_error s + 1).
Definition empty_mrv_store : mrv_store := mkMrvStore empty_mrv_db false [] 0 0.

Abbreviation IO := (M mrv_store workflow_error).

(** ** Statements *)

Definition refuse {A} (e : workflow_error) : IO A := modify (set_failed true) ≫= λ _, fail e.
(** One statement of the open transaction. *)
Definition statement {A} (act : mrv_store → mrv_store * A) : IO A :=
  aborted ← gets tx_failed;
  if (aborted : bool) then fail TransactionAborted
  else
    r ← attempt (external StoreFailure act);
    match r with
    | Ok a => mret a
    | Err e => refuse e
    end.
Definition select {A} (f : mrv_db → A) : IO A := statement (λ s, (s, f (tables s))).
(** [QueryRow(...).Scan] with the error for no rows. *)
Definition select_row {A} (f : mrv_db → option A) (e : workflow_error) : IO A :=
  o ← select f;
  match o with Some a => mret a | None => fail e end.
Definition exec (f : mrv_db → mrv_db) : IO unit := statement (λ s, (set_tables (f (tables s)) s, tt)).
(** A statement the server refuses for the reason [refusal] finds in the tables. *)
Definition exec_unless (refusal : mrv_db → option workflow_error) (f : mrv_db → mrv_db) : IO unit :=
  aborted ← gets tx_failed;
  if (aborted : bool) then fail TransactionAborted
  else
    why ← gets (refusal ∘ tables);
    match why with Some e => refuse e | None => exec f end.
Definition exec_if (allowed : mrv_db → bool) (e : workflow_error) (f : mrv_db → mrv_db) : IO unit :=
  exec_unless (λ d, if allowed d then None else Some e) f.
(** The parameters [$1] to [$n] of a statement whose text uses those of [used]: the
    server cannot determine the type of one that is not used. *)
Definition exec_params (used : list nat) (n : nat) (f : mrv_db → mrv_db) : IO unit :=
  exec_if (λ _, forallb (λ i, bool_decide (i ∈ used)) (seq 1 n)) UndeterminedParameter f.
(** UPDATE of one annual report, through the trigger. *)
Definition update_report (id : string) (q : AnnualReport → AnnualReport) : IO unit :=
  exec_if (λ d, match mrv_annual_reports d !! id with
                | Some r => state_guard r (q r) && frozen_guard r (q r)
                | None => true
                end) TriggerRaised (on_annual (alter q id)).

(** The transaction bound to the acting principal. *)
Definition withActor {A} (actor : string) (fn : IO A) : IO A :=
  if blank actor then fail ActorRequired
  else transaction tables set_tables StoreFailure StoreFailure
         (_ ← modify (set_failed false);
          _ ← statement (λ s, (s, tt));
          a ← fn;
          failed ← gets tx_failed;
          if (failed : bool) then fail TransactionAborted else mret a).

(** ** Time and numbers at the database boundary *)

(** A uint64 goes into a BIGINT column when it fits int64. *)
Definition fits_bigint (v : Z) : bool := v <? 2 ^ 63.
Definition opt_fits_bigint (o : option Z) : bool := match o with Some v => fits_bigint v | None => true end.

(** ** What is outside the code *)

(** [json.Marshal] of a document, the canonical form of a JSON text, [json.Valid],
    [uuid.Parse], and the order of the fuel query under the collation of the
    database. *)
Class MrvWorld := {
  marshal : json → string;
  canonicalize : string → option string;
  json_Valid : string → bool;
  uuid_Valid : string → bool;
  fuel_order : relation FuelReport;
  fuel_order_dec : ∀ a b, Decision (fuel_order a b);
}.
#[export] Existing Instance fuel_order_dec.

(** The rows the position plane holds at the time of a query: AIS positions with
    their label, and zone events, in the order of their instants. *)
Record zone_event := mkZoneEvent { ze_id : string; ze_zone : string; ze_event : string; ze_occurred : Z }.
Record plane := mkPlane {
  ais_positions : string → list (string * ActivityFix);
  geofence_events : string → list zone_event;
}.

Record SignerKeys := mkSigner { Sign_ : Envelope → option string; SignCanonical : string → option string }.

Record Service := mkService {
  Signer : SignerKeys;
  Principal : Provenance;
  CII : option CIIConfig;
  sv_Deadlines : Deadlines;
  sv_ActivityParams : ActivityParams;
  CrosscheckTolerancePermille : Z;
  DcsGTThreshold : Z;
  (** the rows of mrv_emission_factors, which the service may only read *)
  factors : list FactorRow;
}.

Inductive wiring_error := PoolRequired | NilSigner | PrincipalMissing | RegistryRequired
| ActivityInvalid (e : activity_error) | ToleranceInvalid | ThresholdInvalid.

Definition NewService (pool : bool) (signer : option SignerKeys) (principal : Provenance) (registry : bool)
  (cii : option CIIConfig) (deadlines : Deadlines) (activity : ActivityParams) (tolerancePermille dcsGTThreshold : Z)
  (table : list FactorRow) : result wiring_error Service :=
  if negb pool then Err PoolRequired
  else match signer with
  | None => Err NilSigner
  | Some signer =>
      if blank (PrincipalID principal) || blank (PrincipalRole principal) then Err PrincipalMissing
      else if negb registry then Err RegistryRequired
      else match params_Validate activity with
      | Err e => Err (ActivityInvalid e)
      | Ok _ =>
          if (tolerancePermille =? 0) || (1000 <? tolerancePermille) then Err ToleranceInvalid
          else if dcsGTThreshold =? 0 then Err ThresholdInvalid
          else Ok (mkService signer principal cii deadlines activity tolerancePermille dcsGTThreshold table)
      end
  end.

Section service.
Context {Hmath : Math} {Hpow : MathPow} {Hworld : MrvWorld} (service : Service).

(** ** Envelopes and the outbox *)

(** [bundle] and [entry] are the two UUIDs of the message bundle. *)
Definition BuildSignedEnvelope (signer : option SignerKeys) (eventType eventID correlationID : string)
  (resource : list (string * json)) (occurredAt : Z) (principal : Provenance) (ledgerCommitHash bundle entry : string) :
  result workflow_error Envelope :=
  match signer with
  | None => Err (EnvelopeError SignerRequired)
  | Some signer =>
  match eventContracts !! eventType with
  | None => Err (EnvelopeError UnknownEventType)
  | Some contract =>
      if negb (uuid_Valid eventID) then Err EventIDInvalid
      else if blank correlationID then Err (EnvelopeError CorrelationRequired)
      else if blank (PrincipalID principal) || blank (PrincipalRole principal) then Err (EnvelopeError PrincipalRequired)
      else if time_IsZero occurredAt then Err (EnvelopeError OccurredAtRequired)
      else if negb (encodable (JObj resource)) then Err (EnvelopeError PayloadNotEncodable)
      else if bool_decide (resource = []) then Err (EnvelopeError PayloadNotObject)
      else match field "@type" resource with
      | Some _ => Err (EnvelopeError PayloadTypeClash)
      | None =>
          let envelope := mkEnvelope EnvelopeVersion_ eventID eventType occurredAt ProducerName correlationID
            (classification contract)
            (if String.eqb (classification contract) "CONFIDENTIAL" then "CONFIDENTIAL" else "")
            (mkBundle ("bdl-" +:+ bundle) ("urn:uuid:" +:+ entry)
               (with_type (typeURLPrefix +:+ resourceType contract) resource))
            (mkProvenance (PrincipalID principal) (PrincipalRole principal) ledgerCommitHash "") in
          match Sign_ signer envelope with
          | None => Err (EnvelopeError SignatureFailed)
          | Some signature =>
              Ok (mkEnvelope (EnvelopeVersion envelope) (EventID envelope) (EventType envelope)
                    (OccurredAt envelope) (env_Producer envelope) (CorrelationID envelope)
                    (env_Classification envelope) (RecordClassification envelope) (FHIR envelope)
                    (set_signature (env_Provenance envelope) signature))
          end
      end
  end
  end.

(** What a request brings from outside: the clock, [now()] of its transaction, and
    the UUIDs it draws, in the order of the code. *)
Record draw := mkDraw {
  now_ : Z; tx_now : Z; id1 : string; id2 : string; event : string; bundle : string; entry : string }.

Definition lift {A} (r : result workflow_error A) : IO A :=
  match r with Ok a => mret a | Err e => fail e end.

Definition enqueueOutbox (x : draw) (eventType aggregateID correlationID : string) (resource : list (string * json))
  (occurredAt : Z) (ledgerCommitHash : string) : IO string :=
  envelope ← lift (BuildSignedEnvelope (Some (Signer service)) eventType (event x) correlationID resource occurredAt
                     (Principal service) ledgerCommitHash (bundle x) (entry x));
  _ ← exec_unless (λ d, if negb (bool_decide (eventType ∈ outbox_event_types)) then Some CheckViolation
                        else if bool_decide (mrv_outbox d !! event x = None) then None else Some UniqueViolation)
        (on_outbox (insert (event x) (mkOutboxRow aggregateID eventType envelope (tx_now x) None)));
  mret (event x).

Definition digestEvidence (evidence : string) : result workflow_error string :=
  let evidence := if String.eqb evidence "" then "{}" else evidence in
  if json_Valid evidence then Ok ("sha256:" +:+ sha256_hex evidence) else Err EvidenceInvalid.

(** ** Ships and monitoring plans *)

Definition RegisterShip (x : draw) (actor : string) (ship : Ship) : IO Ship :=
  if negb (digits_exactly 7 (sh_ImoNumber ship)) then fail ShipInvalid
  else if negb (String.eqb (sh_MMSI ship) "") && negb (digits_exactly 9 (sh_MMSI ship)) then fail ShipInvalid
  else if blank (ShipName ship) || (GT ship =? 0) then fail ShipInvalid
  else
    let row created := mkShip (sh_ImoNumber ship) (sh_MMSI ship) (ShipName ship) (GT ship) (DWT ship) (ShipType ship)
      (if String.eqb (FlagState ship) "" then "NG" else FlagState ship) (InternationalVoyages ship)
      ((DcsGTThreshold service <=? GT ship) && InternationalVoyages ship) actor created in
    _ ← withActor actor
          (exec_if (λ d, bool_decide (mrv_ships d !! sh_ImoNumber ship = None)) UniqueViolation
             (on_ships (insert (sh_ImoNumber ship) (row (tx_now x)))));
    mret (row (now_ x)).

Definition GetShip (actor imoNumber : string) : IO Ship :=
  withActor actor (select_row (λ d, mrv_ships d !! imoNumber) ErrShipNotFound).

Definition plans_of (d : mrv_db) (imoNumber : string) : list MonitoringPlan :=
  filter (λ p, pl_ImoNumber p = imoNumber) (map_to_list (mrv_monitoring_plans d)).*2.
(** [COALESCE(MAX(version), 0) + 1]. *)
Definition next_version (d : mrv_db) (imoNumber : string) : Z :=
  fold_right Z.max 0 (Version <$> plans_of d imoNumber) + 1.

Definition ship_exists (d : mrv_db) (imoNumber : string) : bool := bool_decide (is_Some (mrv_ships d !! imoNumber)).

Definition PutMonitoringPlan (x : draw) (actor imoNumber : string) (methods : gmap string string)
  (fuelGrades : list string) : IO MonitoringPlan :=
  if bool_decide (methods = ∅) || bool_decide (fuelGrades = []) then fail PlanInvalid
  else if negb (bool_decide (map_Forall (λ consumer method, is_consumer consumer && is_method method = true) methods))
  then fail PlanInvalid
  else if existsb blank fuelGrades then fail PlanInvalid
  else
    withActor actor
      (exists_ ← select (λ d, ship_exists d imoNumber);
       _ ← require exists_ ErrShipNotFound;
       version ← select (λ d, next_version d imoNumber);
       let row created := mkPlan (id1 x) imoNumber version methods fuelGrades PlanDraft actor created None None in
       _ ← exec_if (λ d, bool_decide (mrv_monitoring_plans d !! id1 x = None)
                         && bool_decide (Forall (λ p, Version p ≠ version) (plans_of d imoNumber))) UniqueViolation
             (on_plans (insert (id1 x) (row (tx_now x))));
       mret (row (now_ x))).

(** UPDATE ... SET state = 'SUPERSEDED' WHERE imo_number = $1 AND state = 'CONFIRMED'. *)
Definition supersede (imoNumber : string) (p : MonitoringPlan) : MonitoringPlan :=
  if bool_decide (pl_ImoNumber p = imoNumber ∧ pl_State p = PlanConfirmed) then set_plan_state PlanSuperseded p else p.

Definition ConfirmMonitoringPlan (x : draw) (actor planID : string) : IO MonitoringPlan :=
  withActor actor
    (plan ← select_row (λ d, mrv_monitoring_plans d !! planID) ErrPlanNotFound;
     if String.eqb (pl_CreatedBy plan) actor then fail ErrMakerCheckerConflict
     else if negb (bool_decide (pl_State plan = PlanDraft) || bool_decide (pl_State plan = PlanSubmitted))
     then fail ErrPlanState
     else
       let now := pg_time (now_ x) in
       _ ← exec (on_plans (fmap (supersede (pl_ImoNumber plan))));
       _ ← exec (on_plans (alter (set_plan_confirmed actor now) planID));
       mret (set_plan_confirmed actor now plan)).

(** ** Fuel reports *)

Definition validateFuelReport (report : FuelReport) : bool :=
  negb (time_IsZero (PeriodFrom report) || time_IsZero (PeriodTo report) || negb (PeriodFrom report <? PeriodTo report))
  && is_consumer (Consumer report) && is_method (Method report)
  && negb (String.eqb (Method report) "A" && blank (BdnRef report))
  && negb (blank (fu_FuelGrade report)).

(** EXISTS of a CONFIRMED plan with [methods ->> consumer = method] and the grade. *)
Definition plan_covers (d : mrv_db) (imoNumber consumer method grade : string) : bool :=
  existsb (λ p, bool_decide (pl_State p = PlanConfirmed) && bool_decide (Methods p !! consumer = Some method)
                && bool_decide (grade ∈ FuelGrades p)) (plans_of d imoNumber).

Definition resolve_factor (grade : string) (periodTo : Z) : IO FactorRow :=
  r ← select (λ _, ResolveFactor (factors service) grade "CO2" periodTo);
  match r with Ok f => mret f | Err e => fail (ArithmeticError e) end.

Definition fuel_by_ref (d : mrv_db) (ref : string) : option FuelReport :=
  List.find (λ r, String.eqb (ExternalRef r) ref) (map_to_list (mrv_fuel_reports d)).*2.

(** The fields an identical replay must share with the stored report. *)
Definition same_submission (existing report : FuelReport) : bool :=
  (PeriodFrom existing =? PeriodFrom report) && (PeriodTo existing =? PeriodTo report)
  && String.eqb (Consumer existing) (Consumer report) && String.eqb (fu_FuelGrade existing) (fu_FuelGrade report)
  && String.eqb (Method existing) (Method report) && (FuelTonnesMilli existing =? FuelTonnesMilli report)
  && bool_decide (fu_DistanceNmMilli existing = fu_DistanceNmMilli report)
  && bool_decide (fu_HoursUnderwayMinutes existing = fu_HoursUnderwayMinutes report)
  && String.eqb (BdnRef existing) (BdnRef report).

(** A report with the identity the code gives it; [at_db] as the columns hold it. *)
Definition filed (id imoNumber key actor digest : string) (created : Z) (report : FuelReport) : FuelReport :=
  mkFuelReport id imoNumber key (PeriodFrom report) (PeriodTo report) (Consumer report) (fu_FuelGrade report)
    (Method report) (FuelTonnesMilli report) (fu_DistanceNmMilli report) (fu_HoursUnderwayMinutes report)
    (BdnRef report) (if String.eqb (Evidence_ report) "" then "{}" else Evidence_ report) digest actor created.
Definition at_db (r : FuelReport) : FuelReport :=
  mkFuelReport (fu_ReportID r) (fu_ImoNumber r) (ExternalRef r) (pg_time (PeriodFrom r)) (pg_time (PeriodTo r))
    (Consumer r) (fu_FuelGrade r) (Method r) (FuelTonnesMilli r) (fu_DistanceNmMilli r) (fu_HoursUnderwayMinutes r)
    (BdnRef r) (Evidence_ r) (EvidenceDigestSha256 r) (ReportedBy r) (fu_CreatedAt r).
(** The stored report as a replay returns it: the scan reads neither the ship nor
    the evidence. *)
Definition replayed_as (imoNumber : string) (r : FuelReport) : FuelReport :=
  mkFuelReport (fu_ReportID r) imoNumber (ExternalRef r) (PeriodFrom r) (PeriodTo r)
    (Consumer r) (fu_FuelGrade r) (Method r) (FuelTonnesMilli r) (fu_DistanceNmMilli r) (fu_HoursUnderwayMinutes r)
    (BdnRef r) "" (EvidenceDigestSha256 r) (ReportedBy r) (fu_CreatedAt r).

(** The transaction of [SubmitFuelReport]. *)
Definition fuel_intake (x : draw) (actor imoNumber idempotencyKey digest : string) (report : FuelReport) :
  IO (FuelReport * bool) :=
  exists_ ← select (λ d, ship_exists d imoNumber);
  _ ← require exists_ ErrShipNotFound;
  planOK ← select (λ d, plan_covers d imoNumber (Consumer report) (Method report) (fu_FuelGrade report));
  _ ← require planOK ErrNoConfirmedPlan;
  _ ← resolve_factor (fu_FuelGrade report) (PeriodTo report);
  existing ← select (λ d, fuel_by_ref d idempotencyKey);
  match existing with
  | Some existing =>
      if same_submission existing report then mret (replayed_as imoNumber existing, true)
      else fail ErrIdempotencyConflict
  | None =>
      let now := pg_time (now_ x) in
      let row := filed (id1 x) imoNumber idempotencyKey actor digest now report in
      _ ← require (fits_bigint (FuelTonnesMilli report) && opt_fits_bigint (fu_DistanceNmMilli report)
                   && opt_fits_bigint (fu_HoursUnderwayMinutes report)) EncodeFailure;
      _ ← exec_if (λ d, bool_decide (mrv_fuel_reports d !! id1 x = None)
                        && bool_decide (fuel_by_ref d idempotencyKey = None)) UniqueViolation
            (on_fuel (insert (id1 x) (at_db row)));
      _ ← enqueueOutbox x EventFuelReport imoNumber (id1 x) (fuel_report_resource row) now "";
      mret (row, false)
  end.

Definition SubmitFuelReport (x : draw) (actor imoNumber idempotencyKey : string) (report : FuelReport) :
  IO (FuelReport * bool) :=
  if blank idempotencyKey then fail ErrIdempotencyKeyNeeded
  else if negb (validateFuelReport report) then fail FuelReportInvalid
  else match digestEvidence (Evidence_ report) with
       | Err e => fail e
       | Ok digest => withActor actor (fuel_intake x actor imoNumber idempotencyKey digest report)
       end.

(** ** Voyages and activity *)

Definition event_digest (e : zone_event) : string :=
  "sha256:" +:+ sha256_hex (ze_id e +:+ "|" +:+ ze_zone e +:+ "|" +:+ ze_event e +:+ "|" +:+ format_rfc3339 (ze_occurred e)).

(** The window of the evidence query. *)
Definition evidence_window (bosp eosp : option Z) : option (Z * Z) :=
  match bosp, eosp with
  | None, None => None
  | Some b, Some e => Some (b, e)
  | Some b, None => Some (b - 24 * hour, b + 24 * hour)
  | None, Some e => Some (e - 24 * hour, e + 24 * hour)
  end.
Definition geofenceEvidenceDigests (pl : plane) (mmsi : string) (bosp eosp : option Z) : IO (list string) :=
  match evidence_window bosp eosp with
  | None => mret []
  | Some (from, to) =>
      select (λ _, event_digest <$> take 100 (filter (λ e, pg_time from ≤ ze_occurred e ≤ pg_time to) (geofence_events pl mmsi)))
  end.

Definition RecordVoyage (x : draw) (pl : plane) (actor imoNumber : string) (voyage : Voyage) : IO Voyage :=
  if match BospAt voyage, EospAt voyage with Some b, Some e => negb (b <? e) | _, _ => false end then fail VoyageInvalid
  else
    withActor actor
      (ship ← select_row (λ d, mrv_ships d !! imoNumber) ErrShipNotFound;
       digests ← match mmsi_column ship with
                 | Some mmsi => geofenceEvidenceDigests pl mmsi (BospAt voyage) (EospAt voyage)
                 | None => mret []
                 end;
       let now := pg_time (now_ x) in
       let recorded imo col := mkVoyage (id1 x) imo (col <$> BospAt voyage) (BospPort voyage) (col <$> EospAt voyage)
         (EospPort voyage) (CargoTonnesMilli voyage) (LadenDistanceNmMilli voyage) "OPERATOR" digests actor now in
       _ ← require (opt_fits_bigint (CargoTonnesMilli voyage) && opt_fits_bigint (LadenDistanceNmMilli voyage)) EncodeFailure;
       _ ← exec_if (λ d, bool_decide (mrv_voyages d !! id1 x = None)) UniqueViolation
             (on_voyages (insert (id1 x) (recorded imoNumber pg_time)));
       _ ← enqueueOutbox x EventVoyage imoNumber (id1 x) (voyage_resource (recorded imoNumber id)) now "";
       mret (recorded (vo_ImoNumber voyage) id)).

(** The fixes of a window, in all labels or in the given ones. *)
Definition fixes_in (pl : plane) (mmsi : string) (from to : Z) (labels : option (list string)) : list ActivityFix :=
  snd <$> filter (λ lf, pg_time from ≤ af_ObservedAt lf.2 < pg_time to
                        ∧ match labels with Some ls => bool_decide (lf.1 ∈ ls) | None => true end = true) (ais_positions pl mmsi).
Definition activityFixes (pl : plane) (mmsi : string) (from to : Z) (clearedLabels : list string) : IO (list ActivityFix) :=
  select (λ _, fixes_in pl mmsi from to (Some clearedLabels)).

Definition lift_estimate {A} (r : result activity_error A) : IO A :=
  match r with Ok a => mret a | Err e => fail (EstimateError e) end.

Definition EstimateActivityForShip (x : draw) (pl : plane) (actor imoNumber : string) (from to : Z)
  (clearedLabels : list string) : IO ActivityEstimateResource :=
  if negb (from <? to) then fail PeriodInvalid
  else if bool_decide (clearedLabels = []) then fail ClearanceEmpty
  else
    withActor actor
      (ship ← select_row (λ d, mrv_ships d !! imoNumber) ErrShipNotFound;
       match mmsi_column ship with
       | None => fail NoAISLink
       | Some mmsi =>
           fixes ← activityFixes pl mmsi from to clearedLabels;
           estimate ← lift_estimate (EstimateActivity fixes from to (sv_ActivityParams service));
           let now := pg_time (now_ x) in
           let resource := mkEstimateResource (id1 x) imoNumber mmsi from to estimate now in
           _ ← enqueueOutbox x EventActivityEstimate mmsi (id1 x) (activity_resource resource) now "";
           mret resource
       end).

(** ** Emissions of a voyage *)

Definition fuel_row (r : FuelReport) : FuelRow := mkFuelRow (fu_FuelGrade r) (FuelTonnesMilli r) (PeriodFrom r) (PeriodTo r).
Definition fuel_where (d : mrv_db) (p : FuelReport → bool) : list FuelReport :=
  merge_sort fuel_order (filter (λ r, p r = true) (map_to_list (mrv_fuel_reports d)).*2).
Definition overlapping_fuel (d : mrv_db) (imoNumber : string) (from to : Z) : list FuelReport :=
  fuel_where d (λ r, String.eqb (fu_ImoNumber r) imoNumber && (PeriodFrom r <? to) && (from <? PeriodTo r)).

Definition lift_mrv {A} (r : result mrv_error A) : IO A :=
  match r with Ok a => mret a | Err e => fail (ArithmeticError e) end.

(** The loop of [Mrv.voyage_loop] with its queries; whether the driver lets them
    run while the fuel rows are being read is not modelled. *)
Fixpoint allocate_fuel (from to : Z) (rows : list FuelRow) (acc : voyage_totals) : IO voyage_totals :=
  match rows with
  | [] => mret acc
  | r :: rows' =>
      let allocated := allocateOverlap (fr_periodFrom r) (fr_periodTo r) from to (fr_fuelMilli r) in
      if allocated =? 0 then allocate_fuel from to rows' acc
      else
        factor ← resolve_factor (fr_grade r) (fr_periodTo r);
        co2Milli ← lift_mrv (CO2MilliTonnes allocated (FactorNano factor));
        allocate_fuel from to rows'
          (mkVoyageTotals (add_grade (fr_grade r) allocated co2Milli factor (PerGrade acc))
             (uint64 (TotalCO2TonnesMilli acc + co2Milli))
             (uint64 (vt_AllocatedFuelTonnesMilli acc + allocated))
             (FuelReportCount acc + 1))
  end.

Definition VoyageEmissions (x : draw) (pl : plane) (actor imoNumber voyageID : string) (clearedLabels : list string) :
  IO VoyageEmissionsResource :=
  withActor actor
    (found ← select_row (λ d, voyage ← mrv_voyages d !! voyageID;
                              if String.eqb (vo_ImoNumber voyage) imoNumber then
                                ship ← mrv_ships d !! imoNumber; Some (voyage, mmsi_column ship)
                              else None) ErrVoyageNotFound;
     match BospAt found.1, EospAt found.1 with
     | Some from, Some to =>
         if negb (from <? to) then fail ErrVoyageZeroDurationWindow
         else
           rows ← select (λ d, fuel_row <$> overlapping_fuel d imoNumber from to);
           totals ← allocate_fuel from to rows no_emissions;
           crosscheck ← match found.2 with
                        | Some mmsi =>
                            if bool_decide (clearedLabels = []) then mret None
                            else
                              fixes ← activityFixes pl mmsi from to clearedLabels;
                              estimate ← lift_estimate (EstimateActivity fixes from to (sv_ActivityParams service));
                              mret (Some (mkEstimateResource (id2 x) imoNumber mmsi from to estimate (pg_time (now_ x))))
                        | None => mret None
                        end;
           let now := pg_time (now_ x) in
           let result := mkVoyageEmissions (id1 x) voyageID imoNumber from to totals crosscheck now in
           _ ← enqueueOutbox x EventVoyageEmissions imoNumber (id1 x) (voyage_emissions_resource result) now "";
           mret result
     | _, _ => fail ErrVoyageWindowIncomplete
     end).

(** ** The annual report *)

(** The aggregate of a grade, created by its first row with that row's factor. *)
Fixpoint add_grade_total (grade : string) (fuelMilli co2 : Z) (factor : FactorRow) (l : list gradeTotal) : list gradeTotal :=
  match l with
  | [] => [mkGradeTotal grade (uint64 fuelMilli) (uint64 co2) (FactorNano factor) (SourceCitation factor)]
  | g :: l' =>
      if String.eqb (gt_FuelGrade g) grade then
        mkGradeTotal grade (uint64 (gt_FuelTonnesMilli g + fuelMilli)) (uint64 (gt_CO2TonnesMilli g + co2))
          (gt_FactorNano g) (gt_FactorCitation g) :: l'
      else g :: add_grade_total grade fuelMilli co2 factor l'
  end.
Definition no_totals : reportTotals := mkReportTotals [] 0 0 0 0 0.
Definition add_report (r : FuelReport) (factor : FactorRow) (co2 : Z) (t : reportTotals) : reportTotals :=
  mkReportTotals (add_grade_total (fu_FuelGrade r) (FuelTonnesMilli r) co2 factor (rt_PerGrade t))
    (uint64 (TotalFuelTonnesMilli t + FuelTonnesMilli r)) (uint64 (rt_CO2TonnesMilli t + co2))
    (uint64 (rt_DistanceNmMilli t + default 0 (fu_DistanceNmMilli r)))
    (uint64 (rt_HoursUnderwayMinutes t + default 0 (fu_HoursUnderwayMinutes r)))
    (rt_FuelReportCount t + 1).
Definition factor_map_key (f : FactorRow) : string := FactorKey f +:+ "|" +:+ Gas f +:+ "|" +:+ format_date (ValidFrom f).

Fixpoint aggregate (rows : list FuelReport) (t : reportTotals) (used : gmap string FactorRow) :
  IO (reportTotals * gmap string FactorRow) :=
  match rows with
  | [] => mret (t, used)
  | r :: rows' =>
      factor ← resolve_factor (fu_FuelGrade r) (PeriodTo r);
      co2 ← lift_mrv (CO2MilliTonnes (FuelTonnesMilli r) (FactorNano factor));
      aggregate rows' (add_report r factor co2 t) (<[factor_map_key factor := factor]> used)
  end.

Definition year_fuel (d : mrv_db) (imoNumber : string) (year : Z) : list FuelReport :=
  fuel_where d (λ r, String.eqb (fu_ImoNumber r) imoNumber
                     && (time_Date year 1 1 <=? PeriodFrom r) && (PeriodTo r <=? time_Date (year + 1) 1 1)).
Definition report_of (d : mrv_db) (imoNumber : string) (year : Z) : option AnnualReport :=
  List.find (λ r, String.eqb (ImoNumber r) imoNumber && (CalendarYear r =? year)) (map_to_list (mrv_annual_reports d)).*2.

(** [at_] is the clock of the operation; the totals decode to what was encoded. *)
Definition enqueueAnnualEvent (x : draw) (report : AnnualReport) (at_ : Z) : IO unit :=
  _ ← enqueueOutbox x EventEmissionsAnnual (ReportID report) (ReportID report)
        (emissions_annual_resource report (default at_ (SubmittedAt report))) at_ "";
  mret tt.

Definition CompileAnnualReport (x : draw) (actor imoNumber : string) (year : Z) : IO AnnualReport :=
  if (year <? 2019) || (2200 <? year) then fail YearOutOfRange
  else
    withActor actor
      (ship ← select_row (λ d, mrv_ships d !! imoNumber) ErrShipNotFound;
       rows ← select (λ d, year_fuel d imoNumber year);
       agg ← aggregate rows no_totals ∅;
       let totals := agg.1 in
       let factorSetHash := FactorSetHash (map_to_list agg.2).*2 in
       let cii := ComputeCII (CII service) (ShipType ship) (GT ship) (default 0 (DWT ship)) year
                    (rt_CO2TonnesMilli totals) (rt_DistanceNmMilli totals) in
       let attained := AttainedNano cii in
       let required := RequiredNano cii in
       let rating := if NotComputable cii then None else Some (co_Rating cii) in
       existing ← select (λ d, report_of d imoNumber year);
       let now := pg_time (now_ x) in
       let compiled id_ := mkAnnualReport id_ imoNumber year totals attained required rating factorSetHash Draft
                             actor None now None in
       report ← match existing with
                | None =>
                    _ ← require (opt_fits_bigint attained && opt_fits_bigint required) EncodeFailure;
                    _ ← exec_if (λ d, bool_decide (mrv_annual_reports d !! id1 x = None)
                                      && bool_decide (report_of d imoNumber year = None)) UniqueViolation
                          (on_annual (insert (id1 x) (compiled (id1 x))));
                    mret (compiled (id1 x))
                | Some e =>
                    if negb (bool_decide (State e = Draft)) then fail ErrReportState
                    else
                      _ ← exec_params [1; 3; 4; 5; 6; 7; 8]%nat 8
                            (on_annual (alter (λ r, if bool_decide (State r = Draft)
                                                    then set_compiled totals attained required rating factorSetHash actor r
                                                    else r) (ReportID e)));
                      mret (compiled (ReportID e))
                end;
       _ ← enqueueAnnualEvent x report now;
       mret report).

Definition lockReport (reportID : string) : IO AnnualReport :=
  select_row (λ d, mrv_annual_reports d !! reportID) ErrReportNotFound.

Definition SubmitAnnualReport (x : draw) (actor reportID : string) : IO AnnualReport :=
  withActor actor
    (loaded ← lockReport reportID;
     if negb (bool_decide (State loaded = Draft)) then fail ErrReportState
     else if negb (String.eqb (CompiledBy loaded) actor) then fail NotTheCompiler
     else
       let now := pg_time (now_ x) in
       _ ← update_report reportID (set_submitted actor now);
       let report := set_submitted actor now loaded in
       _ ← enqueueAnnualEvent x report now;
       mret report).

(** ** Verification *)

Definition crosscheck_text (r : CrosscheckResult) : string :=
  match r with
  | CrosscheckMatch => "match" | CrosscheckDiscrepant => "discrepant"
  | CrosscheckInsufficientCoverage => "insufficient_coverage" | CrosscheckNoReportedValues => "no_reported_values"
  end.
(** The record as a JSON object (its keys sorted) and its digest. *)
Definition marshalCrosscheck (record : list (string * json)) (r : CrosscheckResult) : json * string * CrosscheckResult :=
  let doc := JObj (sort_by fst (("result", JStr (crosscheck_text r)) :: record)) in
  let raw := marshal doc in
  (doc, "sha256:" +:+ sha256_hex (default raw (canonicalize raw)), r).

Definition aisCrosscheck (pl : plane) (report : AnnualReport) : IO (json * string * CrosscheckResult) :=
  let from := time_Date (CalendarYear report) 1 1 in
  let to := time_Date (CalendarYear report + 1) 1 1 in
  linked ← attempt (select_row (λ d, mrv_ships d !! ImoNumber report ≫= mmsi_column) ErrShipNotFound);
  match linked with
  | Err _ => mret (marshalCrosscheck [("note", JStr "no confirmed AIS link")] CrosscheckNoReportedValues)
  | Ok mmsi =>
      rows ← attempt (select (λ _, fixes_in pl mmsi from to None));
      match rows with
      | Err _ => mret (marshalCrosscheck [("note", JStr "position plane query failed")] CrosscheckInsufficientCoverage)
      | Ok fixes =>
          match EstimateActivity fixes from to (sv_ActivityParams service) with
          | Err _ => mret (marshalCrosscheck [] CrosscheckInsufficientCoverage)
          | Ok estimate =>
              let distance := rt_DistanceNmMilli (Totals report) in
              let hours := rt_HoursUnderwayMinutes (Totals report) in
              let result := Crosscheck estimate distance hours (CrosscheckTolerancePermille service) in
              mret (marshalCrosscheck
                [("estimatedDistanceNmMilli", JStr (show_Z (DistanceNmMilli estimate)));
                 ("estimatedHoursUnderwayMinutes", JStr (show_Z (HoursUnderwayMinutes estimate)));
                 ("reportedDistanceNmMilli", JStr (show_Z distance));
                 ("reportedHoursUnderwayMinutes", JStr (show_Z hours));
                 ("fixCount", JNum (FixCount estimate)); ("inputDigestSha256", JStr (InputDigestSha256 estimate))] result)
          end
      end
  end.

Definition decided_state (d : Decision_) : ReportState :=
  match d with DecisionVerify => Verified | DecisionReject => Rejected | DecisionClarify => Submitted end.
Definition reason_code (d : Decision_) : string :=
  match d with
  | DecisionVerify => "" | DecisionReject => "VERIFICATION_REJECTED" | DecisionClarify => "OPERATOR_CLARIFICATION_REQUIRED"
  end.

Definition RecordDecision (x : draw) (pl : plane) (actor reportID decision reason : string) :
  IO (Verification * CrosscheckResult) :=
  match parse_decision decision with
  | None => fail DecisionInvalid
  | Some decision =>
      if negb (bool_decide (decision = DecisionVerify)) && blank reason then fail ReasonRequired
      else
        withActor actor
          (report ← lockReport reportID;
           if negb (bool_decide (State report = Submitted) || bool_decide (State report = VerifierReview))
           then fail ErrReportState
           else if bool_decide (SubmittedBy report = Some actor) then fail ErrMakerCheckerConflict
           else
             checked ← aisCrosscheck pl report;
             let '(crosscheck, digest, result) := checked in
             _ ← (if bool_decide (State report = Submitted)
                  then update_report reportID (set_report_state VerifierReview) else mret tt);
             _ ← update_report reportID (set_report_state (decided_state decision));
             let now := pg_time (now_ x) in
             let verification := mkVerification (id1 x) reportID decision actor reason crosscheck now in
             _ ← exec_unless (λ d, if negb (four_eyes_guard d reportID actor) then Some TriggerRaised
                                   else if bool_decide (mrv_verifications d !! id1 x = None) then None
                                   else Some UniqueViolation)
                   (on_verifications (insert (id1 x) verification));
             _ ← enqueueOutbox x EventVerification reportID (id1 x)
                   (verification_resource verification (reason_code decision) digest) now "";
             mret (verification, result))
  end.

(** ** Statements of compliance *)

Definition totals_json (t : reportTotals) : json :=
  JObj ([("perGrade", JArr ((λ g, JObj ([("fuelGrade", JStr (gt_FuelGrade g))]
           ++ u64_field "fuelTonnesMilli" (gt_FuelTonnesMilli g) ++ u64_field "co2TonnesMilli" (gt_CO2TonnesMilli g)
           ++ u64_field "factorNano" (gt_FactorNano g) ++ [("factorCitation", JStr (gt_FactorCitation g))]))
           <$> rt_PerGrade t))]
    ++ u64_field "totalFuelTonnesMilli" (TotalFuelTonnesMilli t) ++ u64_field "co2TonnesMilli" (rt_CO2TonnesMilli t)
    ++ u64_field "distanceNmMilli" (rt_DistanceNmMilli t) ++ u64_field "hoursUnderwayMinutes" (rt_HoursUnderwayMinutes t)
    ++ [("fuelReportCount", JNum (rt_FuelReportCount t))]).

Definition artifact_document (report : AnnualReport) (at_ : Z) : list (string * json) :=
  [("artifactType", JStr "mrv-annual-report-artifact/v1"); ("annualReportId", JStr (ReportID report));
   ("imoNumber", JStr (ImoNumber report)); ("calendarYear", JNum (CalendarYear report));
   ("state", JStr (report_state_text (State report))); ("factorSetDigestSha256", JStr (FactorSetHash_ report));
   ("issuedAt", JStr (format_rfc3339 at_)); ("producer", JStr ProducerName); ("totals", totals_json (Totals report))]
  ++ match AttainedCiiNano report with
     | Some attained =>
         [("attainedCiiNano", JStr (show_Z attained)); ("requiredCiiNano", JStr (show_Z (default 0 (RequiredCiiNano report))));
          ("ciiRating", JStr (default "" (CiiRating report)))]
     | None => [("cii", JStr "NOT_COMPUTABLE")]
     end.
(** The keys of a Go map are marshalled in order. *)
Definition document (fields : list (string * json)) : json := JObj (sort_by fst fields).

Definition buildArtifact (report : AnnualReport) (at_ : Z) : result workflow_error (json * string) :=
  let fields := artifact_document report at_ in
  match canonicalize (marshal (document fields)) ≫= SignCanonical (Signer service) with
  | None => Err SignArtifactFailed
  | Some signature =>
      let full := document (("signature", JStr signature) :: fields) in
      Ok (full, sha256_hex (marshal full))
  end.

Definition soc_of (d : mrv_db) (reportID : string) : option StatementOfCompliance :=
  List.find (λ s, String.eqb (soc_ReportID s) reportID) (map_to_list (mrv_statements_of_compliance d)).*2.

Definition IssueSoC (x : draw) (actor reportID : string) : IO (string * string) :=
  withActor actor
    (report ← lockReport reportID;
     if negb (bool_decide (State report = Verified)) then fail ErrReportState
     else
       existing ← select (λ d, bool_decide (is_Some (soc_of d reportID)));
       if (existing : bool) then fail ErrSoCExists
       else
         let now := pg_time (now_ x) in
         built ← lift (buildArtifact report now);
         _ ← exec_if (λ d, bool_decide (mrv_report_artifacts d !! reportID = None)) UniqueViolation
               (on_artifacts (insert reportID (mkArtifact built.1 built.2)));
         _ ← exec_unless (λ d, if negb (soc_guard d reportID) then Some TriggerRaised
                               else if bool_decide (mrv_statements_of_compliance d !! id1 x = None)
                                       && bool_decide (soc_of d reportID = None) then None
                               else Some UniqueViolation)
               (on_socs (insert (id1 x) (mkSoC reportID actor now built.2)));
         let artifactDigest := "sha256:" +:+ built.2 in
         _ ← enqueueOutbox x EventSoC (id1 x) reportID (soc_resource (id1 x) report artifactDigest now) now artifactDigest;
         mret (id1 x, built.2)).

Definition GetAnnualReport (actor reportID : string) : IO AnnualReport := withActor actor (lockReport reportID).
Definition GetArtifact (actor reportID : string) : IO Artifact :=
  withActor actor (select_row (λ d, mrv_report_artifacts d !! reportID) ErrReportNotFound).

(** ** The summary over the voyages of a ship *)

Record voyage_window := mkWindow { vw_id : string; vw_bosp : Z; vw_eosp : Z }.
Inductive skip_reason := SkipIncomplete | SkipZeroDuration | SkipOverlap | SkipNotFound.

Definition complete_window (v : Voyage) : option voyage_window :=
  match BospAt v, EospAt v with Some b, Some e => Some (mkWindow (VoyageID v) b e) | _, _ => None end.
Definition windows_between (d : mrv_db) (imoNumber : string) (from to : Z) : list voyage_window :=
  oldest_first vw_bosp
    (filter (λ w, vw_bosp w < pg_time to ∧ pg_time from < vw_eosp w)
       (omap complete_window (filter (λ v, vo_ImoNumber v = imoNumber) (map_to_list (mrv_voyages d)).*2))).
(** COALESCE(bosp_at, eosp_at, created_at). *)
Definition anchor_of (v : Voyage) : Z :=
  match BospAt v, EospAt v with Some b, _ => b | None, Some e => e | None, None => vo_CreatedAt v end.
Definition incomplete_between (d : mrv_db) (imoNumber : string) (from to : Z) : list string :=
  VoyageID <$> filter (λ v, vo_ImoNumber v = imoNumber ∧ complete_window v = None ∧ pg_time from ≤ anchor_of v < pg_time to)
    (map_to_list (mrv_voyages d)).*2.
#[export] Instance voyage_window_eq_dec : EqDecision voyage_window.
Proof. solve_decision. Defined.

Definition windows_overlap (a b : voyage_window) : bool := (vw_bosp a <? vw_eosp b) && (vw_bosp b <? vw_eosp a).
(** The two nested loops over the pairs. *)
Fixpoint mark_overlaps (l : list voyage_window) (marked : list string) : list string :=
  match l with
  | [] => marked
  | a :: l' => mark_overlaps l' (fold_left (λ m b, if windows_overlap a b then vw_id a :: vw_id b :: m else m) l' marked)
  end.
Definition computable (voyages : list voyage_window) : list voyage_window :=
  filter (λ v, vw_bosp v < vw_eosp v) voyages.
Definition zero_duration (voyages : list voyage_window) : list voyage_window :=
  filter (λ v, ¬ vw_bosp v < vw_eosp v) voyages.

Record summary := mkSummary {
  sm_Voyages : list VoyageEmissionsResource; sm_Skipped : list (string * skip_reason); sm_Total : Z }.
Definition skip (id : string) (r : skip_reason) (s : summary) : summary :=
  mkSummary (sm_Voyages s) (sm_Skipped s ++ [(id, r)]) (sm_Total s).

(** One draw per computed voyage. *)
Fixpoint summarize (pl : plane) (actor imoNumber : string) (clearedLabels overlapping : list string)
  (l : list voyage_window) (xs : string → draw) (s : summary) : IO summary :=
  match l with
  | [] => mret s
  | v :: l' =>
      if bool_decide (vw_id v ∈ overlapping) then
        summarize pl actor imoNumber clearedLabels overlapping l' xs (skip (vw_id v) SkipOverlap s)
      else
        r ← attempt (VoyageEmissions (xs (vw_id v)) pl actor imoNumber (vw_id v) clearedLabels);
        match r with
        | Ok c =>
            summarize pl actor imoNumber clearedLabels overlapping l' xs
              (mkSummary (sm_Voyages s ++ [c]) (sm_Skipped s)
                 (uint64 (sm_Total s + TotalCO2TonnesMilli (vr_Totals c))))
        | Err ErrVoyageNotFound =>
            summarize pl actor imoNumber clearedLabels overlapping l' xs (skip (vw_id v) SkipNotFound s)
        | Err ErrVoyageWindowIncomplete =>
            summarize pl actor imoNumber clearedLabels overlapping l' xs (skip (vw_id v) SkipIncomplete s)
        | Err ErrVoyageZeroDurationWindow =>
            summarize pl actor imoNumber clearedLabels overlapping l' xs (skip (vw_id v) SkipZeroDuration s)
        | Err e => fail e
        end
  end.

Definition VoyageEmissionsSummaryForShip (xs : string → draw) (pl : plane) (actor imoNumber : string) (from to : Z)
  (clearedLabels : list string) : IO summary :=
  if negb (from <? to) then fail PeriodInvalid
  else
    voyages ← withActor actor
                (_ ← select_row (λ d, mrv_ships d !! imoNumber) ErrShipNotFound;
                 select (λ d, windows_between d imoNumber from to));
    incomplete ← attempt (withActor actor (select (λ d, incomplete_between d imoNumber from to)));
    let skipped := match incomplete with Ok ids => (λ i, (i, SkipIncomplete)) <$> ids | Err _ => [] end
                   ++ ((λ v, (vw_id v, SkipZeroDuration)) <$> zero_duration voyages) in
    summarize pl actor imoNumber clearedLabels (mark_overlaps (computable voyages) []) (computable voyages) xs
      (mkSummary [] skipped 0).

(** ** The publisher *)

(** ORDER BY created_at LIMIT batchSize of the unpublished rows; no other
    transaction holds a row here, so that SKIP LOCKED skips none. *)
Definition pending_rows (d : mrv_db) (batchSize : nat) : list (string * OutboxRow) :=
  take batchSize (oldest_first (λ kr : string * OutboxRow, ob_created_at kr.2)
    (filter (λ kr, published_at kr.2 = None) (map_to_list (mrv_outbox d)))).

Definition publish_row (tx_now : Z) (kr : string * OutboxRow) : IO unit :=
  match eventContracts !! event_type kr.2 with
  | None => fail UnknownOutboxType
  | Some contract =>
      let m := mkMessage (topic contract) (aggregate_id kr.2) (payload_ kr.2) (event_type kr.2) kr.1 in
      r ← attempt (external PublishFailed (λ s, (deliver m s, tt)));
      match r with
      | Err e => modify count_error ≫= λ _, fail e
      | Ok _ =>
          _ ← exec (on_outbox (alter (set_published tx_now) kr.1));
          modify count_ok
      end
  end.
Definition Drain (tx_now : Z) (batchSize : nat) : IO unit :=
  withActor (PrincipalID (Principal service))
    (batch ← select (λ d, pending_rows d batchSize);
     each (publish_row tx_now) batch).

Record OutboxPublisher := mkPublisher { interval : Z; batchSize_ : Z }.
Definition NewOutboxPublisher (interval batchSize : Z) : OutboxPublisher :=
  mkPublisher (if interval <=? 0 then 2 * second else interval)
    (if (batchSize <=? 0) || (500 <? batchSize) then 100 else batchSize).
End service.
