(* ===== verification/MrvApi.v ===== *)
(** * HTTP boundary of the MRV service

    [internal/mrv/server.go]: the routes with their roles, and every handler over the
    workflow of [MrvService].  An answer keeps the value a handler writes; the layout of
    the encoder and the texts of wrapped errors are left out.  Spans and the request log
    are not part of the model. *)
From S2P Require Import Prelude Effects GoTime GoParse GoFloat Classification Sign Auth Http Mrv MrvEstimate MrvRows MrvService.

Definition StatusUnprocessableEntity : Z := 422.
Definition RoleReporter : string := "mrv-reporter".
Definition RoleVerifier : string := "mrv-verifier".
Definition RoleFlagAdmin : string := "mrv-flag-admin".
Definition RoleReader : string := "mrv-reader".

(** The store, and the counters of the registry the handlers add to. *)
Record mrv_api := mkMrvApi { ma_store : mrv_store; ma_counts : list (string * string) }.

Inductive mrv_body :=
| MrvError (message : string)
| ShipBody (ship : Ship)
| PlanBody (plan : MonitoringPlan)
| FuelBody (report : FuelReport)
| VoyageBody (voyage : Voyage)
| EstimateBody (estimate : ActivityEstimateResource)
| VoyageEmissionsBody (result : VoyageEmissionsResource)
| SummaryBody (s : MrvService.summary)
| ReportBody (report : AnnualReport)
| VerificationBody (v : Verification)
| SoCBody (socID artifactSha256 : string) (lateIssuance : bool)
(** the attained and required intensity and the rating, when all three are there *)
| CIIBody (imo : string) (year : Z) (state : ReportState) (config : CIIConfigSummary) (cii : option (Z * Z * string))
| ArtifactBody (reportID : string) (artifact : Artifact)
| FactorsBody (table : list FactorRow)
| StatusBody (config : CIIConfigSummary) (deadlines : Deadlines).

Definition mrv_refuse (r : response) : answer mrv_body :=
  mkAnswer (rs_status r) (MrvError (match rs_body r with (_, JStr m) :: _ => m | _ => "" end)).
(** The text of a sentinel; what a wrapping adds to it is left out. *)
Definition workflow_text (e : workflow_error) : string :=
  match e with
  | ArithmeticError (ErrFactorUnavailable _ _) => "no source-cited emission factor resolves for this fuel grade/gas (UNRATED: fail closed)"
  | ErrShipNotFound => "mrv ship not found"
  | ErrPlanNotFound => "mrv monitoring plan not found"
  | ErrPlanState => "mrv monitoring plan state does not admit this transition"
  | ErrMakerCheckerConflict => "maker and checker must be distinct principals (four-eyes)"
  | ErrIdempotencyKeyNeeded => "Idempotency-Key header is required"
  | ErrIdempotencyConflict => "idempotency key replay with a divergent payload"
  | ErrReportNotFound => "mrv annual report not found"
  | ErrReportState => "mrv annual report state does not admit this transition"
  | ErrSoCExists => "statement of compliance already issued for this report"
  | ErrNoConfirmedPlan => "ship has no CONFIRMED monitoring plan covering the reported method and fuel grade"
  | ErrVoyageNotFound => "mrv voyage not found"
  | ErrVoyageWindowIncomplete =>
      "voyage has no complete BOSP/EOSP window: per-voyage emissions are not computable until both bounds are recorded"
  | _ => ""
  end.
Definition mrv_error_answer (status : Z) (message : string) : answer mrv_body := mrv_refuse (writeError status message).

Section api.
Context {Hmath : Math} {Hpow : MathPow} {Hworld : MrvWorld} (service : Service).
(** [strings.ToUpper], and the order of the factor table under the collation of the
    database. *)
Context (ToUpper : string → string) (sort_factors : list FactorRow → list FactorRow).
Abbreviation Serving := (M mrv_api workflow_error).
Abbreviation guarded_by p := (principalOrFail p (λ r, mret (mrv_refuse r))).

Definition set_mrv_store (s : mrv_store) (a : mrv_api) : mrv_api := mkMrvApi s (ma_counts a).
Definition on_service {A} (m : M mrv_store workflow_error A) : Serving A := zoom ma_store set_mrv_store m.
Definition mrv_count (name label : string) : Serving unit := modify (λ a, mkMrvApi (ma_store a) (ma_counts a ++ [(name, label)])).
Definition invalid_body : answer mrv_body := mrv_error_answer StatusBadRequest "request body is not valid JSON".
Definition with_json {B} (body : http_body B) (next : B → Serving (answer mrv_body)) : Serving (answer mrv_body) :=
  match body with BodyUnreadable | BodyInvalid => mret invalid_body | Body b => next b end.

(** ** Ships and plans *)

Record registerShipRequest := mkShipRequest {
  sq_ImoNumber : string; sq_MMSI : string; sq_ShipName : string; sq_GT : Z; sq_DWT : option Z; sq_ShipType : string;
  sq_FlagState : string; sq_InternationalVoyages : bool }.
Definition ship_of_request (r : registerShipRequest) : Ship :=
  mkShip (sq_ImoNumber r) (sq_MMSI r) (sq_ShipName r) (sq_GT r) (sq_DWT r) (ToUpper (TrimSpace (sq_ShipType r)))
    (ToUpper (TrimSpace (sq_FlagState r))) (sq_InternationalVoyages r) false "" zero_time.
Definition registerShip (x : draw) (p : option Auth.Principal) (body : http_body registerShipRequest) : Serving (answer mrv_body) :=
  guarded_by p (λ principal, with_json body (λ payload,
    answering (on_service (RegisterShip service x (Subject principal) (ship_of_request payload)))
      (λ _, mrv_error_answer StatusBadRequest "ship registration failed: ")
      (λ ship, mret (mkAnswer StatusCreated (ShipBody ship))))).

Record putPlanRequest := mkPlanRequest { pq_Methods : gmap string string; pq_FuelGrades : list string }.
Definition putMonitoringPlan (x : draw) (p : option Auth.Principal) (imo : string) (body : http_body putPlanRequest) : Serving (answer mrv_body) :=
  guarded_by p (λ principal, with_json body (λ payload,
    answering (on_service (PutMonitoringPlan x (Subject principal) imo (pq_Methods payload) (pq_FuelGrades payload)))
      (λ e, match e with
            | ErrShipNotFound => mrv_error_answer StatusNotFound (workflow_text e)
            | _ => mrv_error_answer StatusBadRequest "monitoring plan registration failed: "
            end)
      (λ plan, mret (mkAnswer StatusCreated (PlanBody plan))))).

Definition confirmMonitoringPlan (x : draw) (p : option Auth.Principal) (id : string) : Serving (answer mrv_body) :=
  guarded_by p (λ principal,
    answering (on_service (ConfirmMonitoringPlan x (Subject principal) id))
      (λ e, match e with
            | ErrPlanNotFound => mrv_error_answer StatusNotFound (workflow_text e)
            | ErrMakerCheckerConflict | ErrPlanState => mrv_error_answer StatusConflict (workflow_text e)
            | _ => mrv_error_answer StatusInternalServerError "plan confirmation failed"
            end)
      (λ plan, mret (mkAnswer StatusOK (PlanBody plan)))).

(** ** Fuel reports and voyages *)

Record fuelReportRequest := mkFuelRequest {
  fq_PeriodFrom : Z; fq_PeriodTo : Z; fq_Consumer : string; fq_FuelGrade : string; fq_Method : string; fq_FuelTonnesMilli : Z;
  fq_DistanceNmMilli : option Z; fq_HoursUnderwayMinutes : option Z; fq_BdnReference : string; fq_Evidence : string }.
Definition fuel_of_request (r : fuelReportRequest) : FuelReport :=
  mkFuelReport "" "" "" (fq_PeriodFrom r) (fq_PeriodTo r) (fq_Consumer r) (fq_FuelGrade r) (fq_Method r) (fq_FuelTonnesMilli r)
    (fq_DistanceNmMilli r) (fq_HoursUnderwayMinutes r) (fq_BdnReference r) (fq_Evidence r) "" "" zero_time.
Definition metricFuelReport (result : string) : Serving unit := mrv_count "mrv_fuel_reports_total" result.
(** The counter and the answer of an error. *)
Definition fuel_failure (e : workflow_error) : string * answer mrv_body :=
  match e with
  | ErrIdempotencyKeyNeeded => ("rejected", mrv_error_answer StatusBadRequest (workflow_text e))
  | ErrIdempotencyConflict => ("conflict", mrv_error_answer StatusConflict (workflow_text e))
  | ErrShipNotFound => ("rejected", mrv_error_answer StatusNotFound (workflow_text e))
  | ErrNoConfirmedPlan | ArithmeticError (ErrFactorUnavailable _ _) =>
      ("rejected", mrv_error_answer StatusUnprocessableEntity (workflow_text e))
  | _ => ("rejected", mrv_error_answer StatusBadRequest "fuel report intake failed: ")
  end.
Definition submitFuelReport (x : draw) (p : option Auth.Principal) (imo idempotencyKey : string) (body : http_body fuelReportRequest) :
  Serving (answer mrv_body) :=
  guarded_by p (λ principal, with_json body (λ payload,
    r ← attempt (on_service (SubmitFuelReport service x (Subject principal) imo idempotencyKey (fuel_of_request payload)));
    match r with
    | Err e => _ ← metricFuelReport (fuel_failure e).1; mret (fuel_failure e).2
    | Ok (stored, replayed) =>
        _ ← metricFuelReport "accepted";
        mret (mkAnswer (if replayed : bool then StatusOK else StatusCreated) (FuelBody stored))
    end)).

Record voyageRequest := mkVoyageRequest {
  vq_BospAt : option Z; vq_BospPort : string; vq_EospAt : option Z; vq_EospPort : string; vq_CargoTonnesMilli : option Z;
  vq_LadenDistanceNmMilli : option Z }.
Definition voyage_of_request (r : voyageRequest) : Voyage :=
  mkVoyage "" "" (vq_BospAt r) (vq_BospPort r) (vq_EospAt r) (vq_EospPort r) (vq_CargoTonnesMilli r) (vq_LadenDistanceNmMilli r)
    "" [] "" zero_time.
Definition not_found_or (message : string) (e : workflow_error) : answer mrv_body :=
  match e with
  | ErrShipNotFound => mrv_error_answer StatusNotFound (workflow_text e)
  | _ => mrv_error_answer StatusBadRequest message
  end.
Definition recordVoyage (x : draw) (pl : plane) (p : option Auth.Principal) (imo : string) (body : http_body voyageRequest) : Serving (answer mrv_body) :=
  guarded_by p (λ principal, with_json body (λ payload,
    answering (on_service (RecordVoyage service x pl (Subject principal) imo (voyage_of_request payload)))
      (not_found_or "voyage recording failed: ")
      (λ stored, mret (mkAnswer StatusCreated (VoyageBody stored))))).

(** ** Estimates *)

(** The bounds of a period, in the order they are read. *)
Definition with_period (from_ to_ : string) (next : Z → Z → Serving (answer mrv_body)) : Serving (answer mrv_body) :=
  match parse_rfc3339 (TrimSpace from_), parse_rfc3339 (TrimSpace to_) with
  | None, _ => mret (mrv_error_answer StatusBadRequest "from must be RFC 3339")
  | _, None => mret (mrv_error_answer StatusBadRequest "to must be RFC 3339")
  | Some from, Some to => next from to
  end.
Definition activityEstimate (x : draw) (pl : plane) (p : option Auth.Principal) (imo from_ to_ : string) : Serving (answer mrv_body) :=
  guarded_by p (λ principal, with_period from_ to_ (λ from to,
    answering (on_service (EstimateActivityForShip service x pl (Subject principal) imo from to (clearedLabels (Clearance principal))))
      (not_found_or "activity estimate failed: ")
      (λ estimate, mret (mkAnswer StatusOK (EstimateBody estimate))))).
Definition voyageEmissions (x : draw) (pl : plane) (p : option Auth.Principal) (imo voyageID : string) : Serving (answer mrv_body) :=
  guarded_by p (λ principal,
    answering (on_service (VoyageEmissions service x pl (Subject principal) imo voyageID (clearedLabels (Clearance principal))))
      (λ e, match e with
            | ErrVoyageNotFound | ErrShipNotFound => mrv_error_answer StatusNotFound (workflow_text e)
            | ErrVoyageWindowIncomplete | ArithmeticError (ErrFactorUnavailable _ _) => mrv_error_answer StatusUnprocessableEntity (workflow_text e)
            | _ => mrv_error_answer StatusInternalServerError "voyage emissions computation failed"
            end)
      (λ result, mret (mkAnswer StatusOK (VoyageEmissionsBody result)))).
Definition voyageEmissionsSummary (xs : string → draw) (pl : plane) (p : option Auth.Principal) (imo from_ to_ : string) : Serving (answer mrv_body) :=
  guarded_by p (λ principal, with_period from_ to_ (λ from to,
    answering (on_service (VoyageEmissionsSummaryForShip service xs pl (Subject principal) imo from to (clearedLabels (Clearance principal))))
      (not_found_or "voyage emissions summary failed: ")
      (λ s, mret (mkAnswer StatusOK (SummaryBody s))))).

(** ** Annual reports, decisions, statements *)

Definition bad_year : answer mrv_body := mrv_error_answer StatusBadRequest "year must be a calendar year".
Definition compileAnnual (x : draw) (p : option Auth.Principal) (imo year : string) : Serving (answer mrv_body) :=
  guarded_by p (λ principal,
    match Atoi year with
    | None => mret bad_year
    | Some year =>
        answering (on_service (CompileAnnualReport service x (Subject principal) imo year))
          (λ e, match e with
                | ErrShipNotFound => mrv_error_answer StatusNotFound (workflow_text e)
                | ErrReportState => mrv_error_answer StatusConflict (workflow_text e)
                | ArithmeticError (ErrFactorUnavailable _ _) => mrv_error_answer StatusUnprocessableEntity (workflow_text e)
                | _ => mrv_error_answer StatusBadRequest "annual report compile failed: "
                end)
          (λ report, mret (mkAnswer StatusCreated (ReportBody report)))
    end).
Definition submitAnnual (x : draw) (p : option Auth.Principal) (id : string) : Serving (answer mrv_body) :=
  guarded_by p (λ principal,
    answering (on_service (SubmitAnnualReport service x (Subject principal) id))
      (λ e, match e with
            | ErrReportNotFound => mrv_error_answer StatusNotFound (workflow_text e)
            | ErrReportState => mrv_error_answer StatusConflict (workflow_text e)
            | _ => mrv_error_answer StatusBadRequest "annual report submit failed: "
            end)
      (λ report, mret (mkAnswer StatusOK (ReportBody report)))).

Record decisionRequest := mkDecisionRequest { dq_Decision : string; dq_Reason : string }.
Definition decision_label (d : Decision_) : string :=
  match d with DecisionVerify => "verify" | DecisionReject => "reject" | DecisionClarify => "clarify" end.
Definition recordDecision (x : draw) (pl : plane) (p : option Auth.Principal) (id : string) (body : http_body decisionRequest) : Serving (answer mrv_body) :=
  guarded_by p (λ principal, with_json body (λ payload,
    answering (on_service (RecordDecision service x pl (Subject principal) id (dq_Decision payload) (dq_Reason payload)))
      (λ e, match e with
            | ErrReportNotFound => mrv_error_answer StatusNotFound (workflow_text e)
            | ErrReportState | ErrMakerCheckerConflict => mrv_error_answer StatusConflict (workflow_text e)
            | _ => mrv_error_answer StatusBadRequest "verification decision failed: "
            end)
      (λ vc, _ ← mrv_count "mrv_verification_decisions_total" (decision_label (ve_Decision vc.1));
             _ ← mrv_count "mrv_ais_crosscheck_total" (crosscheck_text vc.2);
             mret (mkAnswer StatusCreated (VerificationBody vc.1))))).
(** [now] is the clock after the statement was issued. *)
Definition issueSoC (x : draw) (p : option Auth.Principal) (id : string) (now : Z) : Serving (answer mrv_body) :=
  guarded_by p (λ principal,
    answering (on_service (IssueSoC service x (Subject principal) id))
      (λ e, match e with
            | ErrReportNotFound => mrv_error_answer StatusNotFound (workflow_text e)
            | ErrReportState | ErrSoCExists => mrv_error_answer StatusConflict (workflow_text e)
            | _ => mrv_error_answer StatusInternalServerError "statement of compliance issuance failed"
            end)
      (λ soc, _ ← mrv_count "mrv_soc_issued_total" "";
              mret (mkAnswer StatusCreated (SoCBody soc.1 soc.2 (PastDeadline (SoCIssuance (sv_Deadlines service)) now))))).

(** ** Reads *)

(** A year outside the column's integers does not encode. *)
Definition getCII (p : option Auth.Principal) (imo year : string) : Serving (answer mrv_body) :=
  guarded_by p (λ principal,
    match Atoi year with
    | None => mret bad_year
    | Some year =>
        answering (on_service (withActor (Subject principal)
                     (if (year <? - 2 ^ 31) || (2 ^ 31 <=? year) then fail EncodeFailure
                      else select_row (λ d, MrvService.report_of d imo year) ErrReportNotFound)))
          (λ e, match e with
                | ErrReportNotFound => mrv_error_answer StatusNotFound "no annual report for this ship and year"
                | _ => mrv_error_answer StatusInternalServerError "cii query failed"
                end)
          (λ r, mret (mkAnswer StatusOK (CIIBody (ImoNumber r) (CalendarYear r) (State r) (CIIConfig_Summary (CII service))
                  match AttainedCiiNano r, RequiredCiiNano r, CiiRating r with
                  | Some attained, Some required, Some rating => Some (attained, required, rating)
                  | _, _, _ => None
                  end)))
    end).
Definition getArtifact (p : option Auth.Principal) (id : string) : Serving (answer mrv_body) :=
  guarded_by p (λ principal,
    answering (on_service (GetArtifact (Subject principal) id))
      (λ e, match e with
            | ErrReportNotFound => mrv_error_answer StatusNotFound "no signed artifact for this report"
            | _ => mrv_error_answer StatusInternalServerError "artifact query failed"
            end)
      (λ a, mret (mkAnswer StatusOK (ArtifactBody id a)))).
Definition listFactors (p : option Auth.Principal) : Serving (answer mrv_body) :=
  guarded_by p (λ principal,
    answering (on_service (withActor (Subject principal) (select (λ _, sort_factors (factors service)))))
      (λ _, mrv_error_answer StatusInternalServerError "factor query failed")
      (λ table, mret (mkAnswer StatusOK (FactorsBody table)))).
Definition status : Serving (answer mrv_body) := mret (mkAnswer StatusOK (StatusBody (CIIConfig_Summary (CII service)) (sv_Deadlines service))).

(** ** Routes *)

Inductive mrv_request :=
| PostShip (body : http_body registerShipRequest)
| PutPlan (imo : string) (body : http_body putPlanRequest)
| PostConfirm (plan : string)
| PostFuelReport (imo key : string) (body : http_body fuelReportRequest)
| PostVoyage (imo : string) (body : http_body voyageRequest)
| GetEstimate (imo from_ to_ : string)
| GetVoyageEmissions (imo voyage : string)
| GetEmissionsByVoyage (imo from_ to_ : string)
| PostCompile (imo year : string)
| PostSubmit (report : string)
| PostDecision (report : string) (body : http_body decisionRequest)
| PostSoC (report : string)
| GetCII (imo year : string)
| GetArtifactDoc (report : string)
| GetFactors
| GetStatus.
Definition mrv_roles (r : mrv_request) : list string :=
  match r with
  | PostShip _ | PostSoC _ => [RoleFlagAdmin]
  | PutPlan _ _ | PostFuelReport _ _ _ | PostVoyage _ _ | PostCompile _ _ | PostSubmit _ => [RoleReporter]
  | PostConfirm _ | PostDecision _ _ => [RoleVerifier]
  | GetEstimate _ _ _ => [RoleReporter; RoleVerifier]
  | GetArtifactDoc _ => [RoleReader; RoleVerifier; RoleFlagAdmin]
  | GetVoyageEmissions _ _ | GetEmissionsByVoyage _ _ _ | GetCII _ _ | GetFactors | GetStatus =>
      [RoleReader; RoleReporter; RoleVerifier; RoleFlagAdmin]
  end.
(** What a request brings from outside: its draw, one draw per voyage of a summary, the
    position plane, and a later reading of the clock. *)
Record mrv_surroundings := mkSurroundings { su_draw : draw; su_draws : string → draw; su_plane : plane; su_now : Z }.
Definition mrv_dispatch (s : mrv_surroundings) (r : mrv_request) (p : option Auth.Principal) : Serving (answer mrv_body) :=
  let x := su_draw s in let pl := su_plane s in
  match r with
  | PostShip body => registerShip x p body
  | PutPlan imo body => putMonitoringPlan x p imo body
  | PostConfirm plan => confirmMonitoringPlan x p plan
  | PostFuelReport imo key body => submitFuelReport x p imo key body
  | PostVoyage imo body => recordVoyage x pl p imo body
  | GetEstimate imo from_ to_ => activityEstimate x pl p imo from_ to_
  | GetVoyageEmissions imo voyage => voyageEmissions x pl p imo voyage
  | GetEmissionsByVoyage imo from_ to_ => voyageEmissionsSummary (su_draws s) pl p imo from_ to_
  | PostCompile imo year => compileAnnual x p imo year
  | PostSubmit report => submitAnnual x p report
  | PostDecision report body => recordDecision x pl p report body
  | PostSoC report => issueSoC x p report (su_now s)
  | GetCII imo year => getCII p imo year
  | GetArtifactDoc report => getArtifact p report
  | GetFactors => listFactors p
  | GetStatus => status
  end.
Definition mrv_handler (outcome : result auth_error Auth.Principal) (s : mrv_surroundings) (r : mrv_request) : guarded (Serving (answer mrv_body)) :=
  Middleware outcome (RequireRoles (mrv_roles r) (λ p, mrv_dispatch s r (Some p))).
End api.
