(* ===== verification/MrvSpec.v ===== *)
(** * Abstract specification of the MRV workflow, and refinement

    One constructor per effect a committed transaction of [MrvService] can have on
    the tables, with its guards as propositions; the life of an annual report is
    the relation [report_move].  [mrv_refines] shows that a method call, whatever
    faults it meets, leaves the tables alone or makes such a step, and makes it when
    it returns no error. *)
From S2P Require Import Prelude Effects Sha256 GoTime GoParse GoFloat Classification Sign Mrv MrvEstimate MrvRows MrvService.

(** ** Runs of the building blocks *)

Section blocks.
Implicit Types (w : env mrv_store).

Lemma statement_Ok {A} (act : mrv_store → mrv_store * A) w w' a :
  statement act w = (w', Ok a) → act (e_state w) = (e_state w', a).
Proof.
  unfold statement. intros (w1 & b & Hb & Hr)%M_bind_Ok. unfold gets in Hb. simplify_eq.
  case_match; [done|]. apply M_bind_Ok in Hr as (w2 & r & Ha & Hr). unfold attempt in Ha.
  destruct (external StoreFailure act w1) as [w3 r'] eqn:E. simplify_eq.
  destruct r as [a'|e]; [|done]. unfold mret, M_ret in Hr. simplify_eq. by eapply external_Ok.
Qed.

Lemma mrv_select_Ok {A} (f : mrv_db → A) w w' a :
  select f w = (w', Ok a) → e_state w' = e_state w ∧ a = f (tables (e_state w)).
Proof. unfold select. intros H%statement_Ok. by simplify_eq/=. Qed.

Lemma mrv_select_row_Ok {A} (f : mrv_db → option A) e w w' a :
  select_row f e w = (w', Ok a) → e_state w' = e_state w ∧ f (tables (e_state w)) = Some a.
Proof.
  unfold select_row. intros (w1 & o & [H1 ->]%mrv_select_Ok & H2)%M_bind_Ok.
  case_match; [|done]. unfold mret, M_ret in H2. by simplify_eq.
Qed.

Lemma mrv_exec_Ok (f : mrv_db → mrv_db) w w' u :
  exec f w = (w', Ok u) → e_state w' = set_tables (f (tables (e_state w))) (e_state w).
Proof. unfold exec. intros H%statement_Ok. by simplify_eq/=. Qed.

Lemma exec_unless_open refusal f w w' u : exec_unless refusal f w = (w', Ok u) → tx_failed (e_state w) = false.
Proof.
  unfold exec_unless. intros (w1 & b & Hb & Hr)%M_bind_Ok. unfold gets in Hb. simplify_eq. by case_match.
Qed.

Lemma exec_unless_Ok refusal f w w' u :
  exec_unless refusal f w = (w', Ok u) →
  refusal (tables (e_state w)) = None ∧ e_state w' = set_tables (f (tables (e_state w))) (e_state w).
Proof.
  unfold exec_unless. intros (w1 & b & Hb & Hr)%M_bind_Ok. unfold gets in Hb. simplify_eq.
  case_match; [done|]. apply M_bind_Ok in Hr as (w2 & o & Ho & Hr). unfold gets in Ho. simplify_eq.
  unfold compose in *. destruct (refusal _); [done|]. by apply mrv_exec_Ok in Hr.
Qed.

Lemma exec_if_Ok allowed e f w w' u :
  exec_if allowed e f w = (w', Ok u) →
  allowed (tables (e_state w)) = true ∧ e_state w' = set_tables (f (tables (e_state w))) (e_state w).
Proof. unfold exec_if. intros [H1 H2]%exec_unless_Ok. by destruct (allowed _). Qed.

Lemma update_report_Ok id q w w' u :
  update_report id q w = (w', Ok u) →
  (∀ r, mrv_annual_reports (tables (e_state w)) !! id = Some r →
     state_guard r (q r) = true ∧ frozen_guard r (q r) = true) ∧
  e_state w' = set_tables (on_annual (alter q id) (tables (e_state w))) (e_state w).
Proof.
  unfold update_report. intros [H1 H2]%exec_if_Ok. split; [|done]. intros r Hr. rewrite Hr in H1.
  by apply andb_true_iff.
Qed.

Lemma mrv_require_Ok b e w w' u : require (S := mrv_store) (E := workflow_error) b e w = (w', Ok u) → b = true ∧ w' = w.
Proof. destruct b; [|done]. unfold require, mret, M_ret. naive_solver. Qed.

Lemma mrv_lift_Ok {A} (r : result workflow_error A) w w' a : lift r w = (w', Ok a) → r = Ok a ∧ w' = w.
Proof. destruct r; [|done]. unfold lift, mret, M_ret. naive_solver. Qed.

(** A run of the transaction wrapper: either its body never ran, or it ran on the
    same tables and decided. *)
Lemma withActor_run {A} actor (fn : IO A) w :
  let out := withActor actor fn w in
  (tables (e_state out.1) = tables (e_state w) ∧ kafka (e_state out.1) = kafka (e_state w) ∧ ∃ e, out.2 = Err e) ∨
  ∃ w1 w2 r, e_state w1 = set_failed false (e_state w) ∧ fn w1 = (w2, r) ∧
    kafka (e_state out.1) = kafka (e_state w2) ∧
    ((tables (e_state out.1) = tables (e_state w) ∧ ∃ e, out.2 = Err e) ∨
     ∃ a, r = Ok a ∧ tables (e_state out.1) = tables (e_state w2) ∧ (∀ a', out.2 = Ok a' → a' = a)).
Proof.
  unfold withActor. destruct (blank actor); [left; simpl; eauto|].
  unfold transaction.
  destruct (external (A := unit) StoreFailure (λ s, (s, tt)) w) as [w1 [u|e]] eqn:E1; cycle 1.
  { left. simpl. apply (f_equal (λ p, e_state p.1)) in E1. simpl in E1.
    assert (e_state w1 = e_state w) as ->; [|eauto].
    rewrite <- E1. unfold external. by destruct (e_faults w) as [|[] ?]. }
  apply external_Ok in E1. injection E1 as E1 _.
  unfold mbind, M_bind, modify. cbn [e_state e_faults].
  set (w2 := mkEnv (e_faults w1) (set_failed false (e_state w1))).
  destruct (statement (λ s, (s, tt)) w2) as [w3 [u'|e]] eqn:E2; cycle 1.
  { left. simpl. split; [done|]. split; [|eauto].
    apply (f_equal (λ p, kafka (e_state p.1))) in E2. simpl in E2. rewrite <- E2.
    unfold statement, attempt, mbind, M_bind, gets, refuse, modify, fail, external. simpl.
    destruct (e_faults w1) as [|[] ?]; simpl; by rewrite E1. }
  apply statement_Ok in E2. injection E2 as E2 _.
  right. destruct (fn w3) as [w4 [a|e]] eqn:E3; cycle 1.
  { exists w3, w4, (Err e). simpl. rewrite <- E2, E1. split_and!; eauto. }
  exists w3, w4, (Ok a). unfold gets. cbn [e_state].
  destruct (tx_failed (e_state w4)) eqn:Ef; simpl.
  { rewrite <- E2, E1. split_and!; eauto. }
  rewrite <- E2, E1.
  destruct (e_faults w4) as [|[] fs]; simpl; split_and!; eauto; right; exists a; split_and!; naive_solver.
Qed.
End blocks.

(** Inverts a run that ended well into the facts its calls establish. *)
Ltac mrv_step_inv :=
  match goal with
  | H : (_ ≫= _) _ = (_, Ok _) |- _ =>
      let w := fresh "w" in let a := fresh "a" in
      apply M_bind_Ok in H as (w & a & ? & ?)
  | H : require _ _ _ = (_, Ok _) |- _ => apply mrv_require_Ok in H as [? ->]
  | H : lift _ _ = (_, Ok _) |- _ => apply mrv_lift_Ok in H as [? ->]
  | H : select _ _ = (_, Ok _) |- _ => apply mrv_select_Ok in H as [? ?]
  | H : select_row _ _ _ = (_, Ok _) |- _ => apply mrv_select_row_Ok in H as [? ?]
  | H : lockReport _ _ = (_, Ok _) |- _ => apply mrv_select_row_Ok in H as [? ?]
  | H : exec _ _ = (_, Ok _) |- _ => apply mrv_exec_Ok in H
  | H : update_report _ _ _ = (_, Ok _) |- _ => apply update_report_Ok in H as [? ?]
  | H : exec_if _ _ _ _ = (_, Ok _) |- _ => apply exec_if_Ok in H as [? ?]
  | H : exec_unless _ _ _ = (_, Ok _) |- _ => apply exec_unless_Ok in H as [? ?]
  | H : mret _ _ = (_, Ok _) |- _ => unfold mret, M_ret in H; injection H as ? ?; subst
  | H : fail _ _ = (_, Ok _) |- _ => discriminate H
  | H : Err _ = Ok _ |- _ => discriminate H
  | H : e_state ?w = _ |- _ => rewrite H in *; clear H w
  | H : String.eqb _ _ = true |- _ => apply String.eqb_eq in H
  | H : String.eqb _ _ = false |- _ => apply String.eqb_neq in H
  | H : negb _ = true |- _ => apply negb_true_iff in H
  | H : negb _ = false |- _ => apply negb_false_iff in H
  | H : bool_decide _ = false |- _ => apply bool_decide_eq_false in H
  | H : bool_decide _ = true |- _ => apply bool_decide_eq_true in H
  | H : (_ && _)%bool = true |- _ => apply andb_true_iff in H as [? ?]
  | H : (_ || _)%bool = true |- _ => apply orb_true_iff in H
  | H : (if ?b then _ else _) _ = (_, Ok _) |- _ => destruct b eqn:?
  | H : (if ?b then None else Some _) = None |- _ => destruct b eqn:?; [|discriminate H]
  | H : (if ?b then Some _ else _) = None |- _ => destruct b eqn:?; [discriminate H|]
  end.
Ltac mrv_inv := repeat (mrv_step_inv; simpl in * ).

(** ** Operations and their steps *)

(** The methods that write. *)
Inductive mrv_op :=
| OpShip (actor : string) (ship : Ship)
| OpPlan (actor imo : string) (methods : gmap string string) (grades : list string)
| OpConfirm (actor plan : string)
| OpFuel (actor imo key : string) (report : FuelReport)
| OpVoyage (actor imo : string) (voyage : Voyage)
| OpEstimate (actor imo : string) (from to : Z) (labels : list string)
| OpVoyageEmissions (actor imo voyage : string) (labels : list string)
| OpCompile (actor imo : string) (year : Z)
| OpSubmit (actor report : string)
| OpDecide (actor report decision reason : string)
| OpSoC (actor report : string)
| OpDrain (batch : nat).

(** The life of an annual report after its compilation: who may move it where, by a
    submission ([None]) or a decision. *)
Inductive report_move (actor : string) (now : Z) (r : AnnualReport) : option Decision_ → AnnualReport → Prop :=
| move_submit : State r = Draft → CompiledBy r = actor → report_move actor now r None (set_submitted actor now r)
| move_decide dec : State r = Submitted ∨ State r = VerifierReview → SubmittedBy r ≠ Some actor →
    report_move actor now r (Some dec) (set_report_state (decided_state dec) r).

Section spec.
Context {Hmath : Math} {Hpow : MathPow} {Hworld : MrvWorld} (service : Service).

Definition run_op (x : draw) (pl : plane) (op : mrv_op) : IO unit :=
  match op with
  | OpShip actor ship => RegisterShip service x actor ship ≫= λ _, mret tt
  | OpPlan actor imo methods grades => PutMonitoringPlan x actor imo methods grades ≫= λ _, mret tt
  | OpConfirm actor plan => ConfirmMonitoringPlan x actor plan ≫= λ _, mret tt
  | OpFuel actor imo key report => SubmitFuelReport service x actor imo key report ≫= λ _, mret tt
  | OpVoyage actor imo voyage => RecordVoyage service x pl actor imo voyage ≫= λ _, mret tt
  | OpEstimate actor imo from to labels =>
      EstimateActivityForShip service x pl actor imo from to labels ≫= λ _, mret tt
  | OpVoyageEmissions actor imo voyage labels =>
      VoyageEmissions service x pl actor imo voyage labels ≫= λ _, mret tt
  | OpCompile actor imo year => CompileAnnualReport service x actor imo year ≫= λ _, mret tt
  | OpSubmit actor report => SubmitAnnualReport service x actor report ≫= λ _, mret tt
  | OpDecide actor report decision reason =>
      RecordDecision service x pl actor report decision reason ≫= λ _, mret tt
  | OpSoC actor report => IssueSoC service x actor report ≫= λ _, mret tt
  | OpDrain batch => Drain service (tx_now x) batch
  end.

(** The outbox row an operation adds in its own transaction. *)
Inductive queued (x : draw) (eventType aggregateID correlationID : string) (resource : list (string * json))
  (at_ : Z) (ledger : string) (d : mrv_db) : mrv_db → Prop :=
| queued_intro env :
    BuildSignedEnvelope (Some (Signer service)) eventType (event x) correlationID resource at_ (Principal service)
      ledger (bundle x) (entry x) = Ok env →
    eventType ∈ outbox_event_types → mrv_outbox d !! event x = None →
    queued x eventType aggregateID correlationID resource at_ ledger d
      (on_outbox (insert (event x) (mkOutboxRow aggregateID eventType env (tx_now x) None)) d).

(** What the loop over the fuel reports of a year computes. *)
Fixpoint aggregated (rows : list FuelReport) (t : reportTotals) (used : gmap string FactorRow) :
  result mrv_error (reportTotals * gmap string FactorRow) :=
  match rows with
  | [] => Ok (t, used)
  | r :: rows' =>
      factor ← ResolveFactor (factors service) (fu_FuelGrade r) "CO2" (PeriodTo r);
      co2 ← CO2MilliTonnes (FuelTonnesMilli r) (FactorNano factor);
      aggregated rows' (add_report r factor co2 t) (<[factor_map_key factor := factor]> used)
  end.

(** The report a compilation of the year creates. *)
Inductive compiles (x : draw) (actor imo : string) (year : Z) (d : mrv_db) : AnnualReport → Prop :=
| compiles_intro ship totals used :
    mrv_ships d !! imo = Some ship → aggregated (year_fuel d imo year) no_totals ∅ = Ok (totals, used) →
    let cii := ComputeCII (CII service) (ShipType ship) (GT ship) (default 0 (DWT ship)) year
                 (rt_CO2TonnesMilli totals) (rt_DistanceNmMilli totals) in
    compiles x actor imo year d
      (mkAnnualReport (id1 x) imo year totals (AttainedNano cii) (RequiredNano cii)
         (if NotComputable cii then None else Some (co_Rating cii)) (FactorSetHash (map_to_list used).*2) Draft
         actor None (pg_time (now_ x)) None).

(** The row a registration enters. *)
Record ship_entered (actor : string) (at_ : Z) (ship row : Ship) : Prop := {
  se_imo : sh_ImoNumber row = sh_ImoNumber ship;
  se_mmsi : sh_MMSI row = sh_MMSI ship;
  se_name : ShipName row = ShipName ship;
  se_gt : GT row = GT ship;
  se_dwt : DWT row = DWT ship;
  se_type : ShipType row = ShipType ship;
  se_flag : FlagState row = (if decide (FlagState ship = "") then "NG" else FlagState ship);
  se_international : InternationalVoyages row = InternationalVoyages ship;
  se_scope : DcsScope row = bool_decide (DcsGTThreshold service ≤ GT ship ∧ InternationalVoyages ship = true);
  se_by : RegisteredBy row = actor;
  se_at : sh_CreatedAt row = at_;
}.
(** A ship the service accepts. *)
Definition ship_acceptable (ship : Ship) : Prop :=
  digits_exactly 7 (sh_ImoNumber ship) = true ∧ (sh_MMSI ship = "" ∨ digits_exactly 9 (sh_MMSI ship) = true) ∧
  TrimSpace (ShipName ship) ≠ "" ∧ GT ship ≠ 0.

(** The fuel report a submission files, with its instants at the resolution [res]. *)
Record fuel_entered (x : draw) (actor imo key digest : string) (res : Z → Z) (report row : FuelReport) : Prop := {
  fe_id : fu_ReportID row = id1 x;
  fe_imo : fu_ImoNumber row = imo;
  fe_key : ExternalRef row = key;
  fe_from : PeriodFrom row = res (PeriodFrom report);
  fe_to : PeriodTo row = res (PeriodTo report);
  fe_consumer : Consumer row = Consumer report;
  fe_grade : fu_FuelGrade row = fu_FuelGrade report;
  fe_method : Method row = Method report;
  fe_tonnes : FuelTonnesMilli row = FuelTonnesMilli report;
  fe_distance : fu_DistanceNmMilli row = fu_DistanceNmMilli report;
  fe_hours : fu_HoursUnderwayMinutes row = fu_HoursUnderwayMinutes report;
  fe_bdn : BdnRef row = BdnRef report;
  fe_evidence : Evidence_ row = (if decide (Evidence_ report = "") then "{}" else Evidence_ report);
  fe_digest : EvidenceDigestSha256 row = digest;
  fe_by : ReportedBy row = actor;
  fe_at : fu_CreatedAt row = pg_time (now_ x);
}.

(** The window of the zone events that witness a voyage: from its begin to its
    end, or a day around the only one reported. *)
Inductive witness_window : option Z → option Z → Z → Z → Prop :=
| window_both b e : witness_window (Some b) (Some e) b e
| window_begin b : witness_window (Some b) None (b - 24 * hour) (b + 24 * hour)
| window_end e : witness_window None (Some e) (e - 24 * hour) (e + 24 * hour).
(** The digests of the first hundred zone events of the ship in that window; none
    without an AIS link or without a time. *)
Inductive voyage_evidence (pl : plane) (ship : Ship) (v : Voyage) : list string → Prop :=
| evidence_no_link : sh_MMSI ship = "" → voyage_evidence pl ship v []
| evidence_no_time : BospAt v = None → EospAt v = None → voyage_evidence pl ship v []
| evidence_found from to :
    sh_MMSI ship ≠ "" → witness_window (BospAt v) (EospAt v) from to →
    voyage_evidence pl ship v
      (event_digest <$> take 100 (filter (λ e, pg_time from ≤ ze_occurred e ≤ pg_time to)
                                    (geofence_events pl (sh_MMSI ship)))).

(** The voyage a recording enters, with its instants at the resolution [res]. *)
Record voyage_entered (x : draw) (actor imo : string) (evidence : list string) (res : Z → Z) (v row : Voyage) : Prop := {
  ve_id : VoyageID row = id1 x;
  ve_imo : vo_ImoNumber row = imo;
  ve_bosp_at : BospAt row = res <$> BospAt v;
  ve_bosp_port : BospPort row = BospPort v;
  ve_eosp_at : EospAt row = res <$> EospAt v;
  ve_eosp_port : EospPort row = EospPort v;
  ve_cargo : CargoTonnesMilli row = CargoTonnesMilli v;
  ve_laden : LadenDistanceNmMilli row = LadenDistanceNmMilli v;
  ve_source : Source row = "OPERATOR";
  ve_evidence : GeofenceEvidence row = evidence;
  ve_by : RecordedBy row = actor;
  ve_at : vo_CreatedAt row = pg_time (now_ x);
}.

(** The cross-check a decision is filed with: the positions of the ship over the
    calendar year against the reported totals. *)
Definition crosschecked (d : mrv_db) (pl : plane) (r : AnnualReport) : json * string * CrosscheckResult :=
  let from := time_Date (CalendarYear r) 1 1 in
  let to := time_Date (CalendarYear r + 1) 1 1 in
  match mrv_ships d !! ImoNumber r ≫= mmsi_column with
  | None => marshalCrosscheck [("note", JStr "no confirmed AIS link")] CrosscheckNoReportedValues
  | Some mmsi =>
      match EstimateActivity (fixes_in pl mmsi from to None) from to (sv_ActivityParams service) with
      | Err _ => marshalCrosscheck [] CrosscheckInsufficientCoverage
      | Ok e =>
          let distance := rt_DistanceNmMilli (Totals r) in
          let hours := rt_HoursUnderwayMinutes (Totals r) in
          marshalCrosscheck
            [("estimatedDistanceNmMilli", JStr (show_Z (DistanceNmMilli e)));
             ("estimatedHoursUnderwayMinutes", JStr (show_Z (HoursUnderwayMinutes e)));
             ("reportedDistanceNmMilli", JStr (show_Z distance));
             ("reportedHoursUnderwayMinutes", JStr (show_Z hours));
             ("fixCount", JNum (FixCount e)); ("inputDigestSha256", JStr (InputDigestSha256 e))]
            (Crosscheck e distance hours (CrosscheckTolerancePermille service))
      end
  end.

(** [mrv_step x pl op d d']: the effect of [op] on the tables. *)
Inductive mrv_step (x : draw) (pl : plane) : mrv_op → mrv_db → mrv_db → Prop :=
| step_ship actor ship row d :
    ship_acceptable ship → mrv_ships d !! sh_ImoNumber ship = None → ship_entered actor (tx_now x) ship row →
    mrv_step x pl (OpShip actor ship) d (on_ships (insert (sh_ImoNumber ship) row) d)
| step_plan actor imo methods grades row d :
    is_Some (mrv_ships d !! imo) → mrv_monitoring_plans d !! id1 x = None → methods ≠ ∅ → grades ≠ [] →
    map_Forall (λ consumer method, is_consumer consumer = true ∧ is_method method = true) methods →
    Forall (λ g, TrimSpace g ≠ "") grades →
    row = mkPlan (id1 x) imo (next_version d imo) methods grades PlanDraft actor (tx_now x) None None →
    mrv_step x pl (OpPlan actor imo methods grades) d (on_plans (insert (id1 x) row) d)
| step_confirm actor plan p d :
    mrv_monitoring_plans d !! plan = Some p → pl_CreatedBy p ≠ actor →
    pl_State p = PlanDraft ∨ pl_State p = PlanSubmitted →
    mrv_step x pl (OpConfirm actor plan) d
      (on_plans (alter (set_plan_confirmed actor (pg_time (now_ x))) plan)
         (on_plans (fmap (supersede (pl_ImoNumber p))) d))
| step_fuel actor imo key report digest announced stored d d' :
    is_Some (mrv_ships d !! imo) → TrimSpace key ≠ "" → validateFuelReport report = true →
    digestEvidence (Evidence_ report) = Ok digest →
    plan_covers d imo (Consumer report) (Method report) (fu_FuelGrade report) = true →
    (∃ f, ResolveFactor (factors service) (fu_FuelGrade report) "CO2" (PeriodTo report) = Ok f) →
    mrv_fuel_reports d !! id1 x = None → fuel_by_ref d key = None →
    fuel_entered x actor imo key digest pg_time report stored →
    fuel_entered x actor imo key digest id report announced →
    queued x EventFuelReport imo (id1 x) (fuel_report_resource announced) (pg_time (now_ x)) ""
      (on_fuel (insert (id1 x) stored) d) d' →
    mrv_step x pl (OpFuel actor imo key report) d d'
| step_replay actor imo key report existing d :
    is_Some (mrv_ships d !! imo) → validateFuelReport report = true →
    plan_covers d imo (Consumer report) (Method report) (fu_FuelGrade report) = true →
    fuel_by_ref d key = Some existing → same_submission existing report = true →
    mrv_step x pl (OpFuel actor imo key report) d d
| step_voyage actor imo voyage ship evidence announced stored d d' :
    mrv_ships d !! imo = Some ship → mrv_voyages d !! id1 x = None →
    (∀ b e, BospAt voyage = Some b → EospAt voyage = Some e → b < e) →
    voyage_evidence pl ship voyage evidence →
    voyage_entered x actor imo evidence pg_time voyage stored →
    voyage_entered x actor imo evidence id voyage announced →
    queued x EventVoyage imo (id1 x) (voyage_resource announced) (pg_time (now_ x)) ""
      (on_voyages (insert (id1 x) stored) d) d' →
    mrv_step x pl (OpVoyage actor imo voyage) d d'
| step_estimate actor imo from to labels ship mmsi est d d' :
    from < to → mrv_ships d !! imo = Some ship → mmsi_column ship = Some mmsi → labels ≠ [] →
    EstimateActivity (fixes_in pl mmsi from to (Some labels)) from to (sv_ActivityParams service) = Ok est →
    queued x EventActivityEstimate mmsi (id1 x)
      (activity_resource (mkEstimateResource (id1 x) imo mmsi from to est (pg_time (now_ x)))) (pg_time (now_ x)) "" d d' →
    mrv_step x pl (OpEstimate actor imo from to labels) d d'
| step_compile actor imo year row d d' :
    2019 ≤ year ≤ 2200 → compiles x actor imo year d row →
    mrv_annual_reports d !! id1 x = None → report_of d imo year = None →
    queued x EventEmissionsAnnual (id1 x) (id1 x) (emissions_annual_resource row (pg_time (now_ x))) (pg_time (now_ x)) ""
      (on_annual (insert (id1 x) row) d) d' →
    mrv_step x pl (OpCompile actor imo year) d d'
| step_submit actor report r r' d d' :
    mrv_annual_reports d !! report = Some r → report_move actor (pg_time (now_ x)) r None r' →
    queued x EventEmissionsAnnual (ReportID r) (ReportID r) (emissions_annual_resource r' (pg_time (now_ x)))
      (pg_time (now_ x)) "" (on_annual (insert report r') d) d' →
    mrv_step x pl (OpSubmit actor report) d d'
| step_decide actor report decision dec reason r r' v crosscheck digest result d d' :
    parse_decision decision = Some dec → dec = DecisionVerify ∨ TrimSpace reason ≠ "" →
    mrv_annual_reports d !! report = Some r → report_move actor (pg_time (now_ x)) r (Some dec) r' →
    mrv_verifications d !! id1 x = None →
    crosschecked d pl r = (crosscheck, digest, result) →
    ve_ReportID v = report → ve_Decision v = dec → Verifier v = actor → VerificationID v = id1 x →
    Reason v = reason → AISCrosscheck v = crosscheck → DecidedAt v = pg_time (now_ x) →
    queued x EventVerification report (id1 x) (verification_resource v (reason_code dec) digest) (pg_time (now_ x)) ""
      (on_verifications (insert (id1 x) v) (on_annual (insert report r') d)) d' →
    mrv_step x pl (OpDecide actor report decision reason) d d'
| step_soc actor report r art sum d d' :
    mrv_annual_reports d !! report = Some r → State r = Verified → soc_of d report = None →
    mrv_report_artifacts d !! report = None → mrv_statements_of_compliance d !! id1 x = None →
    buildArtifact service r (pg_time (now_ x)) = Ok (art, sum) →
    queued x EventSoC (id1 x) report (soc_resource (id1 x) r ("sha256:" +:+ sum) (pg_time (now_ x))) (pg_time (now_ x))
      ("sha256:" +:+ sum)
      (on_socs (insert (id1 x) (mkSoC report actor (pg_time (now_ x)) sum))
         (on_artifacts (insert report (mkArtifact art sum)) d)) d' →
    mrv_step x pl (OpSoC actor report) d d'
| step_drain batch d :
    mrv_step x pl (OpDrain batch) d
      (on_outbox (λ m, fold_left (λ m (kr : string * OutboxRow), alter (set_published (tx_now x)) kr.1 m) (pending_rows d batch) m) d).
End spec.

Create HintDb mrv.
#[export] Hint Constructors report_move queued compiles mrv_step : mrv.

(** ** Refinement *)

Section refinement.
Context {Hmath : Math} {Hpow : MathPow} {Hworld : MrvWorld} (service : Service).
Implicit Types (w : env mrv_store).

Lemma enqueueOutbox_Ok x ty agg corr resource at_ ledger w w' u :
  enqueueOutbox service x ty agg corr resource at_ ledger w = (w', Ok u) →
  queued service x ty agg corr resource at_ ledger (tables (e_state w)) (tables (e_state w')) ∧
  ∃ d', e_state w' = set_tables d' (e_state w).
Proof. unfold enqueueOutbox. intros Hr. mrv_inv. split; [by econstructor|eauto]. Qed.

Lemma enqueueAnnualEvent_Ok x r at_ w w' u :
  enqueueAnnualEvent service x r at_ w = (w', Ok u) →
  queued service x EventEmissionsAnnual (ReportID r) (ReportID r)
    (emissions_annual_resource r (default at_ (SubmittedAt r))) at_ "" (tables (e_state w)) (tables (e_state w')) ∧
  ∃ d', e_state w' = set_tables d' (e_state w).
Proof.
  unfold enqueueAnnualEvent. intros (w1 & a & Hq%enqueueOutbox_Ok & Hr)%M_bind_Ok.
  unfold mret, M_ret in Hr. by simplify_eq.
Qed.

Lemma resolve_factor_Ok grade at_ w w' f :
  resolve_factor service grade at_ w = (w', Ok f) →
  e_state w' = e_state w ∧ ResolveFactor (factors service) grade "CO2" at_ = Ok f.
Proof. unfold resolve_factor. intros Hr. mrv_inv. subst. case_match; mrv_inv; done. Qed.

Lemma lift_mrv_Ok {A} (r : result mrv_error A) w w' a : lift_mrv r w = (w', Ok a) → r = Ok a ∧ w' = w.
Proof. destruct r; [|done]. unfold lift_mrv, mret, M_ret. naive_solver. Qed.

Lemma aggregate_Ok rows t used w w' res :
  aggregate service rows t used w = (w', Ok res) →
  e_state w' = e_state w ∧ aggregated service rows t used = Ok res.
Proof.
  revert t used w. induction rows as [|r rows IH]; intros t used w; simpl.
  { intros Hr. mrv_inv. done. }
  intros (w1 & f & [E1 Hf]%resolve_factor_Ok & (w2 & co2 & [Hc ->]%lift_mrv_Ok & Hr)%M_bind_Ok)%M_bind_Ok.
  apply IH in Hr as [E2 Hr]. split; [by rewrite E2|]. rewrite Hf. simpl. by rewrite Hc.
Qed.

(** The loop with its queries computes what the loop of [Mrv] computes. *)
Lemma allocate_fuel_Ok from to rows acc w w' t :
  allocate_fuel service from to rows acc w = (w', Ok t) →
  e_state w' = e_state w ∧ voyage_loop (factors service) from to rows acc = Ok t.
Proof.
  revert acc w. induction rows as [|r rows IH]; intros acc w; simpl.
  { intros Hr. mrv_inv. done. }
  case_match; [apply IH|].
  intros (w1 & f & [E1 Hf]%resolve_factor_Ok & (w2 & co2 & [Hc ->]%lift_mrv_Ok & Hr)%M_bind_Ok)%M_bind_Ok.
  apply IH in Hr as [E2 Hr]. split; [by rewrite E2|]. rewrite Hf. simpl. by rewrite Hc.
Qed.

Lemma statement_frame {A} (f : mrv_db → A) w :
  ∃ b, e_state (select f w).1 = set_failed b (e_state w).
Proof.
  unfold select, statement, attempt, refuse, modify, mbind, M_bind, gets, fail, mret, M_ret, external. simpl.
  destruct (e_state w) as [d b k o e] eqn:E. simpl. destruct b; [exists true; by rewrite ?E|].
  destruct (e_faults w) as [|[] fs]; simpl; rewrite ?E; simpl; [by exists false|by exists false|by exists true|by exists true].
Qed.

Lemma attempt_bind {A B} (m : IO A) (f : result workflow_error A → IO B) w :
  (attempt m ≫= f) w = f (m w).2 (m w).1.
Proof. unfold attempt, mbind, M_bind. by destruct (m w). Qed.
Lemma select_row_frame {A} (f : mrv_db → option A) e w :
  ∃ b, e_state (select_row f e w).1 = set_failed b (e_state w).
Proof.
  destruct (statement_frame f w) as [b Hb]. exists b. unfold select_row, mbind, M_bind.
  destruct (select f w) as [w1 [[a|]|e']]; done.
Qed.

(** A read that fails leaves the transaction aborted. *)
Lemma select_Err {A} (f : mrv_db → A) w w' e : select f w = (w', Err e) → tx_failed (e_state w') = true.
Proof.
  unfold select, statement, attempt, refuse, modify, mbind, M_bind, gets, fail, mret, M_ret, external.
  destruct (tx_failed (e_state w)) eqn:E; [by intros [= <- _]|].
  destruct (e_faults w) as [|[] fs]; intros H; simplify_eq/=; done.
Qed.

Lemma select_row_Err {A} (f : mrv_db → option A) e w w' e' :
  select_row f e w = (w', Err e') → tx_failed (e_state w') = true ∨ f (tables (e_state w)) = None.
Proof.
  unfold select_row, mbind, M_bind. destruct (select f w) as [w1 [o|e1]] eqn:E1.
  - apply mrv_select_Ok in E1 as [_ ->]. destruct (f _); [done|by right].
  - intros [= <- _]. left. by apply select_Err in E1.
Qed.

(** A cross-check whose transaction can still commit met no failed read. *)
Lemma aisCrosscheck_exact pl r w w' res :
  aisCrosscheck service pl r w = (w', Ok res) → tx_failed (e_state w') = false →
  res = crosschecked service (tables (e_state w)) pl r.
Proof.
  unfold aisCrosscheck, crosschecked. rewrite attempt_bind.
  destruct (select_row _ _ w) as [w1 [mmsi|e]] eqn:E1.
  - apply mrv_select_row_Ok in E1 as [E1 ->]. cbn [fst snd]. rewrite attempt_bind.
    destruct (select _ w1) as [w2 [fixes|e]] eqn:E2; cbn [fst snd].
    + apply mrv_select_Ok in E2 as [E2 ->]. destruct (EstimateActivity _ _ _ _); by intros [= _ <-].
    + intros [= <- _] Hf. apply select_Err in E2. by rewrite E2 in Hf.
  - apply select_row_Err in E1 as [E1| ->]; intros [= <- <-] Hf; [by rewrite E1 in Hf|done].
Qed.

(** The cross-check reads; at worst it leaves the transaction aborted. *)
Lemma aisCrosscheck_frame pl r w :
  ∃ b res, e_state (aisCrosscheck service pl r w).1 = set_failed b (e_state w) ∧
    (aisCrosscheck service pl r w).2 = Ok res.
Proof.
  unfold aisCrosscheck. rewrite attempt_bind.
  match goal with |- context [select_row ?f ?e w] => destruct (select_row_frame f e w) as [b Hb];
    destruct (select_row f e w) as [w1 [mmsi|e']] end; simpl in Hb |- *; [|by eexists b, _].
  rewrite attempt_bind.
  match goal with |- context [select ?f w1] => destruct (statement_frame f w1) as [b' Hb'];
    destruct (select f w1) as [w2 [fixes|e']] end; simpl in Hb' |- *; rewrite Hb in Hb'; [|by eexists b', _].
  destruct (EstimateActivity _ _ _ _); by eexists b', _.
Qed.
Lemma aisCrosscheck_Ok pl r w w' res :
  aisCrosscheck service pl r w = (w', Ok res) → ∃ b, e_state w' = set_failed b (e_state w).
Proof. intros Hr. destruct (aisCrosscheck_frame pl r w) as (b & res' & Hb & _). rewrite Hr in Hb. eauto. Qed.

Lemma alter_insert_Some {A} (f : A → A) (m : gmap string A) k a : m !! k = Some a → alter f k m = <[k := f a]> m.
Proof.
  intros Hk. apply map_eq. intros i. destruct (decide (i = k)) as [->|].
  - by rewrite lookup_alter_eq, Hk, lookup_insert_eq.
  - by rewrite lookup_alter_ne, lookup_insert_ne.
Qed.

(** [m] leaves the tables or makes a step, and makes the step when it succeeds. *)
Definition refines {A} (step : mrv_db → mrv_db → Prop) (m : IO A) : Prop :=
  ∀ w, (tables (e_state (m w).1) = tables (e_state w) ∨ step (tables (e_state w)) (tables (e_state (m w).1))) ∧
       (∀ a, (m w).2 = Ok a → step (tables (e_state w)) (tables (e_state (m w).1))).

Lemma withActor_refines {A} actor (body : IO A) step :
  (∀ w w' a, body w = (w', Ok a) → step (tables (e_state w)) (tables (e_state w'))) →
  refines step (withActor actor body).
Proof.
  intros Hb w. destruct (withActor_run actor body w) as [(H1 & _ & e & He)|(w1 & w2 & r & H1 & H2 & _ & H3)].
  { split; [by left|]. intros a Ha. by rewrite He in Ha. }
  assert (tables (e_state w1) = tables (e_state w)) as Ht by (by rewrite H1).
  destruct H3 as [(H3 & e & He)|(a & -> & H3 & _)].
  { split; [by left|]. intros a Ha. by rewrite He in Ha. }
  rewrite H3, <- Ht. apply Hb in H2. auto.
Qed.
#[local] Opaque withActor.
Lemma mrv_refines_fail {A} step e : refines step (fail e : IO A).
Proof. intros w. split; [by left|]. by intros a. Qed.
Lemma refines_if {A} step (b : bool) (m1 m2 : IO A) :
  (b = true → refines step m1) → (b = false → refines step m2) → refines step (if b then m1 else m2).
Proof. destruct b; auto. Qed.
Lemma mrv_refines_discard {A B} step (m : IO A) (f : A → B) : refines step m → refines step (m ≫= λ a, mret (f a)).
Proof.
  intros Hm w. specialize (Hm w). unfold mbind, M_bind.
  destruct (m w) as [w' [a|e]]; simpl in *; [|naive_solver]. destruct Hm as [Hm1 Hm2].
  split; [done|]. eauto.
Qed.
Lemma set_report_state_twice s s' r : set_report_state s (set_report_state s' r) = set_report_state s r.
Proof. done. Qed.

(** Publishing a batch marks its rows. *)
Lemma publish_row_Ok t kr w w' u :
  publish_row t kr w = (w', Ok u) →
  tables (e_state w') = on_outbox (alter (set_published t) kr.1) (tables (e_state w)).
Proof.
  unfold publish_row. case_match; [|by intros ?].
  intros (w1 & r & Ha & Hr)%M_bind_Ok. unfold attempt in Ha.
  destruct (external _ _ _) as [w2 r'] eqn:E. simplify_eq.
  destruct r as [u'|e']; [|done]. apply external_Ok in E. injection E as E.
  apply M_bind_Ok in Hr as (w3 & u'' & H3%mrv_exec_Ok & H4). unfold modify in H4. simplify_eq. simpl.
  rewrite H3. simpl. by rewrite <- E.
Qed.
Lemma publish_each_Ok t batch w w' u :
  each (publish_row t) batch w = (w', Ok u) →
  tables (e_state w') =
    on_outbox (λ m, fold_left (λ m (kr : string * OutboxRow), alter (set_published t) kr.1 m) batch m) (tables (e_state w)).
Proof.
  revert w. induction batch as [|kr batch IH]; intros w; simpl.
  { intros Hr. mrv_inv. by destruct (tables _). }
  intros (w1 & u1 & H1%publish_row_Ok & H2%IH)%M_bind_Ok. by rewrite H2, H1.
Qed.

Lemma step_of_submit x pl actor report r d d' :
  mrv_annual_reports d !! report = Some r → State r = Draft → CompiledBy r = actor →
  queued service x EventEmissionsAnnual (ReportID r) (ReportID r)
    (emissions_annual_resource (set_submitted actor (pg_time (now_ x)) r) (pg_time (now_ x))) (pg_time (now_ x)) ""
    (on_annual (alter (set_submitted actor (pg_time (now_ x))) report) d) d' →
  mrv_step service x pl (OpSubmit actor report) d d'.
Proof.
  intros Hr Hs Hc Hq. eapply step_submit; [exact Hr|by constructor|].
  unfold on_annual in *. by rewrite (alter_insert_Some _ _ _ r) in Hq.
Qed.

(** A body that ends well, as the facts its calls established. *)
Ltac body_inv :=
  repeat (first
    [ mrv_step_inv
    | match goal with
      | H : enqueueOutbox _ _ _ _ _ _ _ _ _ = (_, Ok _) |- _ => apply enqueueOutbox_Ok in H as [? [? ?]]
      | H : enqueueAnnualEvent _ _ _ _ _ = (_, Ok _) |- _ => apply enqueueAnnualEvent_Ok in H as [? [? ?]]
      | H : resolve_factor _ _ _ _ = (_, Ok _) |- _ => apply resolve_factor_Ok in H as [? ?]
      | H : aggregate _ _ _ _ _ = (_, Ok _) |- _ => apply aggregate_Ok in H as [? ?]
      | H : allocate_fuel _ _ _ _ _ _ = (_, Ok _) |- _ => apply allocate_fuel_Ok in H as [? ?]
      | H : aisCrosscheck _ _ _ _ = (_, Ok _) |- _ => apply aisCrosscheck_Ok in H as [? ?]
      | H : lift_estimate ?r _ = (_, Ok _) |- _ => destruct r eqn:?; [|discriminate H]
      | H : ship_exists _ _ = true |- _ => unfold ship_exists in H
      | H : _ ∨ _ |- _ => destruct H
      | H : match ?o with Some _ => _ | None => _ end _ = (_, Ok _) |- _ => destruct o eqn:?
      | H : (let '(_, _) := ?p in _) _ = (_, Ok _) |- _ => destruct p as [[? ?] ?]
      end ]; simpl in * ); subst; simpl in *.

Lemma ship_refines x pl actor ship : refines (mrv_step service x pl (OpShip actor ship)) (RegisterShip service x actor ship).
Proof.
  unfold RegisterShip. do 3 (apply refines_if; intros ?; [apply mrv_refines_fail|]).
  assert (ship_acceptable ship) as Hok.
  { repeat match goal with H : negb _ = false |- _ => apply negb_false_iff in H end.
    match goal with H : _ || _ = false |- _ => apply orb_false_iff in H as [? ?%Z.eqb_neq] end.
    split_and!; [done| |by apply String.eqb_neq|done].
    destruct (String.eqb_spec (sh_MMSI ship) ""); [by left|right].
    by match goal with H : negb _ && negb _ = false |- _ => apply negb_false_iff in H end. }
  apply mrv_refines_discard, withActor_refines. intros w w' a Hb. body_inv.
  eapply step_ship; [done..|]. split; try done; simpl.
  - by destruct (String.eqb_spec (FlagState ship) ""), (decide (FlagState ship = "")).
  - rewrite bool_decide_and. destruct (Z.leb_spec (DcsGTThreshold service) (GT ship)), (InternationalVoyages ship);
      rewrite ?bool_decide_eq_true_2, ?bool_decide_eq_false_2 by lia; done.
Qed.
Lemma plan_refines x pl actor imo methods grades :
  refines (mrv_step service x pl (OpPlan actor imo methods grades)) (PutMonitoringPlan x actor imo methods grades).
Proof.
  unfold PutMonitoringPlan. apply refines_if; intros Hne; [apply mrv_refines_fail|].
  apply orb_false_iff in Hne as [Hm%bool_decide_eq_false Hg%bool_decide_eq_false].
  apply refines_if; intros Hok; [apply mrv_refines_fail|]. apply negb_false_iff, bool_decide_eq_true in Hok.
  apply refines_if; intros Hblank; [apply mrv_refines_fail|].
  apply withActor_refines. intros w w' a Hb. body_inv. eapply step_plan; try done.
  - intros c m Hc. specialize (Hok c m Hc). simpl in Hok. by apply andb_true_iff in Hok.
  - apply Forall_forall. intros g Hin Hbl. apply not_true_iff_false in Hblank. apply Hblank, existsb_exists.
    exists g. split; [by apply list_elem_of_In|]. by apply String.eqb_eq.
Qed.
Lemma confirm_refines x pl actor plan :
  refines (mrv_step service x pl (OpConfirm actor plan)) (ConfirmMonitoringPlan x actor plan).
Proof. apply withActor_refines. intros w w' a Hb. body_inv; eapply step_confirm; eauto. Qed.
Lemma filed_entered x actor imo key digest report :
  let row := filed (id1 x) imo key actor digest (pg_time (now_ x)) report in
  fuel_entered x actor imo key digest id report row ∧ fuel_entered x actor imo key digest pg_time report (at_db row).
Proof.
  split; (split; [done..| |done|done|done]);
    simpl; by destruct (String.eqb_spec (Evidence_ report) ""), (decide (Evidence_ report = "")).
Qed.
Lemma fuel_refines x pl actor imo key report :
  refines (mrv_step service x pl (OpFuel actor imo key report)) (SubmitFuelReport service x actor imo key report).
Proof.
  unfold SubmitFuelReport. apply refines_if; intros Hk; [apply mrv_refines_fail|].
  apply refines_if; intros Hv; [apply mrv_refines_fail|]. apply negb_false_iff in Hv. apply String.eqb_neq in Hk.
  destruct (digestEvidence _) as [digest|] eqn:Hd; [|apply mrv_refines_fail].
  apply withActor_refines. intros w w' a Hb. unfold fuel_intake in Hb.
  destruct (filed_entered x actor imo key digest report) as [Ha Hs]. body_inv.
  - by eapply step_replay.
  - by eapply step_fuel; eauto.
Qed.
Lemma geofenceEvidence_Ok pl ship mmsi v w w' l :
  mmsi_column ship = Some mmsi → geofenceEvidenceDigests pl mmsi (BospAt v) (EospAt v) w = (w', Ok l) →
  e_state w' = e_state w ∧ voyage_evidence pl ship v l.
Proof.
  unfold mmsi_column. destruct (String.eqb_spec (sh_MMSI ship) ""); [done|]. intros [= <-].
  unfold geofenceEvidenceDigests.
  destruct (BospAt v) as [b|] eqn:Hb, (EospAt v) as [e|] eqn:He; simpl; intros Hr; mrv_inv; subst;
    (split; [done|]); first [by constructor|eapply evidence_found; [done|rewrite Hb, He; constructor]].
Qed.
Lemma voyage_refines x pl actor imo voyage :
  refines (mrv_step service x pl (OpVoyage actor imo voyage)) (RecordVoyage service x pl actor imo voyage).
Proof.
  unfold RecordVoyage. apply refines_if; intros Horder; [apply mrv_refines_fail|]. apply withActor_refines.
  intros w w' a (w1 & ship & [E1 Hs]%mrv_select_row_Ok & (w2 & digests & Hd & Hb)%M_bind_Ok)%M_bind_Ok.
  assert (e_state w2 = e_state w1 ∧ voyage_evidence pl ship voyage digests) as [E2 Hev].
  { destruct (mmsi_column ship) eqn:Hm; [by eapply geofenceEvidence_Ok|]. mrv_inv. split; [done|]. constructor.
    unfold mmsi_column in Hm. by destruct (String.eqb_spec (sh_MMSI ship) ""). }
  assert (∀ b e, BospAt voyage = Some b → EospAt voyage = Some e → b < e) as Hlt.
  { intros b e Hb1 He. rewrite Hb1, He in Horder. by apply negb_false_iff, Z.ltb_lt in Horder. }
  clear Hd. body_inv. eapply step_voyage; [done..| | |done]; done.
Qed.
Lemma estimate_refines x pl actor imo from to labels :
  refines (mrv_step service x pl (OpEstimate actor imo from to labels))
    (EstimateActivityForShip service x pl actor imo from to labels).
Proof.
  unfold EstimateActivityForShip, activityFixes. apply refines_if; intros Hft; [apply mrv_refines_fail|].
  apply negb_false_iff, Z.ltb_lt in Hft.
  apply refines_if; intros Hl; [apply mrv_refines_fail|]. apply bool_decide_eq_false in Hl.
  apply withActor_refines. intros w w' a Hb. body_inv. by eapply step_estimate; eauto.
Qed.

(** A per-voyage computation never commits: the CHECK on the event types of the
    outbox does not know its event. *)
Lemma voyage_emissions_refines x pl actor imo voyage labels :
  refines (λ _ _, False) (VoyageEmissions service x pl actor imo voyage labels).
Proof.
  apply withActor_refines. intros w w' a Hb. unfold VoyageEmissions, activityFixes in Hb.
  apply M_bind_Ok in Hb as (w1 & [v o] & _ & Hb). simpl in Hb.
  destruct (BospAt v) as [from|]; [|done]. destruct (EospAt v) as [to|]; [|done].
  case_match; [done|].
  apply M_bind_Ok in Hb as (w2 & rows & _ & Hb). apply M_bind_Ok in Hb as (w3 & totals & _ & Hb).
  apply M_bind_Ok in Hb as (w4 & cross & _ & Hb).
  apply M_bind_Ok in Hb as (w5 & u & Hq & _). apply enqueueOutbox_Ok in Hq as [[env _ Hin _] _].
  revert Hin. unfold EventVoyageEmissions, outbox_event_types. apply (bool_decide_unpack _). by vm_compute.
Qed.

Lemma compile_refines x pl actor imo year :
  refines (mrv_step service x pl (OpCompile actor imo year)) (CompileAnnualReport service x actor imo year).
Proof.
  unfold CompileAnnualReport. apply refines_if; intros Hy; [apply mrv_refines_fail|].
  apply orb_false_iff in Hy as [Hy1%Z.ltb_ge Hy2%Z.ltb_ge].
  apply withActor_refines. intros w w' a Hb. body_inv.
  - by match goal with H : exec_params _ _ _ _ = (_, Ok _) |- _ => apply exec_if_Ok in H as [H _] end.
  - match goal with H : aggregated _ _ _ _ = Ok ?p |- _ => destruct p end.
    eapply step_compile; [lia|by econstructor|done|done|done].
Qed.

Lemma submit_refines x pl actor report :
  refines (mrv_step service x pl (OpSubmit actor report)) (SubmitAnnualReport service x actor report).
Proof. apply withActor_refines. intros w w' a Hb. unfold SubmitAnnualReport in Hb. body_inv. by eapply step_of_submit. Qed.

Lemma parse_decision_reason decision dec reason :
  parse_decision decision = Some dec → negb (bool_decide (dec = DecisionVerify)) && blank reason = false →
  dec = DecisionVerify ∨ TrimSpace reason ≠ "".
Proof.
  intros _ Hb. apply andb_false_iff in Hb as [Hb|Hb].
  - apply negb_false_iff, bool_decide_eq_true in Hb. by left.
  - right. by apply String.eqb_neq.
Qed.

Lemma decide_refines x pl actor report decision reason :
  refines (mrv_step service x pl (OpDecide actor report decision reason))
    (RecordDecision service x pl actor report decision reason).
Proof.
  unfold RecordDecision. destruct (parse_decision decision) as [dec|] eqn:Hp; [|apply mrv_refines_fail].
  apply refines_if; intros Hr; [apply mrv_refines_fail|].
  eapply parse_decision_reason in Hr; [|done].
  apply withActor_refines. intros w w' a (w1 & r & [E1 Hl]%mrv_select_row_Ok & Hb)%M_bind_Ok.
  case_match eqn:Hst; [done|]. case_match eqn:Hm; [done|]. apply bool_decide_eq_false in Hm.
  assert (State r = Submitted ∨ State r = VerifierReview) as Hs.
  { apply negb_false_iff, orb_true_iff in Hst as [Hs%bool_decide_eq_true|Hs%bool_decide_eq_true]; auto. }
  apply M_bind_Ok in Hb as (w2 & [[cross digest] result] & Hcross & Hb). simpl in Hb.
  apply M_bind_Ok in Hb as (w3 & u1 & Hu1 & Hb). apply M_bind_Ok in Hb as (w4 & u2 & Hu2 & Hb).
  assert (crosschecked service (tables (e_state w)) pl r = (cross, digest, result)) as Hcr.
  { rewrite <- E1. symmetry. eapply aisCrosscheck_exact; [exact Hcross|].
    case_match; [by apply exec_unless_open in Hu1|]. unfold mret, M_ret in Hu1. simplify_eq.
    by apply exec_unless_open in Hu2. }
  apply aisCrosscheck_Ok in Hcross as [b E2].
  assert (tables (e_state w4) = on_annual (insert report (set_report_state (decided_state dec) r)) (tables (e_state w))) as E4.
  { apply update_report_Ok in Hu2 as [_ E4]. rewrite E4. cbn [tables set_tables].
    case_match; mrv_inv; unfold on_annual; simpl; f_equal.
    - rewrite (alter_insert_Some (set_report_state VerifierReview) _ _ r) by done.
      rewrite (alter_insert_Some _ _ _ (set_report_state VerifierReview r)) by apply lookup_insert_eq.
      by rewrite insert_insert_eq.
    - by apply alter_insert_Some. }
  clear Hu1 Hu2 E2. generalize dependent (tables (e_state w)). intros d0 Hl Hcr E4.
  assert (report_move actor (pg_time (now_ x)) r (Some dec) (set_report_state (decided_state dec) r)) as Hmove by (by constructor).
  clear Hs Hm Hst. apply M_bind_Ok in Hb as (w5 & u3 & [Hx E5]%exec_unless_Ok & Hb).
  apply M_bind_Ok in Hb as (w6 & u4 & [Hq _]%enqueueOutbox_Ok & Hb). rewrite E5 in Hq.
  cbn [tables set_tables] in Hq. rewrite E4 in *. clear E4 E5 E1. mrv_inv.
  eapply step_decide; [exact Hp|exact Hr|exact Hl|exact Hmove|done|exact Hcr| | | | | | | |exact Hq]; done.
Qed.

Lemma soc_refines x pl actor report :
  refines (mrv_step service x pl (OpSoC actor report)) (IssueSoC service x actor report).
Proof.
  apply withActor_refines. intros w w' a Hb. unfold IssueSoC in Hb. body_inv.
  match goal with H : buildArtifact _ _ _ = Ok ?p |- _ => destruct p end. simpl in *.
  match goal with H : false = bool_decide _ |- _ => symmetry in H; apply bool_decide_eq_false in H as Hn end.
  apply eq_None_not_Some in Hn.
  by eapply step_soc.
Qed.

Lemma drain_refines x pl batch :
  refines (mrv_step service x pl (OpDrain batch)) (Drain service (tx_now x) batch).
Proof.
  apply withActor_refines. intros w w' a (w1 & b & [E1 ->]%mrv_select_Ok & Hb%publish_each_Ok)%M_bind_Ok.
  rewrite Hb, E1. constructor.
Qed.

Lemma mrv_run_op_refines x pl op : refines (mrv_step service x pl op) (run_op service x pl op).
Proof.
  destruct op; cbn [run_op]; try apply mrv_refines_discard.
  - apply ship_refines.
  - apply plan_refines.
  - apply confirm_refines.
  - apply fuel_refines.
  - apply voyage_refines.
  - apply estimate_refines.
  - intros w. destruct (voyage_emissions_refines x pl actor imo voyage labels w) as [[Ht|[]] Hn].
    split; [by left|]. intros a Ha. destruct (Hn a Ha).
  - apply compile_refines.
  - apply submit_refines.
  - apply decide_refines.
  - apply soc_refines.
  - apply drain_refines.
Qed.

(** C4: Every writing method of the MRV service, on every store and under every
    sequence of faults of its calls, leaves the tables untouched or makes exactly
    the step of the abstract workflow; when it returns without an error it has made
    the step.  A step fixes every column of the row it enters (ship, plan, fuel
    report, voyage with the digests of its zone events, annual report, decision with
    its cross-check, statement) by the request, the acting principal, the draw and
    the tables it read, and the signed event it queues with it. *)
Theorem mrv_refines x pl op : refines (mrv_step service x pl op) (run_op service x pl op).
Proof. apply mrv_run_op_refines. Qed.

(** ** Runs of the service *)

(** One request after the other, each with its draw and the position plane it sees;
    an error is answered to the client and the next request follows. *)
Definition run_ops (ops : list (draw * plane * mrv_op)) (w : env mrv_store) : env mrv_store :=
  fold_left (λ w '(x, pl, op), (run_op service x pl op w).1) ops w.

Definition any_step (d d' : mrv_db) : Prop := ∃ x pl op, mrv_step service x pl op d d'.

Lemma mrv_run_ops_steps ops w : rtc any_step (tables (e_state w)) (tables (e_state (run_ops ops w))).
Proof.
  revert w. induction ops as [|[[x pl] op] ops IH]; intros w; [apply rtc_refl|].
  change (run_ops _ w) with (run_ops ops (run_op service x pl op w).1).
  specialize (IH (run_op service x pl op w).1).
  destruct (mrv_run_op_refines x pl op w) as [[Heq|Hs] _]; [by rewrite <- Heq|].
  eapply rtc_l; [|exact IH]. by exists x, pl, op.
Qed.
End refinement.
