(* ===== verification/MrvWorkflow.v ===== *)
(** * Invariants of the MRV workflow

    Properties of every run of the service over the steps of [MrvSpec]: the ledger
    only grows, statements of compliance rest on an independent verification, every
    domain row has its signed event, monitoring plans take two people and at most
    one of a ship is in force, and fuel reports are filed once per key. *)
From S2P Require Import Prelude Effects Sha256 GoTime GoParse GoFloat Classification Sign Mrv MrvEstimate MrvRows MrvService MrvSpec.

(** ** The ledger only grows *)

(** [kept m m']: the rows of [m] are in [m']. *)
Definition kept {A} (m m' : gmap string A) : Prop := ∀ k a, m !! k = Some a → m' !! k = Some a.
(** The later forms of a report and of an outbox row. *)
Definition report_later (r r' : AnnualReport) : Prop :=
  ReportID r' = ReportID r ∧ ImoNumber r' = ImoNumber r ∧ CalendarYear r' = CalendarYear r ∧
  CompiledBy r' = CompiledBy r ∧ frozen_columns r' = frozen_columns r ∧
  (SubmittedBy r ≠ None → SubmittedBy r' = SubmittedBy r) ∧
  (State r = Verified ∨ State r = Rejected → r' = r) ∧ (State r ≠ Draft → State r' ≠ Draft).
Definition outbox_later (o o' : OutboxRow) : Prop :=
  aggregate_id o' = aggregate_id o ∧ event_type o' = event_type o ∧ payload_ o' = payload_ o ∧
  ob_created_at o' = ob_created_at o ∧ (published_at o ≠ None → published_at o' ≠ None).
Record evolves (d d' : mrv_db) : Prop := mkEvolves {
  ev_ships : kept (mrv_ships d) (mrv_ships d');
  ev_fuel : kept (mrv_fuel_reports d) (mrv_fuel_reports d');
  ev_voyages : kept (mrv_voyages d) (mrv_voyages d');
  ev_annual : carried report_later (mrv_annual_reports d) (mrv_annual_reports d');
  ev_verifications : kept (mrv_verifications d) (mrv_verifications d');
  ev_socs : kept (mrv_statements_of_compliance d) (mrv_statements_of_compliance d');
  ev_artifacts : kept (mrv_report_artifacts d) (mrv_report_artifacts d');
  ev_outbox : carried outbox_later (mrv_outbox d) (mrv_outbox d');
}.

Lemma kept_refl {A} (m : gmap string A) : kept m m.
Proof. by intros k a. Qed.
Lemma kept_insert {A} (m : gmap string A) k a : m !! k = None → kept m (<[k := a]> m).
Proof. intros Hk k' a' Ha. rewrite lookup_insert_ne; [done|]. by intros ->; simplify_eq. Qed.
#[export] Instance report_later_pre : PreOrder report_later.
Proof.
  split; [by intros r; split_and!|]. intros r1 r2 r3 H1 H2. unfold report_later in *.
  destruct H1 as (?&?&?&?&?&Ha&Hb&Hc), H2 as (?&?&?&?&?&Ha'&Hb'&Hc'). split_and!; try congruence.
  - intros Hs. rewrite Ha', Ha; [done..|]. by rewrite Ha.
  - intros Hs. specialize (Hb Hs) as ->. auto.
  - auto.
Qed.
#[export] Instance outbox_later_pre : PreOrder outbox_later.
Proof. split; [by intros o; split_and!|]. unfold outbox_later. intros o1 o2 o3. naive_solver congruence. Qed.
#[export] Hint Resolve kept_refl kept_insert carried_refl : mrv.

#[export] Instance evolves_pre : PreOrder evolves.
Proof.
  split; [intros d; split; auto with mrv typeclass_instances; apply carried_refl, _|].
  intros d1 d2 d3 [] []. split; try (intros k a ?; by eauto); (eapply carried_trans; [apply _|done|done]).
Qed.

Section workflow.
Context {Hmath : Math} {Hpow : MathPow} {Hworld : MrvWorld} (service : Service).

Lemma published_batch_later t (l : list (string * OutboxRow)) m :
  carried outbox_later m (fold_left (λ m (kr : string * OutboxRow), alter (set_published t) kr.1 m) l m).
Proof.
  revert m. induction l as [|[k o] l IH]; intros m; simpl; [apply carried_refl, _|].
  eapply carried_trans; [apply _| |apply IH]. intros k' o' Ho.
  destruct (decide (k' = k)) as [->|].
  - exists (set_published t o'). rewrite lookup_alter_eq, Ho. split; [done|]. by split_and!.
  - exists o'. by rewrite lookup_alter_ne.
Qed.

Lemma report_move_later actor now r what r' : report_move actor now r what r' → (State r = Draft → SubmittedBy r = None) → report_later r r'.
Proof.
  intros [Hs Hc|dec Hs Hm] Hd; split_and!; try done; simpl.
  - intros Hn. destruct Hn. auto.
  - by intros [?|?]; congruence.
  - by intros [?|?]; destruct Hs; congruence.
  - by destruct dec.
Qed.

(** ** The invariant of the annual reports *)

Definition verified_by (d : mrv_db) (report verifier : string) : Prop :=
  ∃ k v, mrv_verifications d !! k = Some v ∧ ve_ReportID v = report ∧ ve_Decision v = DecisionVerify ∧ Verifier v = verifier.

Record report_ok (d : mrv_db) (k : string) (r : AnnualReport) : Prop := mkReportOk {
  ro_key : ReportID r = k;
  ro_no_review : State r ≠ VerifierReview;
  ro_draft : State r = Draft ↔ SubmittedBy r = None;
  ro_submitter : ∀ s, SubmittedBy r = Some s → s = CompiledBy r;
  ro_verified : State r = Verified → ∃ v, verified_by d k v ∧ SubmittedBy r ≠ Some v;
}.

Record wf (d : mrv_db) : Prop := mkWf {
  wf_reports : ∀ k r, mrv_annual_reports d !! k = Some r → report_ok d k r;
  wf_unique : ∀ k1 k2 r1 r2, mrv_annual_reports d !! k1 = Some r1 → mrv_annual_reports d !! k2 = Some r2 →
    ImoNumber r1 = ImoNumber r2 → CalendarYear r1 = CalendarYear r2 → k1 = k2;
  wf_verifications : ∀ k v, mrv_verifications d !! k = Some v →
    ∃ r, mrv_annual_reports d !! ve_ReportID v = Some r ∧ SubmittedBy r ≠ None ∧ SubmittedBy r ≠ Some (Verifier v);
  wf_socs : ∀ k s, mrv_statements_of_compliance d !! k = Some s →
    ∃ r a, mrv_annual_reports d !! soc_ReportID s = Some r ∧ State r = Verified ∧
      mrv_report_artifacts d !! soc_ReportID s = Some a ∧ artifact_sha256 a = soc_artifact_sha256 s;
  wf_one_soc : ∀ k1 k2 s1 s2, mrv_statements_of_compliance d !! k1 = Some s1 →
    mrv_statements_of_compliance d !! k2 = Some s2 → soc_ReportID s1 = soc_ReportID s2 → k1 = k2;
}.

Lemma wf_empty : wf empty_mrv_db.
Proof. split; intros *; simpl; by rewrite lookup_empty. Qed.

(** The invariant looks at four tables only. *)
Definition workflow_tables (d : mrv_db) :=
  (mrv_annual_reports d, mrv_verifications d, mrv_statements_of_compliance d, mrv_report_artifacts d).
Lemma wf_frame d d' : workflow_tables d = workflow_tables d' → wf d → wf d'.
Proof.
  destruct d, d'. unfold workflow_tables. simpl. intros [= <- <- <- <-] [Hr Hu Hv Hs Ho].
  split; simpl in *; try done. intros k r Hk. destruct (Hr k r Hk). by split.
Qed.

Lemma report_ok_mono d d' k r :
  kept (mrv_verifications d) (mrv_verifications d') → report_ok d k r → report_ok d' k r.
Proof.
  intros Hk []. split; try done. intros (v & (kv & vv & Hv & ?) & Hn)%ro_verified0. exists v. split; [|done].
  exists kv, vv. split; [by apply Hk|done].
Qed.

Lemma wf_compile d x r :
  wf d → mrv_annual_reports d !! ReportID r = None → report_of d (ImoNumber r) (CalendarYear r) = None →
  State r = Draft → SubmittedBy r = None → x = ReportID r → wf (on_annual (insert x r) d).
Proof.
  intros [Hr Hu Hv Hs Ho] Hfresh Hnone Hd Hn ->. 
  assert (∀ k r', mrv_annual_reports d !! k = Some r' → ImoNumber r' = ImoNumber r → CalendarYear r' = CalendarYear r → False) as Hno.
  { intros k r' Hk Hi Hy. unfold report_of in Hnone.
    assert (r' ∈ (map_to_list (mrv_annual_reports d)).*2) as Hin.
    { apply list_elem_of_fmap. exists (k, r'). split; [done|]. by apply elem_of_map_to_list. }
    eapply List.find_none in Hnone; [|by apply list_elem_of_In]. rewrite Hi, Hy, String.eqb_refl, Z.eqb_refl in Hnone. done. }
  assert (∀ k r', mrv_annual_reports d !! k = Some r' → <[ReportID r := r]> (mrv_annual_reports d) !! k = Some r') as Hold
    by (intros k r' Hk; apply kept_insert; done).
  split; simpl.
  - intros k r' [[<- <-]|[Hne Hk]]%lookup_insert_Some.
    + split; first [done|by split|intros; congruence].
    + destruct (Hr _ _ Hk). by split.
  - intros k1 k2 r1 r2 [[<- <-]|[Hne1 Hk1]]%lookup_insert_Some [[<- <-]|[Hne2 Hk2]]%lookup_insert_Some Hi Hy; try done.
    + exfalso. by eapply Hno.
    + exfalso. by eapply Hno.
    + by eapply Hu.
  - intros k v (r' & ? & ?)%Hv. eauto.
  - intros k s (r' & a & ? & ?)%Hs. eauto 10.
  - exact Ho.
Qed.

(** Replacing one report by a later form of it. *)
Lemma wf_replace d d1 k r r' :
  wf d → mrv_annual_reports d !! k = Some r → mrv_annual_reports d1 = <[k := r']> (mrv_annual_reports d) →
  mrv_statements_of_compliance d1 = mrv_statements_of_compliance d →
  mrv_report_artifacts d1 = mrv_report_artifacts d → kept (mrv_verifications d) (mrv_verifications d1) →
  ImoNumber r' = ImoNumber r → CalendarYear r' = CalendarYear r → State r ≠ Verified → report_ok d1 k r' →
  (∀ kv v, mrv_verifications d1 !! kv = Some v →
     if decide (ve_ReportID v = k) then SubmittedBy r' ≠ None ∧ SubmittedBy r' ≠ Some (Verifier v)
     else mrv_verifications d !! kv = Some v) →
  wf d1.
Proof.
  intros [Hr Hu Hv Hs Ho] Hk Ha Es Ea Hkv Hi Hy Hst Hok Hvv.
  assert (∀ k0 r0, mrv_annual_reports d1 !! k0 = Some r0 →
    ∃ r1, mrv_annual_reports d !! k0 = Some r1 ∧ ImoNumber r0 = ImoNumber r1 ∧ CalendarYear r0 = CalendarYear r1) as Hback.
  { intros k0 r0. rewrite Ha. intros [[<- <-]|[Hne Hk0]]%lookup_insert_Some; eauto. }
  split.
  - intros k0 r0. rewrite Ha. intros [[<- <-]|[Hne Hk0]]%lookup_insert_Some; [done|].
    apply (report_ok_mono d); [done|]. by apply Hr.
  - intros k1 k2 r1 r2 (r1' & H1 & E1 & E1')%Hback (r2' & H2 & E2 & E2')%Hback ? ?.
    apply (Hu k1 k2 r1' r2'); congruence.
  - intros kv v Hv0. pose proof (Hvv kv v Hv0) as Hd. rewrite Ha. destruct (decide (ve_ReportID v = k)) as [->|Hne].
    + exists r'. by rewrite lookup_insert_eq.
    + apply Hv in Hd as (r0 & ? & ?). exists r0. by rewrite lookup_insert_ne.
  - intros k0 s0. rewrite Es, Ea, Ha. intros (r0 & a & H0 & Hv0 & Ha0 & Hs0)%Hs.
    exists r0, a. rewrite lookup_insert_ne; [done|]. intros E. rewrite <- E in *. congruence.
  - rewrite Es. exact Ho.
Qed.

Lemma wf_submit d k r actor now :
  wf d → mrv_annual_reports d !! k = Some r → State r = Draft → CompiledBy r = actor →
  wf (on_annual (insert k (set_submitted actor now r)) d).
Proof.
  intros Hwf Hk Hd Hc. destruct (wf_reports d Hwf k r Hk) as [Hkey _ Hdraft _ _].
  eapply (wf_replace d); try done; [apply kept_refl|congruence| |].
  - split; try done. by intros s [= <-].
  - intros kv v Hv. simpl in *. case_decide as E; [|done].
    destruct (wf_verifications d Hwf kv v Hv) as (r0 & H0 & Hn & _). rewrite E in H0. simplify_eq. destruct Hn. by apply Hdraft.
Qed.

Lemma wf_decide d k r actor dec kv v :
  wf d → mrv_annual_reports d !! k = Some r → State r = Submitted ∨ State r = VerifierReview →
  SubmittedBy r ≠ Some actor → mrv_verifications d !! kv = None → ve_ReportID v = k → ve_Decision v = dec →
  Verifier v = actor →
  wf (on_verifications (insert kv v) (on_annual (insert k (set_report_state (decided_state dec) r)) d)).
Proof.
  intros Hwf Hk Hs Hm Hfresh Hvr Hvd Hva. destruct (wf_reports d Hwf k r Hk) as [Hkey _ Hdraft Hsub _].
  assert (SubmittedBy r ≠ None) as Hn by (intros Hn%Hdraft; destruct Hs; congruence).
  eapply (wf_replace d); try done; simpl; [by apply kept_insert|destruct Hs; congruence| |].
  - split; try done; simpl.
    + by destruct dec.
    + split; [by destruct dec|done].
    + intros Hver. exists actor. split; [|done]. exists kv, v. simpl. rewrite lookup_insert_eq.
      split_and!; [done|done| |done]. by destruct dec.
  - intros kv' v' [[<- <-]|[Hne Hv']]%lookup_insert_Some.
    + rewrite decide_True by done. by rewrite Hva.
    + case_decide as E; [|done]. destruct (wf_verifications d Hwf kv' v' Hv') as (r0 & H0 & ? & ?). rewrite E in H0. by simplify_eq.
Qed.

Lemma find_none_lookup {A} (p : A → bool) (m : gmap string A) k a :
  List.find p (map_to_list m).*2 = None → m !! k = Some a → p a = false.
Proof.
  intros Hf Hk. eapply List.find_none in Hf; [done|]. apply list_elem_of_In, list_elem_of_fmap.
  exists (k, a). split; [done|]. by apply elem_of_map_to_list.
Qed.

Lemma wf_soc d k r ks s art :
  wf d → mrv_annual_reports d !! k = Some r → State r = Verified → soc_of d k = None →
  mrv_report_artifacts d !! k = None → mrv_statements_of_compliance d !! ks = None →
  soc_ReportID s = k → artifact_sha256 art = soc_artifact_sha256 s →
  wf (on_socs (insert ks s) (on_artifacts (insert k art) d)).
Proof.
  intros [Hr Hu Hv Hs Ho] Hk Hst Hnone Hart Hfresh Hsk Hsum.
  assert (∀ k' s', mrv_statements_of_compliance d !! k' = Some s' → soc_ReportID s' ≠ k) as Hno.
  { intros k' s' Hs'. eapply find_none_lookup in Hnone; [|done]. by apply String.eqb_neq. }
  split; simpl.
  - intros k0 r0 H0. destruct (Hr k0 r0 H0). by split.
  - exact Hu.
  - exact Hv.
  - intros k0 s0 [[<- <-]|[Hne H0]]%lookup_insert_Some.
    + exists r, art. rewrite Hsk, lookup_insert_eq. done.
    + destruct (Hs k0 s0 H0) as (r0 & a & ? & ? & ? & ?). exists r0, a.
      rewrite lookup_insert_ne; [done|]. intros E. by eapply Hno.
  - intros k1 k2 s1 s2 [[<- <-]|[Hne1 H1]]%lookup_insert_Some [[<- <-]|[Hne2 H2]]%lookup_insert_Some E; try done.
    + exfalso. eapply Hno; [done|congruence].
    + exfalso. eapply Hno; [done|congruence].
    + by eapply Ho.
Qed.

Lemma step_wf x pl op d d' : mrv_step service x pl op d d' → wf d → wf d'.
Proof.
  intros Hstep Hwf. destruct Hstep;
    try match goal with H : queued _ _ _ _ _ _ _ _ _ _ |- _ => destruct H as [env ? ? ?] end;
    try (by eapply wf_frame; [|exact Hwf]).
  - eapply wf_frame; [|eapply (wf_compile d (id1 x) row)]; try done;
      match goal with H : compiles _ _ _ _ _ _ _ |- _ => destruct H end; done.
  - match goal with H : report_move _ _ _ _ _ |- _ => inversion H; subst end.
    eapply wf_frame; [|eapply (wf_submit d report r _ (pg_time (now_ x)))]; done.
  - match goal with H : report_move _ _ _ _ _ |- _ => inversion H; subst end.
    eapply wf_frame; [|eapply (wf_decide d _ r _ _ (id1 x) v)]; done.
  - eapply wf_frame; [|eapply (wf_soc d report r (id1 x) _ (mkArtifact art sum))]; try done.
Qed.

Lemma step_evolves x pl op d d' : mrv_step service x pl op d d' → wf d → evolves d d'.
Proof.
  intros Hstep Hwf. destruct Hstep;
    try match goal with H : queued _ _ _ _ _ _ _ _ _ _ |- _ => destruct H as [env ? ? Hfresh]; simpl in Hfresh end;
    split; simpl; auto with mrv; try (apply carried_refl; apply _);
    try (apply (carried_insert _); intros ? ?; congruence).
  - apply (carried_insert _). intros r0 Hr0. simplify_eq. eapply report_move_later; [done|].
    by apply (wf_reports d Hwf report r).
  - apply (carried_insert _). intros r0 Hr0. simplify_eq. eapply report_move_later; [done|].
    by apply (wf_reports d Hwf (ve_ReportID v) r).
  - apply published_batch_later.
Qed.

Lemma run_ops_wf_evolves ops w :
  wf (tables (e_state w)) → wf (tables (e_state (run_ops service ops w)))
    ∧ evolves (tables (e_state w)) (tables (e_state (run_ops service ops w))).
Proof.
  intros Hwf. induction (mrv_run_ops_steps service ops w) as [d|d d1 d2 (x & pl & op & Hs) _ IH]; [by split|].
  pose proof (step_wf _ _ _ _ _ Hs Hwf) as H1. apply IH in H1 as [H1 H2]. split; [done|].
  etrans; [by eapply step_evolves|done].
Qed.

(** A statement rests on an independent verification: its report is VERIFIED, the
    verifier is neither its compiler nor its submitter, and the statement carries the
    digest of the artifact stored for the report. *)
Lemma wf_soc_independent d k s :
  wf d → mrv_statements_of_compliance d !! k = Some s →
  ∃ r v a, mrv_annual_reports d !! soc_ReportID s = Some r ∧ State r = Verified ∧
    verified_by d (soc_ReportID s) v ∧ v ≠ CompiledBy r ∧ SubmittedBy r = Some (CompiledBy r) ∧
    mrv_report_artifacts d !! soc_ReportID s = Some a ∧ artifact_sha256 a = soc_artifact_sha256 s.
Proof.
  intros Hwf (r & a & Hr & Hst & Ha & Hsum)%(wf_socs d Hwf).
  destruct (wf_reports d Hwf _ _ Hr) as [_ _ Hdraft Hsub Hver].
  destruct (Hver Hst) as (v & Hv & Hne).
  destruct (SubmittedBy r) as [m|] eqn:Em; [|destruct Hdraft as [_ Hd]; rewrite Hd in Hst; done].
  specialize (Hsub m eq_refl) as ->. exists r, v, a. split_and!; try done. congruence.
Qed.

(** The ledger only grows: across any run, fuel reports, voyages, verifications,
    statements and artifacts are never changed or removed; an annual report keeps its
    identity, its totals, factor digest and intensity, and, once submitted, its
    submitter; VERIFIED and REJECTED are final; outbox rows keep their payload. *)
Theorem mrv_ledger_only_grows ops1 ops2 faults :
  let w := run_ops service ops1 (mkEnv faults empty_mrv_store) in
  evolves (tables (e_state w)) (tables (e_state (run_ops service ops2 w))).
Proof.
  intros w. destruct (run_ops_wf_evolves ops1 (mkEnv faults empty_mrv_store) wf_empty) as [Hwf _].
  by destruct (run_ops_wf_evolves ops2 w Hwf).
Qed.

(** ** Every domain row has its signed event *)

Definition unsigned (env : Envelope) : Envelope :=
  mkEnvelope (EnvelopeVersion env) (EventID env) (EventType env) (OccurredAt env) (env_Producer env) (CorrelationID env)
    (env_Classification env) (RecordClassification env) (FHIR env) (set_signature (env_Provenance env) "").
(** The envelope of an outbox row, as the contract of its event type asks. *)
Record envelope_ok (id ty : string) (env : Envelope) : Prop := mkEnvelopeOk {
  eo_id : EventID env = id;
  eo_type : EventType env = ty;
  eo_contract : ∃ c, eventContracts !! ty = Some c ∧ env_Classification env = classification c;
  eo_signed : Sign_ (Signer service) (unsigned env) = Some (Signature (env_Provenance env));
}.

Lemma BuildSignedEnvelope_Ok ty id corr resource at_ ledger b e env :
  BuildSignedEnvelope (Some (Signer service)) ty id corr resource at_ (Principal service) ledger b e = Ok env →
  envelope_ok id ty env ∧ CorrelationID env = corr ∧ LedgerCommitHash (env_Provenance env) = ledger.
Proof.
  unfold BuildSignedEnvelope. destruct (eventContracts !! ty) as [c|] eqn:Hc; [|done].
  repeat (case_match; [done|]). case_match eqn:Hs; [|done]. intros [= <-]. split; [|done].
  split; simpl; eauto.
Qed.

Definition event_for (d : mrv_db) (ty corr : string) (p : OutboxRow → Prop) : Prop :=
  ∃ e o, mrv_outbox d !! e = Some o ∧ event_type o = ty ∧ CorrelationID (payload_ o) = corr ∧ p o.
Definition soc_event (k : string) (s : StatementOfCompliance) (o : OutboxRow) : Prop :=
  aggregate_id o = k ∧ LedgerCommitHash (env_Provenance (payload_ o)) = "sha256:" +:+ soc_artifact_sha256 s.

Record announced (d : mrv_db) : Prop := mkAnnounced {
  an_fuel : ∀ k r, mrv_fuel_reports d !! k = Some r → event_for d EventFuelReport k (λ _, True);
  an_voyage : ∀ k v, mrv_voyages d !! k = Some v → event_for d EventVoyage k (λ _, True);
  an_annual : ∀ k r, mrv_annual_reports d !! k = Some r → event_for d EventEmissionsAnnual k (λ _, True);
  an_verification : ∀ k v, mrv_verifications d !! k = Some v → event_for d EventVerification k (λ _, True);
  an_soc : ∀ k s, mrv_statements_of_compliance d !! k = Some s → event_for d EventSoC (soc_ReportID s) (soc_event k s);
  an_outbox : ∀ e o, mrv_outbox d !! e = Some o → envelope_ok e (event_type o) (payload_ o);
}.
Lemma announced_empty : announced empty_mrv_db.
Proof. split; intros *; simpl; by rewrite lookup_empty. Qed.

Lemma event_for_later d d' ty corr (p : OutboxRow → Prop) :
  carried outbox_later (mrv_outbox d) (mrv_outbox d') → (∀ o o', outbox_later o o' → p o → p o') →
  event_for d ty corr p → event_for d' ty corr p.
Proof.
  intros Hc Hp (e & o & (o' & Ho' & Hl)%Hc & Ht & Hcor & Hpo). exists e, o'.
  pose proof Hl as (? & E2 & E3 & _). rewrite E2, E3. split_and!; eauto.
Qed.
Lemma queued_event x ty agg corr resource at_ ledger d d' (p : OutboxRow → Prop) :
  queued service x ty agg corr resource at_ ledger d d' →
  (∀ o, aggregate_id o = agg → LedgerCommitHash (env_Provenance (payload_ o)) = ledger → p o) → event_for d' ty corr p.
Proof.
  intros [env (Hok & Hc & Hl)%BuildSignedEnvelope_Ok Hin Hf] Hp. eexists (event x), _. simpl. rewrite lookup_insert_eq.
  split_and!; [done..|by apply Hp].
Qed.
Lemma queued_outbox_ok x ty agg corr resource at_ ledger d d' :
  queued service x ty agg corr resource at_ ledger d d' →
  (∀ e o, mrv_outbox d !! e = Some o → envelope_ok e (event_type o) (payload_ o)) →
  ∀ e o, mrv_outbox d' !! e = Some o → envelope_ok e (event_type o) (payload_ o).
Proof.
  intros [env (Hok & _ & _)%BuildSignedEnvelope_Ok Hin Hf] Hold e o. simpl.
  intros [[<- <-]|[_ Ho]]%lookup_insert_Some; [done|by apply Hold].
Qed.
Lemma queued_tables x ty agg corr resource at_ ledger d d' :
  queued service x ty agg corr resource at_ ledger d d' →
  mrv_fuel_reports d' = mrv_fuel_reports d ∧ mrv_voyages d' = mrv_voyages d ∧
  mrv_annual_reports d' = mrv_annual_reports d ∧ mrv_verifications d' = mrv_verifications d ∧
  mrv_statements_of_compliance d' = mrv_statements_of_compliance d.
Proof. by intros []. Qed.

Lemma published_batch_back t (l : list (string * OutboxRow)) (m : gmap string OutboxRow) e o :
  fold_left (λ m (kr : string * OutboxRow), alter (set_published t) kr.1 m) l m !! e = Some o →
  ∃ o0, m !! e = Some o0 ∧ outbox_later o0 o.
Proof.
  revert m. induction l as [|[k o1] l IH]; intros m; simpl; [intros He; by exists o|].
  intros (o2 & Ho2 & Hl)%IH. destruct (decide (e = k)) as [->|].
  - rewrite lookup_alter_eq in Ho2. destruct (m !! k) as [o0|]; [|done]. simpl in Ho2. simplify_eq.
    exists o0. split; [done|]. etrans; [|done]. by split_and!.
  - rewrite lookup_alter_ne in Ho2 by done. eauto.
Qed.

(** The row an operation adds is announced by what it queues; the others were. *)
Lemma step_announced x pl op d d' : mrv_step service x pl op d d' → wf d → announced d → announced d'.
Proof.
  intros Hstep Hwf [Hf Hv Ha Hve Hs Ho]. pose proof (step_evolves _ _ _ _ _ Hstep Hwf) as Hev.
  assert (∀ ty corr, event_for d ty corr (λ _, True) → event_for d' ty corr (λ _, True)) as Hold
    by (intros ty corr; apply event_for_later; [apply Hev|done]).
  assert (∀ k s, event_for d EventSoC (soc_ReportID s) (soc_event k s) → event_for d' EventSoC (soc_ReportID s) (soc_event k s)) as Hsold.
  { intros k s. apply event_for_later; [apply Hev|]. intros o o' (E1 & _ & E3 & _). unfold soc_event. by rewrite E1, E3. }
  destruct Hstep;
    try (match goal with H : queued _ _ _ _ _ _ _ _ _ _ |- _ =>
           pose proof (queued_event _ _ _ _ _ _ _ _ _ (λ _, True) H (λ _ _ _, I)) as Hnew;
           pose proof (queued_outbox_ok _ _ _ _ _ _ _ _ _ H Ho) as Hob;
           destruct (queued_tables _ _ _ _ _ _ _ _ _ H) as (Tf & Tv & Ta & Tve & Ts) end;
         simpl in *; split; rewrite ?Tf, ?Tv, ?Ta, ?Tve, ?Ts; try done);
    try (by split; simpl; eauto);
    try (by intros k0 r0 [[<- <-]|[_ ?]]%lookup_insert_Some; eauto); eauto.
  - intros k s [[<- <-]|[_ ?]]%lookup_insert_Some; [|eauto].
    match goal with H : queued _ _ _ _ _ _ _ _ _ _ |- _ => eapply queued_event; [exact H|] end. by intros o E1 E2.
  - split; simpl; eauto. intros e o (o0 & Ho0 & (_ & E2 & E3 & _))%published_batch_back. rewrite E2, E3. auto.
Qed.

Lemma announced_run ops faults : announced (tables (e_state (run_ops service ops (mkEnv faults empty_mrv_store)))).
Proof.
  assert (∀ d d', rtc (any_step service) d d' → wf d → announced d → announced d') as Hgo.
  { induction 1 as [|d d1 d2 (x & pl & op & Hs) _ IH]; [done|]. intros Hwf Ha.
    apply IH; [by eapply step_wf|by eapply step_announced]. }
  eapply Hgo; [apply mrv_run_ops_steps|apply wf_empty|apply announced_empty].
Qed.

(** Every mutation leaves its event: after every run, under any faults, each fuel
    report, voyage, annual report, verification and statement has an outbox row of
    its event type that carries its identity (for a statement also the digest of the
    artifact), and every outbox row holds an envelope under its own event id, with
    the classification of the contract, signed by the service. *)
Theorem mutations_are_announced ops faults :
  announced (tables (e_state (run_ops service ops (mkEnv faults empty_mrv_store)))).
Proof. apply announced_run. Qed.

(** ** Monitoring plans *)

Record plans_ok (d : mrv_db) : Prop := mkPlansOk {
  po_key : ∀ k p, mrv_monitoring_plans d !! k = Some p → PlanID p = k;
  po_four_eyes : ∀ k p c, mrv_monitoring_plans d !! k = Some p → ConfirmedBy p = Some c → c ≠ pl_CreatedBy p;
  po_confirmed : ∀ k p, mrv_monitoring_plans d !! k = Some p →
    is_Some (ConfirmedBy p) ↔ pl_State p = PlanConfirmed ∨ pl_State p = PlanSuperseded;
  po_one : ∀ k1 k2 p1 p2, mrv_monitoring_plans d !! k1 = Some p1 → mrv_monitoring_plans d !! k2 = Some p2 →
    pl_ImoNumber p1 = pl_ImoNumber p2 → pl_State p1 = PlanConfirmed → pl_State p2 = PlanConfirmed → k1 = k2;
  po_version : ∀ k1 k2 p1 p2, mrv_monitoring_plans d !! k1 = Some p1 → mrv_monitoring_plans d !! k2 = Some p2 →
    pl_ImoNumber p1 = pl_ImoNumber p2 → Version p1 = Version p2 → k1 = k2;
}.

Lemma plans_ok_empty : plans_ok empty_mrv_db.
Proof. split; intros *; simpl; by rewrite lookup_empty. Qed.

Lemma version_below_next d imo k p :
  mrv_monitoring_plans d !! k = Some p → pl_ImoNumber p = imo → Version p < next_version d imo.
Proof.
  intros Hk Hi. unfold next_version.
  assert (p ∈ plans_of d imo) as Hin.
  { apply list_elem_of_filter. split; [done|]. apply list_elem_of_fmap. exists (k, p). split; [done|].
    by apply elem_of_map_to_list. }
  induction (plans_of d imo) as [|q l IH]; [by apply not_elem_of_nil in Hin|].
  rewrite fmap_cons. cbn [foldr]. apply elem_of_cons in Hin as [->|Hin]; [lia|]. specialize (IH Hin). lia.
Qed.

Lemma plans_put d k p :
  plans_ok d → mrv_monitoring_plans d !! k = None → PlanID p = k → pl_State p = PlanDraft → ConfirmedBy p = None →
  Version p = next_version d (pl_ImoNumber p) → plans_ok (on_plans (insert k p) d).
Proof.
  intros [Hk Hf Hc Ho Hv] Hfresh Hid Hs Hn Hver. split; simpl.
  - intros k0 p0 [[<- <-]|[_ H0]]%lookup_insert_Some; eauto.
  - intros k0 p0 c [[<- <-]|[_ H0]]%lookup_insert_Some; [congruence|eauto].
  - intros k0 p0 [[<- <-]|[_ H0]]%lookup_insert_Some; [|eauto]. rewrite Hn, Hs.
    split; [by intros []|by intros [?|?]].
  - intros k1 k2 p1 p2 [[<- <-]|[_ H1]]%lookup_insert_Some [[<- <-]|[_ H2]]%lookup_insert_Some; try congruence; eauto.
  - intros k1 k2 p1 p2 [[<- <-]|[_ H1]]%lookup_insert_Some [[<- <-]|[_ H2]]%lookup_insert_Some Hi He; try done; eauto.
    + exfalso. pose proof (version_below_next d (pl_ImoNumber p) k2 p2 H2 (eq_sym Hi)). lia.
    + exfalso. pose proof (version_below_next d (pl_ImoNumber p) k1 p1 H1 Hi). lia.
Qed.

(** What the two UPDATEs of a confirmation do to a row. *)
Definition after_confirm (k : string) (imo actor : string) (now : Z) (k0 : string) (p0 : MonitoringPlan) : MonitoringPlan :=
  if decide (k0 = k) then set_plan_confirmed actor now p0 else supersede imo p0.
Lemma lookup_confirm k imo actor now (m : gmap string MonitoringPlan) p k0 :
  m !! k = Some p → pl_State p ≠ PlanConfirmed →
  alter (set_plan_confirmed actor now) k (supersede imo <$> m) !! k0 = after_confirm k imo actor now k0 <$> m !! k0.
Proof.
  intros Hk Hs. unfold after_confirm. destruct (decide (k0 = k)) as [->|Hne].
  - rewrite lookup_alter_eq, lookup_fmap, Hk. simpl. unfold supersede.
    rewrite bool_decide_eq_false_2 by naive_solver. done.
  - by rewrite lookup_alter_ne, lookup_fmap.
Qed.
Lemma supersede_fields imo p :
  PlanID (supersede imo p) = PlanID p ∧ pl_ImoNumber (supersede imo p) = pl_ImoNumber p ∧
  Version (supersede imo p) = Version p ∧ pl_CreatedBy (supersede imo p) = pl_CreatedBy p ∧
  ConfirmedBy (supersede imo p) = ConfirmedBy p ∧
  (pl_State (supersede imo p) = PlanConfirmed → pl_State p = PlanConfirmed ∧ pl_ImoNumber p ≠ imo) ∧
  (pl_State (supersede imo p) = PlanConfirmed ∨ pl_State (supersede imo p) = PlanSuperseded ↔
   pl_State p = PlanConfirmed ∨ pl_State p = PlanSuperseded).
Proof. unfold supersede. case_bool_decide as Hb; simpl; split_and!; try done; naive_solver. Qed.

Lemma plans_confirm d k p actor now :
  plans_ok d → mrv_monitoring_plans d !! k = Some p → pl_CreatedBy p ≠ actor → pl_State p ≠ PlanConfirmed →
  plans_ok (on_plans (alter (set_plan_confirmed actor now) k) (on_plans (fmap (supersede (pl_ImoNumber p))) d)).
Proof.
  intros [Hk Hf Hc Ho Hv] Hp Hm Hs.
  assert (∀ k0 q, alter (set_plan_confirmed actor now) k (supersede (pl_ImoNumber p) <$> mrv_monitoring_plans d) !! k0 = Some q →
    ∃ q0, mrv_monitoring_plans d !! k0 = Some q0 ∧ q = after_confirm k (pl_ImoNumber p) actor now k0 q0) as Hback.
  { intros k0 q. rewrite (lookup_confirm _ _ _ _ _ p) by done. intros (q0 & Eq & Hq)%fmap_Some. eauto. }
  split; simpl.
  - intros k0 q (q0 & H0 & ->)%Hback. unfold after_confirm. case_decide; [by apply Hk in H0|].
    destruct (supersede_fields (pl_ImoNumber p) q0) as (-> & _). eauto.
  - intros k0 q c (q0 & H0 & ->)%Hback. unfold after_confirm. case_decide; simpl; [congruence|].
    destruct (supersede_fields (pl_ImoNumber p) q0) as (_ & _ & _ & -> & -> & _). eauto.
  - intros k0 q (q0 & H0 & ->)%Hback. unfold after_confirm. case_decide; simpl; [naive_solver|].
    destruct (supersede_fields (pl_ImoNumber p) q0) as (_ & _ & _ & _ & -> & _ & ->). eauto.
  - intros k1 k2 q1 q2 (p1 & H1 & ->)%Hback (p2 & H2 & ->)%Hback. unfold after_confirm.
    destruct (supersede_fields (pl_ImoNumber p) p1) as (_ & I1 & _ & _ & _ & C1 & _),
      (supersede_fields (pl_ImoNumber p) p2) as (_ & I2 & _ & _ & _ & C2 & _).
    repeat case_decide; simpl; rewrite ?I1, ?I2; intros Hi S1 S2; subst; simplify_eq; try done.
    + destruct (C2 S2); congruence.
    + destruct (C1 S1); congruence.
    + destruct (C1 S1), (C2 S2). eauto.
  - intros k1 k2 q1 q2 (p1 & H1 & ->)%Hback (p2 & H2 & ->)%Hback. unfold after_confirm.
    destruct (supersede_fields (pl_ImoNumber p) p1) as (_ & I1 & V1 & _),
      (supersede_fields (pl_ImoNumber p) p2) as (_ & I2 & V2 & _).
    repeat case_decide; simpl; rewrite ?I1, ?I2, ?V1, ?V2; intros Hi HV; subst; simplify_eq; try done; eauto.
Qed.

Lemma step_plans_ok x pl op d d' : mrv_step service x pl op d d' → plans_ok d → plans_ok d'.
Proof.
  assert (∀ e e', mrv_monitoring_plans e = mrv_monitoring_plans e' → plans_ok e → plans_ok e') as Hframe
    by (intros e e' E [H1 H2 H3 H4 H5]; split; by rewrite <- E).
  intros Hstep Hok. destruct Hstep;
    try match goal with H : queued _ _ _ _ _ _ _ _ _ _ |- _ => destruct H end;
    try (by eapply Hframe; [|exact Hok]).
  - subst. by apply plans_put.
  - apply plans_confirm; try done. match goal with H : _ ∨ _ |- _ => destruct H; congruence end.
Qed.

(** Monitoring plans take two people: after every run, under any faults, a plan
    was confirmed by someone other than its author exactly when it is CONFIRMED or
    SUPERSEDED, a ship has at most one CONFIRMED plan, and no two plans of a ship
    share a version. *)
Theorem plans_are_two_person ops faults :
  plans_ok (tables (e_state (run_ops service ops (mkEnv faults empty_mrv_store)))).
Proof.
  assert (∀ d d', rtc (any_step service) d d' → plans_ok d → plans_ok d') as Hgo.
  { induction 1 as [|d d1 d2 (x & pl & op & Hs) _ IH]; [done|]. intros Hp. apply IH. by eapply step_plans_ok. }
  eapply Hgo; [apply mrv_run_ops_steps|apply plans_ok_empty].
Qed.
End workflow.
