(* ===== verification/MrvIntake.v ===== *)
(** * Fuel reports and the compilation of annual reports

    What a fuel report and a compilation do in full: a key files at most one report
    and a replay is answered from the stored one; a compiled report adds up and uses
    a source-cited factor for every row, or there is none; a draft cannot be compiled
    again, and a per-voyage computation always fails. *)
From S2P Require Import Prelude Effects Sha256 GoTime GoParse GoFloat Validate Classification Sign Mrv MrvProps MrvEstimate MrvRows MrvService MrvSpec MrvWorkflow.

(** ** Runs without faults *)

Section calm.
Context (s : mrv_store) (Hok : tx_failed s = false).

Lemma select_calm {A} (f : mrv_db → A) : select f (mkEnv [] s) = (mkEnv [] s, Ok (f (tables s))).
Proof. unfold select, statement, attempt, mbind, M_bind, gets. simpl. by rewrite Hok. Qed.
Lemma select_row_calm {A} (f : mrv_db → option A) e a :
  f (tables s) = Some a → select_row f e (mkEnv [] s) = (mkEnv [] s, Ok a).
Proof. intros Hf. unfold select_row. erewrite M_bind_run by apply select_calm. by rewrite Hf. Qed.
Lemma exec_calm (f : mrv_db → mrv_db) : exec f (mkEnv [] s) = (mkEnv [] (set_tables (f (tables s)) s), Ok tt).
Proof. unfold exec, statement, attempt, mbind, M_bind, gets. simpl. by rewrite Hok. Qed.
Lemma require_calm b e : b = true → require (S := mrv_store) (E := workflow_error) b e (mkEnv [] s) = (mkEnv [] s, Ok tt).
Proof. by intros ->. Qed.
End calm.

Lemma withActor_calm_Ok {A} actor (fn : IO A) s s' a :
  blank actor = false → fn (mkEnv [] (set_failed false s)) = (mkEnv [] s', Ok a) → tx_failed s' = false →
  withActor actor fn (mkEnv [] s) = (mkEnv [] s', Ok a).
Proof.
  intros Ha Hf Hs. unfold withActor. rewrite Ha. unfold transaction. cbn [external e_state e_faults].
  erewrite M_bind_run by reflexivity. cbn [e_state e_faults]. erewrite M_bind_run by reflexivity.
  erewrite M_bind_run by exact Hf. unfold gets, mbind, M_bind. simpl. by rewrite Hs.
Qed.
Lemma withActor_calm_Err {A} actor (fn : IO A) s s' e :
  blank actor = false → fn (mkEnv [] (set_failed false s)) = (mkEnv [] s', Err e) →
  withActor actor fn (mkEnv [] s) = (mkEnv [] (set_tables (tables s) s'), Err e).
Proof.
  intros Ha Hf. unfold withActor. rewrite Ha. unfold transaction. cbn [external e_state e_faults].
  erewrite M_bind_run by reflexivity. cbn [e_state e_faults]. erewrite M_bind_run by reflexivity.
  cbn [e_state]. unfold mbind, M_bind. by rewrite Hf.
Qed.

Section intake.
Context {Hmath : Math} {Hpow : MathPow} {Hworld : MrvWorld} (service : Service).

(** ** Fuel reports *)

(** The key of a fuel report. *)
Definition fuel_keys_unique (d : mrv_db) : Prop :=
  ∀ k1 k2 r1 r2, mrv_fuel_reports d !! k1 = Some r1 → mrv_fuel_reports d !! k2 = Some r2 →
    ExternalRef r1 = ExternalRef r2 → k1 = k2.

Lemma step_fuel_keys x pl op d d' : mrv_step service x pl op d d' → fuel_keys_unique d → fuel_keys_unique d'.
Proof.
  intros Hstep Hu. destruct Hstep;
    try match goal with H : queued _ _ _ _ _ _ _ _ _ _ |- _ => destruct H end; try exact Hu.
  assert (∀ k r, mrv_fuel_reports d !! k = Some r → ExternalRef r ≠ key) as Hno.
  { intros k r Hr. match goal with H : fuel_by_ref _ _ = None |- _ => eapply find_none_lookup in H; [|exact Hr] end.
    by apply String.eqb_neq. }
  assert (ExternalRef stored = key) as Hkey by by eapply fe_key.
  intros k1 k2 r1 r2. simpl.
  intros [[<- <-]|[_ H1']]%lookup_insert_Some [[<- <-]|[_ H2']]%lookup_insert_Some E; try done.
  - exfalso. eapply Hno; [done|congruence].
  - exfalso. eapply Hno; [done|congruence].
  - by eapply Hu.
Qed.

(** A report at the resolution of the database. *)
Definition whole_micros (r : FuelReport) : bool := (PeriodFrom r mod 1000 =? 0) && (PeriodTo r mod 1000 =? 0).

Lemma pg_time_id t : (pg_time t =? t) = (t mod 1000 =? 0).
Proof.
  unfold pg_time. pose proof (Z.div_mod t 1000 ltac:(lia)).
  destruct (Z.eqb_spec (t mod 1000) 0), (Z.eqb_spec (t / 1000 * 1000) t); try done; lia.
Qed.
Lemma same_submission_stored id imo key actor digest created report :
  same_submission (at_db (filed id imo key actor digest created report)) report = whole_micros report.
Proof.
  unfold same_submission, whole_micros. simpl. rewrite !pg_time_id, !String.eqb_refl, Z.eqb_refl, !bool_decide_eq_true_2 by done.
  by rewrite !andb_true_r.
Qed.

(** A replay of a fuel report under its key is answered from the stored report and
    changes nothing: when the ship is known, a confirmed plan still covers the report
    and its factor resolves, the call returns the stored report if the reporting
    period is in whole microseconds, and an idempotency conflict otherwise (the
    columns hold microseconds); the ship of the stored report is not compared. *)
Theorem fuel_replay_answered_from_store x actor imo imo0 key id actor0 digest created report s ship f digest' :
  blank actor = false → blank key = false → validateFuelReport report = true →
  digestEvidence (Evidence_ report) = Ok digest' →
  mrv_ships (tables s) !! imo = Some ship →
  plan_covers (tables s) imo (Consumer report) (Method report) (fu_FuelGrade report) = true →
  ResolveFactor (factors service) (fu_FuelGrade report) "CO2" (PeriodTo report) = Ok f →
  let stored := at_db (filed id imo0 key actor0 digest created report) in
  fuel_by_ref (tables s) key = Some stored →
  let out := SubmitFuelReport service x actor imo key report (mkEnv [] s) in
  tables (e_state out.1) = tables s ∧
  out.2 = if whole_micros report then Ok (replayed_as imo stored, true) else Err ErrIdempotencyConflict.
Proof.
  intros Ha Hk Hv Hd Hship Hplan Hf stored Hstored out.
  unfold out, SubmitFuelReport. rewrite Hk, Hv, Hd. cbn [negb].
  assert (fuel_intake service x actor imo key digest' report (mkEnv [] (set_failed false s)) =
    (mkEnv [] (set_failed false s),
     if whole_micros report then Ok (replayed_as imo stored, true) else Err ErrIdempotencyConflict)) as Hrun.
  { unfold fuel_intake.
    erewrite M_bind_run by (by apply select_calm). unfold ship_exists. simpl tables. rewrite Hship, bool_decide_eq_true_2 by done.
    erewrite M_bind_run by (by apply require_calm).
    erewrite M_bind_run by (by apply select_calm). simpl tables. rewrite Hplan. erewrite M_bind_run by (by apply require_calm).
    erewrite M_bind_run.
    2: { unfold resolve_factor. erewrite M_bind_run by (by apply select_calm). by rewrite Hf. }
    erewrite M_bind_run by (by apply select_calm). cbn [set_failed tables]. rewrite Hstored.
    unfold stored at 1. rewrite same_submission_stored. by destruct (whole_micros report). }
  destruct (whole_micros report).
  - erewrite withActor_calm_Ok by done. done.
  - erewrite withActor_calm_Err by done. done.
Qed.

(** After every run, under any faults, an idempotency key belongs to at most one
    fuel report. *)
Theorem fuel_filed_once_per_key ops faults :
  fuel_keys_unique (tables (e_state (run_ops service ops (mkEnv faults empty_mrv_store)))).
Proof.
  assert (∀ d d', rtc (any_step service) d d' → fuel_keys_unique d → fuel_keys_unique d') as Hgo.
  { induction 1 as [|d d1 d2 (x & pl & op & Hs) _ IH]; [done|]. intros Hp. apply IH. by eapply step_fuel_keys. }
  eapply Hgo; [apply mrv_run_ops_steps|]. intros k1 k2 r1 r2. simpl. by rewrite lookup_empty.
Qed.

(** ** Compilation *)

(** The aggregates of the report are those of a voyage with other names. *)
Definition as_voyage_grade (g : gradeTotal) : VoyageGradeEmissions :=
  mkGradeEmissions (gt_FuelGrade g) (gt_FuelTonnesMilli g) (gt_CO2TonnesMilli g) (gt_FactorNano g) (gt_FactorCitation g).
Lemma add_grade_total_voyage grade fuel co2 factor l :
  as_voyage_grade <$> add_grade_total grade fuel co2 factor l = add_grade grade fuel co2 factor (as_voyage_grade <$> l).
Proof.
  induction l as [|g l IH]; [done|]. cbn [add_grade_total fmap list_fmap add_grade]. simpl.
  destruct (String.eqb _ _); cbn [fmap list_fmap]; [done|]. by rewrite IH.
Qed.

(** The CO2 of a report row with its resolved factor. *)
Definition co2_of (r : FuelReport) : Z :=
  match ResolveFactor (factors service) (fu_FuelGrade r) "CO2" (PeriodTo r) with
  | Ok f => FuelTonnesMilli r * FactorNano f / 1000000000
  | Err _ => 0
  end.

Record totals_of (rows : list FuelReport) (t : reportTotals) (used : gmap string FactorRow) : Prop := mkTotalsOf {
  to_count : rt_FuelReportCount t = Z.of_nat (length rows);
  to_fuel : TotalFuelTonnesMilli t = uint64 (sumZ FuelTonnesMilli rows);
  to_co2 : rt_CO2TonnesMilli t = uint64 (sumZ co2_of rows);
  to_distance : rt_DistanceNmMilli t = uint64 (sumZ (λ r, default 0 (fu_DistanceNmMilli r)) rows);
  to_hours : rt_HoursUnderwayMinutes t = uint64 (sumZ (λ r, default 0 (fu_HoursUnderwayMinutes r)) rows);
  to_balance : balanced (mkVoyageTotals (as_voyage_grade <$> rt_PerGrade t) (rt_CO2TonnesMilli t) (TotalFuelTonnesMilli t) 0);
  to_factors : ∀ r, r ∈ rows → ∃ f, ResolveFactor (factors service) (fu_FuelGrade r) "CO2" (PeriodTo r) = Ok f ∧
    is_Some (used !! factor_map_key f);
}.

Lemma sumZ_app {A} (f : A → Z) l1 l2 : sumZ f (l1 ++ l2) = sumZ f l1 + sumZ f l2.
Proof. induction l1 as [|a l1 IH]; cbn [sumZ fold_right app]; [done|]. unfold sumZ in *. rewrite IH. lia. Qed.

Lemma CO2MilliTonnes_floor fuel nano co2 :
  0 ≤ fuel → 0 ≤ nano → CO2MilliTonnes fuel nano = Ok co2 → co2 = fuel * nano / 1000000000.
Proof.
  unfold CO2MilliTonnes. intros Hf Hn. destruct (Z.eqb_spec nano 0); [done|].
  destruct (Z.ltb_spec ((2 ^ 64 - 1) / nano) fuel) as [|Hle]; [done|]. intros [= <-]. f_equal. apply uint64_id.
  split; [nia|]. pose proof (Z.mul_div_le (2 ^ 64 - 1) nano ltac:(lia)). nia.
Qed.

Lemma newest_factor_spec l acc f :
  fold_left newer_factor l acc = Some f →
  (acc = Some f ∨ f ∈ l) ∧ (∀ g, acc = Some g ∨ g ∈ l → ValidFrom g ≤ ValidFrom f).
Proof.
  revert acc. induction l as [|r l IH]; intros acc; simpl.
  { intros ->. split; [by left|]. intros g [[= ->]|[]%not_elem_of_nil]. done. }
  intros [Hin Hmax]%IH. unfold newer_factor in *. destruct acc as [a|].
  - destruct (Z.ltb_spec (ValidFrom a) (ValidFrom r)).
    + split; [right; destruct Hin as [[= ->]|?]; [left|by right]|].
      intros g [[= ->]|[->|Hg]%elem_of_cons]; [|auto..]. specialize (Hmax r (or_introl eq_refl)). lia.
    + split; [destruct Hin; [by left|right; by right]|].
      intros g [[= ->]|[->|Hg]%elem_of_cons]; [auto| |auto]. specialize (Hmax a (or_introl eq_refl)). lia.
  - split; [right; destruct Hin as [[= ->]|?]; [left|by right]|].
    intros g [?|[->|Hg]%elem_of_cons]; [done|auto..].
Qed.
(** A resolved factor is the newest source-cited row of the grade on its date. *)
Lemma ResolveFactor_spec table grade gas at_ f :
  ResolveFactor table grade gas at_ = Ok f →
  f ∈ table ∧ FactorKey f = grade ∧ Gas f = gas ∧ date_of (ValidFrom f) ≤ date_of at_ ∧
  ∀ g, g ∈ table → FactorKey g = grade → Gas g = gas → date_of (ValidFrom g) ≤ date_of at_ → ValidFrom g ≤ ValidFrom f.
Proof.
  unfold ResolveFactor. case_match eqn:E; [|done]. intros [= ->]. apply newest_factor_spec in E as [[?|Hin] Hmax]; [done|].
  apply list_elem_of_filter in Hin as [(? & ? & ?) ?]. split_and!; try done.
  intros g Hg ? ? ?. apply Hmax. right. by apply list_elem_of_filter.
Qed.

Lemma totals_step done_ r t used f co2 :
  totals_of done_ t used → 0 ≤ FuelTonnesMilli r → 0 ≤ FactorNano f →
  ResolveFactor (factors service) (fu_FuelGrade r) "CO2" (PeriodTo r) = Ok f →
  CO2MilliTonnes (FuelTonnesMilli r) (FactorNano f) = Ok co2 →
  totals_of (done_ ++ [r]) (add_report r f co2 t) (<[factor_map_key f := f]> used).
Proof.
  intros [Hn Hfu Hc Hd Hh (B1 & B2 & B3) Hfac] H0 H1 Hf Hco2.
  assert (co2 = co2_of r) as Eco2 by (unfold co2_of; rewrite Hf; by apply CO2MilliTonnes_floor).
  split; cbn [add_report rt_FuelReportCount TotalFuelTonnesMilli rt_CO2TonnesMilli rt_DistanceNmMilli rt_HoursUnderwayMinutes rt_PerGrade].
  - rewrite Hn, length_app. simpl. lia.
  - rewrite Hfu, uint64_add, sumZ_app. by rewrite <- (Z.add_0_r (FuelTonnesMilli r)).
  - rewrite Hc, uint64_add, sumZ_app, Eco2. by rewrite <- (Z.add_0_r (co2_of r)).
  - rewrite Hd, uint64_add, sumZ_app. simpl. by rewrite Z.add_0_r.
  - rewrite Hh, uint64_add, sumZ_app. simpl. by rewrite Z.add_0_r.
  - unfold balanced in *. cbn [PerGrade TotalCO2TonnesMilli vt_AllocatedFuelTonnesMilli] in *. rewrite add_grade_total_voyage.
    destruct (add_grade_sums (fu_FuelGrade r) (FuelTonnesMilli r) co2 f (as_voyage_grade <$> rt_PerGrade t)) as [-> ->].
    unfold uint64. rewrite B1, B2, !Z.add_mod_idemp_l by lia. split_and!; [done|done|].
    rewrite add_grade_grades. case_decide; [done|]. apply NoDup_app. split_and!; [done| |apply NoDup_singleton].
    intros g Hx Hg%list_elem_of_singleton. congruence.
  - intros r0 [Hr|Hr%list_elem_of_singleton]%elem_of_app.
    + destruct (Hfac r0 Hr) as (f0 & ? & Hu). exists f0. split; [done|]. rewrite lookup_insert_is_Some'. by right.
    + subst. exists f. rewrite lookup_insert_is_Some'. split; [done|by left].
Qed.

Lemma aggregated_totals done_ rows t used t' used' :
  Forall (λ r, 0 ≤ FuelTonnesMilli r) rows → Forall (λ f, 0 ≤ FactorNano f) (factors service) →
  totals_of done_ t used → aggregated service rows t used = Ok (t', used') → totals_of (done_ ++ rows) t' used'.
Proof.
  intros Hrows Hfs. revert done_ t used. induction Hrows as [|r rows Hr _ IH]; intros done_ t used Ht; simpl.
  { intros [= <- <-]. by rewrite app_nil_r. }
  intros (f & Hf & (co2 & Hco2 & Ha)%bind_Ok)%bind_Ok.
  replace (done_ ++ r :: rows) with ((done_ ++ [r]) ++ rows) by (by rewrite <- app_assoc).
  eapply IH; [|exact Ha]. apply totals_step; try done.
  apply ResolveFactor_spec in Hf as [Hf _]. rewrite Forall_forall in Hfs. by apply Hfs.
Qed.

Lemma no_totals_ok : totals_of [] no_totals ∅.
Proof. split; try done; [by split_and!; [| |constructor]|]. by intros r []%not_elem_of_nil. Qed.

(** The quantities of the tables are not negative (they are BIGINT columns with a
    CHECK, and the code writes uint64). *)
Definition quantities_ok (d : mrv_db) : Prop := ∀ k r, mrv_fuel_reports d !! k = Some r → 0 ≤ FuelTonnesMilli r.

Lemma year_fuel_elem d imo year r :
  r ∈ year_fuel d imo year ↔
  (∃ k, mrv_fuel_reports d !! k = Some r) ∧ fu_ImoNumber r = imo ∧
  time_Date year 1 1 ≤ PeriodFrom r ∧ PeriodTo r ≤ time_Date (year + 1) 1 1.
Proof.
  unfold year_fuel, fuel_where. rewrite merge_sort_Permutation, list_elem_of_filter, list_elem_of_fmap.
  rewrite !andb_true_iff, String.eqb_eq, !Z.leb_le. split.
  - intros [[[? ?] ?] ([k r'] & -> & Hk%elem_of_map_to_list)]. split_and!; eauto.
  - intros [[k Hk] (? & ? & ?)]. split; [done|]. exists (k, r). by rewrite elem_of_map_to_list.
Qed.

(** A successful compilation files the one report of the ship and year, in DRAFT
    and by its author: its totals are the sums over the fuel reports whose period
    lies in the year (as 64-bit quantities), its aggregates per grade balance with
    them, and every row contributed with a source-cited factor valid on its last
    day; before it there was no report of the year, and after it nothing but this
    report and its event is new. *)
Theorem compile_files_the_year x actor imo year w w' r0 :
  quantities_ok (tables (e_state w)) → Forall (λ f, 0 ≤ FactorNano f) (factors service) →
  CompileAnnualReport service x actor imo year w = (w', Ok r0) →
  let d := tables (e_state w) in
  let d' := tables (e_state w') in
  ∃ r used o, mrv_annual_reports d' = <[id1 x := r]> (mrv_annual_reports d) ∧ report_of d imo year = None ∧
    mrv_outbox d' = <[event x := o]> (mrv_outbox d) ∧ mrv_fuel_reports d' = mrv_fuel_reports d ∧
    ImoNumber r = imo ∧ CalendarYear r = year ∧ State r = Draft ∧ CompiledBy r = actor ∧ SubmittedBy r = None ∧
    totals_of (year_fuel d imo year) (Totals r) used ∧ FactorSetHash_ r = FactorSetHash (map_to_list used).*2.
Proof.
  intros Hq Hfs Hrun d d'.
  destruct (compile_refines service x (mkPlane (λ _, []) (λ _, [])) actor imo year w) as [_ Hok].
  rewrite Hrun in Hok. specialize (Hok r0 eq_refl). simpl in Hok. fold d d' in Hok.
  inversion Hok as [| | | | | | |? ? ? row ? ? Hy Hcomp Hfresh Hnone Hqueued| | | |]; subst.
  destruct Hcomp as [ship totals used Hship Hagg], Hqueued as [env _ _ _].
  eexists _, used, _. split; [done|]. split; [done|]. split; [done|]. split; [done|].
  do 5 (split; [done|]). split; [|done].
  eapply (aggregated_totals []); [|done|apply no_totals_ok|exact Hagg].
  apply Forall_forall. intros r ([k Hk] & _)%year_fuel_elem. by eapply Hq.
Qed.

(** A draft cannot be compiled again: with a report of the ship and year on file,
    whatever its state, every compilation fails and leaves the tables as they were. *)
Theorem recompile_never_succeeds x actor imo year w e :
  report_of (tables (e_state w)) imo year = Some e →
  (∃ err, (CompileAnnualReport service x actor imo year w).2 = Err err) ∧
  tables (e_state (CompileAnnualReport service x actor imo year w).1) = tables (e_state w).
Proof.
  intros He. destruct (compile_refines service x (mkPlane (λ _, []) (λ _, [])) actor imo year w) as [Ht Hok].
  destruct (CompileAnnualReport service x actor imo year w) as [w' [r|err]]; simpl in *.
  - exfalso. specialize (Hok r eq_refl). inversion Hok; congruence.
  - split; [eauto|]. destruct Ht as [Ht|Ht]; [done|]. exfalso. inversion Ht; congruence.
Qed.

(** A per-voyage emissions computation never returns a result: its outbox row is
    refused, since the event type is not among those of the migration. *)
Theorem voyage_emissions_never_succeed x pl actor imo voyage labels w :
  (∃ err, (VoyageEmissions service x pl actor imo voyage labels w).2 = Err err) ∧
  tables (e_state (VoyageEmissions service x pl actor imo voyage labels w).1) = tables (e_state w).
Proof.
  destruct (voyage_emissions_refines service x pl actor imo voyage labels w) as [[Ht|[]] Hok].
  split; [|done]. destruct (VoyageEmissions service x pl actor imo voyage labels w) as [w' [r|err]]; simpl in *; [|eauto].
  destruct (Hok r eq_refl).
Qed.
End intake.

(** ** A year of one ship *)

Module Sample.
#[export] Instance math : Math := Validate.small_angle_math.
#[export] Instance pow : MathPow := {| math_Pow := λ _ _, f_lit 1 100; uint64_overflow := λ _, 0 |}.
#[export] Instance world : MrvWorld := {|
  marshal := λ _, "{}"; canonicalize := λ s, Some s; json_Valid := λ _, true; uuid_Valid := λ _, true;
  fuel_order := λ a b, PeriodFrom a ≤ PeriodFrom b; fuel_order_dec := λ a b, decide (PeriodFrom a ≤ PeriodFrom b) |}.

Definition table : list FactorRow := [hfo; lng].
Definition service : Service :=
  mkService (mkSigner (λ _, Some "jws") (λ _, Some "jws")) (mkProvenance "svc-mrv" "producer" "" "")
    (Some sample_config) (mkDeadlines "03-31" "05-31" "06-30") DefaultActivityParams 100 5000 table.

Definition at_ (n : Z) (id ev : string) : draw := mkDraw (n * second) (n * second) id "c" ev "b" "e".
Definition nothing : plane := mkPlane (λ _, []) (λ _, []).
Definition ship : Ship := mkShip "9074729" "657000001" "MV Niger" 30000 (Some 50000) "TANKER" "NG" true false "" 0.
Definition report : FuelReport :=
  mkFuelReport "" "" "" (time_Date 2026 2 1) (time_Date 2026 3 1) "MAIN_ENGINE" "HFO_RME-RMK" "A" 1000000
    (Some 80000000) (Some 40000) "BDN-1" "" "" "" 0.

(** Plan, confirm, report, compile and submit by the operator, verify and issue. *)
Definition year_ops : list (draw * plane * mrv_op) :=
  [(at_ 1 "-" "-", nothing, OpShip "admin" ship);
   (at_ 2 "plan-1" "-", nothing, OpPlan "operator" "9074729" {["MAIN_ENGINE" := "A"]} ["HFO_RME-RMK"]);
   (at_ 3 "-" "-", nothing, OpConfirm "verifier" "plan-1");
   (at_ 4 "fuel-1" "ev-1", nothing, OpFuel "operator" "9074729" "key-1" report);
   (at_ 5 "annual-1" "ev-2", nothing, OpCompile "operator" "9074729" 2026);
   (at_ 6 "-" "ev-3", nothing, OpSubmit "operator" "annual-1");
   (at_ 7 "decision-1" "ev-4", nothing, OpDecide "verifier" "annual-1" "VERIFY" "");
   (at_ 8 "soc-1" "ev-5", nothing, OpSoC "admin" "annual-1")].

Definition year_end : mrv_store := Eval vm_compute in e_state (run_ops service year_ops (mkEnv [] empty_mrv_store)).
Lemma year_end_run : e_state (run_ops service year_ops (mkEnv [] empty_mrv_store)) = year_end.
Proof. vm_compute. reflexivity. Qed.

Example year_end_state :
  (λ r, (State r, rt_CO2TonnesMilli (Totals r), AttainedCiiNano r, CiiRating r)) <$> (mrv_annual_reports (tables year_end) !! "annual-1")
    = Some (Verified, 3114000, Some 778500000, Some "A") ∧
  (soc_ReportID <$> mrv_statements_of_compliance (tables year_end) !! "soc-1") = Some "annual-1" ∧
  size (mrv_outbox (tables year_end)) = 5%nat.
Proof. vm_compute. auto. Qed.
End Sample.
#[local] Existing Instance Sample.math.
#[local] Existing Instance Sample.pow.
#[local] Existing Instance Sample.world.

Lemma fuel_replay_answered_from_store_witness :
  let stored := at_db (filed "fuel-1" "9074729" "key-1" "operator"
    (match digestEvidence "" with Ok d => d | Err _ => "" end) (4 * second) Sample.report) in
  (SubmitFuelReport Sample.service (Sample.at_ 9 "fuel-2" "ev-9") "operator" "9074729" "key-1" Sample.report
     (mkEnv [] Sample.year_end)).2 = Ok (replayed_as "9074729" stored, true).
Proof.
  cbv zeta.
  destruct (mrv_ships (tables Sample.year_end) !! "9074729") as [ship|] eqn:Hs; [|vm_compute in Hs; discriminate Hs].
  pose proof (fuel_replay_answered_from_store Sample.service (Sample.at_ 9 "fuel-2" "ev-9") "operator" "9074729" "9074729" "key-1"
    "fuel-1" "operator" (match digestEvidence "" with Ok d => d | Err _ => "" end) (4 * second) Sample.report Sample.year_end ship hfo
    (match digestEvidence "" with Ok d => d | Err _ => "" end)) as Hw.
  apply Hw; [vm_compute; reflexivity|vm_compute; reflexivity|vm_compute; reflexivity|vm_compute; reflexivity|exact Hs|..];
    vm_compute; reflexivity.
Defined.

Abbreviation before_compile := (run_ops Sample.service (take 4 Sample.year_ops) (mkEnv [] empty_mrv_store)).

Lemma compile_files_the_year_witness :
  ∃ r used, mrv_annual_reports (tables (e_state (run_op Sample.service (Sample.at_ 5 "annual-1" "ev-2") Sample.nothing
      (OpCompile "operator" "9074729" 2026) before_compile).1)) !! "annual-1" = Some r ∧
    totals_of Sample.service (year_fuel (tables (e_state before_compile)) "9074729" 2026) (Totals r) used ∧
    length (year_fuel (tables (e_state before_compile)) "9074729" 2026) = 1%nat.
Proof.
  destruct (CompileAnnualReport Sample.service (Sample.at_ 5 "annual-1" "ev-2") "operator" "9074729" 2026 before_compile)
    as [w' [r0|e]] eqn:E.
  2: { vm_compute in E. discriminate E. }
  pose proof (compile_files_the_year Sample.service (Sample.at_ 5 "annual-1" "ev-2") "operator" "9074729" 2026 before_compile w' r0) as Hw.
  destruct Hw as (r & used & o & Ha & _ & _ & _ & _ & _ & _ & _ & _ & Ht & _); [| |exact E|].
  - intros k r Hk.
    assert (map_Forall (λ _ r, 0 ≤ FuelTonnesMilli r) (mrv_fuel_reports (tables (e_state before_compile)))) as Hall
      by (apply (bool_decide_unpack _); vm_compute; exact I).
    exact (Hall k r Hk).
  - apply (bool_decide_unpack _). vm_compute. exact I.
  - exists r, used. cbn [run_op]. unfold mbind, M_bind. rewrite E. cbn [mret M_ret fst].
    split; [rewrite Ha; apply lookup_insert_eq|]. split; [exact Ht|vm_compute; reflexivity].
Defined.

Lemma recompile_never_succeeds_witness :
  ∃ err, (CompileAnnualReport Sample.service (Sample.at_ 9 "annual-2" "ev-9") "operator" "9074729" 2026
            (mkEnv [] Sample.year_end)).2 = Err err.
Proof.
  destruct (report_of (tables Sample.year_end) "9074729" 2026) as [e|] eqn:E; [|vm_compute in E; discriminate E].
  apply (recompile_never_succeeds Sample.service (Sample.at_ 9 "annual-2" "ev-9") "operator" "9074729" 2026 (mkEnv [] Sample.year_end) e E).
Defined.
