(* ===== verification/MrvApiProps.v ===== *)
(** * MRV over HTTP: properties

    What the requests of [MrvApi] can do to the ledger, and by whom: each request makes
    the step of the abstract workflow that its route stands for, on behalf of a principal
    with a role of the route, or leaves the tables alone. *)
From S2P Require Import Prelude Effects GoTime GoParse GoFloat Classification Sign Auth Http Mrv MrvEstimate MrvRows MrvService MrvSpec MrvWorkflow MrvIntake MrvApi.

Section props.
Context {Hmath : Math} {Hpow : MathPow} {Hworld : MrvWorld} (service : Service).
Context (ToUpper : string → string) (sort_factors : list FactorRow → list FactorRow).

(** The operation of the workflow a request stands for; the reads have none. *)
Definition op_of (p : Auth.Principal) (r : mrv_request) : option mrv_op :=
  let actor := Subject p in
  match r with
  | PostShip (Body b) => Some (OpShip actor (ship_of_request ToUpper b))
  | PutPlan imo (Body b) => Some (OpPlan actor imo (pq_Methods b) (pq_FuelGrades b))
  | PostConfirm plan => Some (OpConfirm actor plan)
  | PostFuelReport imo key (Body b) => Some (OpFuel actor imo key (fuel_of_request b))
  | PostVoyage imo (Body b) => Some (OpVoyage actor imo (voyage_of_request b))
  | GetEstimate imo from_ to_ =>
      from ← parse_rfc3339 (TrimSpace from_); to ← parse_rfc3339 (TrimSpace to_);
      Some (OpEstimate actor imo from to (clearedLabels (Clearance p)))
  | GetVoyageEmissions imo voyage => Some (OpVoyageEmissions actor imo voyage (clearedLabels (Clearance p)))
  | PostCompile imo year => year ← Atoi year; Some (OpCompile actor imo year)
  | PostSubmit report => Some (OpSubmit actor report)
  | PostDecision report (Body b) => Some (OpDecide actor report (dq_Decision b) (dq_Reason b))
  | PostSoC report => Some (OpSoC actor report)
  | _ => None
  end.
Definition request_step (s : mrv_surroundings) (p : Auth.Principal) (r : mrv_request) (d d' : mrv_db) : Prop :=
  match op_of p r with Some op => mrv_step service (su_draw s) (su_plane s) op d d' | None => d' = d end.

Abbreviation ledger w := (tables (ma_store (e_state w))).
(** A handler leaves the tables or makes a step, and makes it when it answers below 300. *)
Definition serves (step : mrv_db → mrv_db → Prop) (m : M mrv_api workflow_error (answer mrv_body)) : Prop :=
  ∀ w, (ledger (m w).1 = ledger w ∨ step (ledger w) (ledger (m w).1)) ∧
       (∀ a, (m w).2 = Ok a → an_status a < 300 → step (ledger w) (ledger (m w).1)).
(** What follows the call does not write. *)
Definition quiet {A} (m : M mrv_api workflow_error A) : Prop := ∀ w, ma_store (e_state (m w).1) = ma_store (e_state w).

Lemma mrv_serves_refusal step a : 300 ≤ an_status a → serves step (mret a).
Proof. intros Ha w. split; [by left|]. intros a' [= <-] ?. lia. Qed.
Lemma serves_answering {A} step (m : M mrv_store workflow_error A) failed next :
  refines step m → (∀ e, 300 ≤ an_status (failed e)) → (∀ a, quiet (next a)) → serves step (answering (on_service m) failed next).
Proof.
  intros Hm Hf Hn w. specialize (Hm (mkEnv (e_faults w) (ma_store (e_state w)))). revert Hm.
  unfold answering, attempt, on_service, zoom, mbind, M_bind. destruct (m _) as [w1 [a|e]]; cbn [fst snd]; intros [H1 H2].
  - set (w2 := mkEnv (e_faults w1) _). specialize (Hn a w2). destruct (next a w2) as [w3 r3]. cbn in Hn |- *. rewrite Hn.
    split; [exact H1|]. intros _ _ _. by apply (H2 a).
  - split; [exact H1|]. intros a [= <-] ?. specialize (Hf e). lia.
Qed.
Lemma quiet_ret {A} (a : A) : quiet (mret a).
Proof. done. Qed.
Lemma quiet_count {A} name label (m : M mrv_api workflow_error A) : quiet m → quiet (_ ← mrv_count name label; m).
Proof. intros Hm w. unfold mbind, M_bind, mrv_count, modify. cbn [fst snd]. rewrite Hm. done. Qed.

(** ** Reads *)

(** A call that writes nothing, whatever its outcome. *)
Definition still {A} (m : M mrv_store workflow_error A) : Prop := ∀ w, tables (e_state (m w).1) = tables (e_state w).
Lemma still_refines {A} (m : M mrv_store workflow_error A) : still m ↔ refines (λ d d', d' = d) m.
Proof.
  split.
  - intros Hm w. split; [by left|]. intros _ _. apply Hm.
  - intros Hm w. by destruct (Hm w) as [[?|?] _].
Qed.
Lemma still_ret {A} (a : A) : still (mret a).
Proof. done. Qed.
Lemma still_fail {A} e : still (fail e : M mrv_store workflow_error A).
Proof. done. Qed.
Lemma still_attempt {A} (m : M mrv_store workflow_error A) : still m → still (attempt m).
Proof. intros Hm w. specialize (Hm w). unfold attempt. by destruct (m w). Qed.
Lemma still_bind {A B} (m : M mrv_store workflow_error A) (f : A → M mrv_store workflow_error B) :
  still m → (∀ a, still (f a)) → still (m ≫= f).
Proof.
  intros Hm Hf w. specialize (Hm w). unfold mbind, M_bind. destruct (m w) as [w1 [a|e]]; [|done]. by rewrite (Hf a w1).
Qed.
Lemma still_withActor {A} actor (m : M mrv_store workflow_error A) :
  (∀ w w' a, m w = (w', Ok a) → e_state w' = e_state w) → still (withActor actor m).
Proof. intros Hm. apply still_refines, withActor_refines. intros w w' a E. by rewrite (Hm _ _ _ E). Qed.
Lemma still_select {A} actor (f : mrv_db → A) : still (withActor actor (select f)).
Proof. apply still_withActor. by intros w w' a [? _]%mrv_select_Ok. Qed.
Lemma still_select_row {A} actor (f : mrv_db → option A) e : still (withActor actor (select_row f e)).
Proof. apply still_withActor. by intros w w' a [? _]%mrv_select_row_Ok. Qed.
Lemma still_voyage_emissions x pl actor imo voyage labels : still (VoyageEmissions service x pl actor imo voyage labels).
Proof. intros w. by destruct (voyage_emissions_refines service x pl actor imo voyage labels w) as [[?|[]] _]. Qed.
Create HintDb still.
Hint Resolve still_ret still_fail still_attempt still_bind still_select still_select_row still_voyage_emissions : still.

Lemma still_summarize pl actor imo labels overlapping l xs s :
  still (summarize service pl actor imo labels overlapping l xs s).
Proof.
  revert s. induction l as [|v l IH]; intros s; cbn [summarize]; [apply still_ret|].
  case_bool_decide; [apply IH|]. apply still_bind; [auto with still|]. intros [c|e]; [apply IH|].
  destruct e; auto with still.
Qed.
Lemma still_summary xs pl actor imo from to labels : still (VoyageEmissionsSummaryForShip service xs pl actor imo from to labels).
Proof.
  unfold VoyageEmissionsSummaryForShip. destruct (negb _); [apply still_fail|].
  apply still_bind; [|intros voyages; apply still_bind; [auto with still|intros incomplete; apply still_summarize]].
  apply still_withActor. intros w w' a (w1 & r & [E1 _]%mrv_select_row_Ok & [E2 _]%mrv_select_Ok)%M_bind_Ok. by rewrite E2, E1.
Qed.

(** ** Each request makes its step *)

Abbreviation handler := (mrv_dispatch service ToUpper sort_factors).
Lemma guarded_serves step p next :
  serves step (next p) → serves step (principalOrFail (Some p) (λ r, mret (mrv_refuse r)) next).
Proof.
  intros Hn. unfold principalOrFail. destruct (PrincipalFrom _) as [q|] eqn:E; [|by apply mrv_serves_refusal].
  by apply PrincipalFrom_id in E as ->.
Qed.
Ltac answered := apply serves_answering; [|intros []; cbn; try done; by match goal with e : mrv_error |- _ => destruct e end|by intros ?; repeat apply quiet_count; apply quiet_ret].

Lemma fuel_serves x pl p imo key b :
  serves (mrv_step service x pl (OpFuel (Subject p) imo key (fuel_of_request b)))
    (submitFuelReport service x (Some p) imo key (Body b)).
Proof.
  unfold submitFuelReport. apply guarded_serves. cbn [with_json]. intros w.
  pose proof (fuel_refines service x pl (Subject p) imo key (fuel_of_request b) (mkEnv (e_faults w) (ma_store (e_state w)))) as [H1 H2].
  revert H1 H2. unfold attempt, on_service, zoom, mbind, M_bind, metricFuelReport, mrv_count, modify.
  destruct (SubmitFuelReport _ _ _ _ _ _ _) as [w1 [[stored replayed]|e]]; cbn; intros H1 H2.
  - split; [done|]. eauto.
  - split; [done|]. intros a [= <-]. destruct e; try done. by destruct e.
Qed.

Lemma mrv_dispatch_serves s p r : serves (request_step s p r) (handler s r (Some p)).
Proof.
  unfold request_step. destruct r; cbn [op_of mrv_dispatch]; try (destruct body; [by apply guarded_serves, mrv_serves_refusal..|]).
  - apply guarded_serves. answered. apply ship_refines.
  - apply guarded_serves. answered. apply plan_refines.
  - apply guarded_serves. answered. apply confirm_refines.
  - apply fuel_serves.
  - apply guarded_serves. answered. apply voyage_refines.
  - apply guarded_serves. unfold with_period.
    destruct (parse_rfc3339 (TrimSpace from_)), (parse_rfc3339 (TrimSpace to_)); [|by apply mrv_serves_refusal..].
    answered. apply estimate_refines.
  - apply guarded_serves. answered. intros w.
    destruct (voyage_emissions_refines service (su_draw s) (su_plane s) (Subject p) imo voyage (clearedLabels (Clearance p)) w) as [[Ht|[]] Hn].
    split; [by left|]. by intros a Ha%Hn.
  - apply guarded_serves. unfold with_period.
    destruct (parse_rfc3339 (TrimSpace from_)), (parse_rfc3339 (TrimSpace to_)); [|by apply mrv_serves_refusal..].
    answered. apply still_refines, still_summary.
  - apply guarded_serves. cbn. destruct (Atoi year); [|by apply mrv_serves_refusal]. answered. apply compile_refines.
  - apply guarded_serves. answered. apply submit_refines.
  - apply guarded_serves. answered. apply decide_refines.
  - apply guarded_serves. answered. apply soc_refines.
  - apply guarded_serves. destruct (Atoi year); [|by apply mrv_serves_refusal]. answered. apply still_refines.
    destruct (_ || _); [|apply still_select_row]. by apply still_withActor.
  - apply guarded_serves. answered. apply still_refines, still_select_row.
  - apply guarded_serves. answered. apply still_refines, still_select.
  - by intros w; split; [left|].
Qed.

(** ** Runs: requests, and the publisher's ticks between them *)

Inductive mrv_event :=
| HttpRequest (outcome : result auth_error Auth.Principal) (s : mrv_surroundings) (r : mrv_request)
| OutboxTick (x : draw) (batch : nat).
Definition react (ev : mrv_event) (w : env mrv_api) : env mrv_api :=
  match ev with
  | HttpRequest outcome s r =>
      match mrv_handler service ToUpper sort_factors outcome s r with Served m => (m w).1 | _ => w end
  | OutboxTick x batch => (on_service (Drain service (tx_now x) batch) w).1
  end.
Definition mrv_serve (evs : list mrv_event) (w : env mrv_api) : env mrv_api := fold_left (λ w ev, react ev w) evs w.
Definition fresh_api (faults : list fault) : env mrv_api := mkEnv faults (mkMrvApi empty_mrv_store []).

(** [p] sent [r] and holds a role of its route. *)
Definition asked (evs : list mrv_event) (p : Auth.Principal) (r : mrv_request) : Prop :=
  (∃ s, HttpRequest (Ok p) s r ∈ evs) ∧ existsb (HasRole p) (mrv_roles r) = true.

Lemma tick_serves x pl batch w :
  ledger (on_service (Drain service (tx_now x) batch) w).1 = ledger w ∨
  mrv_step service x pl (OpDrain batch) (ledger w) (ledger (on_service (Drain service (tx_now x) batch) w).1).
Proof.
  destruct (drain_refines service x pl batch (mkEnv (e_faults w) (ma_store (e_state w)))) as [H _].
  unfold on_service, zoom. by destruct (Drain _ _ _ _) as [w1 r].
Qed.
(** One event leaves the tables, or makes the step of a request its principal may send, or
    publishes. *)
Lemma mrv_react_steps ev w :
  ledger (react ev w) = ledger w ∨
  (∃ p s r op, ev = HttpRequest (Ok p) s r ∧ existsb (HasRole p) (mrv_roles r) = true ∧ op_of p r = Some op ∧
     mrv_step service (su_draw s) (su_plane s) op (ledger w) (ledger (react ev w))) ∨
  (∃ x pl batch, mrv_step service x pl (OpDrain batch) (ledger w) (ledger (react ev w))).
Proof.
  destruct ev as [[p|e] s r|x batch]; cbn [react]; [|by left|].
  - unfold mrv_handler, Middleware, RequireRoles. destruct (PrincipalFrom (Some p)) as [q|] eqn:E; [|by left].
    apply PrincipalFrom_id in E as ->. destruct (existsb _ _) eqn:Hr; [|by left].
    destruct (mrv_dispatch_serves s p r w) as [[H|H] _]; [by left|]. unfold request_step in H.
    destruct (op_of p r) as [op|] eqn:Ho; [|by left]. right. left. by exists p, s, r, op.
  - destruct (tick_serves x Sample.nothing batch w) as [H|H]; [by left|]. right. right. by eexists x, _, batch.
Qed.

(** What the rows of the ledger say about who asked for them. *)
Record attributed (evs : list mrv_event) (d : mrv_db) : Prop := mkAttributed {
  at_reports : map_Forall (λ _ r, ∃ p year, asked evs p (PostCompile (ImoNumber r) year) ∧ Atoi year = Some (CalendarYear r) ∧
    Subject p = CompiledBy r) (mrv_annual_reports d);
  at_verifications : map_Forall (λ _ v, ∃ p b, asked evs p (PostDecision (ve_ReportID v) (Body b)) ∧
    parse_decision (dq_Decision b) = Some (ve_Decision v) ∧ Subject p = Verifier v) (mrv_verifications d);
  at_socs : map_Forall (λ _ s, ∃ p, asked evs p (PostSoC (soc_ReportID s)) ∧ Subject p = IssuedBy s) (mrv_statements_of_compliance d);
  at_fuel : map_Forall (λ _ f, ∃ p key b, asked evs p (PostFuelReport (fu_ImoNumber f) key (Body b)) ∧ ExternalRef f = key ∧
    FuelTonnesMilli f = fq_FuelTonnesMilli b ∧ Subject p = ReportedBy f) (mrv_fuel_reports d);
}.
Lemma asked_more evs evs' p r : evs ⊆ evs' → asked evs p r → asked evs' p r.
Proof. intros Hs [[s Hin] Hr]. split; [|done]. exists s. by apply Hs. Qed.
Lemma attributed_more evs evs' d : evs ⊆ evs' → attributed evs d → attributed evs' d.
Proof.
  intros Hs [H1 H2 H3 H4]. pose proof (λ p r, asked_more evs evs' p r Hs) as Ha.
  split; intros k v Hv; [destruct (H1 k v Hv)|destruct (H2 k v Hv)|destruct (H3 k v Hv)|destruct (H4 k v Hv)]; naive_solver.
Qed.
Lemma attributed_empty evs : attributed evs empty_mrv_db.
Proof. split; apply map_Forall_empty. Qed.

(** A replaced report keeps what attributes it. *)
Lemma attributed_report evs k r r' d :
  mrv_annual_reports d !! k = Some r → ImoNumber r' = ImoNumber r → CalendarYear r' = CalendarYear r → CompiledBy r' = CompiledBy r →
  attributed evs d → attributed evs (on_annual (insert k r') d).
Proof.
  intros Hk E1 E2 E3 [H1 H2 H3 H4]. split; cbn; [|done..]. apply map_Forall_insert_2; [|done]. rewrite E1, E2, E3. exact (H1 k r Hk).
Qed.
Lemma report_move_identity actor now r what r' :
  report_move actor now r what r' → ImoNumber r' = ImoNumber r ∧ CalendarYear r' = CalendarYear r ∧ CompiledBy r' = CompiledBy r.
Proof. by intros []. Qed.
Lemma attributed_outbox evs f d : attributed evs d → attributed evs (on_outbox f d).
Proof. intros []. by split. Qed.

Lemma mrv_step_attributed evs x pl p r op d d' :
  asked evs p r → op_of p r = Some op → mrv_step service x pl op d d' → attributed evs d → attributed evs d'.
Proof.
  intros Ha Ho Hstep Hd. pose proof Hd as [H1 H2 H3 H4]. destruct Hstep;
    try (match goal with H : queued _ _ _ _ _ _ _ _ _ _ |- _ => destruct H end; apply attributed_outbox);
    try (by split; [exact H1|exact H2|exact H3|exact H4]);
    destruct r; try (destruct body); cbn in Ho; try discriminate Ho; simplify_option_eq.
  - split; cbn; [done..|]. apply map_Forall_insert_2; [|done]. exists p, key, b.
    match goal with H : fuel_entered _ _ _ _ _ pg_time _ stored |- _ =>
      rewrite (fe_imo _ _ _ _ _ _ _ _ H), (fe_key _ _ _ _ _ _ _ _ H), (fe_tonnes _ _ _ _ _ _ _ _ H), (fe_by _ _ _ _ _ _ _ _ H) end.
    by split_and!.
  - split; cbn; [|done..]. apply map_Forall_insert_2; [|done].
    match goal with H : compiles _ _ _ _ _ _ _ |- _ => destruct H end. by eexists p, _.
  - match goal with H : report_move _ _ _ _ _ |- _ => apply report_move_identity in H as (? & ? & ?) end.
    by eapply attributed_report.
  - match goal with H : report_move _ _ _ _ _ |- _ => apply report_move_identity in H as (? & ? & ?) end.
    edestruct (attributed_report evs) as [G1 G2 G3 G4]; [done..|]. split; cbn; [done| |done..].
    apply map_Forall_insert_2; [|done]. by eexists p, _.
  - split; cbn; [done..| |done]. apply map_Forall_insert_2; [|done]. by exists p.
Qed.
Lemma drain_attributed evs x pl batch d d' : mrv_step service x pl (OpDrain batch) d d' → attributed evs d → attributed evs d'.
Proof. intros Hs. inversion Hs; subst. apply attributed_outbox. Qed.

Lemma react_wf ev w : wf (ledger w) → wf (ledger (react ev w)).
Proof.
  intros Hw. destruct (mrv_react_steps ev w) as [->|[(p & s & r & op & _ & _ & _ & H)|(x & pl & batch & H)]]; [done|..]; by eapply step_wf.
Qed.
Lemma react_attributed ev evs w : ev ∈ evs → attributed evs (ledger w) → attributed evs (ledger (react ev w)).
Proof.
  intros Hin Hw. destruct (mrv_react_steps ev w) as [->|[(p & s & r & op & -> & Hr & Ho & H)|(x & pl & batch & H)]]; [done|..].
  - eapply mrv_step_attributed; [|done..]. split; [by exists s|done].
  - by eapply drain_attributed.
Qed.
Lemma mrv_serve_invariant all evs w :
  evs ⊆ all → wf (ledger w) → attributed all (ledger w) → wf (ledger (mrv_serve evs w)) ∧ attributed all (ledger (mrv_serve evs w)).
Proof.
  revert w. induction evs as [|ev evs IH]; intros w Hs Hw Ha; [done|]. change (mrv_serve (ev :: evs) w) with (mrv_serve evs (react ev w)).
  apply IH; [set_solver|by apply react_wf|apply react_attributed; [set_solver|done]].
Qed.
Lemma asked_role evs p r role : asked evs p r → mrv_roles r = [role] → HasRole p role = true.
Proof. intros [_ Hr] E. rewrite E in Hr. cbn in Hr. by rewrite orb_false_r in Hr. Qed.

(** C6: A statement of compliance takes three roles and two people, over HTTP: after any
    sequence of requests and publisher ticks on an empty ledger, under any faults, each
    statement was asked for by a principal with the flag administration's role; its report is
    VERIFIED and carries the digest of the stored artifact; a principal with the verifier's
    role sent the VERIFY decision, one with the reporter's role compiled the report of that
    ship and year, and they are different people.  A report has at most one statement, a ship
    at most one report a year. *)
Theorem statements_take_three_roles evs faults :
  let d := ledger (mrv_serve evs (fresh_api faults)) in
  map_Forall (λ _ s, ∃ r a issuer verifier compiler year b,
    mrv_annual_reports d !! soc_ReportID s = Some r ∧ State r = Verified ∧
    mrv_report_artifacts d !! soc_ReportID s = Some a ∧ artifact_sha256 a = soc_artifact_sha256 s ∧
    asked evs issuer (PostSoC (soc_ReportID s)) ∧ HasRole issuer RoleFlagAdmin = true ∧ Subject issuer = IssuedBy s ∧
    asked evs verifier (PostDecision (soc_ReportID s) (Body b)) ∧ HasRole verifier RoleVerifier = true ∧
    parse_decision (dq_Decision b) = Some DecisionVerify ∧
    asked evs compiler (PostCompile (ImoNumber r) year) ∧ HasRole compiler RoleReporter = true ∧
    Atoi year = Some (CalendarYear r) ∧ Subject compiler = CompiledBy r ∧ Subject verifier ≠ Subject compiler)
    (mrv_statements_of_compliance d) ∧
  (∀ k1 k2 s1 s2, mrv_statements_of_compliance d !! k1 = Some s1 → mrv_statements_of_compliance d !! k2 = Some s2 →
     soc_ReportID s1 = soc_ReportID s2 → k1 = k2) ∧
  (∀ k1 k2 r1 r2, mrv_annual_reports d !! k1 = Some r1 → mrv_annual_reports d !! k2 = Some r2 →
     ImoNumber r1 = ImoNumber r2 → CalendarYear r1 = CalendarYear r2 → k1 = k2).
Proof.
  intros d. destruct (mrv_serve_invariant evs evs (fresh_api faults)) as [Hwf [Hr Hv Hs _]];
    [done|apply wf_empty|apply attributed_empty|]. fold d in Hwf, Hr, Hv, Hs.
  split_and!; [|apply (wf_one_soc d Hwf)|apply (wf_unique d Hwf)]. intros k s Hk.
  destruct (wf_soc_independent d k s Hwf Hk) as (r & v & a & Er & Est & (kv & ve & Hve & Eve & Hdec & <-) & Hne & _ & Ea & Esum).
  destruct (Hs k s Hk) as (issuer & Hi & Ei). destruct (Hv _ _ Hve) as (verifier & b & Hvf & Hb & Evf).
  destruct (Hr _ _ Er) as (compiler & year & Hc & Hy & Ec). rewrite Hdec in Hb. rewrite Eve in Hvf.
  exists r, a, issuer, verifier, compiler, year, b. split_and!; try done; [by eapply asked_role..|]. by rewrite Evf, Ec.
Qed.
End props.

(** ** The year of one ship, over HTTP *)

Module HttpSample.
#[local] Existing Instance Sample.math.
#[local] Existing Instance Sample.pow.
#[local] Existing Instance Sample.world.
Definition person (subject role : string) : Auth.Principal := mkPrincipal subject {[role]} "RESTRICTED" "".
Definition admin := person "admin" RoleFlagAdmin.
Definition operator := person "operator" RoleReporter.
Definition verifier := person "verifier" RoleVerifier.
Definition around (n : Z) (id ev : string) : mrv_surroundings :=
  mkSurroundings (Sample.at_ n id ev) (λ _, Sample.at_ n id ev) Sample.nothing (n * second).
Definition year_requests : list mrv_event :=
  [HttpRequest (Ok admin) (around 1 "-" "-")
     (PostShip (Body (mkShipRequest "9074729" "657000001" "MV Niger" 30000 (Some 50000) "TANKER" "NG" true)));
   HttpRequest (Ok operator) (around 2 "plan-1" "-") (PutPlan "9074729" (Body (mkPlanRequest {["MAIN_ENGINE" := "A"]} ["HFO_RME-RMK"])));
   HttpRequest (Ok verifier) (around 3 "-" "-") (PostConfirm "plan-1");
   HttpRequest (Ok operator) (around 4 "fuel-1" "ev-1") (PostFuelReport "9074729" "key-1"
     (Body (mkFuelRequest (time_Date 2026 2 1) (time_Date 2026 3 1) "MAIN_ENGINE" "HFO_RME-RMK" "A" 1000000 (Some 80000000) (Some 40000) "BDN-1" "")));
   HttpRequest (Ok operator) (around 5 "annual-1" "ev-2") (PostCompile "9074729" "2026");
   HttpRequest (Ok operator) (around 6 "-" "ev-3") (PostSubmit "annual-1");
   OutboxTick (Sample.at_ 7 "-" "-") 2;
   (* refused: the operator does not hold the role *)
   HttpRequest (Ok operator) (around 8 "decision-0" "ev-0") (PostDecision "annual-1" (Body (mkDecisionRequest "VERIFY" "")));
   HttpRequest (Ok verifier) (around 9 "decision-1" "ev-4") (PostDecision "annual-1" (Body (mkDecisionRequest "VERIFY" "")));
   HttpRequest (Ok admin) (around 10 "soc-1" "ev-5") (PostSoC "annual-1")].
Definition served : env mrv_api := mrv_serve Sample.service (λ s, s) (λ l, l) year_requests (fresh_api []).
Example year_over_http :
  (soc_ReportID <$> mrv_statements_of_compliance (tables (ma_store (e_state served))) !! "soc-1") = Some "annual-1" ∧
  (Verifier <$> mrv_verifications (tables (ma_store (e_state served))) !! "decision-1") = Some "verifier" ∧
  mrv_verifications (tables (ma_store (e_state served))) !! "decision-0" = None ∧
  ma_counts (e_state served) =
    [("mrv_fuel_reports_total", "accepted"); ("mrv_verification_decisions_total", "verify");
     ("mrv_ais_crosscheck_total", "insufficient_coverage"); ("mrv_soc_issued_total", "")].
Proof. vm_compute. auto. Qed.
End HttpSample.
