(* ===== verification/MrvOutbox.v ===== *)
(** * The transactional outbox delivers at least once

    [internal/mrv/outbox.go] composed with the writing methods: what is on Kafka
    comes from committed outbox rows, a row is marked published only after its
    message was delivered, whatever faults the drains meet, and drains without
    faults empty the outbox. *)
From S2P Require Import Prelude Effects Sha256 GoTime GoFloat Classification Sign Mrv MrvEstimate MrvRows MrvService MrvSpec MrvWorkflow MrvIntake.

(** The message of an outbox row. *)
Definition row_message (kr : string * OutboxRow) : option message :=
  c ← eventContracts !! event_type kr.2;
  Some (mkMessage (topic c) (aggregate_id kr.2) (payload_ kr.2) (event_type kr.2) kr.1).

Lemma row_message_later e o o' : outbox_later o o' → row_message (e, o') = row_message (e, o).
Proof. intros (E1 & E2 & E3 & _). unfold row_message. simpl. by rewrite E1, E2, E3. Qed.

(** What the topics say about the table. *)
Record delivered (s : mrv_store) : Prop := mkDelivered {
  dl_published : ∀ e o, mrv_outbox (tables s) !! e = Some o → published_at o ≠ None →
    ∃ m, row_message (e, o) = Some m ∧ m ∈ kafka s;
  dl_committed : ∀ m, m ∈ kafka s → ∃ o, mrv_outbox (tables s) !! msg_eventId m = Some o ∧ row_message (msg_eventId m, o) = Some m;
}.

(** ** The writing methods leave Kafka alone *)

Definition on_kafka (k : list message) (s : mrv_store) : Prop := kafka s = k.
Section quiet.
Context (k : list message).
Abbreviation quiet m := (keeps (on_kafka k) m).

Lemma quiet_statement {A} (f : mrv_store → mrv_store * A) : (∀ s, kafka (f s).1 = kafka s) → quiet (statement f).
Proof.
  intros Hf. unfold statement. apply keeps_bind; [apply keeps_gets|]. intros b. destruct b; [apply keeps_fail|].
  apply keeps_bind; [apply keeps_attempt, keeps_external; intros s Hs; unfold on_kafka in *; by rewrite Hf|].
  intros [a|e]; [apply keeps_ret|]. unfold refuse. apply keeps_bind; [by apply keeps_modify|]. intros _. apply keeps_fail.
Qed.
Lemma quiet_select {A} (f : mrv_db → A) : quiet (select f).
Proof. by apply quiet_statement. Qed.
Lemma quiet_select_row {A} (f : mrv_db → option A) e : quiet (select_row f e).
Proof. apply keeps_bind; [apply quiet_select|]. intros [a|]; [apply keeps_ret|apply keeps_fail]. Qed.
Lemma quiet_exec f : quiet (exec f).
Proof. by apply quiet_statement. Qed.
Lemma quiet_exec_unless r f : quiet (exec_unless r f).
Proof.
  apply keeps_bind; [apply keeps_gets|]. intros b. destruct b; [apply keeps_fail|].
  apply keeps_bind; [apply keeps_gets|]. intros [e|]; [|apply quiet_exec].
  unfold refuse. apply keeps_bind; [by apply keeps_modify|]. intros _. apply keeps_fail.
Qed.
Lemma quiet_lift {A} (r : result workflow_error A) : quiet (lift r).
Proof. destruct r; [apply keeps_ret|apply keeps_fail]. Qed.
Lemma quiet_lift_mrv {A} (r : result mrv_error A) : quiet (lift_mrv r).
Proof. destruct r; [apply keeps_ret|apply keeps_fail]. Qed.
Lemma quiet_lift_estimate {A} (r : result activity_error A) : quiet (lift_estimate r).
Proof. destruct r; [apply keeps_ret|apply keeps_fail]. Qed.
Lemma quiet_withActor {A} actor (fn : IO A) : quiet fn → quiet (withActor actor fn).
Proof.
  intros Hf. unfold withActor. destruct (blank actor); [apply keeps_fail|].
  apply keeps_transaction_body; [|done].
  apply keeps_bind; [by apply keeps_modify|]. intros _. apply keeps_bind; [by apply quiet_statement|]. intros _.
  apply keeps_bind; [done|]. intros a. apply keeps_bind; [apply keeps_gets|]. intros [|]; [apply keeps_fail|apply keeps_ret].
Qed.
End quiet.
#[export] Hint Resolve quiet_select quiet_select_row quiet_exec quiet_exec_unless quiet_lift quiet_lift_mrv
  quiet_lift_estimate quiet_withActor : effects.

Ltac quiet_tac :=
  repeat first
    [ apply quiet_withActor | apply keeps_ret | apply keeps_fail | apply keeps_gets
    | apply keeps_require | apply quiet_select | apply quiet_select_row | apply quiet_exec | apply quiet_exec_unless
    | apply quiet_lift | apply quiet_lift_mrv | apply quiet_lift_estimate | apply keeps_attempt
    | match goal with
      | |- keeps _ (if ?b then _ else _) => destruct b
      | |- keeps _ (match ?o with Some _ => _ | None => _ end) => destruct o
      | |- keeps _ (match ?r with Ok _ => _ | Err _ => _ end) => destruct r
      | |- keeps _ (let '(_, _) := ?p in _) => destruct p as [[? ?] ?]
      | |- keeps _ (_ ≫= _) => apply keeps_bind; [|intros ?]
      end ].

Section outbox.
Context {Hmath : Math} {Hpow : MathPow} {Hworld : MrvWorld} (service : Service).

Lemma quiet_enqueue k x ty agg corr res at_ ledger : keeps (on_kafka k) (enqueueOutbox service x ty agg corr res at_ ledger).
Proof. unfold enqueueOutbox. quiet_tac. Qed.
Lemma quiet_resolve k g t : keeps (on_kafka k) (resolve_factor service g t).
Proof. unfold resolve_factor. quiet_tac. Qed.
Lemma quiet_allocate k from to rows acc : keeps (on_kafka k) (allocate_fuel service from to rows acc).
Proof.
  revert acc. induction rows as [|r rows IH]; intros acc; simpl; [apply keeps_ret|].
  case_match; [apply IH|]. apply keeps_bind; [apply quiet_resolve|intros f]. apply keeps_bind; [apply quiet_lift_mrv|intros c].
  apply IH.
Qed.
Lemma quiet_aggregate k rows t used : keeps (on_kafka k) (aggregate service rows t used).
Proof.
  revert t used. induction rows as [|r rows IH]; intros t used; simpl; [apply keeps_ret|].
  apply keeps_bind; [apply quiet_resolve|intros f]. apply keeps_bind; [apply quiet_lift_mrv|intros c]. apply IH.
Qed.
Lemma quiet_update k id q : keeps (on_kafka k) (update_report id q).
Proof. apply quiet_exec_unless. Qed.

Lemma quiet_evidence k pl mmsi b e : keeps (on_kafka k) (geofenceEvidenceDigests pl mmsi b e).
Proof. unfold geofenceEvidenceDigests. destruct (evidence_window b e) as [[? ?]|]; quiet_tac. Qed.

Definition drains (op : mrv_op) : bool := match op with OpDrain _ => true | _ => false end.
Lemma quiet_ops k x pl op : drains op = false → keeps (on_kafka k) (run_op service x pl op).
Proof.
  destruct op; intros Hd; try done; cbn [run_op]; (apply keeps_bind; [|intros ?; apply keeps_ret]).
  - unfold RegisterShip, exec_if. quiet_tac.
  - unfold PutMonitoringPlan, exec_if. quiet_tac.
  - unfold ConfirmMonitoringPlan. quiet_tac.
  - unfold SubmitFuelReport, fuel_intake, exec_if. quiet_tac; auto using quiet_resolve, quiet_enqueue.
  - unfold RecordVoyage, exec_if. quiet_tac; try apply quiet_enqueue. apply quiet_evidence.
  - unfold EstimateActivityForShip, activityFixes. quiet_tac; apply quiet_enqueue.
  - unfold VoyageEmissions, activityFixes. quiet_tac; auto using quiet_enqueue, quiet_allocate.
  - unfold CompileAnnualReport, exec_if, enqueueAnnualEvent. quiet_tac; auto using quiet_enqueue, quiet_aggregate.
  - unfold SubmitAnnualReport, lockReport, enqueueAnnualEvent. quiet_tac; auto using quiet_enqueue, quiet_update.
  - unfold RecordDecision, lockReport, aisCrosscheck. quiet_tac; auto using quiet_enqueue, quiet_update.
  - unfold IssueSoC, lockReport, exec_if. quiet_tac; auto using quiet_enqueue.
Qed.

(** ** One drain, on every outcome *)

(** The messages a run of the publishing loop added. *)
Lemma publish_row_run t kr w :
  let out := publish_row t kr w in
  ∃ new, kafka (e_state out.1) = kafka (e_state w) ++ new ∧ (∀ m, m ∈ new → row_message kr = Some m) ∧
    (∀ u, out.2 = Ok u → ∃ m, row_message kr = Some m ∧ m ∈ new).
Proof.
  unfold publish_row, row_message. destruct (eventContracts !! event_type kr.2) as [c|]; simpl.
  2: { exists []. rewrite app_nil_r. split_and!; [done|by intros ? []%not_elem_of_nil|done]. }
  set (m := mkMessage _ _ _ _ _).
  rewrite attempt_bind. unfold external.
  assert (∀ w1 : env mrv_store, kafka (e_state w1) = kafka (e_state w) ++ [m] →
    kafka (e_state ((exec (on_outbox (alter (set_published t) kr.1)) ≫= λ _, modify count_ok) w1).1) = kafka (e_state w) ++ [m]) as Hex.
  { intros w1 Hw1. apply (keeps_bind (on_kafka (kafka (e_state w) ++ [m]))); [apply quiet_exec| |done].
    intros _. by apply keeps_modify. }
  assert ((∀ m', m' ∈ [m] → Some m = Some m')) as Hone by (by intros m' ->%list_elem_of_singleton).
  destruct (e_faults w) as [|[] fs]; simpl.
  - exists [m]. split_and!; [by apply Hex|done|]. intros u _. exists m. split; [done|left].
  - exists [m]. split_and!; [by apply Hex|done|]. intros u _. exists m. split; [done|left].
  - exists []. rewrite app_nil_r. split_and!; [done|by intros ? []%not_elem_of_nil|done].
  - exists [m]. split_and!; [done|done|done].
Qed.

Lemma publish_each_run t batch w :
  let out := each (publish_row t) batch w in
  ∃ new, kafka (e_state out.1) = kafka (e_state w) ++ new ∧
    (∀ m, m ∈ new → ∃ kr, kr ∈ batch ∧ row_message kr = Some m) ∧
    (∀ u, out.2 = Ok u → ∀ kr, kr ∈ batch → ∃ m, row_message kr = Some m ∧ m ∈ new).
Proof.
  revert w. induction batch as [|kr batch IH]; intros w; simpl.
  { exists []. rewrite app_nil_r. split_and!; [done|by intros ? []%not_elem_of_nil|by intros ? _ ? []%not_elem_of_nil]. }
  destruct (publish_row_run t kr w) as (n1 & E1 & Hn1 & Hok1).
  unfold mbind, M_bind. destruct (publish_row t kr w) as [w1 [u1|e1]]; simpl in *.
  - destruct (IH w1) as (n2 & E2 & Hn2 & Hok2). exists (n1 ++ n2). rewrite E2, E1, app_assoc. split_and!; [done| |].
    + intros m [Hm|Hm]%elem_of_app.
      * exists kr. split; [left|auto].
      * destruct (Hn2 m Hm) as (kr' & ? & ?). exists kr'. split; [by right|done].
    + intros u Hu kr' [->|Hkr]%elem_of_cons.
      * destruct (Hok1 u1 eq_refl) as (m & ? & ?). exists m. split; [done|]. apply elem_of_app. by left.
      * destruct (Hok2 u Hu kr' Hkr) as (m & ? & ?). exists m. split; [done|]. apply elem_of_app. by right.
  - exists n1. split_and!; [done| |done]. intros m Hm. exists kr. split; [left|auto].
Qed.

Lemma pending_rows_elem d batch e o :
  (e, o) ∈ pending_rows d batch → mrv_outbox d !! e = Some o ∧ published_at o = None.
Proof.
  unfold pending_rows. intros Hin. assert (∀ l, (e, o) ∈ take batch l → (e, o) ∈ l) as Hsub.
  { intros l Hl. rewrite <- (take_drop batch l). apply elem_of_app. by left. }
  apply Hsub in Hin as Hi. unfold oldest_first in Hi.
  rewrite merge_sort_Permutation, list_elem_of_filter, elem_of_map_to_list in Hi. naive_solver.
Qed.

(** The rows that become published by a fold of updates are those of the batch. *)
Lemma published_batch_new t (l : list (string * OutboxRow)) (m : gmap string OutboxRow) e o :
  fold_left (λ m (kr : string * OutboxRow), alter (set_published t) kr.1 m) l m !! e = Some o →
  m !! e = Some o ∨ e ∈ l.*1.
Proof.
  revert m. induction l as [|[k o1] l IH]; intros m; simpl; [by left|].
  intros [Ho|Hin]%IH; [|right; by right]. destruct (decide (e = k)) as [->|]; [right; left|].
  rewrite lookup_alter_ne in Ho by done. by left.
Qed.

Lemma drain_delivers x pl batch w :
  delivered (e_state w) → delivered (e_state (run_op service x pl (OpDrain batch) w).1).
Proof.
  intros [Hp Hc]. cbn [run_op]. unfold Drain.
  match goal with |- context [withActor ?a ?f w] => set (fn := f); destruct (withActor_run a fn w)
    as [(H1 & H2 & _)|(w1 & w2 & r & H1 & Hfn & Hk & Hout)] end.
  { split; rewrite ?H1, ?H2; [exact Hp|exact Hc]. }
  assert (∃ new, kafka (e_state w2) = kafka (e_state w) ++ new ∧
    (∀ m, m ∈ new → ∃ kr, kr ∈ pending_rows (tables (e_state w)) batch ∧ row_message kr = Some m) ∧
    (∀ u, r = Ok u → (∀ kr, kr ∈ pending_rows (tables (e_state w)) batch → ∃ m, row_message kr = Some m ∧ m ∈ new) ∧
       tables (e_state w2) = on_outbox (λ m, fold_left (λ m (kr : string * OutboxRow), alter (set_published (tx_now x)) kr.1 m)
                                (pending_rows (tables (e_state w)) batch) m) (tables (e_state w)))) as (new & Ek & Hnew & Hok).
  { unfold fn in Hfn. unfold mbind, M_bind in Hfn.
    destruct (select (λ d, pending_rows d batch) w1) as [w3 [b|e]] eqn:Es.
    - apply mrv_select_Ok in Es as [E3 ->]. rewrite H1 in *. simpl in *.
      destruct (publish_each_run (tx_now x) (pending_rows (tables (e_state w)) batch) w3) as (new & En & Hn & Ho).
      destruct (each (publish_row (tx_now x)) (pending_rows (tables (e_state w)) batch) w3) as [w4 r4] eqn:Ee.
      simplify_eq/=. exists new. rewrite En, E3. split_and!; [done|done|]. intros u ->. split; [by eapply Ho|].
      apply publish_each_Ok in Ee. by rewrite Ee, E3.
    - simplify_eq. exists []. rewrite app_nil_r. split_and!; [|by intros ? []%not_elem_of_nil|done].
      pose proof (quiet_select (kafka (e_state w)) (λ d, pending_rows d batch) w1) as Hq. rewrite Es in Hq. apply Hq.
      unfold on_kafka. by rewrite H1. }
  destruct Hout as [(Ht & _)|(a & -> & Ht & _)].
  - split; rewrite Hk, Ht, Ek.
    + intros e o Ho Hpub. destruct (Hp e o Ho Hpub) as (m & ? & ?). exists m. split; [done|]. apply elem_of_app. by left.
    + intros m [Hm|Hm]%elem_of_app; [by apply Hc|]. destruct (Hnew m Hm) as ([e o] & [Ho _]%pending_rows_elem & Hr).
      assert (msg_eventId m = e) as -> by (unfold row_message in Hr; apply bind_Some in Hr as (c & _ & [= <-]); done). eauto.
  - destruct (Hok a eq_refl) as [Hall Htab].
    assert (carried outbox_later (mrv_outbox (tables (e_state w))) (mrv_outbox (tables (e_state w2)))) as Hlater
      by (rewrite Htab; apply published_batch_later).
    split; rewrite Hk, Ht, Ek.
    + intros e o Ho Hpub. rewrite Htab in Ho. simpl in Ho.
      destruct (published_batch_back _ _ _ _ _ Ho) as (o0 & Ho0 & Hl).
      apply published_batch_new in Ho as [Ho|Hin].
      * destruct (Hp e o Ho Hpub) as (m & ? & ?). exists m. split; [done|]. apply elem_of_app. by left.
      * apply list_elem_of_fmap in Hin as ([e' o'] & -> & Hin). pose proof (pending_rows_elem _ _ _ _ Hin) as [Ho' _].
        simpl in *. simplify_eq. destruct (Hall _ Hin) as (m & Hm & ?). exists m. rewrite (row_message_later _ _ _ Hl).
        split; [done|]. apply elem_of_app. by right.
    + intros m Hm.
      assert (∃ e o, mrv_outbox (tables (e_state w)) !! e = Some o ∧ row_message (e, o) = Some m) as (e & o & Ho & Hr).
      { apply elem_of_app in Hm as [Hm|Hm]; [destruct (Hc m Hm); eauto|].
        destruct (Hnew m Hm) as ([e o] & [Ho _]%pending_rows_elem & Hr). eauto. }
      assert (msg_eventId m = e) as -> by (unfold row_message in Hr; apply bind_Some in Hr as (c & _ & [= <-]); done).
      destruct (Hlater e o Ho) as (o' & Ho' & Hl). exists o'. by rewrite (row_message_later _ _ _ Hl).
Qed.

(** ** Every operation keeps the relation *)

Lemma step_publishes_nothing x pl op d d' e o :
  drains op = false → mrv_step service x pl op d d' → mrv_outbox d' !! e = Some o → published_at o ≠ None →
  mrv_outbox d !! e = Some o.
Proof.
  intros Hd Hstep. destruct Hstep; try done;
    try match goal with H : queued _ _ _ _ _ _ _ _ _ _ |- _ => destruct H end; simpl; try done;
    (intros [[<- <-]|[_ Ho]]%lookup_insert_Some Hp; [by destruct Hp|done]).
Qed.

Lemma write_delivers x pl op w :
  drains op = false → wf (tables (e_state w)) → delivered (e_state w) → delivered (e_state (run_op service x pl op w).1).
Proof.
  intros Hd Hwf [Hp Hc].
  pose proof (quiet_ops (kafka (e_state w)) x pl op Hd w eq_refl) as Hk. unfold on_kafka in Hk.
  destruct (mrv_run_op_refines service x pl op w) as [[Ht|Hs] _]; split; rewrite Hk, ?Ht; try done.
  - intros e o Ho Hpub. apply Hp; [|done]. by eapply step_publishes_nothing.
  - intros m (o & Ho & Hm)%Hc. destruct (ev_outbox _ _ (step_evolves _ _ _ _ _ _ Hs Hwf) _ _ Ho) as (o' & Ho' & Hl).
    exists o'. by rewrite (row_message_later _ _ _ Hl).
Qed.

Lemma run_ops_delivered ops w :
  wf (tables (e_state w)) → delivered (e_state w) → delivered (e_state (run_ops service ops w)).
Proof.
  revert w. induction ops as [|[[x pl] op] ops IH]; intros w Hwf Hd; [done|].
  change (run_ops service _ w) with (run_ops service ops (run_op service x pl op w).1). apply IH.
  - destruct (mrv_run_op_refines service x pl op w) as [[Ht|Hs] _]; [by rewrite Ht|by eapply step_wf].
  - destruct op; try (by apply write_delivers); by apply drain_delivers.
Qed.

Lemma delivered_run ops faults : delivered (e_state (run_ops service ops (mkEnv faults empty_mrv_store))).
Proof.
  apply run_ops_delivered; [apply wf_empty|]. split; intros *; simpl; [by rewrite lookup_empty|by intros []%not_elem_of_nil].
Qed.

(** C21: The outbox never claims more than it did, and Kafka never sees what was not
    committed: after every run, under any faults of the database and of the broker, a
    row marked published has its message on the topic of its contract, under its
    aggregate and with its signed payload; and every message on a topic is that of a
    committed row, so that a repeated delivery is identical to the first. *)
Theorem outbox_at_least_once ops faults :
  delivered (e_state (run_ops service ops (mkEnv faults empty_mrv_store))).
Proof. apply delivered_run. Qed.

(** ** Drains without faults empty the outbox *)

Definition unpublished (d : mrv_db) : list (string * OutboxRow) :=
  filter (λ kr, published_at kr.2 = None) (map_to_list (mrv_outbox d)).
Definition unpublished_ids (d : mrv_db) : gset string := list_to_set (unpublished d).*1.

Lemma unpublished_nodup d : NoDup (unpublished d).*1.
Proof.
  unfold unpublished. apply NoDup_fmap_fst; [|apply NoDup_filter, NoDup_map_to_list].
  intros e o1 o2 [_ H1%elem_of_map_to_list]%list_elem_of_filter [_ H2%elem_of_map_to_list]%list_elem_of_filter. congruence.
Qed.
Lemma elem_of_unpublished d e : e ∈ unpublished_ids d ↔ ∃ o, mrv_outbox d !! e = Some o ∧ published_at o = None.
Proof.
  unfold unpublished_ids, unpublished. rewrite elem_of_list_to_set, list_elem_of_fmap. split.
  - intros ([e' o] & -> & [Hp Ho%elem_of_map_to_list]%list_elem_of_filter). eauto.
  - intros (o & Ho & Hp). exists (e, o). split; [done|]. apply list_elem_of_filter. by rewrite elem_of_map_to_list.
Qed.
Lemma size_unpublished d : size (unpublished_ids d) = length (unpublished d).
Proof. unfold unpublished_ids. rewrite size_list_to_set by apply unpublished_nodup. by rewrite length_fmap. Qed.

Lemma publish_row_calm t kr s c :
  tx_failed s = false → eventContracts !! event_type kr.2 = Some c →
  ∃ s', publish_row t kr (mkEnv [] s) = (mkEnv [] s', Ok tt) ∧ tx_failed s' = false.
Proof.
  intros Hs Hc. unfold publish_row. rewrite Hc, attempt_bind. cbn [external e_faults e_state fst snd].
  erewrite M_bind_run by (by apply exec_calm). eexists. split; [reflexivity|done].
Qed.
Lemma publish_each_calm t batch s :
  tx_failed s = false → (∀ kr, kr ∈ batch → is_Some (eventContracts !! event_type kr.2)) →
  ∃ s', each (publish_row t) batch (mkEnv [] s) = (mkEnv [] s', Ok tt) ∧ tx_failed s' = false.
Proof.
  revert s. induction batch as [|kr batch IH]; intros s Hs Hc; simpl; [by eexists|].
  destruct (Hc kr ltac:(left)) as [c Hkr]. destruct (publish_row_calm t kr s c Hs Hkr) as (s1 & E1 & Hs1).
  erewrite M_bind_run by exact E1. apply IH; [done|]. intros kr' ?. apply Hc. by right.
Qed.

Lemma Drain_calm t batch s :
  blank (PrincipalID (Principal service)) = false →
  (∀ e o, mrv_outbox (tables s) !! e = Some o → is_Some (eventContracts !! event_type o)) →
  ∃ s', Drain service t batch (mkEnv [] s) = (mkEnv [] s', Ok tt).
Proof.
  intros Hb Hc. destruct (publish_each_calm t (pending_rows (tables s) batch) (set_failed false s)) as (s' & E & Hs'); [done| |].
  { intros [e o] [Ho _]%pending_rows_elem. by eapply Hc. }
  exists s'. unfold Drain. apply withActor_calm_Ok; [done| |done]. by erewrite M_bind_run by (by apply select_calm).
Qed.

Lemma published_batch_marks t (l : list (string * OutboxRow)) (m : gmap string OutboxRow) e o :
  fold_left (λ m (kr : string * OutboxRow), alter (set_published t) kr.1 m) l m !! e = Some o →
  published_at o = None → e ∈ l.*1 → False.
Proof.
  revert m. induction l as [|[k o1] l IH]; intros m Ho Hp; simpl in *; [by intros []%not_elem_of_nil|].
  intros [->|Hin]%elem_of_cons; [|by eapply IH].
  destruct (published_batch_back _ _ _ _ _ Ho) as (o0 & Ho0 & (_ & _ & _ & _ & Hl)).
  rewrite lookup_alter_eq in Ho0. destruct (m !! k); [|done]. simpl in Ho0. simplify_eq. by apply Hl.
Qed.

(** A drain takes its batch off the unpublished rows. *)
Lemma drain_shrinks t batch d :
  let d' := on_outbox (λ m, fold_left (λ m (kr : string * OutboxRow), alter (set_published t) kr.1 m)
                              (pending_rows d batch) m) d in
  (size (unpublished_ids d') ≤ size (unpublished_ids d) - batch)%nat.
Proof.
  intros d'. set (taken := list_to_set (pending_rows d batch).*1 : gset string).
  assert (NoDup (pending_rows d batch).*1) as Hnd.
  { unfold pending_rows. set (l := oldest_first _ _).
    assert (NoDup l.*1) as Hl by (unfold l, oldest_first; rewrite merge_sort_Permutation; apply unpublished_nodup).
    rewrite <- (take_drop batch l), fmap_app in Hl. by apply NoDup_app in Hl as [? _]. }
  assert (size taken = min batch (size (unpublished_ids d))) as Hsz.
  { unfold taken. rewrite size_list_to_set, length_fmap by done. unfold pending_rows.
    rewrite length_take, size_unpublished. unfold oldest_first. by erewrite (Permutation_length (merge_sort_Permutation _ _)). }
  assert (taken ⊆ unpublished_ids d) as Hsub.
  { intros e He. apply elem_of_list_to_set, list_elem_of_fmap in He as ([e' o] & -> & [Ho Hp]%pending_rows_elem).
    apply elem_of_unpublished. eauto. }
  assert (unpublished_ids d' ⊆ unpublished_ids d ∖ taken) as Hin.
  { intros e (o & Ho & Hp)%elem_of_unpublished. simpl in Ho. apply elem_of_difference. split.
    - apply elem_of_unpublished. destruct (published_batch_back _ _ _ _ _ Ho) as (o0 & Ho0 & (_ & _ & _ & _ & Hl)).
      exists o0. split; [done|]. destruct (published_at o0) eqn:E; [|done]. by destruct (Hl ltac:(done)).
    - intros He. apply elem_of_list_to_set in He. by eapply (published_batch_marks t) in Ho. }
  apply subseteq_size in Hin. rewrite size_difference in Hin by done. lia.
Qed.

Lemma announced_contracts d : announced service d →
  ∀ e o, mrv_outbox d !! e = Some o → is_Some (eventContracts !! event_type o).
Proof. intros Ha e o Ho. destruct (an_outbox _ _ Ha e o Ho) as [_ _ (c & Hc & _) _]. eauto. Qed.

Lemma drains_shrink x pl batch n s :
  blank (PrincipalID (Principal service)) = false → wf (tables s) → announced service (tables s) →
  let w' := run_ops service (replicate n (x, pl, OpDrain batch)) (mkEnv [] s) in
  (size (unpublished_ids (tables (e_state w'))) ≤ size (unpublished_ids (tables s)) - n * batch)%nat.
Proof.
  intros Hb. revert s. induction n as [|n IH]; intros s Hwf Ha; cbv zeta; [cbn [replicate]; unfold run_ops; cbn [fold_left e_state]; lia|].
  change (replicate (S n) ?y) with (y :: replicate n y).
  change (run_ops service (?y :: ?l) ?w) with (run_ops service l (run_op service x pl (OpDrain batch) w).1).
  destruct (Drain_calm (tx_now x) batch s Hb (announced_contracts _ Ha)) as (s' & Hd).
  pose proof (drain_refines service x pl batch (mkEnv [] s)) as [_ Hok]. cbn [run_op]. rewrite Hd in *.
  specialize (Hok tt eq_refl). cbn [fst e_state] in *.
  assert (tables s' = on_outbox (λ m, fold_left (λ m (kr : string * OutboxRow), alter (set_published (tx_now x)) kr.1 m)
            (pending_rows (tables s) batch) m) (tables s)) as Et by (by inversion Hok).
  specialize (IH s' (step_wf _ _ _ _ _ _ Hok Hwf) (step_announced _ _ _ _ _ _ Hok Hwf Ha)). cbv zeta in IH.
  pose proof (drain_shrinks (tx_now x) batch (tables s)) as Hsh. cbv zeta in Hsh.
  rewrite <- Et in Hsh. rewrite Nat.mul_succ_l. lia.
Qed.

(** C22: Nothing waits forever: from any state the service can reach, under any earlier
    faults, enough drains without faults (their number times the batch size covers the
    unpublished rows) put the message of every outbox row on its topic, so that every
    committed mutation reaches its consumers once the broker and the database are up. *)
Theorem drains_deliver_everything ops faults x pl batch n :
  blank (PrincipalID (Principal service)) = false →
  let s := e_state (run_ops service ops (mkEnv faults empty_mrv_store)) in
  (length (unpublished (tables s)) ≤ n * batch)%nat →
  let s' := e_state (run_ops service (replicate n (x, pl, OpDrain batch)) (mkEnv [] s)) in
  ∀ e o, mrv_outbox (tables s) !! e = Some o → ∃ m, row_message (e, o) = Some m ∧ m ∈ kafka s'.
Proof.
  intros Hb s Hn s' e o Ho.
  pose proof (run_ops_wf_evolves service ops (mkEnv faults empty_mrv_store) wf_empty) as [Hwf _].
  assert (announced service (tables s)) as Ha by apply announced_run.
  pose proof (drains_shrink x pl batch n s Hb Hwf Ha) as Hsize. cbv zeta in Hsize. fold s' in Hsize.
  rewrite (size_unpublished (tables s)) in Hsize.
  assert (delivered s') as Hd by (apply run_ops_delivered; [done|apply delivered_run]).
  destruct (run_ops_wf_evolves service (replicate n (x, pl, OpDrain batch)) (mkEnv [] s) Hwf) as [_ Hev].
  destruct (ev_outbox _ _ Hev e o Ho) as (o' & Ho' & Hl). rewrite <- (row_message_later _ _ _ Hl).
  apply (dl_published _ Hd); [done|]. intros Hp.
  assert (e ∈ unpublished_ids (tables s')) as He by (apply elem_of_unpublished; eauto).
  assert (size (unpublished_ids (tables s')) = 0%nat) as H0 by lia.
  apply size_empty_inv in H0. set_solver.
Qed.
End outbox.

#[local] Existing Instance Sample.math.
#[local] Existing Instance Sample.pow.
#[local] Existing Instance Sample.world.

Lemma drains_deliver_everything_witness :
  let s' := e_state (run_ops Sample.service (replicate 3 (Sample.at_ 9 "-" "-", Sample.nothing, OpDrain 2)) (mkEnv [] Sample.year_end)) in
  length (kafka s') = 5%nat ∧
  ∀ e o, mrv_outbox (tables Sample.year_end) !! e = Some o → ∃ m, row_message (e, o) = Some m ∧ m ∈ kafka s'.
Proof.
  split; [vm_compute; reflexivity|].
  pose proof (drains_deliver_everything Sample.service Sample.year_ops [] (Sample.at_ 9 "-" "-") Sample.nothing 2 3 eq_refl) as Hw.
  rewrite Sample.year_end_run in Hw. apply Hw. vm_compute. lia.
Defined.
