(* ===== verification/Mux.v ===== *)
(** * Request multiplexing

    [http.ServeMux] as the service uses it: patterns with a method and wildcard segments,
    the registration that panics on a conflict, and the choice of the most specific pattern.
    A path is the list of its segments, unescaped; a trailing slash is a last empty segment. *)
From S2P Require Import Prelude.

(** ** Patterns *)

Inductive segment := Lit (text : string) | Wild.
(** [pt_subtree] when the text ends in a slash. *)
Record pattern := mkPattern { pt_method : string; pt_segments : list segment; pt_subtree : bool }.
#[export] Instance segment_eq_dec : EqDecision segment.
Proof. solve_decision. Defined.
#[export] Instance pattern_eq_dec : EqDecision pattern.
Proof. solve_decision. Defined.

Definition parse_segment (s : string) : segment := if HasPrefix s "{" then Wild else Lit s.
Definition parse_path (method path : string) : pattern :=
  let parts := tail (split_on (char_of 47) path) in
  if bool_decide (last parts = Some "") then mkPattern method (parse_segment <$> removelast parts) true
  else mkPattern method (parse_segment <$> parts) false.
Definition parse_pattern (text : string) : pattern :=
  match split_on (char_of 32) text with
  | [method; path] => parse_path method path
  | _ => parse_path "" text
  end.

Definition segment_match (s : segment) (x : string) : bool := match s with Lit text => String.eqb text x | Wild => negb (String.eqb x "") end.
Fixpoint segments_match (ps : list segment) (subtree : bool) (path : list string) : bool :=
  match ps, path with
  | [], [] => negb subtree
  | [], _ :: _ => subtree
  | s :: ps', x :: path' => segment_match s x && segments_match ps' subtree path'
  | _ :: _, [] => false
  end.
Definition method_match (pm method : string) : bool := String.eqb pm "" || String.eqb pm method || (String.eqb pm "GET" && String.eqb method "HEAD").
Definition path_match (p : pattern) (path : list string) : bool := segments_match (pt_segments p) (pt_subtree p) path.
Definition matches (p : pattern) (method : string) (path : list string) : bool := method_match (pt_method p) method && path_match p path.

(** ** The relation of two patterns *)

Inductive relationship := Equivalent | MoreGeneral | MoreSpecific | Disjoint | Overlaps.
Definition combine (a b : relationship) : relationship :=
  match a, b with
  | Equivalent, _ => b
  | Disjoint, _ => Disjoint
  | Overlaps, Disjoint => Disjoint
  | Overlaps, _ => Overlaps
  | _, Equivalent => a
  | MoreGeneral, MoreSpecific | MoreSpecific, MoreGeneral => Overlaps
  | _, _ => b
  end.
Definition compare_methods (a b : string) : relationship :=
  if String.eqb a b then Equivalent
  else if String.eqb a "" || (String.eqb a "GET" && String.eqb b "HEAD") then MoreGeneral
  else if String.eqb b "" || (String.eqb b "GET" && String.eqb a "HEAD") then MoreSpecific
  else Disjoint.
Definition compare_segments (s t : segment) : relationship :=
  match s, t with
  | Wild, Wild => Equivalent
  | Wild, Lit _ => MoreGeneral
  | Lit _, Wild => MoreSpecific
  | Lit a, Lit b => if String.eqb a b then Equivalent else Disjoint
  end.
Fixpoint compare_paths (ps : list segment) (sp : bool) (qs : list segment) (sq : bool) : relationship :=
  match ps, qs with
  | [], [] => if Bool.eqb sp sq then Equivalent else Disjoint
  | [], _ :: _ => if sp then MoreGeneral else Disjoint
  | _ :: _, [] => if sq then MoreSpecific else Disjoint
  | s :: ps', t :: qs' => combine (compare_segments s t) (compare_paths ps' sp qs' sq)
  end.
Definition compare (p q : pattern) : relationship :=
  combine (compare_methods (pt_method p) (pt_method q)) (compare_paths (pt_segments p) (pt_subtree p) (pt_segments q) (pt_subtree q)).
(** [Handle] panics when the new pattern conflicts with one that is registered. *)
Definition conflicts (p q : pattern) : bool := match compare p q with Equivalent | Overlaps => true | _ => false end.
Definition below (r : relationship) : bool := match r with Equivalent | MoreSpecific => true | _ => false end.
Definition above (r : relationship) : bool := match r with Equivalent | MoreGeneral => true | _ => false end.

(** The order of the folds does not matter. *)
Lemma combine_assoc a b c : combine a (combine b c) = combine (combine a b) c.
Proof. by destruct a, b, c. Qed.
Lemma below_combine a b : below (combine a b) = below a && below b.
Proof. by destruct a, b. Qed.
Lemma above_combine a b : above (combine a b) = above a && above b.
Proof. by destruct a, b. Qed.
Lemma combine_disjoint a b : combine a b = Disjoint ↔ a = Disjoint ∨ b = Disjoint.
Proof. destruct a, b; naive_solver. Qed.

(** ** Specificity is a partial order *)

Definition segment_le (s t : segment) : bool := below (compare_segments s t).
Fixpoint path_le (ps : list segment) (sp : bool) (qs : list segment) (sq : bool) : bool :=
  match ps, qs with
  | [], [] => Bool.eqb sp sq
  | [], _ :: _ => false
  | _ :: _, [] => sq
  | s :: ps', t :: qs' => segment_le s t && path_le ps' sp qs' sq
  end.
Definition method_le (a b : string) : bool := String.eqb a b || String.eqb b "" || (String.eqb b "GET" && String.eqb a "HEAD").
Definition pattern_le (p q : pattern) : bool :=
  method_le (pt_method p) (pt_method q) && path_le (pt_segments p) (pt_subtree p) (pt_segments q) (pt_subtree q).

Lemma below_methods a b : below (compare_methods a b) = method_le a b.
Proof.
  unfold compare_methods, method_le. destruct (String.eqb_spec a b); [done|]. cbn [orb].
  destruct (String.eqb_spec a "") as [->|]; [destruct (String.eqb_spec b "") as [->|]; [done|]; by rewrite andb_false_r|]. cbn [orb].
  destruct (String.eqb a "GET" && String.eqb b "HEAD") eqn:Hab; [|by destruct (_ || _)].
  apply andb_true_iff in Hab as [->%String.eqb_eq ->%String.eqb_eq]. done.
Qed.
Lemma below_paths ps sp qs sq : below (compare_paths ps sp qs sq) = path_le ps sp qs sq.
Proof.
  revert qs. induction ps as [|s ps IH]; intros [|t qs]; cbn.
  - by destruct sp, sq.
  - by destruct sp.
  - by destruct sq.
  - by rewrite below_combine, IH.
Qed.
Lemma below_compare p q : below (compare p q) = pattern_le p q.
Proof. unfold compare, pattern_le. by rewrite below_combine, below_methods, below_paths. Qed.
Lemma segment_flip s t : above (compare_segments s t) = below (compare_segments t s).
Proof. destruct s, t; cbn; try done. rewrite String.eqb_sym. by destruct (String.eqb _ _). Qed.
Lemma paths_flip ps sp qs sq : above (compare_paths ps sp qs sq) = below (compare_paths qs sq ps sp).
Proof.
  revert qs. induction ps as [|s ps IH]; intros [|t qs]; cbn.
  - by destruct sp, sq.
  - by destruct sp.
  - by destruct sq.
  - by rewrite above_combine, below_combine, IH, segment_flip.
Qed.
Lemma methods_flip a b : above (compare_methods a b) = below (compare_methods b a).
Proof.
  unfold compare_methods. rewrite (String.eqb_sym b a). destruct (String.eqb_spec a b); [done|].
  destruct (String.eqb_spec a "") as [->|]; [destruct (String.eqb_spec b "") as [->|]; [done|]; by rewrite andb_false_r|].
  destruct (String.eqb_spec b "") as [->|]; cbn [orb]; [by rewrite andb_false_r|].
  destruct (String.eqb a "GET" && String.eqb b "HEAD") eqn:Hab, (String.eqb b "GET" && String.eqb a "HEAD") eqn:Hba; try done.
  apply andb_true_iff in Hab as [->%String.eqb_eq _], Hba as [_ [=]%String.eqb_eq].
Qed.
Lemma compare_flip p q : above (compare p q) = below (compare q p).
Proof. unfold compare. by rewrite above_combine, below_combine, methods_flip, paths_flip. Qed.

Lemma segment_le_refl s : segment_le s s = true.
Proof. destruct s; [|done]. unfold segment_le. cbn. by rewrite String.eqb_refl. Qed.
Lemma path_le_refl ps sp : path_le ps sp ps sp = true.
Proof. induction ps as [|s ps IH]; cbn; [by destruct sp|]. by rewrite segment_le_refl. Qed.
Lemma pattern_le_refl p : pattern_le p p = true.
Proof. unfold pattern_le, method_le. by rewrite String.eqb_refl, path_le_refl. Qed.
Lemma segment_le_trans s t u : segment_le s t = true → segment_le t u = true → segment_le s u = true.
Proof.
  unfold segment_le. destruct s as [a|], t as [b|], u as [c|]; cbn; try done.
  destruct (String.eqb_spec a b) as [->|]; [|done]. by destruct (String.eqb_spec b c).
Qed.
Lemma path_le_trans ps sp qs sq rs sr : path_le ps sp qs sq = true → path_le qs sq rs sr = true → path_le ps sp rs sr = true.
Proof.
  revert qs rs. induction ps as [|s ps IH]; intros [|t qs] [|u rs]; cbn; try done.
  - by destruct sp, sq, sr.
  - by destruct sq, sr.
  - intros [H1 H2]%andb_true_iff [H3 H4]%andb_true_iff. by rewrite (segment_le_trans s t u), (IH qs rs).
Qed.
Lemma method_le_trans a b c : method_le a b = true → method_le b c = true → method_le a c = true.
Proof.
  unfold method_le. rewrite !orb_true_iff, !andb_true_iff, !String.eqb_eq.
  intros [[->| ->]|[-> ->]] [[->| ->]|[-> ?]]; auto; naive_solver.
Qed.
Lemma pattern_le_trans p q r : pattern_le p q = true → pattern_le q r = true → pattern_le p r = true.
Proof.
  unfold pattern_le. rewrite !andb_true_iff. intros [??] [??]. split; [by eapply method_le_trans|by eapply path_le_trans].
Qed.

(** Two patterns that match one request are not disjoint. *)
Lemma matching_methods a b m : method_match a m = true → method_match b m = true → compare_methods a b ≠ Disjoint.
Proof.
  unfold method_match, compare_methods. rewrite !orb_true_iff, !andb_true_iff, !String.eqb_eq.
  intros [[->| ->]|[-> ->]] [[->|H]|[-> H]]; subst; cbn; repeat case_match; try done;
    repeat match goal with H : (_ || _) = false |- _ => apply orb_false_iff in H as [??] end; cbn in *; try congruence.
  all: repeat match goal with H : String.eqb ?x ?x = false |- _ => by rewrite String.eqb_refl in H end.
Qed.
Lemma matching_paths ps sp qs sq path :
  segments_match ps sp path = true → segments_match qs sq path = true → compare_paths ps sp qs sq ≠ Disjoint.
Proof.
  revert qs path. induction ps as [|s ps IH]; intros [|t qs] [|x path]; cbn; try done.
  - by destruct sp, sq.
  - by intros -> ->.
  - by intros ->.
  - by intros _ ->.
  - intros [H1 H2]%andb_true_iff [H3 H4]%andb_true_iff [Hd|Hd]%combine_disjoint; [|by eapply IH].
    destruct s as [a|], t as [b|]; cbn in *; try done. apply String.eqb_eq in H1 as ->, H3 as ->. by rewrite String.eqb_refl in Hd.
Qed.
Lemma matching_not_disjoint p q m path : matches p m path = true → matches q m path = true → compare p q ≠ Disjoint.
Proof.
  unfold matches, compare. intros [H1 H2]%andb_true_iff [H3 H4]%andb_true_iff [H|H]%combine_disjoint.
  - exact (matching_methods _ _ _ H1 H3 H).
  - exact (matching_paths _ _ _ _ _ H2 H4 H).
Qed.

(** ** A multiplexer *)

Section mux.
Context {R : Type} (pattern_of : R → pattern).
Definition conflict_free_with (r : R) (table : list R) : bool := forallb (λ q, negb (conflicts (pattern_of r) (pattern_of q))) table.
(** No registration panics. *)
Fixpoint conflict_free (table : list R) : bool :=
  match table with [] => true | r :: rest => conflict_free_with r rest && conflict_free rest end.
Definition matching (table : list R) (method : string) (path : list string) : list R :=
  List.filter (λ r, matches (pattern_of r) method path) table.
(** The most specific of the patterns that match. *)
Definition lookup_route (table : list R) (method : string) (path : list string) : option R :=
  let candidates := matching table method path in
  List.find (λ r, forallb (λ q, pattern_le (pattern_of r) (pattern_of q)) candidates) candidates.
Definition path_known (table : list R) (path : list string) : bool := existsb (λ r, path_match (pattern_of r) path) table.

Lemma conflicts_sym p q : conflicts p q = conflicts q p.
Proof.
  unfold conflicts. pose proof (compare_flip p q) as H1. pose proof (compare_flip q p) as H2.
  assert (compare p q = Disjoint ↔ compare q p = Disjoint) as H3.
  { unfold compare. rewrite !combine_disjoint.
    assert (compare_methods (pt_method p) (pt_method q) = Disjoint ↔ compare_methods (pt_method q) (pt_method p) = Disjoint) as ->.
    { unfold compare_methods. rewrite (String.eqb_sym (pt_method q) (pt_method p)). destruct (String.eqb (pt_method p) (pt_method q)); [done|].
      by destruct (String.eqb (pt_method p) "" || _), (String.eqb (pt_method q) "" || _). }
    assert (∀ ps sp qs sq, compare_paths ps sp qs sq = Disjoint ↔ compare_paths qs sq ps sp = Disjoint) as Hp.
    { intros ps sp. induction ps as [|s ps IH]; intros [|t qs] sq; cbn; [by destruct sp, sq|by destruct sp|by destruct sq|].
      rewrite !combine_disjoint, IH. destruct s as [a|], t as [b|]; cbn; [by rewrite (String.eqb_sym b a)|naive_solver..]. }
    by rewrite Hp. }
  destruct (compare p q), (compare q p); cbn in *; naive_solver.
Qed.
Lemma conflict_free_elem table i j r q :
  conflict_free table = true → table !! i = Some r → table !! j = Some q → i ≠ j → conflicts (pattern_of r) (pattern_of q) = false.
Proof.
  revert i j. induction table as [|x table IH]; intros i j; [done|]. cbn [conflict_free]. intros [Hx Hc]%andb_true_iff Hi Hj Hij.
  unfold conflict_free_with in Hx. rewrite forallb_forall in Hx.
  destruct i as [|i], j as [|j]; cbn in Hi, Hj; [lia| | |].
  - injection Hi as ->. apply negb_true_iff, Hx, list_elem_of_In. by eapply list_elem_of_lookup_2.
  - injection Hj as ->. rewrite conflicts_sym. apply negb_true_iff, Hx, list_elem_of_In. by eapply list_elem_of_lookup_2.
  - apply (IH i j); [done..|]. lia.
Qed.

(** Two matching entries of a table without conflicts are comparable, and one is below the
    other both ways only if they are one entry. *)
Lemma matching_total table r q m path :
  conflict_free table = true → r ∈ table → q ∈ table → matches (pattern_of r) m path = true → matches (pattern_of q) m path = true →
  pattern_le (pattern_of r) (pattern_of q) = true ∨ pattern_le (pattern_of q) (pattern_of r) = true.
Proof.
  intros Hc [i Hi]%list_elem_of_lookup [j Hj]%list_elem_of_lookup Hr Hq. destruct (decide (i = j)) as [->|Hij].
  { rewrite Hi in Hj. injection Hj as ->. left. apply pattern_le_refl. }
  pose proof (conflict_free_elem _ _ _ _ _ Hc Hi Hj Hij) as Hn. pose proof (matching_not_disjoint _ _ _ _ Hr Hq) as Hd.
  rewrite <- !below_compare, <- (compare_flip (pattern_of r)). unfold conflicts in Hn. destruct (compare _ _); naive_solver.
Qed.
Lemma matching_antisym table r q m path :
  conflict_free table = true → r ∈ table → q ∈ table → matches (pattern_of r) m path = true → matches (pattern_of q) m path = true →
  pattern_le (pattern_of r) (pattern_of q) = true → pattern_le (pattern_of q) (pattern_of r) = true → r = q.
Proof.
  intros Hc [i Hi]%list_elem_of_lookup [j Hj]%list_elem_of_lookup Hr Hq. destruct (decide (i = j)) as [->|Hij]; [congruence|].
  pose proof (conflict_free_elem _ _ _ _ _ Hc Hi Hj Hij) as Hn.
  rewrite <- !below_compare, <- (compare_flip (pattern_of r)). unfold conflicts in Hn. by destruct (compare _ _).
Qed.
Lemma least_exists (l : list R) :
  l ≠ [] → (∀ r q, r ∈ l → q ∈ l → pattern_le (pattern_of r) (pattern_of q) = true ∨ pattern_le (pattern_of q) (pattern_of r) = true) →
  ∃ r, r ∈ l ∧ ∀ q, q ∈ l → pattern_le (pattern_of r) (pattern_of q) = true.
Proof.
  induction l as [|x l IH]; [done|]. intros _ Ht. destruct (decide (l = [])) as [->|Hl].
  { exists x. split; [left|]. intros q ->%list_elem_of_singleton. apply pattern_le_refl. }
  destruct IH as (r & Hr & Hmin); [done|intros; apply Ht; by right|].
  destruct (Ht x r) as [Hx|Hx]; [left|by right| |].
  - exists x. split; [left|]. intros q [->|Hq]%elem_of_cons; [apply pattern_le_refl|]. eapply pattern_le_trans; [done|by apply Hmin].
  - exists r. split; [by right|]. intros q [->|Hq]%elem_of_cons; [done|by apply Hmin].
Qed.
Lemma elem_of_matching table m path r : r ∈ matching table m path ↔ r ∈ table ∧ matches (pattern_of r) m path = true.
Proof. unfold matching. by rewrite list_elem_of_In, List.filter_In, <- list_elem_of_In. Qed.

(** What is found is in the table, matches, and is at least as specific as every other
    pattern that matches. *)
Lemma lookup_route_Some table m path r :
  lookup_route table m path = Some r →
  r ∈ table ∧ matches (pattern_of r) m path = true ∧
  ∀ q, q ∈ table → matches (pattern_of q) m path = true → pattern_le (pattern_of r) (pattern_of q) = true.
Proof.
  unfold lookup_route. intros [Hin Hall]%List.find_some. apply list_elem_of_In, elem_of_matching in Hin as [??].
  rewrite forallb_forall in Hall. split_and!; [done..|]. intros q Hq Hm. apply Hall, list_elem_of_In. by apply elem_of_matching.
Qed.
(** In a table without conflicts a request is answered unless nothing matches it. *)
Lemma lookup_route_None table m path :
  conflict_free table = true → lookup_route table m path = None → ∀ r, r ∈ table → matches (pattern_of r) m path = false.
Proof.
  intros Hc Hn r Hr. destruct (matches _ _ _) eqn:Hm; [|done].
  assert (∃ x, x ∈ matching table m path ∧ ∀ q, q ∈ matching table m path → pattern_le (pattern_of x) (pattern_of q) = true) as (x & Hx & Hmin).
  { apply least_exists.
    - intros E. assert (r ∈ matching table m path) as H by by apply elem_of_matching. rewrite E in H. by apply not_elem_of_nil in H.
    - intros a b [??]%elem_of_matching [??]%elem_of_matching. by eapply matching_total. }
  enough (forallb (λ q, pattern_le (pattern_of x) (pattern_of q)) (matching table m path) = true) as Ht.
  { rewrite (List.find_none _ _ Hn x) in Ht; [done|]. by apply list_elem_of_In. }
  apply forallb_forall. intros q Hq. apply Hmin. by apply list_elem_of_In.
Qed.
(** The order of registration does not matter. *)
Lemma lookup_route_Permutation table table' m path :
  conflict_free table = true → conflict_free table' = true → table ≡ₚ table' → lookup_route table m path = lookup_route table' m path.
Proof.
  intros Hc Hc' Hp. destruct (lookup_route table m path) as [r|] eqn:E, (lookup_route table' m path) as [r'|] eqn:E'; [|exfalso..|done].
  - apply lookup_route_Some in E as (Hr & Hm & Hmin), E' as (Hr' & Hm' & Hmin'). f_equal.
    eapply (matching_antisym table); [done|done|by rewrite Hp|done|done| |]; [apply Hmin|apply Hmin']; rewrite ?Hp; try done. by rewrite <- Hp.
  - apply lookup_route_Some in E as (Hr & Hm & _). rewrite Hp in Hr. by rewrite (lookup_route_None _ _ _ Hc' E' r Hr) in Hm.
  - apply lookup_route_Some in E' as (Hr & Hm & _). rewrite <- Hp in Hr. by rewrite (lookup_route_None _ _ _ Hc E r' Hr) in Hm.
Qed.

(** A path of a pattern whose wildcards are not filled with a literal of the table. *)
Definition literals_of (p : pattern) : list string := omap (λ s, match s with Lit a => Some a | Wild => None end) (pt_segments p).
Definition literals (table : list R) : list string := table ≫= λ r, literals_of (pattern_of r).
Definition fills (taken : list string) (s : segment) (x : string) : Prop := match s with Lit a => x = a | Wild => x ≠ "" ∧ x ∉ taken end.
Definition filled (taken : list string) (p : pattern) (path : list string) : Prop := Forall2 (fills taken) (pt_segments p) path.

Lemma filled_matches taken ps path : Forall2 (fills taken) ps path → segments_match ps false path = true.
Proof.
  induction 1 as [|s x ps path Hs _ IH]; [done|]. cbn. rewrite IH, andb_true_r. destruct s as [a|]; cbn in *.
  - subst. apply String.eqb_refl.
  - destruct Hs as [Hs _]. by apply negb_true_iff, String.eqb_neq.
Qed.
Lemma filled_least taken ps path qs sq :
  Forall2 (fills taken) ps path → segments_match qs sq path = true → (∀ a, Lit a ∈ qs → a ∈ taken) → path_le ps false qs sq = true.
Proof.
  intros Hf. revert qs. induction Hf as [|s x ps path Hs Hf IH]; intros [|t qs]; cbn; [by destruct sq|done|by intros ->|].
  intros [Ht Hm]%andb_true_iff Hin. rewrite IH; [|done|set_solver]. rewrite andb_true_r. destruct s as [a|], t as [b|]; cbn in *.
  - subst. apply String.eqb_eq in Ht as ->. unfold segment_le. cbn. by rewrite String.eqb_refl.
  - done.
  - apply String.eqb_eq in Ht as ->. destruct Hs as [_ []]. apply Hin. left.
  - done.
Qed.
(** Every route of a table without conflicts is reached, by every such path. *)
Lemma lookup_route_filled table r path :
  conflict_free table = true → r ∈ table → pt_subtree (pattern_of r) = false → filled (literals table) (pattern_of r) path →
  lookup_route table (pt_method (pattern_of r)) path = Some r.
Proof.
  intros Hc Hr Hs Hf.
  assert (matches (pattern_of r) (pt_method (pattern_of r)) path = true) as Hm.
  { unfold matches, method_match, path_match. rewrite String.eqb_refl, orb_true_r, Hs. cbn. by eapply filled_matches. }
  assert (∀ q, q ∈ table → matches (pattern_of q) (pt_method (pattern_of r)) path = true → pattern_le (pattern_of r) (pattern_of q) = true) as Hmin.
  { intros q Hq [Hqm Hqp]%andb_true_iff. unfold pattern_le. rewrite Hs, (filled_least (literals table) _ path); [|done..|].
    - rewrite andb_true_r. unfold method_le, method_match in *. rewrite (String.eqb_sym _ (pt_method (pattern_of q))).
      revert Hqm. destruct (String.eqb (pt_method (pattern_of q)) (pt_method (pattern_of r))), (String.eqb (pt_method (pattern_of q)) ""); done.
    - intros a Ha. apply list_elem_of_bind. exists q. split; [|done]. apply list_elem_of_omap. by exists (Lit a). }
  destruct (lookup_route table _ path) as [x|] eqn:E; [|by rewrite (lookup_route_None _ _ _ Hc E r Hr) in Hm].
  apply lookup_route_Some in E as (Hx & Hxm & Hxmin). f_equal. eapply matching_antisym; eauto.
Qed.
End mux.
