(* ===== verification/Routes.v ===== *)
(** * The HTTP front of the two services

    The route trees of [api.Server.Handler], of the device plane and of [mrv.Server.Handler],
    the authenticator and the roles in front of them, the split between them in
    [cmd/geo-service/main.go], the request log, the event stream and the response writers
    the middleware stacks up.  What a handler does once it is reached is modelled with its
    component; here it has a name. *)
From S2P Require Import Prelude Classification Sign Auth Http Mux Hub AppReports GeoServer GeoV2 FeedsApi Recommend SafetyApi DeviceApi MrvApi.

(** [rt_roles] is absent for the endpoints that devices authenticate themselves. *)
Record route := mkRoute { rt_pattern : pattern; rt_handler : string; rt_roles : option (list string) }.
#[export] Instance route_eq_dec : EqDecision route.
Proof. solve_decision. Defined.
Definition guarded_route (text handler : string) (roles : list string) : route := mkRoute (parse_pattern text) handler (Some roles).
Definition open_route (text handler : string) : route := mkRoute (parse_pattern text) handler None.

(** ** The tables *)

(** Which parts of the server are wired; the routes of the stream and of the
    recommendations are registered either way. *)
Record wiring := mkWiring { wi_app : bool; wi_v2 : bool; wi_safety : bool; wi_stream : bool; wi_recommend : bool }.
Definition readers : list string := ["geo-reader"; "geo-zone-maker"; "geo-zone-checker"; "geo-admin"].
Definition core_routes : list route :=
  [guarded_route "GET /v1/geo/vessels" "listVessels" readers;
   guarded_route "GET /v1/geo/vessels/{mmsi}" "vessel360" readers;
   guarded_route "GET /v1/geo/vessels/{mmsi}/track" "track" readers;
   guarded_route "GET /v1/geo/zones" "listZones" readers;
   guarded_route "GET /v1/geo/zones/{id}/vessels" "vesselsInZone" readers;
   guarded_route "POST /v1/geo/zones" "createZone" ["geo-zone-maker"; "geo-admin"];
   guarded_route "POST /v1/geo/zones/{id}/approve" "approveZone" ["geo-zone-checker"; "geo-admin"];
   guarded_route "GET /v1/geo/sos" "listSOS" ["geo-sos-reader"; "geo-admin"];
   guarded_route "POST /v1/geo/sos/{id}/acknowledge" "acknowledgeSOS" ["geo-sos-reader"; "geo-admin"];
   guarded_route "POST /v1/geo/sos/{id}/resolve" "resolveSOS" ["geo-sos-reader"; "geo-admin"];
   guarded_route "GET /feeds/gtfs.zip" "serveGTFSZip" readers;
   guarded_route "GET /feeds/gtfs-rt/vehiclepositions.pb" "serveRealtime(vehiclepositions)" readers;
   guarded_route "GET /feeds/gtfs-rt/tripupdates.pb" "serveRealtime(tripupdates)" readers;
   guarded_route "GET /feeds/gtfs-rt/alerts.pb" "serveRealtime(alerts)" readers;
   guarded_route "POST /v1/geo/transit/alerts" "createTransitAlert" ["geo-transit-admin"; "geo-admin"]].
Definition app_routes : list route := [guarded_route "POST /v1/geo/app-reports" "serve" ["geo-app-reporter"]].
Definition v2_routes : list route :=
  [guarded_route "GET /v1/geo/fences" "listFences" readers;
   guarded_route "GET /v1/geo/fences/{id}" "getFenceHistory" readers;
   guarded_route "GET /v1/geo/fences/{id}/events" "listFenceEvents" readers;
   guarded_route "POST /v1/geo/fences" "createFence" ["geo-zone-maker"; "geo-admin"];
   guarded_route "POST /v1/geo/fences/{id}/versions" "createFenceVersion" ["geo-zone-maker"; "geo-admin"];
   guarded_route "POST /v1/geo/fences/{id}/retire" "retireFence" ["geo-zone-checker"; "geo-admin"];
   guarded_route "POST /v1/geo/fences/evaluate" "evaluatePositions" ["geo-ingest"; "geo-admin"];
   guarded_route "GET /v1/geo/tracks/{mmsi}" "queryTrack" readers;
   guarded_route "GET /v1/geo/vessels/nearest" "nearestVessels" readers;
   guarded_route "GET /v1/geo/vessels/density" "densityGrid" readers;
   guarded_route "GET /v1/geo/ports/{code}/approaches" "portApproaches" readers;
   guarded_route "GET /v1/geo/ports/{code}/congestion/forecast" "congestionForecast" readers;
   guarded_route "POST /v1/geo/ports/{code}/queue-observations" "recordQueueObservation" ["geo-ingest"; "geo-admin"]].
Definition safety_readers : list string :=
  ["geo-reader"; "geo-inspector"; "geo-inspection-checker"; "geo-sar-coordinator"; "geo-investigator"; "geo-admin"].
Definition safety_routes : list route :=
  [guarded_route "GET /v1/safety/inspections" "listInspections" safety_readers;
   guarded_route "GET /v1/safety/inspections/{id}" "getInspection" safety_readers;
   guarded_route "GET /v1/safety/inspections/{id}/deficiencies" "listDeficiencies" safety_readers;
   guarded_route "GET /v1/safety/checklist-templates" "listChecklistTemplates" safety_readers;
   guarded_route "POST /v1/safety/checklist-templates" "createChecklistTemplate" ["geo-inspector"; "geo-admin"];
   guarded_route "POST /v1/safety/inspections" "createInspection" ["geo-inspector"; "geo-admin"];
   guarded_route "POST /v1/safety/inspections/{id}/transition" "transitionInspection" ["geo-inspector"; "geo-inspection-checker"; "geo-admin"];
   guarded_route "POST /v1/safety/inspections/{id}/deficiencies" "recordDeficiency" ["geo-inspector"; "geo-admin"];
   guarded_route "POST /v1/safety/deficiencies/{id}/transition" "transitionDeficiency" ["geo-inspector"; "geo-inspection-checker"; "geo-admin"];
   guarded_route "GET /v1/safety/sar" "listSarIncidents" safety_readers;
   guarded_route "GET /v1/safety/sar/{id}" "getSarIncident" safety_readers;
   guarded_route "GET /v1/safety/sar/{id}/comms" "listSarComms" safety_readers;
   guarded_route "POST /v1/safety/sar" "createSarIncident" ["geo-sar-coordinator"; "geo-admin"];
   guarded_route "POST /v1/safety/sar/{id}/transition" "transitionSarIncident" ["geo-sar-coordinator"; "geo-admin"];
   guarded_route "POST /v1/safety/sar/{id}/taskings" "taskSarResource" ["geo-sar-coordinator"; "geo-admin"];
   guarded_route "POST /v1/safety/sar-taskings/{id}/transition" "transitionSarTasking" ["geo-sar-coordinator"; "geo-admin"];
   guarded_route "POST /v1/safety/sar/{id}/comms" "appendSarComms" ["geo-sar-coordinator"; "geo-admin"];
   guarded_route "GET /v1/safety/investigations" "listInvestigationCases" safety_readers;
   guarded_route "GET /v1/safety/investigations/{id}" "getInvestigationCase" safety_readers;
   guarded_route "GET /v1/safety/investigations/{id}/evidence" "listEvidence" safety_readers;
   guarded_route "GET /v1/safety/investigations/{id}/findings" "listFindings" safety_readers;
   guarded_route "GET /v1/safety/investigations/{id}/recommendations" "listRecommendations" safety_readers;
   guarded_route "POST /v1/safety/investigations" "createInvestigationCase" ["geo-investigator"; "geo-admin"];
   guarded_route "POST /v1/safety/investigations/{id}/transition" "transitionInvestigationCase" ["geo-investigator"; "geo-admin"];
   guarded_route "POST /v1/safety/investigations/{id}/evidence" "appendEvidence" ["geo-investigator"; "geo-admin"];
   guarded_route "POST /v1/safety/investigations/{id}/findings" "addFinding" ["geo-investigator"; "geo-admin"];
   guarded_route "POST /v1/safety/investigations/{id}/recommendations" "addRecommendation" ["geo-investigator"; "geo-admin"];
   guarded_route "POST /v1/safety/recommendations/{id}/transition" "decideRecommendation" ["geo-investigator"; "geo-admin"]].
Definition stream_routes : list route :=
  [guarded_route "GET /v1/geo/stream" "streamEvents" readers; guarded_route "GET /v1/geo/stream/status" "streamStatus" readers].
Definition recommend_routes : list route :=
  [guarded_route "POST /v1/geo/berths/recommendation" "berthRecommendation" readers; guarded_route "POST /v1/geo/routes/advice" "routeAdvice" readers].
Definition capability_routes : list route :=
  [guarded_route "GET /v1/geo/capabilities" "capabilities"
     ["geo-reader"; "geo-zone-maker"; "geo-zone-checker"; "geo-admin"; "geo-ingest"; "geo-sos-reader"]].
Definition api_routes (w : wiring) : list route :=
  core_routes ++ (if wi_app w then app_routes else []) ++ (if wi_v2 w then v2_routes else []) ++ (if wi_safety w then safety_routes else [])
  ++ stream_routes ++ recommend_routes ++ capability_routes.

Definition device_routes : list route :=
  [guarded_route "POST /v1/device-provisioning/requests" "createProvisionRequest" ["geo-device-maker"; "geo-device-admin"];
   guarded_route "GET /v1/device-provisioning/requests/{id}" "getProvisionRequest" readRoles;
   guarded_route "POST /v1/device-provisioning/requests/{id}/approve" "approveProvisionRequest" ["geo-device-checker"; "geo-device-admin"];
   guarded_route "POST /v1/device-provisioning/requests/{id}/reject" "rejectProvisionRequest" ["geo-device-checker"; "geo-device-admin"];
   guarded_route "GET /v1/devices" "listDevices" readRoles;
   guarded_route "GET /v1/devices/{id}" "getDevice" readRoles;
   guarded_route "POST /v1/devices/{id}/status" "setDeviceStatus" ["geo-device-admin"];
   guarded_route "POST /v1/devices/{id}/rotate" "requestRotation" ["geo-device-maker"; "geo-device-admin"];
   guarded_route "POST /v1/devices/{id}/rotate/{requestId}/approve" "approveRotation" ["geo-device-checker"; "geo-device-admin"];
   guarded_route "POST /v1/devices/firmware-releases" "createFirmwareRelease" ["geo-device-admin"];
   open_route "POST /v1/devices/{id}/telemetry" "ingestTelemetry";
   open_route "GET /v1/devices/{id}/firmware" "serveFirmware";
   open_route "POST /v1/devices/mqtt-auth" "serveMQTTAuth";
   open_route "POST /v1/devices/activate" "activate"].
Definition every_mrv_role : list string := [RoleReader; RoleReporter; RoleVerifier; RoleFlagAdmin].
Definition mrv_routes : list route :=
  [guarded_route "POST /v1/mrv/ships" "registerShip" [RoleFlagAdmin];
   guarded_route "PUT /v1/mrv/ships/{imo}/monitoring-plans" "putMonitoringPlan" [RoleReporter];
   guarded_route "POST /v1/mrv/monitoring-plans/{id}/confirm" "confirmMonitoringPlan" [RoleVerifier];
   guarded_route "POST /v1/mrv/ships/{imo}/fuel-reports" "submitFuelReport" [RoleReporter];
   guarded_route "POST /v1/mrv/ships/{imo}/voyages" "recordVoyage" [RoleReporter];
   guarded_route "GET /v1/mrv/ships/{imo}/activity-estimate" "activityEstimate" [RoleReporter; RoleVerifier];
   guarded_route "GET /v1/mrv/ships/{imo}/voyages/{voyageId}/emissions" "voyageEmissions" every_mrv_role;
   guarded_route "GET /v1/mrv/ships/{imo}/emissions/by-voyage" "voyageEmissionsSummary" every_mrv_role;
   guarded_route "POST /v1/mrv/reports/annual/{imo}/{year}/compile" "compileAnnual" [RoleReporter];
   guarded_route "POST /v1/mrv/reports/annual/{id}/submit" "submitAnnual" [RoleReporter];
   guarded_route "POST /v1/mrv/reports/annual/{id}/decisions" "recordDecision" [RoleVerifier];
   guarded_route "POST /v1/mrv/reports/annual/{id}/soc" "issueSoC" [RoleFlagAdmin];
   guarded_route "GET /v1/mrv/ships/{imo}/cii/{year}" "getCII" every_mrv_role;
   guarded_route "GET /v1/mrv/reports/annual/{id}/artifact" "getArtifact" [RoleReader; RoleVerifier; RoleFlagAdmin];
   guarded_route "GET /v1/mrv/factors" "listFactors" every_mrv_role;
   guarded_route "GET /v1/status" "status" every_mrv_role].
(** The tree in front of either API; ["/"] takes the rest. *)
Definition outer_routes : list route := [open_route "GET /healthz" "healthz"; open_route "GET /metrics" "metrics"; open_route "/" "mux"].

(** ** Serving *)

(** [hr_canonical] when the path needs no cleaning, or the method is CONNECT: the
    multiplexer redirects the other requests. *)
Record http_request := mkHttpRequest { hr_method : string; hr_path : list string; hr_canonical : bool }.
Inductive reply := Redirected | Liveness | MetricsPage | NotFound | NotAllowed | Unauthenticated | Refused | Invoke (handler : string) (p : option Principal).
Definition flatten (g : guarded reply) : reply := match g with Unauthorized => Unauthenticated | Forbidden => Refused | Served r => r end.
(** [mux.ServeHTTP]. *)
Definition mux_serve (table : list route) (req : http_request) (next : route → reply) : reply :=
  if negb (hr_canonical req) then Redirected
  else match lookup_route rt_pattern table (hr_method req) (hr_path req) with
       | Some r => next r
       | None => if path_known rt_pattern table (hr_path req) then NotAllowed else NotFound
       end.
(** The handler of a route behind its roles. *)
Definition behind_roles (r : route) (p : option Principal) : guarded reply :=
  match rt_roles r with
  | Some roles => RequireRoles roles (λ q, Invoke (rt_handler r) (Some q)) p
  | None => Served (Invoke (rt_handler r) None)
  end.
Definition tree (table : list route) (outcome : result auth_error Principal) (req : http_request) : reply :=
  mux_serve outer_routes req (λ o,
    if String.eqb (rt_handler o) "healthz" then Liveness
    else if String.eqb (rt_handler o) "metrics" then flatten (Middleware outcome (λ _, Served MetricsPage))
    else flatten (Middleware outcome (λ p, Served (mux_serve table req (λ r, flatten (behind_roles r p)))))).
Definition api_Handler (w : wiring) : result auth_error Principal → http_request → reply := tree (api_routes w).
Definition mrv_Handler : result auth_error Principal → http_request → reply := tree mrv_routes.
(** The device plane authenticates route by route. *)
Definition RegisterRoutes (outcome : result auth_error Principal) (req : http_request) : reply :=
  mux_serve device_routes req (λ r,
    match rt_roles r with
    | Some _ => flatten (Middleware outcome (behind_roles r))
    | None => flatten (behind_roles r None)
    end).
(** [URL.Path]. *)
Fixpoint url_path (segments : list string) : string := match segments with [] => "" | s :: rest => "/" +:+ s +:+ url_path rest end.
Definition device_path (req : http_request) : bool :=
  HasPrefix (url_path (hr_path req)) "/v1/devices/" || HasPrefix (url_path (hr_path req)) "/v1/device-provisioning/".
(** The handler of the process; [devices] when the device plane is configured. *)
Definition api_handler (w : wiring) (devices : bool) (outcome : result auth_error Principal) (req : http_request) : reply :=
  if devices && device_path req then RegisterRoutes outcome req else api_Handler w outcome req.

(** ** The request log *)

Record log_line := mkLogLine { ll_method : string; ll_path : string; ll_status : Z; ll_subject : string }.
(** The context of the request at a handler, which is the principal stored in it.
    [Middleware] hands a new request to the next handler; the one it was given is unchanged. *)
Definition requestLogging {A} (enabled : bool) (status_of : A → Z) (next : option Principal → A) (context : option Principal) (req : http_request) :
  A * option log_line :=
  let a := next context in
  (a, if enabled
      then Some (mkLogLine (hr_method req) (url_path (hr_path req)) (status_of a) (match PrincipalFrom context with Some p => Subject p | None => "" end))
      else None).
(** The process hands requests over with an empty context. *)
Definition logged_api (enabled : bool) (status_of : reply → Z) (w : wiring) (outcome : result auth_error Principal) (req : http_request) :
  reply * option log_line := requestLogging enabled status_of (λ _, api_Handler w outcome req) None req.

(** ** Response writers *)

(** The writer of the connection, as the tracing library hands it on; the recorder of
    [telemetry.Middleware], which has the methods of [http.ResponseWriter] only; the recorder
    of the request log, which has a [Flush] that asks the writer inside for one. *)
Inductive writer := Connection | SpanRecorder (inner : writer) | LogRecorder (inner : writer).
Definition is_Flusher (w : writer) : bool := match w with Connection | LogRecorder _ => true | SpanRecorder _ => false end.
(** Whether [Flush] reaches the connection. *)
Fixpoint flushed (w : writer) : bool :=
  match w with Connection => true | SpanRecorder _ => false | LogRecorder inner => is_Flusher inner && flushed inner end.
Definition request_writer (requestLog : bool) : writer :=
  let traced := SpanRecorder Connection in if requestLog then LogRecorder traced else traced.

(** ** The event stream *)

(** The frames with whether they were flushed out. *)
Inductive stream_reply := StreamRefused (r : response) | StreamUnsupported | Streaming (labels : list string) (frames : list (sse_frame * bool)).
Definition streamEvents (wired : bool) (out : writer) (p : option Principal) (inputs : list sse_input) : stream_reply :=
  principalOrFail p StreamRefused (λ principal,
    if negb wired
    then StreamRefused (writeError StatusServiceUnavailable
           "REALTIME_UNCONFIGURED: SSE fan-out is disabled (GEO_SSE_ENABLED is not true); poll /v1/geo/vessels instead")
    else if negb (is_Flusher out) then StreamUnsupported
    else Streaming (clearedLabels (Clearance principal)) ((λ f, (f, flushed out)) <$> ServeSSE inputs)).
Definition subscriber_field (wired : bool) (subscribers : Z) : list (string * json) := if wired then [("subscribers", JNum subscribers)] else [].
Definition streamStatus (wired : bool) (subscribers : Z) (p : option Principal) : response :=
  principalOrFail p id (λ _,
    mkResponse StatusOK
      ([("enabled", JBool wired); ("eventTypes", JArr [JStr "geo.vessel-position.v1"; JStr "geo.geofence-event.v1"]);
        ("contract", JStr "notifications only; the REST read model is the source of truth — re-poll to resync after any gap")]
       ++ subscriber_field wired subscribers)).

(** ** Capabilities *)

Definition features (w : wiring) (startup : gmap string json) : gmap string json :=
  <["mlRecommendations" := JObj [("enabled", JBool (wi_recommend w));
      ("endpoints", JArr [JStr "POST /v1/geo/berths/recommendation"; JStr "POST /v1/geo/routes/advice"]);
      ("mode", JStr "shadow (advisory only; never auto-applied; every served suggestion is logged_api)")]]>
  (<["sse" := JObj [("enabled", JBool (wi_stream w)); ("endpoint", JStr "GET /v1/geo/stream"); ("status", JStr "GET /v1/geo/stream/status")]]>
  (<["densityGrid" := JObj [("enabled", JBool (wi_v2 w)); ("endpoint", JStr "GET /v1/geo/vessels/density")]]> startup)).
Definition capabilities (w : wiring) (startup : gmap string json) (p : option Principal) : response :=
  principalOrFail p id (λ _, mkResponse StatusOK [("capabilities", JObj (map_to_list (features w startup)))]).

(** ** The names under which the components register *)

Definition geo_name (r : geo_request) : string :=
  match r with
  | GetVessels _ _ => "listVessels" | GetVessel _ => "vessel360" | GetVesselTrack _ _ _ => "track" | GetZones => "listZones"
  | GetZoneVessels _ _ => "vesselsInZone" | PostZone _ => "createZone" | PostZoneApproval _ => "approveZone"
  end.
Definition v2_name (r : v2_request) : string :=
  match r with
  | GetFences => "listFences" | GetFence _ => "getFenceHistory" | GetFenceEvents _ _ => "listFenceEvents" | PostFence _ => "createFence"
  | PostFenceVersion _ _ => "createFenceVersion" | PostFenceRetire _ => "retireFence" | PostEvaluate _ => "evaluatePositions"
  | GetWindow _ _ _ _ => "queryTrack" | GetNearest _ _ _ _ => "nearestVessels" | GetDensity _ _ => "densityGrid"
  | GetApproaches _ _ _ => "portApproaches" | GetForecast _ _ => "congestionForecast" | PostQueue _ _ => "recordQueueObservation"
  end.
Definition safety_name (r : safety_request) : string :=
  match r with
  | PostTemplate _ => "createChecklistTemplate" | GetTemplates _ => "listChecklistTemplates" | PostInspection _ => "createInspection"
  | GetInspectionRoute _ => "getInspection" | GetInspections _ => "listInspections" | PostInspectionTransition _ _ => "transitionInspection"
  | PostDeficiency _ _ => "recordDeficiency" | GetDeficiencies _ => "listDeficiencies" | PostDeficiencyTransition _ _ => "transitionDeficiency"
  | PostSar _ => "createSarIncident" | GetSar _ => "getSarIncident" | GetSars _ => "listSarIncidents"
  | PostSarTransition _ _ => "transitionSarIncident" | PostTasking _ _ => "taskSarResource" | PostTaskingTransition _ _ => "transitionSarTasking"
  | PostComms _ _ => "appendSarComms" | GetComms _ _ => "listSarComms" | PostCase _ => "createInvestigationCase"
  | GetCase _ => "getInvestigationCase" | GetCases _ => "listInvestigationCases" | PostCaseTransition _ _ => "transitionInvestigationCase"
  | PostEvidence _ _ => "appendEvidence" | GetEvidence _ => "listEvidence" | PostFinding _ _ => "addFinding" | GetFindings _ => "listFindings"
  | PostRecommendation _ _ => "addRecommendation" | GetRecommendations _ => "listRecommendations"
  | PostRecommendationTransition _ _ => "decideRecommendation"
  end.
Definition feed_name (r : feed_request) : string :=
  match r with
  | GetGTFS _ => "serveGTFSZip"
  | GetRealtime VehiclePositionsFeed _ _ => "serveRealtime(vehiclepositions)" | GetRealtime TripUpdatesFeed _ _ => "serveRealtime(tripupdates)"
  | GetRealtime AlertsFeed _ _ => "serveRealtime(alerts)"
  | PostTransitAlert _ => "createTransitAlert"
  end.
Definition rec_name (r : rec_request) : string := match r with PostBerth _ _ _ => "berthRecommendation" | PostRoute _ _ _ => "routeAdvice" end.
Definition admin_name (r : admin_route) : string :=
  match r with
  | CreateProvision => "createProvisionRequest" | GetProvision => "getProvisionRequest" | ApproveProvision => "approveProvisionRequest"
  | RejectProvision => "rejectProvisionRequest" | ListDevicesRoute => "listDevices" | GetDeviceRoute => "getDevice" | SetStatus => "setDeviceStatus"
  | RequestRotation => "requestRotation" | ApproveRotation => "approveRotation" | CreateRelease => "createFirmwareRelease"
  end.
Definition mrv_name (r : mrv_request) : string :=
  match r with
  | PostShip _ => "registerShip" | PutPlan _ _ => "putMonitoringPlan" | PostConfirm _ => "confirmMonitoringPlan"
  | PostFuelReport _ _ _ => "submitFuelReport" | PostVoyage _ _ => "recordVoyage" | GetEstimate _ _ _ => "activityEstimate"
  | GetVoyageEmissions _ _ => "voyageEmissions" | GetEmissionsByVoyage _ _ _ => "voyageEmissionsSummary" | PostCompile _ _ => "compileAnnual"
  | PostSubmit _ => "submitAnnual" | PostDecision _ _ => "recordDecision" | PostSoC _ => "issueSoC" | GetCII _ _ => "getCII"
  | GetArtifactDoc _ => "getArtifact" | GetFactors => "listFactors" | GetStatus => "status"
  end.
(** The roles of a handler that is registered once. *)
Definition roles_of (table : list route) (name : string) : option (list string) :=
  match List.filter (λ r, String.eqb (rt_handler r) name) table with [r] => rt_roles r | _ => None end.

(** ** No registration panics *)

Lemma api_routes_register w : conflict_free rt_pattern (api_routes w) = true.
Proof. destruct w as [[] [] [] s r]; vm_compute; reflexivity. Qed.
Lemma device_routes_register : conflict_free rt_pattern device_routes = true.
Proof. vm_compute. reflexivity. Qed.
Lemma mrv_routes_register : conflict_free rt_pattern mrv_routes = true.
Proof. vm_compute. reflexivity. Qed.
Lemma outer_routes_register : conflict_free rt_pattern outer_routes = true.
Proof. vm_compute. reflexivity. Qed.

(** ** Who reaches a handler *)

Record entitled (roles : list string) (outcome : result auth_error Principal) (p : Principal) : Prop := mkEntitled {
  et_outcome : outcome = Ok p;
  et_subject : Subject p ≠ "";
  et_role : ∃ role, role ∈ roles ∧ HasRole p role = true;
}.
(** A route of the table that the request matches, the handler of which was invoked for
    [who]. *)
Definition reached (table : list route) (outcome : result auth_error Principal) (req : http_request) (handler : string) (who : option Principal) : Prop :=
  ∃ r, r ∈ table ∧ matches (rt_pattern r) (hr_method req) (hr_path req) = true ∧ rt_handler r = handler ∧
    match rt_roles r with
    | Some roles => ∃ p, who = Some p ∧ entitled roles outcome p
    | None => who = None
    end.
Lemma RequireRoles_Served {A} roles (next : Principal → A) p a :
  RequireRoles roles next p = Served a → ∃ q, p = Some q ∧ a = next q ∧ Subject q ≠ "" ∧ ∃ role, role ∈ roles ∧ HasRole q role = true.
Proof.
  unfold RequireRoles, PrincipalFrom. destruct p as [q|]; [|done]. cbn. destruct (String.eqb_spec (Subject q) ""); [done|].
  destruct (existsb (HasRole q) roles) eqn:Hr; [|done]. intros [= <-]. apply existsb_exists in Hr as (role & Hin & Hr).
  exists q. split_and!; [done..|]. exists role. by rewrite list_elem_of_In.
Qed.
Lemma mux_serve_Invoke table req next h who :
  mux_serve table req next = Invoke h who →
  ∃ r, r ∈ table ∧ matches (rt_pattern r) (hr_method req) (hr_path req) = true ∧ next r = Invoke h who.
Proof.
  unfold mux_serve. destruct (negb _); [done|]. destruct (lookup_route _ _ _ _) as [r|] eqn:Hr; [|by case_match].
  apply lookup_route_Some in Hr as (? & ? & _). eauto.
Qed.
Lemma behind_roles_Invoke table r outcome p h who req :
  r ∈ table → matches (rt_pattern r) (hr_method req) (hr_path req) = true → outcome = Ok p →
  flatten (behind_roles r (Some p)) = Invoke h who → reached table outcome req h who.
Proof.
  intros Hr Hm -> E. exists r. split_and!; [done..| |]; unfold behind_roles in E; destruct (rt_roles r) as [roles|] eqn:Hroles.
  2, 4: by injection E as <- <-.
  all: destruct (RequireRoles _ _ _) as [| |a] eqn:Hs; try done; cbn in E; subst a; apply RequireRoles_Served in Hs as (q & [= <-] & [= -> ->] & ? & ?); eauto.
  exists p. by split.
Qed.
Lemma tree_Invoke table outcome req h who : tree table outcome req = Invoke h who → reached table outcome req h who.
Proof.
  unfold tree. intros (o & _ & _ & E)%mux_serve_Invoke. destruct (String.eqb _ "healthz"); [done|]. destruct (String.eqb _ "metrics"); [by destruct outcome|].
  destruct outcome as [p|e]; [|done]. cbn in E. apply mux_serve_Invoke in E as (r & ? & ? & E). by eapply behind_roles_Invoke.
Qed.
Lemma RegisterRoutes_Invoke outcome req h who : RegisterRoutes outcome req = Invoke h who → reached device_routes outcome req h who.
Proof.
  unfold RegisterRoutes. intros (r & Hr & Hm & E)%mux_serve_Invoke. destruct (rt_roles r) as [roles|] eqn:Hroles.
  - destruct outcome as [p|e]; [|done]. by eapply behind_roles_Invoke.
  - exists r. rewrite Hroles. unfold behind_roles in E. rewrite Hroles in E. by injection E as <- <-.
Qed.
Definition device_endpoints : list string := ["ingestTelemetry"; "serveFirmware"; "serveMQTTAuth"; "activate"].
Lemma open_device_routes r : r ∈ device_routes → rt_roles r = None → rt_handler r ∈ device_endpoints.
Proof.
  intros Hr Hn. assert (forallb (λ r, bool_decide (is_Some (rt_roles r)) || bool_decide (rt_handler r ∈ device_endpoints)) device_routes = true) as H
    by (vm_compute; reflexivity).
  rewrite forallb_forall in H. specialize (H r). rewrite Hn in H. cbn in H. apply list_elem_of_In, H, bool_decide_eq_true in Hr. done.
Qed.
Lemma guarded_routes w r : r ∈ api_routes w → rt_roles r ≠ None.
Proof.
  intros Hr Hn. assert (forallb (λ r, bool_decide (is_Some (rt_roles r))) (api_routes w) = true) as H by (destruct w as [[] [] [] s c]; vm_compute; reflexivity).
  rewrite forallb_forall in H. specialize (H r). rewrite Hn in H. by apply list_elem_of_In, H in Hr.
Qed.

(** The tree in front: a path is never without a segment. *)
Lemma outer_lookup m path :
  path ≠ [] → ∃ o, lookup_route rt_pattern outer_routes m path = Some o ∧
    (rt_handler o = "healthz" ∧ path = ["healthz"] ∨ rt_handler o = "metrics" ∧ path = ["metrics"] ∨ rt_handler o = "mux").
Proof.
  intros Hp. destruct (lookup_route rt_pattern outer_routes m path) as [o|] eqn:E.
  - exists o. split; [done|]. apply lookup_route_Some in E as (Ho & Hm & _). apply andb_true_iff in Hm as [_ Hm].
    assert (∀ name, path_match (mkPattern "GET" [Lit name] false) path = true → path = [name]) as Hone.
    { intros name. unfold path_match. cbn. destruct path as [|x [|y path]]; [done| |by rewrite andb_false_r].
      rewrite andb_true_r. by intros ->%String.eqb_eq. }
    unfold outer_routes in Ho. repeat (apply elem_of_cons in Ho as [->|Ho]); [left|right; left|by right; right|by apply not_elem_of_nil in Ho].
    + split; [done|]. by apply Hone.
    + split; [done|]. by apply Hone.
  - pose proof (lookup_route_None _ _ _ _ outer_routes_register E (open_route "/" "mux")) as H. destruct path as [|x path]; [done|].
    exfalso. assert (true = false); [apply H|done]. unfold outer_routes. set_solver.
Qed.
Lemma tree_unauthenticated table e req :
  hr_path req ≠ [] →
  tree table (Err e) req = Redirected ∨ tree table (Err e) req = Unauthenticated ∨ tree table (Err e) req = Liveness ∧ hr_path req = ["healthz"].
Proof.
  intros Hp. unfold tree, mux_serve. destruct (negb _); [by left|].
  destruct (outer_lookup (hr_method req) (hr_path req) Hp) as (o & -> & [[-> ?]|[[-> _]| ->]]); cbn; auto.
Qed.

(** C10: the surface is gated. Whatever is wired and whatever the request, a handler of the
    geo service is invoked only for a principal the authenticator returned for this request,
    who has a subject and one of the roles registered with the route the request matches; the
    exceptions are the four endpoints that devices authenticate themselves, when the device
    plane is configured. The same holds of every handler of the MRV service. A request that
    is not authenticated and is not on the device plane is answered with a redirect to a
    cleaned path, with 401, or, on the liveness path, with the constant probe. *)
Theorem surface_is_gated (w : wiring) (devices : bool) (outcome : result auth_error Principal) (req : http_request) :
  hr_path req ≠ [] →
  (∀ h who, api_handler w devices outcome req = Invoke h who →
    reached (api_routes w) outcome req h who ∧ (∃ p, who = Some p) ∨
    devices = true ∧ reached device_routes outcome req h who ∧ (who = None → h ∈ device_endpoints)) ∧
  (∀ h who, mrv_Handler outcome req = Invoke h who → reached mrv_routes outcome req h who ∧ ∃ p, who = Some p) ∧
  (∀ e, outcome = Err e → devices && device_path req = false →
    let answer := api_handler w devices outcome req in answer = Redirected ∨ answer = Unauthenticated ∨ answer = Liveness ∧ hr_path req = ["healthz"]).
Proof.
  intros Hp. split_and!.
  - intros h who. unfold api_handler. destruct (devices && device_path req) eqn:Hd.
    + intros Hr%RegisterRoutes_Invoke. apply andb_true_iff in Hd as [-> _]. right. split_and!; [done..|]. intros ->.
      destruct Hr as (r & Hr & _ & <- & Hm). apply open_device_routes; [done|]. destruct (rt_roles r); [|done]. by destruct Hm as (? & ? & _).
    + intros Hr%tree_Invoke. left. split; [done|]. destruct Hr as (r & Hr & _ & _ & Hm). pose proof (guarded_routes w r Hr).
      destruct (rt_roles r); [|done]. destruct Hm as (p & -> & _). eauto.
  - intros h who Hr%tree_Invoke. split; [done|]. destruct Hr as (r & Hr & _ & _ & Hm).
    assert (forallb (λ r, bool_decide (is_Some (rt_roles r))) mrv_routes = true) as H by (vm_compute; reflexivity).
    rewrite forallb_forall in H. apply list_elem_of_In, H, bool_decide_eq_true in Hr as [roles Hroles]. rewrite Hroles in Hm. destruct Hm as (p & -> & _). eauto.
  - intros e -> Hd. unfold api_handler. rewrite Hd. by apply tree_unauthenticated.
Qed.

(** the roles of the routes are those of the components. For every request of a
    component, the handler it is dispatched to is registered exactly once in the tree and
    behind the list of roles with which the component was modelled: what the components
    prove of the holders of these roles holds of everyone who gets through the tree. *)
Theorem registered_roles (w : wiring) :
  (∀ r, roles_of (api_routes w) (geo_name r) = Some (geo_roles r)) ∧
  (∀ r, roles_of (api_routes w) (feed_name r) = Some (feed_roles r)) ∧
  (∀ r, roles_of (api_routes w) (rec_name r) = Some rec_roles) ∧
  (∀ name, name ∈ ["listSOS"; "acknowledgeSOS"; "resolveSOS"] → roles_of (api_routes w) name = Some sos_roles) ∧
  (wi_app w = true → roles_of (api_routes w) "serve" = Some app_route_roles) ∧
  (wi_v2 w = true → ∀ r, roles_of (api_routes w) (v2_name r) = Some (v2_roles r)) ∧
  (wi_safety w = true → ∀ r, roles_of (api_routes w) (safety_name r) = Some (safety_roles r)) ∧
  (∀ r, roles_of device_routes (admin_name r) = Some (route_roles r)) ∧
  (∀ r, roles_of mrv_routes (mrv_name r) = Some (mrv_roles r)).
Proof.
  destruct w as [[] [] [] s c]; split_and!; intros.
  all: repeat match goal with
    | r : geo_request |- _ => destruct r | r : feed_request |- _ => destruct r | k : feed_kind |- _ => destruct k
    | r : rec_request |- _ => destruct r | r : v2_request |- _ => destruct r | r : safety_request |- _ => destruct r
    | r : admin_route |- _ => destruct r | r : mrv_request |- _ => destruct r
    end; try done.
  all: repeat match goal with H : _ ∈ _ :: _ |- _ => apply elem_of_cons in H as [->|H] | H : _ ∈ [] |- _ => by apply not_elem_of_nil in H end.
  all: done.
Qed.

(** ** Every route is reached *)

(** The first two segments are literals from the list, and more follow when [deep]. *)
Definition begins (starts : list (string * string)) (deep : bool) (r : route) : bool :=
  negb (pt_subtree (rt_pattern r)) &&
  match pt_segments (rt_pattern r) with
  | Lit a :: Lit b :: rest => bool_decide ((a, b) ∈ starts) && (negb deep || negb (bool_decide (rest = [])))
  | _ => false
  end.
Lemma begins_path starts deep r taken path :
  begins starts deep r = true → filled taken (rt_pattern r) path →
  pt_subtree (rt_pattern r) = false ∧ ∃ a b rest, path = a :: b :: rest ∧ (a, b) ∈ starts ∧ (deep = true → rest ≠ []).
Proof.
  unfold begins, filled. intros [Hs%negb_true_iff Hb]%andb_true_iff Hf. split; [done|].
  destruct (pt_segments (rt_pattern r)) as [|[a|] [|[b|] ps]]; try done. apply andb_true_iff in Hb as [Hb%bool_decide_eq_true Hd].
  apply Forall2_cons_inv_l in Hf as (x & path1 & Hx & Hf & ->). apply Forall2_cons_inv_l in Hf as (y & rest & Hy & Hf & ->).
  cbn in Hx, Hy. subst x y. exists a, b, rest. split_and!; [done..|]. intros -> ->. apply Forall2_nil_inv_r in Hf as ->. done.
Qed.
Definition api_starts : list (string * string) := [("v1", "geo"); ("v1", "safety"); ("feeds", "gtfs.zip"); ("feeds", "gtfs-rt")].
Definition device_starts : list (string * string) := [("v1", "devices"); ("v1", "device-provisioning")].
Definition mrv_starts : list (string * string) := [("v1", "mrv"); ("v1", "status")].
Lemma api_begins w r : r ∈ api_routes w → begins api_starts false r = true.
Proof.
  intros Hr. assert (forallb (begins api_starts false) (api_routes w) = true) as H by (destruct w as [[] [] [] s c]; vm_compute; reflexivity).
  rewrite forallb_forall in H. by apply H, list_elem_of_In.
Qed.
Lemma device_begins r : r ∈ device_routes → rt_handler r ≠ "listDevices" → begins device_starts true r = true.
Proof.
  intros Hr Hn. assert (forallb (λ r, String.eqb (rt_handler r) "listDevices" || begins device_starts true r) device_routes = true) as H by (vm_compute; reflexivity).
  rewrite forallb_forall in H. apply list_elem_of_In, H in Hr. apply String.eqb_neq in Hn. by rewrite Hn in Hr.
Qed.
Definition asks (r : route) (path : list string) : http_request := mkHttpRequest (pt_method (rt_pattern r)) path true.
Lemma api_off_device_plane m a b rest : (a, b) ∈ api_starts → device_path (mkHttpRequest m (a :: b :: rest) true) = false.
Proof.
  intros H. unfold api_starts in H.
  repeat (apply elem_of_cons in H as [[= -> ->]|H]; [reflexivity|]). by apply not_elem_of_nil in H.
Qed.
Lemma device_on_device_plane m a b rest : (a, b) ∈ device_starts → rest ≠ [] → device_path (mkHttpRequest m (a :: b :: rest) true) = true.
Proof.
  intros H Hr. destruct rest as [|x rest]; [done|]. unfold device_starts in H.
  repeat (apply elem_of_cons in H as [[= -> ->]|H]; [reflexivity|]). by apply not_elem_of_nil in H.
Qed.
Lemma RequireRoles_entitled {A} roles (next : Principal → A) outcome p : entitled roles outcome p → RequireRoles roles next (Some p) = Served (next p).
Proof.
  intros [_ Hs (role & Hin & Hr)]. unfold RequireRoles, PrincipalFrom. cbn. apply String.eqb_neq in Hs. rewrite Hs.
  assert (existsb (HasRole p) roles = true) as ->; [|done]. apply existsb_exists. exists role. by rewrite <- list_elem_of_In.
Qed.
Lemma tree_reaches table r roles p path :
  conflict_free rt_pattern table = true → r ∈ table → pt_subtree (rt_pattern r) = false → (2 <= length path)%nat →
  filled (literals rt_pattern table) (rt_pattern r) path → rt_roles r = Some roles → entitled roles (Ok p) p →
  tree table (Ok p) (asks r path) = Invoke (rt_handler r) (Some p).
Proof.
  intros Hc Hr Hsub Hlen Hf Hroles He. pose proof (lookup_route_filled rt_pattern table r path Hc Hr Hsub Hf) as Hl.
  destruct path as [|a [|b path]]; cbn in Hlen; try lia. unfold tree, mux_serve. cbn [asks hr_canonical hr_method hr_path negb].
  destruct (outer_lookup (pt_method (rt_pattern r)) (a :: b :: path)) as (o & -> & [[_ [=]]|[[_ [=]]| ->]]); [done|].
  cbn. rewrite Hl. unfold behind_roles. by rewrite Hroles, (RequireRoles_entitled _ _ _ _ He).
Qed.

(** C11: every route reaches its handler. With any wiring and whether or not the device plane
    is configured, a request with the method of a registered route, and with its path in
    which every wildcard is filled with a non-empty segment that no pattern uses as a
    literal, is handled by that route's handler: for a principal with one of its roles, or
    for the device itself where the route has none. No registration hides another one, and
    none is lost in the split between the planes, except the list of devices. *)
Theorem routes_reach_their_handlers (w : wiring) (devices : bool) (p : Principal) (path : list string) (r : route) :
  match rt_roles r with Some roles => entitled roles (Ok p) p | None => True end →
  (r ∈ api_routes w → filled (literals rt_pattern (api_routes w)) (rt_pattern r) path →
    api_handler w devices (Ok p) (asks r path) = Invoke (rt_handler r) (Some p)) ∧
  (r ∈ device_routes → rt_handler r ≠ "listDevices" → filled (literals rt_pattern device_routes) (rt_pattern r) path →
    api_handler w true (Ok p) (asks r path) = Invoke (rt_handler r) ((λ _, p) <$> rt_roles r)) ∧
  (r ∈ mrv_routes → filled (literals rt_pattern mrv_routes) (rt_pattern r) path →
    mrv_Handler (Ok p) (asks r path) = Invoke (rt_handler r) (Some p)).
Proof.
  intros He. split_and!.
  - intros Hr Hf. destruct (begins_path _ _ _ _ _ (api_begins w r Hr) Hf) as (Hsub & a & b & rest & -> & Hab & _).
    unfold api_handler, asks. rewrite api_off_device_plane by done. fold (asks r (a :: b :: rest)). rewrite andb_false_r. pose proof (guarded_routes w r Hr).
    destruct (rt_roles r) as [roles|] eqn:Hroles; [|done]. eapply tree_reaches; eauto using api_routes_register. cbn. lia.
  - intros Hr Hn Hf. destruct (begins_path _ _ _ _ _ (device_begins r Hr Hn) Hf) as (Hsub & a & b & rest & -> & Hab & Hrest).
    unfold api_handler, asks. rewrite device_on_device_plane by auto. cbn [andb]. unfold RegisterRoutes, mux_serve. cbn [hr_canonical hr_method hr_path negb].
    rewrite (lookup_route_filled rt_pattern device_routes r _ device_routes_register Hr Hsub Hf). unfold behind_roles.
    destruct (rt_roles r) as [roles|]; [|done]. cbn. by rewrite (RequireRoles_entitled _ _ _ _ He).
  - intros Hr Hf. assert (begins mrv_starts false r = true ∧ is_Some (rt_roles r)) as [Hb [roles Hroles]].
    { assert (forallb (λ r, begins mrv_starts false r && bool_decide (is_Some (rt_roles r))) mrv_routes = true) as H by (vm_compute; reflexivity).
      rewrite forallb_forall in H. by apply list_elem_of_In, H, andb_true_iff in Hr as [? ?%bool_decide_eq_true]. }
    destruct (begins_path _ _ _ _ _ Hb Hf) as (Hsub & a & b & rest & -> & _). rewrite Hroles in He.
    eapply tree_reaches; eauto using mrv_routes_register. cbn. lia.
Qed.

(** The list of devices is behind a path that the split sends to the other tree, which does
    not have it: nobody can read it. *)
Lemma device_list_unreachable w devices outcome req who : api_handler w devices outcome req ≠ Invoke "listDevices" who.
Proof.
  unfold api_handler. destruct (devices && device_path req) eqn:Hd.
  - intros (r & Hr & Hm & Hh & _)%RegisterRoutes_Invoke. apply andb_true_iff in Hd as [_ Hd].
    assert (rt_pattern r = mkPattern "GET" [Lit "v1"; Lit "devices"] false) as Hpat.
    { assert (forallb (λ r, negb (String.eqb (rt_handler r) "listDevices") || bool_decide (rt_pattern r = mkPattern "GET" [Lit "v1"; Lit "devices"] false))
                device_routes = true) as H by (vm_compute; reflexivity).
      rewrite forallb_forall in H. apply list_elem_of_In, H in Hr. rewrite Hh in Hr. by apply bool_decide_eq_true in Hr. }
    rewrite Hpat in Hm. apply andb_true_iff in Hm as [_ Hm]. unfold path_match, device_path in *.
    destruct (hr_path req) as [|x [|y [|z rest]]]; cbn [pt_segments pt_subtree segments_match segment_match negb] in Hm; [done|by rewrite andb_false_r in Hm| |by rewrite !andb_false_r in Hm].
    apply andb_true_iff in Hm as [<-%String.eqb_eq [<-%String.eqb_eq _]%andb_true_iff]. done.
  - intros (r & Hr & _ & Hh & _)%tree_Invoke.
    assert (forallb (λ r, negb (String.eqb (rt_handler r) "listDevices")) (api_routes w) = true) as H by (destruct w as [[] [] [] s c]; vm_compute; reflexivity).
    rewrite forallb_forall in H. apply list_elem_of_In, H in Hr. by rewrite Hh in Hr.
Qed.

(** ** The log, the stream and the capabilities *)

(** The log never names the principal: the middleware stores it in a request that the log
    does not see. *)
Lemma request_log_names_nobody status_of w outcome req line : (logged_api true status_of w outcome req).2 = Some line → ll_subject line = "".
Proof. by intros [= <-]. Qed.
(** No frame of the event stream is ever flushed: either the writer is no flusher, which
    ends the stream, or its [Flush] ends at the recorder of the traces. *)
Lemma no_frame_is_flushed wired requestLog p inputs labels frames :
  streamEvents wired (request_writer requestLog) p inputs = Streaming labels frames → requestLog = true ∧ Forall (λ f, f.2 = false) frames.
Proof.
  unfold streamEvents, principalOrFail. destruct (PrincipalFrom p); [|done]. destruct wired; [|done]. destruct requestLog; [|done]. cbn [negb is_Flusher request_writer].
  intros [= _ <-]. split; [done|]. apply Forall_forall. intros f Hf.
  apply (list_elem_of_fmap_1 (λ f : sse_frame, (f, false)) (ServeSSE inputs)) in Hf as (? & -> & _). done.
Qed.
(** What is advertised as enabled does not answer that it is not configured. *)
Lemma stream_advertised_is_wired w startup p inputs out :
  features w startup !! "sse" = Some (JObj [("enabled", JBool true); ("endpoint", JStr "GET /v1/geo/stream"); ("status", JStr "GET /v1/geo/stream/status")]) →
  PrincipalFrom (Some p) = Some p → ∀ r, streamEvents (wi_stream w) out (Some p) inputs ≠ StreamRefused r.
Proof.
  unfold features. rewrite lookup_insert_ne, lookup_insert_eq by done. intros [= Hs] Hp r. unfold streamEvents, principalOrFail. rewrite Hp, Hs. cbn.
  by destruct (is_Flusher out).
Qed.

Module RouteSamples.
Definition all_wired : wiring := mkWiring true true true true true.
Definition reader : Principal := mkPrincipal "ada" {["geo-reader"]} "PUBLIC" "niwa".
Definition nearest : http_request := mkHttpRequest "GET" ["v1"; "geo"; "vessels"; "nearest"] true.
Lemma surface_is_gated_witness :
  api_handler all_wired true (Ok reader) nearest = Invoke "nearestVessels" (Some reader) ∧
  (reached (api_routes all_wired) (Ok reader) nearest "nearestVessels" (Some reader) ∧ (∃ p, Some reader = Some p) ∨
   true = true ∧ reached device_routes (Ok reader) nearest "nearestVessels" (Some reader) ∧ (Some reader = None → "nearestVessels" ∈ device_endpoints)).
Proof.
  assert (api_handler all_wired true (Ok reader) nearest = Invoke "nearestVessels" (Some reader)) as E by (vm_compute; reflexivity).
  split; [exact E|]. apply (proj1 (surface_is_gated all_wired true (Ok reader) nearest ltac:(discriminate)) _ _ E).
Defined.
Definition track_route : route := guarded_route "GET /v1/geo/vessels/{mmsi}/track" "track" readers.
Definition track_path : list string := ["v1"; "geo"; "vessels"; "657123000"; "track"].
Lemma routes_reach_their_handlers_witness :
  api_handler all_wired true (Ok reader) (asks track_route track_path) = Invoke "track" (Some reader).
Proof.
  refine (proj1 (routes_reach_their_handlers all_wired true reader track_path track_route _) _ _).
  - split; [reflexivity|discriminate|]. exists "geo-reader". split; [apply list_elem_of_In; left; reflexivity|vm_compute; reflexivity].
  - apply (bool_decide_unpack _). vm_compute. exact I.
  - assert ("657123000" ∉ literals rt_pattern (api_routes all_wired)) as Hn by (apply (bool_decide_unpack _); vm_compute; exact I).
    assert (pt_segments (rt_pattern track_route) = [Lit "v1"; Lit "geo"; Lit "vessels"; Wild; Lit "track"]) as E by (vm_compute; reflexivity).
    unfold filled. rewrite E. clear E. revert Hn. generalize (literals rt_pattern (api_routes all_wired)). intros taken Hn.
    constructor; [done|]. constructor; [done|]. constructor; [done|]. constructor; [done|]. constructor; [done|constructor].
Defined.
(** A literal wins over the wildcard, a wrong method is told apart from a wrong path, and the
    metrics ask for a principal but for no role. *)
Example routing_samples :
  api_handler all_wired false (Ok reader) (mkHttpRequest "POST" ["v1"; "geo"; "vessels"] true) = NotAllowed ∧
  api_handler all_wired false (Ok reader) (mkHttpRequest "GET" ["v1"; "geo"; "vessels"; ""] true) = NotFound ∧
  api_handler all_wired false (Ok reader) (mkHttpRequest "POST" ["v1"; "geo"; "zones"] true) = Refused ∧
  api_handler all_wired false (Ok reader) (mkHttpRequest "HEAD" ["metrics"] true) = MetricsPage ∧
  api_handler all_wired true (Ok reader) (mkHttpRequest "GET" ["v1"; "devices"] true) = NotFound.
Proof. vm_compute. done. Qed.
End RouteSamples.
