(* ===== verification/Config.v ===== *)
(** * The configuration and the start of the two services

    [internal/config/config.go]: the environment is read, defaulted and checked.
    [internal/bus/producer.go], [internal/store/store.go] and [internal/telemetry/telemetry.go]:
    the settings the clients take from it.  [cmd/geo-service/main.go] and
    [cmd/mrv-api/main.go]: what is built from them, in order, up to the first refusal.
    [strings.ToLower], [time.ParseDuration], [strconv.ParseFloat], [url.Parse] and
    [net.ParseCIDR] are parameters, and so is which outside steps succeed. *)
From S2P Require Import Prelude GoTime GoParse GoFloat Dedup Sign Jws Auth Devices DeviceVerify Mrv MrvEstimate MrvRows MrvService Eta Transit GtfsFeed Recommend Routes.
From Stdlib Require Import SpecFloat.

Record ServiceConfig := mkServiceConfig {
  AppEnv : string; PostgresDSN : string; IngestPostgresDSN : string; RedisAddr : string; KafkaBrokers : list string;
  DedupWindow : Z; PublishAISRaw : bool; cf_PrincipalID : string; cf_PrincipalRole : string; PositionPlane : string;
  APIAddr : string; AuthMode : string; OIDCIssuer : string; OIDCAudience : string; OIDCJWKSURL : string; OIDCCAFile : string;
  TrustedProxyCIDRs : string; TrustedProxyID : string;
  GTFSRTStaleAfter : Z; GTFSRTSnapMaxMeters : float64; GTFSRTStopArriveMeters : float64; GTFSRTStopSpeedMilliknots : Z;
  GTFSRTETAMinSpeedMilliknots : Z; GTFSRTSpeedSamples : Z;
  NMEATCPAddr : string; NMEAUDPAddr : string; AISStreamAPIKey : string; GT06Addr : string; ReplayFile : string; ReplayInterval : Z;
  SSEEnabled : bool; FenceV2Ingest : bool; PCSAISImportDSN : string; PCSAISImportPoll : Z; RequestLog : bool;
  MLStackURL : string; MLStackServiceToken : string; MLStackTimeout : Z }.
(** The setting that is at fault. *)
Inductive setting_error := BadSetting (name : string) | AuthModeUnknown | HalfConfigured.

(** [strconv.ParseUint(s, 10, 32)]. *)
Definition ParseUint32 (s : string) : option Z :=
  if String.eqb s "" || negb (all_chars is_digit s) then None else let v := dec_value s in if v <? 2 ^ 32 then Some v else None.
(** [strconv.ParseBool], with an error as false. *)
Definition parseBool (value : string) : bool := bool_decide (value ∈ ["1"; "t"; "T"; "TRUE"; "true"; "True"]).
Definition splitCSV (value : string) : list string :=
  omap (λ part, let trimmed := TrimSpace part in if String.eqb trimmed "" then None else Some trimmed) (split_on (char_of 44) value).

Section config.
Context (ToLower : string → string) (ParseDuration : string → option Z) (ParseFloat : string → option float64).
(** [os.Getenv], empty for a variable that is not set. *)
Context (Getenv : string → string).
Definition getenv (name fallback : string) : string := let value := TrimSpace (Getenv name) in if String.eqb value "" then fallback else value.
Definition trimmed (name : string) : string := TrimSpace (Getenv name).
Definition parsePositiveFloat (value : string) : option float64 :=
  parsed ← ParseFloat value; if f_le parsed (f_of_Z 0) then None else Some parsed.
Definition setting {A B} (name : string) (r : option A) (next : A → result setting_error B) : result setting_error B :=
  match r with Some a => next a | None => Err (BadSetting name) end.
Definition positive (r : option Z) : option Z := v ← r; if v <=? 0 then None else Some v.

(** The checks after the values are read. *)
Definition checked (c : ServiceConfig) : result setting_error ServiceConfig :=
  if String.eqb (PostgresDSN c) "" then Err (BadSetting "GEO_PG_DSN")
  else if String.eqb (IngestPostgresDSN c) "" then Err (BadSetting "GEO_INGEST_PG_DSN")
  else if String.eqb (RedisAddr c) "" then Err (BadSetting "GEO_REDIS_ADDR")
  else if bool_decide (KafkaBrokers c = []) then Err (BadSetting "GEO_KAFKA_BROKERS")
  else if String.eqb (cf_PrincipalID c) "" || String.eqb (cf_PrincipalRole c) "" then Err (BadSetting "GEO_PRODUCER_PRINCIPAL_ID")
  else if negb (String.eqb (ReplayFile c) "") && (String.eqb (AppEnv c) "prod" || String.eqb (AppEnv c) "production")
  then Err (BadSetting "GEO_REPLAY_FILE")
  else if negb (String.eqb (PositionPlane c) "shared") then Err (BadSetting "GEO_POSITION_PLANE")
  else
    let api :=
      if String.eqb (APIAddr c) "" then None
      else if String.eqb (AuthMode c) "oidc"
      then if String.eqb (OIDCIssuer c) "" || String.eqb (OIDCAudience c) "" || String.eqb (OIDCJWKSURL c) ""
           then Some (BadSetting "GEO_OIDC_ISSUER") else None
      else if String.eqb (AuthMode c) "trusted_proxy" || String.eqb (AuthMode c) "loopback_trusted_proxy"
      then if String.eqb (TrustedProxyCIDRs c) "" || String.eqb (TrustedProxyID c) "" then Some (BadSetting "GEO_TRUSTED_PROXY_CIDRS") else None
      else Some AuthModeUnknown in
    match api with
    | Some e => Err e
    | None => if xorb (String.eqb (MLStackURL c) "") (String.eqb (MLStackServiceToken c) "") then Err HalfConfigured else Ok c
    end.

Definition FromEnv : result setting_error ServiceConfig :=
  setting "GEO_PCS_AIS_IMPORT_POLL" (positive (ParseDuration (getenv "GEO_PCS_AIS_IMPORT_POLL" "30s"))) (λ pcsPoll,
  setting "GEO_ML_STACK_TIMEOUT" (positive (ParseDuration (getenv "GEO_ML_STACK_TIMEOUT" "5s"))) (λ mlTimeout,
  setting "GEO_DEDUP_WINDOW" (ParseDuration (getenv "GEO_DEDUP_WINDOW" "15s")) (λ dedupWindow,
  setting "GEO_REPLAY_INTERVAL" (ParseDuration (getenv "GEO_REPLAY_INTERVAL" "0s")) (λ replayInterval,
  setting "GEO_GTFSRT_STALE_AFTER" (positive (ParseDuration (getenv "GEO_GTFSRT_STALE_AFTER" "120s"))) (λ staleAfter,
  setting "GEO_GTFSRT_SNAP_MAX_METERS" (parsePositiveFloat (getenv "GEO_GTFSRT_SNAP_MAX_METERS" "200")) (λ snap,
  setting "GEO_GTFSRT_STOP_ARRIVE_METERS" (parsePositiveFloat (getenv "GEO_GTFSRT_STOP_ARRIVE_METERS" "20")) (λ arrive,
  setting "GEO_GTFSRT_STOP_SPEED_MILLIKNOTS" (ParseUint32 (getenv "GEO_GTFSRT_STOP_SPEED_MILLIKNOTS" "500")) (λ stopSpeed,
  setting "GEO_GTFSRT_ETA_MIN_SPEED_MILLIKNOTS" (ParseUint32 (getenv "GEO_GTFSRT_ETA_MIN_SPEED_MILLIKNOTS" "1000")) (λ etaMinSpeed,
  setting "GEO_GTFSRT_SPEED_SAMPLES" (positive (Atoi (getenv "GEO_GTFSRT_SPEED_SAMPLES" "5"))) (λ samples,
    checked (mkServiceConfig (ToLower (getenv "APP_ENV" "dev")) (trimmed "GEO_PG_DSN") (trimmed "GEO_INGEST_PG_DSN") (trimmed "GEO_REDIS_ADDR")
      (splitCSV (Getenv "GEO_KAFKA_BROKERS")) dedupWindow (parseBool (getenv "GEO_PUBLISH_AIS_RAW" "true"))
      (trimmed "GEO_PRODUCER_PRINCIPAL_ID") (getenv "GEO_PRODUCER_PRINCIPAL_ROLE" "") (ToLower (getenv "GEO_POSITION_PLANE" "shared"))
      (getenv "GEO_API_ADDR" "") (ToLower (getenv "GEO_AUTH_MODE" "oidc")) (trimmed "GEO_OIDC_ISSUER") (trimmed "GEO_OIDC_AUDIENCE")
      (trimmed "GEO_OIDC_JWKS_URL") (trimmed "GEO_OIDC_CA_FILE") (trimmed "GEO_TRUSTED_PROXY_CIDRS") (trimmed "GEO_TRUSTED_PROXY_ID")
      staleAfter snap arrive stopSpeed etaMinSpeed samples (trimmed "GEO_NMEA_TCP_ADDR") (trimmed "GEO_NMEA_UDP_ADDR")
      (trimmed "GEO_AISSTREAM_API_KEY") (trimmed "GEO_GT06_ADDR") (trimmed "GEO_REPLAY_FILE") replayInterval
      (parseBool (getenv "GEO_SSE_ENABLED" "false")) (parseBool (getenv "GEO_FENCE_V2_INGEST" "false")) (trimmed "GEO_PCS_AIS_IMPORT_DSN") pcsPoll
      (parseBool (getenv "GEO_REQUEST_LOG" "true")) (trimmed "ML_STACK_HTTP_URL") (trimmed "ML_STACK_SERVICE_TOKEN") mlTimeout)
  )))))))))).

(** ** What a configuration that is accepted has *)

Record startable (c : ServiceConfig) : Prop := mkStartable {
  st_stores : PostgresDSN c ≠ "" ∧ IngestPostgresDSN c ≠ "" ∧ RedisAddr c ≠ "" ∧ KafkaBrokers c ≠ [];
  st_principal : cf_PrincipalID c ≠ "" ∧ cf_PrincipalRole c ≠ "";
  st_no_replay : AppEnv c = "prod" ∨ AppEnv c = "production" → ReplayFile c = "";
  st_plane : PositionPlane c = "shared";
  st_auth : APIAddr c ≠ "" →
    (AuthMode c = "oidc" ∧ OIDCIssuer c ≠ "" ∧ OIDCAudience c ≠ "" ∧ OIDCJWKSURL c ≠ "") ∨
    ((AuthMode c = "trusted_proxy" ∨ AuthMode c = "loopback_trusted_proxy") ∧ TrustedProxyCIDRs c ≠ "" ∧ TrustedProxyID c ≠ "");
  st_ml : MLStackURL c = "" ↔ MLStackServiceToken c = "";
}.
Lemma checked_startable c c' : checked c = Ok c' → c' = c ∧ startable c.
Proof.
  unfold checked. destruct (String.eqb_spec (PostgresDSN c) ""); [done|]. destruct (String.eqb_spec (IngestPostgresDSN c) ""); [done|].
  destruct (String.eqb_spec (RedisAddr c) ""); [done|]. case_bool_decide; [done|]. destruct (_ || _) eqn:Hp; [done|].
  destruct (negb _ && _) eqn:Hr; [done|]. destruct (String.eqb_spec (PositionPlane c) "shared"); [|done]. cbn [negb].
  apply orb_false_iff in Hp as [?%String.eqb_neq ?%String.eqb_neq].
  assert (AppEnv c = "prod" ∨ AppEnv c = "production" → ReplayFile c = "") as Hreplay.
  { intros [He|He]; rewrite He in Hr; cbn in Hr; destruct (String.eqb_spec (ReplayFile c) ""); done. }
  intros E.
  assert (c' = c ∧ (MLStackURL c = "" ↔ MLStackServiceToken c = "")) as [-> Hml].
  { destruct (if String.eqb (APIAddr c) "" then None else _) as [err|]; [done|].
    destruct (String.eqb_spec (MLStackURL c) ""), (String.eqb_spec (MLStackServiceToken c) ""); cbn in E; try done; injection E as <-; done. }
  split; [done|]. split; try done. intros Hapi. clear Hr. apply String.eqb_neq in Hapi. rewrite Hapi in E.
  destruct (String.eqb_spec (AuthMode c) "oidc") as [Hm|].
  - destruct (_ || _) eqn:Ho; [done|]. apply orb_false_iff in Ho as [[?%String.eqb_neq ?%String.eqb_neq]%orb_false_iff ?%String.eqb_neq]. auto.
  - destruct (String.eqb _ "trusted_proxy" || _) eqn:Hm; [|done]. destruct (String.eqb (TrustedProxyCIDRs c) _ || _) eqn:Ho; [done|].
    apply orb_false_iff in Ho as [?%String.eqb_neq ?%String.eqb_neq]. apply orb_true_iff in Hm as [?%String.eqb_eq|?%String.eqb_eq]; auto.
Qed.
Lemma positive_pos r v : positive r = Some v → 0 < v.
Proof. unfold positive. intros (x & _ & E)%bind_Some. destruct (Z.leb_spec x 0); simplify_eq/=. done. Qed.
Lemma parsePositiveFloat_not_below value v : parsePositiveFloat value = Some v → f_le v (f_of_Z 0) = false.
Proof. unfold parsePositiveFloat. intros (x & _ & E)%bind_Some. destruct (f_le x _) eqn:Hx; simplify_eq/=. done. Qed.
(** A configuration that is accepted is startable, and its durations and counts are
    positive; of the two distances it is only known that they do not compare below zero. *)
Lemma FromEnv_startable c :
  FromEnv = Ok c →
  startable c ∧ 0 < GTFSRTStaleAfter c ∧ 0 < GTFSRTSpeedSamples c ∧ 0 < PCSAISImportPoll c ∧ 0 < MLStackTimeout c ∧
  f_le (GTFSRTSnapMaxMeters c) (f_of_Z 0) = false ∧ f_le (GTFSRTStopArriveMeters c) (f_of_Z 0) = false.
Proof.
  unfold FromEnv, setting. intros E.
  repeat match type of E with match ?r with Some _ => _ | None => _ end = _ => destruct r eqn:?; [|done] end.
  apply checked_startable in E as [-> Hs]. split; [done|]. cbn.
  repeat match goal with
  | H : positive _ = Some _ |- _ => apply positive_pos in H
  | H : parsePositiveFloat _ = Some _ |- _ => apply parsePositiveFloat_not_below in H
  end.
  done.
Qed.
End config.

(** The knobs of the feed builder, as [cmd/geo-service/main.go] passes them on. *)
Definition feed_config (c : ServiceConfig) : Config :=
  withDefaults (mkConfig (GTFSRTStaleAfter c) (GTFSRTSnapMaxMeters c) (GTFSRTStopArriveMeters c) (GTFSRTStopSpeedMilliknots c)
    (GTFSRTETAMinSpeedMilliknots c) (GTFSRTSpeedSamples c) 0 0).
(** A distance that is not a number passes the check, survives the defaults, and then no
    vessel is off its route. *)
Example nan_disables_the_snap_limit :
  parsePositiveFloat (λ _, Some S754_nan) "NaN" = Some S754_nan ∧
  (let c := withDefaults (mkConfig 0 S754_nan S754_nan 0 0 0 0 0) in ∀ off, f_lt (SnapMaxMeters c) off = false).
Proof. split; [reflexivity|]. intros c off. reflexivity. Qed.

(** ** The clients *)

Definition millisecond : Z := 1000000.
Inductive knob_error := KnobInvalid (name : string) | BrokersEmpty.
(** A knob that is not set keeps its default; one that is set must be accepted. *)
Definition knob (Getenv : string → string) (name : string) (accepted : Z → bool) (convert : Z → Z) (default_ : Z) : result knob_error Z :=
  let raw := Getenv name in
  if String.eqb raw "" then Ok default_
  else match Atoi raw with
       | Some value => if accepted value then Ok (convert value) else Err (KnobInvalid name)
       | None => Err (KnobInvalid name)
       end.
Definition above_zero (v : Z) : bool := 0 <? v.
Definition not_negative (v : Z) : bool := 0 <=? v.

Record ProducerConfig := mkProducerConfig { pc_Brokers : list string; pc_RequiredAcks : Z; pc_Attempts : Z; pc_Backoff : Z }.
(** [BatchSize] is zero where the library's default stays. *)
Record KafkaProducer := mkKafkaProducer {
  kp_Brokers : list string; kp_RequiredAcks : Z; kp_attempts : Z; kp_backoff : Z; kp_BatchSize : Z; kp_BatchTimeout : Z }.
Definition RequireAll : Z := -1.
Definition NewProducer (Getenv : string → string) (config : ProducerConfig) : result knob_error KafkaProducer :=
  let brokers := omap (λ b, let trimmed := TrimSpace b in if String.eqb trimmed "" then None else Some trimmed) (pc_Brokers config) in
  if bool_decide (brokers = []) then Err BrokersEmpty
  else
    batchSize ← knob Getenv "GEO_KAFKA_BATCH_SIZE" above_zero id 0;
    batchTimeout ← knob Getenv "GEO_KAFKA_BATCH_TIMEOUT_MS" above_zero (λ v, int64 (v * millisecond)) (50 * millisecond);
    Ok (mkKafkaProducer brokers (if pc_RequiredAcks config =? 0 then RequireAll else pc_RequiredAcks config)
          (if pc_Attempts config <=? 0 then 5 else pc_Attempts config) (if pc_Backoff config <=? 0 then 200 * millisecond else pc_Backoff config)
          batchSize batchTimeout).

(** The sizes of a pool; the defaults are those of the library. *)
Record PoolConfig := mkPoolConfig { po_MaxConns : Z; po_MinConns : Z; po_MaxConnIdleTime : Z; po_MaxConnLifetime : Z }.
Definition ApplyPoolEnv (Getenv : string → string) (config : PoolConfig) : result knob_error PoolConfig :=
  maxConns ← knob Getenv "GEO_DB_POOL_MAX_CONNS" above_zero int32 (po_MaxConns config);
  minConns ← knob Getenv "GEO_DB_POOL_MIN_CONNS" not_negative int32 (po_MinConns config);
  idle ← knob Getenv "GEO_DB_POOL_MAX_CONN_IDLE_SEC" above_zero (λ v, int64 (v * second)) (po_MaxConnIdleTime config);
  life ← knob Getenv "GEO_DB_POOL_MAX_CONN_LIFE_SEC" above_zero (λ v, int64 (v * second)) (po_MaxConnLifetime config);
  Ok (mkPoolConfig maxConns minConns idle life).

(** [net.SplitHostPort]. *)
Definition has_char (c : char) (s : string) : bool := negb (all_chars (λ a, negb (Ascii.eqb a c)) s).
Definition colon : char := char_of 58.
Definition lbracket : char := char_of 91.
Definition rbracket : char := char_of 93.
Definition SplitHostPort (hostport : string) : option (string * string) :=
  match hostport with
  | String c rest =>
      if Ascii.eqb c lbracket
      then match cut_first rbracket rest with
           | Some (host, String d port) =>
               if Ascii.eqb d colon && negb (has_char colon port) && negb (has_char lbracket rest) && negb (has_char rbracket port)
               then Some (host, port) else None
           | _ => None
           end
      else match cut_last colon hostport with
           | Some (host, port) =>
               if has_char colon host || has_char lbracket hostport || has_char rbracket hostport then None else Some (host, port)
           | None => None
           end
  | EmptyString => None
  end.
Record TelemetryConfig := mkTelemetryConfig { tl_Enabled : bool; tl_Endpoint : string; tl_Insecure : bool; tl_ServiceName : string }.
Inductive telemetry_error := ServiceNameRequired | ServiceNameLong | NotBoolean (name : string) | DisabledWithEndpoint | EndpointInvalid | PortInvalid.
Definition parseBoolean (Getenv : string → string) (name : string) : result telemetry_error bool :=
  let value := TrimSpace (Getenv name) in
  if String.eqb value "" || String.eqb value "false" then Ok false else if String.eqb value "true" then Ok true else Err (NotBoolean name).
Definition LoadConfig (Getenv : string → string) (serviceName : string) : result telemetry_error TelemetryConfig :=
  if blank serviceName then Err ServiceNameRequired
  else
    let override := TrimSpace (Getenv "OTEL_SERVICE_NAME") in
    if (128 <? String.length override)%nat then Err ServiceNameLong
    else
      let name := if String.eqb override "" then serviceName else override in
      disabled ← parseBoolean Getenv "OTEL_SDK_DISABLED";
      insecure ← parseBoolean Getenv "OTEL_EXPORTER_OTLP_INSECURE";
      let endpoint := TrimSpace (Getenv "OTEL_EXPORTER_OTLP_ENDPOINT") in
      if disabled : bool
      then if String.eqb endpoint "" then Ok (mkTelemetryConfig false "" insecure name) else Err DisabledWithEndpoint
      else if String.eqb endpoint "" then Ok (mkTelemetryConfig false "" insecure name)
      else match SplitHostPort endpoint with
           | Some (host, port) =>
               if String.eqb host "" then Err EndpointInvalid
               else match Atoi port with
                    | Some number =>
                        if (number <? 1) || (65535 <? number) then Err PortInvalid else Ok (mkTelemetryConfig true endpoint insecure name)
                    | None => Err PortInvalid
                    end
           | None => Err EndpointInvalid
           end.

(** ** The authenticators *)

Inductive authenticator := OIDCAuth (issuer audience jwksURL : string) | ProxyAuth (proxy : TrustedProxy).
Inductive authenticator_error := URLInvalid | OIDCIncomplete | CAFileUnusable | CIDRInvalid | ModeUnknown.
Section authenticators.
(** [url.Parse] succeeds; [net.ParseCIDR]; the file can be read and holds a certificate. *)
Context (url_valid : string → bool) (ParseCIDR : string → option IPNet) (ca_usable : string → bool).
Definition NewOIDCAuthenticator (issuer audience jwksURL caFile : string) : result authenticator_error authenticator :=
  if String.eqb issuer "" || String.eqb audience "" then Err OIDCIncomplete
  else if negb (String.eqb caFile "") && negb (ca_usable caFile) then Err CAFileUnusable
  else Ok (OIDCAuth issuer audience jwksURL).
Fixpoint parse_cidrs (cidrs : list string) : option (list IPNet) :=
  match cidrs with
  | [] => Some []
  | c :: rest => network ← ParseCIDR (TrimSpace c); networks ← parse_cidrs rest; Some (network :: networks)
  end.
Definition build_authenticator (mode issuer audience jwksURL caFile cidrs identity : string) : result authenticator_error authenticator :=
  if String.eqb mode "oidc"
  then if url_valid jwksURL then NewOIDCAuthenticator issuer audience jwksURL caFile else Err URLInvalid
  else if String.eqb mode "trusted_proxy" || String.eqb mode "loopback_trusted_proxy"
  then match parse_cidrs (split_on (char_of 44) cidrs) with
       | Some networks => Ok (ProxyAuth (mkTrustedProxy networks identity))
       | None => Err CIDRInvalid
       end
  else Err ModeUnknown.
(** [buildAuthenticator] of the geo service. *)
Definition buildAuthenticator (c : ServiceConfig) : result authenticator_error authenticator :=
  build_authenticator (AuthMode c) (OIDCIssuer c) (OIDCAudience c) (OIDCJWKSURL c) (OIDCCAFile c) (TrustedProxyCIDRs c) (TrustedProxyID c).
(** [buildAuthenticator] of the MRV service. *)
Definition mrv_buildAuthenticator (ToLower : string → string) (Getenv : string → string) : result authenticator_error authenticator :=
  build_authenticator (ToLower (getenv Getenv "MRV_AUTH_MODE" "oidc")) (Getenv "MRV_OIDC_ISSUER") (Getenv "MRV_OIDC_AUDIENCE")
    (Getenv "MRV_OIDC_JWKS_URL") (Getenv "MRV_OIDC_CA_FILE") (Getenv "MRV_TRUSTED_PROXY_CIDRS") (Getenv "MRV_TRUSTED_PROXY_ID").
End authenticators.

(** ** Starting the geo service *)

(** The outside steps of the start, each of which may fail. *)
Inductive outside := OTraceExporter | OPostgres | OMigrations | OZoneSeed | OPartitions | ORedis | ODevicePostgres.
Inductive startup_error :=
| ConfigRefused (e : setting_error) | SignerRefused (e : env_error) | TelemetryRefused (e : telemetry_error) | KnobRefused (e : knob_error)
| Unreachable (o : outside) | DedupRefused (e : dedup_error) | NothingEnabled | AuthRefused (e : authenticator_error) | MLRefused (e : client_error)
| KeyGraceInvalid | ManifestKeyInvalid (e : key_error)
| MissingSetting (name : string) | CIIRefused (e : MrvEstimate.config_error) | DeadlinesInvalid | ActivityRefused | ServiceRefused (e : wiring_error) | PollInvalid.
Definition or_refuse {E A} (refused : E → startup_error) (r : result E A) : result startup_error A :=
  match r with Ok a => Ok a | Err e => Err (refused e) end.
Definition given {A} (missing : startup_error) (r : option A) : result startup_error A := match r with Some a => Ok a | None => Err missing end.

Inductive connector := NMEAListener | AISStreamClient | GT06Server | ReplayConnector | PCSImporter.
Definition connectors_of (c : ServiceConfig) : list connector :=
  (if negb (String.eqb (NMEATCPAddr c) "") || negb (String.eqb (NMEAUDPAddr c) "") then [NMEAListener] else [])
  ++ (if negb (String.eqb (AISStreamAPIKey c) "") then [AISStreamClient] else [])
  ++ (if negb (String.eqb (GT06Addr c) "") then [GT06Server] else [])
  ++ (if negb (String.eqb (ReplayFile c) "") then [ReplayConnector] else [])
  ++ (if negb (String.eqb (PCSAISImportDSN c) "") then [PCSImporter] else []).
(** [pa_devices] is the grace of the device plane, when it is configured. *)
Record api_process := mkApiProcess {
  pa_authenticator : authenticator; pa_wiring : wiring; pa_ml : option MlClient; pa_feeds : Config; pa_devices : option Z; pa_log : bool }.
Record process := mkProcess {
  pr_config : ServiceConfig; pr_signer : Jws.Signer; pr_telemetry : TelemetryConfig; pr_pool : PoolConfig; pr_checker : Checker;
  pr_producer : KafkaProducer; pr_connectors : list connector; pr_api : option api_process }.

Section start.
Context `{Ed25519} `{JsonText}.
Context (ToLower : string → string) (ParseDuration : string → option Z) (ParseFloat : string → option float64).
Context (parse_url : string → option url) (ParseCIDR : string → option IPNet) (ca_usable : string → bool).
Context (Getenv : string → string) (reachable : outside → bool) (pool_defaults : PoolConfig).
Definition url_ok (s : string) : bool := bool_decide (is_Some (parse_url s)).
Definition outside_step (o : outside) : result startup_error unit := if reachable o then Ok tt else Err (Unreachable o).
Definition setup_telemetry (t : TelemetryConfig) : result startup_error unit := if tl_Enabled t then outside_step OTraceExporter else Ok tt.

(** [buildDevicePlane]: the grace when the plane is configured. *)
Definition key_grace : result startup_error Z :=
  let raw := TrimSpace (Getenv "GEO_DEVICE_KEY_GRACE") in
  if String.eqb raw "" then Ok DefaultKeyGrace else given KeyGraceInvalid (positive (ParseDuration raw)).
Definition buildDevicePlane : result startup_error (option Z) :=
  if blank (Getenv "GEO_DEVICES_PG_DSN") then Ok None
  else
    grace ← key_grace;
    _ ← or_refuse KnobRefused (ApplyPoolEnv Getenv pool_defaults);
    _ ← outside_step ODevicePostgres;
    _ ← or_refuse ManifestKeyInvalid (ParsePrivateKey (Getenv "ENVELOPE_SIGNING_PRIVATE_KEY"));
    Ok (Some (verifier_grace grace)).
Definition build_ml (c : ServiceConfig) : result startup_error (option MlClient) :=
  if String.eqb (MLStackURL c) "" then Ok None
  else client ← or_refuse MLRefused (NewClient parse_url (mkMlConfig (MLStackURL c) (MLStackServiceToken c) (MLStackTimeout c))); Ok (Some client).
Definition wiring_of (c : ServiceConfig) (ml : option MlClient) : wiring :=
  mkWiring true true true (SSEEnabled c) (bool_decide (is_Some ml)).
Definition build_api (c : ServiceConfig) : result startup_error (option api_process) :=
  if String.eqb (APIAddr c) "" then Ok None
  else
    authenticator ← or_refuse AuthRefused (buildAuthenticator url_ok ParseCIDR ca_usable c);
    ml ← build_ml c;
    devices ← buildDevicePlane;
    Ok (Some (mkApiProcess authenticator (wiring_of c ml) ml (feed_config c) devices (RequestLog c))).

Definition run : result startup_error process :=
  c ← or_refuse ConfigRefused (FromEnv ToLower ParseDuration ParseFloat Getenv);
  signer ← or_refuse SignerRefused (SignerFromEnvForProducer Getenv Producer);
  telemetry ← or_refuse TelemetryRefused (LoadConfig Getenv "blueeconomy-geo-service");
  _ ← setup_telemetry telemetry;
  pool ← or_refuse KnobRefused (ApplyPoolEnv Getenv pool_defaults);
  _ ← outside_step OPostgres;
  _ ← (if String.eqb (Getenv "GEO_RUN_MIGRATIONS") "false" then Ok tt else outside_step OMigrations);
  _ ← outside_step OZoneSeed;
  _ ← outside_step OPartitions;
  _ ← outside_step ORedis;
  checker ← or_refuse DedupRefused (NewChecker true (DedupWindow c));
  producer ← or_refuse KnobRefused (NewProducer Getenv (mkProducerConfig (KafkaBrokers c) 0 0 0));
  let connectors := connectors_of c in
  if bool_decide (connectors = []) && String.eqb (APIAddr c) "" then Err NothingEnabled
  else
    api ← build_api c;
    Ok (mkProcess c signer telemetry pool checker producer connectors api).

(** ** What a geo service that runs has *)

Record complete (pr : process) : Prop := mkComplete {
  cp_config : startable (pr_config pr);
  cp_window : MinWindow ≤ window (pr_checker pr) ≤ MaxWindow;
  cp_brokers : kp_Brokers (pr_producer pr) ≠ [] ∧ kp_RequiredAcks (pr_producer pr) = RequireAll ∧ 0 < kp_attempts (pr_producer pr);
  cp_purpose : pr_connectors pr ≠ [] ∨ is_Some (pr_api pr);
  cp_replay : ReplayConnector ∈ pr_connectors pr → AppEnv (pr_config pr) ≠ "prod" ∧ AppEnv (pr_config pr) ≠ "production";
  cp_address : is_Some (pr_api pr) ↔ APIAddr (pr_config pr) ≠ "";
  cp_authenticator : ∀ a, pr_api pr = Some a →
    match pa_authenticator a with
    | OIDCAuth issuer audience jwksURL => issuer ≠ "" ∧ audience ≠ "" ∧ jwksURL ≠ "" ∧ url_ok jwksURL = true
    | ProxyAuth proxy => CIDRs proxy ≠ [] ∧ Identity proxy ≠ ""
    end;
  cp_recommend : ∀ a, pr_api pr = Some a →
    (wi_recommend (pa_wiring a) = true ↔ MLStackURL (pr_config pr) ≠ "") ∧ (∀ client, pa_ml a = Some client → mc_token client ≠ "" ∧ 0 < mc_timeout client);
  cp_devices : ∀ a, pr_api pr = Some a → (is_Some (pa_devices a) ↔ blank (Getenv "GEO_DEVICES_PG_DSN") = false) ∧ ∀ grace, pa_devices a = Some grace → 0 < grace;
}.
Lemma or_refuse_Ok {E A} (refused : E → startup_error) (r : result E A) a : or_refuse refused r = Ok a → r = Ok a.
Proof. by destruct r; intros [=->]. Qed.
Lemma given_Ok {A} missing (r : option A) a : given missing r = Ok a → r = Some a.
Proof. by destruct r; intros [=->]. Qed.
Lemma split_on_nonempty c s : split_on c s ≠ [].
Proof. destruct s as [|a s]; [done|]. cbn. destruct (Ascii.eqb a c); [done|]. by destruct (split_on c s). Qed.
Lemma buildAuthenticator_complete c a :
  startable c → APIAddr c ≠ "" → buildAuthenticator url_ok ParseCIDR ca_usable c = Ok a →
  match a with
  | OIDCAuth issuer audience jwksURL => issuer ≠ "" ∧ audience ≠ "" ∧ jwksURL ≠ "" ∧ url_ok jwksURL = true
  | ProxyAuth proxy => CIDRs proxy ≠ [] ∧ Identity proxy ≠ ""
  end.
Proof.
  intros Hs Ha. unfold buildAuthenticator, build_authenticator. destruct (st_auth c Hs Ha) as [(-> & ? & ? & ?)|(Hm & ? & ?)]; cbn [String.eqb].
  - cbn. destruct (url_ok _) eqn:Hu; [|done]. unfold NewOIDCAuthenticator. destruct (_ || _); [done|]. destruct (_ && _); [done|]. by intros [= <-].
  - assert (String.eqb (AuthMode c) "oidc" = false ∧ String.eqb (AuthMode c) "trusted_proxy" || String.eqb (AuthMode c) "loopback_trusted_proxy" = true) as [-> ->]
      by (destruct Hm as [-> | ->]; done).
    destruct (parse_cidrs _ _) as [networks|] eqn:Hn; [|done]. intros [= <-]. split; [|done]. cbn. intros ->.
    pose proof (split_on_nonempty (char_of 44) (TrustedProxyCIDRs c)) as Hne. destruct (split_on _ _) as [|x l]; [done|]. cbn in Hn.
    apply bind_Some in Hn as (? & _ & (? & _ & [=])%bind_Some).
Qed.
Lemma NewClient_token cfg client : NewClient parse_url cfg = Ok client → mc_token client ≠ "" ∧ 0 < mc_timeout client.
Proof.
  unfold NewClient. destruct (parse_url _); [|done]. destruct (_ || _); [done|]. destruct (negb _); [done|].
  destruct (String.eqb_spec (TrimSpace (ml_ServiceToken cfg)) ""); [done|]. intros [= <-]. split; [done|]. cbn. destruct (Z.leb_spec (ml_Timeout cfg) 0); unfold second; lia.
Qed.
Lemma buildDevicePlane_grace devices :
  buildDevicePlane = Ok devices →
  (is_Some devices ↔ blank (Getenv "GEO_DEVICES_PG_DSN") = false) ∧ ∀ grace, devices = Some grace → 0 < grace.
Proof.
  unfold buildDevicePlane. destruct (blank _); [intros [= <-]; split; [split; [by intros [? ?]|done]|done]|].
  intros (g & _ & (? & _ & (? & _ & (? & _ & [= <-])%bind_Ok)%bind_Ok)%bind_Ok)%bind_Ok. split; [split; [done|eauto]|]. intros ? [= <-].
  unfold verifier_grace, DefaultKeyGrace. destruct (Z.leb_spec g 0); unfold hour, second; lia.
Qed.
Lemma replay_connector c : startable c → ReplayConnector ∈ connectors_of c → AppEnv c ≠ "prod" ∧ AppEnv c ≠ "production".
Proof.
  intros Hs Hin. assert (ReplayFile c ≠ "") as Hf.
  { intros E. unfold connectors_of in Hin. rewrite E in Hin. cbn in Hin. repeat case_match; set_solver. }
  split; intros E; apply Hf, (st_no_replay c Hs); auto.
Qed.

(** C12: a geo service that starts is complete. When every step of the start succeeds, the
    configuration has its stores, its brokers and its principal; the deduplication window is
    between ten and thirty seconds; every write waits for all replicas; something is
    enabled; a replayed file never runs in production; the interface exists exactly when it
    has an address, and then behind an authenticator that has an issuer, an audience and an
    address for its keys, or at least one network and a proxy identity; recommendations are
    wired exactly when the scorer is configured, with a token and a positive timeout; and
    the device plane exists exactly when its database is configured, with a positive grace. *)
Theorem started_service_is_complete (pr : process) : run = Ok pr → complete pr.
Proof.
  unfold run. intros (c & Hc%or_refuse_Ok & (sg & _ & (tl & _ & (? & _ & (po & _ & (? & _ & E)%bind_Ok)%bind_Ok)%bind_Ok)%bind_Ok)%bind_Ok)%bind_Ok.
  apply FromEnv_startable in Hc as (Hs & _).
  apply bind_Ok in E as (? & _ & (? & _ & (? & _ & (? & _ & (ck & Hck%or_refuse_Ok & (kp & Hkp%or_refuse_Ok & E)%bind_Ok)%bind_Ok)%bind_Ok)%bind_Ok)%bind_Ok).
  destruct (_ && _) eqn:Hsome; [done|]. apply bind_Ok in E as (api & Hapi & [= <-]).
  assert (MinWindow ≤ window ck ≤ MaxWindow) as Hwin.
  { unfold NewChecker in Hck. cbn in Hck. destruct (_ || _) eqn:Hw; [done|]. injection Hck as <-. bool_to_prop. cbn. lia. }
  assert (kp_Brokers kp ≠ [] ∧ kp_RequiredAcks kp = RequireAll ∧ 0 < kp_attempts kp) as Hb.
  { unfold NewProducer in Hkp. destruct (bool_decide (omap _ _ = [])) eqn:Hbr; [done|]. apply bool_decide_eq_false in Hbr. by apply bind_Ok in Hkp as (? & _ & (? & _ & [= <-])%bind_Ok). }
  unfold build_api in Hapi. destruct (String.eqb_spec (APIAddr c) "") as [Ha|Ha].
  { injection Hapi as <-. rewrite andb_true_r in Hsome. apply bool_decide_eq_false in Hsome.
    split; cbn; try done; auto using replay_connector. }
  apply bind_Ok in Hapi as (auth & Hauth%or_refuse_Ok & (ml & Hml & (dv & Hdv & [= <-])%bind_Ok)%bind_Ok).
  assert ((wi_recommend (wiring_of c ml) = true ↔ MLStackURL c ≠ "") ∧ (∀ client, ml = Some client → mc_token client ≠ "" ∧ 0 < mc_timeout client)) as Hrec.
  { unfold build_ml in Hml. destruct (String.eqb_spec (MLStackURL c) "").
    - injection Hml as <-. split; [|done]. by split.
    - apply bind_Ok in Hml as (client & Hcl%or_refuse_Ok & [= <-]). split; [done|]. intros ? [= <-]. by eapply NewClient_token. }
  split; cbn; try done; eauto using replay_connector.
  - intros a [= <-]. cbn. by eapply buildAuthenticator_complete.
  - by intros a [= <-].
  - intros a [= <-]. cbn. by apply buildDevicePlane_grace.
Qed.

(** ** Starting the MRV service *)

Definition envUint32 (name : string) (fallback : Z) : result startup_error Z :=
  let raw := TrimSpace (Getenv name) in
  if String.eqb raw "" then Ok fallback else given (MissingSetting name) (ParseUint32 raw).
Definition activityParamsFromEnv : result startup_error ActivityParams :=
  let params := DefaultActivityParams in
  sog ← envUint32 "MRV_AIS_SOG_THRESHOLD_MILLIKNOTS" (SogThresholdMilliknots params);
  let raw := TrimSpace (Getenv "MRV_AIS_SEGMENT_GAP_MINUTES") in
  gap ← (if String.eqb raw "" then Ok (SegmentGap params)
         else minutes ← given (MissingSetting "MRV_AIS_SEGMENT_GAP_MINUTES") (Atoi raw); Ok (int64 (minutes * (60 * second))));
  coverage ← envUint32 "MRV_AIS_MIN_COVERAGE_PERMILLE" (MinCoveragePermille params);
  let params := mkActivityParams sog gap coverage in
  match params_Validate params with Ok _ => Ok params | Err _ => Err ActivityRefused end.
Definition required_env (name : string) : result startup_error string :=
  let value := TrimSpace (Getenv name) in if String.eqb value "" then Err (MissingSetting name) else Ok value.
Record mrv_process := mkMrvProcess {
  mp_service : MrvService.Service; mp_producer : KafkaProducer; mp_publisher : OutboxPublisher; mp_authenticator : authenticator; mp_log : bool }.
(** The signer is kept in the form the workflow uses; the table of factors is in the database. *)
Context (ReadFile : string → option string) (decode_cii : string → option CIIConfig) (signer_keys : Jws.Signer → SignerKeys) (table : list FactorRow).
Definition mrv_run : result startup_error mrv_process :=
  telemetry ← or_refuse TelemetryRefused (LoadConfig Getenv ProducerName);
  _ ← setup_telemetry telemetry;
  _ ← required_env "MRV_PG_DSN";
  let brokers := splitCSV (Getenv "MRV_KAFKA_BROKERS") in
  _ ← (if bool_decide (brokers = []) then Err (MissingSetting "MRV_KAFKA_BROKERS") else Ok tt);
  _ ← required_env "MRV_API_ADDR";
  principalID ← required_env "MRV_PRODUCER_PRINCIPAL_ID";
  let principalRole := getenv Getenv "MRV_PRODUCER_PRINCIPAL_ROLE" "mrv-producer" in
  signer ← or_refuse SignerRefused (SignerFromEnvForProducer Getenv ProducerName);
  _ ← or_refuse KnobRefused (ApplyPoolEnv Getenv pool_defaults);
  _ ← outside_step OPostgres;
  _ ← (if String.eqb (Getenv "MRV_RUN_MIGRATIONS") "false" then Ok tt else outside_step OMigrations);
  cii ← or_refuse CIIRefused (LoadCIIConfig ReadFile decode_cii (Getenv "MRV_CII_CONFIG_PATH"));
  deadlines ← given DeadlinesInvalid (DeadlinesFromEnv Getenv);
  activity ← activityParamsFromEnv;
  tolerance ← envUint32 "MRV_AIS_CROSSCHECK_TOLERANCE_PERMILLE" 100;
  gtThreshold ← envUint32 "MRV_DCS_GT_THRESHOLD" 5000;
  service ← or_refuse ServiceRefused
    (NewService true (Some (signer_keys signer)) (mkProvenance principalID principalRole "" "") true cii deadlines activity tolerance gtThreshold table);
  producer ← or_refuse KnobRefused (NewProducer Getenv (mkProducerConfig brokers 0 0 0));
  poll ← given PollInvalid (ParseDuration (getenv Getenv "MRV_OUTBOX_POLL_INTERVAL" "2s"));
  authenticator ← or_refuse AuthRefused (mrv_buildAuthenticator url_ok ParseCIDR ca_usable ToLower Getenv);
  Ok (mkMrvProcess service producer (NewOutboxPublisher poll 100) authenticator
        (negb (String.eqb (ToLower (getenv Getenv "MRV_REQUEST_LOG" "true")) "false"))).
End start.

Module StartSamples.
#[local] Existing Instance SampleKeys.keys.
Definition variable_of (l : list (string * string)) (name : string) : string := default "" (snd <$> List.find (λ kv, String.eqb kv.1 name) l).
Definition durations (s : string) : option Z :=
  snd <$> List.find (λ kv, String.eqb kv.1 s) [("30s", 30 * second); ("5s", 5 * second); ("15s", 15 * second); ("0s", 0); ("120s", 120 * second); ("2s", 2 * second)].
Definition floats (s : string) : option float64 := snd <$> List.find (λ kv, String.eqb kv.1 s) [("200", f_of_Z 200); ("20", f_of_Z 20)].
Definition private_network : IPNet := mkIPNet [10; 0; 0; 0] [255; 0; 0; 0].
Definition cidr (s : string) : option IPNet := if String.eqb s "10.0.0.0/8" then Some private_network else None.
Definition somewhere (s : string) : option url := Some (mkUrl "https" s "" "").
Definition any (s : string) : bool := true.
Definition up (o : outside) : bool := true.
Definition pgx_defaults : PoolConfig := mkPoolConfig 4 0 (1800 * second) (3600 * second).
Definition key_settings : list (string * string) :=
  [("ENVELOPE_SIGNING_PRIVATE_KEY", "0102030405060708090a0b0c0d0e0f101112131415161718191a1b1c1d1e1f20"); ("ENVELOPE_SIGNING_KEY_EPOCH", "7")].
Definition geo_env : string → string := variable_of (key_settings ++
  [("GEO_PG_DSN", "postgres://geo"); ("GEO_INGEST_PG_DSN", "postgres://ingest"); ("GEO_REDIS_ADDR", "redis:6379"); ("GEO_KAFKA_BROKERS", "kafka:9092");
   ("GEO_PRODUCER_PRINCIPAL_ID", "geo-ingest"); ("GEO_PRODUCER_PRINCIPAL_ROLE", "SYSTEM"); ("GEO_API_ADDR", ":8080"); ("GEO_AUTH_MODE", "trusted_proxy");
   ("GEO_TRUSTED_PROXY_CIDRS", "10.0.0.0/8"); ("GEO_TRUSTED_PROXY_ID", "edge"); ("GEO_SSE_ENABLED", "true")]).
Definition geo_start : result startup_error process := run id durations floats somewhere cidr any geo_env up pgx_defaults.
Lemma started_service_is_complete_witness :
  match geo_start with Ok pr => complete somewhere geo_env pr | Err _ => False end.
Proof.
  destruct geo_start as [pr|e] eqn:E.
  - exact (started_service_is_complete id durations floats somewhere cidr any geo_env up pgx_defaults pr E).
  - vm_compute in E. discriminate E.
Defined.
Example geo_process :
  match geo_start with
  | Ok pr => pr_connectors pr = [] ∧ (pa_authenticator <$> pr_api pr) = Some (ProxyAuth (mkTrustedProxy [private_network] "edge"))
             ∧ (pa_wiring <$> pr_api pr) = Some (mkWiring true true true true false)
  | Err _ => False
  end.
Proof. vm_compute. done. Qed.
(** A window of half a minute and a second is refused, and so is a lone token. *)
Example refused_starts :
  run id (λ s, if String.eqb s "15s" then Some (31 * second) else durations s) floats somewhere cidr any geo_env up pgx_defaults
    = Err (DedupRefused (WindowOutOfRange (31 * second))) ∧
  run id durations floats somewhere cidr any (λ name, if String.eqb name "ML_STACK_SERVICE_TOKEN" then "t" else geo_env name) up pgx_defaults
    = Err (ConfigRefused HalfConfigured).
Proof. vm_compute. done. Qed.

(** The MRV service starts behind a proxy without an identity; it then takes the headers of
    every host of the network that leaves the identity header out. *)
Definition mrv_env : string → string := variable_of (key_settings ++
  [("MRV_PG_DSN", "postgres://mrv"); ("MRV_KAFKA_BROKERS", "kafka:9092"); ("MRV_API_ADDR", ":8081"); ("MRV_PRODUCER_PRINCIPAL_ID", "mrv");
   ("MRV_AUTH_MODE", "trusted_proxy"); ("MRV_TRUSTED_PROXY_CIDRS", "10.0.0.0/8")]).
Definition silent_keys (s : Jws.Signer) : SignerKeys := mkSigner (λ _, None) (λ _, None).
Definition mrv_start : result startup_error mrv_process :=
  mrv_run id durations somewhere cidr any mrv_env up pgx_defaults (λ _, None) (λ _, None) silent_keys [].
#[local] Instance one_address : NetAddress := {| SplitHost := λ s, None; ParseIP := λ s, Some [10; 9; 8; 7] |}.
Definition forged : Request := Auth.mkHttpRequest "10.9.8.7" (variable_of
  [("X-Blueeconomy-Authenticated-Subject", "mallory"); ("X-Blueeconomy-Authenticated-Roles", "mrv-flag-admin");
   ("X-Blueeconomy-Authenticated-Clearance", "SECRET")]).
Example mrv_proxy_identity_optional :
  match mrv_start with
  | Ok pr => match mp_authenticator pr with
             | ProxyAuth proxy => Identity proxy = "" ∧ proxy_Authenticate proxy forged = Ok (mkPrincipal "mallory" {["mrv-flag-admin"]} "SECRET" "")
             | OIDCAuth _ _ _ => False
             end
  | Err _ => False
  end.
Proof. vm_compute. done. Qed.
(** A pool size beyond 32 bits wraps to one the check would have refused. *)
Example pool_size_wraps :
  ApplyPoolEnv (λ name, if String.eqb name "GEO_DB_POOL_MAX_CONNS" then "4294967295" else "") pgx_defaults
  = Ok (mkPoolConfig (-1) 0 (1800 * second) (3600 * second)).
Proof. vm_compute. done. Qed.
End StartSamples.
